(* ===== verification/_CoqProject ===== *)
-Q . S2P
Prelude.v
Cmdline.v
Motion.v
MotionCore.v
StepPulse.v
Steppers.v
Mmc.v
FatFs.v
FatRead.v
FatDir.v
FatMount.v
Boot.v
FatTotal.v
CardTotal.v
Kqueue.v
Kheap.v
Ktimer.v
Ksched.v
Ksem.v
Kmutex.v
Kinv.v
Kops.v
Kkill.v
Kernel.v
Ksafe.v
Kinit.v
Kreach.v
Kframe.v
Ksync.v
Kcount.v
Kwait.v
Ktokens.v
Kclient.v
Bufmalloc.v
Kmsg.v
KmsgPool.v
KmsgInv.v
KmsgOps.v
KmsgFifo.v
Kshm.v
Kthread.v
KthreadStack.v
KthreadJoin.v
Xspi.v
XspiCore.v
MmcSpi.v
