(* ===== verification/Prelude.v ===== *)
(** * Verification of the VP2motion boot loader

    The program is the software of an FPGA based motion controller: a boot
    loader (src/sdloader/src) that runs a serial console, drives stepper motors
    through a motion core in the FPGA, reads a FAT formatted SD card over SPI and
    starts an ELF program from it. Beside the loader the repository holds the
    motion core's hardware description (src/pcores/motion_v1_00_a), the SPI
    driver (src/drivers/spi_v2_00_a) and the kernel that programs for the board
    are linked with (src/bsp/xilkernel_v4_00_a).

    ** How the code is modelled

    A C function is a Rocq function of the same name in the state monad [ST] of
    this file, over a record of the variables it uses; [None] is undefined
    behaviour (an access outside of an array, a violated assertion) or an
    exhausted fuel, so every theorem that says what a computation returns also
    says that it is defined and ends. Integers are [Z] with the wrap-around of
    their type written out ([u8], [u16], [u32], [s32], [s64]). [wp] is total
    correctness: [wp m s Q] states that [m] has a result from [s] that satisfies
    [Q]. Loops of the C code are recursive functions, on a counter where the code
    has one and on a fuel otherwise; hardware and library code that is not in
    the repository is a type class that the definitions take as an argument.

    ** The files

    - Cmdline.v: cmdline.c, the line editor with VT100 keys and history, the
      command table and the argument accessors. Every key sequence behaves like
      an abstract editor with a line, a cursor and a list of recent lines; no
      sequence leaves the buffers; command arguments are the words typed.
    - Motion.v, MotionCore.v: motion.c on the bus, and the core's user_logic.v,
      acc_step_gen.v and acc_profile_gen.v one clock cycle at a time. A programmed
      move takes exactly its steps (where 0 in the register means 2^32) and leaves
      the position that the third-order differences give.
    - StepPulse.v: motor_step_gen.v and the whole core with the counter of missed
      steps. As long as no register is written and the velocity keeps its
      direction and a bound, the pulses that the motor sees follow the position
      register.
    - Steppers.v: steppers.c, the queue of targets, the state machine that the
      main loop polls and the cubic profile, over binary64 and over exact
      rationals, on the core of MotionCore.v. [polled] is the step relation of
      the state machine; every poll makes the step that the queue and the core
      ask for.
    - Mmc.v: mmc.c, diskio.c and osram.c over [SpiMaster], the operations of the
      SPI driver. Reading returns the blocks that the card sends; timeouts and
      error tokens are reported.
    - FatFs.v: ff.c as ffconf.h configures it (read-only, 8.3 names). FatRead.v,
      FatDir.v and FatMount.v prove it over [DiskImage], a disk with given
      sectors: reads return the bytes of the cluster chain, seeks and partial
      reads compose, paths lead to the right directory entry, mounting succeeds
      exactly if there is a boot record that describes a FAT volume and computes its
      geometry, and the objects of a mount are rejected after it, until the 16-bit
      identifiers of the mounts come round.
    - Boot.v: main.c, the ELF loader, the commands and the main loop. A valid
      program is in memory, segment by segment, when it is started.
    - FatTotal.v, CardTotal.v: nothing assumed about the card. Whatever it sends,
      the driver and every function of the file system return and stay within
      their buffers; a directory with a cycle ends by the width of its index.
    - Kqueue.v, Kheap.v: queue.c of the kernel. The ring buffers are bounded
      queues, the binary heap is a priority queue.
    - Ktimer.v, Ksched.v, Ksem.v, Kmutex.v: the kernel's timers (timer.c), its
      processes and scheduler (process.c, sched.c, elf.c, main.c and the entry
      code of the processor), semaphores (semaphore.c) and mutexes (mutex.c). A
      process that blocks keeps a frame that says how its call goes on.
    - Kinv.v, Kops.v: the invariant of the kernel, and that its operations keep it,
      for configurations whose queues have room for all processes ([KConfigOk]; the
      defaults of os_config.h are not one).
    - Kkill.v: sys_kill of process.c.
    - Kernel.v, Ksafe.v, Kinit.v, Kreach.v: the transition system of system calls,
      continued calls, sys_kill and interrupts of the timer, and what holds in every
      reachable state: no step is undefined, the highest priority runs, sleeping
      processes wake on time, ready processes get the processor, a killed process is
      gone. sys_kill is a step for other processes that have run before; for a process
      that has not run yet, and for the caller, it breaks the invariant, as the end of
      Kreach.v shows, so that the theorems are about runs without such calls.
    - Kframe.v, Ksync.v, Kcount.v, Ktokens.v: what steps leave alone; mutexes exclude
      each other and are handed on; the value of a semaphore is minus the number of
      its waiting processes or not negative, how a timeout breaks that (Kcount.v), and it
      is the initial value plus posts minus waits (Ktokens.v). These are for runs without
      time limits in which no process is killed while it waits for a semaphore.
    - Kwait.v, Kclient.v: what a part of the kernel can rely on about semaphores of
      its own, while other processes make other calls: the invariant [cinv] of
      the semaphores and of the processes suspended there, and what waiting,
      posting and making a semaphore do to it.
    - Kmsg.v: msg.c, the message queues, over the allocator [MsgMem]; KmsgPool.v
      shows that the block pools are one. KmsgInv.v has the invariant: messages in
      order with blocks of their own, and semaphores that count messages and
      places; KmsgOps.v has abstract queues with keys, bounded lists of messages
      and suspended senders and receivers, and shows that every call is a step of
      them; KmsgFifo.v that every run without IPC_RMID and sys_kill is a run of
      the abstract queues, that messages arrive in order, and what IPC_RMID breaks.
    - Kshm.v: shm.c, the shared memory. Calls, loads and stores of all processes
      have the results of separate arrays of bytes that keys name.
    - Kthread.v: pthread.c, the threads, on top of the processes, with the stack
      memory of mem.c and sys_kill as it is with threads. KthreadStack.v: in every
      reachable state the stack pointers that threads start with belong to stacks of
      their own, apart from each other. KthreadJoin.v: a joinable thread keeps its
      return value until it is joined, also by a thread that waits for it, which is
      woken; and what joining and detaching do wrong.
    - Bufmalloc.v: bufmalloc.c of the kernel, the pools of memory blocks whose
      free lists run through the client's memory. Programs of calls and stores
      that keep the client's contract get the results of abstract pools; no
      block is handed out twice.
    - Xspi.v: the SPI driver over the bus ([SpiBus]). XspiCore.v states what it
      relies on about the controller ([SpiCore]: the registers that xspi_l.h
      documents, with undefined bits and timing left open, a receiver that overruns, and no
      second master; the executable controller [soft_core] is an instance) and proves that a transfer exchanges exactly
      the bytes of the buffer, polled and with interrupts, for every FIFO depth
      and every timing.
    - MmcSpi.v: the SPI driver implements the [SpiMaster] that Mmc.v is written
      against. A simulation carries what was proved on the wire to the
      driver and the controller, from the initialisation of the interface on.

    ** Fuel

    The fuels are constants where the code bounds the loop (255 attempts of the
    card's initialization, 257 for the kernel's queues of at most 255 items, the
    number of sectors or characters of the FAT loops) and arguments of the
    function otherwise, with the theorems stating how much is enough: for a
    transfer of the SPI driver, more than its bytes and than the number of
    status reads after which the controller has emptied its FIFO.

    ** Not modelled

    The code that ffconf.h leaves out of ff.c (writing, long names, f_mkfs), the
    unused code page table ccsbcs.c, the self tests that the vendor's tools
    generate, the rest of the kernel (the interrupt controller, memory protection, the
    debug monitor, statistics and traces), the lwIP stack, the
    memory test programs, the UART core, and the project files of the FPGA
    tools. Of the motion core, the end-switch, bounce and delay registers, which
    nothing drives or uses. *)

From Stdlib Require Export ZArith Lia.
From stdpp Require Export base numbers list option sets tactics.

#[export] Set Default Goal Selector "!".

Declare Scope c_scope.
Delimit Scope c_scope with c.
Open Scope Z_scope.

(** ** Machine integers

    Integers are [Z] with the wrap-around of the C type written out. *)

Definition u8 (z : Z) : Z := z mod 2^8.
Definition u16 (z : Z) : Z := z mod 2^16.
Definition u32 (z : Z) : Z := z mod 2^32.
Definition s8 (z : Z) : Z := (z + 2^7) mod 2^8 - 2^7.
Definition s32 (z : Z) : Z := (z + 2^31) mod 2^32 - 2^31.
Definition s64 (z : Z) : Z := (z + 2^63) mod 2^64 - 2^63.

Definition is_u8 (z : Z) : Prop := 0 <= z < 2^8.
Definition is_u16 (z : Z) : Prop := 0 <= z < 2^16.
Definition is_u32 (z : Z) : Prop := 0 <= z < 2^32.

Definition c_bool (b : bool) : Z := if b then 1 else 0.

Create HintDb cint.
Create Rewrite HintDb len.
Create Rewrite HintDb wrap.

Lemma u8_small z : is_u8 z -> u8 z = z.
Proof. apply Z.mod_small. Qed.
Lemma u16_small z : is_u16 z -> u16 z = z.
Proof. apply Z.mod_small. Qed.
Lemma u32_small z : is_u32 z -> u32 z = z.
Proof. apply Z.mod_small. Qed.
Lemma s8_small z : - 2^7 <= z < 2^7 -> s8 z = z.
Proof. intros. unfold s8. rewrite Z.mod_small; lia. Qed.
Lemma s32_small z : - 2^31 <= z < 2^31 -> s32 z = z.
Proof. intros. unfold s32. rewrite Z.mod_small; lia. Qed.

Lemma s64_small z : - 2^63 <= z < 2^63 -> s64 z = z.
Proof. intros. unfold s64. rewrite Z.mod_small; lia. Qed.

(** Wrapping twice, and wrapping an operand of a sum. *)
Lemma u32_mod z : exists k, u32 z = z + k * 2^32.
Proof. exists (- (z / 2^32)). unfold u32. pose proof (Z.div_mod z (2^32)). lia. Qed.
Lemma s32_mod z : exists k, s32 z = z + k * 2^32.
Proof. exists (- ((z + 2^31) / 2^32)). unfold s32. pose proof (Z.div_mod (z + 2^31) (2^32)). lia. Qed.
Lemma s64_mod z : exists k, s64 z = z + k * 2^64.
Proof. exists (- ((z + 2^63) / 2^64)). unfold s64. pose proof (Z.div_mod (z + 2^63) (2^64)). lia. Qed.
Lemma u32_shift z k : u32 (z + k * 2^32) = u32 z.
Proof. apply Z.mod_add. lia. Qed.
Lemma s32_shift z k : s32 (z + k * 2^32) = s32 z.
Proof.
  unfold s32. replace (z + k * 2^32 + 2^31) with (z + 2^31 + k * 2^32) by lia. by rewrite Z.mod_add by lia.
Qed.
Lemma s64_shift z k : s64 (z + k * 2^64) = s64 z.
Proof.
  unfold s64. replace (z + k * 2^64 + 2^63) with (z + 2^63 + k * 2^64) by lia. by rewrite Z.mod_add by lia.
Qed.
Lemma s32_add_l x y : s32 (s32 x + y) = s32 (x + y).
Proof. destruct (s32_mod x) as [k ->]. rewrite <- (s32_shift (x + y) k). f_equal. lia. Qed.
Lemma s32_add_r x y : s32 (x + s32 y) = s32 (x + y).
Proof. rewrite Z.add_comm, s32_add_l. f_equal. lia. Qed.
Lemma s64_add_l x y : s64 (s64 x + y) = s64 (x + y).
Proof. destruct (s64_mod x) as [k ->]. rewrite <- (s64_shift (x + y) k). f_equal. lia. Qed.
Lemma s32_u32 z : s32 (u32 z) = s32 z.
Proof. destruct (u32_mod z) as [k ->]. apply s32_shift. Qed.
Lemma u32_s32 z : u32 (s32 z) = u32 z.
Proof. destruct (s32_mod z) as [k ->]. apply u32_shift. Qed.
Lemma s32_idemp z : s32 (s32 z) = s32 z.
Proof. destruct (s32_mod z) as [k H]. rewrite H at 1. apply s32_shift. Qed.
Lemma u32_sub_l x y : u32 (u32 x - y) = u32 (x - y).
Proof. destruct (u32_mod x) as [k ->]. rewrite <- (u32_shift (x - y) k). f_equal. lia. Qed.
Lemma s64_idemp z : s64 (s64 z) = s64 z.
Proof. destruct (s64_mod z) as [k H]. rewrite H at 1. apply s64_shift. Qed.
#[export] Hint Rewrite s32_add_l s32_add_r s64_add_l s32_u32 u32_s32 s32_idemp s64_idemp : wrap.

Lemma u8_range z : is_u8 (u8 z).
Proof. apply Z.mod_pos_bound. lia. Qed.
Lemma u16_range z : is_u16 (u16 z).
Proof. apply Z.mod_pos_bound. lia. Qed.
Lemma u32_range z : is_u32 (u32 z).
Proof. apply Z.mod_pos_bound. lia. Qed.

Lemma u32_lor x y : is_u32 x -> is_u32 y -> is_u32 (Z.lor x y).
Proof.
  intros Hx Hy. assert (Z.lor x y = Z.lor x y mod 2^32) as ->; [|apply Z.mod_pos_bound; lia].
  rewrite <- Z.land_ones, Z.land_lor_distr_l, !Z.land_ones by lia.
  by rewrite !Z.mod_small.
Qed.

#[export] Hint Resolve u8_range u16_range u32_range u32_lor : cint.

(** [cint] unfolds the width predicates and calls [lia]. *)
Ltac cint := unfold is_u8, is_u16, is_u32 in *; lia.

(** Rewrites away a wrap-around whose argument is in range. *)
Ltac no_wrap :=
  repeat first
    [ rewrite u8_small by cint | rewrite u16_small by cint
    | rewrite u32_small by cint | rewrite s8_small by cint
    | rewrite s32_small by cint ].

(** Arithmetic on list lengths. *)
#[export] Hint Rewrite @length_app @length_cons @length_nil @length_take @length_drop
  @length_insert @length_replicate @length_fmap @length_reverse : len.
Ltac len := autorewrite with len in *; simpl length in *; lia.

(** Composing a number of bit fields. *)
Lemma lor_shiftl x y n : 0 <= n -> 0 <= y < 2^n -> Z.lor (Z.shiftl x n) y = x * 2^n + y.
Proof.
  intros Hn Hy. rewrite <- Z.shiftl_mul_pow2 by lia.
  assert (Z.land (Z.shiftl x n) y = 0) as H0.
  { apply Z.bits_inj'. intros i Hi. rewrite Z.land_spec, Z.shiftl_spec, Z.bits_0 by lia.
    destruct (decide (i < n)); [by rewrite Z.testbit_neg_r by lia|].
    rewrite <- (Z.mod_small y (2^n)), Z.mod_pow2_bits_high by lia. apply andb_false_r. }
  by rewrite <- Z.lxor_lor, Z.add_nocarry_lxor.
Qed.

Lemma cons_eq {A} (x y : A) l k : x = y -> l = k -> x :: l = y :: k.
Proof. by intros -> ->. Qed.

(** ** C arrays

    An array is the list of its elements and is indexed with [Z]; an access
    outside of the array is undefined behaviour and has no result. *)

Definition arr_get {A} (l : list A) (i : Z) : option A :=
  if decide (0 <= i) then l !! Z.to_nat i else None.

Definition arr_set {A} (l : list A) (i : Z) (x : A) : option (list A) :=
  if decide (0 <= i < Z.of_nat (length l)) then Some (<[Z.to_nat i := x]> l) else None.

Section arrays.
Context {A : Type}.
Implicit Types (l : list A) (x : A) (i : Z).

Lemma arr_get_nat l (n : nat) : arr_get l (Z.of_nat n) = l !! n.
Proof. unfold arr_get. rewrite decide_True by lia. by rewrite Nat2Z.id. Qed.

Lemma arr_get_lookup l i : 0 <= i -> arr_get l i = l !! Z.to_nat i.
Proof. intros. unfold arr_get. by rewrite decide_True. Qed.

Lemma arr_get_Some l i :
  0 <= i < Z.of_nat (length l) -> exists x, arr_get l i = Some x.
Proof.
  intros Hi. rewrite arr_get_lookup by lia. apply lookup_lt_is_Some. lia.
Qed.

Lemma arr_get_range l i x : arr_get l i = Some x -> 0 <= i < Z.of_nat (length l).
Proof.
  unfold arr_get. case_decide; [|done]. intros Hx%lookup_lt_Some. lia.
Qed.

Lemma arr_set_in l i x :
  0 <= i < Z.of_nat (length l) -> arr_set l i x = Some (<[Z.to_nat i := x]> l).
Proof. intros. unfold arr_set. by rewrite decide_True. Qed.

Lemma arr_get_middle l1 x l2 i :
  i = Z.of_nat (length l1) -> arr_get (l1 ++ x :: l2) i = Some x.
Proof. intros ->. rewrite arr_get_nat. by apply list_lookup_middle. Qed.

Lemma arr_set_middle l1 x l2 i y :
  i = Z.of_nat (length l1) -> arr_set (l1 ++ x :: l2) i y = Some (l1 ++ y :: l2).
Proof.
  intros ->. rewrite arr_set_in by (rewrite length_app; simpl; lia).
  rewrite Nat2Z.id. by rewrite <- (Nat.add_0_r (length l1)), insert_app_r.
Qed.

Lemma arr_set_Some l i x l' :
  arr_set l i x = Some l' ->
  0 <= i < Z.of_nat (length l) /\ l' = <[Z.to_nat i := x]> l.
Proof. unfold arr_set. case_decide; naive_solver. Qed.
End arrays.

(** Concatenations of blocks of the same length [n]. *)
Section blocks.
Context {A B : Type} (f : A -> list B) (n : nat) (Hn : forall a, length (f a) = n).
Implicit Types (l : list A).

Lemma length_blocks l : length (concat (f <$> l)) = (length l * n)%nat.
Proof. induction l as [|a l IH]; [done|]. cbn. rewrite length_app, Hn. exact (f_equal (Nat.add n) IH). Qed.

Lemma drop_blocks k l : drop (k * n) (concat (f <$> l)) = concat (f <$> drop k l).
Proof.
  revert l. induction k as [|k IH]; intros l; [done|]. destruct l as [|a l]; [by rewrite fmap_nil; simpl concat; rewrite !drop_nil|].
  rewrite fmap_cons. cbn [concat drop]. rewrite <- IH. change (S k * n)%nat with (n + k * n)%nat.
  rewrite <- drop_drop. f_equal. rewrite <- (Hn a). apply drop_app_length.
Qed.

Lemma take_blocks k l : take (k * n) (concat (f <$> l)) = concat (f <$> take k l).
Proof.
  revert l. induction k as [|k IH]; intros l; [done|]. destruct l as [|a l]; [by rewrite fmap_nil; simpl concat; rewrite !take_nil|].
  rewrite fmap_cons. cbn [concat take]. rewrite fmap_cons. cbn [concat]. rewrite <- IH, take_app, Hn. f_equal; [apply take_ge; rewrite Hn; lia|f_equal; lia].
Qed.

(** A part of one block. *)
Lemma block_slice l k a i m :
  l !! k = Some a -> (i + m <= n)%nat ->
  take m (drop (k * n + i) (concat (f <$> l))) = take m (drop i (f a)).
Proof.
  intros Hk Him. rewrite <- drop_drop, drop_blocks, (drop_S _ _ _ Hk). simpl.
  rewrite drop_app_le by (rewrite Hn; lia). rewrite take_app_le; [done|]. rewrite length_drop, Hn. lia.
Qed.
End blocks.

(** ** C strings

    A string lives in an array; it ends before the first zero byte. *)

Fixpoint cstr (l : list Z) : list Z :=
  match l with
  | [] => []
  | c :: l => if decide (c = 0) then [] else c :: cstr l
  end.

Definition c_strlen (l : list Z) : option Z :=
  if decide (0 ∈ l) then Some (Z.of_nat (length (cstr l))) else None.

Definition c_strcpy (dst src : list Z) : option (list Z) :=
  if decide (0 ∈ src ∧ (length (cstr src) < length dst)%nat)
  then Some (cstr src ++ 0 :: drop (S (length (cstr src))) dst) else None.

(** [strncmp(a, b, n) == 0], comparing at most [n] characters. *)
Fixpoint c_strneq (a b : list Z) (n : nat) {struct n} : option bool :=
  match n with
  | O => Some true
  | S n =>
      match a, b with
      | x :: a, y :: b =>
          if decide (x ≠ y) then Some false
          else if decide (x = 0) then Some true
          else c_strneq a b n
      | _, _ => None
      end
  end.

Section strings.
Implicit Types (l s : list Z).

Lemma cstr_length l : (length (cstr l) <= length l)%nat.
Proof. induction l as [|c l IH]; simpl; [done|]. case_decide; simpl; lia. Qed.

Lemma cstr_nonzero l : Forall (λ c, c ≠ 0) (cstr l).
Proof. induction l as [|c l IH]; simpl; [done|]. case_decide; constructor; auto. Qed.

Lemma cstr_length_lt l : 0 ∈ l -> (length (cstr l) < length l)%nat.
Proof.
  induction l as [|c l IH]; simpl; [by intros ?%elem_of_nil|].
  intros [->|H]%elem_of_cons; case_decide; simpl; try lia; try done.
  specialize (IH H). lia.
Qed.

Lemma cstr_app_nul s l : Forall (λ c, c ≠ 0) s -> cstr (s ++ 0 :: l) = s.
Proof.
  induction 1 as [|c s Hc _ IH]; simpl; [done|]. rewrite decide_False by done. by rewrite IH.
Qed.

Lemma cstr_take l : cstr l = take (length (cstr l)) l.
Proof.
  induction l as [|c l IH]; simpl; [done|]. case_decide; simpl; [done|]. by f_equal.
Qed.

Lemma cstr_split l : 0 ∈ l -> exists r, l = cstr l ++ 0 :: r.
Proof.
  induction l as [|c l IH]; [by intros ?%elem_of_nil|]. simpl.
  intros H. case_decide as Hc; [subst; by exists l|].
  apply elem_of_cons in H as [?|H]; [congruence|].
  destruct (IH H) as [r Hr]. exists r. simpl. by f_equal.
Qed.

Lemma c_strcpy_spec dst src :
  0 ∈ src -> (length (cstr src) < length dst)%nat ->
  exists dst', c_strcpy dst src = Some dst' /\ length dst' = length dst /\
    0 ∈ dst' /\ cstr dst' = cstr src /\ take (length (cstr src)) dst' = cstr src.
Proof.
  intros H0 Hlen. unfold c_strcpy. rewrite decide_True by done.
  eexists; split; [done|]. split_and!.
  - rewrite length_app. simpl. rewrite length_drop. lia.
  - set_solver.
  - apply cstr_app_nul, cstr_nonzero.
  - by rewrite take_app_length.
Qed.
End strings.

(** ** A state monad with undefined behaviour

    [ST S A] is a computation over the state [S] that has no result when the
    C program has undefined behaviour (an access outside of an array). *)

Definition ST (S A : Type) : Type := S -> option (A * S).

#[export] Instance st_ret S : MRet (ST S) := λ A a s, Some (a, s).
#[export] Instance st_bind S : MBind (ST S) := λ A B k m s,
  match m s with Some (a, s') => k a s' | None => None end.

Section st.
Context {S : Type}.

Definition gets {A} (f : S -> A) : ST S A := λ s, Some (f s, s).
Definition modify (f : S -> S) : ST S unit := λ s, Some (tt, f s).
Definition undef {A} : ST S A := λ _, None.
Definition lift {A} (o : option A) : ST S A := λ s, match o with Some a => Some (a, s) | None => None end.
Definition skip : ST S unit := mret tt.

(** Total-correctness weakest precondition: [m] has a result from [s], and
    the result satisfies [Q]. *)
Definition wp {A} (m : ST S A) (s : S) (Q : A -> S -> Prop) : Prop :=
  match m s with Some (a, s') => Q a s' | None => False end.

Lemma wp_ret {A} (a : A) s Q : Q a s -> wp (mret a) s Q.
Proof. done. Qed.
Lemma wp_gets {A} (f : S -> A) s Q : Q (f s) s -> wp (gets f) s Q.
Proof. done. Qed.
Lemma wp_modify f s Q : Q tt (f s) -> wp (modify f) s Q.
Proof. done. Qed.
Lemma wp_lift {A} (o : option A) a s Q : o = Some a -> Q a s -> wp (lift o) s Q.
Proof. intros ->. done. Qed.
Lemma wp_bind {A B} (m : ST S A) (k : A -> ST S B) s Q :
  wp m s (λ a s', wp (k a) s' Q) -> wp (m ≫= k) s Q.
Proof. unfold wp, mbind, st_bind. by destruct (m s) as [[a s']|]. Qed.
Lemma wp_mono {A} (m : ST S A) s (Q Q' : A -> S -> Prop) :
  wp m s Q -> (forall a s', Q a s' -> Q' a s') -> wp m s Q'.
Proof. unfold wp. destruct (m s) as [[a s']|]; auto. Qed.
Lemma wp_if {A} (b : bool) (m1 m2 : ST S A) s Q :
  (b = true -> wp m1 s Q) -> (b = false -> wp m2 s Q) -> wp (if b then m1 else m2) s Q.
Proof. destruct b; auto. Qed.
Lemma wp_run {A} (m : ST S A) s Q :
  wp m s Q <-> exists a s', m s = Some (a, s') /\ Q a s'.
Proof. unfold wp. destruct (m s) as [[a s']|]; naive_solver. Qed.
End st.

(** A sequence that succeeds does both parts. *)
Lemma bind_inv {S A B} (m : ST S A) (k : A -> ST S B) s b s' : (m ≫= k) s = Some (b, s') -> exists a s1, m s = Some (a, s1) ∧ k a s1 = Some (b, s').
Proof. unfold mbind, st_bind. destruct (m s) as [[a s1]|]; [eauto|done]. Qed.

(** One step of symbolic execution. *)
Ltac wp_step :=
  lazymatch goal with
  | |- wp (_ ≫= _) _ _ => apply wp_bind
  | |- wp (mret _) _ _ => apply wp_ret
  | |- wp skip _ _ => apply wp_ret
  | |- wp (gets _) _ _ => apply wp_gets
  | |- wp (modify _) _ _ => apply wp_modify
  end.
Ltac wp_steps := repeat (wp_step; cbn beta).

(** The same, stopping in front of a statement that is not elementary. *)
Ltac wp_pure :=
  repeat (lazymatch goal with
          | |- wp ((_ ≫= _) ≫= _) _ _ => apply wp_bind, wp_bind
          | |- wp (mret _ ≫= _) _ _ => apply wp_bind, wp_ret
          | |- wp (skip ≫= _) _ _ => apply wp_bind, wp_ret
          | |- wp (gets _ ≫= _) _ _ => apply wp_bind, wp_gets
          | |- wp (modify _ ≫= _) _ _ => apply wp_bind, wp_modify
          | |- wp (mret _) _ _ => apply wp_ret
          | |- wp skip _ _ => apply wp_ret
          | |- wp (gets _) _ _ => apply wp_gets
          | |- wp (modify _) _ _ => apply wp_modify
          end; cbn beta).

(** Counted loops: [for_up lo hi body] is [for (i = lo; i < hi; i++) body(i)]
    and [for_down hi lo body] is [for (i = hi; i > lo; i--) body(i)]. *)
Section loops.
Context {S : Type}.

Fixpoint iter_up (n : nat) (i : Z) (body : Z -> ST S unit) : ST S unit :=
  match n with
  | O => skip
  | Datatypes.S n => body i;; iter_up n (i + 1) body
  end.
Fixpoint iter_down (n : nat) (i : Z) (body : Z -> ST S unit) : ST S unit :=
  match n with
  | O => skip
  | Datatypes.S n => body i;; iter_down n (i - 1) body
  end.
Definition for_up (lo hi : Z) (body : Z -> ST S unit) : ST S unit :=
  iter_up (Z.to_nat (hi - lo)) lo body.
Definition for_down (hi lo : Z) (body : Z -> ST S unit) : ST S unit :=
  iter_down (Z.to_nat (hi - lo)) hi body.

(** Invariant rules: [I i] holds when the loop variable is [i]. *)
Lemma wp_iter_up n i body (I : Z -> S -> Prop) s (Q : unit -> S -> Prop) :
  I i s ->
  (forall j s, i <= j < i + Z.of_nat n -> I j s -> wp (body j) s (λ _ s', I (j + 1) s')) ->
  (forall s, I (i + Z.of_nat n) s -> Q tt s) -> wp (iter_up n i body) s Q.
Proof.
  revert i s. induction n as [|n IH]; intros i s HI Hbody HQ; simpl.
  - apply wp_ret, HQ. by replace (i + Z.of_nat 0) with i by lia.
  - apply wp_bind. eapply wp_mono; [apply (Hbody i); [lia|done]|].
    intros [] s' HI'. apply IH; [done|intros; apply Hbody; [lia|done]|].
    intros s'' H''. apply HQ. by replace (i + Z.of_nat (Datatypes.S n)) with (i + 1 + Z.of_nat n) by lia.
Qed.
Lemma wp_iter_down n i body (I : Z -> S -> Prop) s (Q : unit -> S -> Prop) :
  I i s ->
  (forall j s, i - Z.of_nat n < j <= i -> I j s -> wp (body j) s (λ _ s', I (j - 1) s')) ->
  (forall s, I (i - Z.of_nat n) s -> Q tt s) -> wp (iter_down n i body) s Q.
Proof.
  revert i s. induction n as [|n IH]; intros i s HI Hbody HQ; simpl.
  - apply wp_ret, HQ. by replace (i - Z.of_nat 0) with i by lia.
  - apply wp_bind. eapply wp_mono; [apply (Hbody i); [lia|done]|].
    intros [] s' HI'. apply IH; [done|intros; apply Hbody; [lia|done]|].
    intros s'' H''. apply HQ. by replace (i - Z.of_nat (Datatypes.S n)) with (i - 1 - Z.of_nat n) by lia.
Qed.
Lemma wp_for_up lo hi body (I : Z -> S -> Prop) s (Q : unit -> S -> Prop) :
  lo <= hi -> I lo s ->
  (forall i s, lo <= i < hi -> I i s -> wp (body i) s (λ _ s', I (i + 1) s')) ->
  (forall s, I hi s -> Q tt s) -> wp (for_up lo hi body) s Q.
Proof.
  intros Hle HI Hbody HQ. apply (wp_iter_up _ _ _ I); [done|intros; apply Hbody; [lia|done]|].
  intros s' Hs'. apply HQ. by replace hi with (lo + Z.of_nat (Z.to_nat (hi - lo))) by lia.
Qed.
Lemma wp_for_down hi lo body (I : Z -> S -> Prop) s (Q : unit -> S -> Prop) :
  lo <= hi -> I hi s ->
  (forall i s, lo < i <= hi -> I i s -> wp (body i) s (λ _ s', I (i - 1) s')) ->
  (forall s, I lo s -> Q tt s) -> wp (for_down hi lo body) s Q.
Proof.
  intros Hle HI Hbody HQ. apply (wp_iter_down _ _ _ I); [done|intros; apply Hbody; [lia|done]|].
  intros s' Hs'. apply HQ. by replace lo with (hi - Z.of_nat (Z.to_nat (hi - lo))) by lia.
Qed.
End loops.

(** Running a computation on a part of a larger state. *)
Definition zoom {W S A} (get : W -> S) (put : S -> W -> W) (m : ST S A) : ST W A :=
  λ w, match m (get w) with Some (a, s) => Some (a, put s w) | None => None end.

Lemma wp_zoom {W S A} (get : W -> S) put (m : ST S A) w (Q : A -> W -> Prop) :
  wp m (get w) (λ a s', Q a (put s' w)) -> wp (zoom get put m) w Q.
Proof. unfold wp, zoom. by destruct (m (get w)) as [[a s]|]. Qed.

#[global] Opaque wp.
