(* ===== verification/Cmdline.v ===== *)
(** * The command line of the boot loader (sdloader/src/cmdline.c)

    The line editor, its VT100 escape handling, the history buffer, the
    command table and the argument accessors. The state is the file's global
    variables; every array access is checked, so a result of [None] is an
    access outside of an array. *)

From S2P Require Import Prelude.
From Stdlib Require String Ascii.
Import String.StringSyntax.

Open Scope Z_scope.

(** The bytes of a C string literal, without the terminating zero. *)
Definition bytes (s : String.string) : list Z :=
  (λ a, Z.of_N (Ascii.N_of_ascii a)) <$> String.list_ascii_of_string s.
Arguments bytes s%_string_scope.

Definition ASCII_BEL : Z := 0x07.
Definition ASCII_BS : Z := 0x08.
Definition ASCII_CR : Z := 0x0D.
Definition ASCII_LF : Z := 0x0A.
Definition ASCII_ESC : Z := 0x1B.
Definition ASCII_DEL : Z := 0x7F.
Definition VT100_ARROWUP : Z := 65.
Definition VT100_ARROWDOWN : Z := 66.
Definition VT100_ARROWRIGHT : Z := 67.
Definition VT100_ARROWLEFT : Z := 68.
Definition CMDLINE_MAX_COMMANDS : Z := 30.
Definition CMDLINE_MAX_CMD_LENGTH : Z := 50.
Definition CMDLINE_BUFFERSIZE : Z := 50.
Definition CMDLINE_HISTORYSIZE : Z := 10.

Definition CmdlinePrompt : list Z := bytes "cmd> ".
Definition CmdlineNotice : list Z := bytes "cmdline: ".
Definition CmdlineCmdNotFound : list Z := bytes "command not found".

Inductive history_action := CMDLINE_HISTORY_SAVE | CMDLINE_HISTORY_PREV | CMDLINE_HISTORY_NEXT.

(** The scanning loops [while (p(CmdlineBuffer[i])) i++]; [l] is the rest of
    the buffer from index [i]. *)
Fixpoint scan_while (p : Z -> bool) (l : list Z) (i : Z) : option Z :=
  match l with
  | [] => None
  | c :: l => if p c then scan_while p l (u8 (i + 1)) else Some i
  end.

(** ** strtol and strtoul

    The C library's number parsing on a 32-bit [long]. [l] is the memory from
    the start of the string on; running off its end is undefined. *)

Definition c_isspace (c : Z) : bool := bool_decide (c = 32) || bool_decide (9 <= c <= 13).

Definition digit_val (base c : Z) : option Z :=
  v ← (if bool_decide (48 <= c <= 57) then Some (c - 48)
       else if bool_decide (97 <= c <= 122) then Some (c - 97 + 10)
       else if bool_decide (65 <= c <= 90) then Some (c - 65 + 10)
       else None);
  if bool_decide (v < base) then Some v else None.

Fixpoint skip_space (l : list Z) : list Z :=
  match l with
  | c :: l' => if c_isspace c then skip_space l' else l
  | [] => []
  end.

Fixpoint parse_digits (base acc : Z) (l : list Z) : option Z :=
  match l with
  | [] => None
  | c :: l => match digit_val base c with
              | Some v => parse_digits base (acc * base + v) l
              | None => Some acc
              end
  end.

(** An optional sign: whether it is a minus, and the rest. *)
Definition parse_sign (l : list Z) : bool * list Z :=
  match l with
  | c :: l' => if bool_decide (c = 45) then (true, l')
               else if bool_decide (c = 43) then (false, l') else (false, l)
  | [] => (false, [])
  end.

(** The optional [0x] of base 16. *)
Definition skip_0x (l : list Z) : list Z :=
  match l with
  | 48 :: x :: l' => if bool_decide (x = 120 ∨ x = 88) then l' else l
  | _ => l
  end.

Definition c_strtol10 (l : list Z) : option Z :=
  let '(neg, l) := parse_sign (skip_space l) in
  v ← parse_digits 10 0 l;
  Some (if neg : bool then Z.max (- 2^31) (- v) else Z.min (2^31 - 1) v).

Definition c_strtoul16 (l : list Z) : option Z :=
  let '(neg, l) := parse_sign (skip_space l) in
  v ← parse_digits 16 0 (skip_0x l);
  Some (if bool_decide (2^32 <= v) then 2^32 - 1 else if neg : bool then u32 (- v) else v).

Section cmdline.
(** [F] is the type of the command functions, [CmdlineFuncPtrType]. *)
Context {F : Type}.

(** The global variables; [outbyte_log] is what went to the terminal. *)
Record cmdline := MkCmdline {
  CmdlineCommandList : list (list Z);
  CmdlineFunctionList : list (option F);
  CmdlineNumCommands : Z;
  CmdlineBuffer : list Z;
  CmdlineBufferLength : Z;
  CmdlineBufferEditPos : Z;
  CmdlineInputVT100State : Z;
  CmdlineHistory : list (list Z);
  CmdlineHistoryIdx : Z;
  CmdlineHistoryCnt : Z;
  CmdlineHistoryCopy : Z;
  CmdlineExecFunction : option F;
  outbyte_log : list Z;
}.

Definition set_CommandList x (s : cmdline) : cmdline :=
  MkCmdline x (CmdlineFunctionList s) (CmdlineNumCommands s) (CmdlineBuffer s)
    (CmdlineBufferLength s) (CmdlineBufferEditPos s) (CmdlineInputVT100State s) (CmdlineHistory
    s) (CmdlineHistoryIdx s) (CmdlineHistoryCnt s) (CmdlineHistoryCopy s) (CmdlineExecFunction
    s) (outbyte_log s).
Definition set_FunctionList x (s : cmdline) : cmdline :=
  MkCmdline (CmdlineCommandList s) x (CmdlineNumCommands s) (CmdlineBuffer s)
    (CmdlineBufferLength s) (CmdlineBufferEditPos s) (CmdlineInputVT100State s) (CmdlineHistory
    s) (CmdlineHistoryIdx s) (CmdlineHistoryCnt s) (CmdlineHistoryCopy s) (CmdlineExecFunction
    s) (outbyte_log s).
Definition set_NumCommands x (s : cmdline) : cmdline :=
  MkCmdline (CmdlineCommandList s) (CmdlineFunctionList s) x (CmdlineBuffer s)
    (CmdlineBufferLength s) (CmdlineBufferEditPos s) (CmdlineInputVT100State s) (CmdlineHistory
    s) (CmdlineHistoryIdx s) (CmdlineHistoryCnt s) (CmdlineHistoryCopy s) (CmdlineExecFunction
    s) (outbyte_log s).
Definition set_Buffer x (s : cmdline) : cmdline :=
  MkCmdline (CmdlineCommandList s) (CmdlineFunctionList s) (CmdlineNumCommands s) x
    (CmdlineBufferLength s) (CmdlineBufferEditPos s) (CmdlineInputVT100State s) (CmdlineHistory
    s) (CmdlineHistoryIdx s) (CmdlineHistoryCnt s) (CmdlineHistoryCopy s) (CmdlineExecFunction
    s) (outbyte_log s).
Definition set_BufferLength x (s : cmdline) : cmdline :=
  MkCmdline (CmdlineCommandList s) (CmdlineFunctionList s) (CmdlineNumCommands s)
    (CmdlineBuffer s) x (CmdlineBufferEditPos s) (CmdlineInputVT100State s) (CmdlineHistory s)
    (CmdlineHistoryIdx s) (CmdlineHistoryCnt s) (CmdlineHistoryCopy s) (CmdlineExecFunction s)
    (outbyte_log s).
Definition set_BufferEditPos x (s : cmdline) : cmdline :=
  MkCmdline (CmdlineCommandList s) (CmdlineFunctionList s) (CmdlineNumCommands s)
    (CmdlineBuffer s) (CmdlineBufferLength s) x (CmdlineInputVT100State s) (CmdlineHistory s)
    (CmdlineHistoryIdx s) (CmdlineHistoryCnt s) (CmdlineHistoryCopy s) (CmdlineExecFunction s)
    (outbyte_log s).
Definition set_InputVT100State x (s : cmdline) : cmdline :=
  MkCmdline (CmdlineCommandList s) (CmdlineFunctionList s) (CmdlineNumCommands s)
    (CmdlineBuffer s) (CmdlineBufferLength s) (CmdlineBufferEditPos s) x (CmdlineHistory s)
    (CmdlineHistoryIdx s) (CmdlineHistoryCnt s) (CmdlineHistoryCopy s) (CmdlineExecFunction s)
    (outbyte_log s).
Definition set_History x (s : cmdline) : cmdline :=
  MkCmdline (CmdlineCommandList s) (CmdlineFunctionList s) (CmdlineNumCommands s)
    (CmdlineBuffer s) (CmdlineBufferLength s) (CmdlineBufferEditPos s) (CmdlineInputVT100State
    s) x (CmdlineHistoryIdx s) (CmdlineHistoryCnt s) (CmdlineHistoryCopy s) (CmdlineExecFunction
    s) (outbyte_log s).
Definition set_HistoryIdx x (s : cmdline) : cmdline :=
  MkCmdline (CmdlineCommandList s) (CmdlineFunctionList s) (CmdlineNumCommands s)
    (CmdlineBuffer s) (CmdlineBufferLength s) (CmdlineBufferEditPos s) (CmdlineInputVT100State
    s) (CmdlineHistory s) x (CmdlineHistoryCnt s) (CmdlineHistoryCopy s) (CmdlineExecFunction s)
    (outbyte_log s).
Definition set_HistoryCnt x (s : cmdline) : cmdline :=
  MkCmdline (CmdlineCommandList s) (CmdlineFunctionList s) (CmdlineNumCommands s)
    (CmdlineBuffer s) (CmdlineBufferLength s) (CmdlineBufferEditPos s) (CmdlineInputVT100State
    s) (CmdlineHistory s) (CmdlineHistoryIdx s) x (CmdlineHistoryCopy s) (CmdlineExecFunction s)
    (outbyte_log s).
Definition set_HistoryCopy x (s : cmdline) : cmdline :=
  MkCmdline (CmdlineCommandList s) (CmdlineFunctionList s) (CmdlineNumCommands s)
    (CmdlineBuffer s) (CmdlineBufferLength s) (CmdlineBufferEditPos s) (CmdlineInputVT100State
    s) (CmdlineHistory s) (CmdlineHistoryIdx s) (CmdlineHistoryCnt s) x (CmdlineExecFunction s)
    (outbyte_log s).
Definition set_ExecFunction x (s : cmdline) : cmdline :=
  MkCmdline (CmdlineCommandList s) (CmdlineFunctionList s) (CmdlineNumCommands s)
    (CmdlineBuffer s) (CmdlineBufferLength s) (CmdlineBufferEditPos s) (CmdlineInputVT100State
    s) (CmdlineHistory s) (CmdlineHistoryIdx s) (CmdlineHistoryCnt s) (CmdlineHistoryCopy s) x
    (outbyte_log s).
Definition set_out x (s : cmdline) : cmdline :=
  MkCmdline (CmdlineCommandList s) (CmdlineFunctionList s) (CmdlineNumCommands s)
    (CmdlineBuffer s) (CmdlineBufferLength s) (CmdlineBufferEditPos s) (CmdlineInputVT100State
    s) (CmdlineHistory s) (CmdlineHistoryIdx s) (CmdlineHistoryCnt s) (CmdlineHistoryCopy s)
    (CmdlineExecFunction s) x.

(** ** Terminal output *)

Definition cmdlineOutputFunc (c : Z) : ST cmdline unit :=
  modify (λ s, set_out (outbyte_log s ++ [c]) s).

Fixpoint output_all (l : list Z) : ST cmdline unit :=
  match l with
  | [] => skip
  | c :: l => cmdlineOutputFunc c;; output_all l
  end.

Definition cmdlinePrintPrompt : ST cmdline unit := output_all CmdlinePrompt.

(** [while ((c = *ptr) && c != ' ') output c], from the start of the buffer. *)
Fixpoint output_word (l : list Z) : ST cmdline unit :=
  match l with
  | [] => undef
  | c :: l =>
      if bool_decide (c ≠ 0 ∧ c ≠ 32) then cmdlineOutputFunc c;; output_word l else skip
  end.

Definition cmdlinePrintError : ST cmdline unit :=
  output_all CmdlineNotice;;
  buf ← gets CmdlineBuffer;
  output_word buf;;
  cmdlineOutputFunc 58;;
  cmdlineOutputFunc 32;;
  output_all CmdlineCmdNotFound;;
  cmdlineOutputFunc 13;;
  cmdlineOutputFunc 10.

Definition cmdlineRepaint : ST cmdline unit :=
  cmdlineOutputFunc ASCII_CR;;
  cmdlinePrintPrompt;;
  cmdlineOutputFunc ASCII_ESC;;
  cmdlineOutputFunc 91;;
  cmdlineOutputFunc 75;;
  n ← gets CmdlineBufferLength;
  for_up 0 n (λ i,
    buf ← gets CmdlineBuffer;
    c ← lift (arr_get buf i);
    cmdlineOutputFunc c).

(** ** Initialisation and the command table *)

Definition cmdlineInit : ST cmdline unit :=
  modify (set_InputVT100State 0);;
  modify (set_BufferLength 0);;
  modify (set_BufferEditPos 0);;
  modify (set_ExecFunction None);;
  modify (set_NumCommands 0);;
  modify (set_HistoryIdx (-1));;
  modify (set_HistoryCnt 0);;
  modify (set_HistoryCopy 0).

(** [newCmdString] is the array that holds the zero-terminated name. *)
Definition cmdlineAddCommand (newCmdString : list Z) (newCmdFuncPtr : F) : ST cmdline unit :=
  n ← gets CmdlineNumCommands;
  cmds ← gets CmdlineCommandList;
  row ← lift (arr_get cmds n);
  row' ← lift (c_strcpy row newCmdString);
  cmds' ← lift (arr_set cmds n row');
  modify (set_CommandList cmds');;
  funcs ← gets CmdlineFunctionList;
  funcs' ← lift (arr_set funcs n (Some newCmdFuncPtr));
  modify (set_FunctionList funcs');;
  modify (set_NumCommands (u8 (n + 1))).

(** ** History *)

(** [strcpy(CmdlineHistory[i], CmdlineHistory[i - 1])] *)
Definition history_shift (i : Z) : ST cmdline unit :=
  h ← gets CmdlineHistory;
  src ← lift (arr_get h (i - 1));
  dst ← lift (arr_get h i);
  dst' ← lift (c_strcpy dst src);
  h' ← lift (arr_set h i dst');
  modify (set_History h').

Definition history_save : ST cmdline unit :=
  buf ← gets CmdlineBuffer;
  n ← lift (c_strlen buf);
  if bool_decide (n = 0) then skip else
  copy ← gets CmdlineHistoryCopy;
  i ← (if bool_decide (copy ≠ 0)
       then
         cnt ← gets CmdlineHistoryCnt;
         (if bool_decide (CMDLINE_HISTORYSIZE <= cnt)
          then modify (set_HistoryCnt (CMDLINE_HISTORYSIZE - 1)) else skip);;
         i ← gets CmdlineHistoryCnt;
         modify (set_HistoryCnt (u8 (i + 1)));;
         mret i
       else gets CmdlineHistoryIdx);
  for_down i 0 history_shift;;
  h ← gets CmdlineHistory;
  dst ← lift (arr_get h 0);
  dst' ← lift (c_strcpy dst buf);
  h' ← lift (arr_set h 0 dst');
  modify (set_History h').

(** The two cases below share the code from [CmdlineHistoryIdx++] on: move
    the index within the history, then copy that line to the buffer. *)
Definition history_clamp : ST cmdline unit :=
  idx ← gets CmdlineHistoryIdx;
  modify (set_HistoryIdx (s8 (idx + 1)));;
  idx ← gets CmdlineHistoryIdx;
  cnt ← gets CmdlineHistoryCnt;
  (if bool_decide (cnt - 1 <= idx) then modify (set_HistoryIdx (s8 (cnt - 1))) else skip);;
  idx ← gets CmdlineHistoryIdx;
  if bool_decide (idx < 0) then modify (set_HistoryIdx 0) else skip.

Definition history_show : ST cmdline unit :=
  idx ← gets CmdlineHistoryIdx;
  h ← gets CmdlineHistory;
  src ← lift (arr_get h idx);
  buf ← gets CmdlineBuffer;
  buf' ← lift (c_strcpy buf src);
  modify (set_Buffer buf');;
  n ← lift (c_strlen buf');
  modify (set_BufferLength (u8 n));;
  modify (set_BufferEditPos (u8 n));;
  cmdlineRepaint;;
  modify (set_HistoryCopy 0).

Definition cmdlineDoHistory (action : history_action) : ST cmdline unit :=
  match action with
  | CMDLINE_HISTORY_SAVE => history_save
  | CMDLINE_HISTORY_NEXT =>
      idx ← gets CmdlineHistoryIdx;
      modify (set_HistoryIdx (s8 (idx - 2)));;
      history_clamp;;
      history_show
  | CMDLINE_HISTORY_PREV =>
      history_clamp;;
      history_show
  end.

(** ** Command lookup *)

Definition is_word (c : Z) : bool := negb (bool_decide (c = 32) || bool_decide (c = 0)).

(** The search loop over the command table: [n] entries from [cmdIndex] on
    are left. *)
Fixpoint find_command (n : nat) (cmdIndex : Z) (i : nat) : ST cmdline (option Z) :=
  match n with
  | O => mret None
  | S n =>
      cmds ← gets CmdlineCommandList;
      row ← lift (arr_get cmds cmdIndex);
      buf ← gets CmdlineBuffer;
      b ← lift (c_strneq row buf i);
      if (b : bool) then mret (Some cmdIndex) else find_command n (cmdIndex + 1) i
  end.

Definition cmdlineProcessInputString : ST cmdline unit :=
  cmdlineDoHistory CMDLINE_HISTORY_SAVE;;
  buf ← gets CmdlineBuffer;
  i ← lift (scan_while is_word buf 0);
  if bool_decide (i = 0) then cmdlinePrintPrompt else
  n ← gets CmdlineNumCommands;
  r ← find_command (Z.to_nat n) 0 (Z.to_nat i);
  match r with
  | Some cmdIndex =>
      funcs ← gets CmdlineFunctionList;
      f ← lift (arr_get funcs cmdIndex);
      modify (set_ExecFunction f)
  | None => cmdlinePrintError;; cmdlinePrintPrompt
  end.

(** ** Character input *)

Definition vt100_code (c : Z) : ST cmdline unit :=
  if bool_decide (c = VT100_ARROWUP) then cmdlineDoHistory CMDLINE_HISTORY_PREV
  else if bool_decide (c = VT100_ARROWDOWN) then cmdlineDoHistory CMDLINE_HISTORY_NEXT
  else if bool_decide (c = VT100_ARROWRIGHT) then
    pos ← gets CmdlineBufferEditPos;
    len ← gets CmdlineBufferLength;
    if bool_decide (pos < len) then
      modify (set_BufferEditPos (u8 (pos + 1)));;
      cmdlineOutputFunc ASCII_ESC;;
      cmdlineOutputFunc 91;;
      cmdlineOutputFunc VT100_ARROWRIGHT
    else cmdlineOutputFunc ASCII_BEL
  else if bool_decide (c = VT100_ARROWLEFT) then
    pos ← gets CmdlineBufferEditPos;
    if bool_decide (pos ≠ 0) then
      modify (set_BufferEditPos (u8 (pos - 1)));;
      cmdlineOutputFunc ASCII_BS
    else cmdlineOutputFunc ASCII_BEL
  else skip.

(** [CmdlineBuffer[CmdlineBufferEditPos++] = c] *)
Definition put_char (c : Z) : ST cmdline unit :=
  buf ← gets CmdlineBuffer;
  pos ← gets CmdlineBufferEditPos;
  buf' ← lift (arr_set buf pos c);
  modify (set_Buffer buf');;
  modify (set_BufferEditPos (u8 (pos + 1))).

(** [CmdlineBuffer[dst] = CmdlineBuffer[src]] *)
Definition move_char (dst src : Z) : ST cmdline unit :=
  buf ← gets CmdlineBuffer;
  x ← lift (arr_get buf src);
  buf' ← lift (arr_set buf dst x);
  modify (set_Buffer buf').

Definition input_printable (c : Z) : ST cmdline unit :=
  pos ← gets CmdlineBufferEditPos;
  len ← gets CmdlineBufferLength;
  if bool_decide (pos = len) then
    if bool_decide (len < CMDLINE_BUFFERSIZE - 2) then
      cmdlineOutputFunc c;;
      put_char c;;
      modify (set_BufferLength (u8 (len + 1)));;
      modify (set_HistoryCopy 1)
    else cmdlineOutputFunc ASCII_BEL
  else
    if bool_decide (len < CMDLINE_BUFFERSIZE - 2) then
      modify (set_BufferLength (u8 (len + 1)));;
      for_down (u8 (len + 1)) pos (λ i, move_char i (i - 1));;
      put_char c;;
      cmdlineRepaint;;
      pos' ← gets CmdlineBufferEditPos;
      len' ← gets CmdlineBufferLength;
      for_up pos' len' (λ _, cmdlineOutputFunc ASCII_BS);;
      modify (set_HistoryCopy 1)
    else cmdlineOutputFunc ASCII_BEL.

Definition input_cr : ST cmdline unit :=
  cmdlineOutputFunc ASCII_CR;;
  cmdlineOutputFunc ASCII_LF;;
  buf ← gets CmdlineBuffer;
  len ← gets CmdlineBufferLength;
  buf' ← lift (arr_set buf len 0);
  modify (set_Buffer buf');;
  modify (set_BufferLength (u8 (len + 1)));;
  pos ← gets CmdlineBufferEditPos;
  modify (set_BufferEditPos (u8 (pos + 1)));;
  cmdlineProcessInputString;;
  modify (set_BufferLength 0);;
  modify (set_BufferEditPos 0);;
  modify (set_HistoryCopy 0);;
  modify (set_HistoryIdx (-1)).

Definition input_del : ST cmdline unit :=
  pos ← gets CmdlineBufferEditPos;
  len ← gets CmdlineBufferLength;
  if bool_decide (pos ≠ 0) then
    if bool_decide (pos = len) then
      cmdlineOutputFunc ASCII_BS;;
      cmdlineOutputFunc 32;;
      cmdlineOutputFunc ASCII_BS;;
      modify (set_BufferLength (u8 (len - 1)));;
      modify (set_BufferEditPos (u8 (pos - 1)))
    else
      modify (set_BufferLength (u8 (len - 1)));;
      modify (set_BufferEditPos (u8 (pos - 1)));;
      for_up (u8 (pos - 1)) (u8 (len - 1)) (λ i, move_char i (i + 1));;
      cmdlineRepaint;;
      cmdlineOutputFunc 32;;
      for_up (u8 (pos - 1)) (u8 (len - 1) + 1) (λ _, cmdlineOutputFunc ASCII_BS)
  else cmdlineOutputFunc ASCII_BEL.

(** The part of the input function after the VT100 handling. *)
Definition input_regular (c : Z) : ST cmdline unit :=
  if bool_decide (0x20 <= c < 0x7F) then input_printable c
  else if bool_decide (c = ASCII_CR) then input_cr
  else if bool_decide (c = ASCII_DEL) then input_del
  else if bool_decide (c = ASCII_ESC) then modify (set_InputVT100State 1)
  else skip.

Definition cmdlineInputFunc (c : Z) : ST cmdline unit :=
  vt ← gets CmdlineInputVT100State;
  if bool_decide (vt = 2) then vt100_code c;; modify (set_InputVT100State 0)
  else if bool_decide (vt = 1) then
    if bool_decide (c = 91) then modify (set_InputVT100State 2)
    else modify (set_InputVT100State 0);; input_regular c
  else modify (set_InputVT100State 0);; input_regular c.

(** Running the pending command function. [call] runs a command function on
    the whole program state [W], of which the command line is a part. *)
Definition cmdlineMainLoop {W} (get : W -> cmdline) (put : cmdline -> W -> W)
    (call : F -> ST W unit) : ST W unit :=
  f ← zoom get put (gets CmdlineExecFunction);
  match f with
  | Some f =>
      call f;;
      zoom get put (modify (set_ExecFunction None));;
      zoom get put cmdlinePrintPrompt
  | None => skip
  end.

(** ** Argument access *)

Definition not_sp (c : Z) : bool := bool_decide (c ≠ 0 ∧ c ≠ 32).
Definition is_sp (c : Z) : bool := bool_decide (c ≠ 0 ∧ c = 32).

Definition scan_from (p : Z -> bool) (buf : list Z) (i : Z) : option Z :=
  scan_while p (drop (Z.to_nat i) buf) i.

Fixpoint skip_args (n : nat) (buf : list Z) (idx : Z) : option Z :=
  match n with
  | O => Some idx
  | S n =>
      i1 ← scan_from not_sp buf idx;
      i2 ← scan_from is_sp buf i1;
      skip_args n buf i2
  end.

(** The offset of argument [argnum] in the buffer. *)
Definition cmdlineGetArgStr (argnum : Z) : ST cmdline Z :=
  buf ← gets CmdlineBuffer;
  lift (idx ← scan_from is_sp buf 0; skip_args (Z.to_nat argnum) buf idx).

(** The argument as a decimal number. *)
Definition cmdlineGetArgInt (argnum : Z) : ST cmdline Z :=
  idx ← cmdlineGetArgStr argnum;
  buf ← gets CmdlineBuffer;
  lift (c_strtol10 (drop (Z.to_nat idx) buf)).

(** The argument as a hexadecimal number; [strtoul]'s unsigned result is
    returned as a [long]. *)
Definition cmdlineGetArgHex (argnum : Z) : ST cmdline Z :=
  idx ← cmdlineGetArgStr argnum;
  buf ← gets CmdlineBuffer;
  v ← lift (c_strtoul16 (drop (Z.to_nat idx) buf));
  mret (s32 v).

(** The program state at start-up: zeroed static storage. *)
Definition cmdline_boot : cmdline :=
  MkCmdline (replicate 30 (replicate 50 0)) (replicate 30 None) 0 (replicate 50 0) 0 0 0
    (replicate 10 (replicate 50 0)) 0 0 0 None [].

(** Feeding a sequence of received characters. *)
Fixpoint cmdline_input_all (l : list Z) : ST cmdline unit :=
  match l with
  | [] => skip
  | c :: l => cmdlineInputFunc c;; cmdline_input_all l
  end.
End cmdline.

Arguments cmdline : clear implicits.

(** ** Specification: a line editor

    The line is the text before and after the cursor; the history is the list
    of submitted lines, the most recent first. *)

Record editor := Editor {
  ed_left : list Z;
  ed_right : list Z;
  ed_esc : Z;              (* 0: plain, 1: ESC seen, 2: ESC [ seen *)
  ed_hist : list (list Z);
  ed_idx : Z;              (* the history entry that is shown, or -1 *)
  ed_fresh : bool;         (* a character was typed since the last recall *)
}.

Definition printable (c : Z) : Prop := 0x20 <= c < 0x7F.

Definition ed_line (e : editor) : list Z := ed_left e ++ ed_right e.

Definition ed_recall (i : Z) (e : editor) : editor :=
  let i := Z.max 0 (Z.min i (Z.of_nat (length (ed_hist e)) - 1)) in
  Editor (default [] (ed_hist e !! Z.to_nat i)) [] 0 (ed_hist e) i false.

Definition ed_move_right (e : editor) : editor :=
  match ed_right e with
  | [] => Editor (ed_left e) [] 0 (ed_hist e) (ed_idx e) (ed_fresh e)
  | c :: r => Editor (ed_left e ++ [c]) r 0 (ed_hist e) (ed_idx e) (ed_fresh e)
  end.

Definition ed_move_left (e : editor) : editor :=
  match list.last (ed_left e) with
  | None => Editor [] (ed_right e) 0 (ed_hist e) (ed_idx e) (ed_fresh e)
  | Some c => Editor (removelast (ed_left e)) (c :: ed_right e) 0 (ed_hist e) (ed_idx e) (ed_fresh e)
  end.

(** The history after submitting the line. *)
Definition ed_save (e : editor) : list (list Z) :=
  if decide (ed_line e = []) then ed_hist e
  else if ed_fresh e then take 10 (ed_line e :: ed_hist e)
  else ed_line e :: delete (Z.to_nat (ed_idx e)) (ed_hist e).

Definition ed_plain (c : Z) (e : editor) : editor :=
  if decide (printable c) then
    if decide (length (ed_line e) < 48)%nat
    then Editor (ed_left e ++ [c]) (ed_right e) 0 (ed_hist e) (ed_idx e) true
    else Editor (ed_left e) (ed_right e) 0 (ed_hist e) (ed_idx e) (ed_fresh e)
  else if decide (c = ASCII_CR) then Editor [] [] 0 (ed_save e) (-1) false
  else if decide (c = ASCII_DEL) then
    Editor (removelast (ed_left e)) (ed_right e) 0 (ed_hist e) (ed_idx e) (ed_fresh e)
  else
    Editor (ed_left e) (ed_right e) (if decide (c = ASCII_ESC) then 1 else 0)
      (ed_hist e) (ed_idx e) (ed_fresh e).

Definition ed_key (c : Z) (e : editor) : editor :=
  if decide (ed_esc e = 2) then
    if decide (c = VT100_ARROWUP) then ed_recall (ed_idx e + 1) e
    else if decide (c = VT100_ARROWDOWN) then ed_recall (ed_idx e - 1) e
    else if decide (c = VT100_ARROWRIGHT) then ed_move_right e
    else if decide (c = VT100_ARROWLEFT) then ed_move_left e
    else Editor (ed_left e) (ed_right e) 0 (ed_hist e) (ed_idx e) (ed_fresh e)
  else if decide (ed_esc e = 1 ∧ c = 91) then
    Editor (ed_left e) (ed_right e) 2 (ed_hist e) (ed_idx e) (ed_fresh e)
  else ed_plain c e.

(** The command a line selects: the first registered command of which the
    first word of the line is a prefix. *)
Fixpoint first_word (l : list Z) : list Z :=
  match l with
  | c :: l => if is_word c then c :: first_word l else []
  | [] => []
  end.

Definition select_command {F} (cmds : list (list Z * F)) (line : list Z) : option F :=
  (λ r, r.2.2) <$> list_find (λ p, first_word line `prefix_of` p.1) cmds.

(** ** The refinement relation *)

Definition row_ok (r : list Z) : Prop :=
  length r = 50%nat ∧ 0 ∈ r ∧ (length (cstr r) <= 48)%nat ∧ Forall printable (cstr r).

Section refinement.
Context {F : Type}.
Implicit Types (s : cmdline F) (e : editor) (cmds : list (list Z * F)).

(** The command table holds [cmds]. *)
Record table_ok cmds s : Prop := {
  t_num : CmdlineNumCommands s = Z.of_nat (length cmds);
  t_max : (length cmds <= 30)%nat;
  t_rows : length (CmdlineCommandList s) = 30%nat;
  t_fns : length (CmdlineFunctionList s) = 30%nat;
  t_len : Forall (λ r, length r = 50%nat) (CmdlineCommandList s);
  t_row : forall i name f, cmds !! i = Some (name, f) ->
    exists r, CmdlineCommandList s !! i = Some r ∧ 0 ∈ r ∧ cstr r = name ∧
      CmdlineFunctionList s !! i = Some (Some f);
}.

(** The line [l ++ r] with the cursor after [l] is in the buffer. *)
Record line_ok (l r : list Z) s : Prop := {
  l_buf : exists junk, CmdlineBuffer s = l ++ r ++ junk;
  l_size : length (CmdlineBuffer s) = 50%nat;
  l_max : (length l + length r <= 48)%nat;
  l_pos : CmdlineBufferEditPos s = Z.of_nat (length l);
  l_len : CmdlineBufferLength s = Z.of_nat (length l + length r);
  l_print : Forall printable (l ++ r);
}.

(** The first rows of the history are the strings [h]. *)
Record hist_ok (h : list (list Z)) s : Prop := {
  h_size : length (CmdlineHistory s) = 10%nat;
  h_rows : Forall row_ok (CmdlineHistory s);
  h_cnt : CmdlineHistoryCnt s = Z.of_nat (length h);
  h_abs : take (length h) (cstr <$> CmdlineHistory s) = h;
  h_none : h = [] -> exists rows r, CmdlineHistory s = r :: rows ∧ cstr r = [];
}.

(** The state [s] represents the editor [e] with the commands [cmds]. *)
Record refines cmds s e : Prop := {
  r_table : table_ok cmds s;
  r_line : line_ok (ed_left e) (ed_right e) s;
  r_hist : hist_ok (ed_hist e) s;
  r_esc : CmdlineInputVT100State s = ed_esc e ∧ 0 <= ed_esc e <= 2;
  r_idx : CmdlineHistoryIdx s = ed_idx e ∧ -1 <= ed_idx e <= 9;
  r_copy : CmdlineHistoryCopy s = c_bool (ed_fresh e);
  r_src : ed_line e ≠ [] -> ed_fresh e = false -> 0 <= ed_idx e < Z.of_nat (length (ed_hist e));
}.

Lemma hist_ok_max h s : hist_ok h s -> (length h <= 10)%nat.
Proof.
  intros [H1 _ _ H4 _]. rewrite <- H4. rewrite length_take, length_fmap. lia.
Qed.

(** *** Output does not change what is represented *)

(** [s'] differs from [s] at most in the output. *)
Definition out_only s s' : Prop := exists o, s' = set_out o s.

Lemma out_only_refl s : out_only s s.
Proof. exists (outbyte_log s). by destruct s. Qed.
Lemma out_only_trans s1 s2 s3 : out_only s1 s2 -> out_only s2 s3 -> out_only s1 s3.
Proof. intros [o1 ->] [o2 ->]. by exists o2. Qed.

Lemma wp_output c s Q :
  (forall s', out_only s s' -> Q tt s') -> wp (cmdlineOutputFunc c) s Q.
Proof. intros HQ. apply wp_modify, HQ. by eexists. Qed.

Lemma wp_output_all l s Q :
  (forall s', out_only s s' -> Q tt s') -> wp (output_all l) s Q.
Proof.
  revert s. induction l as [|c l IH]; intros s HQ; simpl.
  - apply wp_ret, HQ, out_only_refl.
  - apply wp_bind, wp_output. intros s1 H1. apply IH.
    intros s2 H2. apply HQ. by eapply out_only_trans.
Qed.

Lemma wp_output_loop lo hi (c : Z) s Q :
  lo <= hi -> (forall s', out_only s s' -> Q tt s') ->
  wp (for_up lo hi (λ _, cmdlineOutputFunc c)) s Q.
Proof.
  intros Hle HQ. apply (wp_for_up _ _ _ (λ _ s', out_only s s')); [done|apply out_only_refl| |done].
  intros i s1 _ Hs1. apply wp_output. intros s2 Hs2. by eapply out_only_trans.
Qed.

(** Executes output statements, collecting that only the output changed. *)
Ltac wp_out :=
  try lazymatch goal with |- wp (_ ≫= _) _ _ => apply wp_bind end;
  lazymatch goal with
  | |- wp (cmdlineOutputFunc _) _ _ => apply wp_output
  | |- wp (output_all _) _ _ => apply wp_output_all
  | |- wp cmdlinePrintPrompt _ _ => apply wp_output_all
  end;
  let s' := fresh "s" in let H := fresh "Hout" in intros s' H; cbn beta.

Lemma wp_repaint s Q :
  0 <= CmdlineBufferLength s <= Z.of_nat (length (CmdlineBuffer s)) ->
  (forall s', out_only s s' -> Q tt s') -> wp cmdlineRepaint s Q.
Proof.
  intros Hlen HQ. unfold cmdlineRepaint, cmdlinePrintPrompt.
  do 5 wp_out. apply wp_bind, wp_gets.
  assert (out_only s s4) as Hs by eauto using out_only_trans.
  clear -Hs HQ Hlen.
  assert (CmdlineBufferLength s4 = CmdlineBufferLength s) as -> by (by destruct Hs as [? ->]).
  apply (wp_for_up _ _ _ (λ _ s', out_only s s')); [lia|done| |done].
  intros i s' Hi Hs'. wp_steps.
  assert (CmdlineBuffer s' = CmdlineBuffer s) as -> by (by destruct Hs' as [? ->]).
  destruct (arr_get_Some (CmdlineBuffer s) i) as [c Hc]; [lia|].
  eapply wp_lift; [done|]. wp_out. by eapply out_only_trans.
Qed.

(** Makes the state after output statements explicit. *)
Ltac outs :=
  repeat match goal with H : out_only _ _ |- _ => destruct H as [? ->] end; simpl in *.

(** *** Moving characters in the buffer *)

Lemma set_Buffer_id s b : CmdlineBuffer s = b -> set_Buffer b s = s.
Proof. intros <-. by destruct s. Qed.

Lemma wp_move_char dst src x b s (Q : unit -> cmdline F -> Prop) :
  arr_get (CmdlineBuffer s) src = Some x -> arr_set (CmdlineBuffer s) dst x = Some b ->
  Q tt (set_Buffer b s) -> wp (move_char dst src) s Q.
Proof.
  intros H1 H2 HQ. unfold move_char. wp_steps. eapply wp_lift; [done|].
  wp_steps. eapply wp_lift; [done|]. by wp_steps.
Qed.

Lemma wp_shift_up m l y j s (Q : unit -> cmdline F -> Prop) :
  CmdlineBuffer s = l ++ m ++ y :: j ->
  Q tt (set_Buffer (l ++ default y (head m) :: m ++ j) s) ->
  wp (iter_down (length m) (Z.of_nat (length l + length m)) (λ i, move_char i (i - 1))) s Q.
Proof.
  revert y j s. induction m as [|z m IH] using rev_ind; intros y j s Hb HQ; simpl in *.
  - apply wp_ret. by rewrite <- (set_Buffer_id _ _ Hb).
  - rewrite length_app, Nat.add_comm. simpl. apply wp_bind.
    rewrite <- (app_assoc m) in Hb. eapply wp_move_char.
    { rewrite Hb, (app_assoc l). apply arr_get_middle. rewrite length_app. simpl. lia. }
    { rewrite Hb, (app_assoc l), (app_assoc (l ++ m)). apply arr_set_middle.
      rewrite !length_app. simpl. lia. }
    replace (Z.of_nat (length l + S (length m)) - 1) with (Z.of_nat (length l + length m)) by lia.
    apply (IH z (z :: j)); simpl; [by rewrite <- !app_assoc|].
    rewrite <- !app_assoc in HQ. simpl in HQ.
    replace (default z (head m)) with (default y (head (m ++ [z]))) by (by destruct m).
    done.
Qed.

Lemma wp_shift_down r l x j s (Q : unit -> cmdline F -> Prop) :
  CmdlineBuffer s = l ++ x :: r ++ j ->
  Q tt (set_Buffer (l ++ r ++ default x (list.last r) :: j) s) ->
  wp (iter_up (length r) (Z.of_nat (length l)) (λ i, move_char i (i + 1))) s Q.
Proof.
  revert l x s. induction r as [|a r IH]; intros l x s Hb HQ; simpl in *.
  - apply wp_ret. by rewrite <- (set_Buffer_id _ _ Hb).
  - apply wp_bind. eapply wp_move_char.
    { rewrite Hb, (cons_middle x l), app_assoc. apply (arr_get_middle (l ++ [x])).
      rewrite length_app. simpl. lia. }
    { rewrite Hb. by apply arr_set_middle. }
    replace (Z.of_nat (length l) + 1) with (Z.of_nat (length (l ++ [a])))
      by (rewrite length_app; simpl; lia).
    apply (IH (l ++ [a]) a); simpl; [by rewrite <- app_assoc|].
    rewrite <- app_assoc. simpl.
    replace (default a (list.last r)) with (default x (list.last (a :: r))); [done|].
    rewrite last_cons. by destruct (list.last r).
Qed.

(** *** The single operations *)

(** The parts of the relation that only look at fields that an operation
    leaves alone. *)
Lemma table_ok_frame cmds s s' :
  CmdlineNumCommands s' = CmdlineNumCommands s -> CmdlineCommandList s' = CmdlineCommandList s ->
  CmdlineFunctionList s' = CmdlineFunctionList s -> table_ok cmds s -> table_ok cmds s'.
Proof. intros E1 E2 E3 []. constructor; rewrite ?E1, ?E2, ?E3; auto. Qed.

Lemma hist_ok_frame h s s' :
  CmdlineHistory s' = CmdlineHistory s -> CmdlineHistoryCnt s' = CmdlineHistoryCnt s ->
  hist_ok h s -> hist_ok h s'.
Proof. intros E1 E2 []. constructor; rewrite ?E1, ?E2; auto. Qed.

Lemma line_ok_frame l r s s' :
  CmdlineBuffer s' = CmdlineBuffer s -> CmdlineBufferLength s' = CmdlineBufferLength s ->
  CmdlineBufferEditPos s' = CmdlineBufferEditPos s -> line_ok l r s -> line_ok l r s'.
Proof. intros E1 E2 E3 []. constructor; rewrite ?E1, ?E2, ?E3; auto. Qed.

Lemma refines_out cmds s s' e : out_only s s' -> refines cmds s e -> refines cmds s' e.
Proof.
  intros [o ->] []. constructor; simpl; auto.
  - eapply table_ok_frame; [..|eassumption]; done.
  - eapply line_ok_frame; [..|eassumption]; done.
  - eapply hist_ok_frame; [..|eassumption]; done.
Qed.

Lemma line_ok_length l r s :
  line_ok l r s -> 0 <= CmdlineBufferLength s <= Z.of_nat (length (CmdlineBuffer s)).
Proof. intros []. lia. Qed.

(** Splits [refines] and closes the parts the operation did not touch. *)
Ltac refines_tac :=
  constructor; simpl; auto;
  try (eapply table_ok_frame; [..|eassumption]; done);
  try (eapply hist_ok_frame; [..|eassumption]; done);
  try (eapply line_ok_frame; [..|eassumption]; done);
  try done; try (split; [congruence|lia]);
  try (unfold ed_line; simpl; rewrite ?app_nil_r; (assumption || done)).

Lemma put_char_spec l y j c s (Q : unit -> cmdline F -> Prop) :
  CmdlineBuffer s = l ++ y :: j -> CmdlineBufferEditPos s = Z.of_nat (length l) ->
  (length l < 50)%nat ->
  Q tt (set_BufferEditPos (Z.of_nat (length l + 1)) (set_Buffer (l ++ c :: j) s)) ->
  wp (put_char c) s Q.
Proof.
  intros Hb Hp Hl HQ. unfold put_char. wp_steps. rewrite Hp.
  eapply wp_lift; [rewrite Hb; by apply arr_set_middle|]. wp_steps. no_wrap.
  by replace (Z.of_nat (length l) + 1) with (Z.of_nat (length l + 1)) by lia.
Qed.

Lemma input_printable_spec cmds s e c :
  refines cmds s e -> printable c -> ed_esc e = 0 ->
  wp (input_printable c) s (λ _ s', refines cmds s' (ed_plain c e)).
Proof.
  intros [Ht Hl Hh [He1 He2] Hi Hc Hsrc] Hp Hesc. unfold input_printable, ed_plain, ed_line in *.
  rewrite (decide_True (P := printable c)) by done. wp_steps.
  destruct Hl as [[junk Hb] Hsz Hmax Hpos Hlen Hpr].
  rewrite Hpos, Hlen. rewrite length_app.
  assert (length (ed_left e ++ ed_right e ++ junk) = 50%nat) as Hsz' by (by rewrite <- Hb).
  rewrite !length_app in Hsz'.
  destruct junk as [|j0 [|j1 junk]]; simpl in Hsz'; [lia..|].
  case_bool_decide as Happ.
  - (* append *)
    assert (ed_right e = []) as Hr by (destruct (ed_right e); simpl in *; [done|lia]).
    rewrite Hr in *. simpl in *. rewrite app_nil_r in *.
    case_bool_decide as Hroom; unfold CMDLINE_BUFFERSIZE in Hroom.
    + rewrite decide_True by lia. wp_out. outs. apply wp_bind.
      eapply (put_char_spec (ed_left e)); [done|done|lia|].
      wp_steps. refines_tac.
      constructor; simpl; rewrite ?app_nil_r, ?length_app; simpl; no_wrap; try lia.
      * exists (j1 :: junk). by rewrite <- app_assoc.
      * apply Forall_app; auto.
    + rewrite decide_False by lia. wp_out. outs. refines_tac.
      constructor; simpl; rewrite ?app_nil_r; auto.
      by eexists.
  - (* insert in the middle of the line *)
    case_bool_decide as Hroom; unfold CMDLINE_BUFFERSIZE in Hroom.
    + rewrite decide_True by lia. wp_steps. no_wrap. unfold for_down.
      replace (Z.to_nat _) with (length (ed_right e ++ [j0])) by (rewrite length_app; simpl; lia).
      replace (Z.of_nat _ + 1) with (Z.of_nat (length (ed_left e) + length (ed_right e ++ [j0])))
        by (rewrite length_app; simpl; lia).
      eapply wp_shift_up; [simpl; rewrite Hb, <- app_assoc; done|].
      apply wp_bind. eapply (put_char_spec (ed_left e)); [done|done|lia|].
      apply wp_bind, wp_repaint; [simpl; len|].
      intros s1 H1. outs. wp_steps.
      apply wp_output_loop; [simpl; len|].
      intros s2 H2. outs. wp_steps. refines_tac.
      constructor; simpl; try len.
      * exists (j0 :: junk). by rewrite <- !app_assoc.
      * apply Forall_app in Hpr as [??]. rewrite !Forall_app. auto.
    + rewrite decide_False by lia. wp_out. outs. refines_tac.
      constructor; simpl; auto. by eexists.
Qed.

Lemma input_del_spec cmds s e :
  refines cmds s e -> ed_esc e = 0 ->
  wp input_del s (λ _ s', refines cmds s' (ed_plain ASCII_DEL e)).
Proof.
  intros [Ht Hl Hh [He1 He2] Hi Hc Hsrc] Hesc. unfold input_del, ed_plain, ed_line in *.
  rewrite decide_False by (unfold printable, ASCII_DEL; lia).
  rewrite decide_False by done. rewrite decide_True by done. wp_steps.
  destruct Hl as [[junk Hb] Hsz Hmax Hpos Hlen Hpr]. rewrite Hpos, Hlen.
  case_bool_decide as Hp0.
  - destruct (ed_left e) as [|x l _] eqn:Hle using rev_ind; [done|].
    rewrite removelast_last in *. rewrite length_app in *. simpl in *.
    rewrite <- app_assoc in *. simpl in *.
    assert (ed_fresh e = false -> 0 <= ed_idx e < Z.of_nat (length (ed_hist e))) as Hsrc'
      by (intros; apply Hsrc; [by destruct l|done]).
    assert (Forall printable (l ++ ed_right e)) as Hpr'.
    { rewrite Forall_app in Hpr. rewrite Forall_cons_iff in Hpr. rewrite Forall_app. tauto. }
    case_bool_decide as Hend.
    + (* at the end of the line *)
      assert (ed_right e = []) as Hr by (destruct (ed_right e); simpl in *; [done|lia]).
      do 3 wp_out. outs. wp_steps. no_wrap. refines_tac.
      constructor; simpl; rewrite ?Hr in *; simpl; try lia; try done.
      by exists (x :: junk).
    + (* in the middle of the line *)
      wp_steps. no_wrap. unfold for_up.
      replace (Z.to_nat _) with (length (ed_right e)) by lia.
      replace (Z.of_nat (length l + 1) - 1) with (Z.of_nat (length l)) by lia.
      eapply wp_shift_down; [exact Hb|].
      apply wp_bind, wp_repaint; [simpl; rewrite ?Hb in *; len|].
      intros s1 H1. outs. wp_out. outs. apply wp_output_loop; [lia|].
      intros s2 H2. outs. refines_tac.
      constructor; simpl; rewrite ?Hb in *; try len; [by eexists|done].
  - assert (ed_left e = []) as Hr by (destruct (ed_left e); simpl in *; [done|lia]).
    rewrite Hr in *. simpl in *. wp_out. outs. refines_tac.
    constructor; simpl; auto. by eexists.
Qed.

Lemma vt100_right_spec cmds s e :
  refines cmds s e ->
  wp (vt100_code VT100_ARROWRIGHT) s
    (λ _ s', refines cmds (set_InputVT100State 0 s') (ed_move_right e)).
Proof.
  intros [Ht Hl Hh [He1 He2] Hi Hc Hsrc]. unfold vt100_code, ed_move_right, ed_line in *.
  simpl. wp_steps. destruct Hl as [[junk Hb] Hsz Hmax Hpos Hlen Hpr]. rewrite Hpos, Hlen.
  destruct (ed_right e) as [|c r] eqn:Hr; simpl in *.
  - rewrite bool_decide_eq_false_2 by lia. wp_out. outs. refines_tac.
    constructor; simpl; auto. by eexists.
  - rewrite bool_decide_eq_true_2 by lia. wp_steps. no_wrap. do 3 wp_out. outs. refines_tac.
    + constructor; simpl; try len.
      * exists junk. by rewrite <- app_assoc.
      * by rewrite <- app_assoc.
    + unfold ed_line. simpl. by rewrite <- app_assoc.
Qed.

Lemma vt100_left_spec cmds s e :
  refines cmds s e ->
  wp (vt100_code VT100_ARROWLEFT) s
    (λ _ s', refines cmds (set_InputVT100State 0 s') (ed_move_left e)).
Proof.
  intros [Ht Hl Hh [He1 He2] Hi Hc Hsrc]. unfold vt100_code, ed_move_left, ed_line in *.
  simpl. wp_steps. destruct Hl as [[junk Hb] Hsz Hmax Hpos Hlen Hpr]. rewrite Hpos.
  destruct (ed_left e) as [|x l _] eqn:Hle using rev_ind; simpl in *.
  - wp_out. outs. refines_tac.
    constructor; simpl; auto. by eexists.
  - rewrite last_snoc, removelast_last. rewrite length_app in *. simpl in *.
    rewrite <- app_assoc in *. simpl in *.
    rewrite bool_decide_eq_true_2 by lia. wp_steps. no_wrap. wp_out. outs. refines_tac.
    constructor; simpl; try len; [by exists junk|done].
Qed.

(** *** History *)

Lemma wp_history_clamp i s (Q : unit -> cmdline F -> Prop) :
  CmdlineHistoryIdx s = i - 1 -> -3 <= i <= 10 -> 0 <= CmdlineHistoryCnt s <= 10 ->
  Q tt (set_HistoryIdx (Z.max 0 (Z.min i (CmdlineHistoryCnt s - 1))) s) ->
  wp history_clamp s Q.
Proof.
  intros Hi Hr Hc HQ. unfold history_clamp. wp_steps. rewrite Hi. simpl.
  replace (i - 1 + 1) with i by lia. no_wrap.
  case_bool_decide; wp_steps; simpl; no_wrap; case_bool_decide; wp_steps;
    (eapply eq_ind; [exact HQ|]); unfold set_HistoryIdx; simpl; f_equal; lia.
Qed.

(** The row that holds history entry [k]. *)
Lemma hist_ok_row h s k :
  hist_ok h s -> 0 <= k <= Z.max 0 (Z.of_nat (length h) - 1) ->
  exists r, arr_get (CmdlineHistory s) k = Some r ∧ row_ok r ∧ cstr r = default [] (h !! Z.to_nat k).
Proof.
  intros Hh Hk. pose proof (hist_ok_max _ _ Hh). destruct Hh as [Hsz Hrows Hcnt Habs Hnone].
  destruct (arr_get_Some (CmdlineHistory s) k) as [r Hr]; [lia|]. exists r. split; [done|].
  rewrite arr_get_lookup in Hr by lia. split; [by eapply Forall_lookup_1|].
  destruct h as [|x h].
  - destruct Hnone as (rows & r' & Hrs & Hr'); [done|].
    assert (k = 0) as -> by (simpl in *; lia). rewrite Hrs in Hr. simpl in Hr. by simplify_eq/=.
  - rewrite <- Habs. rewrite lookup_take_lt by (simpl in *; lia).
    by rewrite list_lookup_fmap, Hr.
Qed.

Lemma history_show_spec cmds s e :
  refines cmds (set_HistoryIdx (ed_idx e) s) e ->
  0 <= CmdlineHistoryIdx s <= Z.max 0 (Z.of_nat (length (ed_hist e)) - 1) ->
  wp history_show s (λ _ s', refines cmds (set_InputVT100State 0 s')
    (Editor (default [] (ed_hist e !! Z.to_nat (CmdlineHistoryIdx s))) [] 0 (ed_hist e)
      (CmdlineHistoryIdx s) false)).
Proof.
  intros [Ht Hl Hh [He1 He2] Hi Hc Hsrc] Hk. unfold history_show. wp_steps.
  pose proof (hist_ok_max _ _ Hh) as Hmax. pose proof (l_size _ _ _ Hl) as Hsz. simpl in Hsz.
  destruct (hist_ok_row _ _ _ Hh Hk) as (r & Hr & (Hlen & H0 & Hshort & Hpr) & Hcs).
  eapply wp_lift; [exact Hr|]. wp_steps.
  destruct (c_strcpy_spec (CmdlineBuffer s) r) as (b & Hb & Hbl & Hb0 & Hbc & _);
    [done|lia|].
  eapply wp_lift; [exact Hb|]. wp_steps.
  eapply wp_lift; [unfold c_strlen; by rewrite decide_True by done|]. wp_steps.
  rewrite Hbc. no_wrap. apply wp_repaint.
  { simpl. lia. }
  intros s1 H1. outs. wp_steps. rewrite <- Hcs. refines_tac.
  - constructor; simpl; rewrite ?app_nil_r; try lia.
    + destruct (cstr_split b) as [j Hj]; [done|]. exists (0 :: j). by rewrite <- Hbc.
    + done.
  - intros Hne _. destruct (ed_hist e); [|simpl in *; lia].
    exfalso. apply Hne. unfold ed_line. simpl in *. by rewrite Hcs.
Qed.

Lemma history_prev_next_spec cmds s e c :
  refines cmds s e -> c = VT100_ARROWUP \/ c = VT100_ARROWDOWN ->
  wp (vt100_code c) s (λ _ s', refines cmds (set_InputVT100State 0 s')
    (ed_recall (if decide (c = VT100_ARROWUP) then ed_idx e + 1 else ed_idx e - 1) e)).
Proof.
  intros Href Hc. pose proof (hist_ok_max _ _ (r_hist _ _ _ Href)) as Hm.
  assert (forall i s0, s0 = set_HistoryIdx (i - 1) s -> -3 <= i <= 10 ->
    wp (history_clamp;; history_show) s0
      (λ _ s', refines cmds (set_InputVT100State 0 s') (ed_recall i e))) as Hgo.
  { intros i s0 -> Hi. pose proof (h_cnt _ _ (r_hist _ _ _ Href)) as Hcnt.
    apply wp_bind, (wp_history_clamp i); [done|done|simpl; lia|].
    simpl. rewrite Hcnt. eapply wp_mono; [apply (history_show_spec cmds _ e)|].
    - destruct Href as [Ht Hl Hh He Hx Hcp Hsrc]. by refines_tac.
    - simpl. lia.
    - simpl. intros [] s' Hs'. exact Hs'. }
  pose proof (r_idx _ _ _ Href) as [Hx ?]. unfold vt100_code.
  destruct Hc as [-> | ->]; simpl.
  - apply Hgo; [|lia]. rewrite Z.add_simpl_r, <- Hx. by destruct s.
  - apply wp_bind, wp_gets, wp_bind, wp_modify. apply Hgo; [|lia].
    rewrite s8_small by lia. rewrite Hx. f_equal. lia.
Qed.

Lemma printable_nonzero l : Forall printable l -> Forall (λ c, c ≠ 0) l.
Proof. apply Forall_impl. unfold printable. lia. Qed.

Lemma row_lookup s i z :
  (cstr <$> CmdlineHistory s) !! i = Some z -> Forall row_ok (CmdlineHistory s) ->
  exists r, arr_get (CmdlineHistory s) (Z.of_nat i) = Some r ∧ row_ok r ∧ cstr r = z.
Proof.
  intros (r & Hc & Hr)%list_lookup_fmap_Some Hok. exists r. rewrite arr_get_nat.
  split; [done|]. split; [by eapply Forall_lookup_1|done].
Qed.

(** Replacing row [i] by a copy of a well-formed string. *)
Lemma row_copy s i src r (Q : list (list Z) -> Prop) :
  arr_get (CmdlineHistory s) (Z.of_nat i) = Some r -> Forall row_ok (CmdlineHistory s) ->
  0 ∈ src -> (length (cstr src) <= 48)%nat -> Forall printable (cstr src) ->
  (forall r', c_strcpy r src = Some r' -> row_ok r' ->
    Forall row_ok (<[i := r']> (CmdlineHistory s)) ->
    cstr <$> <[i := r']> (CmdlineHistory s) = <[i := cstr src]> (cstr <$> CmdlineHistory s) ->
    Q (<[i := r']> (CmdlineHistory s))) ->
  exists r', c_strcpy r src = Some r' ∧ Q (<[i := r']> (CmdlineHistory s)).
Proof.
  intros Hr Hok H0 Hlen Hpr HQ. rewrite arr_get_nat in Hr.
  assert (length r = 50%nat) as Hl by (by eapply Forall_lookup_1 in Hok as [??]).
  destruct (c_strcpy_spec r src) as (r' & Hcp & Hl' & H0' & Hc' & _); [done|lia|].
  assert (row_ok r') as Hr' by (unfold row_ok; rewrite Hc'; split_and!; auto; lia).
  exists r'. split; [done|]. apply HQ; [done|done|by apply Forall_insert|].
  by rewrite list_fmap_insert, Hc'.
Qed.

Lemma wp_history_shift m y j s (Q : unit -> cmdline F -> Prop) :
  cstr <$> CmdlineHistory s = m ++ y :: j -> Forall row_ok (CmdlineHistory s) ->
  (forall H, length H = length (CmdlineHistory s) -> Forall row_ok H ->
    cstr <$> H = default y (head m) :: m ++ j -> Q tt (set_History H s)) ->
  wp (iter_down (length m) (Z.of_nat (length m)) history_shift) s Q.
Proof.
  revert y j s. induction m as [|z m IH] using rev_ind; intros y j s Hm Hok HQ; simpl in *.
  - apply wp_ret. replace s with (set_History (CmdlineHistory s) s) by (by destruct s). by apply HQ.
  - rewrite length_app, Nat.add_comm. simpl. rewrite <- app_assoc in *. simpl in Hm.
    apply wp_bind. unfold history_shift at 1. wp_steps.
    destruct (row_lookup s (length m) z) as (rs & Hrs & (_ & H0 & Hlen & Hpr) & Hz);
      [rewrite Hm; by apply list_lookup_middle|done|].
    destruct (row_lookup s (S (length m)) y) as (rd & Hrd & Hokd & Hy).
    { rewrite Hm, (cons_middle z m), app_assoc. apply list_lookup_middle. len. } { done. }
    replace (Z.of_nat (S (length m)) - 1) with (Z.of_nat (length m)) by lia.
    eapply wp_lift; [exact Hrs|]. wp_steps. eapply wp_lift; [exact Hrd|]. wp_steps.
    edestruct (row_copy s (S (length m)) rs rd (λ H,
      wp (modify (set_History H)) s (λ _ s', wp (iter_down (length m) (Z.of_nat (length m)) history_shift) s' Q)))
      as (r' & Hcp & Hgo); [done..| |].
    2: { eapply wp_lift; [exact Hcp|]. wp_steps. eapply wp_lift; [|exact Hgo].
         rewrite arr_set_in; [by rewrite Nat2Z.id|by eapply arr_get_range]. }
    intros r' Hcp Hr' Hok' Habs. wp_steps. rewrite Hz, Hm in Habs.
    apply (IH z (z :: j)); simpl; [|done|].
    + rewrite Habs, (cons_middle z m), app_assoc, insert_app_r_alt by len.
      replace (S (length m) - length (m ++ [z]))%nat with 0%nat by len. simpl.
      by rewrite <- app_assoc.
    + intros H Hlen' HokH Hch. apply HQ; [by rewrite Hlen', length_insert|done|].
      rewrite Hch. by destruct m.
Qed.

(** Storing [line] in front of the rows, row [i] being overwritten. *)
Lemma wp_history_store line junk i s (Q : unit -> cmdline F -> Prop) :
  (i < 10)%nat -> length (CmdlineHistory s) = 10%nat -> Forall row_ok (CmdlineHistory s) ->
  Forall printable line -> (length line <= 48)%nat ->
  (forall H, length H = 10%nat -> Forall row_ok H ->
    cstr <$> H = line :: delete i (cstr <$> CmdlineHistory s) -> Q tt (set_History H s)) ->
  wp (for_down (Z.of_nat i) 0 history_shift;;
      h ← gets CmdlineHistory;
      dst ← lift (arr_get h 0);
      dst' ← lift (c_strcpy dst (line ++ 0 :: junk));
      h' ← lift (arr_set h 0 dst');
      modify (set_History h')) s Q.
Proof.
  intros Hi Hlen Hok Hpr Hl HQ. unfold for_down.
  destruct (lookup_lt_is_Some_2 (cstr <$> CmdlineHistory s) i) as [y Hy]; [len|].
  pose proof (take_drop_middle _ _ _ Hy) as Hsplit. rewrite delete_take_drop in HQ.
  set (m := take i _) in *. assert (length m = i) as Hm by (unfold m; len).
  rewrite Z.sub_0_r, Nat2Z.id, <- Hm.
  apply wp_bind, (wp_history_shift m y (drop (S i) (cstr <$> CmdlineHistory s))); [by symmetry|done|].
  intros H HlH HokH HcH. wp_steps.
  destruct (row_lookup (set_History H s) 0 (default y (list.head m))) as (r & Hr & _);
    [simpl; by rewrite HcH|done|].
  assert (cstr (line ++ 0 :: junk) = line) as Hc.
  { by apply cstr_app_nul, printable_nonzero. }
  eapply wp_lift; [exact Hr|]. wp_steps.
  edestruct (row_copy (set_History H s) 0 (line ++ 0 :: junk) r
    (λ h', wp (modify (set_History h')) (set_History H s) Q)) as (r' & Hcp & Hgo);
    [exact Hr|done|set_solver|by rewrite Hc|by rewrite Hc| |].
  - intros r' Hcp Hr' Hok' Habs. wp_steps. simpl in *.
    apply (HQ (<[0%nat := r']> H)); [by rewrite length_insert, HlH|done|].
    rewrite Habs, HcH, Hc. done.
  - eapply wp_lift; [exact Hcp|]. wp_steps. eapply wp_lift; [|exact Hgo].
    rewrite arr_set_in; [done|by eapply arr_get_range].
Qed.

(** The history after a line was submitted, as in [ed_save]. *)
Definition save_line (line : list Z) (h : list (list Z)) (idx : Z) (fresh : bool) : list (list Z) :=
  if decide (line = []) then h
  else if fresh then take 10 (line :: h) else line :: delete (Z.to_nat idx) h.

(** The part of the state that the history operations own. *)
Definition hist_only s s' : Prop :=
  exists H n, s' = set_HistoryCnt n (set_History H s).

Lemma take_delete_lt {A} (l : list A) i n :
  (i < n <= length l)%nat -> take (n - 1) (delete i l) = delete i (take n l).
Proof.
  intros Hi. rewrite !delete_take_drop.
  rewrite take_app, !take_take, length_take, take_drop_commute.
  f_equal; f_equal; [lia|]. f_equal. lia.
Qed.

Lemma take_delete_eq {A} (l : list A) i : (i <= length l)%nat -> take i (delete i l) = take i l.
Proof.
  intros Hi. rewrite delete_take_drop. apply take_app_length'. len.
Qed.

(** The history is the stored line in front of the old rows but one. *)
Lemma hist_ok_store line h h' i s H n :
  length H = 10%nat -> Forall row_ok H -> cstr <$> H = line :: delete i (cstr <$> CmdlineHistory s) ->
  n = Z.of_nat (S (length h')) -> take (length h') (delete i (cstr <$> CmdlineHistory s)) = h' ->
  h = line :: h' -> hist_ok h (set_HistoryCnt n (set_History H s)).
Proof.
  intros Hl Hok Hc -> Ht ->. constructor; simpl; auto; [|done].
  rewrite Hc. simpl. by f_equal.
Qed.

Lemma history_save_spec line junk h idx fresh s :
  CmdlineBuffer s = line ++ 0 :: junk -> Forall printable line -> (length line <= 48)%nat ->
  hist_ok h s -> CmdlineHistoryCopy s = c_bool fresh -> CmdlineHistoryIdx s = idx ->
  (line ≠ [] -> fresh = false -> 0 <= idx < Z.of_nat (length h)) ->
  wp history_save s (λ _ s', hist_only s s' ∧ hist_ok (save_line line h idx fresh) s').
Proof.
  intros Hb Hpr Hl Hh Hcopy Hidx Hsrc. unfold history_save, save_line. wp_steps.
  assert (cstr (CmdlineBuffer s) = line) as Hc.
  { rewrite Hb. by apply cstr_app_nul, printable_nonzero. }
  eapply wp_lift; [unfold c_strlen; rewrite decide_True; [done|rewrite Hb; set_solver]|].
  rewrite Hc. case_bool_decide as Hz.
  { rewrite decide_True by (by destruct line). wp_steps. split; [|done].
    exists (CmdlineHistory s), (CmdlineHistoryCnt s). by destruct s. }
  rewrite decide_False by (by intros ->).
  pose proof (hist_ok_max _ _ Hh). destruct Hh as [Hsz Hrows Hcnt Habs Hnone].
  assert (length (cstr <$> CmdlineHistory s) = 10%nat) as Hsz' by len.
  wp_steps. rewrite Hcopy. destruct fresh; simpl.
  - wp_steps. unfold CMDLINE_HISTORYSIZE.
    assert (forall s0 i, hist_only s s0 -> CmdlineHistory s0 = CmdlineHistory s ->
      CmdlineBuffer s0 = CmdlineBuffer s ->
      CmdlineHistoryCnt s0 = Z.of_nat (S i) -> i = Nat.min 9 (length h) ->
      wp (for_down (Z.of_nat i) 0 history_shift;;
          h ← gets CmdlineHistory;
          dst ← lift (arr_get h 0);
          dst' ← lift (c_strcpy dst (CmdlineBuffer s));
          h' ← lift (arr_set h 0 dst');
          modify (set_History h')) s0
        (λ _ s', hist_only s s' ∧ hist_ok (take 10 (line :: h)) s')) as Hgo.
    { intros s0 i Ho Hh0 Hb0 Hc0 Hi. rewrite Hb.
      apply wp_history_store; rewrite ?Hh0; [lia|done..|].
      intros H' HlH HokH HcH. split.
      - destruct Ho as (H1 & n1 & ->). by exists H', n1.
      - replace (set_History H' s0) with (set_HistoryCnt (Z.of_nat (S i)) (set_History H' s0))
          by (rewrite <- Hc0; by destruct s0).
        eapply (hist_ok_store line _ (take 9 h) i); rewrite ?Hh0; auto.
        + len.
        + rewrite length_take, <- Hi, take_delete_eq by lia.
          rewrite <- Habs at 1. by rewrite take_take, <- Hi. }
    case_bool_decide as Hfull; wp_pure; simpl.
    + apply (Hgo _ 9%nat); try done; try lia. by eexists _, _.
    + rewrite Hcnt. apply Hgo; try done; [by eexists _, _| |lia]. simpl. no_wrap. lia.
  - specialize (Hsrc ltac:(by intros ->) eq_refl). wp_pure. rewrite Hidx.
    replace idx with (Z.of_nat (Z.to_nat idx)) at 1 by lia. rewrite Hb.
    apply wp_history_store; [lia|done..|]. intros H' HlH HokH HcH. split.
    + exists H', (CmdlineHistoryCnt s). by destruct s.
    + replace (set_History H' s) with (set_HistoryCnt (CmdlineHistoryCnt s) (set_History H' s))
        by (by destruct s).
      assert (is_Some (h !! Z.to_nat idx)) as Hsome by (apply lookup_lt_is_Some_2; lia).
      eapply (hist_ok_store line _ (delete (Z.to_nat idx) h) (Z.to_nat idx)); auto.
      * rewrite Hcnt. rewrite length_delete by done. lia.
      * rewrite length_delete by done. rewrite take_delete_lt by lia. by rewrite Habs.
Qed.

(** *** Command lookup *)

Lemma scan_word line junk i :
  Forall printable line -> 0 <= i -> i + Z.of_nat (length line) < 256 ->
  scan_while is_word (line ++ 0 :: junk) i = Some (i + Z.of_nat (length (first_word line))).
Proof.
  intros Hpr. revert i. induction Hpr as [|c line Hc _ IH]; intros i Hi Hlen; simpl in *.
  - by rewrite Z.add_0_r.
  - unfold is_word at 1. unfold printable in Hc. rewrite (bool_decide_eq_false_2 (c = 0)) by lia.
    unfold is_word. rewrite (bool_decide_eq_false_2 (c = 0)) by lia. rewrite !orb_false_r.
    case_bool_decide as Hsp; simpl; [by rewrite Z.add_0_r|].
    no_wrap. rewrite IH by lia. f_equal. lia.
Qed.

Lemma first_word_take line : first_word line = take (length (first_word line)) line.
Proof. induction line as [|c l IH]; simpl; [done|]. destruct (is_word c); simpl; [by f_equal|done]. Qed.

(** [strncmp] against a word of the buffer is the prefix test. *)
Lemma strneq_prefix w rest name junk :
  Forall (λ c, c ≠ 0) w -> Forall (λ c, c ≠ 0) name ->
  c_strneq (name ++ 0 :: junk) (w ++ rest) (length w) = Some (bool_decide (w `prefix_of` name)).
Proof.
  intros Hw. revert name. induction Hw as [|c w Hc _ IH]; intros name Hn;
    cbn [length c_strneq app].
  - by rewrite bool_decide_eq_true_2 by apply prefix_nil.
  - destruct Hn as [|x name Hx Hn]; cbn [app].
    + rewrite decide_True by done. rewrite bool_decide_eq_false_2; [done|].
      intros [k Hk]. done.
    + destruct (decide (x = c)) as [->|Hne].
      * rewrite decide_False by tauto. rewrite decide_False by done. rewrite IH by done.
        f_equal. apply bool_decide_ext. split; [apply prefix_cons|apply prefix_cons_inv_2].
      * rewrite decide_True by done. rewrite bool_decide_eq_false_2; [done|].
        intros ?%prefix_cons_inv_1. congruence.
Qed.

Lemma find_command_spec cmds s line rest :
  table_ok cmds s -> CmdlineBuffer s = first_word line ++ rest ->
  Forall printable line ->
  wp (find_command (length cmds) 0 (length (first_word line))) s (λ r s',
    s' = s ∧ r = (λ p, Z.of_nat p.1) <$> list_find (λ p, first_word line `prefix_of` p.1) cmds).
Proof.
  intros Ht Hb Hpr.
  assert (Forall (λ c, c ≠ 0) (first_word line)) as Hw.
  { rewrite first_word_take. by apply Forall_take, printable_nonzero. }
  assert (forall k tl, drop k cmds = tl ->
    wp (find_command (length tl) (Z.of_nat k) (length (first_word line))) s (λ r s',
      s' = s ∧ r = (λ p, Z.of_nat (k + p.1)) <$>
        list_find (λ p, first_word line `prefix_of` p.1) tl)) as H.
  2: { specialize (H 0%nat cmds eq_refl). eapply wp_mono; [exact H|]. naive_solver. }
  intros k tl. revert k. induction tl as [|[name f] tl IH]; intros k Hd; simpl.
  { by apply wp_ret. }
  assert (cmds !! k = Some (name, f)) as Hk.
  { rewrite <- (Nat.add_0_r k), <- lookup_drop, Hd. done. }
  destruct (t_row _ _ Ht _ _ _ Hk) as (r & Hr & H0 & Hn & Hf).
  wp_steps. eapply wp_lift; [rewrite arr_get_nat; exact Hr|]. wp_steps.
  destruct (cstr_split r H0) as [junk Hj].
  eapply wp_lift.
  { rewrite Hb, Hj, Hn. apply strneq_prefix; [done|]. rewrite <- Hn. apply cstr_nonzero. }
  case_bool_decide as Hp.
  - rewrite decide_True by done. simpl. apply wp_ret. split; [done|]. by rewrite Nat.add_0_r.
  - rewrite decide_False by done.
    replace (Z.of_nat k + 1) with (Z.of_nat (S k)) by lia.
    eapply wp_mono; [apply (IH (S k)); pose proof (drop_S _ _ _ Hk); congruence|].
    intros r0 s' [-> ->]. split; [done|]. destruct (list_find _ tl) as [[i x]|]; simpl; [|done].
    do 2 f_equal. lia.
Qed.

(** Printing the first word of the buffer stays inside of it. *)
Lemma wp_output_word line junk s (Q : unit -> cmdline F -> Prop) :
  (forall s', out_only s s' -> Q tt s') -> wp (output_word (line ++ 0 :: junk)) s Q.
Proof.
  revert s. induction line as [|c line IH]; intros s HQ; simpl.
  - apply wp_ret, HQ, out_only_refl.
  - case_bool_decide; [|apply wp_ret, HQ, out_only_refl].
    wp_out. apply IH. intros s1 H1. apply HQ. by eapply out_only_trans.
Qed.

(** The effect of submitting [line]: only the history, the output and the
    pending function change. *)
Lemma process_spec cmds line junk h idx fresh s :
  table_ok cmds s -> CmdlineBuffer s = line ++ 0 :: junk -> Forall printable line ->
  (length line <= 48)%nat -> hist_ok h s -> CmdlineHistoryCopy s = c_bool fresh ->
  CmdlineHistoryIdx s = idx ->
  (line ≠ [] -> fresh = false -> 0 <= idx < Z.of_nat (length h)) ->
  wp cmdlineProcessInputString s (λ _ s', exists s1 o f,
    hist_only s s1 ∧ hist_ok (save_line line h idx fresh) s1 ∧
    s' = set_ExecFunction f (set_out o s1) ∧
    f = (if decide (first_word line = []) then CmdlineExecFunction s
         else match select_command cmds line with Some f => Some f | None => CmdlineExecFunction s end)).
Proof.
  intros Ht Hb Hpr Hl Hh Hc Hi Hsrc. unfold cmdlineProcessInputString, cmdlineDoHistory.
  apply wp_bind. eapply wp_mono; [by eapply history_save_spec|].
  intros [] s1 [Ho Hh1]. wp_steps.
  assert (table_ok cmds s1) as Ht1 by (destruct Ho as (? & ? & ->); eapply table_ok_frame; [..|exact Ht]; done).
  assert (CmdlineBuffer s1 = line ++ 0 :: junk) as Hb1 by (destruct Ho as (? & ? & ->); done).
  assert (CmdlineExecFunction s1 = CmdlineExecFunction s) as He1 by (destruct Ho as (? & ? & ->); done).
  rewrite Hb1. eapply wp_lift; [apply scan_word; [done|lia|lia]|]. rewrite Z.add_0_l.
  case_bool_decide as Hw.
  { rewrite decide_True by (by destruct (first_word line)). wp_out. destruct Hout as [o ->].
    exists s1, o, (CmdlineExecFunction s). rewrite <- He1. split_and!; auto; by destruct s1. }
  rewrite decide_False by (by intros E; rewrite E in Hw). wp_pure.
  rewrite (t_num _ _ Ht1), !Nat2Z.id. apply wp_bind.
  eapply wp_mono; [apply (find_command_spec cmds s1 line (drop (length (first_word line)) line ++ 0 :: junk)); [done| |done]|].
  { rewrite Hb1, app_assoc. f_equal. rewrite first_word_take at 1. by rewrite take_drop. }
  intros r s2 [-> ->]. unfold select_command.
  destruct (list_find _ cmds) as [[k [name f]]|] eqn:Hf; simpl.
  - apply list_find_Some in Hf as (Hk & _).
    destruct (t_row _ _ Ht1 _ _ _ Hk) as (_ & _ & _ & _ & Hfn).
    wp_steps. eapply wp_lift; [rewrite arr_get_nat; exact Hfn|]. wp_steps.
    exists s1, (outbyte_log s1), (Some f). split_and!; auto; by destruct s1.
  - unfold cmdlinePrintError. apply wp_bind. wp_out. apply wp_bind, wp_gets, wp_bind.
    assert (CmdlineBuffer s0 = line ++ 0 :: junk) as -> by (by destruct Hout as [? ->]).
    apply wp_output_word. intros s3 H3. do 5 wp_out. wp_out.
    assert (out_only s1 s8) as [o ->] by eauto 10 using out_only_trans.
    exists s1, o, (CmdlineExecFunction s). rewrite <- He1. split_and!; auto; by destruct s1.
Qed.

(** The command that a carriage return leaves pending. *)
Definition pending cmds (line : list Z) (x : option F) : option F :=
  if decide (first_word line = []) then x
  else match select_command cmds line with Some f => Some f | None => x end.

Lemma input_cr_spec cmds s e :
  refines cmds s e -> ed_esc e = 0 ->
  wp input_cr s (λ _ s', refines cmds s' (ed_plain ASCII_CR e) ∧
    CmdlineExecFunction s' = pending cmds (ed_line e) (CmdlineExecFunction s) ∧
    exists junk, CmdlineBuffer s' = ed_line e ++ 0 :: junk).
Proof.
  intros [Ht Hl Hh [He1 He2] Hi Hc Hsrc] Hesc. unfold input_cr, ed_plain.
  rewrite decide_False by (unfold printable, ASCII_CR; lia). rewrite decide_True by done.
  do 2 wp_out. outs. wp_pure. destruct Hl as [[junk Hb] Hsz Hmax Hpos Hlen Hpr]. simpl.
  assert (length (ed_left e ++ ed_right e ++ junk) = 50%nat) as Hsz' by (by rewrite <- Hb).
  rewrite !length_app in Hsz'. destruct junk as [|j0 junk]; simpl in Hsz'; [lia|].
  apply wp_bind. eapply wp_lift.
  { rewrite Hb, Hlen, app_assoc. apply arr_set_middle. by rewrite length_app. }
  wp_pure. simpl. apply wp_bind.
  eapply wp_mono; [eapply (process_spec cmds (ed_line e) junk (ed_hist e) (ed_idx e) (ed_fresh e))|].
  - eapply table_ok_frame; [..|exact Ht]; done.
  - done.
  - done.
  - unfold ed_line. rewrite length_app. lia.
  - eapply hist_ok_frame; [..|exact Hh]; done.
  - done.
  - by destruct Hi.
  - done.
  - intros [] s' (s1 & o & f & (H & n & ->) & Hh1 & -> & Hf). wp_steps. simpl in *.
    split_and!; [|exact Hf|by exists junk].
    constructor; simpl; try done; try lia.
    + eapply table_ok_frame; [..|exact Ht]; done.
    + constructor; simpl; try done; [by eexists|..|lia]. rewrite <- Hsz, Hb. len.
    + eapply hist_ok_frame; [..|exact Hh1]; done.
Qed.
(** *** Operations that leave the pending command alone *)

Definition keeps_exec {A} (m : ST (cmdline F) A) : Prop :=
  forall s a s', m s = Some (a, s') -> CmdlineExecFunction s' = CmdlineExecFunction s.

Lemma keeps_bind {A B} (m : ST (cmdline F) A) (k : A -> ST (cmdline F) B) :
  keeps_exec m -> (forall a, keeps_exec (k a)) -> keeps_exec (m ≫= k).
Proof.
  intros Hm Hk s b s'. unfold mbind, st_bind. destruct (m s) as [[a s1]|] eqn:E; [|done].
  intros H. rewrite (Hk _ _ _ _ H). by eapply Hm.
Qed.
Lemma keeps_ret {A} (a : A) : keeps_exec (mret a).
Proof. intros s ? s' H. by injection H as _ <-. Qed.
Lemma keeps_gets {A} (f : cmdline F -> A) : keeps_exec (gets f).
Proof. intros s a s' H. by injection H as _ <-. Qed.
Lemma keeps_lift {A} (o : option A) : keeps_exec (lift o).
Proof. intros s a s' H. unfold lift in H. destruct o; [by injection H as _ <-|done]. Qed.
Lemma keeps_modify f :
  (forall s, CmdlineExecFunction (f s) = CmdlineExecFunction s) -> keeps_exec (modify f).
Proof. intros Hf s a s' H. by injection H as _ <-. Qed.
Lemma keeps_if {A} (b : bool) (m1 m2 : ST (cmdline F) A) :
  keeps_exec m1 -> keeps_exec m2 -> keeps_exec (if b then m1 else m2).
Proof. by destruct b. Qed.
Lemma keeps_for_up lo hi body : (forall i, keeps_exec (body i)) -> keeps_exec (for_up lo hi body).
Proof.
  intros H. unfold for_up. generalize (Z.to_nat (hi - lo)). intros n. revert lo.
  induction n as [|n IH]; intros lo; [apply keeps_ret|]. by apply keeps_bind; [|intros].
Qed.
Lemma keeps_for_down lo hi body : (forall i, keeps_exec (body i)) -> keeps_exec (for_down hi lo body).
Proof.
  intros H. unfold for_down. generalize (Z.to_nat (hi - lo)). intros n. revert hi.
  induction n as [|n IH]; intros hi; [apply keeps_ret|]. by apply keeps_bind; [|intros].
Qed.
Lemma keeps_output c : keeps_exec (cmdlineOutputFunc c).
Proof. by apply keeps_modify. Qed.
Lemma keeps_output_all l : keeps_exec (output_all l).
Proof. induction l; [apply keeps_ret|]. apply keeps_bind; [apply keeps_output|done]. Qed.

Ltac keeps :=
  repeat lazymatch goal with
  | |- keeps_exec (_ ≫= _) => apply keeps_bind; [|intros ?]
  | |- keeps_exec (if _ then _ else _) => apply keeps_if
  | |- keeps_exec (for_up _ _ _) => apply keeps_for_up; intros ?
  | |- keeps_exec (for_down _ _ _) => apply keeps_for_down; intros ?
  | |- keeps_exec (cmdlineOutputFunc _) => apply keeps_output
  | |- keeps_exec (output_all _) => apply keeps_output_all
  | |- keeps_exec cmdlinePrintPrompt => apply keeps_output_all
  | |- keeps_exec (gets _) => apply keeps_gets
  | |- keeps_exec (lift _) => apply keeps_lift
  | |- keeps_exec (mret _) => apply keeps_ret
  | |- keeps_exec skip => apply keeps_ret
  | |- keeps_exec (modify _) => by apply keeps_modify
  end.

Lemma keeps_printable c : keeps_exec (input_printable c).
Proof. unfold input_printable, put_char, move_char, cmdlineRepaint. keeps. Qed.
Lemma keeps_del : keeps_exec input_del.
Proof. unfold input_del, move_char, cmdlineRepaint. keeps. Qed.
Lemma keeps_vt100 c : keeps_exec (vt100_code c).
Proof.
  unfold vt100_code, cmdlineDoHistory, history_clamp, history_show, cmdlineRepaint. keeps.
Qed.

Lemma wp_keeps {A} (m : ST (cmdline F) A) s Q :
  keeps_exec m -> wp m s Q ->
  wp m s (λ a s', Q a s' ∧ CmdlineExecFunction s' = CmdlineExecFunction s).
Proof. intros Hk (a & s' & E & HQ)%wp_run. apply wp_run. eauto 10. Qed.

(** *** The input function *)

(** Whether the key [c] submits the line. *)
Definition submits (c : Z) (e : editor) : bool :=
  bool_decide (ed_esc e ≠ 2 ∧ c = ASCII_CR).

Definition pending_key cmds (c : Z) (e : editor) (x : option F) : option F :=
  if submits c e then pending cmds (ed_line e) x else x.

Definition key_post cmds c s e s' : Prop :=
  refines cmds s' (ed_key c e) ∧
  CmdlineExecFunction s' = pending_key cmds c e (CmdlineExecFunction s) ∧
  (submits c e = true -> exists junk, CmdlineBuffer s' = ed_line e ++ 0 :: junk).

Lemma vt100_code_spec cmds s e c :
  refines cmds s e -> ed_esc e = 2 ->
  wp (vt100_code c) s (λ _ s', refines cmds (set_InputVT100State 0 s') (ed_key c e)).
Proof.
  intros Href He. unfold ed_key. rewrite decide_True by done.
  destruct (decide (c = VT100_ARROWUP)) as [Hu|Hu].
  { eapply wp_mono; [by apply (history_prev_next_spec cmds s e c); auto|]. intros [] s'. by rewrite decide_True. }
  destruct (decide (c = VT100_ARROWDOWN)) as [Hd|Hd].
  { eapply wp_mono; [by apply (history_prev_next_spec cmds s e c); auto|]. intros [] s'. by rewrite decide_False. }
  destruct (decide (c = VT100_ARROWRIGHT)) as [->|Hr]; [by apply vt100_right_spec|].
  destruct (decide (c = VT100_ARROWLEFT)) as [->|Hl]; [by apply vt100_left_spec|].
  unfold vt100_code. rewrite !bool_decide_eq_false_2 by done. wp_steps.
  destruct Href as [Ht Hln Hh Hes Hx Hcp Hsrc]. by refines_tac.
Qed.

(** What a plain key sees of the escape state is nothing. *)
Definition ed_reset (e : editor) : editor :=
  Editor (ed_left e) (ed_right e) 0 (ed_hist e) (ed_idx e) (ed_fresh e).

Lemma refines_reset cmds s e : refines cmds s e -> refines cmds (set_InputVT100State 0 s) (ed_reset e).
Proof. intros [Ht Hln Hh Hes Hx Hcp Hsrc]. by refines_tac. Qed.

Lemma input_regular_spec cmds s e c :
  refines cmds s e -> ed_esc e = 0 -> wp (input_regular c) s (λ _ s', key_post cmds c s e s').
Proof.
  intros Href He. unfold input_regular, key_post, ed_key, pending_key, submits.
  rewrite decide_False by congruence. rewrite (decide_False (P := _ ∧ _)) by (intros []; congruence).
  case_bool_decide as Hp.
  { eapply wp_mono; [apply wp_keeps; [apply keeps_printable|by apply input_printable_spec]|].
    intros [] s' [? Hx]. rewrite bool_decide_eq_false_2; [by split_and!|].
    intros [_ ->]. unfold ASCII_CR in Hp. lia. }
  case_bool_decide as Hcr.
  { subst. eapply wp_mono; [by apply input_cr_spec|].
    intros [] s' (? & ? & ?). rewrite bool_decide_eq_true_2 by (split; [congruence|done]). by split_and!. }
  rewrite (bool_decide_eq_false_2 (_ ∧ _)) by naive_solver.
  case_bool_decide as Hd.
  { subst. eapply wp_mono; [apply wp_keeps; [apply keeps_del|by apply input_del_spec]|].
    intros [] s' [? Hx]. by split_and!. }
  unfold ed_plain. rewrite !decide_False by done.
  destruct Href as [Ht Hln Hh [Hes ?] Hx Hcp Hsrc].
  case_bool_decide as Hesc; wp_steps; (split_and!; [|done|done]).
  - rewrite decide_True by done. by refines_tac.
  - rewrite decide_False by done. by refines_tac.
Qed.

Lemma input_func_spec cmds s e c :
  refines cmds s e -> wp (cmdlineInputFunc c) s (λ _ s', key_post cmds c s e s').
Proof.
  intros Href. unfold cmdlineInputFunc. wp_pure.
  pose proof (r_esc _ _ _ Href) as [-> Hr].
  assert (ed_esc e ≠ 2 -> ~ (ed_esc e = 1 ∧ c = 91) ->
    wp (modify (set_InputVT100State 0);; input_regular c) s (λ _ s', key_post cmds c s e s')) as Hreg.
  { intros H2 H1. wp_pure. eapply wp_mono; [apply input_regular_spec; [by apply refines_reset|done]|].
    assert (ed_key c (ed_reset e) = ed_key c e) as Hk.
    { unfold ed_key. rewrite (decide_False (P := ed_esc e = 2)) by done.
      rewrite (decide_False (P := ed_esc e = 1 ∧ c = 91)) by done.
      rewrite decide_False by done. by rewrite decide_False by (intros [? _]; done). }
    intros [] s' Hs'. unfold key_post, pending_key, submits in *. rewrite Hk in Hs'.
    rewrite (bool_decide_ext (ed_esc e ≠ 2 ∧ c = ASCII_CR) (ed_esc (ed_reset e) ≠ 2 ∧ c = ASCII_CR)).
    2: { simpl. split; (intros [_ ?]; by split). }
    exact Hs'. }
  case_bool_decide as H2.
  { apply wp_bind. eapply wp_mono; [apply wp_keeps; [apply keeps_vt100|by apply vt100_code_spec]|].
    intros [] s' [Hs' Hx]. wp_steps. unfold key_post, pending_key, submits.
    rewrite bool_decide_eq_false_2 by naive_solver. by split_and!. }
  case_bool_decide as H1; [|apply Hreg; [done|naive_solver]].
  case_bool_decide as Hc; [|apply Hreg; [done|naive_solver]].
  wp_steps. unfold key_post, pending_key, submits, ed_key.
  rewrite decide_False by done. rewrite (decide_True (P := _ ∧ _)) by done.
  rewrite bool_decide_eq_false_2 by (intros [_ ->]; done).
  destruct Href as [Ht Hln Hh [Hes ?] Hx Hcp Hsrc].
  split_and!; [|done|done]. by refines_tac.
Qed.

(** *** Start-up *)

Definition editor_init : editor := Editor [] [] 0 [] (-1) false.

Lemma init_spec :
  wp cmdlineInit cmdline_boot (λ _ s', refines [] s' editor_init ∧ CmdlineExecFunction s' = None).
Proof.
  unfold cmdlineInit. wp_steps. split; [|done]. constructor; simpl; try done; try lia.
  - constructor; simpl; try done; try lia. repeat constructor.
  - constructor; simpl; try done; try lia. by eexists.
  - constructor; simpl; try done.
    + apply (Forall_replicate _ 10). repeat split; simpl; try done; try lia. set_solver.
    + intros _. eexists _, (replicate 50 0). split; [reflexivity|done].
Qed.

(** A name that fits a row of the command table. *)
Definition name_ok (name : list Z) : Prop :=
  Forall (λ c, c ≠ 0) name ∧ (length name < 50)%nat.

Lemma add_command_spec cmds s e name f :
  refines cmds s e -> name_ok name -> (length cmds < 30)%nat ->
  wp (cmdlineAddCommand (name ++ [0]) f) s (λ _ s',
    refines (cmds ++ [(name, f)]) s' e ∧ CmdlineExecFunction s' = CmdlineExecFunction s).
Proof.
  intros [[Hn Hmax Hr Hfn Hlen Hrow] Hl Hh Hes Hx Hcp Hsrc] [Hnz Hnl] Hc.
  unfold cmdlineAddCommand. wp_steps. rewrite Hn.
  destruct (lookup_lt_is_Some_2 (CmdlineCommandList s) (length cmds)) as [row Hrw]; [lia|].
  eapply wp_lift; [rewrite arr_get_nat; exact Hrw|]. wp_steps.
  assert (length row = 50%nat) as Hrl by (by eapply Forall_lookup_1 in Hrw; [|exact Hlen]).
  pose proof (cstr_app_nul name [] Hnz) as Hcs.
  destruct (c_strcpy_spec row (name ++ [0])) as (row' & Hcp' & Hl' & H0 & Hc' & _); [set_solver|rewrite Hcs; lia|].
  eapply wp_lift; [exact Hcp'|]. wp_steps. eapply wp_lift; [apply arr_set_in; lia|]. wp_steps. simpl.
  eapply wp_lift; [apply arr_set_in; lia|]. wp_steps. rewrite Nat2Z.id. no_wrap. simpl.
  split; [|done]. constructor; simpl; try done.
  2: { eapply line_ok_frame; [..|exact Hl]; done. }
  2: { eapply hist_ok_frame; [..|exact Hh]; done. }
  constructor; simpl; try len.
  - apply Forall_insert; [done|]. lia.
  - intros i nm g. rewrite lookup_app. intros Hi.
    destruct (cmds !! i) as [[nm' g']|] eqn:Hci.
    + injection Hi as -> ->. pose proof (lookup_lt_Some _ _ _ Hci).
      rewrite !list_lookup_insert_ne by lia. by apply Hrow.
    + apply lookup_ge_None in Hci. pose proof (lookup_lt_Some _ _ _ Hi) as Hi'. simpl in Hi'.
      replace i with (length cmds) in * by lia. rewrite Nat.sub_diag in Hi. injection Hi as <- <-.
      rewrite !list_lookup_insert_eq by lia. exists row'. by rewrite Hc'.
Qed.

(** Registering the commands and then reading the characters [keys]. *)
Fixpoint add_commands (cmds : list (list Z * F)) : ST (cmdline F) unit :=
  match cmds with
  | [] => skip
  | (name, f) :: cmds => cmdlineAddCommand (name ++ [0]) f;; add_commands cmds
  end.

Definition cmdline_session cmds (keys : list Z) : ST (cmdline F) unit :=
  cmdlineInit;; add_commands cmds;; cmdline_input_all keys.

(** The editor and the pending command after the keys. *)
Fixpoint ed_keys cmds (keys : list Z) (e : editor) (x : option F) : editor * option F :=
  match keys with
  | [] => (e, x)
  | c :: keys => ed_keys cmds keys (ed_key c e) (pending_key cmds c e x)
  end.

Lemma add_commands_spec cmds cmds0 s e :
  refines cmds0 s e -> Forall (λ p, name_ok p.1) cmds -> (length cmds0 + length cmds <= 30)%nat ->
  wp (add_commands cmds) s (λ _ s',
    refines (cmds0 ++ cmds) s' e ∧ CmdlineExecFunction s' = CmdlineExecFunction s).
Proof.
  revert cmds0 s. induction cmds as [|[name f] cmds IH]; intros cmds0 s Href Hall Hlen; simpl in *.
  { apply wp_ret. by rewrite app_nil_r. }
  apply Forall_cons_1 in Hall as [Hn Hall]. apply wp_bind.
  eapply wp_mono; [apply add_command_spec; [done|done|lia]|]. intros [] s1 [H1 He1].
  eapply wp_mono; [apply (IH (cmds0 ++ [(name, f)])); [done|done|len]|].
  intros [] s2 [H2 He2]. rewrite <- app_assoc in H2. split; [done|congruence].
Qed.

Lemma input_all_spec cmds keys s e :
  refines cmds s e ->
  wp (cmdline_input_all keys) s (λ _ s',
    refines cmds s' (ed_keys cmds keys e (CmdlineExecFunction s)).1 ∧
    CmdlineExecFunction s' = (ed_keys cmds keys e (CmdlineExecFunction s)).2).
Proof.
  revert s e. induction keys as [|c keys IH]; intros s e Href; simpl; [by apply wp_ret|].
  apply wp_bind. eapply wp_mono; [by apply input_func_spec|]. intros [] s1 (H1 & He1 & _).
  eapply wp_mono; [by apply IH|]. intros [] s2. by rewrite He1.
Qed.
End refinement.

(** ** Arguments

    A line of words separated by one space; [arg_tail n] is the text from the
    [n]-th word on. *)

Fixpoint join (ws : list (list Z)) : list Z :=
  match ws with
  | [] => []
  | [w] => w
  | w :: ws => w ++ 32 :: join ws
  end.

Definition word_char (c : Z) : Prop := c ≠ 0 ∧ c ≠ 32.
Definition words_ok (ws : list (list Z)) : Prop := Forall (λ w, w ≠ [] ∧ Forall word_char w) ws.

(** The number written by the digits [w], or nothing. *)
Definition number (base : Z) (w : list Z) : option Z :=
  foldl (λ a d, a * base + d) 0 <$> mapM (digit_val base) w.

Lemma scan_while_app (p : Z -> bool) w c rest i :
  Forall (λ x, p x = true) w -> p c = false -> 0 <= i -> i + Z.of_nat (length w) < 256 ->
  scan_while p (w ++ c :: rest) i = Some (i + Z.of_nat (length w)).
Proof.
  intros Hw Hc. revert i. induction Hw as [|x w Hx _ IH]; intros i Hi Hl; simpl in *.
  - rewrite Hc. f_equal. lia.
  - rewrite Hx, IH; no_wrap; try lia. f_equal. lia.
Qed.

Lemma scan_from_app (p : Z -> bool) pre w c rest :
  Forall (λ x, p x = true) w -> p c = false -> (length pre + length w < 256)%nat ->
  scan_from p (pre ++ w ++ c :: rest) (Z.of_nat (length pre)) =
    Some (Z.of_nat (length pre + length w)).
Proof.
  intros Hw Hc Hl. unfold scan_from. rewrite Nat2Z.id, drop_app_length.
  rewrite scan_while_app by (done || lia). f_equal. lia.
Qed.

Lemma scan_from_here (p : Z -> bool) pre c rest :
  p c = false -> scan_from p (pre ++ c :: rest) (Z.of_nat (length pre)) = Some (Z.of_nat (length pre)).
Proof. intros Hc. unfold scan_from. rewrite Nat2Z.id, drop_app_length. simpl. by rewrite Hc. Qed.

Lemma words_cons w ws :
  words_ok (w :: ws) -> (exists c w', w = c :: w' ∧ is_sp c = false) ∧
    Forall (λ x, not_sp x = true) w ∧ words_ok ws.
Proof.
  intros [[Hne Hw] Hws]%Forall_cons_iff. split_and!; [|..|done].
  - destruct w as [|c w]; [done|]. exists c, w. split; [done|].
    apply Forall_cons_iff in Hw as [[? ?] _]. apply bool_decide_eq_false_2. naive_solver.
  - eapply Forall_impl; [|exact Hw]. intros x Hx. by apply bool_decide_eq_true_2.
Qed.

Lemma skip_args_spec n ws pre junk :
  words_ok ws -> (length (pre ++ join ws) < 256)%nat ->
  exists pre', pre' ++ join (drop n ws) ++ 0 :: junk = pre ++ join ws ++ 0 :: junk ∧
    skip_args n (pre ++ join ws ++ 0 :: junk) (Z.of_nat (length pre)) = Some (Z.of_nat (length pre')).
Proof.
  revert ws pre. induction n as [|n IH]; intros ws pre Hws Hl; [by exists pre|].
  destruct ws as [|w ws].
  { destruct (IH [] pre) as (pre' & E & Hs); [done|done|]. exists pre'. simpl in *.
    rewrite drop_nil in E. split; [done|].
    rewrite (scan_from_here not_sp) by done. simpl. by rewrite (scan_from_here is_sp) by done. }
  destruct (words_cons _ _ Hws) as (_ & Hw & Hws').
  destruct ws as [|w2 ws].
  { destruct (IH [] (pre ++ w)) as (pre' & E & Hs); [done|simpl in *; len|]. exists pre'. simpl in *.
    rewrite drop_nil in E. rewrite drop_nil. rewrite <- app_assoc in E, Hs. split; [done|].
    rewrite (scan_from_app not_sp pre w 0) by (done || len). simpl.
    rewrite <- length_app, app_assoc.
    rewrite (scan_from_here is_sp) by done. simpl. by rewrite <- app_assoc. }
  destruct (words_cons _ _ Hws') as ((c & w2' & Hw2 & Hc) & _ & _).
  destruct (IH (w2 :: ws) (pre ++ w ++ [32])) as (pre' & E & Hs); [done|simpl in *; len|].
  exists pre'. change (join (w :: w2 :: ws)) with (w ++ 32 :: join (w2 :: ws)) in *.
  assert (pre ++ (w ++ 32 :: join (w2 :: ws)) ++ 0 :: junk =
    (pre ++ w ++ [32]) ++ join (w2 :: ws) ++ 0 :: junk) as Eq by (by rewrite <- !app_assoc).
  rewrite Eq. split; [done|]. rewrite <- Hs.
  assert (exists t, join (w2 :: ws) ++ 0 :: junk = c :: t) as [t Ht].
  { rewrite Hw2. destruct ws; simpl; eauto. }
  assert ((pre ++ w ++ [32]) ++ join (w2 :: ws) ++ 0 :: junk = pre ++ w ++ 32 :: c :: t) as Eq'
    by (rewrite Ht, <- !app_assoc; done).
  rewrite Eq'. cbn [skip_args]. rewrite (scan_from_app not_sp pre w 32) by (done || len). simpl.
  rewrite <- length_app, (app_assoc pre w).
  pose proof (scan_from_app is_sp (pre ++ w) [32] c t) as Hsp. simpl in Hsp.
  rewrite Hsp; [|by apply Forall_singleton|done|len]. simpl.
  f_equal. len.
Qed.

Lemma get_arg_str_spec {F} (s : cmdline F) ws junk n :
  words_ok ws -> (length (join ws) < 256)%nat -> CmdlineBuffer s = join ws ++ 0 :: junk ->
  wp (cmdlineGetArgStr (Z.of_nat n)) s (λ i s', s' = s ∧ 0 <= i ∧
    drop (Z.to_nat i) (CmdlineBuffer s) = join (drop n ws) ++ 0 :: junk).
Proof.
  intros Hws Hl Hb. unfold cmdlineGetArgStr. wp_steps. rewrite Hb, Nat2Z.id.
  destruct (skip_args_spec n ws [] junk) as (pre' & E & Hs); [done|done|].
  eapply wp_lift.
  - assert (scan_from is_sp (join ws ++ 0 :: junk) 0 = Some 0) as ->; [|exact Hs].
    destruct ws as [|w ws]; [done|]. destruct (words_cons _ _ Hws) as ((c & w' & -> & Hc) & _ & _).
    destruct ws; simpl; unfold scan_from; simpl; by rewrite Hc.
  - simpl in E. split_and!; [done|lia|]. rewrite <- E, Nat2Z.id. by rewrite drop_app_length.
Qed.

Lemma parse_digits_app base w ds acc c rest :
  mapM (digit_val base) w = Some ds -> digit_val base c = None ->
  parse_digits base acc (w ++ c :: rest) = Some (foldl (λ a d, a * base + d) acc ds).
Proof.
  revert ds acc. induction w as [|x w IH]; intros ds acc Hw Hc; simpl in *.
  - injection Hw as <-. by rewrite Hc.
  - apply bind_Some in Hw as (d & Hd & Hw). apply bind_Some in Hw as (ds' & Hds & [= <-]).
    rewrite Hd. exact (IH ds' _ Hds Hc).
Qed.

Lemma join_drop ws n w :
  ws !! n = Some w -> exists t c, join (drop n ws) ++ [0] = w ++ c :: t ∧ (c = 0 ∨ c = 32).
Proof.
  intros Hn. rewrite (drop_S _ _ _ Hn). destruct (drop (S n) ws) as [|w2 ws'].
  - by exists [], 0; auto.
  - exists (join (w2 :: ws') ++ [0]), 32. split; [|auto].
    change (join (w :: w2 :: ws')) with (w ++ 32 :: join (w2 :: ws')). by rewrite <- app_assoc.
Qed.

Lemma digit_val_char base c v : digit_val base c = Some v -> 48 <= c <= 122.
Proof.
  unfold digit_val. repeat case_bool_decide; simpl; intros; try lia; done.
Qed.

Lemma digit_val_sep base c : c = 0 ∨ c = 32 -> digit_val base c = None.
Proof.
  intros H. destruct (digit_val base c) as [v|] eqn:E; [|done].
  apply digit_val_char in E. lia.
Qed.

(** Where a number starts there is no white space, and no sign of its own. *)
Lemma number_start base w ds c t :
  mapM (digit_val base) w = Some ds -> c = 0 ∨ c = 32 -> w ≠ [] ->
  skip_space (w ++ c :: t) = w ++ c :: t ∧ parse_sign (w ++ c :: t) = (false, w ++ c :: t).
Proof.
  intros Hw Hc Hne. destruct w as [|x w]; [done|]. simpl in *.
  apply bind_Some in Hw as (d & Hd%digit_val_char & _).
  unfold c_isspace. rewrite !bool_decide_eq_false_2 by lia. done.
Qed.

(** Reading a signed number at the start of the text. *)
Definition signed (neg : bool) (w : list Z) : list Z := if neg then 45 :: w else w.

Lemma strtol10_word neg w v c t :
  number 10 w = Some v -> w ≠ [] -> c = 0 ∨ c = 32 ->
  c_strtol10 (signed neg w ++ c :: t) =
    Some (if neg then Z.max (- 2^31) (- v) else Z.min (2^31 - 1) v).
Proof.
  intros (ds & Hds & ->)%fmap_Some Hne Hc. unfold c_strtol10.
  destruct (number_start _ _ _ c t Hds Hc Hne) as [Hsk Hsg].
  destruct neg; simpl signed.
  - simpl app. unfold c_isspace. simpl.
    by rewrite (parse_digits_app _ _ _ _ _ _ Hds (digit_val_sep _ _ Hc)).
  - rewrite Hsk, Hsg. by rewrite (parse_digits_app _ _ _ _ _ _ Hds (digit_val_sep _ _ Hc)).
Qed.

Lemma strtoul16_word w v c t :
  number 16 w = Some v -> w ≠ [] -> c = 0 ∨ c = 32 ->
  c_strtoul16 (w ++ c :: t) = Some (Z.min (2^32 - 1) v).
Proof.
  intros (ds & Hds & ->)%fmap_Some Hne Hc. unfold c_strtoul16.
  destruct (number_start _ _ _ c t Hds Hc Hne) as [-> ->].
  assert (skip_0x (w ++ c :: t) = w ++ c :: t) as ->.
  { unfold skip_0x. destruct w as [|x [|y w]]; [done|..]; simpl in *.
    - rewrite bool_decide_eq_false_2 by lia. repeat case_match; done.
    - apply bind_Some in Hds as (d & Hd & Hds). apply bind_Some in Hds as (ds' & Hds' & _).
      apply bind_Some in Hds' as (d' & Hd' & _).
      rewrite bool_decide_eq_false_2; [repeat case_match; done|].
      by intros [->| ->]; vm_compute in Hd'. }
  rewrite (parse_digits_app _ _ _ _ _ _ Hds (digit_val_sep _ _ Hc)). simpl.
  case_bool_decide; f_equal; lia.
Qed.

(** Typing a line at the end of the current one. *)
Lemma ed_keys_type {F} (cmds : list (list Z * F)) line l h i fr x :
  Forall printable line -> (length l + length line <= 48)%nat ->
  ed_keys cmds line (Editor l [] 0 h i fr) x =
    (Editor (l ++ line) [] 0 h i (fr || bool_decide (line ≠ [])), x).
Proof.
  revert l fr. induction line as [|c line IH]; intros l fr Hp Hl; simpl in *.
  { by rewrite app_nil_r, orb_false_r. }
  apply Forall_cons_iff in Hp as [Hc Hp]. unfold ed_key, ed_plain at 1. simpl.
  rewrite (decide_True (P := printable c)) by done. unfold ed_line. simpl. rewrite app_nil_r.
  rewrite decide_True by lia. unfold pending_key, submits. 
  rewrite bool_decide_eq_false_2 by (intros [_ ->]; unfold printable, ASCII_CR in Hc; lia).
  rewrite (IH (l ++ [c])) by (done || len).
  rewrite <- app_assoc. simpl. by rewrite orb_true_r.
Qed.

Lemma session_spec {F} (cmds : list (list Z * F)) keys :
  Forall (λ p, name_ok p.1) cmds -> (length cmds <= 30)%nat ->
  wp (cmdline_session cmds keys) cmdline_boot (λ _ s',
    refines cmds s' (ed_keys cmds keys editor_init None).1 ∧
    CmdlineExecFunction s' = (ed_keys cmds keys editor_init None).2).
Proof.
  intros Hn Hl. unfold cmdline_session. apply wp_bind.
  eapply wp_mono; [apply init_spec|]. intros [] s0 [H0 E0]. apply wp_bind.
  eapply wp_mono; [by apply (add_commands_spec cmds [])|]. intros [] s1 [H1 E1].
  rewrite E0 in E1. rewrite <- E1. by apply input_all_spec.
Qed.

Lemma input_all_app {F} l1 l2 (s : cmdline F) Q :
  wp (cmdline_input_all l1) s (λ _ s1, wp (cmdline_input_all l2) s1 Q) ->
  wp (cmdline_input_all (l1 ++ l2)) s Q.
Proof.
  revert s. induction l1 as [|c l1 IH]; intros s H; simpl in *.
  { apply wp_run in H as (a & s' & E & H). injection E as _ <-. exact H. }
  apply wp_bind. apply wp_run in H as (a & s' & E & H). unfold mbind, st_bind in E.
  destruct (cmdlineInputFunc c s) as [[[] s1]|] eqn:E1; [|done].
  apply wp_run. exists tt, s1. split; [done|]. apply IH, wp_run. eauto.
Qed.

(** *** Properties *)

(** C5: The line editor is memory safe and refines its specification. For any
    commands that fit the table and any sequence of received bytes, the
    initialisation, the registration of the commands and the processing of
    every byte never access an array out of bounds, the resulting buffers
    represent the line, cursor, escape state and history of the abstract
    editor, and the pending function is the one of the last submitted line
    that names a command. *)
Theorem cmdline_session_refines {F} (cmds : list (list Z * F)) keys :
  Forall (λ p, name_ok p.1) cmds -> (length cmds <= 30)%nat ->
  exists s', cmdline_session cmds keys cmdline_boot = Some (tt, s') ∧
    refines cmds s' (ed_keys cmds keys editor_init None).1 ∧
    CmdlineExecFunction s' = (ed_keys cmds keys editor_init None).2.
Proof.
  intros Hn Hl. pose proof (session_spec cmds keys Hn Hl) as ([] & s' & E & H)%wp_run. eauto.
Qed.

Lemma cmdline_session_refines_witness :
  exists s', cmdline_session [(bytes "dx", 7)] (bytes "d 5" ++ [13]) cmdline_boot = Some (tt, s') ∧
    refines [(bytes "dx", 7)] s' (Editor [] [] 0 [bytes "d 5"] (-1) false) ∧
    CmdlineExecFunction s' = Some 7.
Proof.
  apply (cmdline_session_refines [(bytes "dx", 7)] (bytes "d 5" ++ [13])).
  - repeat constructor; simpl; try lia.
  - simpl. lia.
Defined.

Lemma first_word_join ws : words_ok ws -> ws ≠ [] -> first_word (join ws) ≠ [].
Proof.
  intros Hws Hne. destruct ws as [|w ws]; [done|].
  destruct (words_cons _ _ Hws) as ((c & w' & -> & _) & Hall & _).
  apply Forall_cons_iff in Hall as [Hc _]. apply bool_decide_eq_true in Hc as [? ?].
  assert (is_word c = true) as Hcw by (unfold is_word; by rewrite !bool_decide_eq_false_2).
  by destruct ws; simpl; rewrite Hcw.
Qed.

Lemma get_arg_int_spec {F} (s : cmdline F) ws junk n neg w v :
  words_ok ws -> (length (join ws) < 256)%nat -> CmdlineBuffer s = join ws ++ 0 :: junk ->
  ws !! n = Some (signed neg w) -> w ≠ [] -> number 10 w = Some v ->
  wp (cmdlineGetArgInt (Z.of_nat n)) s (λ r s',
    r = (if neg then Z.max (- 2^31) (- v) else Z.min (2^31 - 1) v) ∧ s' = s).
Proof.
  intros Hws Hl Hb Hw Hne Hv. unfold cmdlineGetArgInt. apply wp_bind.
  eapply wp_mono; [by eapply get_arg_str_spec|].
  intros i s' (-> & Hi & Hd). wp_steps. rewrite Hd.
  destruct (join_drop _ _ _ Hw) as (t & c & Ht & Hc).
  eapply wp_lift; [|split; reflexivity].
  change (0 :: junk) with ([0] ++ junk). rewrite app_assoc, Ht, <- app_assoc. simpl.
  by apply strtol10_word.
Qed.

(** The optional prefix of a hexadecimal number. *)
Definition prefixed (pre : bool) (w : list Z) : list Z := if pre then 48 :: 120 :: w else w.

Lemma get_arg_hex_spec {F} (s : cmdline F) ws junk n pre w v :
  words_ok ws -> (length (join ws) < 256)%nat -> CmdlineBuffer s = join ws ++ 0 :: junk ->
  ws !! n = Some (prefixed pre w) -> w ≠ [] -> number 16 w = Some v ->
  wp (cmdlineGetArgHex (Z.of_nat n)) s (λ r s', r = s32 (Z.min (2^32 - 1) v) ∧ s' = s).
Proof.
  intros Hws Hl Hb Hw Hne Hv. unfold cmdlineGetArgHex. apply wp_bind.
  eapply wp_mono; [by eapply get_arg_str_spec|].
  intros i s' (-> & Hi & Hd). wp_steps. rewrite Hd.
  destruct (join_drop _ _ _ Hw) as (t & c & Ht & Hc).
  eapply (wp_lift _ (Z.min (2^32 - 1) v)); [|by wp_steps].
  change (0 :: junk) with ([0] ++ junk). rewrite app_assoc, Ht, <- app_assoc. simpl.
  destruct pre; simpl; [|by apply strtoul16_word].
  apply fmap_Some in Hv as (ds & Hds & ->). unfold c_strtoul16. simpl.
  rewrite (parse_digits_app _ _ _ _ _ _ Hds (digit_val_sep _ _ Hc)). simpl.
  case_bool_decide; f_equal; lia.
Qed.

(** The state after typing a line at the first prompt and submitting it. *)
Lemma submit_spec {F} (cmds : list (list Z * F)) line :
  Forall (λ p, name_ok p.1) cmds -> (length cmds <= 30)%nat ->
  Forall printable line -> (length line <= 48)%nat ->
  wp (cmdline_session cmds (line ++ [ASCII_CR])) cmdline_boot (λ _ s',
    CmdlineExecFunction s' = pending cmds line None ∧
    exists junk, CmdlineBuffer s' = line ++ 0 :: junk).
Proof.
  intros Hn Hl Hp Hlen. unfold cmdline_session. apply wp_bind.
  eapply wp_mono; [apply init_spec|]. intros [] s0 [H0 E0]. apply wp_bind.
  eapply wp_mono; [by apply (add_commands_spec cmds [])|]. intros [] s1 [H1 E1].
  apply input_all_app. eapply wp_mono; [by apply input_all_spec|].
  rewrite E1, E0. unfold editor_init. rewrite ed_keys_type by (done || simpl; lia). simpl.
  intros [] s2 [H2 E2]. apply wp_bind. eapply wp_mono; [by apply input_func_spec|].
  intros [] s3 (_ & E3 & Hb). apply wp_ret. unfold pending_key, submits, ed_line in *.
  simpl in E3, Hb. rewrite app_nil_r in *. rewrite E2 in E3. split; [done|by apply Hb].
Qed.

(** C28: What is typed is what the command function gets. Typing a line of
    words at the prompt and submitting it selects the first registered command
    that starts with the first word, and [cmdlineGetArgInt(n)] then returns
    the decimal number that the [n]-th word is, saturated at the limits of
    [long], leaving the state as it is. *)
Theorem typed_command_args {F} (cmds : list (list Z * F)) ws n neg w v :
  Forall (λ p, name_ok p.1) cmds -> (length cmds <= 30)%nat ->
  words_ok ws -> Forall printable (join ws) -> (length (join ws) <= 48)%nat ->
  ws !! n = Some (signed neg w) -> w ≠ [] -> number 10 w = Some v ->
  exists s', cmdline_session cmds (join ws ++ [ASCII_CR]) cmdline_boot = Some (tt, s') ∧
    CmdlineExecFunction s' = select_command cmds (join ws) ∧
    cmdlineGetArgInt (Z.of_nat n) s' =
      Some (if neg then Z.max (- 2^31) (- v) else Z.min (2^31 - 1) v, s').
Proof.
  intros Hn Hl Hws Hp Hlen Hw Hne Hv.
  pose proof (submit_spec cmds _ Hn Hl Hp Hlen) as ([] & s' & E & He & junk & Hb)%wp_run.
  exists s'. split; [done|]. split.
  - rewrite He. unfold pending. rewrite decide_False.
    2: { apply first_word_join; [done|]. by intros ->. }
    by destruct (select_command _ _).
  - pose proof (get_arg_int_spec s' ws junk n neg w v) as Hg.
    apply wp_run in Hg as (r & s'' & -> & -> & ->); [done|done|lia|done|done|done|done].
Qed.

Lemma typed_command_args_witness :
  exists s', cmdline_session [(bytes "mx", 7)] (bytes "mx -120" ++ [ASCII_CR]) cmdline_boot = Some (tt, s') ∧
    CmdlineExecFunction s' = Some 7 ∧ cmdlineGetArgInt 1 s' = Some (-120, s').
Proof.
  apply (typed_command_args [(bytes "mx", 7)] [bytes "mx"; bytes "-120"] 1 true (bytes "120") 120);
    try done; try (simpl; lia); repeat constructor; try done; simpl; lia.
Defined.

(** Hexadecimal arguments. When the submitted line is in the buffer and
    its [n]-th word is a hexadecimal number, with or without [0x], the value
    of [cmdlineGetArgHex(n)] is that number, saturated at 32 bits and read as
    a [long]; nothing is changed. *)
Theorem get_arg_hex {F} (s : cmdline F) ws junk n pre w v :
  words_ok ws -> (length (join ws) < 256)%nat -> CmdlineBuffer s = join ws ++ 0 :: junk ->
  ws !! n = Some (prefixed pre w) -> w ≠ [] -> number 16 w = Some v ->
  cmdlineGetArgHex (Z.of_nat n) s = Some (s32 (Z.min (2^32 - 1) v), s).
Proof.
  intros H1 H2 H3 H4 H5 H6.
  by apply (get_arg_hex_spec s ws junk n pre w v), wp_run in H6 as (r & s' & -> & -> & ->).
Qed.

Lemma get_arg_hex_witness :
  let s := set_Buffer (bytes "dump 0xfff0" ++ 0 :: replicate 38 0) (@cmdline_boot unit) in
  cmdlineGetArgHex 1 s = Some (65520, s).
Proof.
  intros s. apply (get_arg_hex s [bytes "dump"; bytes "0xfff0"] (replicate 38 0) 1 true (bytes "fff0") 65520);
    try done; try (simpl; lia). repeat constructor; try done.
Defined.

(** The state invariant in terms of the C variables. Whatever bytes are
    received, the cursor is within the line, the line fits the buffer with
    room for its terminator, at most ten history entries are used, each a
    terminated string of at most 48 printable characters, the history index
    is -1 or an index of the array, and the escape state is 0, 1 or 2. *)
Theorem session_state_invariant {F} (cmds : list (list Z * F)) keys :
  Forall (λ p, name_ok p.1) cmds -> (length cmds <= 30)%nat ->
  exists s', cmdline_session cmds keys cmdline_boot = Some (tt, s') ∧
    0 <= CmdlineBufferEditPos s' <= CmdlineBufferLength s' ∧
    CmdlineBufferLength s' <= CMDLINE_BUFFERSIZE - 2 ∧
    0 <= CmdlineHistoryCnt s' <= CMDLINE_HISTORYSIZE ∧
    -1 <= CmdlineHistoryIdx s' < CMDLINE_HISTORYSIZE ∧
    0 <= CmdlineInputVT100State s' <= 2 ∧
    CmdlineNumCommands s' = Z.of_nat (length cmds) ∧
    Forall row_ok (CmdlineHistory s').
Proof.
  intros Hn Hl. pose proof (session_spec cmds keys Hn Hl) as ([] & s' & E & H & _)%wp_run.
  exists s'. split; [done|]. destruct H as [Ht Hln Hh [He1 ?] [Hx1 ?] _ _].
  pose proof (hist_ok_max _ _ Hh). destruct Hh as [_ Hr Hc _ _]. destruct Hln as [_ _ Hm Hp Hb _].
  unfold CMDLINE_BUFFERSIZE, CMDLINE_HISTORYSIZE. rewrite Hp, Hb, Hc, Hx1, He1.
  split_and!; try lia; [apply Ht|done].
Qed.

Lemma session_state_invariant_witness :
  exists s', cmdline_session [(bytes "go", 1)] (repeat 120 200) cmdline_boot = Some (tt, s') ∧
    0 <= CmdlineBufferEditPos s' <= CmdlineBufferLength s' ∧
    CmdlineBufferLength s' <= CMDLINE_BUFFERSIZE - 2 ∧
    0 <= CmdlineHistoryCnt s' <= CMDLINE_HISTORYSIZE ∧
    -1 <= CmdlineHistoryIdx s' < CMDLINE_HISTORYSIZE ∧
    0 <= CmdlineInputVT100State s' <= 2 ∧
    CmdlineNumCommands s' = 1 ∧
    Forall row_ok (CmdlineHistory s').
Proof.
  apply (session_state_invariant [(bytes "go", 1)]); [repeat constructor; simpl; lia|simpl; lia].
Defined.

(** Pressing the up arrow [k + 1] times at a new prompt. *)
Definition key_up : list Z := [ASCII_ESC; 91; VT100_ARROWUP].

Lemma ed_keys_app {F} (cmds : list (list Z * F)) l1 l2 e x :
  ed_keys cmds (l1 ++ l2) e x = ed_keys cmds l2 (ed_keys cmds l1 e x).1 (ed_keys cmds l1 e x).2.
Proof. revert e x. induction l1 as [|c l1 IH]; intros e x; simpl; [done|]. by rewrite IH. Qed.

Lemma ed_keys_up1 {F} (cmds : list (list Z * F)) l r h i fr x line :
  -1 <= i < Z.of_nat (length h) - 1 -> h !! Z.to_nat (i + 1) = Some line ->
  ed_keys cmds key_up (Editor l r 0 h i fr) x = (Editor line [] 0 h (i + 1) false, x).
Proof.
  intros Hi Hl. unfold key_up. simpl. unfold ed_key, ed_plain, pending_key, submits. simpl.
  unfold ed_recall. simpl. rewrite Z.max_r, Z.min_l by lia. by rewrite Hl.
Qed.

Lemma ed_keys_up {F} (cmds : list (list Z * F)) l r h fr x k line :
  h !! k = Some line ->
  ed_keys cmds (concat (replicate (S k) key_up)) (Editor l r 0 h (-1) fr) x =
    (Editor line [] 0 h (Z.of_nat k) false, x).
Proof.
  revert line. induction k as [|k IH]; intros line Hk; pose proof (lookup_lt_Some _ _ _ Hk).
  - simpl concat. by rewrite (ed_keys_up1 _ _ _ _ _ _ _ line) by (done || lia).
  - destruct (lookup_lt_is_Some_2 h k) as [line0 H0]; [lia|].
    rewrite replicate_S_end, concat_app, ed_keys_app, (IH _ H0). change (concat (replicate 1 key_up)) with key_up. cbn [fst snd].
    rewrite (ed_keys_up1 _ _ _ _ _ _ _ line); [do 2 f_equal; lia|lia|].
    by replace (Z.to_nat (Z.of_nat k + 1)) with (S k) by lia.
Qed.

(** Re-running a command from the history. At a new prompt, pressing the
    up arrow [k + 1] times and then return submits the [k]-th last line: its
    command becomes pending, and the line moves to the front of the history
    without being stored twice. *)
Theorem recall_moves_to_front {F} (cmds : list (list Z * F)) s h k line :
  refines cmds s (Editor [] [] 0 h (-1) false) -> h !! k = Some line -> line ≠ [] ->
  exists s', cmdline_input_all (concat (replicate (S k) key_up) ++ [ASCII_CR]) s = Some (tt, s') ∧
    refines cmds s' (Editor [] [] 0 (line :: delete k h) (-1) false) ∧
    CmdlineExecFunction s' = pending cmds line (CmdlineExecFunction s).
Proof.
  intros Href Hk Hne. pose proof (input_all_spec cmds (concat (replicate (S k) key_up) ++ [ASCII_CR]) _ _ Href)
    as ([] & s' & E & Hs')%wp_run.
  exists s'. split; [done|]. rewrite ed_keys_app, (ed_keys_up _ _ _ _ _ _ _ _ Hk) in Hs'.
  simpl in Hs'. unfold ed_key, ed_plain, pending_key, submits, ed_save, ed_line in Hs'. simpl in Hs'.
  rewrite !app_nil_r, decide_False, Nat2Z.id in Hs' by done. done.
Qed.

(** The main loop runs a pending command exactly once: it calls the
    function, then clears it and prints the prompt; without a pending command
    it does nothing. *)
Theorem main_loop_runs_once {F W} (get : W -> cmdline F) put (call : F -> ST W unit) w :
  (forall s w, get (put s w) = s) ->
  cmdlineMainLoop get put call w =
    match CmdlineExecFunction (get w) with
    | None => Some (tt, put (get w) w)
    | Some f =>
        match call f (put (get w) w) with
        | None => None
        | Some (_, w1) =>
            let s := set_ExecFunction None (get w1) in
            Some (tt, put (set_out (outbyte_log s ++ CmdlinePrompt) s) (put s w1))
        end
    end.
Proof.
  intros Hgp. unfold cmdlineMainLoop, zoom, gets, modify. unfold mbind at 1, st_bind at 1.
  destruct (CmdlineExecFunction (get w)) as [f|]; [|done].
  unfold mbind, st_bind. simpl. destruct (call f _) as [[[] w1]|]; [|done].
  simpl. rewrite Hgp. simpl. by rewrite <- !app_assoc.
Qed.

Lemma recall_moves_to_front_witness :
  exists s s', refines [] s (Editor [] [] 0 [bytes "b"; bytes "a"] (-1) false) ∧
    cmdline_input_all (concat (replicate 2 key_up) ++ [ASCII_CR]) s = Some (tt, s') ∧
    refines [] s' (Editor [] [] 0 [bytes "a"; bytes "b"] (-1) false) ∧
    CmdlineExecFunction s' = @None unit.
Proof.
  pose proof (proj1 (wp_run _ _ _) (session_spec (F := unit) [] (bytes "a" ++ [13] ++ bytes "b" ++ [13])
    (Forall_nil_2 _) (Nat.le_0_l 30))) as (? & s & _ & Href & He). exists s.
  destruct (recall_moves_to_front [] s [bytes "b"; bytes "a"] 1 (bytes "a") Href) as (s' & E & H1 & H2); [done|done|].
  exists s'. split_and!; [exact Href|exact E|exact H1|]. rewrite H2, He. reflexivity.
Defined.

Lemma main_loop_runs_once_witness :
  let s0 := set_ExecFunction (Some 3) cmdline_boot in
  cmdlineMainLoop id (λ s _, s) (λ n, cmdlineOutputFunc n) s0 =
    Some (tt, set_out (3 :: CmdlinePrompt) (set_ExecFunction None s0)).
Proof.
  intros s0. rewrite (main_loop_runs_once id (λ s _, s) (λ n, cmdlineOutputFunc n) s0); [|done].
  reflexivity.
Defined.
