(* ===== verification/Motion.v ===== *)
(** * The motion controller's driver (sdloader/src/motion.c, motion.h)

    The driver only performs 32-bit bus accesses. [Bus] is the interface to
    the bus; MotionCore.v gives the controller's side of it. *)

From S2P Require Import Prelude.
Open Scope Z_scope.

(** 32-bit reads and writes of memory-mapped registers (xio.h); an access
    may change the state [D] of the devices. *)
Class Bus (D : Type) := {
  bus_read : Z -> D -> Z * D;
  bus_write : Z -> Z -> D -> D;
}.

Definition MOTION_CMD_OFFSET : Z := 0x00.
Definition MOTION_NEXT_XL_OFFSET : Z := 0x04.
Definition MOTION_NEXT_XH_OFFSET : Z := 0x08.
Definition MOTION_NEXT_V_OFFSET : Z := 0x0C.
Definition MOTION_NEXT_A_OFFSET : Z := 0x10.
Definition MOTION_NEXT_J_OFFSET : Z := 0x14.
Definition MOTION_NEXT_DT_OFFSET : Z := 0x18.
Definition MOTION_NEXT_STEPS_OFFSET : Z := 0x1C.
Definition MOTION_PRE_N_OFFSET : Z := 0x20.
Definition MOTION_PULSE_N_OFFSET : Z := 0x24.
Definition MOTION_POST_N_OFFSET : Z := 0x28.
Definition MOTION_STEP_BIT_OFFSET : Z := 0x2C.
Definition MOTION_STAT_XL_OFFSET : Z := 0x30.
Definition MOTION_STAT_XH_OFFSET : Z := 0x34.
Definition MOTION_STAT_V_OFFSET : Z := 0x38.
Definition MOTION_STAT_A_OFFSET : Z := 0x3C.
Definition MOTION_STAT_J_OFFSET : Z := 0x40.
Definition MOTION_STAT_DT_OFFSET : Z := 0x44.
Definition MOTION_STAT_STEPS_OFFSET : Z := 0x48.
Definition MOTION_STAT_STATUS_OFFSET : Z := 0x4C.

Definition MOTION_CMD_START_MASK : Z := 0x1.
Definition MOTION_CMD_SET_X_MASK : Z := 0x2.
Definition MOTION_CMD_SET_V_MASK : Z := 0x4.
Definition MOTION_CMD_SET_A_MASK : Z := 0x8.
Definition MOTION_CMD_SET_J_MASK : Z := 0x10.

Definition MOTION_RST_REG_OFFSET : Z := 0x100.
Definition SOFT_RESET : Z := 0x0000000A.
Definition MOTION_INTR_DISR_OFFSET : Z := 0x200.
Definition MOTION_INTR_DIER_OFFSET : Z := 0x208.
Definition MOTION_INTR_DGIER_OFFSET : Z := 0x21C.
Definition MOTION_INTR_IPISR_OFFSET : Z := 0x220.
Definition MOTION_INTR_IPIER_OFFSET : Z := 0x228.
Definition INTR_TERR_MASK : Z := 0x1.
Definition INTR_DPTO_MASK : Z := 0x2.
Definition INTR_IPIR_MASK : Z := 0x4.
Definition INTR_GIE_MASK : Z := 0x80000000.

Section driver.
Context {D : Type} `{Bus D}.

Definition XIo_In32 (addr : Z) : ST D Z := λ d, Some (bus_read (u32 addr) d).
Definition XIo_Out32 (addr data : Z) : ST D unit := λ d, Some (tt, bus_write (u32 addr) (u32 data) d).

Definition MOTION_mWriteReg (baseaddr off data : Z) : ST D unit := XIo_Out32 (baseaddr + off) data.
Definition MOTION_mReadReg (baseaddr off : Z) : ST D Z := XIo_In32 (baseaddr + off).
Definition MOTION_mReset (baseaddr : Z) : ST D unit :=
  XIo_Out32 (baseaddr + MOTION_RST_REG_OFFSET) SOFT_RESET.

Definition MOTION_EnableInterrupt (baseaddr : Z) : ST D unit :=
  MOTION_mWriteReg baseaddr MOTION_INTR_IPIER_OFFSET 0x0000000F;;
  MOTION_mWriteReg baseaddr MOTION_INTR_DIER_OFFSET
    (Z.lor (Z.lor INTR_TERR_MASK INTR_DPTO_MASK) INTR_IPIR_MASK);;
  MOTION_mWriteReg baseaddr MOTION_INTR_DGIER_OFFSET INTR_GIE_MASK.

(** The two messages of the handler are left out. *)
Definition MOTION_Intr_DefaultHandler (baseaddr : Z) : ST D unit :=
  IntrStatus ← MOTION_mReadReg baseaddr MOTION_INTR_DISR_OFFSET;
  if bool_decide (Z.land IntrStatus INTR_IPIR_MASK = INTR_IPIR_MASK) then
    IpStatus ← MOTION_mReadReg baseaddr MOTION_INTR_IPISR_OFFSET;
    MOTION_mWriteReg baseaddr MOTION_INTR_IPISR_OFFSET IpStatus
  else skip.

Definition MOTION_Start (baseaddr : Z) : ST D unit :=
  tmp ← MOTION_mReadReg baseaddr MOTION_CMD_OFFSET;
  let tmp := Z.lor tmp MOTION_CMD_START_MASK in
  MOTION_mWriteReg baseaddr MOTION_CMD_OFFSET tmp.

Definition MOTION_SetDT (baseaddr val : Z) : ST D unit :=
  MOTION_mWriteReg baseaddr MOTION_NEXT_DT_OFFSET val.

Definition MOTION_SetSteps (baseaddr val : Z) : ST D unit :=
  MOTION_mWriteReg baseaddr MOTION_NEXT_STEPS_OFFSET val.

Definition MOTION_SetX (baseaddr val : Z) : ST D unit :=
  MOTION_mWriteReg baseaddr MOTION_NEXT_XL_OFFSET (u32 (Z.land val 0xffffffff));;
  MOTION_mWriteReg baseaddr MOTION_NEXT_XH_OFFSET (u32 (Z.land (Z.shiftr val 32) 0xffffffff));;
  tmp ← MOTION_mReadReg baseaddr MOTION_CMD_OFFSET;
  let tmp := Z.lor tmp MOTION_CMD_SET_X_MASK in
  MOTION_mWriteReg baseaddr MOTION_CMD_OFFSET tmp.

Definition MOTION_SetV (baseaddr val : Z) : ST D unit :=
  MOTION_mWriteReg baseaddr MOTION_NEXT_V_OFFSET val;;
  tmp ← MOTION_mReadReg baseaddr MOTION_CMD_OFFSET;
  let tmp := Z.lor tmp MOTION_CMD_SET_V_MASK in
  MOTION_mWriteReg baseaddr MOTION_CMD_OFFSET tmp.

Definition MOTION_SetA (baseaddr val : Z) : ST D unit :=
  MOTION_mWriteReg baseaddr MOTION_NEXT_A_OFFSET val;;
  tmp ← MOTION_mReadReg baseaddr MOTION_CMD_OFFSET;
  let tmp := Z.lor tmp MOTION_CMD_SET_A_MASK in
  MOTION_mWriteReg baseaddr MOTION_CMD_OFFSET tmp.

Definition MOTION_SetJ (baseaddr val : Z) : ST D unit :=
  MOTION_mWriteReg baseaddr MOTION_NEXT_J_OFFSET val;;
  tmp ← MOTION_mReadReg baseaddr MOTION_CMD_OFFSET;
  let tmp := Z.lor tmp MOTION_CMD_SET_J_MASK in
  MOTION_mWriteReg baseaddr MOTION_CMD_OFFSET tmp.
End driver.
