(* ===== verification/MotionCore.v ===== *)
(** * The motion controller (pcores/motion_v1_00_a/hdl/verilog)

    The registers of user_logic.v, the step clock of acc_step_gen.v and the
    velocity profile of acc_profile_gen.v, one clock cycle at a time. The core
    implements the bus interface of the driver, with any number of clock
    cycles between two bus accesses. The pulse shaping of motor_step_gen.v is
    not modelled. *)

From S2P Require Import Prelude Motion.
Open Scope Z_scope.

Record core := MkCore {
  (* user_logic.v: the registers, unsigned *)
  reg_cmd : Z;
  reg_next_xl : Z;
  reg_next_xh : Z;
  reg_next_v : Z;
  reg_next_a : Z;
  reg_next_j : Z;
  reg_next_dt : Z;
  reg_next_steps : Z;
  reg_pre_n : Z;
  reg_pulse_n : Z;
  reg_post_n : Z;
  reg_step_bit : Z;
  (* acc_step_gen.v, unsigned *)
  dt_limit : Z;
  steps_limit : Z;
  dt : Z;
  steps : Z;
  stopped : bool;
  (* acc_profile_gen.v: x is a signed 64-bit, the others signed 32-bit numbers *)
  px : Z;
  pv : Z;
  pa : Z;
  pj : Z;
  step : bool;
  dir : bool;
}.

Definition core_reset : core :=
  MkCore 0 0 0 0 0 0 0 0 0 0 0 0 0 0 0 0 true 0 0 0 0 false false.

(** The combinational outputs of acc_step_gen. *)
Definition step_stb (c : core) : bool := negb (stopped c) && bool_decide (u32 (dt_limit c - 1) <= dt c).
Definition done (c : core) : bool := step_stb c && bool_decide (u32 (steps_limit c - 1) <= steps c).
Definition load (c : core) : bool := Z.testbit (reg_cmd c) 0 && (done c || stopped c).

(** The registers after a clock edge; [w] is the register write of this
    cycle. *)
Definition wr (w : option (Z * Z)) (off old : Z) : Z :=
  match w with
  | Some (off', data) => if bool_decide (off' = off) then data else old
  | None => old
  end.

Definition next_cmd (w : option (Z * Z)) (c : core) : Z :=
  match w with
  | Some (off, data) =>
      if bool_decide (off = MOTION_CMD_OFFSET) then data
      else if load c then 0 else reg_cmd c
  | None => if load c then 0 else reg_cmd c
  end.

(** acc_step_gen: the next values of [dt], [steps] and [stopped]. *)
Definition next_timing (c : core) : Z * Z * bool :=
  if load c then (0, 0, false)
  else if stopped c then (0, 0, true)
  else if bool_decide (u32 (dt_limit c - 1) <= dt c) then
    (0, u32 (steps c + 1), bool_decide (u32 (steps_limit c - 1) <= steps c))
  else (u32 (dt c + 1), steps c, false).

(** acc_profile_gen: the next velocity, acceleration and jerk. *)
Definition next_profile (c : core) : Z * Z * Z :=
  if load c then
    (if Z.testbit (reg_cmd c) 2 then s32 (reg_next_v c) else pv c,
     if Z.testbit (reg_cmd c) 3 then s32 (reg_next_a c) else pa c,
     if Z.testbit (reg_cmd c) 4 then s32 (reg_next_j c) else pj c)
  else if step_stb c then (s32 (pv c + pa c), s32 (pa c + pj c), pj c)
  else (pv c, pa c, pj c).

(** acc_profile_gen: the next position, step and direction. *)
Definition next_x (c : core) : Z * bool * bool :=
  if load c && Z.testbit (reg_cmd c) 1
  then (s64 (reg_next_xh c * 2^32 + reg_next_xl c), false, false)
  else
    let x_acc := s64 (px c + pv c) in
    let bit := Z.land (reg_step_bit c) 0x3F in
    if bool_decide (Z.testbit (px c) bit = Z.testbit x_acc bit)
    then (x_acc, false, dir c) else (x_acc, true, bool_decide (0 < pv c)).

(** One clock edge. *)
Definition core_clk (w : option (Z * Z)) (c : core) : core :=
  let '(dt', steps', stopped') := next_timing c in
  let '(v', a', j') := next_profile c in
  let '(x', step', dir') := next_x c in
  MkCore (next_cmd w c)
    (wr w MOTION_NEXT_XL_OFFSET (reg_next_xl c)) (wr w MOTION_NEXT_XH_OFFSET (reg_next_xh c))
    (wr w MOTION_NEXT_V_OFFSET (reg_next_v c)) (wr w MOTION_NEXT_A_OFFSET (reg_next_a c))
    (wr w MOTION_NEXT_J_OFFSET (reg_next_j c)) (wr w MOTION_NEXT_DT_OFFSET (reg_next_dt c))
    (wr w MOTION_NEXT_STEPS_OFFSET (reg_next_steps c)) (wr w MOTION_PRE_N_OFFSET (reg_pre_n c))
    (wr w MOTION_PULSE_N_OFFSET (reg_pulse_n c)) (wr w MOTION_POST_N_OFFSET (reg_post_n c))
    (wr w MOTION_STEP_BIT_OFFSET (reg_step_bit c))
    (if load c then reg_next_dt c else dt_limit c)
    (if load c then reg_next_steps c else steps_limit c)
    dt' steps' stopped' x' v' a' j' step' dir'.

Fixpoint ticks (n : nat) (c : core) : core :=
  match n with O => c | S n => ticks n (core_clk None c) end.

(** The read multiplexer. *)
Definition core_read (off : Z) (c : core) : Z :=
  if bool_decide (off = MOTION_CMD_OFFSET) then reg_cmd c
  else if bool_decide (off = MOTION_NEXT_XL_OFFSET) then reg_next_xl c
  else if bool_decide (off = MOTION_NEXT_XH_OFFSET) then reg_next_xh c
  else if bool_decide (off = MOTION_NEXT_V_OFFSET) then reg_next_v c
  else if bool_decide (off = MOTION_NEXT_A_OFFSET) then reg_next_a c
  else if bool_decide (off = MOTION_NEXT_J_OFFSET) then reg_next_j c
  else if bool_decide (off = MOTION_NEXT_DT_OFFSET) then reg_next_dt c
  else if bool_decide (off = MOTION_NEXT_STEPS_OFFSET) then reg_next_steps c
  else if bool_decide (off = MOTION_PRE_N_OFFSET) then reg_pre_n c
  else if bool_decide (off = MOTION_PULSE_N_OFFSET) then reg_pulse_n c
  else if bool_decide (off = MOTION_POST_N_OFFSET) then reg_post_n c
  else if bool_decide (off = MOTION_STEP_BIT_OFFSET) then reg_step_bit c
  else if bool_decide (off = MOTION_STAT_XL_OFFSET) then u32 (px c)
  else if bool_decide (off = MOTION_STAT_XH_OFFSET) then u32 (Z.shiftr (px c) 32)
  else if bool_decide (off = MOTION_STAT_V_OFFSET) then u32 (pv c)
  else if bool_decide (off = MOTION_STAT_A_OFFSET) then u32 (pa c)
  else if bool_decide (off = MOTION_STAT_J_OFFSET) then u32 (pj c)
  else if bool_decide (off = MOTION_STAT_DT_OFFSET) then dt c
  else if bool_decide (off = MOTION_STAT_STEPS_OFFSET) then steps c
  else if bool_decide (off = MOTION_STAT_STATUS_OFFSET) then c_bool (stopped c)
  else 0.

(** The core on the bus at address [base], with the number of idle clock cycles
    before each of the following accesses. An access takes one cycle; writing
    [SOFT_RESET] to the reset register resets the core. *)
Record bus_core := BusCore { bc_core : core; bc_delays : list nat }.

Definition wait (d : bus_core) : core * list nat :=
  match bc_delays d with
  | [] => (bc_core d, [])
  | n :: ds => (ticks n (bc_core d), ds)
  end.

Definition core_bus (base : Z) : Bus bus_core := {|
  bus_read addr d :=
    let '(c, ds) := wait d in
    (core_read (u32 (addr - base)) c, BusCore (core_clk None c) ds);
  bus_write addr data d :=
    let '(c, ds) := wait d in
    let off := u32 (addr - base) in
    BusCore (if bool_decide (off = MOTION_RST_REG_OFFSET ∧ data = SOFT_RESET) then core_reset
             else core_clk (Some (off, data)) c) ds;
|}.

(** ** The profile of a move

    Acceleration and velocity after [k] steps of a move that starts with [v],
    [a] and [j], and the sum of the velocities of the first [k] steps. *)

Definition prof_a (a j : Z) (k : nat) : Z := s32 (a + Z.of_nat k * j).
Definition prof_v (v a j : Z) (k : nat) : Z :=
  s32 (v + Z.of_nat k * a + (Z.of_nat k * (Z.of_nat k - 1) / 2) * j).
Fixpoint prof_sum (v a j : Z) (k : nat) : Z :=
  match k with O => 0 | S k => prof_sum v a j k + prof_v v a j k end.

Lemma triangle_S k : Z.of_nat (S k) * (Z.of_nat (S k) - 1) / 2 =
  Z.of_nat k * (Z.of_nat k - 1) / 2 + Z.of_nat k.
Proof.
  replace (Z.of_nat (S k) * (Z.of_nat (S k) - 1))
    with (Z.of_nat k * (Z.of_nat k - 1) + Z.of_nat k * 2) by lia.
  by rewrite Z.div_add by lia.
Qed.

Lemma prof_a_S a j k : s32 (prof_a a j k + j) = prof_a a j (S k).
Proof. unfold prof_a. rewrite s32_add_l. f_equal. lia. Qed.

Lemma prof_v_S v a j k : s32 (prof_v v a j k + prof_a a j k) = prof_v v a j (S k).
Proof.
  unfold prof_v, prof_a. rewrite s32_add_l, s32_add_r, triangle_S. f_equal. lia.
Qed.

(** The core within a move of [n] steps of [d] cycles: [k] steps and [i]
    cycles of the next one are over. *)
Record running (n d v a j x : Z) (k : nat) (i : Z) (c : core) : Prop := {
  run_cmd : reg_cmd c = 0;
  run_go : stopped c = false;
  run_n : u32 (steps_limit c - 1) = n - 1;
  run_d : u32 (dt_limit c - 1) = d - 1;
  run_k : steps c = Z.of_nat k;
  run_i : dt c = i;
  run_v : pv c = prof_v v a j k;
  run_a : pa c = prof_a a j k;
  run_j : pj c = j;
  run_x : px c = s64 (x + d * prof_sum v a j k + i * prof_v v a j k);
}.

Section move.
Context (n d v a j x : Z) (Hn : 1 <= n <= 2^32) (Hd : 1 <= d <= 2^32).
Abbreviation running := (running n d v a j x).

Lemma running_load k i c : running k i c -> load c = false.
Proof. intros []. unfold load. by rewrite run_cmd0. Qed.

Lemma running_clk_x k i c :
  running k i c -> px (core_clk None c) = s64 (x + d * prof_sum v a j k + (i + 1) * prof_v v a j k).
Proof.
  intros Hr. pose proof (running_load _ _ _ Hr) as Hl. destruct Hr.
  unfold core_clk, next_x. rewrite Hl. simpl.
  destruct (next_timing c) as [[? ?] ?], (next_profile c) as [[? ?] ?].
  assert (s64 (px c + pv c) = s64 (x + d * prof_sum v a j k + (i + 1) * prof_v v a j k)) as <-.
  { rewrite run_x0, run_v0, s64_add_l. f_equal. lia. }
  by case_bool_decide.
Qed.

Lemma running_tick k i c :
  running k i c -> 0 <= i -> i + 1 < d -> running k (i + 1) (core_clk None c).
Proof.
  intros Hr Hi Hid. pose proof (running_load _ _ _ Hr) as Hl.
  pose proof (running_clk_x _ _ _ Hr) as Hx. destruct Hr.
  assert (step_stb c = false) as Hs.
  { unfold step_stb. rewrite run_d0, run_i0.
    rewrite bool_decide_eq_false_2 by lia. by destruct (stopped c). }
  unfold core_clk, next_timing, next_profile, next_cmd in *.
  rewrite Hs, Hl, run_d0, run_i0, run_go0 in *.
  rewrite bool_decide_eq_false_2 in * by lia.
  destruct (next_x c) as [[? ?] ?]. constructor; simpl in *; auto. no_wrap. lia.
Qed.

Lemma running_seg k c :
  running k (d - 1) c -> Z.of_nat k + 1 < n -> running (S k) 0 (core_clk None c).
Proof.
  intros Hr Hk. pose proof (running_load _ _ _ Hr) as Hl.
  pose proof (running_clk_x _ _ _ Hr) as Hx. destruct Hr.
  assert (step_stb c = true) as Hs.
  { unfold step_stb. rewrite run_d0, run_i0, run_go0.
    by rewrite bool_decide_eq_true_2 by lia. }
  unfold core_clk, next_timing, next_profile, next_cmd in *.
  rewrite Hs, Hl, run_d0, run_i0, run_go0, run_n0, run_k0 in *.
  rewrite (bool_decide_eq_true_2 (d - 1 <= d - 1)) in * by lia.
  rewrite bool_decide_eq_false_2 in * by lia.
  destruct (next_x c) as [[? ?] ?]. constructor; simpl in *; auto.
  - no_wrap. lia.
  - by rewrite run_v0, run_a0, prof_v_S.
  - by rewrite run_a0, run_j0, prof_a_S.
  - rewrite Hx. f_equal. lia.
Qed.

(** The end of the move: velocity and position are those of step [n], and
    the core stops. *)
Lemma running_last k c :
  running k (d - 1) c -> Z.of_nat k + 1 = n ->
  let c' := core_clk None c in
  stopped c' = true ∧ pv c' = prof_v v a j (S k) ∧ pa c' = prof_a a j (S k) ∧
  px c' = s64 (x + d * prof_sum v a j (S k)).
Proof.
  intros Hr Hk. pose proof (running_load _ _ _ Hr) as Hl.
  pose proof (running_clk_x _ _ _ Hr) as Hx. destruct Hr. intros c'.
  assert (step_stb c = true) as Hs.
  { unfold step_stb. rewrite run_d0, run_i0, run_go0.
    by rewrite bool_decide_eq_true_2 by lia. }
  unfold c', core_clk, next_timing, next_profile in *.
  rewrite Hs, Hl, run_d0, run_i0, run_go0, run_n0, run_k0 in *.
  rewrite (bool_decide_eq_true_2 (d - 1 <= d - 1)) in * by lia.
  rewrite bool_decide_eq_true_2 in * by lia.
  destruct (next_x c) as [[? ?] ?]. simpl in *. split_and!; auto.
  - by rewrite run_v0, run_a0, prof_v_S.
  - by rewrite run_a0, run_j0, prof_a_S.
  - rewrite Hx. f_equal. lia.
Qed.

Lemma ticks_S m c : ticks (S m) c = core_clk None (ticks m c).
Proof. revert c. induction m as [|m IH]; intros c; [done|]. simpl in *. by rewrite IH. Qed.

Lemma ticks_add m k c : ticks m (ticks k c) = ticks (m + k) c.
Proof. induction m as [|m IH]; [done|]. rewrite Nat.add_succ_l, !ticks_S. by rewrite IH. Qed.

Lemma running_at m c :
  running 0 0 c -> Z.of_nat m < n * d ->
  running (Z.to_nat (Z.of_nat m / d)) (Z.of_nat m mod d) (ticks m c).
Proof.
  intros H0 Hm. induction m as [|m IH].
  { rewrite Z.div_0_l, Z.mod_0_l by lia. done. }
  rewrite ticks_S. assert (Z.of_nat m < n * d) as Hm' by lia. specialize (IH Hm').
  pose proof (Z.div_mod (Z.of_nat m) d ltac:(lia)). pose proof (Z.mod_pos_bound (Z.of_nat m) d ltac:(lia)).
  set (q := Z.of_nat m / d) in *. set (r := Z.of_nat m mod d) in *.
  assert (0 <= q) by (apply Z.div_pos; lia).
  destruct (decide (r + 1 < d)) as [Hr|Hr].
  - rewrite <- (Z.div_unique (Z.of_nat (S m)) d q (r + 1)) by (try left; lia).
    rewrite <- (Z.mod_unique (Z.of_nat (S m)) d q (r + 1)) by (try left; lia).
    by apply running_tick; [|lia|].
  - replace r with (d - 1) in IH by lia.
    rewrite <- (Z.div_unique (Z.of_nat (S m)) d (q + 1) 0) by (try left; lia).
    rewrite <- (Z.mod_unique (Z.of_nat (S m)) d (q + 1) 0) by (try left; lia).
    replace (Z.to_nat (q + 1)) with (S (Z.to_nat q)) by lia.
    apply running_seg; [done|nia].
Qed.
End move.

(** ** Properties *)

(** The values that a pending start command makes the core load. *)
Definition load_v (c : core) : Z := if Z.testbit (reg_cmd c) 2 then s32 (reg_next_v c) else pv c.
Definition load_a (c : core) : Z := if Z.testbit (reg_cmd c) 3 then s32 (reg_next_a c) else pa c.
Definition load_j (c : core) : Z := if Z.testbit (reg_cmd c) 4 then s32 (reg_next_j c) else pj c.

Lemma clk_px w c : s64 (px (core_clk w c)) = px (core_clk w c).
Proof.
  unfold core_clk, next_x. destruct (next_timing c) as [[? ?] ?], (next_profile c) as [[? ?] ?].
  destruct (load c && _); [apply s64_idemp|]. simpl. case_bool_decide; apply s64_idemp.
Qed.

(** The number that a 32-bit limit means: the counters are compared with the limit minus one, so that 0 is 2^32. *)
Definition limit (z : Z) : Z := if bool_decide (z = 0) then 2^32 else z.
Lemma limit_range z : is_u32 z -> 1 <= limit z <= 2^32 ∧ u32 (z - 1) = limit z - 1.
Proof. intros Hz. unfold limit, is_u32 in *. case_bool_decide; [subst; split; [lia|reflexivity]|]. split; [lia|]. apply u32_small. unfold is_u32. lia. Qed.

Lemma load_running c :
  load c = true -> s32 (pv c) = pv c -> s32 (pa c) = pa c -> is_u32 (reg_next_steps c) -> is_u32 (reg_next_dt c) ->
  running (limit (reg_next_steps c)) (limit (reg_next_dt c)) (load_v c) (load_a c) (load_j c)
    (px (core_clk None c)) 0 0 (core_clk None c).
Proof.
  intros Hl Hv Ha Hn Hd. destruct (limit_range _ Hn) as [_ En], (limit_range _ Hd) as [_ Ed]. pose proof (clk_px None c) as Hx.
  assert (s32 (load_v c) = load_v c) as Hv' by (unfold load_v; case_match; [apply s32_idemp|done]).
  assert (s32 (load_a c) = load_a c) as Ha' by (unfold load_a; case_match; [apply s32_idemp|done]).
  unfold core_clk, next_timing, next_profile, next_cmd in *. rewrite Hl in *.
  destruct (next_x c) as [[? ?] ?]. constructor; simpl in *; auto.
  - change (load_v c = prof_v (load_v c) (load_a c) (load_j c) 0). rewrite <- Hv' at 1.
    unfold prof_v. change (Z.of_nat 0 * (Z.of_nat 0 - 1) / 2) with 0. f_equal. lia.
  - change (load_a c = prof_a (load_a c) (load_j c) 0). rewrite <- Ha' at 1.
    unfold prof_a. f_equal. lia.
  - rewrite <- Hx at 1. f_equal. lia.
Qed.

(** ** The driver and the core

    The writable registers in the order of their addresses. *)
Definition regs (c : core) : list Z :=
  [reg_cmd c; reg_next_xl c; reg_next_xh c; reg_next_v c; reg_next_a c; reg_next_j c;
   reg_next_dt c; reg_next_steps c; reg_pre_n c; reg_pulse_n c; reg_post_n c; reg_step_bit c].

(** No start command is pending. *)
Definition quiet (l : list Z) : Prop := exists cmd l', l = cmd :: l' ∧ Z.testbit cmd 0 = false.

Lemma quiet_load c : quiet (regs c) -> load c = false.
Proof. intros (cmd & l & [= <- <-] & H). unfold load. by rewrite H. Qed.

Lemma regs_clk c : quiet (regs c) -> regs (core_clk None c) = regs c.
Proof.
  intros Hl%quiet_load. unfold core_clk, next_cmd. rewrite Hl.
  by destruct (next_timing c) as [[? ?] ?], (next_profile c) as [[? ?] ?], (next_x c) as [[? ?] ?].
Qed.

Lemma regs_ticks m c : quiet (regs c) -> regs (ticks m c) = regs c.
Proof.
  revert c. induction m as [|m IH]; intros c Hq; [done|]. simpl.
  rewrite IH; rewrite regs_clk; done.
Qed.

Lemma regs_write (i : nat) data c :
  quiet (regs c) -> (i < 12)%nat ->
  regs (core_clk (Some (4 * Z.of_nat i, data)) c) = <[i := data]> (regs c).
Proof.
  intros Hl%quiet_load Hi. unfold core_clk, next_cmd. rewrite Hl.
  destruct (next_timing c) as [[? ?] ?], (next_profile c) as [[? ?] ?], (next_x c) as [[? ?] ?].
  do 12 (destruct i as [|i]; [done|]). lia.
Qed.

Lemma wait_regs d : quiet (regs (bc_core d)) -> regs (wait d).1 = regs (bc_core d).
Proof. intros Hq. unfold wait. destruct (bc_delays d); [done|]. by apply regs_ticks. Qed.

(** What the driver's accesses do while no start command is pending,
    whatever the number of cycles between them. *)
Section bus.
Context (base : Z).
Local Instance core_at_base : Bus bus_core := core_bus base.

Definition holds (l : list Z) (d : bus_core) : Prop := regs (bc_core d) = l.

Lemma wp_write_reg (i : nat) data l d (Q : unit -> bus_core -> Prop) :
  holds l d -> quiet l -> (i < 12)%nat ->
  (forall d', holds (<[i := u32 data]> l) d' -> Q tt d') ->
  wp (MOTION_mWriteReg base (4 * Z.of_nat i) data) d Q.
Proof.
  intros Hh Hq Hi HQ. apply wp_run. eexists _, _. split; [reflexivity|]. apply HQ.
  unfold holds in *. subst l. cbn [bus_write core_at_base core_bus]. rewrite u32_sub_l, Z.add_simpl_l, u32_small by (unfold is_u32; lia).
  pose proof (wait_regs d Hq) as Hw. destruct (wait d) as [c ds]. simpl in Hw |- *.
  rewrite bool_decide_eq_false_2 by (unfold MOTION_RST_REG_OFFSET; lia).
  rewrite <- Hw in *. by apply regs_write.
Qed.

Lemma wp_read_cmd l cmd d (Q : Z -> bus_core -> Prop) :
  holds (cmd :: l) d -> quiet (cmd :: l) ->
  (forall d', holds (cmd :: l) d' -> Q cmd d') ->
  wp (MOTION_mReadReg base MOTION_CMD_OFFSET) d Q.
Proof.
  intros Hh Hq HQ. unfold holds in *. pose proof (wait_regs d) as Hw. rewrite Hh in Hw.
  unfold MOTION_mReadReg, XIo_In32. apply wp_run. cbn [bus_read core_at_base core_bus].
  rewrite u32_sub_l, Z.add_simpl_l.
  destruct (wait d) as [c ds]. specialize (Hw Hq). simpl in Hw.
  exists cmd, (BusCore (core_clk None c) ds). split; [by injection Hw as <- _|].
  apply HQ. simpl. rewrite regs_clk; [done|by rewrite Hw].
Qed.

(** Setting command bits above bit 0 leaves the core quiet. *)
Lemma wp_set_cmd l cmd m d (Q : unit -> bus_core -> Prop) :
  holds (cmd :: l) d -> quiet (cmd :: l) -> is_u32 cmd -> is_u32 m ->
  (forall d', holds (Z.lor cmd m :: l) d' -> Q tt d') ->
  wp (tmp ← MOTION_mReadReg base MOTION_CMD_OFFSET;
      MOTION_mWriteReg base MOTION_CMD_OFFSET (Z.lor tmp m)) d Q.
Proof.
  intros Hh Hq Hc Hm HQ. apply wp_bind. eapply wp_read_cmd; [done|done|]. intros d1 H1.
  apply (wp_write_reg 0 _ (cmd :: l)); [done|done|lia|]. simpl.
  rewrite u32_small by auto with cint. done.
Qed.

Lemma quiet_lor cmd m l : Z.testbit cmd 0 = false -> Z.testbit m 0 = false -> quiet (Z.lor cmd m :: l).
Proof. intros Hc Hm. eexists _, _. split; [done|]. by rewrite Z.lor_spec, Hc, Hm. Qed.

Lemma quiet_cons cmd l l' : quiet (cmd :: l) -> quiet (cmd :: l').
Proof. intros (? & ? & [= <- <-] & H). by eexists _, _. Qed.

(** The driver's operations. *)
Lemma wp_Start l cmd d (Q : unit -> bus_core -> Prop) :
  holds (cmd :: l) d -> quiet (cmd :: l) -> is_u32 cmd ->
  (forall d', holds (Z.lor cmd 1 :: l) d' -> Q tt d') -> wp (MOTION_Start base) d Q.
Proof. intros. unfold MOTION_Start. by eapply wp_set_cmd. Qed.

Lemma wp_SetSteps n l d (Q : unit -> bus_core -> Prop) :
  holds l d -> quiet l -> (forall d', holds (<[7%nat := u32 n]> l) d' -> Q tt d') ->
  wp (MOTION_SetSteps base n) d Q.
Proof. intros. by apply (wp_write_reg 7 _ l); [..|lia|]. Qed.

(** The three operations that write a register and set a command bit. *)
Lemma wp_set_reg i x m l cmd d (Q : unit -> bus_core -> Prop) :
  holds (cmd :: l) d -> quiet (cmd :: l) -> is_u32 cmd -> is_u32 m -> (i < 11)%nat ->
  (forall d', holds (Z.lor cmd m :: <[i := u32 x]> l) d' -> Q tt d') ->
  wp (MOTION_mWriteReg base (4 * Z.of_nat (S i)) x;;
      tmp ← MOTION_mReadReg base MOTION_CMD_OFFSET;
      MOTION_mWriteReg base MOTION_CMD_OFFSET (Z.lor tmp m)) d Q.
Proof.
  intros Hh Hq Hc Hm Hi HQ. apply wp_bind. apply (wp_write_reg (S i) _ (cmd :: l)); [done|done|lia|].
  intros d1 H1. eapply wp_set_cmd; [exact H1|by eapply quiet_cons|done|done|]. done.
Qed.

Lemma wp_SetV x l cmd d (Q : unit -> bus_core -> Prop) :
  holds (cmd :: l) d -> quiet (cmd :: l) -> is_u32 cmd ->
  (forall d', holds (Z.lor cmd 4 :: <[2%nat := u32 x]> l) d' -> Q tt d') -> wp (MOTION_SetV base x) d Q.
Proof. intros. by apply (wp_set_reg 2 x 4 l cmd); [..|lia|]. Qed.

Lemma wp_SetA x l cmd d (Q : unit -> bus_core -> Prop) :
  holds (cmd :: l) d -> quiet (cmd :: l) -> is_u32 cmd ->
  (forall d', holds (Z.lor cmd 8 :: <[3%nat := u32 x]> l) d' -> Q tt d') -> wp (MOTION_SetA base x) d Q.
Proof. intros. by apply (wp_set_reg 3 x 8 l cmd); [..|lia|]. Qed.

Lemma wp_SetJ x l cmd d (Q : unit -> bus_core -> Prop) :
  holds (cmd :: l) d -> quiet (cmd :: l) -> is_u32 cmd ->
  (forall d', holds (Z.lor cmd 16 :: <[4%nat := u32 x]> l) d' -> Q tt d') -> wp (MOTION_SetJ base x) d Q.
Proof. intros. by apply (wp_set_reg 4 x 16 l cmd); [..|lia|]. Qed.

Lemma wp_SetX x l cmd d (Q : unit -> bus_core -> Prop) :
  holds (cmd :: l) d -> quiet (cmd :: l) -> is_u32 cmd ->
  (forall d', holds (Z.lor cmd 2 :: <[1%nat := u32 (Z.shiftr x 32)]> (<[0%nat := u32 x]> l)) d' -> Q tt d') ->
  wp (MOTION_SetX base x) d Q.
Proof.
  intros Hh Hq Hc HQ. unfold MOTION_SetX. apply wp_bind.
  apply (wp_write_reg 1 _ (cmd :: l)); [done|done|lia|]. intros d1 H1.
  assert (forall z, u32 (u32 (Z.land z 0xffffffff)) = u32 z) as Hu.
  { intros z. change 0xffffffff with (Z.ones 32). rewrite Z.land_ones by lia.
    unfold u32. by rewrite !Z.mod_mod by lia. }
  rewrite Hu in H1. eapply (wp_set_reg 1); [exact H1|by eapply quiet_cons|done|done|lia|].
  rewrite Hu. done.
Qed.
(** Between the operations of the client, the command register is zero or
    has the start bit set: reading it tells which. *)
Definition cmd_ok (c : core) : Prop :=
  reg_cmd c = 0 ∨ (is_u32 (reg_cmd c) ∧ Z.testbit (reg_cmd c) 0 = true).

Lemma clk_cmd_ok c : cmd_ok c -> cmd_ok (core_clk None c).
Proof.
  intros Hc. unfold cmd_ok, core_clk, next_cmd in *.
  destruct (next_timing c) as [[? ?] ?], (next_profile c) as [[? ?] ?], (next_x c) as [[? ?] ?]. simpl.
  destruct (load c); auto.
Qed.

Lemma ticks_cmd_ok n c : cmd_ok c -> cmd_ok (ticks n c).
Proof. revert c. induction n as [|n IH]; intros c Hc; [done|]. by apply IH, clk_cmd_ok. Qed.

Lemma idle_quiet c : reg_cmd c = 0 -> quiet (regs c).
Proof. intros Hc. eexists _, _. split; [reflexivity|]. by rewrite Hc. Qed.

(** The command was accepted and the move is finished. *)
Definition at_rest (c : core) : Prop := reg_cmd c = 0 ∧ stopped c = true.

Lemma idle_ticks k c : reg_cmd c = 0 -> reg_cmd (ticks k c) = 0.
Proof. intros Hc. pose proof (regs_ticks k c (idle_quiet c Hc)) as Hr. injection Hr as -> _. done. Qed.

Lemma rest_clk c : at_rest c -> at_rest (core_clk None c).
Proof.
  intros [Hc Hs]. split; [exact (idle_ticks 1 c Hc)|]. unfold core_clk, next_timing.
  rewrite (quiet_load c) by by apply idle_quiet. rewrite Hs. by destruct (next_profile c) as [[? ?] ?], (next_x c) as [[? ?] ?].
Qed.
Lemma rest_ticks k c : at_rest c -> at_rest (ticks k c).
Proof. revert c. induction k as [|k IH]; intros c Hr; [done|]. by apply IH, rest_clk. Qed.

(** A read sees the core after some cycles. *)
Lemma wp_read_reg off d (Q : Z -> bus_core -> Prop) :
  0 <= off < 2^32 ->
  (forall k d', bc_core d' = ticks (S k) (bc_core d) -> Q (core_read off (ticks k (bc_core d))) d') ->
  wp (MOTION_mReadReg base off) d Q.
Proof.
  intros Ho HQ. unfold MOTION_mReadReg, XIo_In32. apply wp_run. cbn [bus_read core_at_base core_bus].
  rewrite u32_sub_l, Z.add_simpl_l, u32_small by done.
  assert (exists k, (wait d).1 = ticks k (bc_core d)) as [k Hk] by (unfold wait; destruct (bc_delays d) as [|k ?]; [by exists 0%nat|by exists k]).
  destruct (wait d) as [c ds]. cbn [fst] in Hk. eexists _, _. split; [reflexivity|]. rewrite Hk. apply HQ. by rewrite ticks_S, <- Hk.
Qed.

Lemma wp_poll_cmd d (Q : Z -> bus_core -> Prop) :
  cmd_ok (bc_core d) ->
  (forall k cmd d', bc_core d' = ticks (S k) (bc_core d) -> cmd_ok (bc_core d') ->
    (if bool_decide (Z.land cmd 1 = 0) then reg_cmd (ticks k (bc_core d)) = 0 ∧ reg_cmd (bc_core d') = 0 else reg_cmd (bc_core d) ≠ 0) -> Q cmd d') ->
  wp (MOTION_mReadReg base MOTION_CMD_OFFSET) d Q.
Proof.
  intros Hc HQ. apply wp_read_reg; [done|]. intros k d' Hd'. apply (HQ k); [done|rewrite Hd'; by apply ticks_cmd_ok|].
  change (core_read MOTION_CMD_OFFSET (ticks k (bc_core d))) with (reg_cmd (ticks k (bc_core d))).
  case_bool_decide as H0; [|intros Hz; destruct H0; by rewrite idle_ticks]. destruct (ticks_cmd_ok k _ Hc) as [Hz|[_ Hb]].
  - split; [done|]. rewrite Hd', ticks_S. by apply (idle_ticks 1).
  - apply (f_equal (λ z, Z.testbit z 0)) in H0. rewrite Z.land_spec, Z.testbit_0_l, Hb in H0. done.
Qed.

Lemma wp_read_status d (Q : Z -> bus_core -> Prop) :
  (forall k b d', bc_core d' = ticks (S k) (bc_core d) -> stopped (ticks k (bc_core d)) = b -> Q (c_bool b) d') ->
  wp (MOTION_mReadReg base MOTION_STAT_STATUS_OFFSET) d Q.
Proof. intros HQ. apply wp_read_reg; [done|]. intros k d' Hd'. by apply (HQ k). Qed.

Lemma wp_Reset d (Q : unit -> bus_core -> Prop) :
  (forall d', bc_core d' = core_reset -> Q tt d') -> wp (MOTION_mReset base) d Q.
Proof.
  intros HQ. unfold MOTION_mReset, XIo_Out32. apply wp_run. cbn [bus_write core_at_base core_bus].
  rewrite u32_sub_l, Z.add_simpl_l. destruct (wait d) as [c ds]. eexists _, _. split; [reflexivity|].
  apply HQ. done.
Qed.
End bus.

(** C6: The motion core executes a loaded move exactly. When a start command
    is accepted and no register is written until it is over, the core runs for the programmed number of steps times the
    programmed cycles per step and then stops, not earlier, where 0 in either register means 2^32 ([limit]); the final
    velocity is [v + n a + n (n - 1) / 2 j], the final acceleration
    [a + n j], and the position advances by the cycles per step times the sum
    of the step velocities, all with the wrap-around of the registers. *)
Theorem core_executes_move c :
  load c = true -> s32 (pv c) = pv c -> s32 (pa c) = pa c -> is_u32 (reg_next_steps c) -> is_u32 (reg_next_dt c) ->
  let n := Z.to_nat (limit (reg_next_steps c)) in
  let total := Z.to_nat (limit (reg_next_steps c) * limit (reg_next_dt c)) in
  let c0 := core_clk None c in
  (forall m, (m < total)%nat -> stopped (ticks m c0) = false) ∧
  stopped (ticks total c0) = true ∧
  pv (ticks total c0) = prof_v (load_v c) (load_a c) (load_j c) n ∧
  pa (ticks total c0) = prof_a (load_a c) (load_j c) n ∧
  px (ticks total c0) =
    s64 (px c0 + limit (reg_next_dt c) * prof_sum (load_v c) (load_a c) (load_j c) n).
Proof.
  intros Hl Hv Ha Hn' Hd' n total c0. pose proof (load_running c Hl Hv Ha Hn' Hd') as Hr. fold c0 in Hr.
  destruct (limit_range _ Hn') as [Hn _], (limit_range _ Hd') as [Hd _].
  set (steps := limit (reg_next_steps c)) in *. set (dt := limit (reg_next_dt c)) in *. split.
  { intros m Hm. eapply run_go, (running_at _ _ _ _ _ _ Hn Hd); [exact Hr|]. unfold total in Hm. lia. }
  assert (exists m, total = S m) as [m Hm] by (exists (Nat.pred total); unfold total; nia).
  rewrite Hm, ticks_S. assert (Z.of_nat (S m) = steps * dt) as Hm' by (rewrite <- Hm; unfold total; nia).
  pose proof (running_at _ _ _ _ _ _ Hn Hd m c0 Hr ltac:(lia)) as Hm1.
  rewrite <- (Z.div_unique (Z.of_nat m) _ (steps - 1) (dt - 1)) in Hm1 by (try left; lia).
  rewrite <- (Z.mod_unique (Z.of_nat m) _ (steps - 1) (dt - 1)) in Hm1 by (try left; lia).
  destruct (running_last _ _ _ _ _ _ _ _ Hm1) as (H1 & H2 & H3 & H4); [lia|].
  replace (S (Z.to_nat (steps - 1))) with n in * by (unfold n; lia). done.
Qed.

(** A core that was asked for 3 steps of 4 cycles with a = 5, j = 2. *)
Definition example_core : core :=
  MkCore 25 0 0 0 5 2 4 3 100 300 100 0 0 0 0 0 true 0 7 0 0 false false.

Lemma core_executes_move_witness :
  load example_core = true ∧
  (let c0 := core_clk None example_core in
   (forall m, (m < 12)%nat -> stopped (ticks m c0) = false) ∧ stopped (ticks 12 c0) = true ∧
   pv (ticks 12 c0) = 28 ∧ pa (ticks 12 c0) = 11 ∧ px (ticks 12 c0) = 7 + 4 * (7 + 12 + 19)).
Proof.
  split; [reflexivity|].
  pose proof (core_executes_move example_core) as H.
  destruct H as (H1 & H2 & H3 & H4 & H5); [done|done|done|split; simpl; lia|split; simpl; lia|].
  split_and!; [exact H1|exact H2|..].
  - etransitivity; [exact H3|reflexivity].
  - etransitivity; [exact H4|reflexivity].
  - etransitivity; [exact H5|reflexivity].
Defined.

(** Setting the position is a round trip through the two 32-bit halves.
    When no start command is pending, [MOTION_SetX] of any 64-bit value
    followed by [MOTION_Start] leaves a pending command, however many cycles
    pass between the bus accesses; when the core accepts it, its position
    counter is exactly that value. *)
Theorem SetX_roundtrip base d x :
  quiet (regs (bc_core d)) -> is_u32 (reg_cmd (bc_core d)) -> - 2^63 <= x < 2^63 ->
  exists d', (@MOTION_SetX _ (core_bus base) base x;; @MOTION_Start _ (core_bus base) base) d = Some (tt, d') ∧
    Z.testbit (reg_cmd (bc_core d')) 0 = true ∧
    (load (bc_core d') = true -> px (core_clk None (bc_core d')) = x).
Proof.
  intros Hq Hc Hx. destruct d as [c ds]. simpl in Hq, Hc.
  cut (wp (@MOTION_SetX _ (core_bus base) base x;; @MOTION_Start _ (core_bus base) base) (BusCore c ds)
    (λ _ d', exists l, regs (bc_core d') =
      Z.lor (Z.lor (reg_cmd c) 2) 1 :: u32 x :: u32 (Z.shiftr x 32) :: l)).
  { intros ([] & d' & E & l & Hl)%wp_run. exists d'. split; [done|]. destruct d' as [c' ds']. cbn [bc_core] in *.
    injection Hl as Hcmd Hxl Hxh _. rewrite Hcmd, !Z.lor_spec. split; [by rewrite orb_true_r|].
    intros Hld. unfold core_clk, next_x. rewrite Hld, Hcmd, Hxl, Hxh, !Z.lor_spec.
    destruct (next_timing c') as [[? ?] ?], (next_profile c') as [[? ?] ?]. simpl.
    rewrite orb_true_r, orb_true_l. simpl. rewrite Z.shiftr_div_pow2 by lia.
    destruct (u32_mod (x / 2^32)) as [k Hk]. rewrite Hk. unfold u32.
    replace ((x / 2^32 + k * 2^32) * 2^32 + x mod 2^32) with (x + k * 2^64)
      by (pose proof (Z.div_mod x (2^32) ltac:(lia)); lia).
    by rewrite s64_shift, s64_small. }
  apply wp_bind. eapply wp_SetX; [reflexivity|exact Hq|exact Hc|]. intros d1 H1.
  destruct Hq as (? & ? & [= <- <-] & Hb).
  eapply wp_Start; [exact H1|by apply quiet_lor|apply u32_lor; [exact Hc|cint]|]. intros d2 H2. eexists. exact H2.
Qed.

Lemma SetX_roundtrip_witness :
  let d := BusCore core_reset [3; 0; 2; 5]%nat in
  exists d', (@MOTION_SetX _ (core_bus 16) 16 (-5000000000);; @MOTION_Start _ (core_bus 16) 16) d = Some (tt, d') ∧
    Z.testbit (reg_cmd (bc_core d')) 0 = true ∧
    (load (bc_core d') = true -> px (core_clk None (bc_core d')) = -5000000000).
Proof.
  apply (SetX_roundtrip 16 (BusCore core_reset [3; 0; 2; 5]%nat)).
  - by eexists _, _.
  - done.
  - lia.
Defined.
