(* ===== verification/StepPulse.v ===== *)
(** * The pulses of the motor (pcores/motion_v1_00_a/hdl/verilog/motor_step_gen.v, user_logic.v)

    The pulse generator behind the motion core: each step of the position
    register becomes a pulse on the lines to the motor, whose delays are the
    registers PRE_N, PULSE_N and POST_N; a step that arrives while a pulse is
    under way is dropped and counted. [motion_clk] is the whole core, one
    clock cycle at a time. The theorem is that the motor follows the
    position register. *)

From S2P Require Import Prelude Motion MotionCore.
Open Scope Z_scope.

(** ** Model *)

(** motor_step_gen.v: its registers. *)
Record motor := Motor { cnt : Z; S_Step : bool; S_Dir : bool; missed : bool }.

Definition motor_reset : motor := Motor 0 false false false.

Definition motor_clk (pre_n pulse_n post_n : Z) (step_stb step_dir : bool) (m : motor) : motor :=
  if bool_decide (cnt m = 0) then
    if step_stb then Motor 1 false step_dir false else Motor 0 false (S_Dir m) false
  else
    let next := u32 (cnt m + 1) in
    if bool_decide (cnt m < pre_n) then Motor next false (S_Dir m) step_stb
    else if bool_decide (cnt m < pulse_n) then Motor next true (S_Dir m) step_stb
    else if bool_decide (cnt m < post_n) then Motor next false (S_Dir m) step_stb
    else Motor 0 false (S_Dir m) step_stb.

Definition MOTION_STAT_MISSED_STEPS_OFFSET : Z := 0x68.

(** user_logic.v: the core, the pulse generator and the counter of missed steps. *)
Record motion := MkMotion { mcore : core; mmotor : motor; stat_missed_steps : Z }.

Definition motion_reset : motion := MkMotion core_reset motor_reset 0.

Definition motion_clk (w : option (Z * Z)) (m : motion) : motion :=
  MkMotion (core_clk w (mcore m))
    (motor_clk (reg_pre_n (mcore m)) (reg_pulse_n (mcore m)) (reg_post_n (mcore m)) (step (mcore m)) (dir (mcore m)) (mmotor m))
    (if bool_decide (fst <$> w = Some MOTION_STAT_MISSED_STEPS_OFFSET) then 0
     else if missed (mmotor m) then u32 (stat_missed_steps m + 1) else stat_missed_steps m).

Definition motion_read (off : Z) (m : motion) : Z :=
  if bool_decide (off = MOTION_STAT_MISSED_STEPS_OFFSET) then stat_missed_steps m else core_read off (mcore m).

(** ** What the motor sees *)

Definition sgn (d : bool) : Z := if d then 1 else -1.

(** A rising edge of the step line, with the direction line. *)
Definition edge (m m' : motor) : Z := if negb (S_Step m) && S_Step m' then sgn (S_Dir m') else 0.

Fixpoint motion_ticks (n : nat) (m : motion) : motion :=
  match n with O => m | S n => motion_ticks n (motion_clk None m) end.

(** How far the motor turns in [n] cycles. *)
Fixpoint net_edges (n : nat) (m : motion) : Z :=
  match n with
  | O => 0
  | S n => edge (mmotor m) (mmotor (motion_clk None m)) + net_edges n (motion_clk None m)
  end.

Lemma motion_core n m : mcore (motion_ticks n m) = ticks n (mcore m).
Proof. revert m. induction n as [|n IH]; intros m; [done|]. simpl. by rewrite IH. Qed.

Section follow.
(** The pulse registers, the step bit, and a bound of the velocity, which has
    one direction. *)
Context (pre pulse post b vmax : Z) (sigma : bool).

(** How many cycles a pulse takes. *)
Definition busy : Z := Z.max (Z.max 1 pre) (Z.max pulse post).

(** The position in the direction of the movement. *)
Definition along (x : Z) : Z := if sigma then x else - 1 - x.

Record set_up (c : core) : Prop := {
  su_cmd : reg_cmd c = 0;
  su_pre : reg_pre_n c = pre;
  su_pulse : reg_pulse_n c = pulse;
  su_post : reg_post_n c = post;
  su_bit : Z.land (reg_step_bit c) 0x3F = b;
}.

(** The velocity stays in its direction and below the bound. *)
Definition slow (c : core) : Prop := 0 <= sgn sigma * pv c <= vmax ∧ - 2^63 <= px c + pv c < 2^63.

(** The distance from the last boundary between steps. *)
Definition past (c : core) : Z := along (px c) mod 2^b.

Record tracks (m : motion) : Prop := {
  tr_regs : set_up (mcore m);
  tr_cnt : 0 <= cnt (mmotor m) <= busy;
  tr_step : S_Step (mmotor m) = bool_decide (1 <= cnt (mmotor m) - 1 ∧ pre <= cnt (mmotor m) - 1 < pulse);
  tr_missed : missed (mmotor m) = false;
  tr_strobe : step (mcore m) = true -> cnt (mmotor m) = 0 ∧ dir (mcore m) = sigma ∧ past (mcore m) < vmax;
  tr_pulse : 0 < cnt (mmotor m) -> S_Dir (mmotor m) = sigma ∧ past (mcore m) < (cnt (mmotor m) + 1) * vmax;
}.

(** The steps that are under way to the motor. *)
Definition pending (m : motion) : Z :=
  (if step (mcore m) then sgn sigma else 0) + (if bool_decide (1 <= cnt (mmotor m) <= Z.max 1 pre) then sgn sigma else 0).

Context (Hb : 0 <= b < 63).

Lemma pow_b : 0 < 2^b.
Proof. apply Z.pow_pos_nonneg; lia. Qed.

Lemma along_bit x : Z.testbit (along x) b = if sigma then Z.testbit x b else negb (Z.testbit x b).
Proof. unfold along. destruct sigma; [done|]. replace (-1 - x) with (Z.lnot x) by (unfold Z.lnot; lia). apply Z.lnot_spec. lia. Qed.
Lemma along_div x : along x / 2^b = if sigma then x / 2^b else -1 - x / 2^b.
Proof.
  unfold along. destruct sigma; [done|]. pose proof pow_b as Hp.
  pose proof (Z.div_mod x (2^b) ltac:(lia)). pose proof (Z.mod_pos_bound x (2^b) Hp).
  symmetry. apply (Z.div_unique_pos _ _ _ (2^b - 1 - x mod 2^b)); lia.
Qed.

(** A short move crosses a boundary exactly if the step bit changes. *)
Lemma crossing y d : 0 <= d < 2^b ->
  (Z.testbit y b = Z.testbit (y + d) b -> (y + d) / 2^b = y / 2^b ∧ (y + d) mod 2^b = y mod 2^b + d) ∧
  (Z.testbit y b ≠ Z.testbit (y + d) b -> (y + d) / 2^b = y / 2^b + 1 ∧ (y + d) mod 2^b = y mod 2^b + d - 2^b).
Proof.
  intros Hd. pose proof pow_b as Hp. pose proof (Z.div_mod y (2^b) ltac:(lia)) as E. pose proof (Z.mod_pos_bound y (2^b) Hp) as Hm.
  assert (forall z, Z.testbit z b = Z.odd (z / 2^b)) as Ho by (intros z; rewrite <- Z.shiftr_div_pow2, <- Z.bit0_odd, Z.shiftr_spec by lia; f_equal; lia).
  rewrite !Ho. destruct (decide (y mod 2^b + d < 2^b)).
  - assert ((y + d) / 2^b = y / 2^b) as -> by (symmetry; apply (Z.div_unique_pos _ _ _ (y mod 2^b + d)); lia).
    split; [|done]. intros _. split; [done|]. symmetry. apply (Z.mod_unique_pos _ _ (y / 2^b)); lia.
  - assert ((y + d) / 2^b = y / 2^b + 1) as -> by (symmetry; apply (Z.div_unique_pos _ _ _ (y mod 2^b + d - 2^b)); lia).
    rewrite Z.odd_add. split; [by destruct (Z.odd (y / 2^b))|]. intros _. split; [done|].
    symmetry. apply (Z.mod_unique_pos _ _ (y / 2^b + 1)); lia.
Qed.

Context (Hpulse : Z.max 1 pre < pulse) (Hbusy : busy < 2^32 - 1).

(** One cycle of a pulse. *)
Lemma motor_busy d m : 0 < cnt m <= busy ->
  motor_clk pre pulse post false d m =
    Motor (if decide (cnt m < busy) then cnt m + 1 else 0) (bool_decide (pre <= cnt m < pulse)) (S_Dir m) false.
Proof.
  clear Hb. intros Hc. unfold motor_clk, busy in *. rewrite bool_decide_eq_false_2, u32_small by (unfold is_u32; lia).
  repeat case_bool_decide; try lia; case_decide; (done || lia).
Qed.

(** What a pulse adds to the step line. *)
Lemma pulse_edge m : 0 < cnt m <= busy -> S_Dir m = sigma -> S_Step m = bool_decide (1 <= cnt m - 1 ∧ pre <= cnt m - 1 < pulse) ->
  edge m (Motor (if decide (cnt m < busy) then cnt m + 1 else 0) (bool_decide (pre <= cnt m < pulse)) (S_Dir m) false) +
    (if bool_decide (1 <= (if decide (cnt m < busy) then cnt m + 1 else 0) <= Z.max 1 pre) then sgn sigma else 0) =
  (if bool_decide (1 <= cnt m <= Z.max 1 pre) then sgn sigma else 0).
Proof.
  intros Hc Hd Hs. unfold edge. rewrite Hs. cbn [S_Step S_Dir]. rewrite Hd.
  destruct (decide (cnt m < busy)); unfold busy in *; repeat case_bool_decide; cbn [negb andb]; lia.
Qed.

Context (Hvmax : 0 < vmax) (Hslow : (busy + 1) * vmax <= 2^b).

(** One cycle of the core: the position moves on, and a step is reported if
    it crosses a boundary. *)
Lemma core_step c :
  set_up c -> slow c ->
  set_up (core_clk None c) ∧
  (step (core_clk None c) = false -> along (px (core_clk None c)) / 2^b = along (px c) / 2^b ∧
    past (core_clk None c) = past c + sgn sigma * pv c) ∧
  (step (core_clk None c) = true -> along (px (core_clk None c)) / 2^b = along (px c) / 2^b + 1 ∧
    past (core_clk None c) = past c + sgn sigma * pv c - 2^b ∧ dir (core_clk None c) = sigma).
Proof.
  intros [Hc Hpre Hpl Hpo Hbit] [Hv Hx]. pose proof (idle_quiet c Hc) as Hq. pose proof (quiet_load c Hq) as Hl.
  pose proof (regs_clk c Hq) as Hr. injection Hr as R0 _ _ _ _ _ _ _ R8 R9 R10 R11.
  assert (sgn sigma * pv c < 2^b) as Hlt by (unfold busy in *; nia).
  destruct (crossing (along (px c)) (sgn sigma * pv c) ltac:(lia)) as [Hsame Hcross].
  assert (along (px c + pv c) = along (px c) + sgn sigma * pv c) as Ea by (unfold along, sgn; destruct sigma; lia).
  rewrite <- Ea, !along_bit in Hsame, Hcross.
  assert (px (core_clk None c) = px c + pv c ∧ step (core_clk None c) = negb (bool_decide (Z.testbit (px c) b = Z.testbit (px c + pv c) b)) ∧
    (step (core_clk None c) = true -> dir (core_clk None c) = bool_decide (0 < pv c))) as (Ex & Es & Ed).
  { unfold core_clk, next_x. rewrite Hl. cbn [andb]. rewrite Hbit, s64_small by lia.
    destruct (next_timing c) as [[? ?] ?], (next_profile c) as [[? ?] ?].
    destruct (decide (Z.testbit (px c) b = Z.testbit (px c + pv c) b)) as [E|E];
      [rewrite !(bool_decide_eq_true_2 _ E)|rewrite !(bool_decide_eq_false_2 _ E)]; done. }
  split; [constructor; congruence|]. unfold past. rewrite Es, Ex. split; intros Hs.
  - apply negb_false_iff, bool_decide_eq_true in Hs. apply Hsame. by rewrite Hs.
  - rewrite Ed by by rewrite Es. apply negb_true_iff, bool_decide_eq_false in Hs.
    destruct Hcross as [Hd Hm]; [destruct sigma; [done|]; destruct (Z.testbit (px c) b), (Z.testbit (px c + pv c) b); simpl; congruence|]. split_and!; [done|done|].
    unfold sgn in Hv. destruct sigma; [apply bool_decide_eq_true_2|apply bool_decide_eq_false_2]; [|lia].
    destruct (decide (pv c = 0)) as [E0|]; [|lia]. rewrite E0, Z.add_0_r in Hs. done.
Qed.

Lemma motion_step m :
  tracks m -> slow (mcore m) ->
  tracks (motion_clk None m) ∧ stat_missed_steps (motion_clk None m) = stat_missed_steps m ∧
  edge (mmotor m) (mmotor (motion_clk None m)) + pending (motion_clk None m) =
    pending m + sgn sigma * (along (px (mcore (motion_clk None m))) / 2^b - along (px (mcore m)) / 2^b).
Proof.
  intros [Hsu Hcnt Hst Hmi Hstr Hpul] Hslow'. destruct (core_step _ Hsu Hslow') as (Hsu' & Hno & Hyes).
  destruct Hslow' as [[Hv0 Hv1] _]. pose proof (su_pre _ Hsu) as Epre. pose proof (su_pulse _ Hsu) as Epul. pose proof (su_post _ Hsu) as Epost.
  assert (0 <= past (mcore m) < 2^b) as Hpast by (apply Z.mod_pos_bound, pow_b).
  assert (0 <= past (core_clk None (mcore m)) < 2^b) as Hpast' by (apply Z.mod_pos_bound, pow_b).
  unfold motion_clk, pending. cbn [mcore mmotor stat_missed_steps fst fmap option_fmap option_map]. rewrite Hmi, Epre, Epul, Epost.
  rewrite (bool_decide_eq_false_2 (None = _)) by done.
  destruct (decide (0 < cnt (mmotor m))) as [Hc|Hc].
  - (* a pulse is under way *)
    destruct (Hpul Hc) as [Hdir Hp]. assert (step (mcore m) = false) as Hns.
    { destruct (step (mcore m)); [|done]. destruct (Hstr eq_refl). lia. }
    rewrite Hns, motor_busy by lia.
    assert (step (core_clk None (mcore m)) = true -> cnt (mmotor m) = busy) as Hlate.
    { intros Hs. destruct (Hyes Hs) as (_ & E & _). destruct (decide (cnt (mmotor m) < busy)); [|lia]. unfold busy in *. nia. }
    split; [|split; [done|]].
    + constructor; cbn [mcore mmotor cnt S_Step S_Dir missed]; [done| | |done| |].
      * destruct (decide (cnt (mmotor m) < busy)); lia.
      * destruct (decide (cnt (mmotor m) < busy)); unfold busy in *; repeat case_bool_decide; (done || lia).
      * intros Hs. rewrite (Hlate Hs), decide_False by lia. destruct (Hyes Hs) as (_ & E & Ed). split_and!; [done|done|]. lia.
      * destruct (decide (cnt (mmotor m) < busy)); [|lia]. intros _. split; [done|]. destruct (step (core_clk None (mcore m))) eqn:Hs; [rewrite (Hlate eq_refl) in *; lia|].
        destruct (Hno eq_refl) as [_ E]. lia.
    + cbn [cnt]. pose proof (pulse_edge (mmotor m) ltac:(lia) Hdir Hst) as He.
      destruct (step (core_clk None (mcore m))) eqn:Hs; [destruct (Hyes eq_refl) as [E _]|destruct (Hno eq_refl) as [E _]]; rewrite E; lia.
  - (* no pulse is under way *)
    assert (cnt (mmotor m) = 0) as Hc0 by lia. unfold motor_clk, edge. rewrite Hst, Hc0, (bool_decide_eq_true_2 (0 = 0)) by done.
    destruct (step (mcore m)) eqn:Hs; cbn [S_Step S_Dir cnt]; rewrite !andb_false_r.
    + destruct (Hstr eq_refl) as (_ & Hdir & Hp). assert (step (core_clk None (mcore m)) = false) as Hns.
      { destruct (step (core_clk None (mcore m))); [|done]. destruct (Hyes eq_refl) as (_ & E & _). unfold busy in *. nia. }
      destruct (Hno Hns) as [Ed Ep]. split; [|split; [done|]].
      * constructor; cbn [mcore mmotor cnt S_Step S_Dir missed]; [done|unfold busy; lia|by rewrite bool_decide_eq_false_2 by lia|done| |].
        -- intros. congruence.
        -- intros _. split; [done|]. lia.
      * rewrite Hns, Ed, (bool_decide_eq_true_2 (1 <= 1 <= _)), (bool_decide_eq_false_2 (1 <= 0 <= _)) by lia. lia.
    + split; [|split; [done|]].
      * constructor; cbn [mcore mmotor cnt S_Step S_Dir missed]; [done|unfold busy; lia|by rewrite bool_decide_eq_false_2 by lia|done| |lia].
        intros Hs'. destruct (Hyes Hs') as (_ & E & Ed). split_and!; [done|done|lia].
      * rewrite (bool_decide_eq_false_2 (1 <= 0 <= _)) by lia.
        destruct (step (core_clk None (mcore m))); [destruct (Hyes eq_refl) as [E _]|destruct (Hno eq_refl) as [E _]]; rewrite E; lia.
Qed.

Lemma motion_run n m :
  tracks m -> (forall k, (k < n)%nat -> slow (ticks k (mcore m))) ->
  tracks (motion_ticks n m) ∧ stat_missed_steps (motion_ticks n m) = stat_missed_steps m ∧
  net_edges n m + pending (motion_ticks n m) = pending m + sgn sigma * (along (px (ticks n (mcore m))) / 2^b - along (px (mcore m)) / 2^b).
Proof.
  revert m. induction n as [|n IH]; intros m Ht Hv; cbn [motion_ticks net_edges ticks]; [split_and!; [done|done|lia]|].
  destruct (motion_step m Ht (Hv 0%nat ltac:(lia))) as (Ht1 & Hm1 & He1).
  destruct (IH (motion_clk None m) Ht1) as (Ht2 & Hm2 & He2); [intros k Hk; apply (Hv (S k)); lia|].
  cbn [mcore motion_clk] in *. split_and!; [done|congruence|lia].
Qed.
End follow.

(** ** The shape of a pulse *)

(** The generator alone, without further steps. *)
Fixpoint motor_ticks (pre pulse post : Z) (n : nat) (m : motor) : motor :=
  match n with O => m | S n => motor_ticks pre pulse post n (motor_clk pre pulse post false false m) end.

(** The three registers are times since the step, not lengths: the line is
    high from cycle PRE_N to cycle PULSE_N, and the next step is
    accepted after the greatest of them. With the values 100, 300 and 100 that
    the program sets, the pulse has 200 cycles, and nothing follows it. *)
Lemma pulse_shape pre pulse post k d m :
  Z.max 1 pre < pulse -> busy pre pulse post < 2^32 - 1 -> cnt m = 0 -> Z.of_nat k <= busy pre pulse post ->
  let m' := motor_ticks pre pulse post k (motor_clk pre pulse post true d m) in
  S_Dir m' = d ∧ S_Step m' = bool_decide (1 <= Z.of_nat k ∧ pre <= Z.of_nat k < pulse) ∧
  (cnt m' = 0 <-> Z.of_nat k = busy pre pulse post).
Proof.
  intros Hp Hb Hc Hk. unfold motor_clk at 1. rewrite bool_decide_eq_true_2 by done.
  assert (forall j c s, (c = 1 ∧ s = false) ∨ (2 <= c ∧ s = bool_decide (pre <= c - 1 < pulse)) -> c + Z.of_nat j <= 1 + busy pre pulse post ->
    c <= busy pre pulse post ∨ j = 0%nat ->
    let m' := motor_ticks pre pulse post j (Motor (if decide (c <= busy pre pulse post) then c else 0) s d false) in
    S_Dir m' = d ∧ S_Step m' = bool_decide (1 <= c + Z.of_nat j - 1 ∧ pre <= c + Z.of_nat j - 1 < pulse) ∧
    (cnt m' = 0 <-> c + Z.of_nat j = 1 + busy pre pulse post)) as Hrun.
  { induction j as [|j IH]; intros c s Hs Hle Hc0; cbn [motor_ticks].
    - cbn [S_Dir S_Step cnt]. split_and!; [done| |destruct (decide (c <= busy pre pulse post)); lia].
      destruct Hs as [[-> ->]|[Hs ->]]; repeat case_bool_decide; (done || lia).
    - destruct Hc0 as [Hc0|]; [|done]. rewrite decide_True by done. rewrite motor_busy by (cbn [cnt]; lia). cbn [cnt S_Dir].
      specialize (IH (c + 1) (bool_decide (pre <= c < pulse)) ltac:(right; split; [lia|repeat case_bool_decide; (done || lia)]) ltac:(lia) ltac:(lia)).
      assert ((if decide (c < busy pre pulse post) then c + 1 else 0) = (if decide (c + 1 <= busy pre pulse post) then c + 1 else 0)) as ->
        by (destruct (decide (c < busy pre pulse post)), (decide (c + 1 <= busy pre pulse post)); lia).
      replace (c + Z.of_nat (S j)) with (c + 1 + Z.of_nat j) by lia. exact IH. }
  specialize (Hrun k 1 false ltac:(by left) ltac:(lia) ltac:(unfold busy in *; lia)).
  rewrite decide_True in Hrun by (unfold busy; lia). replace (1 + Z.of_nat k - 1) with (Z.of_nat k) in Hrun by lia.
  destruct Hrun as (H1 & H2 & H3). split_and!; [done|done|lia].
Qed.

(** ** The motor follows the position *)

(** C8: The motor follows the position register within a move. Let PULSE_N be greater than PRE_N and than 1, the counts of the pulse below
    2^32 - 1 and STEP_BIT below 63 (a position of 64 bits has its sign in bit 63), and let the command register be 0, with no step missed before. Starting
    between pulses, for as many cycles as no register is written, the position does not wrap around and the velocity keeps its
    direction and is at most [vmax], so slow that a pulse ends before the next step is due, no step is missed; the pulses on
    the step line, counted with the direction line, are at most one behind the
    steps of the position register (its value divided by 2^STEP_BIT), and they
    are equal whenever no pulse is under way. *)
Theorem motor_follows_position pre pulse post b vmax sigma n m :
  Z.max 1 pre < pulse -> busy pre pulse post < 2^32 - 1 -> 0 <= b < 63 -> 0 < vmax -> (busy pre pulse post + 1) * vmax <= 2^b ->
  set_up pre pulse post b (mcore m) -> cnt (mmotor m) = 0 -> S_Step (mmotor m) = false -> missed (mmotor m) = false -> step (mcore m) = false ->
  (forall k, (k < n)%nat -> slow vmax sigma (ticks k (mcore m))) ->
  let turned := px (ticks n (mcore m)) / 2^b - px (mcore m) / 2^b in
  stat_missed_steps (motion_ticks n m) = stat_missed_steps m ∧ missed (mmotor (motion_ticks n m)) = false ∧
  Z.abs (turned - net_edges n m) <= 1 ∧
  (cnt (mmotor (motion_ticks n m)) = 0 -> step (ticks n (mcore m)) = false -> net_edges n m = turned).
Proof.
  intros Hp Hbu Hb Hvm Hslow Hsu Hc Hs Hmi Hst Hv turned.
  assert (tracks pre pulse post b vmax sigma m) as Ht.
  { constructor; [done|unfold busy; lia|rewrite Hs, Hc, bool_decide_eq_false_2; (done || lia)|done|congruence|lia]. }
  destruct (motion_run pre pulse post b vmax sigma Hb Hp Hbu Hvm Hslow n m Ht Hv) as (Ht' & Hm & He).
  rewrite !along_div in He by done. destruct Ht' as [_ Hc' _ Hmi' Hstr _]. unfold pending in He. rewrite motion_core in He, Hstr.
  rewrite Hst, Hc, (bool_decide_eq_false_2 (1 <= 0 <= _)) in He by lia.
  assert (sgn sigma * ((if sigma then px (ticks n (mcore m)) / 2^b else -1 - px (ticks n (mcore m)) / 2^b) -
    (if sigma then px (mcore m) / 2^b else -1 - px (mcore m) / 2^b)) = turned) as E by (unfold turned, sgn; destruct sigma; lia).
  rewrite E in He. split_and!; [done|done| |].
  - destruct (step (ticks n (mcore m))); [destruct (Hstr eq_refl) as [Hz _]; rewrite Hz, (bool_decide_eq_false_2 (1 <= 0 <= _)) in He by lia|case_bool_decide];
      unfold sgn in He; destruct sigma; lia.
  - intros Hc0 Hs0. rewrite Hc0, Hs0, (bool_decide_eq_false_2 (1 <= 0 <= _)) in He by lia. lia.
Qed.

(** A core that moves backwards at a constant velocity. *)
Definition sample_motion : motion :=
  MkMotion (MkCore 0 0 0 0 0 0 0 0 1 3 4 4 0 0 0 0 true 100 (-2) 0 0 false false) motor_reset 0.

Lemma motor_follows_position_witness : net_edges 24 sample_motion = -3 ∧ stat_missed_steps (motion_ticks 24 sample_motion) = 0.
Proof.
  destruct (motor_follows_position 1 3 4 4 2 false 24 sample_motion) as (Hm & _ & _ & He);
    [lia|unfold busy; lia|lia|lia|unfold busy; lia|by constructor|reflexivity|reflexivity|reflexivity|reflexivity| |].
  - intros k Hk. do 24 (destruct k as [|k]; [vm_compute; split_and!; congruence|]). lia.
  - split; [|exact Hm]. rewrite He; vm_compute; reflexivity.
Defined.
