(* ===== verification/Steppers.v ===== *)
(** * The stepper motor queue (sdloader/src/steppers.c)

    A queue of target positions, a state machine that is polled from the main
    loop, and the computation of the cubic profile of each move. The
    arithmetic on [double] is a parameter, instantiated below with IEEE 754
    binary64 and with exact rational numbers. *)

From S2P Require Import Prelude Motion MotionCore.
From Stdlib Require Import SpecFloat Qcanon Field.
From Stdlib Require String QArith_base.
Import String.StringSyntax.

Open Scope Z_scope.

(** ** Arithmetic on double *)

Class Num (R : Type) := {
  num_add : R -> R -> R;
  num_sub : R -> R -> R;
  num_mul : R -> R -> R;
  num_div : R -> R -> R;
  num_of_Z : Z -> R;             (* conversion from an integer type *)
  num_trunc : R -> option Z;     (* conversion to an integer, before the range check *)
}.

Declare Scope num_scope.
Delimit Scope num_scope with num.
Infix "+" := num_add : num_scope.
Infix "-" := num_sub : num_scope.
Infix "*" := num_mul : num_scope.
Infix "/" := num_div : num_scope.
Notation "# z" := (num_of_Z z%Z) (at level 1, format "# z") : num_scope.

(** IEEE 754 binary64, round to nearest even. *)
Definition b64_of_Z (z : Z) : spec_float := binary_normalize 53 1024 z 0 false.

Definition b64_trunc (f : spec_float) : option Z :=
  match f with
  | S754_zero _ => Some 0
  | S754_finite s m e =>
      let a := if decide (0 <= e) then Z.shiftl (Zpos m) e else Z.shiftr (Zpos m) (- e) in
      Some (if s : bool then - a else a)
  | _ => None
  end.

Definition b64 : Num spec_float := {|
  num_add := SFadd 53 1024;
  num_sub := SFsub 53 1024;
  num_mul := SFmul 53 1024;
  num_div := SFdiv 53 1024;
  num_of_Z := b64_of_Z;
  num_trunc := b64_trunc;
|}.

(** Exact arithmetic. *)
Definition exact : Num Qc := {|
  num_add := Qcplus;
  num_sub := Qcminus;
  num_mul := Qcmult;
  num_div := Qcdiv;
  num_of_Z z := Q2Qc (QArith_base.inject_Z z);
  num_trunc q := Some (Z.quot (QArith_base.Qnum q) (Zpos (QArith_base.Qden q)));
|}.

(** Conversion of a [double] to an integer type; out of its range the
    behaviour is undefined. *)
Definition to_range (lo hi : Z) (o : option Z) : option Z :=
  z ← o; if decide (lo <= z < hi) then Some z else None.
Lemma to_range_Some lo hi o z : to_range lo hi o = Some z -> lo <= z < hi.
Proof.
  intros (z' & _ & Hz)%bind_Some. case_decide as Hr; [|done]. by injection Hz as <-.
Qed.
Definition to_u32 {R} `{Num R} (r : R) : option Z := to_range 0 (2^32) (num_trunc r).
Definition to_s32 {R} `{Num R} (r : R) : option Z := to_range (- 2^31) (2^31) (num_trunc r).

(** ** State *)

Definition STEPPERS_NUM_AXES : Z := 5.
Definition STEP_FREQ : Z := 100000000.
Definition STEP_BIT : Z := 40.
Definition ACC_FREQ : Z := 250.
Definition QUEUE_LEN : Z := 10.

Inductive states := STATE_OFF | STATE_IDLE | STATE_ACTIVE | STATE_DELAY | STATE_STOPPING.
#[export] Instance states_eq_dec : EqDecision states.
Proof. solve_decision. Defined.

Section steppers.
Context {R D : Type} `{Num R} `{Bus D}.

Record steppers_target := Target {
  t_mode : list Z;
  t_dt : R;
  t_x : list R;
  t_v : list R;
}.

(** What is printed: the format, its integer and its double arguments. *)
Record msg := Msg { msg_fmt : String.string; msg_ints : list Z; msg_dbls : list R }.

Record steppers := MkSteppers {
  state : states;
  current_position : steppers_target;
  queue : list steppers_target;
  queue_len : Z;
  sdev : D;
  sout : list msg;
}.

Definition set_state x s := MkSteppers x (current_position s) (queue s) (queue_len s) (sdev s) (sout s).
Definition set_current_position x s := MkSteppers (state s) x (queue s) (queue_len s) (sdev s) (sout s).
Definition set_queue x s := MkSteppers (state s) (current_position s) x (queue_len s) (sdev s) (sout s).
Definition set_queue_len x s := MkSteppers (state s) (current_position s) (queue s) x (sdev s) (sout s).
Definition set_sdev x s := MkSteppers (state s) (current_position s) (queue s) (queue_len s) x (sout s).
Definition set_sout x s := MkSteppers (state s) (current_position s) (queue s) (queue_len s) (sdev s) x.

Definition set_t_x x t := Target (t_mode t) (t_dt t) x (t_v t).
Definition set_t_v x t := Target (t_mode t) (t_dt t) (t_x t) x.

Definition dev {A} (m : ST D A) : ST steppers A := zoom sdev set_sdev m.
Definition print (fmt : String.string) (ints : list Z) (dbls : list R) : ST steppers unit :=
  modify (λ s, set_sout (sout s ++ [Msg fmt ints dbls]) s).
Arguments print fmt%_string_scope ints dbls.

(** [XPAR_MOTION_X_BASEADDR] of the generated xparameters.h. *)
Context (base : Z).

(** ** The profile of a move *)

Local Open Scope num_scope.

Definition move_kb (dx v0 vn dt : R) : R := #3 * dx / (dt * dt) - (#2 * v0 + vn) / dt.
Definition move_ka (v0 vn dt kb : R) : R := (vn - v0) / (#3 * (dt * dt)) - (#2 * kb) / (#3 * dt).
Definition move_a (kb : R) : R := #2 * kb * #(Z.shiftl 1 STEP_BIT) / #STEP_FREQ / #ACC_FREQ.
Definition move_j (ka : R) : R := #6 * ka * #(Z.shiftl 1 STEP_BIT) / #STEP_FREQ / #ACC_FREQ / #ACC_FREQ.

Local Close Scope num_scope.

(** [queue[i] = queue[i + 1]] *)
Definition queue_shift (i : Z) : ST steppers unit :=
  q ← gets queue;
  x ← lift (arr_get q (i + 1));
  q' ← lift (arr_set q i x);
  modify (set_queue q').

(** Of the printed lines, the format and the values are recorded. The bytes that [sprintf] makes of them in [buf] are
    not modelled, and with them the bound of 500 bytes, which the source does not check. *)
Definition unqueue_move : ST steppers unit :=
  q ← gets queue;
  next_position ← lift (arr_get q 0);
  n ← gets queue_len;
  for_up 0 (n - 1) queue_shift;;
  modify (set_queue_len (n - 1));;
  let dt := t_dt next_position in
  cur ← gets current_position;
  nx ← lift (arr_get (t_x next_position) 0);
  cx ← lift (arr_get (t_x cur) 0);
  let dx := num_sub nx cx in
  v0 ← lift (arr_get (t_v cur) 0);
  vn ← lift (arr_get (t_v next_position) 0);
  let kb := move_kb dx v0 vn dt in
  let ka := move_ka v0 vn dt kb in
  print "dx: %f v0: %f vn: %f dt: %f ka: %f kb: %f\r\n" [] [dx; v0; vn; dt; ka; kb];;
  let a := move_a kb in
  let j := move_j ka in
  let dt := num_mul dt (num_of_Z ACC_FREQ) in
  idt ← lift (to_u32 dt);
  ia ← lift (to_s32 a);
  ij ← lift (to_s32 j);
  print "MOVE: dt: %ld a: %ld j: %ld\r\n" [idt; ia; ij] [];;
  dev (MOTION_SetSteps base idt);;
  dev (MOTION_SetA base ia);;
  dev (MOTION_SetJ base ij);;
  dev (MOTION_Start base);;
  modify (set_current_position next_position).

(** [current_position.x[0] = x], and the same for [v]. *)
Definition set_cur_x (x : R) : ST steppers unit :=
  cur ← gets current_position;
  xs ← lift (arr_set (t_x cur) 0 x);
  modify (set_current_position (set_t_x xs cur)).
Definition set_cur_v (v : R) : ST steppers unit :=
  cur ← gets current_position;
  vs ← lift (arr_set (t_v cur) 0 v);
  modify (set_current_position (set_t_v vs cur)).

Definition unqueue_stop : ST steppers unit :=
  print "STOP\r\n" [] [];;
  dev (MOTION_SetSteps base (ACC_FREQ / 10));;
  dev (MOTION_SetV base 0);;
  dev (MOTION_SetA base 0);;
  dev (MOTION_SetJ base 0);;
  dev (MOTION_Start base);;
  set_cur_v (num_of_Z 0).

Definition steppersMainLoop : ST steppers unit :=
  st ← gets state;
  match st with
  | STATE_OFF =>
      n ← gets queue_len;
      if bool_decide (0 < n) then
        print "INIT\r\n" [] [];;
        dev (MOTION_mWriteReg base MOTION_PRE_N_OFFSET 100);;
        dev (MOTION_mWriteReg base MOTION_PULSE_N_OFFSET 300);;
        dev (MOTION_mWriteReg base MOTION_POST_N_OFFSET 100);;
        dev (MOTION_mWriteReg base MOTION_STEP_BIT_OFFSET (Z.lor (s32 (Z.shiftl 1 31)) STEP_BIT));;
        dev (MOTION_SetDT base (STEP_FREQ / ACC_FREQ));;
        set_cur_x (num_of_Z 0);;
        set_cur_v (num_of_Z 0);;
        modify (set_state STATE_IDLE)
      else skip
  | STATE_IDLE =>
      n ← gets queue_len;
      if bool_decide (0 < n) then
        unqueue_move;;
        modify (set_state STATE_ACTIVE)
      else skip
  | STATE_ACTIVE =>
      tmp ← dev (MOTION_mReadReg base MOTION_CMD_OFFSET);
      if bool_decide (Z.land tmp 1 = 0) then
        n ← gets queue_len;
        if bool_decide (0 < n) then unqueue_move
        else
          tmp ← dev (MOTION_mReadReg base MOTION_STAT_STATUS_OFFSET);
          if bool_decide (Z.land tmp 1 = 1) then
            print "done\r\n" [] [];;
            unqueue_stop;;
            modify (set_state STATE_STOPPING)
          else skip
      else skip
  | STATE_STOPPING =>
      tmp ← dev (MOTION_mReadReg base MOTION_CMD_OFFSET);
      if bool_decide (Z.land tmp 1 = 0) then
        tmp ← dev (MOTION_mReadReg base MOTION_STAT_STATUS_OFFSET);
        if bool_decide (Z.land tmp 1 = 1) then
          modify (set_state STATE_IDLE);;
          print "IDLE\r\n" [] []
        else skip
      else skip
  | STATE_DELAY => skip
  end.

(** The value is [None] where the function ends without a [return]. *)
Definition steppersQueue (target : steppers_target) : ST steppers (option Z) :=
  n ← gets queue_len;
  if bool_decide (QUEUE_LEN <= n) then mret (Some (-1)) else
  print "add to queue\r\n" [] [];;
  q ← gets queue;
  q' ← lift (arr_set q n target);
  modify (set_queue q');;
  modify (set_queue_len (n + 1));;
  mret None.

Definition steppersReset : ST steppers unit :=
  modify (set_queue_len 0);;
  modify (set_state STATE_OFF);;
  set_cur_x (num_of_Z 0);;
  set_cur_v (num_of_Z 0);;
  dev (MOTION_mReset base).

(** Read a register and print it. *)
Definition print_reg (off : Z) (fmt : String.string) : ST steppers unit :=
  val ← dev (MOTION_mReadReg base off);
  print fmt [val] [].
Arguments print_reg off fmt%_string_scope.

Definition steppersStatus : ST steppers unit :=
  print_reg MOTION_CMD_OFFSET "CMD: %08lx\r\n";;
  print_reg MOTION_STAT_STATUS_OFFSET "STATUS: %08lx\r\n";;
  print_reg MOTION_STAT_DT_OFFSET "DT: %10ld    ";;
  print_reg MOTION_STAT_STEPS_OFFSET "STEPS: %7ld\r\n";;
  print_reg MOTION_STAT_XL_OFFSET "XL: %08lx\r\n";;
  val ← dev (MOTION_mReadReg base MOTION_STAT_XH_OFFSET);
  print "X:  %10ld    " [Z.shiftr (s32 val) (STEP_BIT - 32)] [];;
  print_reg MOTION_STAT_V_OFFSET "V:  %10ld\r\n";;
  print_reg MOTION_STAT_A_OFFSET "A:  %10ld    ";;
  print_reg MOTION_STAT_J_OFFSET "J:  %10ld\r\n".
End steppers.

Arguments steppers_target : clear implicits.
Arguments steppers : clear implicits.
Arguments msg : clear implicits.

(** ** The profile is the cubic through the target

    In exact arithmetic, the coefficients define the cubic
    [x(t) = v0 t + kb t^2 + ka t^3] that starts with velocity [v0] and reaches
    the displacement [dx] with velocity [vn] at time [dt]. *)

Section profile.
Local Existing Instance exact.

Lemma exact_of_Z z : num_of_Z z = Q2Qc (QArith_base.inject_Z z).
Proof. done. Qed.

Lemma exact_3 : num_of_Z 3 = (1 + (1 + 1))%Qc.
Proof. by apply Qc_is_canon. Qed.
Lemma exact_2 : num_of_Z 2 = (1 + 1)%Qc.
Proof. by apply Qc_is_canon. Qed.
Lemma exact_6 : num_of_Z 6 = ((1 + 1) * (1 + (1 + 1)))%Qc.
Proof. by apply Qc_is_canon. Qed.
Lemma three_nonzero : (1 + (1 + 1))%Qc ≠ 0%Qc.
Proof. done. Qed.

Lemma profile_velocity (dx v0 vn dt : Qc) :
  dt ≠ 0%Qc ->
  let kb := move_kb dx v0 vn dt in
  let ka := move_ka v0 vn dt kb in
  (v0 + (1 + 1) * kb * dt + (1 + (1 + 1)) * ka * (dt * dt))%Qc = vn.
Proof.
  intros Hdt kb ka. unfold ka, kb, move_ka, move_kb. rewrite exact_3, exact_2. simpl.
  field. split; [done|apply three_nonzero].
Qed.

Lemma profile_position (dx v0 vn dt : Qc) :
  dt ≠ 0%Qc ->
  let kb := move_kb dx v0 vn dt in
  let ka := move_ka v0 vn dt kb in
  (v0 * dt + kb * (dt * dt) + ka * (dt * dt * dt))%Qc = dx.
Proof.
  intros Hdt kb ka. unfold ka, kb, move_ka, move_kb. rewrite exact_3, exact_2. simpl.
  field. split; [done|apply three_nonzero].
Qed.
End profile.

(** The scale of the core's velocity register: [2^STEP_BIT] per step, at
    [STEP_FREQ] cycles per second. *)
Definition velocity_scale : Qc :=
  (Q2Qc (QArith_base.inject_Z (Z.shiftl 1 STEP_BIT)) / Q2Qc (QArith_base.inject_Z STEP_FREQ))%Qc.

Lemma discrete_velocity (dx v0 vn dt : Qc) :
  dt ≠ 0%Qc ->
  let kb := @move_kb _ exact dx v0 vn dt in
  let ka := @move_ka _ exact v0 vn dt kb in
  let a := @move_a _ exact kb in
  let j := @move_j _ exact ka in
  let n := (dt * Q2Qc (QArith_base.inject_Z ACC_FREQ))%Qc in
  (v0 * velocity_scale + n * a + n * (n - 1) / (1 + 1) * j)%Qc =
    (vn * velocity_scale - n * j / (1 + 1))%Qc.
Proof.
  intros Hdt kb ka a j n. pose proof (profile_velocity dx v0 vn dt Hdt) as Hv.
  fold kb in Hv. fold ka in Hv. cbv zeta in Hv. fold kb ka in Hv. rewrite <- Hv. clear Hv.
  unfold a, j, n, move_a, move_j, velocity_scale. rewrite (exact_of_Z 6), (exact_of_Z 2).
  change (Q2Qc (QArith_base.inject_Z 6)) with (@num_of_Z _ exact 6).
  change (Q2Qc (QArith_base.inject_Z 2)) with (@num_of_Z _ exact 2).
  rewrite exact_6, exact_2, !exact_of_Z. simpl num_mul. simpl num_div.
  generalize (Q2Qc (QArith_base.inject_Z (Z.shiftl 1 STEP_BIT))). intros b.
  assert (Q2Qc (QArith_base.inject_Z STEP_FREQ) ≠ 0%Qc) as Hf by done.
  assert (Q2Qc (QArith_base.inject_Z ACC_FREQ) ≠ 0%Qc) as Hac by done.
  revert Hf Hac. generalize (Q2Qc (QArith_base.inject_Z STEP_FREQ)).
  generalize (Q2Qc (QArith_base.inject_Z ACC_FREQ)). intros ac f Hf Hac.
  clearbody ka kb. field. split_and!; done.
Qed.

(** ** The queue *)

Definition target_ok {R} (t : steppers_target R) : Prop :=
  length (t_x t) = 5%nat ∧ length (t_v t) = 5%nat.

Section queue_proofs.
Context {R D : Type} `{Num R} `{Bus D}.
Implicit Types (s : steppers R D) (l : list (steppers_target R)).

(** The queue holds the targets [l]. *)
Record qrel l s : Prop := {
  q_size : length (queue s) = 10%nat;
  q_len : queue_len s = Z.of_nat (length l);
  q_max : (length l <= 10)%nat;
  q_abs : take (length l) (queue s) = l;
}.

Lemma qrel_frame l s s' :
  queue s' = queue s -> queue_len s' = queue_len s -> qrel l s -> qrel l s'.
Proof. intros E1 E2 []. constructor; rewrite ?E1, ?E2; auto. Qed.

Lemma wp_queue_shift t l junk s (Q : unit -> steppers R D -> Prop) :
  queue s = t :: l ++ junk ->
  (forall y, Q tt (set_queue (l ++ y :: junk) s)) ->
  wp (for_up 0 (Z.of_nat (length l)) queue_shift) s Q.
Proof.
  intros Hq HQ.
  apply (wp_for_up _ _ _ (λ i s', exists y, s' = set_queue (take (Z.to_nat i) l ++ y :: drop (Z.to_nat i) l ++ junk) s)).
  - lia.
  - exists t. destruct s. simpl in *. by subst.
  - intros i s1 Hi [y ->]. unfold queue_shift. wp_steps. simpl.
    destruct (lookup_lt_is_Some_2 l (Z.to_nat i)) as [z Hz]; [lia|].
    rewrite (drop_S _ _ _ Hz). simpl.
    eapply wp_lift.
    { rewrite (cons_middle y), app_assoc. apply (arr_get_middle (take (Z.to_nat i) l ++ [y])). len. }
    wp_steps. eapply wp_lift; [apply arr_set_middle; len|]. wp_steps. exists z. unfold set_queue. simpl.
    replace (Z.to_nat (i + 1)) with (S (Z.to_nat i)) by lia.
    rewrite (take_S_r _ _ _ Hz), <- app_assoc. done.
  - intros s1 [y ->]. rewrite Nat2Z.id, take_ge, drop_ge by lia. apply HQ.
Qed.

Lemma queue_spec l t s :
  qrel l s ->
  wp (steppersQueue t) s (λ r s',
    if decide (length l < 10)%nat
    then r = None ∧ qrel (l ++ [t]) s' ∧ state s' = state s ∧ sdev s' = sdev s ∧
         current_position s' = current_position s
    else r = Some (-1) ∧ s' = s).
Proof.
  intros [Hs Hl Hm Ha]. unfold steppersQueue. wp_pure. rewrite Hl. unfold QUEUE_LEN.
  case_bool_decide as Hb.
  { wp_steps. by rewrite decide_False by lia. }
  unfold print. wp_steps. simpl.
  eapply wp_lift; [apply arr_set_in; lia|]. wp_steps. rewrite decide_True by lia. split_and!; try done.
  constructor; simpl; try len. rewrite Nat2Z.id, length_app. simpl.
  rewrite Nat.add_1_r, (take_S_r _ _ t); [|by rewrite list_lookup_insert_eq by lia].
  by rewrite take_insert_ge, Ha by lia.
Qed.
End queue_proofs.

(** ** The state machine on the motion core *)

Section on_core.
Context {R : Type} `{Num R} (base : Z).
Local Instance steppers_bus : Bus bus_core := core_bus base.
Abbreviation S := (steppers R bus_core).
Implicit Types (s : S) (t : steppers_target R).

(** The register values of the move from [cur] to [t], where the conversions
    are defined. *)
Definition move_params (cur t : steppers_target R) : option (Z * Z * Z) :=
  nx ← arr_get (t_x t) 0;
  cx ← arr_get (t_x cur) 0;
  v0 ← arr_get (t_v cur) 0;
  vn ← arr_get (t_v t) 0;
  let kb := move_kb (num_sub nx cx) v0 vn (t_dt t) in
  let ka := move_ka v0 vn (t_dt t) kb in
  n ← to_u32 (num_mul (t_dt t) (num_of_Z ACC_FREQ));
  a ← to_s32 (move_a kb);
  j ← to_s32 (move_j ka);
  Some (n, a, j).

Lemma wp_dev {A} (m : ST bus_core A) s (Q : A -> S -> Prop) :
  wp m (sdev s) (λ a d, Q a (set_sdev d s)) -> wp (dev m) s Q.
Proof. apply wp_zoom. Qed.

(** The registers that a move programs: the start bit, the bits that load
    acceleration and jerk, and their values. *)
Definition programmed (cmd : Z) (r : list Z) (n a j : Z) : list Z :=
  Z.lor (Z.lor (Z.lor cmd 8) 16) 1 :: <[6%nat := u32 n]> (<[3%nat := u32 a]> (<[4%nat := u32 j]> r)).

Lemma quiet_lor2 cmd m l l' : quiet (cmd :: l) -> Z.testbit m 0 = false -> quiet (Z.lor cmd m :: l').
Proof. intros (? & ? & [= <- <-] & Hb) Hm. by apply quiet_lor. Qed.

Lemma wp_program cmd r n a j s k (Q : unit -> S -> Prop) :
  holds (cmd :: r) (sdev s) -> quiet (cmd :: r) -> is_u32 cmd ->
  (forall d', holds (programmed cmd r n a j) d' -> wp k (set_sdev d' s) Q) ->
  wp (dev (MOTION_SetSteps base n);; dev (MOTION_SetA base a);; dev (MOTION_SetJ base j);;
      dev (MOTION_Start base);; k) s Q.
Proof.
  intros Hh Hq Hc HQ. apply wp_bind, wp_dev. eapply wp_SetSteps; [done|done|]. intros d1 H1. simpl in H1.
  apply wp_bind, wp_dev. eapply wp_SetA; [exact H1|by eapply quiet_cons|done|]. intros d2 H2.
  apply wp_bind, wp_dev.
  eapply wp_SetJ; [exact H2|by eapply quiet_lor2|apply u32_lor; [done|cint]|]. intros d3 H3.
  apply wp_bind, wp_dev. eapply wp_Start;
    [exact H3|eapply (quiet_lor2 _ _ r); [by eapply quiet_lor2|done]|repeat (apply u32_lor; [|cint]); done|].
  intros d4 H4. apply HQ. unfold holds, programmed in *. rewrite H4. f_equal.
  rewrite (list_insert_insert_ne _ 4 3) by lia. rewrite (list_insert_insert_ne _ 4 6) by lia.
  by rewrite (list_insert_insert_ne _ 3 6) by lia.
Qed.

Lemma unqueue_move_spec t l s cmd r n a j :
  qrel (t :: l) s -> move_params (current_position s) t = Some (n, a, j) ->
  holds (cmd :: r) (sdev s) -> quiet (cmd :: r) -> is_u32 cmd ->
  wp (unqueue_move base) s (λ _ s', qrel l s' ∧ current_position s' = t ∧ state s' = state s ∧
    holds (programmed cmd r n a j) (sdev s')).
Proof.
  intros [Hsz Hlen Hmax Habs] Hp Hh Hq Hc. unfold unqueue_move. wp_pure. simpl in *.
  assert (exists junk, queue s = t :: l ++ junk) as [junk Hqu].
  { exists (drop (Datatypes.S (length l)) (queue s)).
    rewrite <- (take_drop (Datatypes.S (length l)) (queue s)) at 1. by rewrite Habs. }
  apply wp_bind. eapply wp_lift; [by rewrite Hqu|]. wp_pure. apply wp_bind.
  rewrite Hlen. replace (Z.of_nat (Datatypes.S (length l)) - 1) with (Z.of_nat (length l)) by lia.
  eapply wp_queue_shift; [exact Hqu|]. intros y. wp_pure. simpl.
  apply bind_Some in Hp as (nx & Hnx & Hp). apply bind_Some in Hp as (cx & Hcx & Hp).
  apply bind_Some in Hp as (v0 & Hv0 & Hp). apply bind_Some in Hp as (vn & Hvn & Hp).
  apply bind_Some in Hp as (n' & Hn & Hp). apply bind_Some in Hp as (a' & Ha & Hp).
  apply bind_Some in Hp as (j' & Hj & [= -> -> ->]).
  do 4 (apply wp_bind; eapply wp_lift; [eassumption|]). unfold print. wp_pure.
  do 3 (apply wp_bind; eapply wp_lift; [eassumption|]). wp_pure.
  eapply wp_program; [exact Hh|done|done|]. intros d' Hd'. wp_steps.
  split_and!; simpl; [|done..|exact Hd'].
  rewrite Hqu in Hsz. constructor; simpl; [len|done|lia|]. by rewrite take_app_length.
Qed.

(** The core has been asked to stand still for a tenth of a second. *)
Definition stop_pending (c : core) : Prop :=
  Z.testbit (reg_cmd c) 0 = true ∧ reg_next_steps c = ACC_FREQ / 10 ∧ load_v c = 0 ∧ load_a c = 0 ∧ load_j c = 0.

Lemma unqueue_stop_spec s cmd r :
  target_ok (current_position s) -> holds (cmd :: r) (sdev s) -> quiet (cmd :: r) -> is_u32 cmd ->
  wp (unqueue_stop base) s (λ _ s', queue s' = queue s ∧ queue_len s' = queue_len s ∧
    target_ok (current_position s') ∧ arr_get (t_v (current_position s')) 0 = Some (num_of_Z 0) ∧
    cmd_ok (bc_core (sdev s')) ∧ stop_pending (bc_core (sdev s'))).
Proof.
  intros [Hx Hv] Hh Hq Hc. unfold unqueue_stop, print, set_cur_v. wp_pure.
  apply wp_bind, wp_dev. eapply wp_SetSteps; [done|done|]. intros d1 H1. simpl in H1.
  apply wp_bind, wp_dev. eapply wp_SetV; [exact H1|by eapply quiet_cons|done|]. intros d2 H2.
  apply wp_bind, wp_dev.
  eapply wp_SetA; [exact H2|by eapply quiet_lor2|apply u32_lor; [done|cint]|]. intros d3 H3.
  apply wp_bind, wp_dev. eapply wp_SetJ;
    [exact H3|eapply (quiet_lor2 _ _ r); [by eapply quiet_lor2|done]|repeat (apply u32_lor; [|cint]); done|].
  intros d4 H4. apply wp_bind, wp_dev. eapply wp_Start;
    [exact H4|eapply (quiet_lor2 _ _ r); [eapply (quiet_lor2 _ _ r); [by eapply quiet_lor2|done]|done]
    |repeat (apply u32_lor; [|cint]); done|].
  intros d5 H5. wp_pure. simpl. apply wp_bind.
  eapply wp_lift; [apply arr_set_in; rewrite Hv; lia|]. wp_steps.
  unfold target_ok. simpl. rewrite length_insert.
  assert (exists xl xh v a j p q r', r = xl :: xh :: v :: a :: j :: p :: q :: r') as (xl & xh & v & a & j & p & q & r' & ->).
  { unfold holds, regs in Hh. injection Hh as _ <-. by repeat eexists. }
  unfold holds, regs in H5. simpl in H5. injection H5 as Hcmd _ _ Hrv Hra Hrj _ Hrn _.
  unfold stop_pending, load_v, load_a, load_j. rewrite Hcmd, Hrv, Hra, Hrj, Hrn, !Z.lor_spec.
  assert (arr_get (<[Z.to_nat 0:=num_of_Z 0]> (t_v (current_position s))) 0 = Some (num_of_Z 0)) as Hg
    by (rewrite arr_get_lookup by lia; apply list_lookup_insert_eq; lia).
  split_and!; try done; try (rewrite ?orb_true_r; done).
  right. rewrite Hcmd. split; [repeat (apply u32_lor; [|cint]); done|].
  by rewrite Z.lor_spec, orb_true_r.
Qed.

(** The invariant of the component; [l] are the queued targets. *)
Record inv (l : list (steppers_target R)) (s : S) : Prop := {
  i_queue : qrel l s;
  i_targets : Forall target_ok l;
  i_cur : target_ok (current_position s);
  i_cmd : cmd_ok (bc_core (sdev s));
  i_idle : state s = STATE_OFF ∨ state s = STATE_IDLE -> reg_cmd (bc_core (sdev s)) = 0;
  i_state : state s ≠ STATE_DELAY;
}.

(** The core has been asked for a move of [n] steps with acceleration [a]
    and jerk [j] from its current position and velocity. *)
Definition move_pending (n a j : Z) (c : core) : Prop :=
  reg_cmd c = Z.lor (Z.lor MOTION_CMD_START_MASK MOTION_CMD_SET_A_MASK) MOTION_CMD_SET_J_MASK ∧
  reg_next_steps c = n ∧ load_v c = pv c ∧ load_a c = a ∧ load_j c = j.

Lemma programmed_pending c0 n a j d :
  reg_cmd c0 = 0 -> is_u32 n -> - 2^31 <= a < 2^31 -> - 2^31 <= j < 2^31 ->
  holds (programmed 0 (tail (regs c0)) n a j) d -> move_pending n a j (bc_core d).
Proof.
  intros Hc Hn Ha Hj Hh. unfold holds, programmed, regs in Hh. simpl in Hh.
  injection Hh as Hcmd _ _ _ Hra Hrj _ Hs _ _ _ _.
  unfold move_pending, load_v, load_a, load_j. rewrite Hcmd, Hs, Hra, Hrj. simpl.
  rewrite !s32_u32, !s32_small, u32_small by done. done.
Qed.

Lemma move_params_range cur t n a j :
  move_params cur t = Some (n, a, j) -> is_u32 n ∧ - 2^31 <= a < 2^31 ∧ - 2^31 <= j < 2^31.
Proof.
  intros Hp. do 4 apply bind_Some in Hp as (? & _ & Hp).
  apply bind_Some in Hp as (? & Hn & Hp). apply bind_Some in Hp as (? & Ha & Hp).
  apply bind_Some in Hp as (? & Hj & [= -> -> ->]).
  by apply to_range_Some in Hn, Ha, Hj.
Qed.

(** What one polling does, with [l] in the queue. *)
Inductive polled (l : list (steppers_target R)) (s s' : S) : Prop :=
  | polled_init :
      state s = STATE_OFF -> l ≠ [] -> state s' = STATE_IDLE -> inv l s' -> polled l s s'
  | polled_move t l' n a j :
      (* the first target becomes the move that the core executes next *)
      (state s = STATE_IDLE ∨ state s = STATE_ACTIVE) -> l = t :: l' -> move_params (current_position s) t = Some (n, a, j) ->
      state s' = STATE_ACTIVE -> inv l' s' -> current_position s' = t -> move_pending n a j (bc_core (sdev s')) -> polled l s s'
  | polled_stop k :
      (* the last move is finished *)
      state s = STATE_ACTIVE -> l = [] -> at_rest (ticks k (bc_core (sdev s))) ->
      state s' = STATE_STOPPING -> inv l s' -> stop_pending (bc_core (sdev s')) -> polled l s s'
  | polled_idle k :
      state s = STATE_STOPPING -> at_rest (ticks k (bc_core (sdev s))) ->
      state s' = STATE_IDLE -> inv l s' -> current_position s' = current_position s -> polled l s s'
  | polled_wait :
      match state s with
      | STATE_OFF | STATE_IDLE => l = []
      | STATE_ACTIVE => if decide (l = []) then ~ at_rest (bc_core (sdev s)) else reg_cmd (bc_core (sdev s)) ≠ 0
      | STATE_STOPPING => ~ at_rest (bc_core (sdev s))
      | STATE_DELAY => False
      end -> state s' = state s -> inv l s' -> current_position s' = current_position s -> polled l s s'.

Definition head_defined (l : list (steppers_target R)) (s : S) : Prop :=
  match l with [] => True | t :: _ => is_Some (move_params (current_position s) t) end.

Lemma inv_frame l s s' :
  queue s' = queue s -> queue_len s' = queue_len s -> current_position s' = current_position s ->
  cmd_ok (bc_core (sdev s')) -> state s' ≠ STATE_DELAY ->
  (state s' = STATE_OFF ∨ state s' = STATE_IDLE -> reg_cmd (bc_core (sdev s')) = 0) ->
  inv l s -> inv l s'.
Proof.
  intros E1 E2 E3 Hc Hs Hi []. constructor; auto; [by eapply qrel_frame|by rewrite E3].
Qed.

Lemma regs_cons c : regs c = reg_cmd c :: tail (regs c).
Proof. done. Qed.

(** Taking the next target, when the core is idle. *)
Lemma take_move_spec t l s :
  inv (t :: l) s -> head_defined (t :: l) s -> reg_cmd (bc_core (sdev s)) = 0 ->
  wp (unqueue_move base) s (λ _ s', state s' = state s ∧ current_position s' = t ∧ inv l (set_state STATE_ACTIVE s') ∧
    exists n a j, move_params (current_position s) t = Some (n, a, j) ∧ move_pending n a j (bc_core (sdev s'))).
Proof.
  intros [Hq Ht Hcur Hcmd Hid Hst] [[[n a] j] Hp] Hc. destruct (move_params_range _ _ _ _ _ Hp) as (Hn & Ha & Hj).
  apply Forall_cons_iff in Ht as [Ht Hl].
  eapply wp_mono; [eapply (unqueue_move_spec t l s 0 (tail (regs (bc_core (sdev s))))); [exact Hq|exact Hp| | |cint]|].
  { unfold holds. by rewrite regs_cons, Hc. }
  { by eexists _, _. }
  intros [] s' (Hq' & Hcp & Hs' & Hh'). pose proof (programmed_pending _ _ _ _ _ Hc Hn Ha Hj Hh') as Hm.
  split_and!; [done|done| |by exists n, a, j].
  constructor; simpl; try done; [by eapply qrel_frame; [..|exact Hq']|by rewrite Hcp| |naive_solver].
  right. destruct Hm as [-> _]. done.
Qed.

Lemma wp_write_any i data s k (Q : unit -> S -> Prop) :
  reg_cmd (bc_core (sdev s)) = 0 -> (i < 11)%nat ->
  (forall d', reg_cmd (bc_core d') = 0 -> wp k (set_sdev d' s) Q) ->
  wp (dev (MOTION_mWriteReg base (4 * Z.of_nat (Datatypes.S i)) data);; k) s Q.
Proof.
  intros Hc Hi HQ. apply wp_bind, wp_dev.
  eapply (wp_write_reg _ (Datatypes.S i)); [reflexivity|by apply idle_quiet|lia|].
  intros d' Hd'. apply HQ. rewrite regs_cons, Hc in Hd'. unfold holds in Hd'. rewrite regs_cons in Hd'.
  by injection Hd' as ->.
Qed.

Lemma wp_set_cur (f : R -> ST S unit) x s (Q : unit -> S -> Prop) :
  f = set_cur_x ∨ f = set_cur_v -> target_ok (current_position s) ->
  (forall t, target_ok t -> Q tt (set_current_position t s)) -> wp (f x) s Q.
Proof.
  intros Hf [Hx Hv] HQ. destruct Hf as [-> | ->]; unfold set_cur_x, set_cur_v; wp_steps.
  - eapply wp_lift; [apply arr_set_in; rewrite Hx; lia|]. wp_steps. apply HQ. split; simpl; [len|done].
  - eapply wp_lift; [apply arr_set_in; rewrite Hv; lia|]. wp_steps. apply HQ. split; simpl; [done|len].
Qed.

Lemma main_loop_off l s :
  inv l s -> state s = STATE_OFF -> wp (steppersMainLoop base) s (λ _ s', polled l s s').
Proof.
  intros Hi Hs. pose proof Hi as [Hq Ht Hcur Hcmd Hid Hst]. unfold steppersMainLoop. wp_pure. rewrite Hs. wp_pure. rewrite (q_len _ _ Hq).
  case_bool_decide as Hl; [|wp_steps; apply polled_wait; rewrite ?Hs; try done; destruct l; [done|simpl in Hl; lia]].
  unfold print. wp_pure. specialize (Hid (or_introl Hs)).
  apply (wp_write_any 7); [done|lia|]. intros d1 H1.
  apply (wp_write_any 8); [done|lia|]. intros d2 H2.
  apply (wp_write_any 9); [done|lia|]. intros d3 H3.
  apply (wp_write_any 10); [done|lia|]. intros d4 H4.
  apply (wp_write_any 5); [done|lia|]. intros d5 H5.
  apply wp_bind, wp_set_cur; [by left|done|]. intros t1 Ht1. apply wp_bind, wp_set_cur; [by right|done|].
  intros t2 Ht2. wp_steps. apply polled_init; [done|by intros ->|done|].
  constructor; simpl; auto; [by eapply qrel_frame; [..|exact Hq]|by left].
Qed.

(** Taking a move keeps the state ACTIVE or enters it. *)
Lemma polled_take l s s0 :
  inv l s -> head_defined l s -> l ≠ [] -> state s = STATE_IDLE ∨ state s = STATE_ACTIVE ->
  queue s0 = queue s -> queue_len s0 = queue_len s -> current_position s0 = current_position s -> state s0 = state s ->
  reg_cmd (bc_core (sdev s0)) = 0 ->
  wp (unqueue_move base) s0 (λ _ s', state s' = state s ∧ polled l s (set_state STATE_ACTIVE s')).
Proof.
  intros Hi Hd Hne Hs E1 E2 E3 E4 Hc. destruct l as [|t l]; [done|].
  assert (inv (t :: l) s0) as Hi0 by (eapply inv_frame; [..|exact Hi]; try done; [by left|rewrite E4; by destruct Hs as [-> | ->]]).
  eapply wp_mono; [apply (take_move_spec t l s0 Hi0); [|done]|].
  { unfold head_defined. by rewrite E3. }
  intros [] s' (Hs' & Hcp & Hi' & n & a & j & Hp & Hm). rewrite E3 in Hp. split; [congruence|].
  by eapply (polled_move _ _ _ t l n a j).
Qed.

Lemma main_loop_active l s :
  inv l s -> head_defined l s -> state s = STATE_ACTIVE ->
  wp (steppersMainLoop base) s (λ _ s', polled l s s').
Proof.
  intros Hi Hd Hs. pose proof Hi as [Hq Ht Hcur Hcmd Hid Hst]. unfold steppersMainLoop. wp_pure. rewrite Hs.
  apply wp_bind, wp_dev. apply wp_poll_cmd; [done|]. intros k cmd d1 Hd1 Hc1 H0.
  assert (forall d, cmd_ok (bc_core d) -> inv l (set_sdev d s)) as Hi1.
  { intros d Hc. eapply inv_frame; [..|exact Hi]; simpl; rewrite ?Hs; try done. by intros []. }
  case_bool_decide as Hb.
  2: { wp_steps. apply polled_wait; [|done|auto|done]. rewrite Hs. case_decide; [by intros []|done]. }
  wp_pure. simpl. rewrite (q_len _ _ Hq). destruct H0 as [Hk Hz].
  case_bool_decide as Hl.
  { eapply wp_mono; [apply (polled_take l s (set_sdev d1 s)); try done; [by intros ->|by right]|].
    intros [] s' [Hs' Hp]. assert (set_state STATE_ACTIVE s' = s') as E; [|rewrite E in Hp; exact Hp].
    rewrite Hs in Hs'. destruct s'. simpl in Hs'. by subst. }
  assert (l = []) as -> by (destruct l; [done|simpl in Hl; lia]).
  apply wp_bind, wp_dev. apply wp_read_status. intros k2 b d2 Hd2 Hb2.
  cbn [sdev set_sdev] in *. rewrite Hd1, ticks_add in *. assert (reg_cmd (bc_core d2) = 0) as Hc2.
  { rewrite Hd2, <- ticks_add. by apply idle_ticks. }
  destruct b.
  2: { rewrite bool_decide_eq_false_2 by done. wp_steps. apply polled_wait; [|done|apply Hi1; by left|done]. rewrite Hs, decide_True by done. intros Hr. destruct (rest_ticks (k2 + Datatypes.S k) _ Hr) as [_ Hr']. congruence. }
  rewrite bool_decide_eq_true_2 by done. unfold print. wp_steps.
  eapply wp_mono; [eapply (unqueue_stop_spec _ 0 (tail (regs (bc_core d2)))); [done| | |cint]|].
  { unfold holds. simpl. by rewrite regs_cons, Hc2. }
  { by eexists _, _. }
  intros [] s' (E1 & E2 & Ht' & _ & Hc' & Hst'). wp_steps. eapply polled_stop; [done|done|split; [|exact Hb2]|done| |done].
  - rewrite <- ticks_add. by apply idle_ticks.
  - constructor; simpl; auto; [by eapply qrel_frame; [..|exact Hq]|naive_solver].
Qed.

Lemma main_loop_stopping l s :
  inv l s -> state s = STATE_STOPPING -> wp (steppersMainLoop base) s (λ _ s', polled l s s').
Proof.
  intros Hi Hs. pose proof Hi as [Hq Ht Hcur Hcmd Hid Hst]. unfold steppersMainLoop. wp_pure. rewrite Hs.
  apply wp_bind, wp_dev. apply wp_poll_cmd; [done|]. intros k cmd d1 Hd1 Hc1 H0.
  assert (forall d, cmd_ok (bc_core d) -> inv l (set_sdev d s)) as Hi1.
  { intros d Hc. eapply inv_frame; [..|exact Hi]; simpl; rewrite ?Hs; try done. by intros []. }
  case_bool_decide as Hb.
  2: { wp_steps. apply polled_wait; [|done|auto|done]. rewrite Hs. by intros []. }
  destruct H0 as [Hk Hz]. apply wp_bind, wp_dev. apply wp_read_status. intros k2 b d2 Hd2 Hb2.
  cbn [sdev set_sdev] in *. rewrite Hd1, ticks_add in *. assert (reg_cmd (bc_core d2) = 0) as Hc2.
  { rewrite Hd2, <- ticks_add. by apply idle_ticks. }
  destruct b.
  - rewrite bool_decide_eq_true_2 by done. unfold print. wp_steps. eapply polled_idle; [done|split; [|exact Hb2]|done| |done].
    + rewrite <- ticks_add. by apply idle_ticks.
    + eapply inv_frame; [..|exact Hi]; simpl; try done. by left.
  - rewrite bool_decide_eq_false_2 by done. wp_steps. apply polled_wait; [|done|apply Hi1; by left|done].
    rewrite Hs. intros Hr. destruct (rest_ticks (k2 + Datatypes.S k) _ Hr) as [_ Hr']. congruence.
Qed.

Lemma main_loop_spec l s :
  inv l s -> head_defined l s -> wp (steppersMainLoop base) s (λ _ s', polled l s s').
Proof.
  intros Hi Hd. destruct (state s) eqn:Hs; [by apply main_loop_off| |by apply main_loop_active|by destruct (i_state _ _ Hi)|by apply main_loop_stopping].
  pose proof Hi as [Hq _ _ _ Hid _]. unfold steppersMainLoop. wp_pure. rewrite Hs. wp_pure. rewrite (q_len _ _ Hq).
  case_bool_decide as Hl; [|wp_steps; apply polled_wait; rewrite ?Hs; try done; destruct l; [done|simpl in Hl; lia]].
  apply wp_bind. eapply wp_mono; [apply (polled_take l s s); auto; by intros ->|]. intros [] s' [_ Hs']. by wp_steps.
Qed.

Lemma queue_inv l t s :
  inv l s -> target_ok t ->
  wp (steppersQueue t) s (λ r s', inv (if decide (length l < 10)%nat then l ++ [t] else l) s').
Proof.
  intros [Hq Ht Hcur Hcmd Hid Hst] Htt. eapply wp_mono; [by apply queue_spec|]. intros r s' Hs'.
  case_decide; [|by destruct Hs' as [_ ->]].
  destruct Hs' as (_ & Hq' & E1 & E2 & E3). constructor; rewrite ?E1, ?E2, ?E3; auto.
  apply Forall_app; auto.
Qed.

Lemma reset_inv l s :
  inv l s -> wp (steppersReset base) s (λ _ s', inv [] s' ∧ bc_core (sdev s') = core_reset).
Proof.
  intros [Hq Ht Hcur Hcmd Hid Hst]. unfold steppersReset. wp_pure.
  apply wp_bind, wp_set_cur; [by left|done|]. intros t1 Ht1. apply wp_bind, wp_set_cur; [by right|done|].
  intros t2 Ht2. apply wp_dev, wp_Reset. intros d' Hd'. split; [|done].
  constructor; simpl; rewrite ?Hd'; auto; [|by left].
  constructor; simpl; auto; [apply Hq|lia].
Qed.
End on_core.

(** ** Undefined conversions *)

(** Infinities and NaN, which have no integer value. *)
Definition not_finite (f : spec_float) : Prop := b64_trunc f = None.

Lemma not_finite_cases f : not_finite f <-> f = S754_nan ∨ exists b, f = S754_infinity b.
Proof.
  unfold not_finite. split.
  - destruct f; simpl; try done; eauto.
  - by intros [-> |[b ->]].
Qed.

Lemma div_zero_not_finite f b : not_finite (@num_div _ b64 f (S754_zero b)).
Proof. by destruct f. Qed.

Lemma sub_not_finite f g :
  not_finite f -> not_finite g -> not_finite (@num_sub _ b64 f g).
Proof.
  intros [-> |[b ->]]%not_finite_cases [-> |[c ->]]%not_finite_cases; try done. by destruct b, c.
Qed.

Lemma mul_not_finite m e f :
  not_finite f -> not_finite (@num_mul _ b64 (S754_finite false m e) f).
Proof. by intros [-> |[b ->]]%not_finite_cases. Qed.

Lemma mul_not_finite_r m e f :
  not_finite f -> not_finite (@num_mul _ b64 f (S754_finite false m e)).
Proof. by intros [-> |[b ->]]%not_finite_cases. Qed.

Lemma div_not_finite m e f :
  not_finite f -> not_finite (@num_div _ b64 f (S754_finite false m e)).
Proof. by intros [-> |[b ->]]%not_finite_cases. Qed.

Lemma move_a_zero_dt dx v0 vn b :
  @to_s32 _ b64 (@move_a _ b64 (@move_kb _ b64 dx v0 vn (S754_zero b))) = None.
Proof.
  assert (not_finite (@move_kb _ b64 dx v0 vn (S754_zero b))) as Hkb.
  { apply sub_not_finite; [|apply div_zero_not_finite].
    change (@num_mul _ b64 (S754_zero b) (S754_zero b)) with (S754_zero (xorb b b)).
    apply div_zero_not_finite. }
  assert (not_finite (@move_a _ b64 (@move_kb _ b64 dx v0 vn (S754_zero b)))) as Ha.
  { unfold move_a. change (@num_of_Z _ b64 2) with (S754_finite false 4503599627370496 (-51)).
    change (@num_of_Z _ b64 (Z.shiftl 1 STEP_BIT)) with (S754_finite false 4503599627370496 (-12)).
    change (@num_of_Z _ b64 STEP_FREQ) with (S754_finite false 6710886400000000 (-26)).
    change (@num_of_Z _ b64 ACC_FREQ) with (S754_finite false 8796093022208000 (-45)).
    by apply div_not_finite, div_not_finite, mul_not_finite_r, mul_not_finite. }
  unfold to_s32, to_range. simpl num_trunc. by rewrite Ha.
Qed.

(** ** Properties *)

(** C29: The coefficients that [unqueue_move] computes are those of the cubic
    through the target. In exact arithmetic and for a duration other than
    zero, [v0 t + kb t^2 + ka t^3] has at the time [dt] the displacement [dx]
    and the velocity [vn]. *)
Theorem profile_reaches_target (dx v0 vn dt : Qc) :
  dt ≠ 0%Qc ->
  let kb := @move_kb _ exact dx v0 vn dt in
  let ka := @move_ka _ exact v0 vn dt kb in
  (v0 * dt + kb * (dt * dt) + ka * (dt * dt * dt))%Qc = dx ∧
  (v0 + (1 + 1) * kb * dt + (1 + (1 + 1)) * ka * (dt * dt))%Qc = vn.
Proof. intros Hdt. split; [by apply profile_position|by apply profile_velocity]. Qed.

Lemma profile_reaches_target_witness :
  let two := (1 + 1)%Qc in
  let kb := @move_kb _ exact two 1%Qc 0%Qc two in
  let ka := @move_ka _ exact 1%Qc 0%Qc two kb in
  (1 * two + kb * (two * two) + ka * (two * two * two))%Qc = two ∧
  (1 + (1 + 1) * kb * two + (1 + (1 + 1)) * ka * (two * two))%Qc = 0%Qc.
Proof. apply (profile_reaches_target (1 + 1)%Qc 1%Qc 0%Qc (1 + 1)%Qc). done. Defined.

(** C30: How far the core's discrete profile is off. With the acceleration
    and jerk that [unqueue_move] programs, taken exactly, the velocity
    register after the [n = 250 dt] steps of the move ([v + n a +
    n (n - 1) / 2 j], which is what the core computes) is the target velocity
    less [n j / 2]. *)
Theorem discrete_velocity_error (dx v0 vn dt : Qc) :
  dt ≠ 0%Qc ->
  let kb := @move_kb _ exact dx v0 vn dt in
  let ka := @move_ka _ exact v0 vn dt kb in
  let a := @move_a _ exact kb in
  let j := @move_j _ exact ka in
  let n := (dt * Q2Qc (QArith_base.inject_Z ACC_FREQ))%Qc in
  (v0 * velocity_scale + n * a + n * (n - 1) / (1 + 1) * j)%Qc =
    (vn * velocity_scale - n * j / (1 + 1))%Qc.
Proof. apply discrete_velocity. Qed.

Lemma discrete_velocity_error_witness :
  let kb := @move_kb _ exact 1%Qc 0%Qc 0%Qc 1%Qc in
  let ka := @move_ka _ exact 0%Qc 0%Qc 1%Qc kb in
  let a := @move_a _ exact kb in
  let j := @move_j _ exact ka in
  let n := (1 * Q2Qc (QArith_base.inject_Z ACC_FREQ))%Qc in
  (0 * velocity_scale + n * a + n * (n - 1) / (1 + 1) * j)%Qc =
    (0 * velocity_scale - n * j / (1 + 1))%Qc.
Proof. apply (discrete_velocity_error 1%Qc 0%Qc 0%Qc 1%Qc). done. Defined.

(** C12: Polling the state machine on the motion core. Whatever number of
    clock cycles passes between the bus accesses, when the numbers of the first target have values in the integer types
    that they are converted to ([head_defined]), one call of
    [steppersMainLoop] keeps the invariant (the queue is intact, the command
    register is zero or has the start bit set, and it is zero in the states
    OFF and IDLE) and makes exactly the step of the state machine that the queue
    and the core ask for: a waiting target is taken once the last
    command was accepted, and the core then has a pending start command with
    exactly the steps, acceleration and jerk of that move, continuing from
    its current velocity; with an empty queue the stop is issued only after the core
    has finished the last move, and IDLE is entered only after it finished the
    stop; it waits only while the queue is empty or the core is not
    yet at rest (or has not accepted the last command). *)
Theorem main_loop_on_core {R} `{Num R} base (l : list (steppers_target R)) s :
  inv l s -> head_defined l s ->
  exists s', @steppersMainLoop R bus_core _ (core_bus base) base s = Some (tt, s') ∧ polled l s s'.
Proof.
  intros Hi Hd. pose proof (main_loop_spec base l s Hi Hd) as ([] & s' & E & Hp)%wp_run. eauto.
Qed.

(** A target at [x] reached at rest after [dt] seconds. *)
Definition exact_target (x dt : Z) : steppers_target Qc :=
  Target (replicate 5 0) (Q2Qc (QArith_base.inject_Z dt))
    (replicate 5 (Q2Qc (QArith_base.inject_Z x))) (replicate 5 0%Qc).

Definition example_steppers : steppers Qc bus_core :=
  MkSteppers STATE_IDLE (exact_target 0 0)
    (exact_target 10 2 :: replicate 9 (exact_target 0 0)) 1 (BusCore core_reset [2; 1; 4]%nat) [].

Lemma main_loop_on_core_witness :
  inv [exact_target 10 2] example_steppers ∧
  head_defined (H := exact) [exact_target 10 2] example_steppers ∧
  exists s', @steppersMainLoop Qc bus_core exact (core_bus 0) 0 example_steppers = Some (tt, s') ∧
    polled (H := exact) [exact_target 10 2] example_steppers s'.
Proof.
  assert (inv [exact_target 10 2] example_steppers) as Hi.
  { constructor; try done; [|by repeat constructor|by left]. constructor; simpl; (done || lia). }
  assert (head_defined (H := exact) [exact_target 10 2] example_steppers) as Hd by (vm_compute; eauto).
  split; [exact Hi|]. split; [exact Hd|].
  apply (main_loop_on_core (H := exact) 0 [exact_target 10 2] example_steppers Hi Hd).
Defined.

(** The queue is a bounded first-in first-out list. Queueing a target
    appends it when fewer than ten are waiting; otherwise the call returns -1
    and changes nothing. The invariant is kept. *)
Theorem queue_appends {R} (l : list (steppers_target R)) t (s : steppers R bus_core) :
  inv l s -> target_ok t ->
  exists r s', steppersQueue t s = Some (r, s') ∧
    ((length l < 10)%nat -> r = None ∧ inv (l ++ [t]) s') ∧
    (length l = 10%nat -> r = Some (-1) ∧ s' = s).
Proof.
  intros Hi Ht. pose proof (queue_inv l t s Hi Ht) as (r & s' & E & Hi')%wp_run.
  pose proof (queue_spec l t s (i_queue _ _ Hi)) as (r0 & s0 & E0 & Hs)%wp_run.
  rewrite E in E0. injection E0 as <- <-. exists r, s'. split; [done|].
  cbn beta in *. destruct (decide (length l < 10)%nat); split; intros Hl; try lia; [|done].
  by destruct Hs.
Qed.

Lemma queue_appends_witness :
  exists r s', steppersQueue (exact_target 7 1) example_steppers = Some (r, s') ∧
    r = None ∧ inv [exact_target 10 2; exact_target 7 1] s'.
Proof.
  destruct (queue_appends [exact_target 10 2] (exact_target 7 1) example_steppers) as (r & s' & E & H & _).
  - constructor; try done; [|by repeat constructor|by left]. constructor; simpl; (done || lia).
  - done.
  - exists r, s'. split; [exact E|]. apply H. simpl. lia.
Defined.

(** C31: A move of duration zero has undefined behaviour. With [double]
    arithmetic, taking a target with [dt = 0] from the queue converts an
    infinity or a NaN to [int32_t], whatever the positions and velocities
    are; nothing in steppers.c or in the [start] command checks the
    duration. *)
Theorem zero_duration_undefined {D} `{Bus D} base (s : steppers spec_float D) t b :
  arr_get (queue s) 0 = Some t -> t_dt t = S754_zero b ->
  @unqueue_move _ _ b64 _ base s = None.
Proof.
  intros Ht Hdt. destruct (@unqueue_move _ _ b64 _ base s) as [[u s']|] eqn:E; [|done]. exfalso.
  unfold unqueue_move, print, gets, modify, lift, mbind, st_bind in E. rewrite Ht in E.
  destruct (for_up 0 _ queue_shift s) as [[[] s1]|]; [|done].
  rewrite Hdt in E.
  repeat match type of E with
  | match (match ?o with Some _ => _ | None => _ end) with _ => _ end = _ => destruct o eqn:?; [|done]
  end.
  rewrite move_a_zero_dt in *. done.
Qed.

Lemma zero_duration_undefined_witness :
  let t := Target (replicate 5 0) (b64_of_Z 0) (replicate 5 (b64_of_Z 3)) (replicate 5 (b64_of_Z 0)) in
  let s := MkSteppers STATE_IDLE t (replicate 10 t) 1 (BusCore core_reset []) [] in
  @unqueue_move _ _ b64 (core_bus 0) 0 s = None.
Proof.
  intros t s. apply (zero_duration_undefined (H := core_bus 0) 0 s t false); done.
Defined.
