(* ===== verification/Mmc.v ===== *)
(** * The SD card driver and the display (sdloader/src/mmc.c, diskio.c, osram.c)

    The driver sends commands to the card over SPI and waits for the response
    and data bytes. [SpiMaster] is what it uses of the SPI controller's driver;
    [wire] is a controller whose slave sends a given sequence of bytes and
    which records what the master does. *)

From S2P Require Import Prelude.
From Stdlib Require String.
Import String.StringSyntax.

Open Scope Z_scope.

(** The operations of the XSpi driver, on the state [D] of the controller. A
    transfer of [n] bytes is full duplex: it returns [n] received bytes.
    Their status results are not used by the callers, but for the one of
    [XSpi_Initialize]. *)
Class SpiMaster (D : Type) := {
  XSpi_Initialize : Z -> D -> Z * D;
  XSpi_SetOptions : Z -> D -> D;
  XSpi_Start : D -> D;
  XSpi_mIntrGlobalDisable : D -> D;
  XSpi_SetSlaveSelect : Z -> D -> D;
  XSpi_Transfer : list Z -> D -> list Z * D;
}.

Definition XST_SUCCESS : Z := 0.
Definition XSP_MASTER_OPTION : Z := 0x1.
Definition XSP_CLK_ACTIVE_LOW_OPTION : Z := 0x2.
Definition XSP_CLK_PHASE_1_OPTION : Z := 0x4.
Definition XSP_MANUAL_SSELECT_OPTION : Z := 0x10.

Definition MMC_BLOCK_SIZE : Z := 512.
Definition MMC_CMD_SIZE : Z := 6.
Definition MMC_TIMEOUT : Z := 0xFF.

(** A printed message: the format and its arguments. *)
Definition message : Type := String.string * list Z.

Definition format (fmt : String.string) (args : list Z) : message := (fmt, args).
Arguments format fmt%_string_scope args.

Section mmc.
Context {D : Type} `{SpiMaster D}.

Record mmc := MkMmc {
  mmc_cmd : list Z;       (* uint8_t mmc_cmd[6] *)
  sd_buf : list Z;        (* char sd_buf[512] *)
  spi_sd : D;
  mmc_out : list message;
}.

Definition set_mmc_cmd x s := MkMmc x (sd_buf s) (spi_sd s) (mmc_out s).
Definition set_sd_buf x s := MkMmc (mmc_cmd s) x (spi_sd s) (mmc_out s).
Definition set_spi_sd x s := MkMmc (mmc_cmd s) (sd_buf s) x (mmc_out s).
Definition set_mmc_out x s := MkMmc (mmc_cmd s) (sd_buf s) (spi_sd s) x.

Definition printf (fmt : String.string) (args : list Z) : ST mmc unit :=
  modify (λ s, set_mmc_out (mmc_out s ++ [format fmt args]) s).
Arguments printf fmt%_string_scope args.

(** [buf[i] = x] for the two static arrays. *)
Definition store_cmd (i x : Z) : ST mmc unit :=
  b ← gets mmc_cmd; b' ← lift (arr_set b i x); modify (set_mmc_cmd b').
Definition store_buf (i x : Z) : ST mmc unit :=
  b ← gets sd_buf; b' ← lift (arr_set b i x); modify (set_sd_buf b').

Definition transfer (send : list Z) : ST mmc (list Z) := λ s,
  let '(recv, d) := XSpi_Transfer send (spi_sd s) in Some (recv, set_spi_sd d s).

(** The first [n] bytes of an array. *)
Definition arr_take (b : list Z) (n : Z) : option (list Z) :=
  if decide (0 <= n <= Z.of_nat (length b)) then Some (take (Z.to_nat n) b) else None.

Definition spi_receive_byte : ST mmc Z :=
  store_buf 0 0xff;;
  b ← gets sd_buf;
  send ← lift (arr_take b 1);
  recv ← transfer send;
  x ← lift (arr_get recv 0);
  store_buf 0 x;;
  b ← gets sd_buf;
  lift (arr_get b 0).

Definition spi_send (data : list Z) (length : Z) : ST mmc unit :=
  send ← lift (arr_take data length);
  transfer send;;
  mret tt.

(** The received bytes, which the C function stores through [data]. *)
Definition spi_receive (length : Z) : ST mmc (list Z) :=
  for_up 0 length (λ i, store_buf i 0xff);;
  b ← gets sd_buf;
  send ← lift (arr_take b length);
  transfer send.

Definition SET_CS : ST mmc unit := modify (λ s, set_spi_sd (XSpi_SetSlaveSelect 0 (spi_sd s)) s).
Definition CLEAR_CS : ST mmc unit := modify (λ s, set_spi_sd (XSpi_SetSlaveSelect 1 (spi_sd s)) s).

(** The loop of [mmc_response]; the result is the final [count]. *)
Fixpoint response_loop (response : Z) (count : nat) : ST mmc nat :=
  match count with
  | O => mret O
  | S count' =>
      result ← spi_receive_byte;
      if bool_decide (result = response) then mret count else response_loop response count'
  end.

Definition mmc_response (response : Z) : ST mmc Z :=
  count ← response_loop response 0xFFF;
  mret (if bool_decide (count = 0%nat) then 1 else 0).

(** The six assignments to [mmc_cmd] and the [spi_send] that follows. *)
Definition send_cmd (c0 c1 c2 c3 c4 c5 : Z) : ST mmc unit :=
  store_cmd 0 c0;; store_cmd 1 c1;; store_cmd 2 c2;;
  store_cmd 3 c3;; store_cmd 4 c4;; store_cmd 5 c5;;
  cmd ← gets mmc_cmd;
  spi_send cmd MMC_CMD_SIZE.

(** The CMD1 loop of [mmc_init], with [i] as it is before [i--]; the result
    is the final [i]. *)
Fixpoint cmd1_loop (i : nat) : ST mmc nat :=
  match i with
  | O => mret O
  | S i' =>
      send_cmd 0x41 0x00 0x00 0x00 0x00 0xFF;;
      r ← mmc_response 0x00;
      if bool_decide (r ≠ 0 ∧ (0 < i')%nat) then cmd1_loop i' else mret i'
  end.

Definition dummy_clocks : ST mmc unit :=
  spi_receive_byte;;
  SET_CS;;
  spi_receive_byte;;
  spi_receive_byte;;
  mret tt.

Definition mmc_init : ST mmc Z :=
  SET_CS;;
  for_up 0 10 (λ _, spi_receive_byte;; mret tt);;
  CLEAR_CS;;
  printf "send CMD0\r\n" [];;
  send_cmd 0x40 0x00 0x00 0x00 0x00 0x95;;
  r ← mmc_response 0x01;
  if bool_decide (r ≠ 0) then printf "CMD0 timeout\r\n" [];; mret (-1) else
  printf "send dummy clocks\r\n" [];;
  dummy_clocks;;
  CLEAR_CS;;
  printf "send CMD1\r\n" [];;
  i ← cmd1_loop (Z.to_nat MMC_TIMEOUT);
  if bool_decide (i = 0%nat) then printf "CMD1 timeout\r\n" [];; mret (-1) else
  printf "send dummy clocks\r\n" [];;
  dummy_clocks;;
  CLEAR_CS;;
  printf "send CMD16\r\n" [];;
  send_cmd 0x50 0x00 0x00 0x02 0x00 0xFF;;
  r ← mmc_response 0x00;
  (if bool_decide (r = 1) then printf "CMD16 timeout\r\n" [] else skip);;
  dummy_clocks;;
  printf "mmc_init end\r\n" [];;
  mret 0.

(** The result and, when there is one, the block that is stored at
    [block_address]. *)
Definition mmc_read_block (block_number : Z) : ST mmc (Z * option (list Z)) :=
  let varl := u16 (Z.shiftl (Z.land block_number 0x007F) 9) in
  let varh := u16 (Z.land (Z.shiftr block_number 7) 0xffff) in
  CLEAR_CS;;
  send_cmd 0x51 (u8 (Z.shiftr varh 0x08)) (u8 (Z.land varh 0xFF))
    (u8 (Z.shiftr varl 0x08)) (u8 (Z.land varl 0xFF)) 0xFF;;
  r ← mmc_response 0x00;
  if bool_decide (r = 1) then printf "read block timeout\r\n" [];; mret (-1, None) else
  r ← mmc_response 0xFE;
  if bool_decide (r = 1) then printf "data token missing\r\n" [];; mret (-1, None) else
  data ← spi_receive MMC_BLOCK_SIZE;
  spi_receive_byte;;
  spi_receive_byte;;
  SET_CS;;
  spi_receive_byte;;
  mret (0, Some data).

(** The loops of [print_block] over [block_address], an array. *)
Definition print_block (block_address : list Z) (length : Z) : ST mmc unit :=
  for_up 0 (length / 16) (λ i,
    printf "%04x: " [i * 16];;
    for_up 0 16 (λ j, x ← lift (arr_get block_address (i * 16 + j)); printf "%02x" [x]);;
    printf " " [];;
    for_up 0 16 (λ j,
      byte ← lift (arr_get block_address (i * 16 + j));
      if bool_decide (32 <= byte <= 126) then printf "%c" [byte] else printf "." []);;
    printf "\r\n" []).

(** [XPAR_XPS_SPI_SD_DEVICE_ID] is [dev_id]. *)
Definition mmc_if_init (dev_id : Z) : ST mmc Z :=
  d ← gets spi_sd;
  let '(s, d) := XSpi_Initialize dev_id d in
  modify (set_spi_sd d);;
  if bool_decide (s ≠ XST_SUCCESS) then printf "sd_spi_init: %d\r\n" [s];; mret (-1) else
  modify (λ s, set_spi_sd (XSpi_SetOptions
    (Z.lor (Z.lor (Z.lor XSP_MASTER_OPTION XSP_MANUAL_SSELECT_OPTION)
      XSP_CLK_ACTIVE_LOW_OPTION) XSP_CLK_PHASE_1_OPTION) (spi_sd s)) s);;
  modify (λ s, set_spi_sd (XSpi_Start (spi_sd s)) s);;
  modify (λ s, set_spi_sd (XSpi_mIntrGlobalDisable (spi_sd s)) s);;
  modify (λ s, set_spi_sd (XSpi_SetSlaveSelect 0 (spi_sd s)) s);;
  mret 0.
End mmc.

Arguments mmc : clear implicits.

(** ** diskio.c *)

Inductive DRESULT := RES_OK | RES_ERROR | RES_WRPRT | RES_NOTRDY | RES_PARERR.
#[export] Instance DRESULT_eq_dec : EqDecision DRESULT.
Proof. solve_decision. Defined.

Definition STA_NOINIT : Z := 0x01.
Definition SD : Z := 0.

Section diskio.
Context {D : Type} `{SpiMaster D}.

(** [DSTATUS] is a [BYTE]. *)
Definition disk_initialize (drv : Z) : ST (mmc D) Z :=
  if bool_decide (drv = SD) then result ← mmc_init; mret (u8 result) else mret STA_NOINIT.

Definition disk_status (drv : Z) : ST (mmc D) Z := mret 0.

(** The loop of [disk_read]: the result and the bytes stored in the buffer. *)
Fixpoint read_blocks (n : nat) (i sector : Z) : ST (mmc D) (DRESULT * list Z) :=
  match n with
  | O => mret (RES_OK, [])
  | S n =>
      r ← mmc_read_block (u32 (sector + i));
      let '(result, data) := r in
      if bool_decide (result ≠ 0) then mret (RES_ERROR, default [] data) else
      r ← read_blocks n (i + 1) sector;
      let '(res, rest) := r in
      mret (res, default [] data ++ rest)
  end.

Definition disk_read (drv sector count : Z) : ST (mmc D) (DRESULT * list Z) :=
  if bool_decide (drv = SD) then read_blocks (Z.to_nat count) 0 sector else mret (RES_PARERR, []).
End diskio.

(** ** osram.c *)

Section osram.
Context {D : Type} `{SpiMaster D}.

Record osram := MkOsram { osram_buf : list Z; spi_osram : D; osram_out : list message }.

Definition osram_send (c : Z) : ST osram unit :=
  modify (λ s, MkOsram (osram_buf s) (XSpi_SetSlaveSelect 1 (spi_osram s)) (osram_out s));;
  b ← gets osram_buf;
  b' ← lift (arr_set b 0 c);
  modify (λ s, MkOsram b' (spi_osram s) (osram_out s));;
  send ← lift (arr_take b' 1);
  modify (λ s, MkOsram (osram_buf s) (XSpi_Transfer send (spi_osram s)).2 (osram_out s));;
  modify (λ s, MkOsram (osram_buf s) (XSpi_SetSlaveSelect 0 (spi_osram s)) (osram_out s)).

Definition osram_init (dev_id : Z) : ST osram Z :=
  d ← gets spi_osram;
  let '(st, d) := XSpi_Initialize dev_id d in
  modify (λ s, MkOsram (osram_buf s) d (osram_out s));;
  if bool_decide (st ≠ XST_SUCCESS) then
    modify (λ s, MkOsram (osram_buf s) (spi_osram s)
      (osram_out s ++ [format "osram_init: %d\r\n" [st]]));;
    mret (-1)
  else
  modify (λ s, MkOsram (osram_buf s)
    (XSpi_SetOptions (Z.lor XSP_MASTER_OPTION XSP_MANUAL_SSELECT_OPTION) (spi_osram s)) (osram_out s));;
  modify (λ s, MkOsram (osram_buf s) (XSpi_Start (spi_osram s)) (osram_out s));;
  modify (λ s, MkOsram (osram_buf s) (XSpi_mIntrGlobalDisable (spi_osram s)) (osram_out s));;
  modify (λ s, MkOsram (osram_buf s) (XSpi_SetSlaveSelect 0 (spi_osram s)) (osram_out s));;
  mret 0.
End osram.

Arguments osram : clear implicits.

(** ** The wire

    What happens on the bus, and the bytes that the slave will send; when they
    are used up the line is high. *)

Inductive event := Select (mask : Z) | Sent (l : list Z) | Init (id : Z) | Options (o : Z) | Start | IntrOff.

Record wire := Wire { w_rx : list Z; w_log : list event }.

Definition rx_take (n : nat) (l : list Z) : list Z := take n (l ++ replicate n 0xff).

Definition w_event (e : event) (w : wire) : wire := Wire (w_rx w) (w_log w ++ [e]).

#[export] Instance wire_spi : SpiMaster wire := {
  XSpi_Initialize id w := (XST_SUCCESS, w_event (Init id) w);
  XSpi_SetOptions o w := w_event (Options o) w;
  XSpi_Start w := w_event Start w;
  XSpi_mIntrGlobalDisable w := w_event IntrOff w;
  XSpi_SetSlaveSelect m w := w_event (Select m) w;
  XSpi_Transfer l w :=
    (rx_take (length l) (w_rx w), Wire (drop (length l) (w_rx w)) (w_log w ++ [Sent l]));
}.

(** ** Proofs on the wire *)

(** The state of the driver and of the wire. *)
Record conf (cmd rx : list Z) (log : list event) (s : mmc wire) : Prop := {
  c_cmd : mmc_cmd s = cmd;
  c_rx : w_rx (spi_sd s) = rx;
  c_log : w_log (spi_sd s) = log;
  c_buf : length (sd_buf s) = 512%nat;
}.

(** What receiving [n] single bytes adds to the log. *)
Definition recvs (n : nat) : list event := replicate n (Sent [0xff]).

Lemma recvs_add n m : recvs (n + m) = recvs n ++ recvs m.
Proof. apply replicate_add. Qed.

Lemma wp_transfer send cmd rx log s (Q : list Z -> mmc wire -> Prop) :
  conf cmd rx log s ->
  (forall s', sd_buf s' = sd_buf s -> conf cmd (drop (length send) rx) (log ++ [Sent send]) s' ->
    Q (rx_take (length send) rx) s') ->
  wp (transfer send) s Q.
Proof.
  intros [Hc Hr Hl Hb] HQ. apply wp_run. eexists _, _. split; [reflexivity|].
  rewrite Hr. apply HQ; [done|]. constructor; simpl; try done; by rewrite ?Hr, ?Hl.
Qed.

Lemma wp_store_buf i x cmd rx log s (Q : unit -> mmc wire -> Prop) :
  conf cmd rx log s -> 0 <= i < 512 ->
  (forall s', sd_buf s' = <[Z.to_nat i := x]> (sd_buf s) -> conf cmd rx log s' -> Q tt s') ->
  wp (store_buf i x) s Q.
Proof.
  intros [Hc Hr Hl Hb] Hi HQ. unfold store_buf. wp_steps.
  eapply wp_lift; [apply arr_set_in; lia|]. wp_steps. apply HQ; [done|].
  constructor; simpl; try done. len.
Qed.

Lemma wp_receive_byte cmd x rx log s (Q : Z -> mmc wire -> Prop) :
  conf cmd (x :: rx) log s ->
  (forall s', conf cmd rx (log ++ recvs 1) s' -> Q x s') -> wp spi_receive_byte s Q.
Proof.
  intros Hs HQ. pose proof (c_buf _ _ _ _ Hs) as Hl. unfold spi_receive_byte. apply wp_bind.
  eapply wp_store_buf; [exact Hs|lia|]. intros s1 E1 H1. wp_pure. rewrite E1.
  destruct (sd_buf s) as [|b0 buf] eqn:Eb; [done|]. simpl in *.
  apply wp_bind. eapply (wp_lift _ [0xff]).
  { unfold arr_take. rewrite decide_True by (simpl; lia). done. }
  apply wp_bind. eapply wp_transfer; [exact H1|]. intros s2 E2 H2. apply wp_bind. eapply wp_lift; [reflexivity|].
  apply wp_bind. eapply wp_store_buf; [exact H2|lia|]. intros s3 E3 H3. wp_pure. wp_steps.
  rewrite E3, E2, E1. eapply wp_lift; [reflexivity|]. apply HQ. exact H3.
Qed.

(** Looking for [resp]: found after [fill], or not within [n] bytes. *)
Lemma wp_response_found resp fill cmd rx log s n (Q : nat -> mmc wire -> Prop) :
  conf cmd (fill ++ resp :: rx) log s -> resp ∉ fill -> (length fill < n)%nat ->
  (forall s', conf cmd rx (log ++ recvs (S (length fill))) s' -> Q (n - length fill)%nat s') ->
  wp (response_loop resp n) s Q.
Proof.
  revert n log s. induction fill as [|x fill IH]; intros n log s Hs Hni Hn HQ;
    (destruct n as [|n]; [simpl in *; lia|]); simpl; apply wp_bind; (eapply wp_receive_byte; [exact Hs|]);
    intros s1 H1.
  - rewrite bool_decide_eq_true_2 by done. apply wp_ret. by apply HQ.
  - apply not_elem_of_cons in Hni as [Hx Hni]. rewrite bool_decide_eq_false_2 by done.
    eapply IH; [exact H1|done|simpl in *; lia|]. intros s2 H2. apply HQ.
    rewrite <- app_assoc, <- recvs_add in H2. exact H2.
Qed.

Lemma wp_response_timeout resp fill cmd rx log s (Q : nat -> mmc wire -> Prop) :
  conf cmd (fill ++ rx) log s -> resp ∉ fill ->
  (forall s', conf cmd rx (log ++ recvs (length fill)) s' -> Q 0%nat s') ->
  wp (response_loop resp (length fill)) s Q.
Proof.
  revert log s. induction fill as [|x fill IH]; intros log s Hs Hni HQ; simpl.
  - apply wp_ret, HQ. by rewrite app_nil_r.
  - apply wp_bind. eapply wp_receive_byte; [exact Hs|]. intros s1 H1.
    apply not_elem_of_cons in Hni as [Hx Hni]. rewrite bool_decide_eq_false_2 by done.
    eapply IH; [exact H1|done|]. intros s2 H2. apply HQ.
    rewrite <- app_assoc, <- recvs_add in H2. exact H2.
Qed.

Lemma wp_mmc_response_found resp fill cmd rx log s (Q : Z -> mmc wire -> Prop) :
  conf cmd (fill ++ resp :: rx) log s -> resp ∉ fill -> (length fill < 4095)%nat ->
  (forall s', conf cmd rx (log ++ recvs (S (length fill))) s' -> Q 0 s') -> wp (mmc_response resp) s Q.
Proof.
  intros Hs Hni Hn HQ. unfold mmc_response. apply wp_bind.
  eapply wp_response_found; [exact Hs|done|exact Hn|]. intros s1 H1. apply wp_ret.
  rewrite bool_decide_eq_false_2 by lia. by apply HQ.
Qed.

Lemma wp_mmc_response_timeout resp fill cmd rx log s (Q : Z -> mmc wire -> Prop) :
  conf cmd (fill ++ rx) log s -> resp ∉ fill -> length fill = 4095%nat ->
  (forall s', conf cmd rx (log ++ recvs 4095) s' -> Q 1 s') -> wp (mmc_response resp) s Q.
Proof.
  intros Hs Hni Hn HQ. unfold mmc_response. apply wp_bind. change 0xFFF%nat with 4095%nat. rewrite <- Hn.
  eapply wp_response_timeout; [exact Hs|done|]. intros s1 H1. apply wp_ret. apply HQ. by rewrite <- Hn.
Qed.

Lemma wp_store_cmd i x cmd rx log s (Q : unit -> mmc wire -> Prop) :
  conf cmd rx log s -> 0 <= i < Z.of_nat (length cmd) ->
  (forall s', conf (<[Z.to_nat i := x]> cmd) rx log s' -> Q tt s') -> wp (store_cmd i x) s Q.
Proof.
  intros [Hc Hr Hl Hb] Hi HQ. unfold store_cmd. wp_steps. rewrite Hc.
  eapply wp_lift; [apply arr_set_in; lia|]. wp_steps. apply HQ. constructor; simpl; done.
Qed.

Lemma wp_send_cmd c0 c1 c2 c3 c4 c5 cmd rx log s (Q : unit -> mmc wire -> Prop) :
  conf cmd rx log s -> length cmd = 6%nat ->
  (forall s', conf [c0; c1; c2; c3; c4; c5] (drop 6 rx) (log ++ [Sent [c0; c1; c2; c3; c4; c5]]) s' -> Q tt s') ->
  wp (send_cmd c0 c1 c2 c3 c4 c5) s Q.
Proof.
  intros Hs Hl HQ. unfold send_cmd. do 6 (destruct cmd as [|? cmd]; [done|]). destruct cmd; [|done].
  do 6 (apply wp_bind; (eapply wp_store_cmd; [eassumption|simpl; lia|]); clear dependent s; intros s Hs; simpl in Hs).
  wp_pure. rewrite (c_cmd _ _ _ _ Hs). unfold spi_send. apply wp_bind. eapply wp_lift; [reflexivity|].
  apply wp_bind. eapply wp_transfer; [exact Hs|]. intros s' _ H'. apply wp_ret. by apply HQ.
Qed.

Lemma wp_select m cmd rx log s (Q : unit -> mmc wire -> Prop) :
  conf cmd rx log s -> (forall s', conf cmd rx (log ++ [Select m]) s' -> Q tt s') ->
  wp (modify (λ s, set_spi_sd (XSpi_SetSlaveSelect m (spi_sd s)) s)) s Q.
Proof.
  intros [Hc Hr Hl Hb] HQ. wp_steps. apply HQ. constructor; simpl; try done. by rewrite Hl.
Qed.

Lemma wp_printf fmt args cmd rx log s (Q : unit -> mmc wire -> Prop) :
  conf cmd rx log s -> (forall s', conf cmd rx log s' -> Q tt s') -> wp (printf fmt args) s Q.
Proof. intros [Hc Hr Hl Hb] HQ. unfold printf. wp_steps. apply HQ. by constructor. Qed.

Lemma wp_fill_buf n cmd rx log s (Q : unit -> mmc wire -> Prop) :
  conf cmd rx log s -> (n <= 512)%nat ->
  (forall s', take n (sd_buf s') = replicate n 0xff -> conf cmd rx log s' -> Q tt s') ->
  wp (for_up 0 (Z.of_nat n) (λ i, store_buf i 0xff)) s Q.
Proof.
  intros Hs Hn HQ.
  apply (wp_for_up _ _ _ (λ i s', take (Z.to_nat i) (sd_buf s') = replicate (Z.to_nat i) 0xff ∧ conf cmd rx log s')).
  - lia.
  - done.
  - intros i s1 Hi [Ht H1]. eapply wp_store_buf; [exact H1|lia|]. intros s2 E2 H2. split; [|done].
    pose proof (c_buf _ _ _ _ H1). rewrite E2. replace (Z.to_nat (i + 1)) with (S (Z.to_nat i)) by lia.
    rewrite (take_S_r _ _ 0xff); [|apply list_lookup_insert_eq; lia].
    rewrite take_insert_ge, Ht by lia. by rewrite replicate_S_end.
  - intros s1 [Ht H1]. rewrite Nat2Z.id in Ht. by apply HQ.
Qed.

Lemma wp_receive data cmd rx log s (Q : list Z -> mmc wire -> Prop) :
  conf cmd (data ++ rx) log s -> (length data <= 512)%nat ->
  (forall s', conf cmd rx (log ++ [Sent (replicate (length data) 0xff)]) s' -> Q data s') ->
  wp (spi_receive (Z.of_nat (length data))) s Q.
Proof.
  intros Hs Hl HQ. unfold spi_receive. apply wp_bind. eapply wp_fill_buf; [exact Hs|done|].
  intros s1 Ht H1. wp_pure. apply wp_bind. pose proof (c_buf _ _ _ _ H1) as Hb.
  eapply wp_lift. { unfold arr_take. rewrite decide_True by lia. by rewrite Nat2Z.id, Ht. }
  eapply wp_transfer; [exact H1|]. intros s2 _ H2. rewrite length_replicate in *.
  unfold rx_take. rewrite <- app_assoc, take_app_length. rewrite drop_app_length in H2. by apply HQ.
Qed.

(** The big-endian bytes of a 32-bit number. *)
Definition be32 (z : Z) : list Z :=
  [u8 (Z.shiftr z 24); u8 (Z.shiftr z 16); u8 (Z.shiftr z 8); u8 z].

(** The CMD17 frame addresses the byte [512 * block]. *)
Definition cmd17 (block : Z) : list Z := 0x51 :: be32 (u32 (block * 512)) ++ [0xff].

Lemma u8_as_land z : u8 z = Z.land z (Z.ones 8).
Proof. unfold u8. by rewrite Z.land_ones by lia. Qed.
Lemma u16_as_land z : u16 z = Z.land z (Z.ones 16).
Proof. unfold u16. by rewrite Z.land_ones by lia. Qed.
Lemma u32_as_land z : u32 z = Z.land z (Z.ones 32).
Proof. unfold u32. by rewrite Z.land_ones by lia. Qed.

Lemma cmd17_frame block :
  let varl := u16 (Z.shiftl (Z.land block 0x007F) 9) in
  let varh := u16 (Z.land (Z.shiftr block 7) 0xffff) in
  [0x51; u8 (Z.shiftr varh 0x08); u8 (Z.land varh 0xFF); u8 (Z.shiftr varl 0x08); u8 (Z.land varl 0xFF); 0xFF]
    = cmd17 block.
Proof.
  intros varl varh. unfold cmd17, be32. change (block * 512) with (block * 2^9).
  rewrite <- Z.shiftl_mul_pow2 by lia. simpl app.
  assert (forall i, 0 <= i -> Z.testbit varl i = Z.testbit (Z.shiftl block 9) i && (i <? 16)) as Hl.
  { intros i Hi. unfold varl. rewrite u16_as_land, Z.land_spec, Z.testbit_ones_nonneg by lia.
    destruct (Z.ltb_spec i 16); [|by rewrite !andb_false_r]. rewrite !andb_true_r.
    rewrite !Z.shiftl_spec by lia. change 0x7f with (Z.ones 7). rewrite Z.land_spec.
    destruct (decide (i < 9)); [rewrite !Z.testbit_neg_r by lia; done|].
    rewrite Z.testbit_ones_nonneg by lia. rewrite (proj2 (Z.ltb_lt (i - 9) 7)) by lia. by rewrite andb_true_r. }
  assert (forall i, 0 <= i -> Z.testbit varh i = Z.testbit (Z.shiftl block 9) (i + 16) && (i <? 16)) as Hh.
  { intros i Hi. unfold varh. change 0xffff with (Z.ones 16). rewrite u16_as_land, !Z.land_spec, Z.testbit_ones_nonneg by lia.
    rewrite Z.shiftr_spec, Z.shiftl_spec by lia. replace (i + 16 - 9) with (i + 7) by lia.
    by destruct (Z.testbit block (i + 7)), (Z.ltb_spec i 16). }
  repeat (apply cons_eq; [|]); [done|..|done|done].
  all: apply Z.bits_inj'; intros i Hi; rewrite !u8_as_land, !Z.land_spec, !Z.testbit_ones_nonneg by lia;
    destruct (Z.ltb_spec i 8) as [Hi8|]; rewrite ?andb_false_r, ?andb_true_r; [|done];
    change 0xff with (Z.ones 8); rewrite ?Z.land_spec, ?Z.shiftr_spec, ?u32_as_land, ?Z.land_spec by lia;
    rewrite ?Z.testbit_ones_nonneg by lia; rewrite ?Hl, ?Hh by lia.
  - rewrite (proj2 (Z.ltb_lt (i + 24) 32)), (proj2 (Z.ltb_lt (i + 8) 16)) by lia. f_equal. f_equal. lia.
  - rewrite (proj2 (Z.ltb_lt (i + 16) 32)), (proj2 (Z.ltb_lt i 16)), (proj2 (Z.ltb_lt i 8)) by lia. by rewrite !andb_true_r.
  - rewrite (proj2 (Z.ltb_lt (i + 8) 32)), (proj2 (Z.ltb_lt (i + 8) 16)) by lia. done.
  - rewrite (proj2 (Z.ltb_lt i 32)), (proj2 (Z.ltb_lt i 16)), (proj2 (Z.ltb_lt i 8)) by lia. by rewrite !andb_true_r.
Qed.

(** A complete answer of the card to one CMD17: what the master receives
    while it sends the command, filler bytes, the response, more filler
    bytes, the token, the block, its checksum and one byte after the card is
    deselected. *)
Record reply := Reply {
  r_junk : list Z; r_fill1 : list Z; r_fill2 : list Z; r_data : list Z; r_crc : Z * Z; r_last : Z;
}.

Definition reply_bytes (r : reply) : list Z :=
  r_junk r ++ r_fill1 r ++ 0x00 :: r_fill2 r ++ 0xFE :: r_data r ++ [(r_crc r).1; (r_crc r).2; r_last r].

Record reply_ok (r : reply) : Prop := {
  ok_junk : length (r_junk r) = 6%nat;
  ok_fill1 : (0x00 ∉ r_fill1 r) ∧ (length (r_fill1 r) < 4095)%nat;
  ok_fill2 : (0xFE ∉ r_fill2 r) ∧ (length (r_fill2 r) < 4095)%nat;
  ok_data : length (r_data r) = 512%nat;
}.

Definition reply_log (block : Z) (r : reply) : list event :=
  [Select 1; Sent (cmd17 block)] ++ recvs (S (length (r_fill1 r))) ++ recvs (S (length (r_fill2 r))) ++
  [Sent (replicate 512 0xff)] ++ recvs 2 ++ [Select 0] ++ recvs 1.

Lemma read_block_spec block r cmd rx log s :
  conf cmd (reply_bytes r ++ rx) log s -> length cmd = 6%nat -> reply_ok r ->
  wp (mmc_read_block block) s (λ res s', res = (0, Some (r_data r)) ∧
    conf (cmd17 block) rx (log ++ reply_log block r) s').
Proof.
  intros Hs Hcmd [Hj [H1 H1'] [H2 H2'] Hd]. unfold mmc_read_block, CLEAR_CS, SET_CS.
  unfold reply_bytes in Hs. rewrite <- app_assoc in Hs.
  apply wp_bind. eapply wp_select; [exact Hs|]. clear s Hs. intros s Hs.
  apply wp_bind. eapply wp_send_cmd; [exact Hs|done|]. clear s Hs. intros s Hs.
  rewrite cmd17_frame in Hs. rewrite <- Hj, drop_app_length in Hs. rewrite <- !app_assoc in Hs. simpl in Hs.
  apply wp_bind. eapply wp_mmc_response_found; [exact Hs|done|done|]. clear s Hs. intros s Hs.
  rewrite bool_decide_eq_false_2 by done. rewrite <- !app_assoc in Hs. simpl in Hs.
  apply wp_bind. eapply wp_mmc_response_found; [exact Hs|done|done|]. clear s Hs. intros s Hs.
  rewrite bool_decide_eq_false_2 by done. rewrite <- !app_assoc in Hs. simpl in Hs.
  apply wp_bind. change MMC_BLOCK_SIZE with (Z.of_nat 512). rewrite <- Hd.
  eapply wp_receive; [exact Hs|lia|]. clear s Hs. intros s Hs.
  apply wp_bind. eapply wp_receive_byte; [exact Hs|]. clear s Hs. intros s Hs.
  apply wp_bind. eapply wp_receive_byte; [exact Hs|]. clear s Hs. intros s Hs.
  apply wp_bind. eapply wp_select; [exact Hs|]. clear s Hs. intros s Hs.
  apply wp_bind. eapply wp_receive_byte; [exact Hs|]. clear s Hs. intros s Hs.
  apply wp_ret. split; [done|]. unfold reply_log. rewrite Hd in Hs.
  repeat (rewrite <- app_assoc in Hs; cbn [app] in Hs). exact Hs.
Qed.

Lemma read_block_timeout block fill cmd rx log s :
  conf cmd (fill ++ rx) log s -> length cmd = 6%nat -> length fill = (6 + 4095)%nat -> 0x00 ∉ drop 6 fill ->
  wp (mmc_read_block block) s (λ res s', res = (-1, None) ∧
    conf (cmd17 block) rx (log ++ [Select 1; Sent (cmd17 block)] ++ recvs 4095) s').
Proof.
  intros Hs Hcmd Hl Hn. unfold mmc_read_block, CLEAR_CS, SET_CS.
  apply wp_bind. eapply wp_select; [exact Hs|]. clear s Hs. intros s Hs.
  apply wp_bind. eapply wp_send_cmd; [exact Hs|done|]. clear s Hs. intros s Hs.
  rewrite cmd17_frame, drop_app_le in Hs by lia.
  apply wp_bind. eapply wp_mmc_response_timeout; [exact Hs|done|rewrite length_drop; lia|]. clear s Hs. intros s Hs.
  rewrite bool_decide_eq_true_2 by done. apply wp_bind. eapply wp_printf; [exact Hs|]. clear s Hs. intros s Hs.
  apply wp_ret. split; [done|]. by rewrite <- !app_assoc in Hs.
Qed.

(** The log of a sequence of reads from [sector] on. *)
Fixpoint replies_log (i sector : Z) (rs : list reply) : list event :=
  match rs with
  | [] => []
  | r :: rs => reply_log (u32 (sector + i)) r ++ replies_log (i + 1) sector rs
  end.

Lemma read_blocks_spec rs i sector cmd rx log s :
  conf cmd (concat (reply_bytes <$> rs) ++ rx) log s -> length cmd = 6%nat -> Forall reply_ok rs ->
  wp (read_blocks (length rs) i sector) s (λ res s',
    res = (RES_OK, concat (r_data <$> rs)) ∧
    exists cmd', length cmd' = 6%nat ∧ conf cmd' rx (log ++ replies_log i sector rs) s').
Proof.
  revert i cmd log s. induction rs as [|r rs IH]; intros i cmd log s Hs Hc Hok; simpl.
  - apply wp_ret. split; [done|]. exists cmd. by rewrite app_nil_r.
  - apply Forall_cons_iff in Hok as [Hr Hok]. apply wp_bind. simpl in Hs. rewrite <- app_assoc in Hs.
    eapply wp_mono; [by eapply read_block_spec|]. intros res s1 [-> H1].
    rewrite bool_decide_eq_false_2 by naive_solver. apply wp_bind.
    eapply wp_mono; [by eapply IH|]. intros res s2 [-> (cmd' & Hc' & H2)]. apply wp_ret. split; [done|].
    exists cmd'. split; [done|]. by rewrite <- app_assoc in H2.
Qed.

(** *** Properties *)

(** C11: Reading sectors from a card that answers. When the card answers each
    command with a response byte 0, the data token and 512 bytes, with fewer
    than 4095 other bytes before each of the two, [disk_read] returns [RES_OK]
    and exactly the concatenated blocks; the commands that were sent address
    the bytes [512 (sector + i)] modulo 2^32, the card is selected for each of
    them and deselected afterwards. *)
Theorem disk_read_returns_blocks rs sector cmd rx log (s : mmc wire) :
  conf cmd (concat (reply_bytes <$> rs) ++ rx) log s -> length cmd = 6%nat -> Forall reply_ok rs ->
  exists s', disk_read SD sector (Z.of_nat (length rs)) s = Some ((RES_OK, concat (r_data <$> rs)), s') ∧
    w_rx (spi_sd s') = rx ∧ w_log (spi_sd s') = log ++ replies_log 0 sector rs.
Proof.
  intros Hs Hc Hok. unfold disk_read. rewrite bool_decide_eq_true_2 by done. rewrite Nat2Z.id.
  pose proof (read_blocks_spec rs 0 sector cmd rx log s Hs Hc Hok) as (res & s' & E & -> & cmd' & _ & [])%wp_run.
  eauto.
Qed.

Lemma disk_read_returns_blocks_witness :
  let r := Reply (replicate 6 0xff) [0xff; 0xff] [0xff] (replicate 512 7) (1, 2) 0xff in
  let s := MkMmc (replicate 6 0) (replicate 512 0) (Wire (reply_bytes r) []) [] in
  exists s', disk_read SD 3 1 s = Some ((RES_OK, replicate 512 7), s') ∧
    w_rx (spi_sd s') = [] ∧
    w_log (spi_sd s') = [Select 1; Sent [0x51; 0; 0; 6; 0; 0xff]] ++ recvs 5 ++
      [Sent (replicate 512 0xff)] ++ recvs 2 ++ [Select 0] ++ recvs 1.
Proof.
  intros r s.
  apply (disk_read_returns_blocks [r] 3 (replicate 6 0) [] [] s).
  - by constructor.
  - done.
  - constructor; [|done]. constructor; simpl; try done; try (split; [set_solver by lia|lia]).
Defined.

(** A card that does not answer. When none of the 4095 bytes after the
    read command is the response 0, [disk_read] returns [RES_ERROR] without
    storing anything, after exactly those 4095 single-byte transfers; the
    chip select is still asserted then (the last selection is [Select 1]). *)
Theorem disk_read_timeout fill sector count cmd rx log (s : mmc wire) :
  conf cmd (fill ++ rx) log s -> length cmd = 6%nat -> length fill = (6 + 4095)%nat ->
  0x00 ∉ drop 6 fill -> 1 <= count ->
  exists s', disk_read SD sector count s = Some ((RES_ERROR, []), s') ∧
    w_rx (spi_sd s') = rx ∧
    w_log (spi_sd s') = log ++ [Select 1; Sent (cmd17 (u32 (sector + 0)))] ++ recvs 4095.
Proof.
  intros Hs Hc Hl Hn Hcnt. unfold disk_read. rewrite bool_decide_eq_true_2 by done.
  destruct (Z.to_nat count) as [|n] eqn:En; [lia|].
  cut (wp (read_blocks (S n) 0 sector) s (λ res s', res = (RES_ERROR, []) ∧
    conf (cmd17 (u32 (sector + 0))) rx (log ++ [Select 1; Sent (cmd17 (u32 (sector + 0)))] ++ recvs 4095) s')).
  { intros (res & s' & E & -> & [])%wp_run. eauto. }
  simpl read_blocks. apply wp_bind. eapply wp_mono; [by eapply read_block_timeout|]. intros res s' [-> H'].
  rewrite bool_decide_eq_true_2 by done. by apply wp_ret.
Qed.

Lemma disk_read_timeout_witness :
  let s := MkMmc (replicate 6 0) (replicate 512 0) (Wire (replicate 4101 0xff) []) [] in
  exists s', disk_read SD 1 1 s = Some ((RES_ERROR, []), s') ∧ w_rx (spi_sd s') = [] ∧
    w_log (spi_sd s') = [] ++ [Select 1; Sent (cmd17 (u32 (1 + 0)))] ++ recvs 4095.
Proof.
  intros s. apply (disk_read_timeout (replicate 4101 0xff) 1 1 (replicate 6 0) [] [] s).
  - by constructor.
  - done.
  - by rewrite length_replicate.
  - rewrite drop_replicate. intros [H _]%elem_of_replicate. lia.
  - lia.
Defined.

(** *** Initialisation *)

(** The bytes received during one command: [resp] comes after [fill], or not
    within the 4095 bytes of [fill]. *)
Definition answered (resp : Z) (bs : list Z) : Prop :=
  exists junk fill, bs = junk ++ fill ++ [resp] ∧ length junk = 6%nat ∧ (resp ∉ fill) ∧ (length fill < 4095)%nat.
Definition unanswered (resp : Z) (bs : list Z) : Prop :=
  exists junk fill, bs = junk ++ fill ∧ length junk = 6%nat ∧ (resp ∉ fill) ∧ length fill = 4095%nat.

(** A command and the wait for its response. *)
Lemma wp_cmd {A} c0 c1 c2 c3 c4 c5 resp bs r (k : Z -> ST (mmc wire) A) cmd rx log s (Q : A -> mmc wire -> Prop) :
  conf cmd (bs ++ rx) log s -> length cmd = 6%nat ->
  (r = 0 ∧ answered resp bs) ∨ (r = 1 ∧ unanswered resp bs) ->
  (forall s' cmd' log', length cmd' = 6%nat -> conf cmd' rx log' s' -> wp (k r) s' Q) ->
  wp (send_cmd c0 c1 c2 c3 c4 c5;; r ← mmc_response resp; k r) s Q.
Proof.
  intros Hs Hc Hr HQ. apply wp_bind. eapply wp_send_cmd; [exact Hs|done|]. intros s1 H1. apply wp_bind.
  destruct Hr as [[-> (junk & fill & -> & Hj & Hn & Hl)] | [-> (junk & fill & -> & Hj & Hn & Hl)]];
    rewrite <- !app_assoc, <- Hj, drop_app_length in H1.
  - eapply wp_mmc_response_found; [exact H1|done|done|]. intros s2 H2. by eapply HQ; [|exact H2].
  - eapply wp_mmc_response_timeout; [exact H1|done|done|]. intros s2 H2. by eapply HQ; [|exact H2].
Qed.

(** The card answers the CMD1 loop at the attempt after [tries]. *)
Lemma wp_cmd1_loop tries bs n cmd rx log s (Q : nat -> mmc wire -> Prop) :
  conf cmd (concat tries ++ bs ++ rx) log s -> length cmd = 6%nat ->
  Forall (unanswered 0) tries -> answered 0 bs -> (length tries < n)%nat ->
  (forall s' cmd' log', length cmd' = 6%nat -> conf cmd' rx log' s' -> Q (n - S (length tries))%nat s') ->
  wp (cmd1_loop n) s Q.
Proof.
  revert n cmd log s. induction tries as [|t tries IH]; intros n cmd log s Hs Hc Ht Hb Hn HQ;
    (destruct n as [|n]; [simpl in Hn; lia|]); cbn [cmd1_loop].
  - eapply (wp_cmd _ _ _ _ _ _ _ bs 0); [exact Hs|done|by left|]. intros s1 cmd1 log1 Hc1 H1.
    rewrite bool_decide_eq_false_2 by naive_solver. apply wp_ret.
    replace (S n - S (length []))%nat with n in HQ by (simpl; lia). by eapply HQ; [|exact H1].
  - apply Forall_cons_iff in Ht as [Ht Hts]. simpl in Hs. rewrite <- app_assoc in Hs.
    eapply (wp_cmd _ _ _ _ _ _ _ t 1); [exact Hs|done|by right|]. intros s1 cmd1 log1 Hc1 H1. simpl in Hn.
    rewrite bool_decide_eq_true_2 by (split; [lia|lia]).
    eapply IH; [exact H1|done|done|done|lia|]. intros s2 cmd2 log2 Hc2 H2. by eapply (HQ s2 cmd2 log2).
Qed.

Lemma wp_dummy_clocks {A} x1 x2 x3 (k : ST (mmc wire) A) cmd rx log s (Q : A -> mmc wire -> Prop) :
  conf cmd (x1 :: x2 :: x3 :: rx) log s ->
  (forall s' log', conf cmd rx log' s' -> wp k s' Q) -> wp (dummy_clocks;; k) s Q.
Proof.
  intros Hs HQ. unfold dummy_clocks, SET_CS. apply wp_bind, wp_bind. eapply wp_receive_byte; [exact Hs|].
  clear s Hs. intros s Hs. apply wp_bind. eapply wp_select; [exact Hs|]. clear s Hs. intros s Hs.
  apply wp_bind. eapply wp_receive_byte; [exact Hs|]. clear s Hs. intros s Hs.
  apply wp_bind. eapply wp_receive_byte; [exact Hs|]. clear s Hs. intros s Hs. apply wp_ret. by eapply HQ.
Qed.

Lemma wp_say {A} fmt args (k : ST (mmc wire) A) cmd rx log s (Q : A -> mmc wire -> Prop) :
  conf cmd rx log s -> (forall s', conf cmd rx log s' -> wp k s' Q) -> wp (printf fmt args;; k) s Q.
Proof. intros Hs HQ. apply wp_bind. by eapply wp_printf. Qed.

Lemma wp_initial_clocks bs cmd rx log s (Q : unit -> mmc wire -> Prop) :
  conf cmd (bs ++ rx) log s -> (forall s' log', conf cmd rx log' s' -> Q tt s') ->
  wp (iter_up (length bs) 0 (λ _, spi_receive_byte;; mret tt)) s Q.
Proof.
  generalize 0. revert log s. induction bs as [|x bs IH]; intros log s i Hs HQ; simpl.
  - apply wp_ret. by eapply HQ.
  - apply wp_bind, wp_bind. eapply wp_receive_byte; [exact Hs|]. intros s1 H1. apply wp_ret. by eapply IH.
Qed.

(** What a card sends that becomes ready at the CMD1 attempt after [tries]. *)
Record card_start (tries : list (list Z)) (bs : list Z) : Prop := {
  cs_bytes : exists clk b0 d1 b1 d2 b16 d3,
    bs = clk ++ b0 ++ d1 ++ concat tries ++ b1 ++ d2 ++ b16 ++ d3 ∧
    length clk = 10%nat ∧ answered 0x01 b0 ∧ length d1 = 3%nat ∧ answered 0x00 b1 ∧
    length d2 = 3%nat ∧ answered 0x00 b16 ∧ length d3 = 3%nat;
  cs_tries : Forall (unanswered 0x00) tries;
  cs_max : (length tries < 255)%nat;
}.

Lemma mmc_init_spec tries bs cmd rx log s :
  conf cmd (bs ++ rx) log s -> length cmd = 6%nat -> card_start tries bs ->
  wp mmc_init s (λ r _, r = if decide (length tries = 254%nat) then -1 else 0).
Proof.
  intros Hs Hc [(clk & b0 & d1 & b1 & d2 & b16 & d3 & -> & Hclk & H0 & Hd1 & H1 & Hd2 & H16 & Hd3) Ht Hm].
  rewrite <- !app_assoc in Hs. unfold mmc_init, SET_CS, CLEAR_CS.
  apply wp_bind. eapply wp_select; [exact Hs|]. clear s Hs. intros s Hs. apply wp_bind.
  unfold for_up. change (Z.to_nat (10 - 0)) with 10%nat. rewrite <- Hclk.
  eapply wp_initial_clocks; [exact Hs|]. clear s Hs log. intros s log Hs.
  apply wp_bind. eapply wp_select; [exact Hs|]. clear s Hs. intros s Hs.
  eapply wp_say; [exact Hs|]. clear s Hs. intros s Hs.
  eapply (wp_cmd _ _ _ _ _ _ _ b0 0); [exact Hs|done|by left|]. clear s Hs log cmd Hc. intros s cmd log Hc Hs.
  rewrite bool_decide_eq_false_2 by naive_solver. eapply wp_say; [exact Hs|]. clear s Hs. intros s Hs.
  do 3 (destruct d1 as [|? d1]; [done|]). destruct d1; [|done].
  eapply wp_dummy_clocks; [exact Hs|]. clear s Hs log. intros s log Hs.
  apply wp_bind. eapply wp_select; [exact Hs|]. clear s Hs. intros s Hs.
  eapply wp_say; [exact Hs|]. clear s Hs. intros s Hs.
  apply wp_bind. eapply wp_cmd1_loop; [exact Hs|done|done|done|exact Hm|]. clear s Hs log cmd Hc. intros s cmd log Hc Hs.
  case_decide as Hk.
  - rewrite bool_decide_eq_true_2 by (unfold MMC_TIMEOUT; lia).
    eapply wp_say; [exact Hs|]. intros. by apply wp_ret.
  - rewrite bool_decide_eq_false_2 by (unfold MMC_TIMEOUT; lia).
    eapply wp_say; [exact Hs|]. clear s Hs. intros s Hs.
    do 3 (destruct d2 as [|? d2]; [done|]). destruct d2; [|done].
    eapply wp_dummy_clocks; [exact Hs|]. clear s Hs log. intros s log Hs.
    apply wp_bind. eapply wp_select; [exact Hs|]. clear s Hs. intros s Hs.
    eapply wp_say; [exact Hs|]. clear s Hs. intros s Hs.
    eapply (wp_cmd _ _ _ _ _ _ _ b16 0); [exact Hs|done|by left|]. clear s Hs log cmd Hc. intros s cmd log Hc Hs.
    rewrite bool_decide_eq_false_2 by lia. apply wp_bind, wp_ret.
    do 3 (destruct d3 as [|? d3]; [done|]). destruct d3; [|done].
    eapply wp_dummy_clocks; [exact Hs|]. clear s Hs log. intros s log Hs.
    eapply wp_say; [exact Hs|]. intros. by apply wp_ret.
Qed.

(** Initialising a card. With a card that answers CMD0, needs some number
    of CMD1 attempts below 255 to get ready and answers CMD16,
    [disk_initialize] returns the status 0 of a usable drive, except when the
    card gets ready exactly at the 255th and last attempt: the loop counter is
    then 0, which is taken for a timeout. *)
Theorem disk_initialize_result tries bs cmd rx log (s : mmc wire) :
  conf cmd (bs ++ rx) log s -> length cmd = 6%nat -> card_start tries bs ->
  exists s', disk_initialize SD s =
    Some (if decide (length tries = 254%nat) then 255 else 0, s').
Proof.
  intros Hs Hc Hb. pose proof (mmc_init_spec tries bs cmd rx log s Hs Hc Hb) as (r & s' & E & ->)%wp_run.
  exists s'. unfold disk_initialize. rewrite bool_decide_eq_true_2 by done.
  unfold mbind, st_bind. rewrite E. by case_decide.
Qed.

Lemma disk_initialize_result_witness :
  let bs := replicate 10 0xff ++ (replicate 6 0xff ++ [0xff] ++ [1]) ++ replicate 3 0xff ++ concat [] ++
    (replicate 6 0xff ++ [] ++ [0]) ++ replicate 3 0xff ++ (replicate 6 0xff ++ [0xff] ++ [0]) ++ replicate 3 0xff in
  let s := MkMmc (replicate 6 0) (replicate 512 0) (Wire bs []) [] in
  exists s', disk_initialize SD s = Some (0, s').
Proof.
  intros bs s. apply (disk_initialize_result [] bs (replicate 6 0) [] [] s); [by constructor|done|].
  constructor; [|done|simpl; lia].
  exists (replicate 10 0xff), (replicate 6 0xff ++ [0xff] ++ [1]), (replicate 3 0xff),
    (replicate 6 0xff ++ [] ++ [0]), (replicate 3 0xff), (replicate 6 0xff ++ [0xff] ++ [0]), (replicate 3 0xff).
  split_and!; try done.
  - exists (replicate 6 0xff), [0xff]. split_and!; [done|done|set_solver by lia|simpl; lia].
  - exists (replicate 6 0xff), []. split_and!; [done|done|set_solver by lia|simpl; lia].
  - exists (replicate 6 0xff), [0xff]. split_and!; [done|done|set_solver by lia|simpl; lia].
Defined.
