(* ===== verification/FatFs.v ===== *)
(** * The FAT file system (sdloader/src/ff.c, ff.h)

    FatFs R0.09a in the configuration of ffconf.h: read-only, one volume,
    512-byte sectors, 8.3 names with code page 1251, no relative paths, byte
    access to the on-disk structures. The state is the one registered FATFS
    object, the mount counter and the disk; FIL and DIR objects are passed and
    returned. A pointer to the FATFS object is a boolean (NULL or not), a
    pointer into its window an offset. *)

From S2P Require Import Prelude.
From Stdlib Require String Ascii.
Import String.StringSyntax.

Open Scope Z_scope.

(** The storage device (diskio.h); [disk_read] returns the result and the
    bytes it has stored in the buffer. *)
Class Disk (D : Type) := {
  dk_initialize : Z -> ST D Z;
  dk_status : Z -> ST D Z;
  dk_read : Z -> Z -> Z -> ST D (bool * list Z);
}.

Inductive FRESULT :=
  | FR_OK | FR_DISK_ERR | FR_INT_ERR | FR_NOT_READY | FR_NO_FILE | FR_NO_PATH | FR_INVALID_NAME
  | FR_DENIED | FR_EXIST | FR_INVALID_OBJECT | FR_WRITE_PROTECTED | FR_INVALID_DRIVE
  | FR_NOT_ENABLED | FR_NO_FILESYSTEM | FR_MKFS_ABORTED | FR_TIMEOUT | FR_LOCKED
  | FR_NOT_ENOUGH_CORE | FR_TOO_MANY_OPEN_FILES | FR_INVALID_PARAMETER.
#[export] Instance FRESULT_eq_dec : EqDecision FRESULT.
Proof. solve_decision. Defined.

(** ** Constants *)

Definition SS : Z := 512.
Definition SZ_DIR : Z := 32.
Definition FA_READ : Z := 0x01.
Definition FA__ERROR : Z := 0x80.
Definition FS_FAT12 : Z := 1.
Definition FS_FAT16 : Z := 2.
Definition FS_FAT32 : Z := 3.
Definition AM_VOL : Z := 0x08.
Definition AM_DIR : Z := 0x10.
Definition STA_NOINIT : Z := 0x01.
Definition NS : Z := 11.
Definition NS_LAST : Z := 0x04.
Definition NS_BODY : Z := 0x08.
Definition NS_EXT : Z := 0x10.
Definition MIN_FAT16 : Z := 4086.
Definition MIN_FAT32 : Z := 65526.
Definition DDE : Z := 0xE5.
Definition NDDE : Z := 0x05.
Definition BPB_BytsPerSec : Z := 11.
Definition BPB_SecPerClus : Z := 13.
Definition BPB_RsvdSecCnt : Z := 14.
Definition BPB_NumFATs : Z := 16.
Definition BPB_RootEntCnt : Z := 17.
Definition BPB_TotSec16 : Z := 19.
Definition BPB_FATSz16 : Z := 22.
Definition BPB_TotSec32 : Z := 32.
Definition BS_FilSysType : Z := 54.
Definition BPB_FATSz32 : Z := 36.
Definition BPB_RootClus : Z := 44.
Definition BS_FilSysType32 : Z := 82.
Definition MBR_Table : Z := 446.
Definition BS_55AA : Z := 510.
Definition DIR_Name : Z := 0.
Definition DIR_Attr : Z := 11.
Definition DIR_FstClusHI : Z := 20.
Definition DIR_WrtTime : Z := 22.
Definition DIR_WrtDate : Z := 24.
Definition DIR_FstClusLO : Z := 26.
Definition DIR_FileSize : Z := 28.

(** Upper-case conversion of the characters from 0x80 on (code page 1251). *)
Definition excvt : list Z :=
  [0x80;0x81;0x82;0x82;0x84;0x85;0x86;0x87;0x88;0x89;0x8A;0x8B;0x8C;0x8D;0x8E;0x8F;
   0x80;0x91;0x92;0x93;0x94;0x95;0x96;0x97;0x98;0x99;0x8A;0x9B;0x8C;0x8D;0x8E;0x8F;
   0xA0;0xA2;0xA2;0xA3;0xA4;0xA5;0xA6;0xA7;0xA8;0xA9;0xAA;0xAB;0xAC;0xAD;0xAE;0xAF;
   0xB0;0xB1;0xB2;0xB2;0xA5;0xB5;0xB6;0xB7;0xA8;0xB9;0xAA;0xBB;0xA3;0xBD;0xBD;0xAF;
   0xC0;0xC1;0xC2;0xC3;0xC4;0xC5;0xC6;0xC7;0xC8;0xC9;0xCA;0xCB;0xCC;0xCD;0xCE;0xCF;
   0xD0;0xD1;0xD2;0xD3;0xD4;0xD5;0xD6;0xD7;0xD8;0xD9;0xDA;0xDB;0xDC;0xDD;0xDE;0xDF;
   0xC0;0xC1;0xC2;0xC3;0xC4;0xC5;0xC6;0xC7;0xC8;0xC9;0xCA;0xCB;0xCC;0xCD;0xCE;0xCF;
   0xD0;0xD1;0xD2;0xD3;0xD4;0xD5;0xD6;0xD7;0xD8;0xD9;0xDA;0xDB;0xDC;0xDD;0xDE;0xDF].

(** ** Objects *)

(** [fsi_flag] is not used in this configuration. *)
Record FATFS := MkFATFS {
  fs_type : Z;
  drv : Z;
  csize : Z;
  n_fats : Z;
  wflag : Z;
  fs_id : Z;
  n_rootdir : Z;
  n_fatent : Z;
  fs_fsize : Z;
  fatbase : Z;
  dirbase : Z;
  database : Z;
  winsect : Z;
  win : list Z;
}.

Definition set_fs_type (x : Z) (s : FATFS) : FATFS := MkFATFS x (drv s) (csize s) (n_fats s) (wflag
    s) (fs_id s) (n_rootdir s) (n_fatent s) (fs_fsize s) (fatbase s) (dirbase s) (database s)
    (winsect s) (win s).
Definition set_drv (x : Z) (s : FATFS) : FATFS := MkFATFS (fs_type s) x (csize s) (n_fats s) (wflag
    s) (fs_id s) (n_rootdir s) (n_fatent s) (fs_fsize s) (fatbase s) (dirbase s) (database s)
    (winsect s) (win s).
Definition set_csize (x : Z) (s : FATFS) : FATFS := MkFATFS (fs_type s) (drv s) x (n_fats s) (wflag
    s) (fs_id s) (n_rootdir s) (n_fatent s) (fs_fsize s) (fatbase s) (dirbase s) (database s)
    (winsect s) (win s).
Definition set_n_fats (x : Z) (s : FATFS) : FATFS := MkFATFS (fs_type s) (drv s) (csize s) x (wflag
    s) (fs_id s) (n_rootdir s) (n_fatent s) (fs_fsize s) (fatbase s) (dirbase s) (database s)
    (winsect s) (win s).
Definition set_wflag (x : Z) (s : FATFS) : FATFS := MkFATFS (fs_type s) (drv s) (csize s) (n_fats s)
    x (fs_id s) (n_rootdir s) (n_fatent s) (fs_fsize s) (fatbase s) (dirbase s) (database s)
    (winsect s) (win s).
Definition set_fs_id (x : Z) (s : FATFS) : FATFS := MkFATFS (fs_type s) (drv s) (csize s) (n_fats s)
    (wflag s) x (n_rootdir s) (n_fatent s) (fs_fsize s) (fatbase s) (dirbase s) (database s)
    (winsect s) (win s).
Definition set_n_rootdir (x : Z) (s : FATFS) : FATFS := MkFATFS (fs_type s) (drv s) (csize s)
    (n_fats s) (wflag s) (fs_id s) x (n_fatent s) (fs_fsize s) (fatbase s) (dirbase s) (database s)
    (winsect s) (win s).
Definition set_n_fatent (x : Z) (s : FATFS) : FATFS := MkFATFS (fs_type s) (drv s) (csize s) (n_fats
    s) (wflag s) (fs_id s) (n_rootdir s) x (fs_fsize s) (fatbase s) (dirbase s) (database s)
    (winsect s) (win s).
Definition set_fs_fsize (x : Z) (s : FATFS) : FATFS := MkFATFS (fs_type s) (drv s) (csize s) (n_fats
    s) (wflag s) (fs_id s) (n_rootdir s) (n_fatent s) x (fatbase s) (dirbase s) (database s)
    (winsect s) (win s).
Definition set_fatbase (x : Z) (s : FATFS) : FATFS := MkFATFS (fs_type s) (drv s) (csize s) (n_fats
    s) (wflag s) (fs_id s) (n_rootdir s) (n_fatent s) (fs_fsize s) x (dirbase s) (database s)
    (winsect s) (win s).
Definition set_dirbase (x : Z) (s : FATFS) : FATFS := MkFATFS (fs_type s) (drv s) (csize s) (n_fats
    s) (wflag s) (fs_id s) (n_rootdir s) (n_fatent s) (fs_fsize s) (fatbase s) x (database s)
    (winsect s) (win s).
Definition set_database (x : Z) (s : FATFS) : FATFS := MkFATFS (fs_type s) (drv s) (csize s) (n_fats
    s) (wflag s) (fs_id s) (n_rootdir s) (n_fatent s) (fs_fsize s) (fatbase s) (dirbase s) x
    (winsect s) (win s).
Definition set_winsect (x : Z) (s : FATFS) : FATFS := MkFATFS (fs_type s) (drv s) (csize s) (n_fats
    s) (wflag s) (fs_id s) (n_rootdir s) (n_fatent s) (fs_fsize s) (fatbase s) (dirbase s) (database
    s) x (win s).
Definition set_win (x : list Z) (s : FATFS) : FATFS := MkFATFS (fs_type s) (drv s) (csize s) (n_fats
    s) (wflag s) (fs_id s) (n_rootdir s) (n_fatent s) (fs_fsize s) (fatbase s) (dirbase s) (database
    s) (winsect s) x.


Record FIL := MkFIL {
  fil_fs : bool;
  fil_id : Z;
  flag : Z;
  fptr : Z;
  fsize : Z;
  sclust : Z;
  clust : Z;
  dsect : Z;
  buf : list Z;
}.

Definition set_fil_fs (x : bool) (s : FIL) : FIL := MkFIL x (fil_id s) (flag s) (fptr s) (fsize s)
    (sclust s) (clust s) (dsect s) (buf s).
Definition set_fil_id (x : Z) (s : FIL) : FIL := MkFIL (fil_fs s) x (flag s) (fptr s) (fsize s)
    (sclust s) (clust s) (dsect s) (buf s).
Definition set_flag (x : Z) (s : FIL) : FIL := MkFIL (fil_fs s) (fil_id s) x (fptr s) (fsize s)
    (sclust s) (clust s) (dsect s) (buf s).
Definition set_fptr (x : Z) (s : FIL) : FIL := MkFIL (fil_fs s) (fil_id s) (flag s) x (fsize s)
    (sclust s) (clust s) (dsect s) (buf s).
Definition set_fsize (x : Z) (s : FIL) : FIL := MkFIL (fil_fs s) (fil_id s) (flag s) (fptr s) x
    (sclust s) (clust s) (dsect s) (buf s).
Definition set_sclust (x : Z) (s : FIL) : FIL := MkFIL (fil_fs s) (fil_id s) (flag s) (fptr s)
    (fsize s) x (clust s) (dsect s) (buf s).
Definition set_clust (x : Z) (s : FIL) : FIL := MkFIL (fil_fs s) (fil_id s) (flag s) (fptr s) (fsize
    s) (sclust s) x (dsect s) (buf s).
Definition set_dsect (x : Z) (s : FIL) : FIL := MkFIL (fil_fs s) (fil_id s) (flag s) (fptr s) (fsize
    s) (sclust s) (clust s) x (buf s).
Definition set_buf (x : list Z) (s : FIL) : FIL := MkFIL (fil_fs s) (fil_id s) (flag s) (fptr s)
    (fsize s) (sclust s) (clust s) (dsect s) x.


Record DIR := MkDIR {
  dj_fs : bool;
  dj_id : Z;
  index : Z;
  dj_sclust : Z;
  dj_clust : Z;
  sect : Z;
  dir : option Z;
  fn : list Z;
}.

Definition set_dj_fs (x : bool) (s : DIR) : DIR := MkDIR x (dj_id s) (index s) (dj_sclust s)
    (dj_clust s) (sect s) (dir s) (fn s).
Definition set_dj_id (x : Z) (s : DIR) : DIR := MkDIR (dj_fs s) x (index s) (dj_sclust s) (dj_clust
    s) (sect s) (dir s) (fn s).
Definition set_index (x : Z) (s : DIR) : DIR := MkDIR (dj_fs s) (dj_id s) x (dj_sclust s) (dj_clust
    s) (sect s) (dir s) (fn s).
Definition set_dj_sclust (x : Z) (s : DIR) : DIR := MkDIR (dj_fs s) (dj_id s) (index s) x (dj_clust
    s) (sect s) (dir s) (fn s).
Definition set_dj_clust (x : Z) (s : DIR) : DIR := MkDIR (dj_fs s) (dj_id s) (index s) (dj_sclust s)
    x (sect s) (dir s) (fn s).
Definition set_sect (x : Z) (s : DIR) : DIR := MkDIR (dj_fs s) (dj_id s) (index s) (dj_sclust s)
    (dj_clust s) x (dir s) (fn s).
Definition set_dir (x : option Z) (s : DIR) : DIR := MkDIR (dj_fs s) (dj_id s) (index s) (dj_sclust
    s) (dj_clust s) (sect s) x (fn s).
Definition set_fn (x : list Z) (s : DIR) : DIR := MkDIR (dj_fs s) (dj_id s) (index s) (dj_sclust s)
    (dj_clust s) (sect s) (dir s) x.


Record FILINFO := MkFILINFO {
  fi_fsize : Z;
  fdate : Z;
  ftime : Z;
  fattrib : Z;
  fname : list Z;
}.

Definition set_fi_fsize (x : Z) (s : FILINFO) : FILINFO := MkFILINFO x (fdate s) (ftime s) (fattrib
    s) (fname s).
Definition set_fdate (x : Z) (s : FILINFO) : FILINFO := MkFILINFO (fi_fsize s) x (ftime s) (fattrib
    s) (fname s).
Definition set_ftime (x : Z) (s : FILINFO) : FILINFO := MkFILINFO (fi_fsize s) (fdate s) x (fattrib
    s) (fname s).
Definition set_fattrib (x : Z) (s : FILINFO) : FILINFO := MkFILINFO (fi_fsize s) (fdate s) (ftime s)
    x (fname s).
Definition set_fname (x : list Z) (s : FILINFO) : FILINFO := MkFILINFO (fi_fsize s) (fdate s) (ftime
    s) (fattrib s) x.


(** ** Memory *)

(** Little-endian access, byte by byte. *)
Definition LD_WORD (p : list Z) (i : Z) : option Z :=
  b1 ← arr_get p (i + 1);
  b0 ← arr_get p i;
  Some (u16 (Z.lor (Z.shiftl b1 8) b0)).

Definition LD_DWORD (p : list Z) (i : Z) : option Z :=
  b3 ← arr_get p (i + 3);
  b2 ← arr_get p (i + 2);
  b1 ← arr_get p (i + 1);
  b0 ← arr_get p i;
  Some (u32 (Z.lor (Z.lor (Z.lor (Z.shiftl b3 24) (Z.shiftl b2 16)) (Z.shiftl b1 8)) b0)).

(** [cnt] bytes of an array from [i] on (the source of [mem_cpy]). *)
Definition mem_cpy (s : list Z) (i cnt : Z) : option (list Z) :=
  if decide (0 <= i ∧ 0 <= cnt ∧ i + cnt <= Z.of_nat (length s))
  then Some (take (Z.to_nat cnt) (drop (Z.to_nat i) s)) else None.

(** [mem_cmp(&d[i], s, cnt) == 0] *)
Fixpoint mem_cmp (d s : list Z) (cnt : nat) : option bool :=
  match cnt with
  | O => Some true
  | S cnt =>
      match d, s with
      | x :: d, y :: s => if bool_decide (x - y = 0) then mem_cmp d s cnt else Some false
      | _, _ => None
      end
  end.

(** [mem_set(dst, val, cnt)] *)
Definition mem_set (dst : list Z) (val cnt : Z) : option (list Z) :=
  if decide (0 <= cnt <= Z.of_nat (length dst))
  then Some (replicate (Z.to_nat cnt) val ++ drop (Z.to_nat cnt) dst) else None.

(** Whether [chr] is in the string; the C function returns the character it
    stopped at. *)
Fixpoint chk_chr (str : list Z) (chr : Z) : option Z :=
  match str with
  | [] => None
  | c :: str => if bool_decide (c ≠ 0 ∧ c ≠ chr) then chk_chr str chr else Some c
  end.

(** The first bytes of a buffer are overwritten. *)
Definition buf_store (data buf : list Z) : list Z := data ++ drop (length data) buf.

(** The characters that a short name must not contain, zero terminated. *)
Definition bad_chars : list Z := [34; 42; 43; 44; 58; 59; 60; 61; 62; 63; 91; 93; 124; 0x7F; 0].

Definition IsUpper (c : Z) : bool := bool_decide (65 <= c <= 90).
Definition IsLower (c : Z) : bool := bool_decide (97 <= c <= 122).
Definition is_sep (c : Z) : bool := bool_decide (c = 47) || bool_decide (c = 92).

Section fatfs.
Context {D : Type} `{Disk D}.

(** The registered file system object ([FatFs[0]], if [FatFs]), the mount
    counter and the disk. *)
Record ff := MkFF {
  ff_fs : FATFS;
  FatFs : bool;
  Fsid : Z;
  ff_disk : D;
}.

Definition set_ff_fs (x : FATFS) (s : ff) : ff := MkFF x (FatFs s) (Fsid s) (ff_disk s).
Definition set_FatFs (x : bool) (s : ff) : ff := MkFF (ff_fs s) x (Fsid s) (ff_disk s).
Definition set_Fsid (x : Z) (s : ff) : ff := MkFF (ff_fs s) (FatFs s) x (ff_disk s).
Definition set_ff_disk (x : D) (s : ff) : ff := MkFF (ff_fs s) (FatFs s) (Fsid s) x.


Definition fs_get {A} (f : FATFS -> A) : ST ff A := gets (λ w, f (ff_fs w)).
Definition fs_mod (f : FATFS -> FATFS) : ST ff unit := modify (λ w, set_ff_fs (f (ff_fs w)) w).
Definition disk {A} (m : ST D A) : ST ff A := zoom ff_disk set_ff_disk m.

(** [disk_read(fs->drv, fs->win, sector, 1)] *)
Definition read_win (sector : Z) : ST ff bool :=
  d ← fs_get drv;
  r ← disk (dk_read d sector 1);
  let '(ok, data) := r in
  fs_mod (λ fs, set_win (buf_store data (win fs)) fs);;
  mret ok.

(** Bytes and words of the window. *)
Definition win_byte (i : Z) : ST ff Z := w ← fs_get win; lift (arr_get w i).
Definition win_word (i : Z) : ST ff Z := w ← fs_get win; lift (LD_WORD w i).
Definition win_dword (i : Z) : ST ff Z := w ← fs_get win; lift (LD_DWORD w i).

Definition move_window (sector : Z) : ST ff FRESULT :=
  wsect ← fs_get winsect;
  if bool_decide (wsect ≠ sector) then
    if bool_decide (sector ≠ 0) then
      ok ← read_win sector;
      if (ok : bool) then fs_mod (set_winsect sector);; mret FR_OK else mret FR_DISK_ERR
    else mret FR_OK
  else mret FR_OK.

Definition clust2sect (clst : Z) : ST ff Z :=
  fs ← gets ff_fs;
  let clst := u32 (clst - 2) in
  mret (if bool_decide (u32 (n_fatent fs - 2) <= clst) then 0
        else u32 (clst * csize fs + database fs)).

(** ** The file allocation table *)

Definition get_fat (clst : Z) : ST ff Z :=
  fs ← gets ff_fs;
  if bool_decide (clst < 2 ∨ n_fatent fs <= clst) then mret 1 else
  if bool_decide (fs_type fs = FS_FAT12) then
    let bc := clst in
    let bc := u32 (bc + bc / 2) in
    r ← move_window (u32 (fatbase fs + bc / SS));
    if bool_decide (r ≠ FR_OK) then mret 0xFFFFFFFF else
    wc ← win_byte (bc mod SS);
    let bc := u32 (bc + 1) in
    r ← move_window (u32 (fatbase fs + bc / SS));
    if bool_decide (r ≠ FR_OK) then mret 0xFFFFFFFF else
    x ← win_byte (bc mod SS);
    let wc := Z.lor wc (Z.shiftl x 8) in
    mret (if bool_decide (Z.land clst 1 ≠ 0) then Z.shiftr wc 4 else Z.land wc 0xFFF)
  else if bool_decide (fs_type fs = FS_FAT16) then
    r ← move_window (u32 (fatbase fs + clst / (SS / 2)));
    if bool_decide (r ≠ FR_OK) then mret 0xFFFFFFFF else
    win_word (u32 (clst * 2) mod SS)
  else if bool_decide (fs_type fs = FS_FAT32) then
    r ← move_window (u32 (fatbase fs + clst / (SS / 4)));
    if bool_decide (r ≠ FR_OK) then mret 0xFFFFFFFF else
    x ← win_dword (u32 (clst * 4) mod SS);
    mret (Z.land x 0x0FFFFFFF)
  else mret 0xFFFFFFFF.

(** ** Directories *)

(** The loop of [dir_sdi] that follows the cluster chain: the cluster and the
    rest of the index. *)
Fixpoint sdi_loop (fuel : nat) (ic clst idx : Z) : ST ff (FRESULT * Z * Z) :=
  match fuel with
  | O => undef
  | S fuel =>
      if bool_decide (ic <= idx) then
        clst ← get_fat clst;
        if bool_decide (clst = 0xFFFFFFFF) then mret (FR_DISK_ERR, clst, idx) else
        n ← fs_get n_fatent;
        if bool_decide (clst < 2 ∨ n <= clst) then mret (FR_INT_ERR, clst, idx) else
        sdi_loop fuel ic clst (u16 (idx - ic))
      else mret (FR_OK, clst, idx)
  end.

(** Every iteration takes [ic] off a 16-bit index. *)
Definition SDI_FUEL : nat := Z.to_nat 65537.

Definition dir_sdi (dj : DIR) (idx : Z) : ST ff (FRESULT * DIR) :=
  fs ← gets ff_fs;
  let dj := set_index idx dj in
  let clst := dj_sclust dj in
  if bool_decide (clst = 1 ∨ n_fatent fs <= clst) then mret (FR_INT_ERR, dj) else
  let clst := if bool_decide (clst = 0 ∧ fs_type fs = FS_FAT32) then dirbase fs else clst in
  if bool_decide (clst = 0) then
    let dj := set_dj_clust clst dj in
    if bool_decide (n_rootdir fs <= idx) then mret (FR_INT_ERR, dj) else
    let dj := set_sect (u32 (dirbase fs + idx / (SS / SZ_DIR))) dj in
    mret (FR_OK, set_dir (Some ((idx mod (SS / SZ_DIR)) * SZ_DIR)) dj)
  else
    let ic := u16 (SS / SZ_DIR * csize fs) in
    r ← sdi_loop SDI_FUEL ic clst idx;
    let '(res, clst, idx) := r in
    if bool_decide (res ≠ FR_OK) then mret (res, dj) else
    let dj := set_dj_clust clst dj in
    s ← clust2sect clst;
    let dj := set_sect (u32 (s + idx / (SS / SZ_DIR))) dj in
    mret (FR_OK, set_dir (Some ((idx mod (SS / SZ_DIR)) * SZ_DIR)) dj).

(** [stretch] has no effect in this configuration. *)
Definition dir_next (dj : DIR) : ST ff (FRESULT * DIR) :=
  fs ← gets ff_fs;
  let i := u16 (index dj + 1) in
  let done dj := mret (FR_OK, set_dir (Some ((i mod (SS / SZ_DIR)) * SZ_DIR)) (set_index i dj)) in
  if bool_decide (i = 0 ∨ sect dj = 0) then mret (FR_NO_FILE, dj) else
  if bool_decide (i mod (SS / SZ_DIR) = 0) then
    let dj := set_sect (u32 (sect dj + 1)) dj in
    if bool_decide (dj_clust dj = 0) then
      if bool_decide (n_rootdir fs <= i) then mret (FR_NO_FILE, dj) else done dj
    else if bool_decide (Z.land (i / (SS / SZ_DIR)) (csize fs - 1) = 0) then
      clst ← get_fat (dj_clust dj);
      if bool_decide (clst <= 1) then mret (FR_INT_ERR, dj) else
      if bool_decide (clst = 0xFFFFFFFF) then mret (FR_DISK_ERR, dj) else
      if bool_decide (n_fatent fs <= clst) then mret (FR_NO_FILE, dj) else
      s ← clust2sect clst;
      done (set_sect s (set_dj_clust clst dj))
    else done dj
  else done dj.

(** An entry of the directory table in the window: [dir[off]]. *)
Definition dir_ptr (dj : DIR) : ST ff Z := lift (dir dj).
Definition dir_byte (d off : Z) : ST ff Z := win_byte (d + off).
Definition dir_word (d off : Z) : ST ff Z := win_word (d + off).

Definition ld_clust (d : Z) : ST ff Z :=
  cl ← dir_word d DIR_FstClusLO;
  t ← fs_get fs_type;
  if bool_decide (t = FS_FAT32) then
    hi ← dir_word d DIR_FstClusHI;
    mret (Z.lor cl (u32 (Z.shiftl hi 16)))
  else mret cl.

(** The index of a directory is 16 bits wide, so a scan ends. *)
Definition DIR_FUEL : nat := Z.to_nat 65537.

Fixpoint find_loop (fuel : nat) (dj : DIR) : ST ff (FRESULT * DIR) :=
  match fuel with
  | O => undef
  | S fuel =>
      res ← move_window (sect dj);
      if bool_decide (res ≠ FR_OK) then mret (res, dj) else
      d ← dir_ptr dj;
      c ← dir_byte d DIR_Name;
      if bool_decide (c = 0) then mret (FR_NO_FILE, dj) else
      a ← dir_byte d DIR_Attr;
      w ← fs_get win;
      eq ← (if bool_decide (Z.land a AM_VOL = 0) then lift (mem_cmp (drop (Z.to_nat d) w) (fn dj) 11)
            else mret false);
      if (eq : bool) then mret (FR_OK, dj) else
      r ← dir_next dj;
      let '(res, dj) := r in
      if bool_decide (res = FR_OK) then find_loop fuel dj else mret (res, dj)
  end.

Definition dir_find (dj : DIR) : ST ff (FRESULT * DIR) :=
  r ← dir_sdi dj 0;
  let '(res, dj) := r in
  if bool_decide (res ≠ FR_OK) then mret (res, dj) else find_loop DIR_FUEL dj.

Fixpoint read_loop (fuel : nat) (dj : DIR) (res : FRESULT) : ST ff (FRESULT * DIR) :=
  match fuel with
  | O => undef
  | S fuel =>
      if bool_decide (sect dj = 0) then mret (res, dj) else
      res ← move_window (sect dj);
      if bool_decide (res ≠ FR_OK) then mret (res, dj) else
      d ← dir_ptr dj;
      c ← dir_byte d DIR_Name;
      if bool_decide (c = 0) then mret (FR_NO_FILE, dj) else
      a ← dir_byte d DIR_Attr;
      if bool_decide (c ≠ DDE ∧ c ≠ 46 ∧ Z.land a AM_VOL = 0) then mret (res, dj) else
      r ← dir_next dj;
      let '(res, dj) := r in
      if bool_decide (res ≠ FR_OK) then mret (res, dj) else read_loop fuel dj res
  end.

Definition dir_read (dj : DIR) : ST ff (FRESULT * DIR) :=
  r ← read_loop DIR_FUEL dj FR_NO_FILE;
  let '(res, dj) := r in
  mret (res, if bool_decide (res ≠ FR_OK) then set_sect 0 dj else dj).

(** ** Names *)

(** The loop over the characters of a segment: the name field, whether it is
    an error, [i], [ni], [b], the terminating character and the rest of the
    path. *)
Record segment := Segment { sg_fn : list Z; sg_i : Z; sg_ni : Z; sg_b : Z; sg_c : Z; sg_rest : list Z }.

Fixpoint name_loop (p : list Z) (sfn : list Z) (i ni b : Z) : option (FRESULT * segment) :=
  match p with
  | [] => None
  | c :: p =>
      if bool_decide (c <= 32) || is_sep c then Some (FR_OK, Segment sfn i ni b c p)
      else if bool_decide (c = 46 ∨ ni <= i) then
        if bool_decide (ni ≠ 8 ∨ c ≠ 46) then Some (FR_INVALID_NAME, Segment sfn i ni b c p)
        else name_loop p sfn 8 11 (u8 (Z.shiftl b 2))
      else
        let b := if bool_decide (0x80 <= c) then Z.lor b 3 else b in
        c ← (if bool_decide (0x80 <= c) then arr_get excvt (c - 0x80) else Some c);
        bad ← chk_chr bad_chars c;
        if bool_decide (bad ≠ 0) then Some (FR_INVALID_NAME, Segment sfn i ni b c p) else
        let '(b, c) :=
          if IsUpper c then (Z.lor b 2, c)
          else if IsLower c then (Z.lor b 1, u8 (c - 0x20)) else (b, c) in
        sfn' ← arr_set sfn i c;
        name_loop p sfn' (i + 1) ni b
  end.

(** Leading separators are stripped. *)
Fixpoint strip_sep (p : list Z) : list Z :=
  match p with
  | c :: p' => if is_sep c then strip_sep p' else p
  | [] => []
  end.

Definition create_name (dj : DIR) (path : list Z) : option (FRESULT * DIR * list Z) :=
  let p := strip_sep path in
  sfn ← mem_set (fn dj) 32 11;
  r ← name_loop p sfn 0 8 0;
  let '(res, sg) := r in
  if bool_decide (res ≠ FR_OK) then Some (res, set_fn (sg_fn sg) dj, path) else
  let c := if bool_decide (sg_c sg <= 32) then NS_LAST else 0 in
  if bool_decide (sg_i sg = 0) then Some (FR_INVALID_NAME, set_fn (sg_fn sg) dj, sg_rest sg) else
  f0 ← arr_get (sg_fn sg) 0;
  sfn ← (if bool_decide (f0 = DDE) then arr_set (sg_fn sg) 0 NDDE else Some (sg_fn sg));
  let b := if bool_decide (sg_ni sg = 8) then u8 (Z.shiftl (sg_b sg) 2) else sg_b sg in
  let c := if bool_decide (Z.land b 0x03 = 0x01) then Z.lor c NS_EXT else c in
  let c := if bool_decide (Z.land b 0x0C = 0x04) then Z.lor c NS_BODY else c in
  sfn ← arr_set sfn NS c;
  Some (FR_OK, set_fn sfn dj, sg_rest sg).

(** The characters of a name field up to the first space. *)
Fixpoint name_chars (l : list Z) : list Z :=
  match l with
  | [] => []
  | c :: l => if bool_decide (c = 32) then [] else c :: name_chars l
  end.

Definition get_fileinfo (dj : DIR) (fno : FILINFO) : ST ff FILINFO :=
  if bool_decide (sect dj ≠ 0) then
    d ← dir_ptr dj;
    w ← fs_get win;
    body ← lift (mem_cpy w d 8);
    ext ← lift (mem_cpy w (d + 8) 3);
    let name := (λ c, if bool_decide (c = NDDE) then DDE else c) <$> name_chars body in
    e0 ← lift (arr_get ext 0);
    let name := if bool_decide (e0 ≠ 32) then name ++ 46 :: name_chars ext else name in
    a ← dir_byte d DIR_Attr;
    sz ← win_dword (d + DIR_FileSize);
    date ← dir_word d DIR_WrtDate;
    time ← dir_word d DIR_WrtTime;
    mret (MkFILINFO sz date time a (buf_store (name ++ [0]) (fname fno)))
  else mret (set_fname (buf_store [0] (fname fno)) fno).

(** ** Paths *)

Fixpoint path_loop (fuel : nat) (dj : DIR) (path : list Z) : ST ff (FRESULT * DIR) :=
  match fuel with
  | O => undef
  | S fuel =>
      r ← lift (create_name dj path);
      let '(res, dj, path) := r in
      if bool_decide (res ≠ FR_OK) then mret (res, dj) else
      r ← dir_find dj;
      let '(res, dj) := r in
      ns ← lift (arr_get (fn dj) NS);
      if bool_decide (res ≠ FR_OK) then
        if bool_decide (res ≠ FR_NO_FILE) then mret (res, dj) else
        mret (if bool_decide (Z.land ns NS_LAST = 0) then FR_NO_PATH else res, dj)
      else if bool_decide (Z.land ns NS_LAST ≠ 0) then mret (FR_OK, dj)
      else
        d ← dir_ptr dj;
        a ← dir_byte d DIR_Attr;
        if bool_decide (Z.land a AM_DIR = 0) then mret (FR_NO_PATH, dj) else
        cl ← ld_clust d;
        path_loop fuel (set_dj_sclust cl dj) path
  end.

(** Every iteration takes at least one character off the path. *)
Definition follow_path (dj : DIR) (path : list Z) : ST ff (FRESULT * DIR) :=
  c ← lift (arr_get path 0);
  let path := if is_sep c then tail path else path in
  let dj := set_dj_sclust 0 dj in
  c ← lift (arr_get path 0);
  if bool_decide (c < 32) then
    r ← dir_sdi dj 0;
    let '(res, dj) := r in
    mret (res, set_dir None dj)
  else path_loop (S (length path)) dj path.

(** ** Mounting *)

Definition check_fs (sect : Z) : ST ff Z :=
  ok ← read_win sect;
  if negb (ok : bool) then mret 3 else
  sig ← win_word BS_55AA;
  if bool_decide (sig ≠ 0xAA55) then mret 2 else
  t ← win_dword BS_FilSysType;
  if bool_decide (Z.land t 0xFFFFFF = 0x544146) then mret 0 else
  t ← win_dword BS_FilSysType32;
  if bool_decide (Z.land t 0xFFFFFF = 0x544146) then mret 0 else mret 1.

(** The drive number in front of a path, and the path without it. *)
Definition path_volume (path : list Z) : option (Z * list Z) :=
  p0 ← arr_get path 0;
  let vol := u32 (p0 - 48) in
  if bool_decide (vol <= 9) then
    p1 ← arr_get path 1;
    Some (if bool_decide (p1 = 58) then (vol, drop 2 path) else (0, path))
  else Some (0, path).

(** The search for the boot record: [fmt] and [bsect]. *)
Definition find_vbr : ST ff (Z * Z) :=
  fmt ← check_fs 0;
  if bool_decide (fmt = 1) then
    t4 ← win_byte (MBR_Table + 4);
    if bool_decide (t4 ≠ 0) then
      bsect ← win_dword (MBR_Table + 8);
      fmt ← check_fs bsect;
      mret (fmt, bsect)
    else mret (fmt, 0)
  else mret (fmt, 0).

(** The last part of [chk_mounted], from the FAT sub-type on. *)
Definition mount_limits (bsect nrsv fasize nroot sysect nclst : Z) : ST ff FRESULT :=
  let fmt := if bool_decide (MIN_FAT32 <= nclst) then FS_FAT32
             else if bool_decide (MIN_FAT16 <= nclst) then FS_FAT16 else FS_FAT12 in
  let nfe := u32 (nclst + 2) in
  fs_mod (set_n_fatent nfe);;
  fs_mod (set_database (u32 (bsect + sysect)));;
  fs_mod (set_fatbase (u32 (bsect + nrsv)));;
  szbfat ← (if bool_decide (fmt = FS_FAT32) then
              if bool_decide (nroot ≠ 0) then mret None else
              root ← win_dword BPB_RootClus;
              fs_mod (set_dirbase root);;
              mret (Some (u32 (nfe * 4)))
            else
              if bool_decide (nroot = 0) then mret None else
              fs_mod (λ fs, set_dirbase (u32 (fatbase fs + fasize)) fs);;
              mret (Some (if bool_decide (fmt = FS_FAT16) then u32 (nfe * 2)
                          else u32 (u32 (nfe * 3) / 2 + Z.land nfe 1))));
  match szbfat with
  | None => mret FR_NO_FILESYSTEM
  | Some szbfat =>
      sz ← fs_get fs_fsize;
      if bool_decide (sz < u32 (szbfat + (SS - 1)) / SS) then mret FR_NO_FILESYSTEM else
      fs_mod (set_fs_type fmt);;
      id ← gets Fsid;
      modify (set_Fsid (u16 (id + 1)));;
      fs_mod (set_fs_id (u16 (id + 1)));;
      fs_mod (set_winsect 0);;
      fs_mod (set_wflag 0);;
      mret FR_OK
  end.

(** The analysis of the BIOS parameter block, from the check of the sector
    size to the end of [chk_mounted]. *)
Definition mount_bpb (bsect : Z) : ST ff FRESULT :=
  bps ← win_word BPB_BytsPerSec;
  if bool_decide (bps ≠ SS) then mret FR_NO_FILESYSTEM else
  fasize ← win_word BPB_FATSz16;
  fasize ← (if bool_decide (fasize = 0) then win_dword BPB_FATSz32 else mret fasize);
  fs_mod (set_fs_fsize fasize);;
  b ← win_byte BPB_NumFATs;
  fs_mod (set_n_fats b);;
  if bool_decide (b ≠ 1 ∧ b ≠ 2) then mret FR_NO_FILESYSTEM else
  let fasize := u32 (fasize * b) in
  b ← win_byte BPB_SecPerClus;
  fs_mod (set_csize b);;
  if bool_decide (b = 0 ∨ Z.land b (b - 1) ≠ 0) then mret FR_NO_FILESYSTEM else
  nroot ← win_word BPB_RootEntCnt;
  fs_mod (set_n_rootdir nroot);;
  if bool_decide (nroot mod (SS / SZ_DIR) ≠ 0) then mret FR_NO_FILESYSTEM else
  tsect ← win_word BPB_TotSec16;
  tsect ← (if bool_decide (tsect = 0) then win_dword BPB_TotSec32 else mret tsect);
  nrsv ← win_word BPB_RsvdSecCnt;
  if bool_decide (nrsv = 0) then mret FR_NO_FILESYSTEM else
  let sysect := u32 (nrsv + fasize + nroot / (SS / SZ_DIR)) in
  if bool_decide (tsect < sysect) then mret FR_NO_FILESYSTEM else
  let nclst := (tsect - sysect) / b in
  if bool_decide (nclst = 0) then mret FR_NO_FILESYSTEM else
  mount_limits bsect nrsv fasize nroot sysect nclst.

(** The result, whether [*rfs] is not NULL, and the path without the drive. *)
Definition chk_mounted (path : list Z) : ST ff (FRESULT * bool * list Z) :=
  r ← lift (path_volume path);
  let '(vol, path) := r in
  if bool_decide (1 <= vol) then mret (FR_INVALID_DRIVE, false, path) else
  reg ← gets FatFs;
  if negb (reg : bool) then mret (FR_NOT_ENABLED, false, path) else
  t ← fs_get fs_type;
  stat ← (if bool_decide (t ≠ 0) then d ← fs_get drv; disk (dk_status d) else mret STA_NOINIT);
  if bool_decide (Z.land stat STA_NOINIT = 0) then mret (FR_OK, true, path) else
  fs_mod (set_fs_type 0);;
  fs_mod (set_drv (u8 vol));;
  stat ← disk (dk_initialize (u8 vol));
  if bool_decide (Z.land stat STA_NOINIT ≠ 0) then mret (FR_NOT_READY, true, path) else
  r ← find_vbr;
  let '(fmt, bsect) := r in
  if bool_decide (fmt = 3) then mret (FR_DISK_ERR, true, path) else
  if bool_decide (fmt ≠ 0) then mret (FR_NO_FILESYSTEM, true, path) else
  res ← mount_bpb bsect;
  mret (res, true, path).

(** The [fs] and [id] of a FIL or DIR object. *)
Definition validate (obj_fs : bool) (obj_id : Z) : ST ff FRESULT :=
  fs ← gets ff_fs;
  if negb obj_fs || bool_decide (fs_type fs = 0) || bool_decide (fs_id fs ≠ obj_id)
  then mret FR_INVALID_OBJECT else
  stat ← disk (dk_status (drv fs));
  mret (if bool_decide (Z.land stat STA_NOINIT ≠ 0) then FR_NOT_READY else FR_OK).

(** ** Public functions *)

(** [fs] is whether the argument is the object or NULL. *)
Definition f_mount (vol : Z) (fs : bool) : ST ff FRESULT :=
  if bool_decide (1 <= vol) then mret FR_INVALID_DRIVE else
  rfs ← gets FatFs;
  (if (rfs : bool) then fs_mod (set_fs_type 0) else skip);;
  (if fs then fs_mod (set_fs_type 0) else skip);;
  modify (set_FatFs fs);;
  mret FR_OK.

(** The contents of an uninitialised DIR object. *)
Context (dir0 : DIR).

Definition f_open (fp : FIL) (path : list Z) (mode : Z) : ST ff (FRESULT * FIL) :=
  let fp := set_fil_fs false fp in
  let mode := Z.land mode FA_READ in
  r ← chk_mounted path;
  let '(res, rfs, path) := r in
  if bool_decide (res ≠ FR_OK) then mret (res, fp) else
  let dj := set_fn (replicate 12 0) (set_dj_fs rfs dir0) in
  r ← follow_path dj path;
  let '(res, dj) := r in
  if bool_decide (res ≠ FR_OK) then mret (res, fp) else
  match dir dj with
  | None => mret (FR_INVALID_NAME, fp)
  | Some d =>
      a ← dir_byte d DIR_Attr;
      if bool_decide (Z.land a AM_DIR ≠ 0) then mret (FR_NO_FILE, fp) else
      cl ← ld_clust d;
      sz ← win_dword (d + DIR_FileSize);
      id ← fs_get fs_id;
      mret (FR_OK, MkFIL rfs id mode 0 sz cl (clust fp) 0 (buf fp))
  end.

(** [ABORT(fs, res)] *)
Definition abort (fp : FIL) : FIL := set_flag (Z.lor (flag fp) FA__ERROR) fp.

(** The result of a read: result code, file object, [*br] and the bytes that
    were stored from [buff] on. *)
Definition rresult : Type := FRESULT * FIL * Z * list Z.

(** The cluster of the file pointer, on a sector boundary: the new cluster
    or an error. *)
Definition read_cluster (fp : FIL) (csect : Z) : ST ff (FRESULT * FIL) :=
  if bool_decide (csect = 0) then
    clst ← (if bool_decide (fptr fp = 0) then mret (sclust fp) else get_fat (clust fp));
    if bool_decide (clst < 2) then mret (FR_INT_ERR, abort fp) else
    if bool_decide (clst = 0xFFFFFFFF) then mret (FR_DISK_ERR, abort fp) else
    mret (FR_OK, set_clust clst fp)
  else mret (FR_OK, fp).

(** [disk_read(fs->drv, fp->buf, sect, 1)] *)
Definition read_buf (fp : FIL) (sect : Z) : ST ff (bool * FIL) :=
  d ← fs_get drv;
  r ← disk (dk_read d sect 1);
  let '(ok, data) := r in
  mret (ok, set_buf (buf_store data (buf fp)) fp).

(** The part of the loop body that copies from the sector buffer: the bytes. *)
Definition partial (fp : FIL) (btr : Z) : option (list Z) :=
  let rcnt := SS - fptr fp mod SS in
  let rcnt := if bool_decide (btr < rcnt) then btr else rcnt in
  mem_cpy (buf fp) (fptr fp mod SS) rcnt.

Fixpoint fread_loop (fuel : nat) (fp : FIL) (btr br : Z) (out : list Z) : ST ff rresult :=
  match fuel with
  | O => undef
  | S fuel =>
      if bool_decide (btr = 0) then mret (FR_OK, fp, br, out) else
      let next fp (rcnt : Z) data :=
        fread_loop fuel (set_fptr (u32 (fptr fp + rcnt)) fp) (btr - rcnt) (br + rcnt) (out ++ data) in
      if bool_decide (fptr fp mod SS = 0) then
        cs ← fs_get csize;
        let csect := u8 (Z.land (fptr fp / SS) (cs - 1)) in
        r ← read_cluster fp csect;
        let '(res, fp) := r in
        if bool_decide (res ≠ FR_OK) then mret (res, fp, br, out) else
        sect ← clust2sect (clust fp);
        if bool_decide (sect = 0) then mret (FR_INT_ERR, abort fp, br, out) else
        let sect := u32 (sect + csect) in
        let cc := btr / SS in
        if bool_decide (cc ≠ 0) then
          let cc := if bool_decide (cs < csect + cc) then cs - csect else cc in
          d ← fs_get drv;
          r ← disk (dk_read d sect (u8 cc));
          let '(ok, data) := r in
          if negb (ok : bool) then mret (FR_DISK_ERR, abort fp, br, out ++ data) else
          next fp (SS * cc) data
        else
          r ← (if bool_decide (dsect fp ≠ sect) then read_buf fp sect else mret (true, fp));
          let '(ok, fp) := r in
          if negb (ok : bool) then mret (FR_DISK_ERR, abort fp, br, out) else
          let fp := set_dsect sect fp in
          data ← lift (partial fp btr);
          next fp (Z.of_nat (length data)) data
      else
        data ← lift (partial fp btr);
        next fp (Z.of_nat (length data)) data
  end.

Definition f_read (fp : FIL) (btr : Z) : ST ff rresult :=
  res ← validate (fil_fs fp) (fil_id fp);
  if bool_decide (res ≠ FR_OK) then mret (res, fp, 0, []) else
  if bool_decide (Z.land (flag fp) FA__ERROR ≠ 0) then mret (FR_INT_ERR, fp, 0, []) else
  if bool_decide (Z.land (flag fp) FA_READ = 0) then mret (FR_DENIED, fp, 0, []) else
  let remain := u32 (fsize fp - fptr fp) in
  let btr := if bool_decide (remain < btr) then remain else btr in
  fread_loop (S (Z.to_nat btr)) fp btr 0 [].

Definition f_close (fp : FIL) : ST ff (FRESULT * FIL) :=
  res ← validate (fil_fs fp) (fil_id fp);
  mret (res, if bool_decide (res = FR_OK) then set_fil_fs false fp else fp).

(** The cluster following loop of [f_lseek]: the file object, the cluster and
    the rest of the offset. *)
Fixpoint seek_loop (fuel : nat) (fp : FIL) (clst bcs ofs : Z) : ST ff (FRESULT * FIL * Z * Z) :=
  match fuel with
  | O => undef
  | S fuel =>
      if bool_decide (bcs < ofs) then
        clst ← get_fat clst;
        if bool_decide (clst = 0xFFFFFFFF) then mret (FR_DISK_ERR, abort fp, clst, ofs) else
        n ← fs_get n_fatent;
        if bool_decide (clst <= 1 ∨ n <= clst) then mret (FR_INT_ERR, abort fp, clst, ofs) else
        seek_loop fuel (set_fptr (u32 (fptr fp + bcs)) (set_clust clst fp)) clst bcs (u32 (ofs - bcs))
      else mret (FR_OK, fp, clst, ofs)
  end.

(** Moving to an offset that is not zero: the file object and [nsect]. *)
Definition seek_to (fp : FIL) (ifptr ofs : Z) : ST ff (FRESULT * FIL * Z) :=
  cs ← fs_get csize;
  let bcs := u32 (cs * SS) in
  let '(fp, clst, ofs) :=
    if bool_decide (0 < ifptr ∧ (ifptr - 1) / bcs <= (ofs - 1) / bcs) then
      let p := Z.land (ifptr - 1) (Z.lnot (bcs - 1)) in
      (set_fptr p fp, clust fp, u32 (ofs - p))
    else (set_clust (sclust fp) fp, sclust fp, ofs) in
  if bool_decide (clst = 0) then mret (FR_OK, fp, 0) else
  r ← seek_loop (S (Z.to_nat ofs)) fp clst bcs ofs;
  let '(res, fp, clst, ofs) := r in
  if bool_decide (res ≠ FR_OK) then mret (res, fp, 0) else
  let fp := set_fptr (u32 (fptr fp + ofs)) fp in
  if bool_decide (ofs mod SS ≠ 0) then
    nsect ← clust2sect clst;
    if bool_decide (nsect = 0) then mret (FR_INT_ERR, abort fp, 0) else
    mret (FR_OK, fp, u32 (nsect + ofs / SS))
  else mret (FR_OK, fp, 0).

Definition f_lseek (fp : FIL) (ofs : Z) : ST ff (FRESULT * FIL) :=
  res ← validate (fil_fs fp) (fil_id fp);
  if bool_decide (res ≠ FR_OK) then mret (res, fp) else
  if bool_decide (Z.land (flag fp) FA__ERROR ≠ 0) then mret (FR_INT_ERR, fp) else
  let ofs := if bool_decide (fsize fp < ofs) then fsize fp else ofs in
  let ifptr := fptr fp in
  let fp := set_fptr 0 fp in
  r ← (if bool_decide (ofs ≠ 0) then seek_to fp ifptr ofs else mret (FR_OK, fp, 0));
  let '(res', fp, nsect) := r in
  if bool_decide (res' ≠ FR_OK) then mret (res', fp) else
  if bool_decide (fptr fp mod SS ≠ 0 ∧ nsect ≠ dsect fp) then
    r ← read_buf fp nsect;
    let '(ok, fp) := r in
    if negb (ok : bool) then mret (FR_DISK_ERR, abort fp) else
    mret (res, set_dsect nsect fp)
  else mret (res, fp).

Definition f_opendir (dj : DIR) (path : list Z) : ST ff (FRESULT * DIR) :=
  r ← chk_mounted path;
  let '(res, rfs, path) := r in
  let dj := set_dj_fs rfs dj in
  if bool_decide (res = FR_OK) then
    let dj := set_fn (replicate 12 0) dj in
    r ← follow_path dj path;
    let '(res, dj) := r in
    r ← (if bool_decide (res = FR_OK) then
           r ← match dir dj with
               | Some d =>
                   a ← dir_byte d DIR_Attr;
                   if bool_decide (Z.land a AM_DIR ≠ 0) then
                     cl ← ld_clust d;
                     mret (FR_OK, set_dj_sclust cl dj)
                   else mret (FR_NO_PATH, dj)
               | None => mret (FR_OK, dj)
               end;
           let '(res, dj) := r in
           if bool_decide (res = FR_OK) then
             id ← fs_get fs_id;
             dir_sdi (set_dj_id id dj) 0
           else mret (res, dj)
         else mret (res, dj));
    let '(res, dj) := r in
    let res := if bool_decide (res = FR_NO_FILE) then FR_NO_PATH else res in
    mret (res, if bool_decide (res ≠ FR_OK) then set_dj_fs false dj else dj)
  else mret (res, set_dj_fs false dj).

(** [fno] is [None] for NULL. *)
Definition f_readdir (dj : DIR) (fno : option FILINFO) : ST ff (FRESULT * DIR * option FILINFO) :=
  res ← validate (dj_fs dj) (dj_id dj);
  if bool_decide (res ≠ FR_OK) then mret (res, dj, fno) else
  match fno with
  | None => r ← dir_sdi dj 0; let '(res, dj) := r in mret (res, dj, None)
  | Some info =>
      let dj := set_fn (replicate 12 0) dj in
      r ← dir_read dj;
      let '(res, dj) := r in
      let '(res, dj) := if bool_decide (res = FR_NO_FILE) then (FR_OK, set_sect 0 dj) else (res, dj) in
      if bool_decide (res = FR_OK) then
        info ← get_fileinfo dj info;
        r ← dir_next dj;
        let '(res, dj) := r in
        mret (if bool_decide (res = FR_NO_FILE) then (FR_OK, set_sect 0 dj, Some info)
              else (res, dj, Some info))
      else mret (res, dj, fno)
  end.

Definition f_stat (path : list Z) (fno : FILINFO) : ST ff (FRESULT * FILINFO) :=
  r ← chk_mounted path;
  let '(res, rfs, path) := r in
  if bool_decide (res = FR_OK) then
    r ← follow_path (set_fn (replicate 12 0) (set_dj_fs rfs dir0)) path;
    let '(res, dj) := r in
    if bool_decide (res = FR_OK) then
      match dir dj with
      | Some _ => fno ← get_fileinfo dj fno; mret (FR_OK, fno)
      | None => mret (FR_INVALID_NAME, fno)
      end
    else mret (res, fno)
  else mret (res, fno).
End fatfs.

Arguments ff : clear implicits.
