(* ===== verification/FatRead.v ===== *)
(** * Reading files from a FAT volume

    On a disk that returns the sectors of an image, [f_read] and [f_lseek]
    (FatFs.v) are proved against the abstract contents of a file: the bytes of
    the sectors of its cluster chain. *)

From S2P Require Import Prelude FatFs.
Open Scope Z_scope.

(** ** Disks with an image

    [P] are the states in which the disk returns the sectors of [img] and
    reports to be ready; reading keeps it in such a state. *)
Class DiskImage (D : Type) `{Disk D} (P : D -> Prop) (img : Z -> list Z) : Prop := {
  di_sector s : length (img s) = 512%nat ∧ Forall is_u8 (img s);
  di_read d dv sector n : P d -> 0 < n ->
    exists d', dk_read dv sector n d = Some ((true, concat (img <$> seqZ sector n)), d') ∧ P d';
  di_status d dv : P d -> exists d', dk_status dv d = Some (0, d') ∧ P d';
}.

(** A disk in memory. *)
Definition ram_disk (img : Z -> list Z) : Disk unit := {|
  dk_initialize _ := mret 0;
  dk_status _ := mret 0;
  dk_read _ sector n := mret (true, concat (img <$> seqZ sector n));
|}.

Lemma ram_disk_image img :
  (forall s, length (img s) = 512%nat ∧ Forall is_u8 (img s)) ->
  @DiskImage unit (ram_disk img) (λ _, True) img.
Proof. intros Hi. constructor; [done|..]; intros d; intros; by exists d. Qed.

(** ** Volumes *)

(** A FATFS object that describes a volume within the 32-bit sector space. *)
Record geom_ok (fs : FATFS) : Prop := {
  g_type : fs_type fs = FS_FAT12 ∨ fs_type fs = FS_FAT16 ∨ fs_type fs = FS_FAT32;
  g_csize : exists k, 0 <= k <= 7 ∧ csize fs = 2^k;
  g_fatent : 3 <= n_fatent fs <= 2^28;
  g_fat : 1 <= fatbase fs ∧ fatbase fs + n_fatent fs * 4 / 512 + 1 < 2^32;
  g_data : 1 <= database fs ∧ database fs + (n_fatent fs - 2) * csize fs <= 2^32;
}.

Section volume.
Context {D : Type} `{Disk D} (P : D -> Prop) (img : Z -> list Z) `{!DiskImage D P img}.
Implicit Types (w : ff D) (fs : FATFS).

(** The first sector of a cluster. *)
Definition c2s fs (c : Z) : Z := (c - 2) * csize fs + database fs.

(** The byte at offset [i] of the file allocation table. *)
Definition fat_byte fs (i : Z) : Z := default 0 (img (fatbase fs + i / 512) !! Z.to_nat (i mod 512)).

(** The entry of cluster [c]. *)
Definition fat_next fs (c : Z) : Z :=
  if bool_decide (fs_type fs = FS_FAT12) then
    let o := c + c / 2 in
    let v := fat_byte fs o + 256 * fat_byte fs (o + 1) in
    if bool_decide (c mod 2 = 1) then v / 16 else v mod 4096
  else if bool_decide (fs_type fs = FS_FAT16) then
    fat_byte fs (2 * c) + 256 * fat_byte fs (2 * c + 1)
  else
    (fat_byte fs (4 * c) + 256 * fat_byte fs (4 * c + 1) + 65536 * fat_byte fs (4 * c + 2) +
      16777216 * fat_byte fs (4 * c + 3)) mod 2^28.

(** The window holds the sector that it says. *)
Record wok w : Prop := {
  w_disk : P (ff_disk w);
  w_geom : geom_ok (ff_fs w);
  w_len : length (win (ff_fs w)) = 512%nat;
  w_win : winsect (ff_fs w) = 0 ∨ win (ff_fs w) = img (winsect (ff_fs w));
}.

(** [w'] is a good state that differs from [w] in the window and the disk. *)
Definition same w w' : Prop :=
  wok w' ∧ exists a b, ff_fs w' = set_winsect a (set_win b (ff_fs w)) ∧ FatFs w' = FatFs w ∧ Fsid w' = Fsid w.

Lemma same_refl w : wok w -> same w w.
Proof. intros Hw. split; [done|]. exists (winsect (ff_fs w)), (win (ff_fs w)). split_and!; try done. by destruct (ff_fs w). Qed.

Lemma same_trans w1 w2 w3 : same w1 w2 -> same w2 w3 -> same w1 w3.
Proof.
  intros [_ (a & b & E & E2 & E3)] [H3 (a' & b' & E' & E2' & E3')]. split; [done|]. exists a', b'.
  rewrite E', E2', E3', E. done.
Qed.

Lemma sector_len s : length (img s) = 512%nat.
Proof. apply di_sector. Qed.

Lemma wp_disk_read dv s n w (Q : bool * list Z -> ff D -> Prop) :
  wok w -> 0 < n ->
  (forall w', same w w' -> ff_fs w' = ff_fs w -> Q (true, concat (img <$> seqZ s n)) w') ->
  wp (disk (dk_read dv s n)) w Q.
Proof.
  intros Hw Hn HQ. apply wp_zoom. destruct (di_read (ff_disk w) dv s n (w_disk _ Hw) Hn) as (d' & E & Hd').
  apply wp_run. eexists _, _. split; [exact E|]. apply HQ; [|done].
  split; [by destruct Hw|]. exists (winsect (ff_fs w)), (win (ff_fs w)). split_and!; try done. simpl. by destruct (ff_fs w).
Qed.

Lemma wp_status dv w (Q : Z -> ff D -> Prop) :
  wok w -> (forall w', same w w' -> ff_fs w' = ff_fs w -> Q 0 w') -> wp (disk (dk_status dv)) w Q.
Proof.
  intros Hw HQ. apply wp_zoom. destruct (di_status (ff_disk w) dv (w_disk _ Hw)) as (d' & E & Hd').
  apply wp_run. eexists _, _. split; [exact E|]. apply HQ; [|done].
  split; [by destruct Hw|]. exists (winsect (ff_fs w)), (win (ff_fs w)). split_and!; try done. simpl. by destruct (ff_fs w).
Qed.

Lemma one_sector s : concat (img <$> seqZ s 1) = img s.
Proof. change (seqZ s 1) with [0 + s]. cbn. rewrite app_nil_r. done. Qed.

Lemma wp_move_window s w (Q : FRESULT -> ff D -> Prop) :
  wok w -> s ≠ 0 -> (forall w', same w w' -> win (ff_fs w') = img s -> Q FR_OK w') ->
  wp (move_window s) w Q.
Proof.
  intros Hw Hs HQ. unfold move_window, fs_get. wp_pure. case_bool_decide as Hne.
  2: { apply wp_ret, HQ; [by apply same_refl|]. destruct (w_win _ Hw) as [E|E]; [congruence|]. by rewrite E, Hne. }
  rewrite bool_decide_eq_true_2 by done. unfold read_win, fs_get, fs_mod. apply wp_bind. wp_pure. apply wp_bind.
  apply wp_disk_read; [done|lia|]. intros w1 H1 E1. wp_pure.
  assert (buf_store (concat (img <$> seqZ s 1)) (win (ff_fs w1)) = img s) as Eb.
  { rewrite one_sector. unfold buf_store. rewrite drop_ge; [apply app_nil_r|].
    rewrite sector_len. destruct H1 as [[] _]. lia. }
  wp_steps. rewrite Eb. apply HQ; [|done]. destruct H1 as [[] (a & b & _ & E2 & E3)], Hw. split.
  - constructor; simpl; auto; [|by apply sector_len]. by destruct w_geom0.
  - exists s, (img s). simpl. by rewrite E1, E2, E3.
Qed.

(** *** FAT entries *)

Lemma fat_byte_u8 fs i : 0 <= fat_byte fs i < 256.
Proof.
  unfold fat_byte. destruct (di_sector (img := img) (fatbase fs + i / 512)) as [Hl Hf].
  destruct (img (fatbase fs + i / 512) !! Z.to_nat (i mod 512)) as [x|] eqn:E; simpl; [|lia].
  eapply Forall_lookup_1 in E; [|exact Hf]. unfold is_u8 in E. lia.
Qed.

Lemma fat_byte_lookup fs i :
  img (fatbase fs + i / 512) !! Z.to_nat (i mod 512) = Some (fat_byte fs i).
Proof.
  unfold fat_byte. destruct (lookup_lt_is_Some_2 (img (fatbase fs + i / 512)) (Z.to_nat (i mod 512))) as [x ->]; [|done].
  rewrite sector_len. pose proof (Z.mod_pos_bound i 512). lia.
Qed.

(** A byte of the window when it holds the sector of offset [i], and its
    neighbours in the same sector. *)
Lemma win_lookup fs i k wn :
  wn = img (fatbase fs + i / 512) -> 0 <= k -> i mod 512 + k < 512 ->
  arr_get wn (i mod 512 + k) = Some (fat_byte fs (i + k)).
Proof.
  intros -> Hk Hi. pose proof (Z.mod_pos_bound i 512 ltac:(lia)).
  pose proof (Z.div_mod i 512 ltac:(lia)).
  assert ((i + k) / 512 = i / 512) as Ed by (symmetry; apply (Z.div_unique _ _ _ (i mod 512 + k)); lia).
  assert ((i + k) mod 512 = i mod 512 + k) as Em by (symmetry; apply (Z.mod_unique _ _ (i / 512)); lia).
  rewrite arr_get_lookup by lia. rewrite <- Ed, <- Em. apply fat_byte_lookup.
Qed.

Lemma ld_word_val p i b0 b1 :
  arr_get p i = Some b0 -> arr_get p (i + 1) = Some b1 -> 0 <= b0 < 256 -> 0 <= b1 < 256 ->
  LD_WORD p i = Some (b0 + 256 * b1).
Proof.
  intros E0 E1 H0 H1. unfold LD_WORD. rewrite E1. simpl. rewrite E0. simpl.
  rewrite lor_shiftl by lia. rewrite u16_small by cint. f_equal. lia.
Qed.

Lemma ld_dword_val p i b0 b1 b2 b3 :
  arr_get p i = Some b0 -> arr_get p (i + 1) = Some b1 -> arr_get p (i + 2) = Some b2 -> arr_get p (i + 3) = Some b3 ->
  0 <= b0 < 256 -> 0 <= b1 < 256 -> 0 <= b2 < 256 -> 0 <= b3 < 256 ->
  LD_DWORD p i = Some (b0 + 256 * b1 + 65536 * b2 + 16777216 * b3).
Proof.
  intros E0 E1 E2 E3 H0 H1 H2 H3. unfold LD_DWORD. rewrite E3. simpl. rewrite E2. simpl. rewrite E1. simpl. rewrite E0. simpl.
  rewrite <- !Z.lor_assoc. rewrite (lor_shiftl b1) by lia.
  rewrite (lor_shiftl b2) by lia. rewrite (lor_shiftl b3) by lia. rewrite u32_small by cint. f_equal. lia.
Qed.

Lemma wp_win_byte i x w (Q : Z -> ff D -> Prop) :
  arr_get (win (ff_fs w)) i = Some x -> Q x w -> wp (win_byte i) w Q.
Proof. intros E HQ. unfold win_byte, fs_get. wp_pure. by eapply wp_lift. Qed.
Lemma wp_win_word i x w (Q : Z -> ff D -> Prop) :
  LD_WORD (win (ff_fs w)) i = Some x -> Q x w -> wp (win_word i) w Q.
Proof. intros E HQ. unfold win_word, fs_get. wp_pure. by eapply wp_lift. Qed.
Lemma wp_win_dword i x w (Q : Z -> ff D -> Prop) :
  LD_DWORD (win (ff_fs w)) i = Some x -> Q x w -> wp (win_dword i) w Q.
Proof. intros E HQ. unfold win_dword, fs_get. wp_pure. by eapply wp_lift. Qed.

(** Moving the window to the sector of offset [o] of the table. *)
Lemma wp_fat_window o w0 w (Q : FRESULT -> ff D -> Prop) :
  let fs := ff_fs w0 in
  same w0 w -> 0 <= o < n_fatent fs * 4 ->
  (forall w', same w0 w' ->
    (forall k, 0 <= k -> o mod 512 + k < 512 ->
      arr_get (win (ff_fs w')) (o mod 512 + k) = Some (fat_byte fs (o + k))) -> Q FR_OK w') ->
  wp (move_window (u32 (fatbase fs + o / 512))) w Q.
Proof.
  intros fs Hs Ho HQ. destruct Hs as [Hw Hs].
  assert (geom_ok fs) as [_ _ _ [Hf1 Hf2] _].
  { pose proof (w_geom _ Hw) as Hg. destruct Hs as (a & b & E & _). rewrite E in Hg. by destruct Hg. }
  pose proof (Z.div_le_mono o (n_fatent fs * 4) 512 ltac:(lia) ltac:(lia)).
  pose proof (Z.div_pos o 512 ltac:(lia) ltac:(lia)).
  rewrite u32_small by cint. apply wp_move_window; [done|lia|]. intros w' S' E'.
  apply HQ; [by eapply same_trans; [split|]|]. intros k Hk Hk'. by apply win_lookup.
Qed.

Lemma get_fat12 c w :
  wok w -> 2 <= c < n_fatent (ff_fs w) -> fs_type (ff_fs w) = FS_FAT12 ->
  wp (get_fat c) w (λ r w', r = fat_next (ff_fs w) c ∧ same w w').
Proof.
  intros Hw Hc Ht. pose proof (g_fatent _ (w_geom _ Hw)) as Hn. unfold get_fat, fat_next. wp_pure.
  rewrite bool_decide_eq_false_2 by lia. rewrite !(bool_decide_eq_true_2 (fs_type _ = _)) by done.
  set (fs := ff_fs w) in *. unfold SS.
  pose proof (Z.div_mod c 2 ltac:(lia)). pose proof (Z.mod_pos_bound c 2 ltac:(lia)).
  rewrite (u32_small (c + c / 2)) by cint. rewrite (u32_small (c + c / 2 + 1)) by cint.
  assert (0 <= c + c / 2 ∧ c + c / 2 + 1 < n_fatent fs * 4) as [Ho1 Ho2] by lia. set (o := c + c / 2) in *.
  apply wp_bind. apply (wp_fat_window o w w); [by apply same_refl|fold fs; lia|]. intros w1 S1 E1.
  rewrite bool_decide_eq_false_2 by auto.
  pose proof (Z.mod_pos_bound o 512 ltac:(lia)). specialize (E1 0 ltac:(lia) ltac:(lia)). rewrite !Z.add_0_r in E1.
  apply wp_bind. eapply wp_win_byte; [exact E1|]. apply wp_bind.
  apply (wp_fat_window (o + 1) w w1); [done|fold fs; lia|]. intros w2 S2 E2.
  rewrite bool_decide_eq_false_2 by auto.
  pose proof (Z.mod_pos_bound (o + 1) 512 ltac:(lia)). specialize (E2 0 ltac:(lia) ltac:(lia)). rewrite !Z.add_0_r in E2.
  apply wp_bind. eapply wp_win_byte; [exact E2|]. wp_steps. split; [|done]. fold fs.
  pose proof (fat_byte_u8 fs o). pose proof (fat_byte_u8 fs (o + 1)).
  rewrite Z.lor_comm, lor_shiftl by lia.
  assert (Z.land c 1 = c mod 2) as -> by (change 1 with (Z.ones 1); by rewrite Z.land_ones by lia).
  change 0xFFF with (Z.ones 12). rewrite Z.land_ones, Z.shiftr_div_pow2 by lia.
  rewrite (Z.add_comm (fat_byte fs o)), (Z.mul_comm 256).
  case_bool_decide; case_bool_decide; try lia; done.
Qed.

Lemma get_fat16 c w :
  wok w -> 2 <= c < n_fatent (ff_fs w) -> fs_type (ff_fs w) = FS_FAT16 ->
  wp (get_fat c) w (λ r w', r = fat_next (ff_fs w) c ∧ same w w').
Proof.
  intros Hw Hc Ht. pose proof (g_fatent _ (w_geom _ Hw)) as Hn. unfold get_fat, fat_next. wp_pure.
  rewrite bool_decide_eq_false_2 by lia. rewrite Ht. simpl. set (fs := ff_fs w) in *. unfold SS.
  change (512 / 2) with 256. replace (c / 256) with (2 * c / 512) by (rewrite <- (Z.div_mul_cancel_l c 256 2) by lia; reflexivity).
  apply wp_bind. apply (wp_fat_window (2 * c) w w); [by apply same_refl|fold fs; lia|]. intros w1 S1 E1.
  rewrite bool_decide_eq_false_2 by auto. rewrite u32_small by cint. rewrite (Z.mul_comm c).
  assert (2 * c mod 512 + 1 < 512) as Hm.
  { change 512 with (2 * 256) at 1. rewrite Z.mul_mod_distr_l by lia. pose proof (Z.mod_pos_bound c 256). lia. }
  pose proof (Z.mod_pos_bound (2 * c) 512 ltac:(lia)). pose proof (E1 0 ltac:(lia) ltac:(lia)) as E0.
  rewrite !Z.add_0_r in E0. specialize (E1 1 ltac:(lia) ltac:(lia)).
  eapply wp_win_word; [apply ld_word_val; [exact E0|exact E1|apply fat_byte_u8..]|]. done.
Qed.

Lemma get_fat32 c w :
  wok w -> 2 <= c < n_fatent (ff_fs w) -> fs_type (ff_fs w) = FS_FAT32 ->
  wp (get_fat c) w (λ r w', r = fat_next (ff_fs w) c ∧ same w w').
Proof.
  intros Hw Hc Ht. pose proof (g_fatent _ (w_geom _ Hw)) as Hn. unfold get_fat, fat_next. wp_pure.
  rewrite bool_decide_eq_false_2 by lia. rewrite Ht. simpl. set (fs := ff_fs w) in *. unfold SS.
  change (512 / 4) with 128. replace (c / 128) with (4 * c / 512) by (rewrite <- (Z.div_mul_cancel_l c 128 4) by lia; reflexivity).
  apply wp_bind. apply (wp_fat_window (4 * c) w w); [by apply same_refl|fold fs; lia|]. intros w1 S1 E1.
  rewrite bool_decide_eq_false_2 by auto. rewrite u32_small by cint. rewrite (Z.mul_comm c).
  assert (4 * c mod 512 + 3 < 512) as Hm.
  { change 512 with (4 * 128) at 1. rewrite Z.mul_mod_distr_l by lia. pose proof (Z.mod_pos_bound c 128). lia. }
  pose proof (Z.mod_pos_bound (4 * c) 512 ltac:(lia)). pose proof (E1 0 ltac:(lia) ltac:(lia)) as E0.
  rewrite !Z.add_0_r in E0. apply wp_bind.
  eapply wp_win_dword; [apply ld_dword_val; [exact E0|apply E1; lia|apply E1; lia|apply E1; lia|apply fat_byte_u8..]|].
  wp_steps. split; [|done]. change 0x0FFFFFFF with (Z.ones 28). by rewrite Z.land_ones by lia.
Qed.

Lemma get_fat_spec c w :
  wok w -> 2 <= c < n_fatent (ff_fs w) ->
  wp (get_fat c) w (λ r w', r = fat_next (ff_fs w) c ∧ same w w').
Proof.
  intros Hw Hc. destruct (g_type _ (w_geom _ Hw)) as [Ht|[Ht|Ht]];
    [by apply get_fat12|by apply get_fat16|by apply get_fat32].
Qed.

(** *** The contents of a file *)

(** The clusters of a file in order. *)
Record is_chain fs (l : list Z) : Prop := {
  ch_range : Forall (λ c, 2 <= c < n_fatent fs) l;
  ch_next : forall i c c', l !! i = Some c -> l !! S i = Some c' -> fat_next fs c = c';
}.

Definition cluster_sectors fs (c : Z) : list Z := seqZ (c2s fs c) (csize fs).
Definition sectors fs (l : list Z) : list Z := concat (cluster_sectors fs <$> l).
(** All bytes of the clusters; a file is a prefix of them. *)
Definition flat fs (l : list Z) : list Z := concat (img <$> sectors fs l).

Lemma csize_pos fs : geom_ok fs -> 1 <= csize fs <= 128.
Proof.
  intros [_ (k & Hk & ->) _ _ _]. split; [pose proof (Z.pow_pos_nonneg 2 k); lia|].
  change 128 with (2^7). apply Z.pow_le_mono_r; lia.
Qed.

Lemma seqZ_slice s n r m :
  0 <= r -> 0 <= m -> r + m <= n -> take (Z.to_nat m) (drop (Z.to_nat r) (seqZ s n)) = seqZ (s + r) m.
Proof.
  intros Hr Hm Hn. replace n with (r + (m + (n - r - m))) by lia.
  rewrite seqZ_app by lia. rewrite drop_app_length' by (rewrite length_seqZ; lia).
  rewrite seqZ_app by lia. by rewrite take_app_length' by (rewrite length_seqZ; lia).
Qed.

Lemma length_cluster fs c : length (cluster_sectors fs c) = Z.to_nat (csize fs).
Proof. apply length_seqZ. Qed.

(** [m] consecutive sectors from sector [q] of a file on, within a cluster. *)
Lemma sectors_run fs l q c m :
  geom_ok fs -> 0 <= q -> l !! Z.to_nat (q / csize fs) = Some c -> 0 <= m -> q mod csize fs + m <= csize fs ->
  take (Z.to_nat m) (drop (Z.to_nat q) (sectors fs l)) = seqZ (c2s fs c + q mod csize fs) m.
Proof.
  intros Hg Hq Hl Hm Hr. pose proof (csize_pos _ Hg) as Hcs.
  pose proof (Z.div_mod q (csize fs) ltac:(lia)) as Hqd. pose proof (Z.mod_pos_bound q (csize fs) ltac:(lia)).
  pose proof (Z.div_pos q (csize fs) ltac:(lia) ltac:(lia)). unfold sectors.
  replace (Z.to_nat q) with (Z.to_nat (q / csize fs) * Z.to_nat (csize fs) + Z.to_nat (q mod csize fs))%nat by nia.
  rewrite (block_slice _ _ (length_cluster fs) _ _ _ _ _ Hl) by lia.
  by apply seqZ_slice; lia.
Qed.

Lemma sectors_at fs l q c :
  geom_ok fs -> 0 <= q -> l !! Z.to_nat (q / csize fs) = Some c ->
  sectors fs l !! Z.to_nat q = Some (c2s fs c + q mod csize fs).
Proof.
  intros Hg Hq Hl. pose proof (csize_pos _ Hg) as Hcs. pose proof (Z.mod_pos_bound q (csize fs) ltac:(lia)).
  pose proof (sectors_run fs l q c 1 Hg Hq Hl ltac:(lia) ltac:(lia)) as Hr.
  apply (f_equal (λ l, l !! 0%nat)) in Hr. rewrite lookup_take_lt in Hr by lia.
  rewrite lookup_drop, Nat.add_0_r in Hr. rewrite Hr. apply lookup_seqZ. lia.
Qed.

(** The bytes of [m] whole sectors. *)
Lemma flat_run fs l q c m :
  geom_ok fs -> 0 <= q -> l !! Z.to_nat (q / csize fs) = Some c -> 0 <= m -> q mod csize fs + m <= csize fs ->
  take (Z.to_nat (512 * m)) (drop (Z.to_nat (512 * q)) (flat fs l)) =
    concat (img <$> seqZ (c2s fs c + q mod csize fs) m).
Proof.
  intros Hg Hq Hl Hm Hr. rewrite <- (sectors_run fs l q c m) by done. unfold flat.
  replace (Z.to_nat (512 * q)) with (Z.to_nat q * 512)%nat by lia.
  replace (Z.to_nat (512 * m)) with (Z.to_nat m * 512)%nat by lia.
  rewrite (drop_blocks _ _ sector_len), (take_blocks _ _ sector_len). done.
Qed.

(** A part of one sector. *)
Lemma flat_part fs l p s m :
  0 <= p -> sectors fs l !! Z.to_nat (p / 512) = Some s -> 0 <= m -> p mod 512 + m <= 512 ->
  take (Z.to_nat m) (drop (Z.to_nat p) (flat fs l)) = take (Z.to_nat m) (drop (Z.to_nat (p mod 512)) (img s)).
Proof.
  intros Hp Hs Hm Hr. pose proof (Z.div_mod p 512 ltac:(lia)). pose proof (Z.mod_pos_bound p 512 ltac:(lia)).
  pose proof (Z.div_pos p 512 ltac:(lia) ltac:(lia)). unfold flat.
  replace (Z.to_nat p) with (Z.to_nat (p / 512) * 512 + Z.to_nat (p mod 512))%nat by lia.
  apply (block_slice _ _ sector_len); [done|lia].
Qed.

(** An open file with the clusters [l]. *)
Record file_ok fs (l : list Z) (fp : FIL) : Prop := {
  fo_fs : fil_fs fp = true ∧ fil_id fp = fs_id fs;
  fo_flag : Z.land (flag fp) FA__ERROR = 0 ∧ Z.land (flag fp) FA_READ ≠ 0;
  fo_pos : 0 <= fptr fp <= fsize fp ∧ fsize fp < 2^32;
  fo_chain : is_chain fs l;
  fo_size : fsize fp <= Z.of_nat (length l) * (csize fs * 512);
  fo_first : l = [] ∨ list.head l = Some (sclust fp);
  fo_cur : 0 < fptr fp -> l !! Z.to_nat ((fptr fp - 1) / (csize fs * 512)) = Some (clust fp);
  fo_buf : length (buf fp) = 512%nat ∧ (dsect fp = 0 ∨ buf fp = img (dsect fp));
  fo_sect : fptr fp mod 512 ≠ 0 -> sectors fs l !! Z.to_nat (fptr fp / 512) = Some (dsect fp);
}.

Lemma file_ok_same w w' l fp : same w w' -> file_ok (ff_fs w) l fp -> file_ok (ff_fs w') l fp.
Proof.
  intros [_ (a & b & E & _)] []. rewrite E. constructor; try done. by destruct fo_chain0.
Qed.

Lemma file_ok_back w w' l fp : same w w' -> file_ok (ff_fs w') l fp -> file_ok (ff_fs w) l fp.
Proof.
  intros [_ (a & b & E & _)] []. rewrite E in *. constructor; try done. by destruct fo_chain0.
Qed.

Lemma same_wok w w' : same w w' -> wok w'.
Proof. by intros []. Qed.

Lemma same_geom w w' : same w w' -> geom_ok (ff_fs w).
Proof. intros [[_ Hg _ _] (a & b & E & _)]. rewrite E in Hg. by destruct Hg. Qed.

(** What does not change: everything but the window. *)
Lemma same_fields w w' :
  same w w' ->
  csize (ff_fs w') = csize (ff_fs w) ∧ drv (ff_fs w') = drv (ff_fs w) ∧ n_fatent (ff_fs w') = n_fatent (ff_fs w) ∧
  fs_id (ff_fs w') = fs_id (ff_fs w) ∧ fs_type (ff_fs w') = fs_type (ff_fs w) ∧
  (forall c, c2s (ff_fs w') c = c2s (ff_fs w) c) ∧ (forall c, fat_next (ff_fs w') c = fat_next (ff_fs w) c) ∧
  (forall l, flat (ff_fs w') l = flat (ff_fs w) l) ∧ (forall l, sectors (ff_fs w') l = sectors (ff_fs w) l).
Proof. intros [_ (a & b & E & _)]. by rewrite E. Qed.

Lemma c2s_range fs c k :
  geom_ok fs -> 2 <= c < n_fatent fs -> 0 <= k < csize fs -> 1 <= c2s fs c + k < 2^32.
Proof. intros Hg Hc Hk. pose proof (csize_pos _ Hg). destruct Hg as [_ _ _ _ [Hd1 Hd2]]. unfold c2s. nia. Qed.

Lemma wp_clust2sect c w (Q : Z -> ff D -> Prop) :
  geom_ok (ff_fs w) -> 2 <= c < n_fatent (ff_fs w) -> Q (c2s (ff_fs w) c) w -> wp (clust2sect c) w Q.
Proof.
  intros Hg Hc HQ. pose proof (csize_pos _ Hg). pose proof (g_fatent _ Hg).
  pose proof (c2s_range _ _ 0 Hg Hc ltac:(lia)) as Hr. unfold clust2sect. wp_pure.
  rewrite !(u32_small (_ - 2)) by cint. rewrite bool_decide_eq_false_2 by lia.
  unfold c2s in *. rewrite u32_small by cint. done.
Qed.

Lemma chain_lookup fs l i c : is_chain fs l -> l !! i = Some c -> 2 <= c < n_fatent fs.
Proof. intros [Hf _] E. by apply (Forall_lookup_1 _ _ _ _ Hf E). Qed.

(** The number of the sector in its cluster. *)
Lemma csect_val fs p :
  geom_ok fs -> 0 <= p -> u8 (Z.land (p / SS) (csize fs - 1)) = (p / 512) mod csize fs.
Proof.
  intros Hg Hp. pose proof (csize_pos _ Hg) as Hc. destruct Hg as [_ (k & Hk & E) _ _ _]. unfold SS.
  rewrite E. replace (2^k - 1) with (Z.ones k) by (rewrite Z.ones_equiv; lia).
  rewrite Z.land_ones by lia. rewrite u8_small; [done|]. pose proof (Z.mod_pos_bound (p / 512) (2^k)). unfold is_u8. lia.
Qed.

Lemma cluster_of fs p : geom_ok fs -> p / (csize fs * 512) = p / 512 / csize fs.
Proof. intros Hg. pose proof (csize_pos _ Hg). rewrite Z.div_div by lia. f_equal. lia. Qed.

(** The cluster of a position inside of the file. *)
Lemma chain_at fs l fp p :
  geom_ok fs -> file_ok fs l fp -> 0 <= p < fsize fp ->
  exists c, l !! Z.to_nat (p / (csize fs * 512)) = Some c ∧ 2 <= c < n_fatent fs.
Proof.
  intros Hg Hf Hp. pose proof (csize_pos _ Hg) as Hc. pose proof (fo_size _ _ _ Hf) as Hs.
  destruct (lookup_lt_is_Some_2 l (Z.to_nat (p / (csize fs * 512)))) as [c Ec].
  { assert (p / (csize fs * 512) < Z.of_nat (length l)); [|lia]. apply Z.div_lt_upper_bound; nia. }
  exists c. split; [done|]. by eapply chain_lookup; [apply (fo_chain _ _ _ Hf)|].
Qed.

(** *** Reading *)

Lemma div_pred_same p n : 0 < n -> 0 <= p -> p mod n ≠ 0 -> (p - 1) / n = p / n.
Proof.
  intros Hn Hp Hm. pose proof (Z.div_mod p n ltac:(lia)). pose proof (Z.mod_pos_bound p n ltac:(lia)).
  symmetry. apply (Z.div_unique _ _ _ (p mod n - 1)); lia.
Qed.

Lemma div_pred_step p n : 0 < n -> 0 < p -> p mod n = 0 -> p / n = (p - 1) / n + 1.
Proof.
  intros Hn Hp Hm. pose proof (Z.div_mod p n ltac:(lia)).
  assert ((p - 1) / n = p / n - 1); [|lia]. symmetry. apply (Z.div_unique _ _ _ (n - 1)); lia.
Qed.

(** Positions on a sector boundary and clusters. *)
Lemma cluster_boundary fs p :
  geom_ok fs -> 0 <= p -> p mod 512 = 0 -> (p mod (csize fs * 512) = 0 <-> (p / 512) mod csize fs = 0).
Proof.
  intros Hg Hp Hm. pose proof (csize_pos _ Hg). pose proof (Z.div_mod p 512 ltac:(lia)) as E.
  rewrite Hm in E. replace p with (p / 512 * 512) at 1 by lia. rewrite Z.mul_mod_distr_r by lia. lia.
Qed.

Lemma wp_read_cluster w l fp c (Q : FRESULT * FIL -> ff D -> Prop) :
  let fs := ff_fs w in
  wok w -> file_ok fs l fp -> fptr fp < fsize fp -> fptr fp mod 512 = 0 ->
  l !! Z.to_nat (fptr fp / (csize fs * 512)) = Some c ->
  (forall w', same w w' -> Q (FR_OK, set_clust c fp) w') ->
  wp (read_cluster fp ((fptr fp / 512) mod csize fs)) w Q.
Proof.
  intros fs Hw Hf Hlt Hm Hc HQ. pose proof (w_geom _ Hw) as Hg. fold fs in Hg. pose proof (csize_pos _ Hg) as Hcs.
  destruct (fo_pos _ _ _ Hf) as [Hp _]. pose proof (chain_lookup _ _ _ _ (fo_chain _ _ _ Hf) Hc) as Hcr.
  pose proof (cluster_boundary fs _ Hg (proj1 Hp) Hm) as Hb. pose proof (g_fatent _ Hg) as Hn.
  unfold read_cluster. case_bool_decide as Hz.
  2: { assert (set_clust c fp = fp) as Efp; [|rewrite Efp in HQ; by apply wp_ret, HQ, same_refl].
    assert (0 < fptr fp) as Hpos.
    { destruct (decide (fptr fp = 0)) as [E0|]; [|lia]. rewrite E0, Z.div_0_l, Z.mod_0_l in Hz by lia. done. }
    pose proof (fo_cur _ _ _ Hf Hpos) as Hcur. rewrite div_pred_same in Hcur by (try lia; by rewrite Hb).
    destruct fp. simpl in *. unfold set_clust. simpl. congruence. }
  apply wp_bind. case_bool_decide as H0.
  - apply wp_ret. rewrite H0, Z.div_0_l in Hc by lia.
    assert (sclust fp = c) as ->. { destruct (fo_first _ _ _ Hf) as [->|E]; [done|]. by destruct l; simpl in *; congruence. }
    rewrite !bool_decide_eq_false_2 by lia. by apply wp_ret, HQ, same_refl.
  - pose proof (fo_cur _ _ _ Hf ltac:(lia)) as Hcur. pose proof (div_pred_step (fptr fp) (csize fs * 512) ltac:(lia) ltac:(lia) ltac:(tauto)) as Ed.
    rewrite Ed in Hc. pose proof (Z.div_pos (fptr fp - 1) (csize fs * 512) ltac:(lia) ltac:(lia)).
    replace (Z.to_nat ((fptr fp - 1) / (csize fs * 512) + 1)) with (S (Z.to_nat ((fptr fp - 1) / (csize fs * 512)))) in Hc by lia.
    pose proof (ch_next _ _ (fo_chain _ _ _ Hf) _ _ _ Hcur Hc) as En.
    eapply wp_mono; [apply get_fat_spec; [done|]; apply (chain_lookup _ _ _ _ (fo_chain _ _ _ Hf) Hcur)|].
    intros r w' [-> Hs]. fold fs. rewrite En. rewrite !bool_decide_eq_false_2 by lia. by apply wp_ret, HQ.
Qed.

(** The file object after [n] bytes of the cluster [c]. *)
Lemma file_advance fs l fp c n d b :
  let p := fptr fp in
  geom_ok fs -> file_ok fs l fp -> 0 < n -> p + n <= fsize fp ->
  l !! Z.to_nat (p / (csize fs * 512)) = Some c -> p mod (csize fs * 512) + n <= csize fs * 512 ->
  length b = 512%nat ∧ (d = 0 ∨ b = img d) ->
  ((p + n) mod 512 ≠ 0 -> sectors fs l !! Z.to_nat ((p + n) / 512) = Some d) ->
  file_ok fs l (set_fptr (u32 (p + n)) (set_clust c (set_dsect d (set_buf b fp)))).
Proof.
  intros p Hg Hf Hn Hle Hc Hm Hb Hd. pose proof (csize_pos _ Hg) as Hcs. destruct Hf. rewrite u32_small by (unfold is_u32; lia).
  constructor; try done; [simpl; lia|]. intros _. simpl. rewrite <- Hc. do 2 f_equal.
  pose proof (Z.div_mod p (csize fs * 512) ltac:(lia)). pose proof (Z.mod_pos_bound p (csize fs * 512) ltac:(lia)).
  symmetry. apply (Z.div_unique _ _ _ (p mod (csize fs * 512) + n - 1)); lia.
Qed.

Lemma length_flat fs l : geom_ok fs -> Z.of_nat (length (flat fs l)) = Z.of_nat (length l) * (csize fs * 512).
Proof.
  intros Hg. pose proof (csize_pos _ Hg). unfold flat. rewrite (length_blocks _ _ sector_len). unfold sectors.
  rewrite (length_blocks _ _ (length_cluster fs)). lia.
Qed.

(** The bytes of the file from the file pointer on. *)
Definition slice fs l (p n : Z) : list Z := take (Z.to_nat n) (drop (Z.to_nat p) (flat fs l)).

Lemma length_slice fs l fp n :
  geom_ok fs -> file_ok fs l fp -> 0 <= n -> fptr fp + n <= fsize fp -> Z.of_nat (length (slice fs l (fptr fp) n)) = n.
Proof.
  intros Hg Hf Hn Hle. pose proof (length_flat fs l Hg). destruct Hf. unfold slice. rewrite length_take, length_drop. lia.
Qed.

Lemma slice_app fs l p n m : 0 <= p -> 0 <= n -> 0 <= m -> slice fs l p n ++ slice fs l (p + n) m = slice fs l p (n + m).
Proof.
  intros Hp Hn Hm. unfold slice. rewrite (Z2Nat.inj_add n) by lia.
  rewrite (Z2Nat.inj_add p) by lia. rewrite <- drop_drop. set (k := drop (Z.to_nat p) (flat fs l)).
  apply take_take_drop.
Qed.

(** What [fread_loop] does for the rest of the request. *)
Definition reads w l fp btr br out (r : rresult) w' : Prop :=
  same w w' ∧ exists fp', r = (FR_OK, fp', br + btr, out ++ slice (ff_fs w) l (fptr fp) btr) ∧
    file_ok (ff_fs w) l fp' ∧ fptr fp' = fptr fp + btr ∧ fsize fp' = fsize fp.

Definition loop_ok l fuel : Prop := forall w fp btr br out,
  wok w -> file_ok (ff_fs w) l fp -> 0 <= btr -> fptr fp + btr <= fsize fp -> (Z.to_nat btr < fuel)%nat ->
  wp (fread_loop fuel fp btr br out) w (reads w l fp btr br out).

(** One iteration that stores the next [n] bytes. *)
Lemma loop_next l fuel w w1 fp c d b n btr br out :
  let fs := ff_fs w in let p := fptr fp in
  loop_ok l fuel -> same w w1 -> file_ok fs l fp -> 0 < n <= btr -> p + btr <= fsize fp -> (Z.to_nat btr < S fuel)%nat ->
  l !! Z.to_nat (p / (csize fs * 512)) = Some c -> p mod (csize fs * 512) + n <= csize fs * 512 ->
  length b = 512%nat ∧ (d = 0 ∨ b = img d) ->
  ((p + n) mod 512 ≠ 0 -> sectors fs l !! Z.to_nat ((p + n) / 512) = Some d) ->
  wp (fread_loop fuel (set_fptr (u32 (p + n)) (set_clust c (set_dsect d (set_buf b fp)))) (btr - n) (br + n)
        (out ++ slice fs l p n)) w1 (reads w l fp btr br out).
Proof.
  intros fs p IH Hs Hf Hn Hle Hfu Hc Hm Hb Hd. pose proof (same_geom _ _ Hs) as Hg. fold fs in Hg.
  pose proof (file_advance fs l fp c n d b Hg Hf ltac:(lia) ltac:(fold p; lia) Hc Hm Hb Hd) as Hf'. fold p in Hf'.
  destruct (fo_pos _ _ _ Hf) as [Hp Hsz]. fold p in Hp. rewrite (u32_small (p + n)) in * by cint.
  eapply wp_mono; [apply IH; [by eapply same_wok|by eapply file_ok_same|lia|simpl; lia|lia]|].
  intros r w' [Hs' (fp' & -> & Hf2 & Hp2 & Hz2)]. destruct (same_fields _ _ Hs) as (_ & _ & _ & _ & _ & _ & _ & Efl & _).
  split; [by eapply same_trans|]. exists fp'. split_and!.
  - simpl fptr. unfold slice at 2. rewrite Efl. fold fs. fold (slice fs l (p + n) (btr - n)).
    rewrite <- app_assoc, slice_app by lia. do 2 f_equal; [lia|]. f_equal. f_equal. lia.
  - destruct Hs as [_ (a & b0 & E & _)]. rewrite E in Hf2. destruct Hf2. constructor; try done. by destruct fo_chain0.
  - rewrite Hp2. simpl. fold p. lia.
  - by rewrite Hz2.
Qed.

(** The copy out of the sector buffer. *)
Lemma partial_slice fs l fp s btr :
  0 <= fptr fp -> 0 < btr -> sectors fs l !! Z.to_nat (fptr fp / 512) = Some s -> buf fp = img s ->
  partial fp btr = Some (slice fs l (fptr fp) (Z.min btr (512 - fptr fp mod 512))).
Proof.
  intros Hp Hb Hs Eb. pose proof (Z.mod_pos_bound (fptr fp) 512 ltac:(lia)). unfold partial, mem_cpy, slice.
  rewrite Eb. unfold SS. rewrite (flat_part fs l _ s) by (done || lia).
  assert ((if bool_decide (btr < 512 - fptr fp mod 512) then btr else 512 - fptr fp mod 512) =
    Z.min btr (512 - fptr fp mod 512)) as -> by (case_bool_decide; lia).
  rewrite decide_True; [done|]. rewrite sector_len. lia.
Qed.

(** A sector of the file is on the disk. *)
Lemma file_sector fs l fp p c :
  geom_ok fs -> file_ok fs l fp -> 0 <= p -> l !! Z.to_nat (p / (csize fs * 512)) = Some c ->
  sectors fs l !! Z.to_nat (p / 512) = Some (c2s fs c + (p / 512) mod csize fs) ∧
  1 <= c2s fs c + (p / 512) mod csize fs < 2^32.
Proof.
  intros Hg Hf Hp Hc. pose proof (csize_pos _ Hg). pose proof (Z.div_pos p 512 ltac:(lia) ltac:(lia)).
  rewrite cluster_of in Hc by done. split; [by apply sectors_at|].
  apply c2s_range; [done|by eapply chain_lookup; [apply (fo_chain _ _ _ Hf)|]|apply Z.mod_pos_bound; lia].
Qed.

(** The positions within a cluster and within a sector. *)
Lemma pos_in_cluster fs p :
  geom_ok fs -> 0 <= p -> p mod (csize fs * 512) = 512 * ((p / 512) mod csize fs) + p mod 512.
Proof. intros Hg Hp. pose proof (csize_pos _ Hg). rewrite (Z.mul_comm (csize fs)), Z.rem_mul_r by lia. lia. Qed.

(** The rest of an iteration from the copy out of the buffer on. *)
Lemma loop_partial l fuel w w1 fp c d b btr br out :
  let fs := ff_fs w in let p := fptr fp in
  let fp1 := set_clust c (set_dsect d (set_buf b fp)) in
  loop_ok l fuel -> same w w1 -> file_ok fs l fp -> 0 < btr -> p + btr <= fsize fp -> (Z.to_nat btr < S fuel)%nat ->
  l !! Z.to_nat (p / (csize fs * 512)) = Some c ->
  d = c2s fs c + (p / 512) mod csize fs -> b = img d ->
  wp (data ← lift (partial fp1 btr);
      fread_loop fuel (set_fptr (u32 (p + Z.of_nat (length data))) fp1) (btr - Z.of_nat (length data))
        (br + Z.of_nat (length data)) (out ++ data)) w1 (reads w l fp btr br out).
Proof.
  intros fs p fp1 IH Hs Hf Hb Hle Hfu Hc Hd Eb. pose proof (same_geom _ _ Hs) as Hg. fold fs in Hg.
  destruct (fo_pos _ _ _ Hf) as [[Hp _] _]. fold p in Hp. pose proof (csize_pos _ Hg).
  destruct (file_sector fs l fp p c Hg Hf Hp Hc) as [Hsec _]. pose proof (Z.mod_pos_bound p 512 ltac:(lia)).
  rewrite (partial_slice fs l fp1 d) by (simpl; try done; by rewrite Hd). simpl fptr. fold p.
  apply wp_bind. eapply wp_lift; [done|]. set (n := Z.min btr (512 - p mod 512)).
  assert (0 < n ∧ n <= btr ∧ n <= 512 - p mod 512 ∧ (n < 512 - p mod 512 -> n = btr)) as (Hn1 & Hn2 & Hn3 & Hn4) by lia.
  clearbody n. unfold p. rewrite (length_slice fs l fp n) by (done || (fold p; lia)). fold p.
  apply loop_next; try done; fold fs p.
  - rewrite pos_in_cluster by done. pose proof (Z.mod_pos_bound (p / 512) (csize fs) ltac:(lia)). lia.
  - rewrite Eb. split; [apply sector_len|by right].
  - intros Hne. rewrite Hd, <- Hsec. do 2 f_equal. pose proof (Z.div_mod p 512 ltac:(lia)).
    assert (p mod 512 + n ≠ 512). { intros E. apply Hne. symmetry. apply (Z.mod_unique _ _ (p / 512 + 1)); lia. }
    symmetry. apply (Z.div_unique _ _ _ (p mod 512 + n)); lia.
Qed.

(** Whole sectors are read into the caller's buffer. *)
Lemma loop_direct l fuel w w1 fp c btr br out :
  let fs := ff_fs w in let p := fptr fp in let csect := (p / 512) mod csize fs in
  let cc := if bool_decide (csize fs < csect + btr / 512) then csize fs - csect else btr / 512 in
  loop_ok l fuel -> same w w1 -> file_ok fs l fp -> p mod 512 = 0 -> 512 <= btr -> p + btr <= fsize fp ->
  (Z.to_nat btr < S fuel)%nat -> l !! Z.to_nat (p / (csize fs * 512)) = Some c ->
  wp (r ← disk (dk_read (drv fs) (c2s fs c + csect) (u8 cc));
      let '(ok, data) := r in
      if negb (ok : bool) then mret (FR_DISK_ERR, abort (set_clust c fp), br, out ++ data) else
      fread_loop fuel (set_fptr (u32 (p + 512 * cc)) (set_clust c fp)) (btr - 512 * cc) (br + 512 * cc) (out ++ data))
    w1 (reads w l fp btr br out).
Proof.
  intros fs p csect cc IH Hs Hf Hm Hb Hle Hfu Hc. pose proof (same_geom _ _ Hs) as Hg. fold fs in Hg.
  destruct (fo_pos _ _ _ Hf) as [[Hp _] _]. fold p in Hp. pose proof (csize_pos _ Hg).
  pose proof (Z.mod_pos_bound (p / 512) (csize fs) ltac:(lia)) as Hcs. fold csect in Hcs.
  pose proof (Z.div_mod btr 512 ltac:(lia)). pose proof (Z.mod_pos_bound btr 512 ltac:(lia)).
  assert (0 < cc <= btr / 512 ∧ csect + cc <= csize fs) as [Hcc1 Hcc2] by (unfold cc; case_bool_decide; lia). clearbody cc.
  pose proof (Z.div_mod p 512 ltac:(lia)). pose proof (Z.div_pos p 512 ltac:(lia) ltac:(lia)).
  pose proof (fo_buf _ _ _ Hf) as Hbuf. pose proof (Z.mod_unique (p + 512 * cc) 512 (p / 512 + cc) 0 ltac:(lia) ltac:(lia)).
  rewrite (u8_small cc) by (unfold is_u8; lia). apply wp_bind, wp_disk_read; [by eapply same_wok|lia|]. intros w2 Hs2 _. simpl negb.
  rewrite cluster_of in Hc by done.
  pose proof (flat_run fs l (p / 512) c cc Hg ltac:(lia) Hc ltac:(lia) ltac:(fold csect; lia)) as Efl.
  fold csect in Efl. rewrite <- Efl. replace (512 * (p / 512)) with p by lia.
  rewrite <- cluster_of in Hc by done.
  apply (loop_next l fuel w w2 fp c (dsect fp) (buf fp)); try done; [by eapply same_trans|lia|..]; fold fs p.
  rewrite pos_in_cluster by done. fold csect. lia.
Qed.

(** The sector buffer is filled unless it already holds the sector. *)
Lemma wp_load_buf w fp s (Q : bool * FIL -> ff D -> Prop) :
  wok w -> length (buf fp) = 512%nat ∧ (dsect fp = 0 ∨ buf fp = img (dsect fp)) -> s ≠ 0 ->
  (forall w', same w w' -> Q (true, set_buf (img s) fp) w') ->
  wp (if bool_decide (dsect fp ≠ s) then read_buf fp s else mret (true, fp)) w Q.
Proof.
  intros Hw [Hl Hb] Hs HQ. case_bool_decide as Hd.
  - unfold read_buf, fs_get. apply wp_bind, wp_gets, wp_bind, wp_disk_read; [done|lia|]. intros w1 H1 _.
    apply wp_ret. rewrite one_sector. unfold buf_store. rewrite drop_ge by (rewrite sector_len; lia).
    rewrite app_nil_r. by apply HQ.
  - apply wp_ret. specialize (HQ w (same_refl _ Hw)). destruct Hb as [Hb|Hb]; [lia|]. rewrite Hd in Hb.
    destruct fp. simpl in *. unfold set_buf in HQ. simpl in HQ. by subst.
Qed.

Lemma fread_loop_ok l fuel : loop_ok l fuel.
Proof.
  induction fuel as [|fuel IH]; intros w fp btr br out Hw Hf Hb Hle Hfu; [lia|].
  pose proof (w_geom _ Hw) as Hg. pose proof (csize_pos _ Hg). destruct (fo_pos _ _ _ Hf) as [[Hp _] _].
  cbn [fread_loop]. case_bool_decide as Hz.
  { apply wp_ret. split; [by apply same_refl|]. exists fp. subst btr. unfold slice. simpl.
    rewrite app_nil_r, !Z.add_0_r. done. }
  destruct (chain_at _ l fp (fptr fp) Hg Hf ltac:(lia)) as (c & Hc & Hcr).
  destruct (file_sector _ l fp (fptr fp) c Hg Hf Hp Hc) as [Hsec Hsr].
  unfold SS at 1. case_bool_decide as Hm.
  - unfold fs_get at 1. apply wp_bind, wp_gets. rewrite csect_val by done.
    apply wp_bind, (wp_read_cluster w l fp c); [done..|lia|done|done|]. intros w1 Hs1.
    destruct (same_fields _ _ Hs1) as (_ & Edrv & En & _ & _ & Ec2s & _).
    rewrite (bool_decide_eq_false_2 (_ ≠ _)) by auto. apply wp_bind, wp_clust2sect; [by eapply w_geom, same_wok|simpl; by rewrite En|].
    simpl clust. rewrite Ec2s. rewrite bool_decide_eq_false_2 by (pose proof (c2s_range _ c 0 Hg Hcr); lia).
    rewrite (u32_small (c2s _ _ + _)) by (unfold is_u32; lia). unfold SS. pose proof (Z.div_mod btr 512 ltac:(lia)). pose proof (Z.mod_pos_bound btr 512 ltac:(lia)).
    case_bool_decide as Hcc.
    + unfold fs_get. apply wp_bind, wp_gets. rewrite Edrv. change (fptr (set_clust c fp)) with (fptr fp). by apply loop_direct; try lia.
    + apply wp_bind, (wp_load_buf w1 (set_clust c fp)); [by eapply same_wok|by apply (fo_buf _ _ _ Hf)|lia|].
      intros w2 Hs2. simpl negb.
      apply (loop_partial l fuel w w2 fp c _ (img (c2s (ff_fs w) c + (fptr fp / 512) mod csize (ff_fs w)))); try done;
        [by eapply same_trans|lia].
  - assert (fptr fp mod (csize (ff_fs w) * 512) ≠ 0). { rewrite pos_in_cluster by done. pose proof (Z.mod_pos_bound (fptr fp) 512 ltac:(lia)). pose proof (Z.mod_pos_bound (fptr fp / 512) (csize (ff_fs w)) ltac:(lia)). lia. }
    assert (0 < fptr fp) as Hpos by (destruct (decide (fptr fp = 0)) as [E|]; [by rewrite E in Hm|lia]).
    pose proof (fo_cur _ _ _ Hf ltac:(lia)) as Hcur. rewrite div_pred_same in Hcur by lia. rewrite Hc in Hcur. injection Hcur as ->.
    pose proof (fo_sect _ _ _ Hf Hm) as Hd. rewrite Hsec in Hd. injection Hd as Hd.
    destruct (fo_buf _ _ _ Hf) as [_ [E0|Eb]]; [lia|]. rewrite <- Hd in Eb.
    pose proof (loop_partial l fuel w w fp (clust fp) (dsect fp) (buf fp) btr br out IH) as L.
    destruct fp. apply L; try done; [by apply same_refl|lia|by rewrite <- Hd].
Qed.

Lemma wp_validate w l fp (Q : FRESULT -> ff D -> Prop) :
  wok w -> file_ok (ff_fs w) l fp -> (forall w', same w w' -> ff_fs w' = ff_fs w -> Q FR_OK w') ->
  wp (validate (fil_fs fp) (fil_id fp)) w Q.
Proof.
  intros Hw Hf HQ. destruct (fo_fs _ _ _ Hf) as [E1 E2]. unfold validate. wp_pure. rewrite E1, E2.
  rewrite (bool_decide_eq_false_2 (_ ≠ _)) by auto. rewrite bool_decide_eq_false_2.
  2: { destruct (g_type _ (w_geom _ Hw)) as [-> | [-> | ->]]; done. }
  simpl. apply wp_bind, wp_status; [done|]. intros w' Hs Ew. apply wp_ret. by apply HQ.
Qed.

Lemma f_read_spec w l fp btr :
  wok w -> file_ok (ff_fs w) l fp -> 0 <= btr ->
  wp (f_read fp btr) w (reads w l fp (Z.min btr (fsize fp - fptr fp)) 0 []).
Proof.
  intros Hw Hf Hb. unfold f_read. apply wp_bind, (wp_validate w l); [done..|]. intros w1 Hs1 Ew.
  destruct (fo_flag _ _ _ Hf) as [Hf1 Hf2], (fo_pos _ _ _ Hf) as [Hp Hz].
  rewrite !bool_decide_eq_false_2 by auto. rewrite u32_small by cint.
  assert ((if bool_decide (fsize fp - fptr fp < btr) then fsize fp - fptr fp else btr) = Z.min btr (fsize fp - fptr fp))
    as -> by (case_bool_decide; lia).
  eapply wp_mono; [apply fread_loop_ok; [by eapply same_wok|by rewrite Ew|lia..]|].
  intros r w' [Hs' H']. rewrite Ew in H'. split; [by eapply same_trans|done].
Qed.

(** *** Seeking *)

Lemma clear_low x k : 0 <= k -> 0 <= x -> Z.land x (Z.lnot (2^k - 1)) = x / 2^k * 2^k.
Proof.
  intros Hk Hx. replace (2^k - 1) with (Z.ones k) by (rewrite Z.ones_equiv; lia).
  rewrite <- Z.ldiff_land, Z.ldiff_ones_r, Z.shiftr_div_pow2, Z.shiftl_mul_pow2 by lia. done.
Qed.

Lemma wp_seek_loop l fuel : forall w fp k c ofs (Q : _ -> ff D -> Prop),
  let bcs := csize (ff_fs w) * 512 in
  wok w -> is_chain (ff_fs w) l -> 0 <= k -> l !! Z.to_nat k = Some c -> 0 < ofs ->
  k * bcs + ofs <= Z.of_nat (length l) * bcs -> k * bcs + ofs < 2^32 -> (Z.to_nat ofs < fuel)%nat ->
  fptr fp = k * bcs -> clust fp = c ->
  (forall w' k' c' ofs', same w w' -> 0 <= k' -> l !! Z.to_nat k' = Some c' -> 0 < ofs' <= bcs ->
    k' * bcs + ofs' = k * bcs + ofs -> Q (FR_OK, set_fptr (k' * bcs) (set_clust c' fp), c', ofs') w') ->
  wp (seek_loop fuel fp c bcs ofs) w Q.
Proof.
  induction fuel as [|fuel IH]; intros w fp k c ofs Q bcs Hw Hch Hk Hc Ho Hlen Hsz Hfu Hp Ecl HQ; [lia|].
  pose proof (w_geom _ Hw) as Hg. pose proof (csize_pos _ Hg). pose proof (g_fatent _ Hg) as Hn.
  assert (512 <= bcs) as Hbcs by lia. cbn [seek_loop]. case_bool_decide as Hlt.
  2: { apply wp_ret. specialize (HQ w k c ofs (same_refl _ Hw) Hk Hc ltac:(lia) eq_refl).
       destruct fp. simpl in *. unfold set_fptr, set_clust in HQ. simpl in HQ. by subst. }
  destruct (lookup_lt_is_Some_2 l (S (Z.to_nat k))) as [c2 Hc2]; [nia|].
  pose proof (ch_next _ _ Hch _ _ _ Hc Hc2) as En. pose proof (chain_lookup _ _ _ _ Hch Hc2) as Hr2.
  apply wp_bind. eapply wp_mono; [apply get_fat_spec; [done|by eapply chain_lookup]|]. intros r w1 [-> Hs1]. rewrite En.
  destruct (same_fields _ _ Hs1) as (Ecs & _ & Enf & _).
  rewrite bool_decide_eq_false_2 by lia. unfold fs_get. apply wp_bind, wp_gets. rewrite Enf, bool_decide_eq_false_2 by lia.
  rewrite !u32_small by (unfold is_u32; lia). assert (bcs = csize (ff_fs w1) * 512) as Eb by (rewrite Ecs; done). rewrite Eb.
  apply (IH w1 _ (k + 1)); rewrite <- ?Eb; try lia; try done.
  - by eapply same_wok.
  - destruct Hs1 as [_ (a & b & E & _)]. rewrite E. by destruct Hch.
  - by replace (Z.to_nat (k + 1)) with (S (Z.to_nat k)) by lia.
  - simpl. rewrite Hp. lia.
  - intros w' k' c' ofs' Hs' Hk' Hc' Ho' Eo. apply (HQ w' k' c' ofs'); try done; [by eapply same_trans|lia].
Qed.

Lemma first_cluster fs l fp : file_ok fs l fp -> 0 < fsize fp -> geom_ok fs -> l !! 0%nat = Some (sclust fp).
Proof.
  intros Hf Hs Hg. pose proof (fo_size _ _ _ Hf). pose proof (csize_pos _ Hg).
  destruct (fo_first _ _ _ Hf) as [->|E]; [simpl in *; lia|]. by destruct l.
Qed.

(** From the cluster of number [k] on. *)
Lemma wp_seek_tail w l fp k c ofs (Q : FRESULT * FIL * Z -> ff D -> Prop) :
  let fs := ff_fs w in let bcs := csize fs * 512 in let t := k * bcs + ofs in
  wok w -> is_chain fs l -> 0 <= k -> l !! Z.to_nat k = Some c -> 0 < ofs ->
  t <= Z.of_nat (length l) * bcs -> t < 2^32 -> fptr fp = k * bcs -> clust fp = c ->
  (forall w' c' nsect, same w w' -> l !! Z.to_nat ((t - 1) / bcs) = Some c' ->
    (t mod 512 ≠ 0 -> nsect = c2s fs c' + (t / 512) mod csize fs) ->
    Q (FR_OK, set_fptr t (set_clust c' fp), nsect) w') ->
  wp (r ← seek_loop (S (Z.to_nat ofs)) fp c bcs ofs;
      let '(res, fp, clst, ofs) := r in
      if bool_decide (res ≠ FR_OK) then mret (res, fp, 0) else
      let fp := set_fptr (u32 (fptr fp + ofs)) fp in
      if bool_decide (ofs mod SS ≠ 0) then
        nsect ← clust2sect clst;
        if bool_decide (nsect = 0) then mret (FR_INT_ERR, abort fp, 0) else
        mret (FR_OK, fp, u32 (nsect + ofs / SS))
      else mret (FR_OK, fp, 0)) w Q.
Proof.
  intros fs bcs t Hw Hch Hk Hc Ho Hlen Hsz Hp Ecl HQ. pose proof (w_geom _ Hw) as Hg. fold fs in Hg.
  pose proof (csize_pos _ Hg) as Hcs. assert (512 <= bcs) as Hbcs by lia.
  apply wp_bind, (wp_seek_loop l _ w fp k c ofs); try done; [lia|]. fold fs bcs.
  intros w1 k' c' o Hs1 Hk' Hc' Ho' Et. change (k * bcs + ofs) with t in Et. rewrite bool_decide_eq_false_2 by auto. cbn zeta.
  change (fptr (set_fptr (k' * bcs) (set_clust c' fp))) with (k' * bcs). rewrite Et, (u32_small t) by (unfold is_u32; nia).
  pose proof (chain_lookup _ _ _ _ Hch Hc') as Hr'.
  assert (l !! Z.to_nat ((t - 1) / bcs) = Some c') as Hct.
  { rewrite <- Hc'. do 2 f_equal. symmetry. apply (Z.div_unique _ _ _ (o - 1)); lia. }
  unfold SS. assert (t mod 512 = o mod 512) as Em.
  { rewrite <- Et. unfold bcs. replace (k' * (csize fs * 512) + o) with (o + k' * csize fs * 512) by lia. apply Z_mod_plus_full. }
  case_bool_decide as Hm; [|apply wp_ret, HQ; [done..|congruence]].
  destruct (same_fields _ _ Hs1) as (_ & _ & Enf & _ & _ & Ec2s & _).
  apply wp_bind, wp_clust2sect; [by eapply w_geom, same_wok|by rewrite Enf|]. rewrite Ec2s. fold fs.
  pose proof (Z.div_mod o 512 ltac:(lia)). pose proof (Z.mod_pos_bound o 512 ltac:(lia)).
  assert (0 <= o / 512 < csize fs) as Hq by lia. pose proof (c2s_range fs c' 0 Hg Hr' ltac:(lia)).
  pose proof (c2s_range fs c' _ Hg Hr' Hq). rewrite bool_decide_eq_false_2 by lia. rewrite u32_small by cint.
  apply wp_ret, HQ; [done..|]. intros _. f_equal. rewrite <- Et. unfold bcs.
  replace (k' * (csize fs * 512) + o) with (o + k' * csize fs * 512) by lia. rewrite Z_div_plus_full by lia.
  apply (Z.mod_unique _ _ k'); lia.
Qed.

Lemma wp_seek_to w l fp ofs (Q : FRESULT * FIL * Z -> ff D -> Prop) :
  let fs := ff_fs w in let bcs := csize fs * 512 in
  wok w -> file_ok fs l fp -> 0 < ofs <= fsize fp ->
  (forall w' c nsect, same w w' -> l !! Z.to_nat ((ofs - 1) / bcs) = Some c ->
    (ofs mod 512 ≠ 0 -> nsect = c2s fs c + (ofs / 512) mod csize fs) ->
    Q (FR_OK, set_fptr ofs (set_clust c fp), nsect) w') ->
  wp (seek_to (set_fptr 0 fp) (fptr fp) ofs) w Q.
Proof.
  intros fs bcs Hw Hf Ho HQ. pose proof (w_geom _ Hw) as Hg. fold fs in Hg. pose proof (csize_pos _ Hg) as Hcs.
  destruct (fo_pos _ _ _ Hf) as [Hp Hz]. pose proof (fo_size _ _ _ Hf) as Hlen. pose proof (fo_chain _ _ _ Hf) as Hch.
  assert (512 <= bcs) as Hbcs by lia. unfold seek_to, fs_get. apply wp_bind, wp_gets. fold fs.
  assert (u32 (csize fs * SS) = bcs) as -> by (apply u32_small; unfold is_u32, SS; lia). case_bool_decide as Hd.
  - destruct Hd as [Hpos Hle]. pose proof (fo_cur _ _ _ Hf Hpos) as Hcur. fold bcs in Hcur.
    assert (Z.land (fptr fp - 1) (Z.lnot (bcs - 1)) = (fptr fp - 1) / bcs * bcs) as Ep.
    { destruct (g_csize _ Hg) as (j & Hj & Ej). assert (bcs = 2^(j + 9)) as -> by (unfold bcs; rewrite Ej, Z.pow_add_r by lia; lia).
      apply clear_low; lia. }
    rewrite Ep. set (k := (fptr fp - 1) / bcs) in *. assert (0 <= k) by (apply Z.div_pos; lia).
    assert (k * bcs <= ofs - 1). { pose proof (Z.mul_div_le (ofs - 1) bcs ltac:(lia)). nia. }
    change (clust (set_fptr 0 fp)) with (clust fp). pose proof (chain_lookup _ _ _ _ Hch Hcur).
    rewrite bool_decide_eq_false_2 by lia. rewrite (u32_small (ofs - _)) by (unfold is_u32; nia).
    apply (wp_seek_tail w l _ k); fold fs bcs; try done; try lia.
    replace (k * bcs + (ofs - k * bcs)) with ofs by lia. exact HQ.
  - pose proof (first_cluster _ _ _ Hf ltac:(lia) Hg) as H0. pose proof (chain_lookup _ _ _ _ Hch H0).
    change (sclust (set_fptr 0 fp)) with (sclust fp). rewrite bool_decide_eq_false_2 by lia.
    apply (wp_seek_tail w l _ 0); fold fs bcs; try done; try lia.
Qed.

(** The file object at position [t] of the file. *)
Lemma file_moved fs l fp t c d b :
  geom_ok fs -> file_ok fs l fp -> 0 <= t <= fsize fp ->
  (0 < t -> l !! Z.to_nat ((t - 1) / (csize fs * 512)) = Some c) ->
  length b = 512%nat ∧ (d = 0 ∨ b = img d) ->
  (t mod 512 ≠ 0 -> sectors fs l !! Z.to_nat (t / 512) = Some d) ->
  file_ok fs l (set_fptr t (set_clust c (set_dsect d (set_buf b fp)))).
Proof. intros Hg [] Ht Hc Hb Hd. constructor; try done. simpl. lia. Qed.

Lemma f_lseek_spec w l fp ofs :
  wok w -> file_ok (ff_fs w) l fp -> 0 <= ofs ->
  wp (f_lseek fp ofs) w (λ r w', same w w' ∧ exists fp', r = (FR_OK, fp') ∧ file_ok (ff_fs w) l fp' ∧
    fptr fp' = Z.min ofs (fsize fp) ∧ fsize fp' = fsize fp).
Proof.
  intros Hw Hf Ho. unfold f_lseek. apply wp_bind, (wp_validate w l); [done..|]. intros w1 Hs1 Ew.
  destruct (fo_flag _ _ _ Hf) as [Hf1 _], (fo_pos _ _ _ Hf) as [Hp Hz]. pose proof (w_geom _ Hw) as Hg. pose proof (csize_pos _ Hg) as Hcs.
  rewrite !(bool_decide_eq_false_2 (_ ≠ _)) by auto.
  assert ((if bool_decide (fsize fp < ofs) then fsize fp else ofs) = Z.min ofs (fsize fp)) as -> by (case_bool_decide; lia).
  set (t := Z.min ofs (fsize fp)) in *. assert (0 <= t <= fsize fp) as Ht by lia. clearbody t.
  case_bool_decide as Ht0.
  2: { wp_steps. rewrite bool_decide_eq_false_2 by auto. assert (t = 0) as -> by (destruct (decide (t = 0)); tauto).
    rewrite bool_decide_eq_false_2 by (intros [HH _]; by apply HH). apply wp_ret. split; [done|]. exists (set_fptr 0 fp).
    split_and!; try done. pose proof (file_moved _ l fp 0 (clust fp) (dsect fp) (buf fp) Hg Hf) as L.
    destruct fp. apply L; try lia; try done. by apply (fo_buf _ _ _ Hf). }
  apply wp_bind, (wp_seek_to w1 l fp t); rewrite ?Ew; [by eapply same_wok|done|lia|].
  intros w2 c nsect Hs2 Hc Hn. rewrite bool_decide_eq_false_2 by auto.
  change (fptr (set_fptr t (set_clust c fp))) with t. change (dsect (set_fptr t (set_clust c fp))) with (dsect fp). unfold SS.
  assert (t mod 512 ≠ 0 -> sectors (ff_fs w) l !! Z.to_nat (t / 512) = Some nsect ∧ nsect ≠ 0) as Hsec.
  { intros Hm. assert (t mod (csize (ff_fs w) * 512) ≠ 0).
    { rewrite pos_in_cluster by (done || lia). pose proof (Z.mod_pos_bound t 512 ltac:(lia)).
      pose proof (Z.mod_pos_bound (t / 512) (csize (ff_fs w)) ltac:(lia)). lia. }
    rewrite div_pred_same in Hc by lia. destruct (file_sector _ l fp t c Hg Hf ltac:(lia) Hc) as [E Er].
    rewrite (Hn Hm). split; [done|lia]. }
  pose proof (fo_buf _ _ _ Hf) as Hbuf. case_bool_decide as Hd.
  - destruct Hd as [Hm _]. destruct (Hsec Hm) as [Hs Hnz]. unfold read_buf, fs_get. wp_pure.
    apply wp_bind, wp_disk_read; [by eapply same_wok|lia|]. intros w3 Hs3 _. wp_pure. simpl negb. apply wp_ret.
    split; [by eapply same_trans; [eapply same_trans|]|]. eexists. split; [done|].
    rewrite one_sector. unfold buf_store. rewrite drop_ge by (rewrite sector_len; simpl; lia). rewrite app_nil_r.
    split_and!; try done. apply (file_moved _ l fp t c nsect (img nsect)); try done.
    split; [apply sector_len|by right].
  - apply wp_ret. split; [by eapply same_trans|]. eexists. split; [done|]. split_and!; try done.
    apply (file_moved _ l fp t c (dsect fp) (buf fp)); try done.
    intros Hm. destruct (Hsec Hm) as [-> _]. destruct (decide (nsect = dsect fp)) as [->|]; [done|tauto].
Qed.
End volume.

(** ** Properties *)

Section properties.
Context {D : Type} `{Disk D} (P : D -> Prop) (img : Z -> list Z) `{!DiskImage D P img}.

(** A sequence of reads, as long as they succeed: the bytes. *)
Fixpoint read_chunks (fp : FIL) (sizes : list Z) : ST (ff D) (option (FIL * list Z)) :=
  match sizes with
  | [] => mret (Some (fp, []))
  | n :: sizes =>
      r ← f_read fp n;
      let '(res, fp, br, data) := r in
      if bool_decide (res ≠ FR_OK) then mret None else
      q ← read_chunks fp sizes;
      mret (match q with Some (fp, rest) => Some (fp, data ++ rest) | None => None end)
  end.

Definition total (sizes : list Z) : Z := foldr Z.add 0 sizes.

(** A FAT entry is read correctly in all three formats (the 12-bit entries
    that cross a sector boundary included), and reading it changes nothing but
    the sector window. *)
Theorem get_fat_entry w c :
  wok P img w -> 2 <= c < n_fatent (ff_fs w) ->
  exists w', get_fat c w = Some (fat_next img (ff_fs w) c, w') ∧ same P img w w'.
Proof.
  intros Hw Hc. pose proof (get_fat_spec P img c w Hw Hc) as Hr. apply wp_run in Hr as (r & w' & E & -> & Hs). by exists w'.
Qed.

(** C3: [f_read] stores exactly the bytes of the file from the file pointer on,
    cut off at the end of the file, reports their number and advances the file
    pointer by it; it always returns, whatever the alignment of the position
    and the length to sectors and clusters. *)
Theorem f_read_returns_file w l fp btr :
  wok P img w -> file_ok img (ff_fs w) l fp -> 0 <= btr ->
  let n := Z.min btr (fsize fp - fptr fp) in
  exists w' fp', f_read fp btr w = Some ((FR_OK, fp', n, slice img (ff_fs w) l (fptr fp) n), w') ∧
    same P img w w' ∧ file_ok img (ff_fs w') l fp' ∧ fptr fp' = fptr fp + n ∧ fsize fp' = fsize fp.
Proof.
  intros Hw Hf Hb n. pose proof (f_read_spec P img w l fp btr Hw Hf Hb) as Hr.
  apply wp_run in Hr as (r & w' & E & Hs & fp' & -> & Hf' & Hp & Hz). exists w', fp'.
  split_and!; try done. by eapply file_ok_same.
Qed.

(** Seeking to an offset and reading gives the bytes at that offset; an
    offset beyond the end is clipped to the size of the file. *)
Theorem seek_then_read w l fp ofs btr :
  wok P img w -> file_ok img (ff_fs w) l fp -> 0 <= ofs -> 0 <= btr ->
  let p := Z.min ofs (fsize fp) in let n := Z.min btr (fsize fp - p) in
  exists w' fp',
    (r ← f_lseek fp ofs; let '(res, fp) := r in
     if bool_decide (res ≠ FR_OK) then mret (res, fp, 0, []) else f_read fp btr) w =
    Some ((FR_OK, fp', n, slice img (ff_fs w) l p n), w') ∧
    same P img w w' ∧ file_ok img (ff_fs w') l fp' ∧ fptr fp' = p + n.
Proof.
  intros Hw Hf Ho Hb p n.
  assert (wp (r ← f_lseek fp ofs; let '(res, fp) := r in
     if bool_decide (res ≠ FR_OK) then mret (res, fp, 0, []) else f_read fp btr) w
    (λ r w', same P img w w' ∧ exists fp', r = (FR_OK, fp', n, slice img (ff_fs w) l p n) ∧
       file_ok img (ff_fs w') l fp' ∧ fptr fp' = p + n)) as Hr.
  { apply wp_bind. eapply wp_mono; [by apply (f_lseek_spec P img w l)|]. intros r w1 (Hs1 & fp1 & -> & Hf1 & Hp1 & Hz1).
    rewrite bool_decide_eq_false_2 by auto.
    eapply wp_mono; [apply (f_read_spec P img w1 l); [by eapply same_wok|by eapply file_ok_same|done]|].
    intros r w2 (Hs2 & fp2 & -> & Hf2 & Hp2 & Hz2). split; [by eapply same_trans|]. exists fp2.
    destruct (same_fields _ _ _ _ Hs1) as (_ & _ & _ & _ & _ & _ & _ & Efl & _). unfold slice. rewrite Efl, Hz1, Hp1.
    split_and!; [done|by eapply file_ok_same|by rewrite Hp2, Hp1, Hz1]. }
  apply wp_run in Hr as (r & w' & E & Hs & fp' & -> & Hf' & Hp'). by exists w', fp'.
Qed.

Lemma read_chunks_spec l sizes : forall w fp,
  wok P img w -> file_ok img (ff_fs w) l fp -> Forall (λ n, 0 <= n) sizes ->
  wp (read_chunks fp sizes) w (λ r w', same P img w w' ∧ exists fp',
    r = Some (fp', slice img (ff_fs w) l (fptr fp) (Z.min (total sizes) (fsize fp - fptr fp)))).
Proof.
  induction sizes as [|n sizes IH]; intros w fp Hw Hf Hn; cbn [read_chunks].
  - apply wp_ret. split; [by apply same_refl|]. exists fp. destruct (fo_pos _ _ _ _ Hf).
    change (total []) with 0. rewrite Z.min_l by lia. done.
  - apply Forall_cons_iff in Hn as [Hn Hns]. destruct (fo_pos _ _ _ _ Hf) as [Hp _].
    assert (0 <= total sizes) as Ht by (clear IH; induction Hns; simpl; lia).
    apply wp_bind. eapply wp_mono; [by apply (f_read_spec P img w l)|]. intros r w1 (Hs1 & fp1 & -> & Hf1 & Hp1 & Hz1).
    rewrite bool_decide_eq_false_2 by auto. apply wp_bind.
    eapply wp_mono; [apply IH; [by eapply same_wok|by eapply file_ok_same|done]|]. intros r w2 (Hs2 & fp2 & ->).
    apply wp_ret. split; [by eapply same_trans|]. exists fp2. do 2 f_equal.
    destruct (same_fields _ _ _ _ Hs1) as (_ & _ & _ & _ & _ & _ & _ & Efl & _). unfold slice at 2. rewrite Efl, Hp1, Hz1.
    simpl app. change (take (Z.to_nat ?a) (drop (Z.to_nat ?b) (flat img (ff_fs w) l))) with (slice img (ff_fs w) l b a).
    rewrite slice_app by lia. f_equal. simpl. lia.
Qed.

(** C32: Reading a file in chunks of any sizes (the loader reads 32768 bytes at
    a time) delivers the same bytes as one read: their concatenation is the
    file from the starting position on, up to its end. *)
Theorem chunked_read w l fp sizes :
  wok P img w -> file_ok img (ff_fs w) l fp -> Forall (λ n, 0 <= n) sizes ->
  exists w' fp', read_chunks fp sizes w =
    Some (Some (fp', slice img (ff_fs w) l (fptr fp) (Z.min (total sizes) (fsize fp - fptr fp))), w').
Proof.
  intros Hw Hf Hn. pose proof (read_chunks_spec l sizes w fp Hw Hf Hn) as Hr.
  apply wp_run in Hr as (r & w' & E & _ & fp' & ->). by exists w', fp'.
Qed.
End properties.

(** ** An example volume

    A FAT12 volume of eight sectors: the boot sector, one FAT, the root
    directory with one file BOOT.ELF of 700 bytes in the clusters 2 and 3, and
    the data area from sector 3 on. *)
Module Demo.

(** [l] with the bytes [b] written from offset [o] on. *)
Definition patch (o : nat) (b l : list Z) : list Z := take o l ++ b ++ drop (o + length b) l.

Definition boot_sector : list Z :=
  patch 11 [0; 2; 1; 1; 0; 1; 16; 0; 8; 0; 0xF8; 1; 0] (patch 54 [70; 65; 84] (patch 510 [0x55; 0xAA] (replicate 512 0))).
Definition fat_sector : list Z := patch 0 [0xF8; 0xFF; 0xFF; 3; 0xF0; 0xFF] (replicate 512 0).
Definition dir_sector : list Z :=
  patch 0 [66; 79; 79; 84; 32; 32; 32; 32; 69; 76; 70; 0x20] (patch 26 [2; 0; 0xBC; 2; 0; 0] (replicate 512 0)).

Definition image (s : Z) : list Z :=
  if bool_decide (s = 0) then boot_sector
  else if bool_decide (s = 1) then fat_sector
  else if bool_decide (s = 2) then dir_sector
  else replicate 512 (s mod 256).

Definition vol : FATFS := MkFATFS FS_FAT12 0 1 1 0 1 16 7 1 1 2 3 0 (replicate 512 0).
Definition world : ff unit := MkFF vol true 1 tt.
Definition file : FIL := MkFIL true 1 FA_READ 0 700 2 0 0 (replicate 512 0).

#[global] Instance disk_inst : Disk unit := ram_disk image.

Lemma image_ok : @DiskImage unit disk_inst (λ _, True) image.
Proof.
  apply ram_disk_image. intros s. unfold image. unfold is_u8.
  repeat (case_bool_decide; [split; [reflexivity|apply (bool_decide_unpack _); vm_compute; exact I]|]).
  split; [apply length_replicate|]. apply Forall_replicate. pose proof (Z.mod_pos_bound s 256). lia.
Qed.
#[global] Existing Instance image_ok.

Lemma geom : geom_ok vol.
Proof. constructor; [by left|by exists 0|..]; vm_compute; split; discriminate || reflexivity. Qed.

Lemma world_ok : wok (λ _, True) image world.
Proof. constructor; [done|exact geom|apply length_replicate|by left]. Qed.

Lemma chain_ok : is_chain image vol [2; 3].
Proof.
  constructor; [repeat constructor; vm_compute; discriminate || reflexivity|].
  intros [|[|i]] c c' E E'; simpl in E, E'; simplify_eq. vm_compute. reflexivity.
Qed.

Lemma file_is_ok : file_ok image vol [2; 3] file.
Proof.
  constructor; simpl; try done; try lia; [apply chain_ok|by right].
Qed.
End Demo.

Lemma get_fat_entry_witness :
  exists w', get_fat 2 Demo.world = Some (3, w') ∧ same (λ _, True) Demo.image Demo.world w'.
Proof. apply (get_fat_entry (λ _, True) Demo.image Demo.world 2 Demo.world_ok). vm_compute. split; [discriminate|reflexivity]. Defined.

Lemma f_read_returns_file_witness :
  exists w' fp', f_read Demo.file 1000 Demo.world =
    Some ((FR_OK, fp', 700, replicate 512 3 ++ replicate 188 4), w') ∧ fptr fp' = 700.
Proof.
  destruct (f_read_returns_file (λ _, True) Demo.image Demo.world [2; 3] Demo.file 1000 Demo.world_ok Demo.file_is_ok)
    as (w' & fp' & E & _ & _ & Hp & _); [lia|]. exists w', fp'. split; [exact E|exact Hp].
Defined.

Lemma seek_then_read_witness :
  exists w' fp', (r ← f_lseek Demo.file 500; let '(res, fp) := r in
     if bool_decide (res ≠ FR_OK) then mret (res, fp, 0, []) else f_read fp 20) Demo.world =
    Some ((FR_OK, fp', 20, replicate 12 3 ++ replicate 8 4), w') ∧ fptr fp' = 520.
Proof.
  destruct (seek_then_read (λ _, True) Demo.image Demo.world [2; 3] Demo.file 500 20 Demo.world_ok Demo.file_is_ok)
    as (w' & fp' & E & _ & _ & Hp); [lia|lia|]. exists w', fp'. split; [exact E|exact Hp].
Defined.

Lemma chunked_read_witness :
  exists w' fp', read_chunks Demo.file [100; 500; 400] Demo.world =
    Some (Some (fp', replicate 512 3 ++ replicate 188 4), w').
Proof.
  apply (chunked_read (λ _, True) Demo.image Demo.world [2; 3] Demo.file [100; 500; 400] Demo.world_ok Demo.file_is_ok).
  repeat constructor; lia.
Defined.
