(* ===== verification/FatDir.v ===== *)
(** * Names, directories and opening files

    [create_name], [dir_find], [follow_path] and [f_open] (FatFs.v) are proved
    against an abstract view of the volume: a directory is the list of its
    sectors, an entry is 32 bytes of one of them, and a path of 8.3 names
    leads from directory to directory. *)

From S2P Require Import Prelude FatFs FatRead.
Open Scope Z_scope.

(** ** Short names *)

(** A character that a short name may contain (in ASCII). *)
Definition name_char (c : Z) : Prop :=
  32 < c < 0x80 ∧ c ≠ 46 ∧ c ≠ 47 ∧ c ≠ 92 ∧ (c ∉ bad_chars).

Definition upper (c : Z) : Z := if IsLower c then c - 0x20 else c.

(** The name of a file: body and extension. *)
Record name83 := Name83 { n_body : list Z; n_ext : list Z }.

Record name_ok (n : name83) : Prop := {
  nm_body : (1 <= length (n_body n) <= 8)%nat;
  nm_ext : (length (n_ext n) <= 3)%nat;
  nm_chars : Forall name_char (n_body n ++ n_ext n);
}.

(** As it is written in a path. *)
Definition name_text (n : name83) : list Z :=
  n_body n ++ match n_ext n with [] => [] | e => 46 :: e end.

(** As it is stored in a directory entry. *)
Definition name_sfn (n : name83) : list Z :=
  (upper <$> n_body n) ++ replicate (8 - length (n_body n)) 32 ++
  (upper <$> n_ext n) ++ replicate (3 - length (n_ext n)) 32.

Lemma length_sfn n : name_ok n -> length (name_sfn n) = 11%nat.
Proof. intros []. unfold name_sfn. len. Qed.

Lemma chk_chr_absent str c : 0 ∈ str -> c ≠ 0 -> (c ∉ str) -> chk_chr str c = Some 0.
Proof.
  induction str as [|x str IH]; intros H0 Hc Hn; [by apply elem_of_nil in H0|]. simpl.
  apply not_elem_of_cons in Hn as [Hx Hn]. apply elem_of_cons in H0 as [<-|H0].
  - by rewrite bool_decide_eq_false_2 by tauto.
  - destruct (decide (x = 0)) as [->|Hx0]; [by rewrite bool_decide_eq_false_2 by tauto|].
    rewrite bool_decide_eq_true_2 by auto. auto.
Qed.

(** One character of a name. *)
Lemma name_loop_char c p pre x suf i ni b :
  name_char c -> i = Z.of_nat (length pre) -> i < ni ->
  exists b', name_loop (c :: p) (pre ++ x :: suf) i ni b = name_loop p (pre ++ upper c :: suf) (i + 1) ni b'.
Proof.
  intros (Hr & Hd & Hs1 & Hs2 & Hb) Hi Hn. cbn [name_loop]. rewrite (bool_decide_eq_false_2 (c <= 32)) by lia.
  assert (is_sep c = false) as -> by (unfold is_sep; rewrite !bool_decide_eq_false_2; done). simpl orb.
  rewrite bool_decide_eq_false_2 by lia. rewrite !(bool_decide_eq_false_2 (0x80 <= c)) by lia. cbn [mbind option_bind].
  rewrite (chk_chr_absent bad_chars c); [|by apply (bool_decide_unpack _)|lia|done]. cbn [mbind option_bind].
  rewrite bool_decide_eq_false_2 by auto. unfold upper. unfold IsUpper, IsLower.
  case_bool_decide; case_bool_decide; try lia; simpl; rewrite ?u8_small by (unfold is_u8; lia);
    rewrite arr_set_middle by done; simpl; eauto.
Qed.

Lemma name_loop_chars cs : forall p pre mid suf i ni b,
  Forall name_char cs -> length mid = length cs -> i = Z.of_nat (length pre) -> i + Z.of_nat (length cs) <= ni ->
  exists b', name_loop (cs ++ p) (pre ++ mid ++ suf) i ni b =
    name_loop p (pre ++ (upper <$> cs) ++ suf) (i + Z.of_nat (length cs)) ni b'.
Proof.
  induction cs as [|c cs IH]; intros p pre mid suf i ni b Hf Hl Hi Hn; destruct mid as [|x mid]; try done.
  - exists b. simpl. by rewrite Z.add_0_r.
  - apply Forall_cons_iff in Hf as [Hc Hf]. simpl in Hl, Hn. rewrite <- !app_comm_cons.
    destruct (name_loop_char c (cs ++ p) pre x (mid ++ suf) i ni b Hc Hi ltac:(lia)) as [b1 ->].
    replace (pre ++ upper c :: mid ++ suf) with ((pre ++ [upper c]) ++ mid ++ suf) by (by rewrite <- app_assoc).
    destruct (IH p (pre ++ [upper c]) mid suf (i + 1) ni b1) as [b2 ->]; [done|lia|rewrite length_app; simpl; lia|lia|].
    exists b2. rewrite <- app_assoc. f_equal. simpl. lia.
Qed.

(** The end of a name. *)
Definition name_end (t : Z) : Prop := t <= 32 ∨ t = 47 ∨ t = 92.

Lemma name_loop_end t p sfn i ni b : name_end t -> name_loop (t :: p) sfn i ni b = Some (FR_OK, Segment sfn i ni b t p).
Proof.
  intros [H|[->| ->]]; cbn [name_loop]; [by rewrite bool_decide_eq_true_2|done..].
Qed.

Lemma name_loop_dot p sfn i b : name_loop (46 :: p) sfn i 8 b = name_loop p sfn 8 11 (u8 (Z.shiftl b 2)).
Proof. done. Qed.

(** The whole segment. *)
Lemma name_loop_name n t rest x :
  name_ok n -> name_end t ->
  exists i ni b, name_loop (name_text n ++ t :: rest) (replicate 11 32 ++ [x]) 0 8 0 =
    Some (FR_OK, Segment (name_sfn n ++ [x]) i ni b t rest) ∧ i ≠ 0.
Proof.
  intros [Hb He Hc] Ht. apply Forall_app in Hc as [Hc1 Hc2]. unfold name_text, name_sfn. rewrite <- app_assoc.
  set (lb := length (n_body n)) in *.
  replace (replicate 11 32 ++ [x]) with ([] ++ replicate lb 32 ++ (replicate (8 - lb) 32 ++ replicate 3 32) ++ [x])
    by (rewrite app_nil_l, app_assoc; f_equal; rewrite <- !replicate_add; f_equal; lia).
  destruct (name_loop_chars (n_body n) (match n_ext n with [] => [] | e => 46 :: e end ++ t :: rest) [] (replicate lb 32)
    ((replicate (8 - lb) 32 ++ replicate 3 32) ++ [x]) 0 8 0) as [b1 ->]; [done|by rewrite length_replicate|done|lia|].
  rewrite app_nil_l. destruct (n_ext n) as [|e0 es] eqn:Ee.
  - rewrite app_nil_l, name_loop_end by done. do 3 eexists. rewrite fmap_nil, app_nil_l, <- !app_assoc. split; [done|lia].
  - rewrite <- app_comm_cons, name_loop_dot. rewrite <- Ee in *. set (le := length (n_ext n)) in *.
    replace ((upper <$> n_body n) ++ (replicate (8 - lb) 32 ++ replicate 3 32) ++ [x]) with
      (((upper <$> n_body n) ++ replicate (8 - lb) 32) ++ replicate le 32 ++ replicate (3 - le) 32 ++ [x]).
    2: { rewrite <- !app_assoc. do 2 f_equal. rewrite app_assoc. f_equal. rewrite <- replicate_add. f_equal. lia. }
    destruct (name_loop_chars (n_ext n) (t :: rest) ((upper <$> n_body n) ++ replicate (8 - lb) 32) (replicate le 32)
      (replicate (3 - le) 32 ++ [x]) 8 11 (u8 (Z.shiftl b1 2))) as [b2 ->]; [done|by rewrite length_replicate|len|lia|].
    rewrite name_loop_end by done. do 3 eexists. rewrite <- !app_assoc. split; [done|lia].
Qed.

Lemma strip_name n p : name_ok n -> strip_sep (name_text n ++ p) = name_text n ++ p.
Proof.
  intros [Hb _ Hc]. unfold name_text. destruct (n_body n) as [|c cs]; [simpl in Hb; lia|].
  apply Forall_cons_iff in Hc as [(_ & _ & H1 & H2 & _) _]. simpl. unfold is_sep.
  by rewrite !bool_decide_eq_false_2 by done.
Qed.

Lemma upper_range c : name_char c -> 32 < upper c < 0x80.
Proof. intros (H & _). unfold upper, IsLower. case_bool_decide; lia. Qed.

(** The name field that [create_name] produces: the name and a status byte
    that tells whether it was the last one of the path. *)
Lemma create_name_spec dj n t rest :
  name_ok n -> name_end t -> length (fn dj) = 12%nat ->
  exists ns, create_name dj (name_text n ++ t :: rest) = Some (FR_OK, set_fn (name_sfn n ++ [ns]) dj, rest) ∧
    (Z.land ns NS_LAST = 0 <-> 32 < t).
Proof.
  intros Hn Ht Hl. unfold create_name. rewrite strip_name by done. unfold mem_set. rewrite decide_True by lia.
  destruct (drop 11 (fn dj)) as [|x [|? ?]] eqn:Ed;
    [apply (f_equal length) in Ed; rewrite length_drop in Ed; simpl in Ed; lia| |
     apply (f_equal length) in Ed; rewrite length_drop in Ed; simpl in Ed; lia].
  change (Z.to_nat 11) with 11%nat. rewrite Ed. cbn [mbind option_bind].
  destruct (name_loop_name n t rest x Hn Ht) as (i & ni & b & -> & Hi). cbn [mbind option_bind sg_fn sg_c sg_i sg_ni sg_b sg_rest].
  rewrite bool_decide_eq_false_2 by auto. rewrite bool_decide_eq_false_2 by done.
  assert (exists u r, name_sfn n = u :: r ∧ u ≠ DDE) as (u & r & Es & Hu).
  { destruct Hn as [Hb _ Hc]. unfold name_sfn. destruct (n_body n) as [|c cs]; [simpl in Hb; lia|].
    apply Forall_cons_iff in Hc as [Hc _]. do 2 eexists. split; [done|]. pose proof (upper_range c Hc). unfold DDE. lia. }
  pose proof (length_sfn n Hn) as Hlen. rewrite Es in *. cbn [app]. change (arr_get (u :: r ++ [x]) 0) with (Some u).
  cbn [mbind option_bind]. rewrite (bool_decide_eq_false_2 (u = DDE)) by done. cbn [mbind option_bind].
  change (u :: r ++ [x]) with ((u :: r) ++ [x]). rewrite arr_set_middle by (rewrite Hlen; done). cbn [mbind option_bind].
  eexists. split; [done|].
  destruct (decide (t <= 32)); [rewrite (bool_decide_eq_true_2 (t <= 32)) by done|rewrite (bool_decide_eq_false_2 (t <= 32)) by done];
    repeat case_bool_decide; split; intros HH; try lia; try reflexivity; discriminate HH.
Qed.

(** ** Directories *)

Section directories.
Context {D : Type} `{Disk D} (P : D -> Prop) (img : Z -> list Z) `{!DiskImage D P img}.
Implicit Types (w : ff D) (fs : FATFS) (dj : DIR).

Abbreviation same := (same P img).
Abbreviation wok := (wok P img).
Abbreviation is_chain := (is_chain img).
Abbreviation fat_next := (fat_next img).

(** Where a directory is stored: the fixed root directory of FAT12 and FAT16,
    or a cluster chain that ends with an end mark. *)
Inductive dir_kind := Fixed | Chain (l : list Z).

(** The directory of start cluster [sc] (0 for the root). *)
Inductive is_dir fs (sc : Z) : dir_kind -> Prop :=
  | dir_fixed k : sc = 0 -> fs_type fs ≠ FS_FAT32 -> n_rootdir fs = 16 * k -> 0 < k ->
      1 <= dirbase fs -> dirbase fs + k <= 2^32 -> n_rootdir fs < 65536 -> is_dir fs sc Fixed
  | dir_chain l c0 c1 : sc = 0 ∧ fs_type fs = FS_FAT32 ∧ c0 = dirbase fs ∨ sc = c0 -> is_chain fs l ->
      list.head l = Some c0 -> list.last l = Some c1 -> n_fatent fs <= fat_next fs c1 ->
      Z.of_nat (length l) * csize fs * 16 <= 65536 -> is_dir fs sc (Chain l).

Definition dir_sectors fs (k : dir_kind) : list Z :=
  match k with
  | Fixed => seqZ (dirbase fs) (n_rootdir fs / 16)
  | Chain l => sectors fs l
  end.

(** The cluster of a directory object at entry [i]. *)
Definition dir_clust fs (k : dir_kind) (i : Z) : option Z :=
  match k with Fixed => Some 0 | Chain l => l !! Z.to_nat (i / 16 / csize fs) end.

(** The number of entries. *)
Definition dir_count fs (k : dir_kind) : Z := Z.of_nat (length (dir_sectors fs k)) * 16.

(** Entry [i] of a directory with the sectors [ds]. *)
Definition dir_entry (ds : list Z) (i : Z) : list Z :=
  take 32 (drop (Z.to_nat (i mod 16 * 32)) (img (default 0 (ds !! Z.to_nat (i / 16))))).

(** The directory object points to entry [i]. *)
Record dir_at fs (k : dir_kind) (i : Z) dj : Prop := {
  da_range : 0 <= i < dir_count fs k;
  da_index : index dj = i;
  da_sect : dir_sectors fs k !! Z.to_nat (i / 16) = Some (sect dj);
  da_dir : dir dj = Some (i mod 16 * 32);
  da_clust : dir_clust fs k i = Some (dj_clust dj);
}.

Lemma length_sectors fs l : geom_ok fs -> Z.of_nat (length (sectors fs l)) = Z.of_nat (length l) * csize fs.
Proof.
  intros Hg. pose proof (csize_pos _ Hg). unfold sectors. rewrite (length_blocks _ _ (length_cluster fs)). lia.
Qed.

Lemma dir_count_range fs sc k : geom_ok fs -> is_dir fs sc k -> 0 < dir_count fs k <= 65536 ∧ (k = Fixed -> dir_count fs k = n_rootdir fs).
Proof.
  intros Hg Hd. unfold dir_count. destruct Hd as [k Hs Ht Hn Hk Hb Hb2 Hn2|l c0 c1 Hs Hc Hh Hl He Hz].
  - simpl. rewrite Hn, (Z.mul_comm 16), Z.div_mul, length_seqZ by lia. split; [lia|]. intros _. lia.
  - simpl. rewrite length_sectors by done. pose proof (csize_pos _ Hg). split; [|done].
    destruct l; [done|]. simpl length in *. nia.
Qed.

(** The sectors of a directory are on the disk. *)
Lemma dir_sector_range fs sc k i s :
  geom_ok fs -> is_dir fs sc k -> dir_sectors fs k !! i = Some s -> 1 <= s < 2^32.
Proof.
  intros Hg Hd Hs. destruct Hd as [k' _ _ Hn Hk Hb Hb2 Hn2|l c0 c1 _ Hc _ _ _ _]; simpl in Hs.
  - apply lookup_seqZ in Hs as [-> Hi]. rewrite Hn, (Z.mul_comm 16), Z.div_mul in Hi by lia. lia.
  - unfold sectors in Hs. apply list_elem_of_lookup_2, list_elem_of_In in Hs.
    apply in_concat in Hs as (x & Hx & Hs). apply list_elem_of_In, list_elem_of_fmap in Hx as (c & -> & Hc').
    apply list_elem_of_In, elem_of_seqZ in Hs. destruct Hc as [Hr _]. rewrite list.Forall_forall in Hr.
    pose proof (c2s_range fs c (s - c2s fs c) Hg (Hr _ Hc') ltac:(lia)). lia.
Qed.

Lemma is_dir_same w w' sc k : same w w' -> is_dir (ff_fs w) sc k -> is_dir (ff_fs w') sc k.
Proof.
  intros [_ (a & b & E & _)] Hd. rewrite E. destruct Hd as [k0|l c0 c1 Hs Hc]; [by eapply dir_fixed|].
  eapply dir_chain; [exact Hs|by destruct Hc|done..].
Qed.
Lemma dir_at_same w w' k i dj : same w w' -> dir_at (ff_fs w) k i dj -> dir_at (ff_fs w') k i dj.
Proof. intros [_ (a & b & E & _)] []. rewrite E. by constructor. Qed.

Lemma dir_at_back w w' k i dj : same w w' -> dir_at (ff_fs w') k i dj -> dir_at (ff_fs w) k i dj.
Proof. intros [_ (a & b & E & _)] []. rewrite E in *. by constructor. Qed.
Lemma dir_count_same w w' k : same w w' -> dir_count (ff_fs w') k = dir_count (ff_fs w) k.
Proof. intros [_ (a & b & E & _)]. by rewrite E. Qed.
Lemma dir_sectors_same w w' k : same w w' -> dir_sectors (ff_fs w') k = dir_sectors (ff_fs w) k.
Proof. intros [_ (a & b & E & _)]. by rewrite E. Qed.

Lemma wp_sdi_loop ic c idx w (Q : FRESULT * Z * Z -> ff D -> Prop) :
  idx < ic -> Q (FR_OK, c, idx) w -> wp (sdi_loop SDI_FUEL ic c idx) w Q.
Proof.
  intros Hi HQ. destruct SDI_FUEL as [|n] eqn:E; [unfold SDI_FUEL in E; lia|]. cbn [sdi_loop].
  rewrite bool_decide_eq_false_2 by lia. by apply wp_ret.
Qed.

(** Rewinding the directory. *)
Lemma dir_sdi_spec w dj k :
  wok w -> is_dir (ff_fs w) (dj_sclust dj) k ->
  wp (dir_sdi dj 0) w (λ r w', w' = w ∧ exists dj', r = (FR_OK, dj') ∧ dir_at (ff_fs w) k 0 dj' ∧ fn dj' = fn dj).
Proof.
  intros Hw Hd. pose proof (w_geom _ _ _ Hw) as Hg. pose proof (g_fatent _ Hg) as Hn. pose proof (csize_pos _ Hg) as Hcs.
  pose proof (dir_count_range _ _ _ Hg Hd) as [Hcnt Hfix]. unfold dir_sdi. wp_pure. cbn [dj_sclust set_index].
  destruct Hd as [q Hs Ht Hr Hq Hb Hb2 Hr2|l c0 c1 Hs Hc Hh Hl He Hz].
  - rewrite Hs. rewrite bool_decide_eq_false_2 by lia. rewrite (bool_decide_eq_false_2 (_ ∧ _)) by tauto.
    rewrite bool_decide_eq_true_2 by done. rewrite bool_decide_eq_false_2 by lia. apply wp_ret. split; [done|].
    eexists. split; [done|]. split; [|done]. change (0 / (SS / SZ_DIR)) with 0. rewrite Z.add_0_r, u32_small by cint.
    constructor; [lia|done| |done|done]. cbn [dir_sectors sect set_dir set_sect]. change (Z.to_nat (0 / 16)) with 0%nat. rewrite Hr, (Z.mul_comm 16), Z.div_mul by lia. apply lookup_seqZ. lia.
  - assert (l !! 0%nat = Some c0) as H0 by (by destruct l). pose proof (chain_lookup _ _ _ _ _ Hc H0) as Hc0.
    rewrite bool_decide_eq_false_2 by (destruct Hs as [(-> & _)| ->]; lia).
    assert ((if bool_decide (dj_sclust dj = 0 ∧ fs_type (ff_fs w) = FS_FAT32) then dirbase (ff_fs w) else dj_sclust dj) = c0) as ->.
    { destruct Hs as [(-> & -> & ->)| ->]; [by rewrite bool_decide_eq_true_2|]. rewrite bool_decide_eq_false_2; [done|lia]. }
    rewrite bool_decide_eq_false_2 by lia. change (SS / SZ_DIR) with 16. rewrite (u16_small (16 * _)) by (unfold is_u16; lia).
    apply wp_bind, wp_sdi_loop; [lia|].
    rewrite bool_decide_eq_false_2 by auto. apply wp_bind, wp_clust2sect; [done..|]. change (0 / 16) with 0.
    pose proof (c2s_range _ c0 0 Hg Hc0 ltac:(lia)). rewrite Z.add_0_r, u32_small by cint.
    apply wp_ret. split; [done|]. eexists. split; [done|]. split; [|done]. constructor; [lia|done| |done|].
    + simpl. change (Z.to_nat (0 / 16)) with (Z.to_nat 0).
      rewrite (sectors_at (ff_fs w) l 0 c0) by (done || (rewrite Z.div_0_l by lia; done)).
      rewrite Z.mod_0_l by lia. by rewrite Z.add_0_r.
    + simpl. change (0 / 16) with 0. by rewrite Z.div_0_l by lia.
Qed.

(** *** The next entry *)

Lemma fat_next_range fs c : 0 <= fat_next fs c < 2^28.
Proof.
  unfold FatRead.fat_next. case_bool_decide; [|case_bool_decide].
  - set (o := c + c / 2). pose proof (fat_byte_u8 P img fs o). pose proof (fat_byte_u8 P img fs (o + 1)).
    set (v := fat_byte img fs o + 256 * fat_byte img fs (o + 1)) in *. assert (0 <= v < 65536) by lia.
    case_bool_decide; [|pose proof (Z.mod_pos_bound v 4096 ltac:(lia)); lia].
    split; [apply Z.div_pos; lia|apply Z.div_lt_upper_bound; lia].
  - pose proof (fat_byte_u8 P img fs (2 * c)). pose proof (fat_byte_u8 P img fs (2 * c + 1)). lia.
  - apply Z.mod_pos_bound. lia.
Qed.

(** The entry after [i], if there is one. *)
Definition next_ok fs k i dj (r : FRESULT * DIR) : Prop :=
  fn r.2 = fn dj ∧
  if decide (i + 1 < dir_count fs k) then r.1 = FR_OK ∧ dir_at fs k (i + 1) r.2 else r.1 = FR_NO_FILE.

Lemma next_at fs k i dj s c :
  dir_at fs k i dj -> dir_sectors fs k !! Z.to_nat ((i + 1) / 16) = Some s -> dir_clust fs k (i + 1) = Some c ->
  next_ok fs k i dj
    (FR_OK, set_dir (Some ((i + 1) mod 16 * 32)) (set_index (i + 1) (set_sect s (set_dj_clust c dj)))).
Proof.
  intros [] Hs Hc. split; [done|].
  assert (i + 1 < dir_count fs k) as Hi.
  { apply lookup_lt_Some in Hs. pose proof (Z.div_mod (i + 1) 16 ltac:(lia)).
    pose proof (Z.mod_pos_bound (i + 1) 16 ltac:(lia)). unfold dir_count in *. lia. }
  rewrite decide_True by done. split; [done|]. constructor; simpl; try done. lia.
Qed.

Lemma next_end fs k i dj dj' : dir_count fs k <= i + 1 -> fn dj' = fn dj -> next_ok fs k i dj (FR_NO_FILE, dj').
Proof. intros Hi Hf. split; [done|]. by rewrite decide_False by lia. Qed.

Lemma next_sector i : 0 <= i -> (i + 1) mod 16 = 0 -> (i + 1) / 16 = i / 16 + 1.
Proof. intros Hi Hm. rewrite (div_pred_step (i + 1) 16) by lia. f_equal. f_equal. lia. Qed.

(** At the end of a sector of a cluster chain. *)
Lemma next_chain w l sc i dj :
  let fs := ff_fs w in let k := Chain l in
  wok w -> is_dir fs sc k -> dir_at fs k i dj -> (i + 1) mod 16 = 0 -> i + 1 < 65536 ->
  let dj1 := set_sect (u32 (sect dj + 1)) dj in
  let done dj := mret (FR_OK, set_dir (Some ((i + 1) mod 16 * 32)) (set_index (i + 1) dj)) in
  wp (if bool_decide (Z.land ((i + 1) / 16) (csize fs - 1) = 0) then
      clst ← get_fat (dj_clust dj1);
      if bool_decide (clst <= 1) then mret (FR_INT_ERR, dj1) else
      if bool_decide (clst = 0xFFFFFFFF) then mret (FR_DISK_ERR, dj1) else
      if bool_decide (n_fatent fs <= clst) then mret (FR_NO_FILE, dj1) else
      s ← clust2sect clst;
      done (set_sect s (set_dj_clust clst dj1))
    else done dj1) w (λ r w', same w w' ∧ next_ok fs k i dj r).
Proof.
  intros fs k Hw Hd Ha Hm Hlt dj1 done_. pose proof (w_geom _ _ _ Hw) as Hg. fold fs in Hg. pose proof (g_fatent _ Hg) as Hn.
  pose proof (csize_pos _ Hg) as Hcs. inversion Hd as [|l' c0 c1 Hs Hc Hh Hl He Hz]; subst l'. destruct Ha as [Hr Hi Hsec Hdir Hcl].
  pose proof (next_sector i ltac:(lia) Hm) as En. simpl in Hcl. set (q := i / 16) in *.
  assert (0 <= q) by (apply Z.div_pos; lia). pose proof (chain_lookup _ _ _ _ _ Hc Hcl) as Hcr.
  assert (Z.land (q + 1) (csize fs - 1) = (q + 1) mod csize fs) as Eland.
  { destruct (g_csize _ Hg) as (j & Hj & ->). replace (2^j - 1) with (Z.ones j) by (rewrite Z.ones_equiv; lia). by rewrite Z.land_ones by lia. }
  pose proof (sectors_at fs l q _ Hg ltac:(lia) Hcl) as Hsat. change (sectors fs l !! Z.to_nat q = Some (sect dj)) in Hsec.
  assert (dir_at fs k i dj) as Ha by (by constructor). rewrite Hsat in Hsec. injection Hsec as Esec.
  pose proof (Z.mod_pos_bound q (csize fs) ltac:(lia)). pose proof (Z.div_mod q (csize fs) ltac:(lia)).
  pose proof (Z.div_pos q (csize fs) ltac:(lia) ltac:(lia)).
  rewrite En, Eland. case_bool_decide as Hb.
  - pose proof (div_pred_step (q + 1) (csize fs) ltac:(lia) ltac:(lia) Hb) as Eq. replace (q + 1 - 1) with q in Eq by lia.
    apply wp_bind. eapply wp_mono; [apply (get_fat_spec P img); [done|exact Hcr]|]. fold fs. intros r w1 [-> Hs1].
    destruct (same_fields _ _ _ _ Hs1) as (_ & _ & Enf & _ & _ & Ec2s & _). fold fs in Enf, Ec2s.
    destruct (l !! S (Z.to_nat (q / csize fs))) as [c2|] eqn:E2.
    + pose proof (ch_next _ _ _ Hc _ _ _ Hcl E2) as Ex. pose proof (chain_lookup _ _ _ _ _ Hc E2) as Hr2.
      change (dj_clust dj1) with (dj_clust dj). rewrite Ex, !bool_decide_eq_false_2 by lia.
      apply wp_bind, wp_clust2sect; [by eapply w_geom, same_wok|by rewrite Enf|]. rewrite Ec2s.
      apply wp_ret. split; [done|]. assert (l !! Z.to_nat ((q + 1) / csize fs) = Some c2) as E3.
      { rewrite Eq. rewrite <- E2. f_equal. lia. }
      apply (next_at fs k i dj (c2s fs c2) c2); [done|..].
      * rewrite En. change (dir_sectors fs k) with (sectors fs l). rewrite (sectors_at fs l (q + 1) c2) by (done || lia). rewrite Hb. by rewrite Z.add_0_r.
      * unfold dir_clust, k. by rewrite En.
    + assert (c1 = dj_clust dj) as ->.
      { apply lookup_ge_None_1 in E2. pose proof (lookup_lt_Some _ _ _ Hcl). rewrite last_lookup in Hl.
        replace (pred (length l)) with (Z.to_nat (q / csize fs)) in Hl by lia. congruence. }
      change (dj_clust dj1) with (dj_clust dj). pose proof (fat_next_range fs (dj_clust dj)).
      rewrite (bool_decide_eq_false_2 (_ <= 1)) by lia.
      rewrite (bool_decide_eq_false_2 (_ = _)) by lia. rewrite bool_decide_eq_true_2 by done. apply wp_ret. split; [done|].
      apply next_end; [|done]. unfold dir_count. simpl. rewrite length_sectors by done. apply lookup_ge_None_1 in E2.
      pose proof (lookup_lt_Some _ _ _ Hcl). pose proof (Z.div_mod (i + 1) 16 ltac:(lia)).
      pose proof (Z.div_mod (q + 1) (csize fs) ltac:(lia)) as Edm. rewrite Hb, Eq in Edm.
      assert (Z.of_nat (length l) <= q / csize fs + 1) as Hll by lia.
      pose proof (Z.mul_le_mono_nonneg_r _ _ (csize fs) ltac:(lia) Hll). lia.
  - assert ((q + 1) / csize fs = q / csize fs ∧ (q + 1) mod csize fs = q mod csize fs + 1) as [Ed Em].
    { assert (q mod csize fs + 1 < csize fs).
      { destruct (decide (q mod csize fs + 1 = csize fs)) as [E|]; [|lia]. exfalso. apply Hb. symmetry.
        apply (Z.mod_unique _ _ (q / csize fs + 1)); lia. }
      split; symmetry; [apply (Z.div_unique _ _ _ (q mod csize fs + 1))|apply (Z.mod_unique _ _ (q / csize fs))]; lia. }
    apply wp_ret. split; [by apply same_refl|]. pose proof (c2s_range fs _ (q mod csize fs + 1) Hg Hcr ltac:(pose proof (Z.mod_pos_bound (q + 1) (csize fs)); lia)).
    unfold dj1. rewrite <- Esec, u32_small by (unfold is_u32; lia).
    apply (next_at fs k i dj _ (dj_clust dj)); [done|..].
    + rewrite En. change (dir_sectors fs k) with (sectors fs l). rewrite (sectors_at fs l (q + 1) (dj_clust dj)) by (done || lia || by rewrite Ed). f_equal. lia.
    + unfold dir_clust, k. by rewrite En, Ed.
Qed.

Lemma dir_next_spec w k sc i dj :
  wok w -> is_dir (ff_fs w) sc k -> dir_at (ff_fs w) k i dj ->
  wp (dir_next dj) w (λ r w', same w w' ∧ next_ok (ff_fs w) k i dj r).
Proof.
  intros Hw Hd Ha. pose proof (w_geom _ _ _ Hw) as Hg. destruct (dir_count_range _ _ _ Hg Hd) as [Hcnt Hfix].
  destruct Ha as [Hr Hi Hsec Hdir Hcl]. assert (dir_at (ff_fs w) k i dj) as Ha by (by constructor).
  pose proof (dir_sector_range _ _ _ _ _ Hg Hd Hsec) as Hsr. unfold dir_next. wp_pure. rewrite Hi.
  destruct (decide (i + 1 = 65536)) as [E|E].
  { rewrite E, bool_decide_eq_true_2 by (by left). apply wp_ret. split; [by apply same_refl|]. apply next_end; [lia|done]. }
  rewrite (u16_small (i + 1)) by (unfold is_u16; lia). change (SS / SZ_DIR) with 16. change SZ_DIR with 32.
  rewrite bool_decide_eq_false_2 by lia. case_bool_decide as Hm.
  2: { apply wp_ret. split; [by apply same_refl|].
    assert ((i + 1) / 16 = i / 16) as Ei.
    { rewrite <- (div_pred_same (i + 1) 16) by (done || lia). f_equal. lia. }
    apply (next_at _ k i dj (sect dj) (dj_clust dj)); [done|by rewrite Ei|]. destruct k; [done|]. simpl in *. by rewrite Ei. }
  destruct k as [|l].
  - injection Hcl as Hcl. rewrite bool_decide_eq_true_2 by (simpl; done). specialize (Hfix eq_refl).
    case_bool_decide as He; apply wp_ret; (split; [by apply same_refl|]); [apply next_end; [lia|done]|].
    apply (next_at _ Fixed i dj _ (dj_clust dj)); [done| |simpl; by rewrite Hcl].
    pose proof (next_sector i ltac:(lia) Hm) as En. rewrite En. cbn [dir_sectors] in *. apply lookup_seqZ in Hsec as [Es Hs2].
    assert (0 <= i / 16) by (apply Z.div_pos; lia). pose proof (Z.div_mod (i + 1) 16 ltac:(lia)).
    inversion Hd as [q Hs Ht Hn Hk Hb Hb2 Hn2|]. rewrite Hn, (Z.mul_comm 16), Z.div_mul in * by lia.
    apply lookup_seqZ. rewrite u32_small by (unfold is_u32; lia). lia.
  - rewrite bool_decide_eq_false_2.
    2: { inversion Hd as [|l' c0 c1 Hs Hc]; subst. pose proof (chain_lookup _ _ _ _ _ Hc Hcl). simpl. lia. }
    by apply (next_chain w l sc i dj); try done; lia.
Qed.

(** *** Searching *)

Definition entry_byte (e : list Z) (i : nat) : Z := default 0 (e !! i).

(** Whether an entry is the file or directory of that name. *)
Definition entry_matches (name e : list Z) : bool :=
  bool_decide (Z.land (entry_byte e 11) AM_VOL = 0 ∧ take 11 e = take 11 name).

(** The first matching entry before the end mark. *)
Fixpoint scan (ds : list Z) (name : list Z) (n : nat) (i : Z) : option Z :=
  match n with
  | O => None
  | S n =>
      let e := dir_entry ds i in
      if bool_decide (entry_byte e 0 = 0) then None
      else if entry_matches name e then Some i else scan ds name n (i + 1)
  end.

Definition find_entry fs k name : option Z := scan (dir_sectors fs k) name (Z.to_nat (dir_count fs k)) 0.

Lemma mem_cmp_spec n : forall d s : list Z, (n <= length d)%nat -> (n <= length s)%nat ->
  mem_cmp d s n = Some (bool_decide (take n d = take n s)).
Proof.
  induction n as [|n IH]; intros d s Hd Hs; [by destruct d; rewrite bool_decide_eq_true_2|]. destruct d as [|x d], s as [|y s]; simpl in *; try lia.
  case_bool_decide as E.
  - assert (x = y) as -> by lia. rewrite IH by lia. f_equal. apply bool_decide_ext. split; [by intros ->|by intros [=]].
  - rewrite bool_decide_eq_false_2; [done|]. intros [= -> _]. lia.
Qed.

(** The entry in the window. *)
Lemma win_entry wn ds s i off :
  0 <= i -> ds !! Z.to_nat (i / 16) = Some s -> wn = img s -> 0 <= off < 32 ->
  arr_get wn (i mod 16 * 32 + off) = Some (entry_byte (dir_entry ds i) (Z.to_nat off)).
Proof.
  intros Hi Hs -> Ho. pose proof (Z.mod_pos_bound i 16 ltac:(lia)). unfold entry_byte, dir_entry. rewrite Hs. simpl default.
  rewrite arr_get_lookup by lia. rewrite lookup_take_lt by lia. rewrite lookup_drop. rewrite <- Z2Nat.inj_add by lia.
  destruct (lookup_lt_is_Some_2 (img s) (Z.to_nat (i mod 16 * 32 + off))) as [x ->]; [|done].
  rewrite (sector_len P img). lia.
Qed.

Lemma length_entry ds i : 0 <= i -> length (dir_entry ds i) = 32%nat.
Proof.
  intros Hi. unfold dir_entry. rewrite length_take, length_drop, (sector_len P img). pose proof (Z.mod_pos_bound i 16 ltac:(lia)). lia.
Qed.

Lemma entry_u8 ds i off : 0 <= entry_byte (dir_entry ds i) off < 256.
Proof.
  assert (Forall is_u8 (dir_entry ds i)) as Hf by (apply Forall_take, Forall_drop, di_sector).
  unfold entry_byte. destruct (dir_entry ds i !! off) as [x|] eqn:E; simpl; [|lia].
  eapply Forall_lookup_1 in E; [|exact Hf]. unfold is_u8 in E. lia.
Qed.

Lemma entry_name wn ds s i : 0 <= i -> ds !! Z.to_nat (i / 16) = Some s -> wn = img s ->
  take 11 (drop (Z.to_nat (i mod 16 * 32)) wn) = take 11 (dir_entry ds i).
Proof. intros Hi Hs ->. unfold dir_entry. rewrite Hs, take_take. done. Qed.

(** The result of the search from entry [i] on. *)
Definition found fs k dj (o : option Z) (r : FRESULT * DIR) w' : Prop :=
  fn r.2 = fn dj ∧
  match o with
  | Some j => r.1 = FR_OK ∧ dir_at fs k j r.2 ∧ win (ff_fs w') = img (sect r.2)
  | None => r.1 = FR_NO_FILE
  end.

(** The comparison of the name with the entry in the window. *)
Lemma wp_name_test w ds i dj s (Q : bool -> ff D -> Prop) :
  0 <= i -> ds !! Z.to_nat (i / 16) = Some s -> win (ff_fs w) = img s -> length (fn dj) = 12%nat ->
  Q (entry_matches (fn dj) (dir_entry ds i)) w ->
  wp (if bool_decide (Z.land (entry_byte (dir_entry ds i) 11) AM_VOL = 0)
      then lift (mem_cmp (drop (Z.to_nat (i mod 16 * 32)) (win (ff_fs w))) (fn dj) 11) else mret false) w Q.
Proof.
  intros Hi Hs Ew Hl HQ. case_bool_decide as Hv; unfold entry_matches in HQ.
  - eapply wp_lift; [apply mem_cmp_spec; [|lia]|].
    + rewrite length_drop, Ew, (sector_len P img). pose proof (Z.mod_pos_bound i 16). lia.
    + rewrite (entry_name _ ds s) by done.
      assert (bool_decide (take 11 (dir_entry ds i) = take 11 (fn dj)) =
        bool_decide (Z.land (entry_byte (dir_entry ds i) 11) AM_VOL = 0 ∧ take 11 (dir_entry ds i) = take 11 (fn dj))) as ->;
        [apply bool_decide_ext; tauto|done].
  - apply wp_ret. rewrite bool_decide_eq_false_2 in HQ by tauto. done.
Qed.

Lemma wp_entry_byte w ds i s off (Q : Z -> ff D -> Prop) :
  0 <= i -> ds !! Z.to_nat (i / 16) = Some s -> win (ff_fs w) = img s -> 0 <= off < 32 ->
  Q (entry_byte (dir_entry ds i) (Z.to_nat off)) w -> wp (dir_byte (i mod 16 * 32) off) w Q.
Proof. intros Hi Hs Ew Ho HQ. eapply wp_win_byte; [by apply (win_entry _ ds s)|done]. Qed.

Lemma find_loop_spec k sc n : forall w i dj fuel,
  wok w -> is_dir (ff_fs w) sc k -> dir_at (ff_fs w) k i dj -> length (fn dj) = 12%nat ->
  n = Z.to_nat (dir_count (ff_fs w) k - i) -> (n < fuel)%nat ->
  wp (find_loop fuel dj) w (λ r w', same w w' ∧
    found (ff_fs w) k dj (scan (dir_sectors (ff_fs w) k) (fn dj) n i) r w').
Proof.
  induction n as [|n IH]; intros w i dj fuel Hw Hd Ha Hl Hn Hfu; [destruct Ha; lia|].
  destruct fuel as [|fuel]; [lia|]. destruct (Ha) as [Hr Hi Hsec Hdir _]. cbn [find_loop scan].
  pose proof (dir_sector_range _ _ _ _ _ (w_geom _ _ _ Hw) Hd Hsec) as Hsr. set (ds := dir_sectors (ff_fs w) k) in *.
  apply wp_bind, (wp_move_window P img); [done|lia|]. intros w1 Hs1 Ew. rewrite bool_decide_eq_false_2 by auto.
  unfold dir_ptr. apply wp_bind. eapply wp_lift; [exact Hdir|].
  apply wp_bind, (wp_entry_byte w1 ds i (sect dj)); [lia|done|done|done|].
  case_bool_decide as H0; [rewrite bool_decide_eq_true_2 by done; by apply wp_ret|]. rewrite bool_decide_eq_false_2 by done.
  apply wp_bind, (wp_entry_byte w1 ds i (sect dj)); [lia|done|done|done|]. change (Z.to_nat DIR_Attr) with 11%nat.
  unfold fs_get. apply wp_bind, wp_gets, wp_bind, (wp_name_test w1 ds i dj (sect dj)); [lia|done..|].
  destruct (entry_matches _ _); [by apply wp_ret|].
  apply wp_bind. eapply wp_mono; [apply (dir_next_spec w1 k sc i); [by eapply same_wok|by eapply is_dir_same|by eapply dir_at_same]|].
  intros [res dj'] w2 [Hs2 [Hfn Hnx]]. rewrite (dir_count_same _ _ k Hs1) in Hnx. simpl in Hfn, Hnx. case_decide as Hlt.
  - destruct Hnx as [-> Hat]. rewrite bool_decide_eq_true_2 by done. assert (same w w2) as Hs3 by (by eapply same_trans).
    eapply wp_mono; [apply (IH w2 (i + 1));
      [by eapply same_wok|by apply (is_dir_same w w2)|by apply (dir_at_same w1 w2)|congruence|rewrite (dir_count_same _ _ k Hs3); lia|lia]|].
    intros r w4 [Hs4 [Hf1 Hf2]]. split; [by eapply same_trans|]. rewrite Hfn, (dir_sectors_same _ _ k Hs3) in Hf2.
    split; [congruence|]. fold ds in Hf2. destruct (scan _ _ _ _); [|done].
    destruct Hf2 as (? & Hf2 & ?). split_and!; try done. by apply (dir_at_back w w2).
  - rewrite Hnx. rewrite bool_decide_eq_false_2 by done. apply wp_ret. split; [by eapply same_trans|]. split; [done|].
    assert (n = 0%nat) as -> by lia. done.
Qed.

Lemma scan_name ds a b n i : take 11 a = take 11 b -> scan ds a n i = scan ds b n i.
Proof.
  intros E. revert i. induction n as [|n IH]; intros i; [done|]. cbn [scan]. unfold entry_matches. rewrite E, IH. done.
Qed.

Lemma dir_find_spec w k dj :
  wok w -> is_dir (ff_fs w) (dj_sclust dj) k -> length (fn dj) = 12%nat ->
  wp (dir_find dj) w (λ r w', same w w' ∧ found (ff_fs w) k dj (find_entry (ff_fs w) k (fn dj)) r w').
Proof.
  intros Hw Hd Hl. unfold dir_find. apply wp_bind. eapply wp_mono; [by apply (dir_sdi_spec w dj k)|].
  intros r w1 (-> & dj' & -> & Ha & Hfn). rewrite bool_decide_eq_false_2 by auto.
  destruct (dir_count_range _ _ _ (w_geom _ _ _ Hw) Hd) as [Hc _].
  eapply wp_mono; [apply (find_loop_spec k (dj_sclust dj) (Z.to_nat (dir_count (ff_fs w) k - 0)) w 0 dj'); [done..|congruence|done|unfold DIR_FUEL; lia]|].
  intros r w' [Hs Hf]. split; [done|]. unfold found, find_entry in *. rewrite Z.sub_0_r in Hf. by rewrite <- Hfn.
Qed.

(** ** Paths *)

Definition entry_word (e : list Z) (o : nat) : Z := entry_byte e o + 256 * entry_byte e (o + 1).
Definition entry_dword (e : list Z) (o : nat) : Z :=
  entry_byte e o + 256 * entry_byte e (o + 1) + 65536 * entry_byte e (o + 2) + 16777216 * entry_byte e (o + 3).
Definition entry_attr (e : list Z) : Z := entry_byte e 11.
Definition entry_size (e : list Z) : Z := entry_dword e 28.
Definition entry_clust fs (e : list Z) : Z :=
  entry_word e 26 + (if bool_decide (fs_type fs = FS_FAT32) then 65536 * entry_word e 20 else 0).

Lemma win_word_entry wn ds i s off :
  0 <= i -> ds !! Z.to_nat (i / 16) = Some s -> wn = img s -> 0 <= off < 31 ->
  LD_WORD wn (i mod 16 * 32 + off) = Some (entry_word (dir_entry ds i) (Z.to_nat off)).
Proof.
  intros Hi Hs Ew Ho. unfold entry_word. replace (Z.to_nat off + 1)%nat with (Z.to_nat (off + 1)) by lia.
  apply ld_word_val; [by apply (win_entry _ ds s); try lia|rewrite <- Z.add_assoc; by apply (win_entry _ ds s); try lia|apply entry_u8..].
Qed.

Lemma win_dword_entry wn ds i s off :
  0 <= i -> ds !! Z.to_nat (i / 16) = Some s -> wn = img s -> 0 <= off < 29 ->
  LD_DWORD wn (i mod 16 * 32 + off) = Some (entry_dword (dir_entry ds i) (Z.to_nat off)).
Proof.
  intros Hi Hs Ew Ho. unfold entry_dword. replace (Z.to_nat off + 1)%nat with (Z.to_nat (off + 1)) by lia.
  replace (Z.to_nat off + 2)%nat with (Z.to_nat (off + 2)) by lia. replace (Z.to_nat off + 3)%nat with (Z.to_nat (off + 3)) by lia.
  apply ld_dword_val; try apply entry_u8; rewrite <- ?Z.add_assoc; apply (win_entry _ ds s); done || lia.
Qed.

Lemma wp_ld_clust w ds i s (Q : Z -> ff D -> Prop) :
  0 <= i -> ds !! Z.to_nat (i / 16) = Some s -> win (ff_fs w) = img s ->
  Q (entry_clust (ff_fs w) (dir_entry ds i)) w -> wp (ld_clust (i mod 16 * 32)) w Q.
Proof.
  intros Hi Hs Ew HQ. unfold ld_clust, dir_word. apply wp_bind. eapply wp_win_word; [by apply (win_word_entry _ ds i s)|].
  unfold fs_get. apply wp_bind, wp_gets. unfold entry_clust in HQ. change (Z.to_nat DIR_FstClusLO) with 26%nat.
  case_bool_decide; [|apply wp_ret; by rewrite Z.add_0_r in HQ]. apply wp_bind.
  eapply wp_win_word; [by apply (win_word_entry _ ds i s)|]. apply wp_ret. change (Z.to_nat DIR_FstClusHI) with 20%nat.
  set (e := dir_entry ds i) in *. pose proof (entry_u8 ds i). fold e in H1. unfold entry_word in *.
  pose proof (H1 26%nat). pose proof (H1 27%nat). pose proof (H1 20%nat). pose proof (H1 21%nat). cbn [Nat.add] in *.
  set (hi := entry_byte e 20 + 256 * entry_byte e 21) in *. set (lo := entry_byte e 26 + 256 * entry_byte e 27) in *.
  rewrite u32_small by (unfold is_u32; rewrite Z.shiftl_mul_pow2 by lia; lia).
  rewrite Z.lor_comm, lor_shiftl by lia. by replace (hi * 2^16 + lo) with (lo + 65536 * hi) by lia.
Qed.

(** A path as the C string: names separated by slashes. *)
Fixpoint path_text (ns : list name83) : list Z :=
  match ns with
  | [] => [0]
  | n :: ns' => name_text n ++ match ns' with [] => [0] | _ => 47 :: path_text ns' end
  end.

(** What a path leads to: entry [i] of a directory, or an error. *)
Inductive outcome := At (k : dir_kind) (i : Z) | Missing (r : FRESULT).

Inductive resolves fs : Z -> list name83 -> outcome -> Prop :=
  | res_here sc k n i : is_dir fs sc k -> name_ok n -> find_entry fs k (name_sfn n) = Some i ->
      resolves fs sc [n] (At k i)
  | res_none sc k n : is_dir fs sc k -> name_ok n -> find_entry fs k (name_sfn n) = None ->
      resolves fs sc [n] (Missing FR_NO_FILE)
  | res_no_path sc k n n' ns : is_dir fs sc k -> name_ok n -> find_entry fs k (name_sfn n) = None ->
      resolves fs sc (n :: n' :: ns) (Missing FR_NO_PATH)
  | res_not_dir sc k n n' ns i : is_dir fs sc k -> name_ok n -> find_entry fs k (name_sfn n) = Some i ->
      Z.land (entry_attr (dir_entry (dir_sectors fs k) i)) AM_DIR = 0 ->
      resolves fs sc (n :: n' :: ns) (Missing FR_NO_PATH)
  | res_step sc k n n' ns i o : is_dir fs sc k -> name_ok n -> find_entry fs k (name_sfn n) = Some i ->
      Z.land (entry_attr (dir_entry (dir_sectors fs k) i)) AM_DIR ≠ 0 ->
      resolves fs (entry_clust fs (dir_entry (dir_sectors fs k) i)) (n' :: ns) o ->
      resolves fs sc (n :: n' :: ns) o.

Definition reaches fs o (r : FRESULT * DIR) w' : Prop :=
  match o with
  | At k i => exists dj', r = (FR_OK, dj') ∧ dir_at fs k i dj' ∧ win (ff_fs w') = img (sect dj')
  | Missing e => r.1 = e
  end.

(** One segment: its name is looked up in the directory. *)
Lemma segment_spec w0 w sc k n t rest dj :
  let fs := ff_fs w0 in
  wok w -> same w0 w -> is_dir fs sc k -> name_ok n -> name_end t -> length (fn dj) = 12%nat -> dj_sclust dj = sc ->
  exists dj1 ns, create_name dj (name_text n ++ t :: rest) = Some (FR_OK, dj1, rest) ∧
    (Z.land ns NS_LAST = 0 <-> 32 < t) ∧
    wp (dir_find dj1) w (λ r w', same w0 w' ∧ arr_get (fn r.2) NS = Some ns ∧ length (fn r.2) = 12%nat ∧
      match find_entry fs k (name_sfn n) with
      | Some i => r.1 = FR_OK ∧ dir_at fs k i r.2 ∧ win (ff_fs w') = img (sect r.2)
      | None => r.1 = FR_NO_FILE
      end).
Proof.
  intros fs Hw Hs Hd Hn Ht Hl Hsc. destruct (create_name_spec dj n t rest Hn Ht Hl) as (ns & E & Hns).
  eexists _, ns. split; [exact E|]. split; [done|]. pose proof (length_sfn n Hn) as Hlen.
  eapply wp_mono; [apply (dir_find_spec w k); [done|rewrite <- Hsc in Hd; by eapply is_dir_same|simpl; len]|].
  intros [res dj2] w' [Hs' [Hfn Hf]]. cbn [fst snd fn set_fn] in *. split; [by eapply same_trans|].
  split; [rewrite Hfn; by apply arr_get_middle; rewrite Hlen|]. split; [rewrite Hfn; len|].
  unfold find_entry in Hf. rewrite (scan_name _ (name_sfn n ++ [ns]) (name_sfn n)) in Hf
    by (rewrite take_app_le; [done|lia]). rewrite (dir_sectors_same _ _ k Hs), (dir_count_same _ _ k Hs) in Hf.
  fold fs in Hf. unfold find_entry. destruct (scan _ _ _ _); [|done]. destruct Hf as (? & ? & ?).
  split_and!; try done. by apply (dir_at_back w0 w).
Qed.

(** One iteration of [path_loop]. *)
Lemma wp_path_step w0 w sc k n t rest dj fuel (Q : FRESULT * DIR -> ff D -> Prop) :
  let fs := ff_fs w0 in
  wok w -> same w0 w -> is_dir fs sc k -> name_ok n -> name_end t -> length (fn dj) = 12%nat -> dj_sclust dj = sc ->
  (forall w' dj', same w0 w' ->
     match find_entry fs k (name_sfn n) with
     | None => Q (if bool_decide (32 < t) then FR_NO_PATH else FR_NO_FILE, dj') w'
     | Some i =>
         let e := dir_entry (dir_sectors fs k) i in
         dir_at fs k i dj' -> win (ff_fs w') = img (sect dj') -> length (fn dj') = 12%nat ->
         if bool_decide (t <= 32) then Q (FR_OK, dj') w'
         else if bool_decide (Z.land (entry_attr e) AM_DIR = 0) then Q (FR_NO_PATH, dj') w'
         else wp (path_loop fuel (set_dj_sclust (entry_clust fs e) dj') rest) w' Q
     end) ->
  wp (path_loop (S fuel) dj (name_text n ++ t :: rest)) w Q.
Proof.
  intros fs Hw Hs Hd Hn Ht Hl Hsc HQ. cbn [path_loop].
  destruct (segment_spec w0 w sc k n t rest dj Hw Hs Hd Hn Ht Hl Hsc) as (dj1 & st & -> & Hst & Hdf). fold fs in Hdf.
  apply wp_bind. eapply wp_lift; [done|]. cbn beta iota. rewrite bool_decide_eq_false_2 by auto. apply wp_bind. eapply wp_mono; [exact Hdf|].
  intros [res dj2] w2 (Hs2 & Ens & Hl2 & Hx). cbn [fst snd] in *. specialize (HQ w2 dj2 Hs2).
  apply wp_bind. eapply wp_lift; [exact Ens|]. destruct (find_entry fs k (name_sfn n)) as [i|].
  2: { subst res. rewrite bool_decide_eq_true_2 by done. rewrite bool_decide_eq_false_2 by auto. apply wp_ret.
    assert (bool_decide (Z.land st NS_LAST = 0) = bool_decide (32 < t)) as -> by (by apply bool_decide_ext). by destruct (bool_decide _). }
  destruct Hx as (-> & Hat & Hwin). specialize (HQ Hat Hwin Hl2). rewrite bool_decide_eq_false_2 by auto.
  case_bool_decide as Ht2; [rewrite bool_decide_eq_true_2 by lia; by apply wp_ret|]. rewrite bool_decide_eq_false_2 by lia.
  destruct (Hat) as [Hr _ Hsec Hdir _]. unfold dir_ptr. apply wp_bind. eapply wp_lift; [exact Hdir|].
  apply wp_bind, (wp_entry_byte w2 (dir_sectors fs k) i (sect dj2)); [lia|done|done|done|].
  unfold entry_attr in HQ. change (Z.to_nat DIR_Attr) with 11%nat. case_bool_decide; [by apply wp_ret|].
  apply wp_bind, (wp_ld_clust w2 (dir_sectors fs k) i (sect dj2)); [lia|done..|].
  unfold entry_clust in *. destruct (same_fields _ _ _ _ Hs2) as (_ & _ & _ & _ & -> & _). exact HQ.
Qed.

Lemma path_loop_spec w0 sc names o :
  let fs := ff_fs w0 in
  resolves fs sc names o -> forall w dj fuel,
  wok w -> same w0 w -> length (fn dj) = 12%nat -> dj_sclust dj = sc -> (length names <= fuel)%nat ->
  wp (path_loop fuel dj (path_text names)) w (λ r w', same w0 w' ∧ reaches fs o r w').
Proof.
  intros fs Hr. induction Hr as [sc k n i Hd Hn Hf|sc k n Hd Hn Hf|sc k n n' ns Hd Hn Hf|sc k n n' ns i Hd Hn Hf Ha|sc k n n' ns i o Hd Hn Hf Ha Hr IH];
    intros w dj fuel Hw Hs Hl Hsc Hfu; (destruct fuel as [|fuel]; [simpl in Hfu; lia|]);
    eapply (wp_path_step w0 w sc k n); try done; try (by left); try (by right; left);
    intros w' dj' Hs'; fold fs; rewrite Hf; try done; intros e Hat Hwin Hl'; subst e.
  - rewrite bool_decide_eq_true_2 by lia. split; [done|]. by exists dj'.
  - rewrite bool_decide_eq_false_2 by lia. rewrite bool_decide_eq_true_2 by done. done.
  - rewrite bool_decide_eq_false_2 by lia. rewrite bool_decide_eq_false_2 by done.
    apply IH; try done; [by eapply same_wok|simpl in *; lia].
Qed.

Lemma resolves_head fs sc names o : resolves fs sc names o -> exists n ns, names = n :: ns ∧ name_ok n.
Proof. destruct 1; eauto. Qed.

Lemma resolves_missing fs sc names e : resolves fs sc names (Missing e) -> e ≠ FR_OK.
Proof. intros Hr. remember (Missing e) as o eqn:E. induction Hr; simplify_eq; try done. auto. Qed.

(** The first two characters of a path. *)
Lemma path_head n ns : name_ok n -> exists c c' p, path_text (n :: ns) = c :: c' :: p ∧ name_char c ∧ c' ≠ 58.
Proof.
  intros [Hb He Hc]. cbn [path_text]. unfold name_text. destruct (n_body n) as [|c cs]; [simpl in Hb; lia|].
  simpl in Hc. apply Forall_cons_iff in Hc as [Hc Hcs]. exists c.
  destruct cs as [|c' cs]; simpl.
  - destruct (n_ext n) as [|e es]; simpl; [destruct ns; simpl; eauto|eauto].
  - apply Forall_cons_iff in Hcs as [Hc' _]. exists c'. eexists. split_and!; try done.
    intros ->. destruct Hc' as (_ & _ & _ & _ & Hbad). apply Hbad. by apply (bool_decide_unpack _).
Qed.

Lemma path_length names : (length names <= length (path_text names))%nat.
Proof.
  induction names as [|n ns IH]; simpl; [lia|]. rewrite length_app. destruct ns; simpl in *; lia.
Qed.

Lemma follow_path_spec w0 w names o dj :
  let fs := ff_fs w0 in
  resolves fs 0 names o -> wok w -> same w0 w -> length (fn dj) = 12%nat ->
  wp (follow_path dj (path_text names)) w (λ r w', same w0 w' ∧ reaches fs o r w').
Proof.
  intros fs Hr Hw Hs Hl. destruct (resolves_head _ _ _ _ Hr) as (n & ns & -> & Hn).
  destruct (path_head n ns Hn) as (c & c' & p & Ep & Hc & _). pose proof (path_length (n :: ns)) as Hlen.
  unfold follow_path. assert (arr_get (path_text (n :: ns)) 0 = Some c) as E0 by (by rewrite Ep).
  apply wp_bind. eapply wp_lift; [exact E0|].
  assert (is_sep c = false) as -> by (destruct Hc as (? & ? & ? & ? & ?); unfold is_sep; by rewrite !bool_decide_eq_false_2).
  apply wp_bind. eapply wp_lift; [exact E0|]. rewrite bool_decide_eq_false_2 by (destruct Hc; lia).
  by apply (path_loop_spec w0 0 (n :: ns) o); try done; lia.
Qed.

(** A path without drive number on a mounted volume. *)
Lemma chk_mounted_spec w names o sc :
  wok w -> FatFs w = true -> resolves (ff_fs w) sc names o ->
  wp (chk_mounted (path_text names)) w (λ r w', r = (FR_OK, true, path_text names) ∧ same w w').
Proof.
  intros Hw Hreg Hr. destruct (resolves_head _ _ _ _ Hr) as (n & ns & -> & Hn).
  destruct (path_head n ns Hn) as (c & c' & p & Ep & Hc & Hc'). unfold chk_mounted.
  assert (path_volume (path_text (n :: ns)) = Some (0, path_text (n :: ns))) as ->.
  { rewrite Ep. unfold path_volume. change (arr_get (c :: c' :: p) 0) with (Some c). cbn [mbind option_bind].
    case_bool_decide; [|done]. change (arr_get (c :: c' :: p) 1) with (Some c'). cbn [mbind option_bind].
    by rewrite bool_decide_eq_false_2. }
  apply wp_bind. eapply wp_lift; [done|]. cbn beta iota. rewrite bool_decide_eq_false_2 by lia.
  apply wp_bind, wp_gets. rewrite Hreg. unfold fs_get. simpl negb. apply wp_bind, wp_gets.
  rewrite bool_decide_eq_true_2 by (destruct (g_type _ (w_geom _ _ _ Hw)) as [-> | [-> | ->]]; done).
  apply wp_bind, wp_bind, wp_gets, (wp_status P img); [done|]. intros w' Hs _. by apply wp_ret.
Qed.

(** What [f_open] makes of the directory entry. *)
Definition opened fs (mode : Z) fp o (r : FRESULT * FIL) : Prop :=
  match o with
  | Missing e => r = (e, set_fil_fs false fp)
  | At k i =>
      let e := dir_entry (dir_sectors fs k) i in
      if bool_decide (Z.land (entry_attr e) AM_DIR ≠ 0) then r = (FR_NO_FILE, set_fil_fs false fp)
      else r = (FR_OK, MkFIL true (fs_id fs) (Z.land mode FA_READ) 0 (entry_size e) (entry_clust fs e) (clust fp) 0 (buf fp))
  end.

Lemma f_open_spec dir0 w0 w names o fp mode :
  let fs := ff_fs w0 in
  resolves fs 0 names o ->
  wp (chk_mounted (path_text names)) w (λ r w', r = (FR_OK, true, path_text names) ∧ same w0 w') ->
  wp (f_open dir0 fp (path_text names) mode) w (λ r w', same w0 w' ∧ opened fs mode fp o r).
Proof.
  intros fs Hr Hm. unfold f_open. apply wp_bind. eapply wp_mono; [exact Hm|]. intros r w1 [-> Hs1]. cbn beta iota.
  rewrite bool_decide_eq_false_2 by auto. apply wp_bind.
  eapply wp_mono; [apply (follow_path_spec w0 w1 names o); [done|by eapply same_wok|done|apply length_replicate]|].
  intros r w2 [Hs2 Hx]. destruct o as [k i|e]; simpl in Hx |- *.
  2: { destruct r as [e' dj]. simpl in Hx. subst e'. rewrite bool_decide_eq_true_2 by (by eapply resolves_missing). by apply wp_ret. }
  destruct Hx as (dj & -> & Hat & Hwin). destruct Hat as [Hrg _ Hsec Hdir _]. cbn beta iota. rewrite bool_decide_eq_false_2 by auto.
  rewrite Hdir. apply wp_bind, (wp_entry_byte w2 (dir_sectors fs k) i (sect dj)); [lia|done|done|done|].
  change (Z.to_nat DIR_Attr) with 11%nat. unfold entry_attr. case_bool_decide; [by apply wp_ret|].
  apply wp_bind, (wp_ld_clust w2 (dir_sectors fs k) i (sect dj)); [lia|done..|].
  apply wp_bind. eapply wp_win_dword; [apply (win_dword_entry _ (dir_sectors fs k) i (sect dj)); done || lia|].
  unfold fs_get. apply wp_bind, wp_gets, wp_ret. split; [done|]. destruct (same_fields _ _ _ _ Hs2) as (_ & _ & _ & -> & Et & _).
  unfold entry_clust. rewrite Et. done.
Qed.

(** The clusters [l] hold the file of the entry [e]. *)
Record file_data fs (e : list Z) (l : list Z) : Prop := {
  fd_chain : is_chain fs l;
  fd_first : l = [] ∨ list.head l = Some (entry_clust fs e);
  fd_size : entry_size e <= Z.of_nat (length l) * (csize fs * 512);
}.

Lemma entry_size_range ds i : 0 <= entry_size (dir_entry ds i) < 2^32.
Proof.
  unfold entry_size, entry_dword. pose proof (entry_u8 ds i 28). pose proof (entry_u8 ds i 29).
  pose proof (entry_u8 ds i 30). pose proof (entry_u8 ds i 31). cbn [Nat.add]. lia.
Qed.

Lemma opened_file_ok fs ds i l c b :
  let e := dir_entry ds i in
  file_data fs e l -> length b = 512%nat ->
  file_ok img fs l (MkFIL true (fs_id fs) FA_READ 0 (entry_size e) (entry_clust fs e) c 0 b).
Proof.
  intros e [Hc Hf Hs] Hb. pose proof (entry_size_range ds i) as Hr. fold e in Hr.
  constructor; simpl; try done; try lia.
Qed.

(** ** Properties *)

(** An 8.3 name in a path, ended by a separator or the end of the string,
    becomes the padded upper-case name of the directory entry; the status byte
    tells whether it was the last name, and the rest of the path follows. *)
Theorem create_name_83 dj n t rest :
  name_ok n -> name_end t -> length (fn dj) = 12%nat ->
  exists ns, create_name dj (name_text n ++ t :: rest) = Some (FR_OK, set_fn (name_sfn n ++ [ns]) dj, rest) ∧
    (Z.land ns NS_LAST = 0 <-> 32 < t).
Proof. apply create_name_spec. Qed.

(** C26: [f_open] on a mounted volume follows the path through the directories
    and returns a file object with the size and the first cluster of the entry;
    a missing file, a missing or wrong directory on the way and a path that
    ends at a directory give the documented error codes. *)
Theorem open_by_path dir0 w names o fp mode :
  wok w -> FatFs w = true -> resolves (ff_fs w) 0 names o ->
  exists r w', f_open dir0 fp (path_text names) mode w = Some (r, w') ∧ same w w' ∧ opened (ff_fs w) mode fp o r.
Proof.
  intros Hw Hreg Hr. pose proof (f_open_spec dir0 w w names o fp mode Hr (chk_mounted_spec w names o 0 Hw Hreg Hr)) as Ho.
  apply wp_run in Ho as (r & w' & E & Hs & Hx). by exists r, w'.
Qed.

(** C7: Opening a file by its path and reading it returns the contents of the
    clusters of its directory entry, up to the size in the entry. *)
Theorem open_then_read dir0 w names k i l fp btr :
  let fs := ff_fs w in let e := dir_entry (dir_sectors fs k) i in
  wok w -> FatFs w = true -> resolves fs 0 names (At k i) -> Z.land (entry_attr e) AM_DIR = 0 ->
  file_data fs e l -> length (buf fp) = 512%nat -> 0 <= btr ->
  let n := Z.min btr (entry_size e) in
  exists w' fp',
    (r ← f_open dir0 fp (path_text names) FA_READ;
     let '(res, fp) := r in
     if bool_decide (res ≠ FR_OK) then mret (res, fp, 0, []) else f_read fp btr) w =
    Some ((FR_OK, fp', n, take (Z.to_nat n) (flat img fs l)), w').
Proof.
  intros fs e Hw Hreg Hr Ha Hd Hb Hbtr n.
  assert (wp (r ← f_open dir0 fp (path_text names) FA_READ; let '(res, fp) := r in
     if bool_decide (res ≠ FR_OK) then mret (res, fp, 0, []) else f_read fp btr) w
    (λ r w', exists fp', r = (FR_OK, fp', n, take (Z.to_nat n) (flat img fs l)))) as Hx.
  { apply wp_bind. eapply wp_mono; [apply (f_open_spec dir0 w w names _ fp FA_READ Hr), (chk_mounted_spec w names _ 0 Hw Hreg Hr)|].
    intros r w1 [Hs1 Ho]. unfold opened in Ho. rewrite bool_decide_eq_false_2 in Ho by tauto. subst r. cbn beta iota.
    rewrite bool_decide_eq_false_2 by auto.
    eapply wp_mono; [apply (f_read_spec P img w1 l); [by eapply same_wok| |done]|].
    { apply (file_ok_same P img w w1); [done|]. by apply opened_file_ok. }
    intros r w2 [_ (fp' & -> & _)]. exists fp'. destruct (same_fields _ _ _ _ Hs1) as (_ & _ & _ & _ & _ & _ & _ & Efl & _).
    unfold slice. rewrite Efl. simpl fptr. simpl fsize. rewrite Z.sub_0_r. done. }
  apply wp_run in Hx as (r & w' & E & fp' & ->). by exists w', fp'.
Qed.
End directories.

(** BOOT.ELF of the example volume. *)
Definition demo_name : name83 := Name83 [98; 111; 111; 116] [101; 108; 102].
Definition demo_dir : DIR := MkDIR false 0 0 0 0 0 None [].
Definition demo_fil : FIL := MkFIL false 0 0 0 0 0 0 0 (replicate 512 0).

Lemma demo_name_ok : name_ok demo_name.
Proof. constructor; simpl; [lia|lia|]. apply (bool_decide_unpack _). vm_compute. exact I. Qed.

Lemma demo_resolves : resolves Demo.image Demo.vol 0 [demo_name] (At Fixed 0).
Proof.
  apply res_here; [|exact demo_name_ok|vm_compute; reflexivity].
  by apply (dir_fixed _ _ _ 1); vm_compute.
Qed.

Lemma create_name_83_witness :
  exists ns, create_name (set_fn (replicate 12 0) demo_dir) (name_text demo_name ++ [0]) =
    Some (FR_OK, set_fn (name_sfn demo_name ++ [ns]) (set_fn (replicate 12 0) demo_dir), []) ∧
    (Z.land ns NS_LAST = 0 <-> 32 < 0).
Proof. apply (create_name_83 _ demo_name 0 [] demo_name_ok); [left; lia|reflexivity]. Defined.

Lemma open_by_path_witness :
  exists w', f_open demo_dir demo_fil (path_text [demo_name]) FA_READ Demo.world =
    Some ((FR_OK, MkFIL true 1 1 0 700 2 0 0 (replicate 512 0)), w').
Proof.
  destruct (open_by_path (λ _, True) Demo.image demo_dir Demo.world [demo_name] (At Fixed 0) demo_fil FA_READ Demo.world_ok
    eq_refl demo_resolves) as (r & w' & E & _ & Hx). exists w'. rewrite E. rewrite Hx. reflexivity.
Defined.

Lemma open_then_read_witness :
  exists w' fp', (r ← f_open demo_dir demo_fil (path_text [demo_name]) FA_READ; let '(res, fp) := r in
     if bool_decide (res ≠ FR_OK) then mret (res, fp, 0, []) else f_read fp 600) Demo.world =
    Some ((FR_OK, fp', 600, replicate 512 3 ++ replicate 88 4), w').
Proof.
  apply (open_then_read (λ _, True) Demo.image demo_dir Demo.world [demo_name] Fixed 0 [2; 3] demo_fil 600 Demo.world_ok
    eq_refl demo_resolves); [reflexivity| |reflexivity|lia].
  constructor; [exact Demo.chain_ok|by right|vm_compute; discriminate].
Defined.
