(* ===== verification/FatMount.v ===== *)
(** * Mounting a volume

    The analysis of the boot record ([mount_bpb] in FatFs.v): the geometry that
    a successful mount computes, and what [chk_mounted] does on the way. *)

From S2P Require Import Prelude FatFs FatRead FatDir.
Open Scope Z_scope.

(** ** The BIOS parameter block *)

(** The fields of the boot sector [p]. *)
Definition bpb_fatsz (p : list Z) : Z :=
  let s := entry_word p 22 in if bool_decide (s = 0) then entry_dword p 36 else s.
Definition bpb_nfats (p : list Z) : Z := entry_byte p 16.
Definition bpb_csize (p : list Z) : Z := entry_byte p 13.
Definition bpb_nroot (p : list Z) : Z := entry_word p 17.
Definition bpb_nrsv (p : list Z) : Z := entry_word p 14.
Definition bpb_tsect (p : list Z) : Z :=
  let s := entry_word p 19 in if bool_decide (s = 0) then entry_dword p 32 else s.

(** The sectors in front of the data area, and the number of clusters. *)
Definition bpb_sysect (p : list Z) : Z := bpb_nrsv p + bpb_fatsz p * bpb_nfats p + bpb_nroot p / 16.
Definition bpb_nclst (p : list Z) : Z := (bpb_tsect p - bpb_sysect p) / bpb_csize p.

(** The FAT type that a number of clusters implies. *)
Definition fat_type (n : Z) : Z :=
  if bool_decide (65526 <= n) then FS_FAT32 else if bool_decide (4086 <= n) then FS_FAT16 else FS_FAT12.

(** The bytes of a FAT of [n] entries. *)
Definition fat_bytes (t n : Z) : Z :=
  if bool_decide (t = FS_FAT32) then n * 4 else if bool_decide (t = FS_FAT16) then n * 2 else n * 3 / 2 + n mod 2.

(** A boot sector that describes a FAT volume. *)
Record bpb_ok (p : list Z) : Prop := {
  b_bps : entry_word p 11 = 512;
  b_nfats : bpb_nfats p = 1 ∨ bpb_nfats p = 2;
  b_csize : exists k, 0 <= k <= 7 ∧ bpb_csize p = 2^k;
  b_nroot : bpb_nroot p mod 16 = 0;
  b_nrsv : 0 < bpb_nrsv p;
  b_room : bpb_sysect p + bpb_csize p <= bpb_tsect p;
  b_root : fat_type (bpb_nclst p) = FS_FAT32 <-> bpb_nroot p = 0;
  b_fat : fat_bytes (fat_type (bpb_nclst p)) (bpb_nclst p + 2) <= bpb_fatsz p * 512;
}.

Section mount.
Context {D : Type} `{Disk D}.
Implicit Types (w : ff D).

(** The window holds a sector. *)
Definition sector_ok (p : list Z) : Prop := length p = 512%nat ∧ Forall is_u8 p.

Lemma byte_at p i : sector_ok p -> 0 <= i < 512 -> arr_get p i = Some (entry_byte p (Z.to_nat i)).
Proof.
  intros [Hl _] Hi. rewrite arr_get_lookup by lia. unfold entry_byte.
  by destruct (lookup_lt_is_Some_2 p (Z.to_nat i)) as [x ->]; [lia|].
Qed.

Lemma byte_u8 p i : sector_ok p -> 0 <= entry_byte p i < 256.
Proof.
  intros [_ Hf]. unfold entry_byte. destruct (p !! i) as [x|] eqn:E; simpl; [|lia].
  eapply Forall_lookup_1 in E; [|exact Hf]. unfold is_u8 in E. lia.
Qed.

Lemma word_range p i : sector_ok p -> 0 <= entry_word p i < 2^16.
Proof. intros Hp. unfold entry_word. pose proof (byte_u8 p i Hp). pose proof (byte_u8 p (i + 1) Hp). lia. Qed.

Lemma dword_range p i : sector_ok p -> 0 <= entry_dword p i < 2^32.
Proof.
  intros Hp. unfold entry_dword. pose proof (byte_u8 p i Hp). pose proof (byte_u8 p (i + 1) Hp).
  pose proof (byte_u8 p (i + 2) Hp). pose proof (byte_u8 p (i + 3) Hp). lia.
Qed.

Lemma wp_byte w p i (Q : Z -> ff D -> Prop) :
  win (ff_fs w) = p -> sector_ok p -> 0 <= i < 512 -> Q (entry_byte p (Z.to_nat i)) w -> wp (win_byte i) w Q.
Proof. intros <- Hp Hi HQ. eapply wp_win_byte; [by apply byte_at|done]. Qed.

Lemma wp_word w p i (Q : Z -> ff D -> Prop) :
  win (ff_fs w) = p -> sector_ok p -> 0 <= i < 511 -> Q (entry_word p (Z.to_nat i)) w -> wp (win_word i) w Q.
Proof.
  intros <- Hp Hi HQ. eapply wp_win_word; [|exact HQ]. unfold entry_word. replace (Z.to_nat i + 1)%nat with (Z.to_nat (i + 1)) by lia.
  apply ld_word_val; try (by apply byte_u8); apply byte_at; done || lia.
Qed.

Lemma wp_dword w p i (Q : Z -> ff D -> Prop) :
  win (ff_fs w) = p -> sector_ok p -> 0 <= i < 509 -> Q (entry_dword p (Z.to_nat i)) w -> wp (win_dword i) w Q.
Proof.
  intros <- Hp Hi HQ. eapply wp_win_dword; [|exact HQ]. unfold entry_dword. replace (Z.to_nat i + 1)%nat with (Z.to_nat (i + 1)) by lia.
  replace (Z.to_nat i + 2)%nat with (Z.to_nat (i + 2)) by lia. replace (Z.to_nat i + 3)%nat with (Z.to_nat (i + 3)) by lia.
  apply ld_dword_val; try (by apply byte_u8); apply byte_at; done || lia.
Qed.

Lemma pow2_byte b : 0 <= b < 256 -> b = 0 ∨ Z.land b (b - 1) ≠ 0 <-> ~ exists k, 0 <= k <= 7 ∧ b = 2^k.
Proof.
  intros Hb. assert (Forall (λ b, bool_decide (b = 0 ∨ Z.land b (b - 1) ≠ 0) = negb (bool_decide (b ∈ (Z.pow 2 <$> seqZ 0 8)))) (seqZ 0 256)) as Hf.
  { apply (bool_decide_unpack _). vm_compute. exact I. }
  rewrite list.Forall_forall in Hf. specialize (Hf b ltac:(apply elem_of_seqZ; lia)).
  assert ((exists k, 0 <= k <= 7 ∧ b = 2^k) <-> b ∈ (Z.pow 2 <$> seqZ 0 8)) as ->.
  { rewrite list_elem_of_fmap. split; [intros (k & Hk & ->)|intros (k & -> & Hk)]; exists k; [split; [done|]|]; rewrite ?elem_of_seqZ in *; split_and?; try done; lia. }
  case_bool_decide; case_bool_decide; simpl in Hf; try discriminate; tauto.
Qed.

(** The object that a successful mount of the boot sector [p] leaves. *)
Definition mounted_vol (dv id : Z) (p : list Z) (bsect : Z) : FATFS :=
  let n := bpb_nclst p in
  MkFATFS (fat_type n) dv (bpb_csize p) (bpb_nfats p) 0 (u16 (id + 1)) (bpb_nroot p) (n + 2) (bpb_fatsz p)
    (bsect + bpb_nrsv p)
    (if bool_decide (fat_type n = FS_FAT32) then entry_dword p 44 else bsect + bpb_nrsv p + bpb_fatsz p * bpb_nfats p)
    (bsect + bpb_sysect p) 0 p.
Definition mounted_fs w (bsect : Z) : FATFS := mounted_vol (drv (ff_fs w)) (Fsid w) (win (ff_fs w)) bsect.
Definition mounted w bsect : ff D := MkFF (mounted_fs w bsect) (FatFs w) (u16 (Fsid w + 1)) (ff_disk w).

(** The volume lies within the 32-bit sector numbers. *)
Record bpb_fits (p : list Z) (bsect : Z) : Prop := {
  f_fat : bpb_fatsz p * 2 + 2^17 <= 2^32;
  f_end : 0 <= bsect ∧ bsect + bpb_tsect p <= 2^32;
  f_size : bpb_tsect p < 2^28;
}.

Lemma fatsz_range p : sector_ok p -> 0 <= bpb_fatsz p < 2^32.
Proof. intros Hp. unfold bpb_fatsz. pose proof (word_range p 22 Hp). pose proof (dword_range p 36 Hp). case_bool_decide; lia. Qed.
Lemma tsect_range p : sector_ok p -> 0 <= bpb_tsect p < 2^32.
Proof. intros Hp. unfold bpb_tsect. pose proof (word_range p 19 Hp). pose proof (dword_range p 32 Hp). case_bool_decide; lia. Qed.

(** The object stays unmounted. *)
Definition no_fs w (r : FRESULT) w' : Prop :=
  r = FR_NO_FILESYSTEM ∧ (~ bpb_ok (win (ff_fs w))) ∧
  fs_type (ff_fs w') = fs_type (ff_fs w) ∧ ff_disk w' = ff_disk w ∧ FatFs w' = FatFs w.

Lemma sysect_range p bsect :
  sector_ok p -> bpb_fits p bsect -> bpb_nfats p = 1 ∨ bpb_nfats p = 2 ->
  0 <= bpb_fatsz p * bpb_nfats p < 2^32 ∧ bpb_nrsv p <= bpb_sysect p < 2^32.
Proof.
  intros Hp [] Hn. pose proof (fatsz_range p Hp). pose proof (word_range p 14 Hp). pose proof (word_range p 17 Hp).
  unfold bpb_sysect, bpb_nrsv, bpb_nroot in *. pose proof (Z.div_mod (entry_word p 17) 16 ltac:(lia)).
  pose proof (Z.mod_pos_bound (entry_word p 17) 16 ltac:(lia)). destruct Hn as [-> | ->]; lia.
Qed.

(** Steps of the analysis: a field of the boot sector [p], an assignment to a
    field of the object, a test that fails. *)
Ltac bpb_field p := first [eapply (wp_word _ p)|eapply (wp_byte _ p)|eapply (wp_dword _ p)]; [reflexivity|eassumption|done|].
Ltac bpb_read p := apply wp_bind; bpb_field p.
Ltac bpb_set := unfold fs_mod; apply wp_bind, wp_modify.
Ltac bpb_fail p := apply wp_ret; right; split_and!; [reflexivity|change (~ bpb_ok p); intros []|reflexivity..].

Lemma ceil512 x n : 0 <= x -> n < (x + 511) / 512 <-> n * 512 < x.
Proof. intros Hx. pose proof (Z.div_mod (x + 511) 512 ltac:(lia)). pose proof (Z.mod_pos_bound (x + 511) 512 ltac:(lia)). lia. Qed.

(** From the FAT size check on. *)
Lemma mount_end w bsect w1 sz :
  let p := win (ff_fs w) in let n := bpb_nclst p in
  0 <= sz < 2^31 -> sz = fat_bytes (fat_type n) (n + 2) -> fs_fsize (ff_fs w1) = bpb_fatsz p -> Fsid w1 = Fsid w ->
  (bpb_fatsz p * 512 < sz -> ~ bpb_ok p) -> (sz <= bpb_fatsz p * 512 -> bpb_ok p) ->
  set_wflag 0 (set_winsect 0 (set_fs_id (u16 (Fsid w + 1)) (set_fs_type (fat_type n) (ff_fs w1)))) = mounted_fs w bsect ->
  FatFs w1 = FatFs w -> ff_disk w1 = ff_disk w -> fs_type (ff_fs w1) = fs_type (ff_fs w) ->
  wp (f ← fs_get fs_fsize;
      if bool_decide (f < u32 (sz + (SS - 1)) / SS) then mret FR_NO_FILESYSTEM else
      fs_mod (set_fs_type (fat_type n));;
      id ← gets Fsid;
      modify (set_Fsid (u16 (id + 1)));;
      fs_mod (set_fs_id (u16 (id + 1)));;
      fs_mod (set_winsect 0);;
      fs_mod (set_wflag 0);;
      mret FR_OK) w1 (λ r w', (r = FR_OK ∧ bpb_ok p ∧ w' = mounted w bsect) ∨ no_fs w r w').
Proof.
  intros p n Hsz Esz Ef Eid Hno Hyes Efs Ereg Ed Et. unfold fs_get. apply wp_bind, wp_gets. rewrite Ef.
  unfold SS. change (512 - 1) with 511. rewrite (u32_small (sz + 511)) by (unfold is_u32; lia).
  case_bool_decide as Hc; rewrite ceil512 in Hc by lia; [apply wp_ret; right; split_and!; auto|].
  unfold fs_mod. wp_pure. left. split_and!; [done|apply Hyes; lia|]. unfold mounted. rewrite <- Efs.
  destruct w1; simpl in *. by subst.
Qed.

Lemma fat_bytes_range t n : 0 <= n < 2^29 -> 0 <= fat_bytes t n < 2^31.
Proof.
  intros Hn. unfold fat_bytes. pose proof (Z.div_mod (n * 3) 2 ltac:(lia)). pose proof (Z.mod_pos_bound (n * 3) 2 ltac:(lia)).
  pose proof (Z.mod_pos_bound n 2 ltac:(lia)). case_bool_decide; [lia|]. case_bool_decide; lia.
Qed.

Lemma nclst_range p bsect :
  sector_ok p -> bpb_fits p bsect -> 0 < bpb_csize p -> 0 <= bpb_sysect p <= bpb_tsect p ->
  0 <= bpb_nclst p < 2^28 ∧ (0 < bpb_nclst p <-> bpb_sysect p + bpb_csize p <= bpb_tsect p) ∧
  bpb_nclst p * bpb_csize p <= bpb_tsect p - bpb_sysect p.
Proof.
  intros Hp [_ _ Hs] Hc Hr. unfold bpb_nclst. set (a := bpb_tsect p - bpb_sysect p). assert (0 <= a < 2^28) as Ha by (unfold a; lia).
  pose proof (Z.div_mod a (bpb_csize p) ltac:(lia)). pose proof (Z.mod_pos_bound a (bpb_csize p) ltac:(lia)).
  pose proof (Z.div_pos a (bpb_csize p) ltac:(lia) ltac:(lia)). split; [nia|]. split; [|nia].
  split; intros; [|apply Z.div_str_pos]; unfold a in *; nia.
Qed.

Lemma NNPP_pow2 b : 0 <= b < 256 -> ~ ~ (exists k, 0 <= k <= 7 ∧ b = 2^k) -> exists k, 0 <= k <= 7 ∧ b = 2^k.
Proof.
  intros Hb Hn. destruct (decide (b ∈ (Z.pow 2 <$> seqZ 0 8))) as [Hin|Hin].
  - apply list_elem_of_fmap in Hin as (k & -> & Hk%elem_of_seqZ). exists k. split; [lia|done].
  - exfalso. apply Hn. intros (k & Hk & E). apply Hin, list_elem_of_fmap. exists k. split; [done|]. apply elem_of_seqZ. lia.
Qed.

Lemma mount_limits_spec w bsect w1 :
  let p := win (ff_fs w) in
  sector_ok p -> bpb_fits p bsect -> 0 <= bpb_nclst p < 2^28 -> 0 <= bpb_nrsv p <= bpb_sysect p -> bpb_sysect p < bpb_tsect p ->
  0 <= bpb_fatsz p * bpb_nfats p ->
  ((fat_type (bpb_nclst p) = FS_FAT32 <-> bpb_nroot p = 0) ->
    fat_bytes (fat_type (bpb_nclst p)) (bpb_nclst p + 2) <= bpb_fatsz p * 512 -> bpb_ok p) ->
  w1 = set_ff_fs (set_n_rootdir (bpb_nroot p) (set_csize (bpb_csize p) (set_n_fats (bpb_nfats p) (set_fs_fsize (bpb_fatsz p) (ff_fs w))))) w ->
  wp (mount_limits bsect (bpb_nrsv p) (bpb_fatsz p * bpb_nfats p) (bpb_nroot p) (bpb_sysect p) (bpb_nclst p)) w1
    (λ r w', (r = FR_OK ∧ bpb_ok p ∧ w' = mounted w bsect) ∨ no_fs w r w').
Proof.
  intros p Hp Hfit Hn1 Hrsv Hroom Hfa Hok ->.
  unfold mount_limits. change (if bool_decide (MIN_FAT32 <= bpb_nclst p) then FS_FAT32 else if bool_decide (MIN_FAT16 <= bpb_nclst p) then FS_FAT16 else FS_FAT12)
    with (fat_type (bpb_nclst p)).
  rewrite (u32_small (bpb_nclst p + 2)) by (unfold is_u32; lia). pose proof (f_end _ _ Hfit) as Hend.
  rewrite (u32_small (bsect + bpb_sysect p)) by (unfold is_u32; lia). rewrite (u32_small (bsect + bpb_nrsv p)) by (unfold is_u32; lia).
  bpb_set. bpb_set. bpb_set.
  pose proof (fat_bytes_range (fat_type (bpb_nclst p)) (bpb_nclst p + 2) ltac:(lia)) as Hfb.
  case_bool_decide as H8.
  - case_bool_decide as H9; [apply wp_bind; bpb_fail p; tauto|]. apply wp_bind. bpb_read p. bpb_set. apply wp_ret.
    assert (u32 ((bpb_nclst p + 2) * 4) = fat_bytes (fat_type (bpb_nclst p)) (bpb_nclst p + 2)) as ->
      by (unfold fat_bytes; rewrite H8; simpl; apply u32_small; unfold is_u32; lia).
    apply (mount_end w bsect); try done; fold p; [intros Hlt []; lia|intros Hle; apply Hok; [tauto|done]|].
    unfold mounted_fs, mounted_vol. rewrite bool_decide_eq_true_2 by done. done.
  - case_bool_decide as H9; [apply wp_bind; bpb_fail p; tauto|]. apply wp_bind. bpb_set. apply wp_ret.
    assert ((if bool_decide (fat_type (bpb_nclst p) = FS_FAT16) then u32 ((bpb_nclst p + 2) * 2)
             else u32 (u32 ((bpb_nclst p + 2) * 3) / 2 + Z.land (bpb_nclst p + 2) 1)) =
            fat_bytes (fat_type (bpb_nclst p)) (bpb_nclst p + 2)) as ->.
    { unfold fat_bytes in *. rewrite (bool_decide_eq_false_2 (_ = FS_FAT32)) in * by done. case_bool_decide; [apply u32_small; unfold is_u32; lia|].
      rewrite (u32_small (_ * 3)) by (unfold is_u32; lia). change 1 with (Z.ones 1) at 1. rewrite Z.land_ones by lia. apply u32_small. unfold is_u32. lia. }
    apply (mount_end w bsect); try done; fold p; [intros Hlt []; lia|intros Hle; apply Hok; [tauto|done]|].
    unfold mounted_fs, mounted_vol. fold p. rewrite bool_decide_eq_false_2 by done. simpl. rewrite u32_small; [done|].
    unfold is_u32, bpb_sysect in *. pose proof (Z.div_pos (bpb_nroot p) 16 ltac:(apply word_range; done) ltac:(lia)). lia.
Qed.

Lemma mount_spec w bsect :
  let p := win (ff_fs w) in
  sector_ok p -> bpb_fits p bsect ->
  wp (mount_bpb bsect) w (λ r w', (r = FR_OK ∧ bpb_ok p ∧ w' = mounted w bsect) ∨ no_fs w r w').
Proof.
  intros p Hp Hfit. pose proof (fatsz_range p Hp) as Hfs. pose proof (tsect_range p Hp) as Hts. unfold mount_bpb. bpb_read p.
  case_bool_decide as H1; [bpb_fail p; done|]. bpb_read p. apply wp_bind.
  assert (wp (if bool_decide (entry_word p 22 = 0) then win_dword BPB_FATSz32 else mret (entry_word p 22)) w
    (λ r w', r = bpb_fatsz p ∧ w' = w)) as Hsz.
  { unfold bpb_fatsz. case_bool_decide; [|by apply wp_ret]. by bpb_field p. }
  eapply wp_mono; [exact Hsz|]. intros fsz w1 [-> ->]. clear Hsz. bpb_set. bpb_read p.
  change (entry_byte p (Z.to_nat BPB_NumFATs)) with (bpb_nfats p). bpb_set. case_bool_decide as H2; [bpb_fail p; lia|].
  assert (bpb_nfats p = 1 ∨ bpb_nfats p = 2) as E2 by lia. destruct (sysect_range p bsect Hp Hfit E2) as [Hfa Hsy].
  bpb_read p. change (entry_byte p (Z.to_nat BPB_SecPerClus)) with (bpb_csize p). bpb_set.
  pose proof (pow2_byte (bpb_csize p) (byte_u8 _ _ Hp)) as Hpow. case_bool_decide as H3; [apply Hpow in H3; bpb_fail p; done|].
  assert (0 < bpb_csize p) as Hcs by (pose proof (byte_u8 p 13 Hp); unfold bpb_csize in *; lia).
  bpb_read p. change (entry_word p (Z.to_nat BPB_RootEntCnt)) with (bpb_nroot p). bpb_set.
  change (SS / SZ_DIR) with 16. case_bool_decide as H4; [bpb_fail p; done|].
  bpb_read p. apply wp_bind.
  match goal with |- wp _ ?wx _ => set (w1 := wx) end.
  assert (wp (if bool_decide (entry_word p 19 = 0) then win_dword BPB_TotSec32 else mret (entry_word p 19)) w1
    (λ r w', r = bpb_tsect p ∧ w' = w1)) as Htsx.
  { unfold bpb_tsect. case_bool_decide; [|by apply wp_ret]. by bpb_field p. }
  eapply wp_mono; [exact Htsx|]. intros ts w2 [-> ->]. clear Htsx.
  bpb_read p. change (entry_word p (Z.to_nat BPB_RsvdSecCnt)) with (bpb_nrsv p).
  case_bool_decide as H5; [bpb_fail p; lia|]. rewrite (u32_small (_ * _)) by (unfold is_u32; lia).
  assert (0 <= bpb_nrsv p) as Hrsv by (apply word_range; done).
  change (bpb_nrsv p + bpb_fatsz p * bpb_nfats p + bpb_nroot p / 16) with (bpb_sysect p). rewrite (u32_small (bpb_sysect p)) by (unfold is_u32; lia).
  case_bool_decide as H6; [bpb_fail p; lia|]. change ((bpb_tsect p - bpb_sysect p) / bpb_csize p) with (bpb_nclst p).
  destruct (nclst_range p bsect Hp Hfit Hcs ltac:(lia)) as (Hn1 & Hn2 & Hn3).
  case_bool_decide as H7; [bpb_fail p; lia|]. apply (mount_limits_spec w bsect); try done; fold p; try lia.
  intros Hroot Hfat. constructor; try done; try lia. apply NNPP_pow2; [apply byte_u8; done|].
  intros Hno. apply H3, Hpow, Hno.
Qed.

(** The areas of the volume are in order and inside of it. *)
Record layout_ok (fs : FATFS) (bsect tsect : Z) : Prop := {
  l_rsv : bsect < fatbase fs;
  l_root : fs_type fs ≠ FS_FAT32 ->
    dirbase fs = fatbase fs + n_fats fs * fs_fsize fs ∧ dirbase fs + n_rootdir fs / 16 = database fs ∧ 0 < n_rootdir fs;
  l_fat : fatbase fs + n_fats fs * fs_fsize fs <= database fs;
  l_entries : fat_bytes (fs_type fs) (n_fatent fs) <= fs_fsize fs * 512;
  l_data : database fs + (n_fatent fs - 2) * csize fs <= bsect + tsect;
}.

Lemma mounted_layout w bsect :
  let p := win (ff_fs w) in
  sector_ok p -> bpb_fits p bsect -> bpb_ok p ->
  geom_ok (mounted_fs w bsect) ∧ layout_ok (mounted_fs w bsect) bsect (bpb_tsect p).
Proof.
  intros p Hp Hfit Hok. destruct Hok as [_ Hnf Hcs Hnr Hrsv Hroom Hroot Hfat].
  assert (1 <= bpb_csize p <= 128) as Hc.
  { destruct Hcs as (k & Hk & ->). split; [pose proof (Z.pow_pos_nonneg 2 k); lia|]. change 128 with (2^7). apply Z.pow_le_mono_r; lia. }
  assert (0 <= bpb_nroot p) as Hr0 by (apply word_range; done).
  assert (0 <= bpb_nroot p / 16) as Hr1 by (apply Z.div_pos; lia). pose proof (fatsz_range p Hp) as Hfs.
  assert (0 <= bpb_fatsz p * bpb_nfats p) as Hfn by (destruct Hnf as [-> | ->]; lia).
  assert (0 <= bpb_sysect p) as Hsy by (unfold bpb_sysect; lia).
  destruct (nclst_range p bsect Hp Hfit ltac:(lia) ltac:(lia)) as (Hn1 & Hn2 & Hn3).
  destruct Hfit as [Hf1 Hf2 Hf3]. assert (0 < bpb_nclst p) as Hn0 by (apply Hn2; lia).
  assert (1 <= bpb_fatsz p) as Hf0.
  { unfold fat_bytes in Hfat. pose proof (Z.mod_pos_bound (bpb_nclst p + 2) 2 ltac:(lia)).
    pose proof (Z.div_str_pos ((bpb_nclst p + 2) * 3) 2 ltac:(lia)). case_bool_decide; [lia|]. case_bool_decide; lia. }
  set (n := bpb_nclst p) in *. set (nf := bpb_nfats p) in *. unfold bpb_sysect in *. fold nf in Hn2, Hn3, Hroom, Hf2 |- *.
  assert (n <= n * bpb_csize p) by nia. assert (bpb_fatsz p <= bpb_fatsz p * nf) by (destruct Hnf as [-> | ->]; lia).
  split; constructor; simpl; fold p n nf; try unfold bpb_sysect; try done; fold nf.
  - unfold fat_type. do 2 (case_bool_decide; [tauto|]). tauto.
  - lia.
  - pose proof (Z.mul_div_le ((n + 2) * 4) 512 ltac:(lia)). lia.
  - nia.
  - lia.
  - intros Ht. rewrite bool_decide_eq_false_2 by done. split_and!; [nia|lia|]. assert (bpb_nroot p ≠ 0) by tauto. lia.
  - nia.
  - nia.
Qed.
End mount.

(** ** Finding the boot record *)

Section find.
Context {D : Type} `{Disk D} (P : D -> Prop) (img : Z -> list Z) `{!DiskImage D P img}.
Implicit Types (w : ff D).

(** A sector with the signature of a boot record, and with the name of a FAT. *)
Definition is_br (p : list Z) : Prop := entry_word p 510 = 0xAA55.
Definition is_vbr (p : list Z) : Prop :=
  is_br p ∧ (entry_dword p 54 mod 2^24 = 0x544146 ∨ entry_dword p 82 mod 2^24 = 0x544146).

(** Where the boot record of the volume is: in sector 0, or in the sector that
    the first entry of the partition table names. *)
Definition vbr_at (b : Z) : Prop :=
  b = 0 ∧ is_vbr (img 0) ∨
  is_br (img 0) ∧ (~ is_vbr (img 0)) ∧ entry_byte (img 0) 450 ≠ 0 ∧ b = entry_dword (img 0) 454 ∧ is_vbr (img b).

#[local] Instance is_vbr_dec p : Decision (is_vbr p).
Proof. unfold is_vbr, is_br. apply _. Defined.
Lemma vbr_at_unique b b' : vbr_at b -> vbr_at b' -> b = b'.
Proof. intros [[-> H1]|(_ & H1 & _ & -> & _)] [[-> H2]|(_ & H2 & _ & -> & _)]; done. Qed.

(** [w'] differs from [w] in the disk and in the window, which holds sector [s]. *)
Definition loaded w s w' : Prop :=
  P (ff_disk w') ∧ ff_fs w' = set_win (img s) (ff_fs w) ∧ FatFs w' = FatFs w ∧ Fsid w' = Fsid w.

Lemma img_sector s : sector_ok (img s).
Proof. apply di_sector. Qed.

Lemma wp_read_win s w (Q : bool -> ff D -> Prop) :
  P (ff_disk w) -> length (win (ff_fs w)) = 512%nat -> (forall w', loaded w s w' -> Q true w') -> wp (read_win s) w Q.
Proof.
  intros Hd Hl HQ. unfold read_win, fs_get, fs_mod. apply wp_bind, wp_gets, wp_bind, wp_zoom.
  destruct (di_read (ff_disk w) (drv (ff_fs w)) s 1 Hd ltac:(lia)) as (d' & E & Hd').
  apply wp_run. eexists _, _. split; [exact E|]. cbn beta iota. apply wp_bind, wp_modify, wp_ret, HQ. split; [done|].
  split; [|done]. cbn [ff_fs set_ff_fs set_ff_disk]. rewrite one_sector. unfold buf_store. rewrite drop_ge by (rewrite (sector_len P img); lia).
  by rewrite app_nil_r.
Qed.

Lemma wp_check_fs s w (Q : Z -> ff D -> Prop) :
  P (ff_disk w) -> length (win (ff_fs w)) = 512%nat ->
  (forall w' r, loaded w s w' -> (is_vbr (img s) -> r = 0) -> (is_br (img s) -> ~ is_vbr (img s) -> r = 1) -> ((~ is_br (img s)) -> r = 2) -> Q r w') ->
  wp (check_fs s) w Q.
Proof.
  intros Hd Hl HQ. unfold check_fs. apply wp_bind, wp_read_win; [done..|]. intros w' Hw'. simpl negb.
  assert (win (ff_fs w') = img s) as Ew by (destruct Hw' as (_ & -> & _); done). pose proof (img_sector s) as Hs.
  specialize (fun r => HQ w' r Hw'). unfold is_vbr, is_br in HQ. change (2^24) with (2^24) in HQ.
  rewrite <- !(Z.land_ones _ 24) in HQ by lia. change (Z.ones 24) with 0xFFFFFF in HQ.
  apply wp_bind, (wp_word _ (img s)); [done|done|done|]. change (Z.to_nat BS_55AA) with 510%nat.
  case_bool_decide as H1; [apply wp_ret, HQ; tauto|].
  apply wp_bind, (wp_dword _ (img s)); [done|done|done|]. change (Z.to_nat BS_FilSysType) with 54%nat.
  case_bool_decide as H2; [apply wp_ret, HQ; tauto|].
  apply wp_bind, (wp_dword _ (img s)); [done|done|done|]. change (Z.to_nat BS_FilSysType32) with 82%nat.
  case_bool_decide as H3; apply wp_ret, HQ; tauto.
Qed.

Lemma wp_find_vbr w (Q : Z * Z -> ff D -> Prop) :
  P (ff_disk w) -> length (win (ff_fs w)) = 512%nat ->
  (forall b w', vbr_at b -> loaded w b w' -> Q (0, b) w') ->
  (forall fmt b s w', (forall b, ~ vbr_at b) -> fmt = 1 ∨ fmt = 2 -> loaded w s w' -> Q (fmt, b) w') -> wp find_vbr w Q.
Proof.
  intros Hd Hl HQ Hno. unfold find_vbr. apply wp_bind, wp_check_fs; [done..|]. intros w1 r Hw1 Hv Hn Hnb.
  destruct (decide (is_vbr (img 0))) as [Hb|Hnv]; [rewrite (Hv Hb); apply wp_ret, HQ; [by left|done]|].
  destruct (decide (entry_word (img 0) 510 = 0xAA55)) as [Hbr|Hbr].
  2: { rewrite (Hnb Hbr). simpl. apply wp_ret, (Hno _ _ 0); [|by right|done]. intros b [[-> ?]|(? & _)]; done. }
  rewrite (Hn Hbr Hnv). simpl. pose proof Hw1 as (Hd1 & Ew1 & E2 & E3). assert (win (ff_fs w1) = img 0) as Ew by (by rewrite Ew1).
  pose proof (img_sector 0) as Hs. apply wp_bind, (wp_byte _ (img 0)); [done|done|done|]. change (Z.to_nat (MBR_Table + 4)) with 450%nat. case_bool_decide as Hp.
  2: { apply wp_ret, (Hno _ _ 0); [|by left|done]. intros b [[-> ?]|(_ & _ & ? & _)]; done. }
  apply wp_bind, (wp_dword _ (img 0)); [done|done|done|]. change (Z.to_nat (MBR_Table + 8)) with 454%nat. set (b := entry_dword (img 0) 454).
  apply wp_bind, wp_check_fs; [done|by rewrite Ew, (sector_len P img)|]. intros w2 r2 (Hd2 & Ew2 & E2' & E3') Hv2 Hn2 Hnb2. apply wp_ret.
  assert (loaded w b w2) as Hw2 by (split; [done|]; rewrite Ew2, Ew1, E2', E3', E2, E3; done).
  destruct (decide (is_vbr (img b))) as [Hb|Hb]; [rewrite (Hv2 Hb); apply HQ; [by right|done]|].
  apply (Hno _ _ b); [|destruct (decide (entry_word (img b) 510 = 0xAA55)); auto|done]. intros b' [[-> ?]|(_ & _ & _ & -> & ?)]; done.
Qed.

(** The path of a file on this volume. *)
Lemma chk_mounted_mounts path w :
  path_volume path = Some (0, path) -> FatFs w = true -> fs_type (ff_fs w) = 0 -> length (win (ff_fs w)) = 512%nat ->
  wp (dk_initialize 0) (ff_disk w) (λ st d, Z.land st STA_NOINIT = 0 ∧ P d) ->
  (forall b, vbr_at b -> bpb_fits (img b) b) ->
  wp (chk_mounted path) w (λ r w', P (ff_disk w') ∧ FatFs w' = true ∧
    ((exists b, vbr_at b ∧ r = (FR_OK, true, path) ∧ bpb_ok (img b) ∧
       exists w0, ff_fs w' = mounted_fs w0 b ∧ win (ff_fs w0) = img b ∧ Fsid w0 = Fsid w ∧ drv (ff_fs w0) = 0) ∨
     r = (FR_NO_FILESYSTEM, true, path) ∧ (forall b, vbr_at b -> ~ bpb_ok (img b)) ∧ fs_type (ff_fs w') = 0)).
Proof.
  intros Ep Hreg Ht Hl Hi Hfit. unfold chk_mounted. rewrite Ep. apply wp_bind. eapply wp_lift; [done|]. cbn beta iota.
  rewrite bool_decide_eq_false_2 by lia. apply wp_bind, wp_gets. rewrite Hreg. simpl negb. unfold fs_get at 1. apply wp_bind, wp_gets.
  rewrite Ht. rewrite bool_decide_eq_false_2 by auto. apply wp_bind, wp_ret. rewrite bool_decide_eq_false_2 by done.
  unfold fs_mod. apply wp_bind, wp_modify, wp_bind, wp_modify, wp_bind, wp_zoom. simpl ff_disk.
  eapply wp_mono; [exact Hi|]. intros st d [Hst Hd]. rewrite bool_decide_eq_false_2 by tauto. apply wp_bind, wp_find_vbr; [done|done| |].
  - intros b w1 Hb (Hd1 & Ew1 & Er1 & Ei1). cbn beta iota. do 2 (rewrite bool_decide_eq_false_2 by (done || auto)). apply wp_bind.
    assert (win (ff_fs w1) = img b) as Ew by (by rewrite Ew1). eapply wp_mono; [apply mount_spec; rewrite Ew; [apply img_sector|by apply Hfit]|].
    unfold no_fs. rewrite Ew. intros r w2 [(-> & Hok & ->)|(-> & Hno & Et2 & Ed2 & Er2)]; apply wp_ret.
    + split; [done|]. split; [by rewrite <- Hreg|]. left. exists b. split_and!; try done. exists w1. by rewrite Ew1.
    + rewrite Ed2, Er2, Et2, Ew1, Er1. split_and!; try done. right. split_and!; [done| |done]. intros b' Hb'. by rewrite (vbr_at_unique b' b).
  - intros fmt b s w1 Hno Hfmt (Hd1 & Ew1 & Er1 & Ei1). cbn beta iota. rewrite bool_decide_eq_false_2, bool_decide_eq_true_2 by lia. apply wp_ret. rewrite Er1, Ew1.
    split_and!; [done|done|]. right. split_and!; [done| |done]. intros b' Hb'. by destruct (Hno b').
Qed.

(** ** Properties *)

(** C13: The first access to a card that reads without errors mounts the volume, or fails with FR_NO_FILESYSTEM and leaves the object unmounted:
    it succeeds exactly if there is a boot record (in sector 0, or else in the sector that the first entry of the partition table names)
    and it describes a FAT volume. Then the object has the FAT type that the cluster count implies, the
    reserved, FAT, root directory and data areas are in order, do not overlap
    and end with the volume, and the FAT has room for every cluster. The sizes in the boot record, if there is one,
    must not overflow the 32-bit arithmetic of the analysis ([bpb_fits]: fewer than 2^28 sectors, which end below 2^32). *)
Theorem mount_volume path w :
  path_volume path = Some (0, path) -> FatFs w = true -> fs_type (ff_fs w) = 0 -> length (win (ff_fs w)) = 512%nat ->
  wp (dk_initialize 0) (ff_disk w) (λ st d, Z.land st STA_NOINIT = 0 ∧ P d) ->
  (forall b, vbr_at b -> bpb_fits (img b) b) ->
  exists r w', chk_mounted path w = Some ((r, true, path), w') ∧ (r = FR_OK <-> exists b, vbr_at b ∧ bpb_ok (img b)) ∧
    (r = FR_OK -> exists b, vbr_at b ∧ wok P img w' ∧ layout_ok (ff_fs w') b (bpb_tsect (img b)) ∧
       fs_type (ff_fs w') = fat_type (bpb_nclst (img b)) ∧ fs_id (ff_fs w') = u16 (Fsid w + 1)) ∧
    (r ≠ FR_OK -> r = FR_NO_FILESYSTEM ∧ fs_type (ff_fs w') = 0).
Proof.
  intros Ep Hreg Ht Hl Hi Hfit. pose proof (chk_mounted_mounts path w Ep Hreg Ht Hl Hi Hfit) as Hm.
  apply wp_run in Hm as (r & w' & E & Hd & Hr & [(b & Hb & -> & Hok & w0 & Ef & Ew & Ei & _)|(-> & Hno & Et)]); eexists _, w'; (split; [exact E|]).
  2: { split; [|by split; [|by intros _]]. split; [done|]. intros (b & Hb & Hok). by destruct (Hno b Hb). }
  split; [split; [by exists b|done]|]. split; [|done]. intros _. exists b. split; [done|]. pose proof (mounted_layout w0 b) as Hlay. cbn zeta in Hlay. rewrite Ew in Hlay.
  destruct (Hlay (img_sector b) (Hfit b Hb) Hok) as [Hg Hl'].
  rewrite Ef in *. split; [|split_and!; try done; simpl; by rewrite ?Ew, ?Ei].
  constructor; rewrite ?Ef; try done; [simpl; rewrite Ew; apply (sector_len P img)|by left].
Qed.

(** A card that does not initialise gives FR_NOT_READY, and the object
    stays unmounted. *)
Theorem mount_not_ready path w st d :
  path_volume path = Some (0, path) -> FatFs w = true -> fs_type (ff_fs w) = 0 ->
  dk_initialize 0 (ff_disk w) = Some (st, d) -> Z.land st STA_NOINIT ≠ 0 ->
  exists w', chk_mounted path w = Some ((FR_NOT_READY, true, path), w') ∧ fs_type (ff_fs w') = 0 ∧ ff_disk w' = d.
Proof.
  intros Ep Hreg Ht Hi Hst.
  assert (wp (chk_mounted path) w (λ r w', r = (FR_NOT_READY, true, path) ∧ fs_type (ff_fs w') = 0 ∧ ff_disk w' = d)) as Hm.
  { unfold chk_mounted. rewrite Ep. apply wp_bind. eapply wp_lift; [done|]. cbn beta iota.
    rewrite bool_decide_eq_false_2 by lia. apply wp_bind, wp_gets. rewrite Hreg. simpl negb. unfold fs_get. apply wp_bind, wp_gets.
    rewrite Ht. rewrite bool_decide_eq_false_2 by auto. apply wp_bind, wp_ret. rewrite bool_decide_eq_false_2 by done.
    unfold fs_mod. apply wp_bind, wp_modify, wp_bind, wp_modify, wp_bind, wp_zoom, wp_run. eexists _, _. split; [exact Hi|].
    rewrite bool_decide_eq_true_2 by done. by apply wp_ret. }
  apply wp_run in Hm as (r & w' & E & -> & H1 & H2). by exists w'.
Qed.

(** After an error in the middle of a read or a seek the file object is
    marked, and every later read or seek fails with FR_INT_ERR without touching
    the disk contents again. *)
Theorem aborted_file_fails w fp n :
  wok P img w -> fil_fs fp = true -> fil_id fp = fs_id (ff_fs w) ->
  exists w', f_read (abort fp) n w = Some ((FR_INT_ERR, abort fp, 0, []), w') ∧
    f_lseek (abort fp) n w = Some ((FR_INT_ERR, abort fp), w') ∧ ff_fs w' = ff_fs w.
Proof.
  intros Hw Hfs Hid. destruct (di_status (ff_disk w) (drv (ff_fs w)) (w_disk _ _ _ Hw)) as (d' & E & _).
  exists (set_ff_disk d' w).
  assert (validate (fil_fs (abort fp)) (fil_id (abort fp)) w = Some (FR_OK, set_ff_disk d' w)) as Hv.
  { unfold validate, mbind, st_bind, gets. simpl. rewrite Hfs, Hid. rewrite (bool_decide_eq_false_2 (_ ≠ _)) by auto.
    rewrite bool_decide_eq_false_2 by (destruct (g_type _ (w_geom _ _ _ Hw)) as [-> | [-> | ->]]; done). simpl.
    unfold disk, zoom. by rewrite E. }
  assert (Z.land (flag (abort fp)) FA__ERROR ≠ 0) as Hf.
  { unfold abort. simpl. intros E0. apply (f_equal (λ z, Z.testbit z 7)) in E0.
    rewrite Z.land_spec, Z.lor_spec in E0. unfold FA__ERROR in E0. change (Z.testbit 0x80 7) with true in E0.
    rewrite orb_true_r in E0. discriminate E0. }
  unfold f_read, f_lseek, mbind, st_bind. rewrite Hv. rewrite !(bool_decide_eq_false_2 (FR_OK ≠ FR_OK)) by auto.
  rewrite !bool_decide_eq_true_2 by done. done.
Qed.
End find.

(** ** Objects of an earlier mount *)

Section stale.
Context {D : Type} `{Disk D}.
Implicit Types (w : ff D).

(** The computation leaves the type of the volume and the last identifier alone. *)
Definition keeps_mount {A} (f : ST (ff D) A) : Prop := forall w a w', f w = Some (a, w') -> fs_type (ff_fs w') = fs_type (ff_fs w) ∧ Fsid w' = Fsid w.

Lemma mount_ret {A} (a : A) : keeps_mount (mret a).
Proof. by intros w b w' [= _ <-]. Qed.
Lemma mount_gets {A} (f : ff D -> A) : keeps_mount (gets f).
Proof. by intros w b w' [= _ <-]. Qed.
Lemma mount_lift {A} (o : option A) : keeps_mount (lift o).
Proof. intros w b w'. unfold lift. destruct o; [|done]. by intros [= _ <-]. Qed.
Lemma mount_bind {A B} (f : ST (ff D) A) (k : A -> ST (ff D) B) : keeps_mount f -> (forall a, keeps_mount (k a)) -> keeps_mount (f ≫= k).
Proof. intros Hf Hk w b w' (a & w1 & E1 & E2)%bind_inv. destruct (Hf _ _ _ E1) as [<- <-]. by eapply Hk. Qed.
Lemma mount_fs_mod f : (forall fs, fs_type (f fs) = fs_type fs) -> keeps_mount (fs_mod f).
Proof. intros Hf w b w' [= _ <-]. by rewrite <- (Hf (ff_fs w)). Qed.
Lemma mount_disk {A} (f : ST D A) : keeps_mount (disk f).
Proof. intros w b w'. unfold disk, zoom. destruct (f (ff_disk w)) as [[x d]|]; [|done]. by intros [= _ <-]. Qed.

Ltac mount_step :=
  match goal with
  | |- keeps_mount (_ ≫= _) => apply mount_bind; [|intros ?]
  | |- keeps_mount (if ?b then _ else _) => destruct b
  | |- keeps_mount (let '(_, _) := ?p in _) => destruct p
  | |- keeps_mount (mret _) => apply mount_ret
  | |- keeps_mount (gets _) => apply mount_gets
  | |- keeps_mount (fs_get _) => apply mount_gets
  | |- keeps_mount (lift _) => apply mount_lift
  | |- keeps_mount (disk _) => apply mount_disk
  | |- keeps_mount (fs_mod _) => apply mount_fs_mod; reflexivity
  end.
Lemma mount_check_fs s : keeps_mount (check_fs s).
Proof. unfold check_fs, read_win, win_word, win_dword. repeat mount_step. Qed.
Lemma mount_find_vbr : keeps_mount find_vbr.
Proof. unfold find_vbr, win_byte, win_dword. repeat (apply mount_check_fs || mount_step). Qed.

(** The end of mounting: nothing is mounted, or the next identifier is taken. *)
Definition takes_next w w' : Prop :=
  (fs_type (ff_fs w') = fs_type (ff_fs w) ∧ Fsid w' = Fsid w) ∨ (fs_id (ff_fs w') = Fsid w' ∧ Fsid w' = u16 (Fsid w + 1)).
Definition takes {A} (f : ST (ff D) A) : Prop := forall w a w', f w = Some (a, w') -> takes_next w w'.
Lemma takes_keeps {A} (f : ST (ff D) A) : keeps_mount f -> takes f.
Proof. intros Hf w a w' E. left. by eapply Hf. Qed.
Lemma takes_bind {A B} (f : ST (ff D) A) (k : A -> ST (ff D) B) : keeps_mount f -> (forall a, takes (k a)) -> takes (f ≫= k).
Proof. intros Hf Hk w b w' (a & w1 & E1 & E2)%bind_inv. destruct (Hf _ _ _ E1) as [H1 H2]. specialize (Hk _ _ _ _ E2). unfold takes_next in *. by rewrite <- H1, <- H2. Qed.
Lemma takes_if {A} (b : bool) (f g : ST (ff D) A) : takes f -> takes g -> takes (if b then f else g).
Proof. by destruct b. Qed.

Lemma takes_map {A B} (f : ST (ff D) A) (g : A -> B) : takes f -> takes (f ≫= λ a, mret (g a)).
Proof. intros Hf w b w' (a & w1 & E1 & [= _ <-])%bind_inv. by eapply Hf. Qed.

Ltac takes_step := first [apply takes_if|apply takes_keeps; solve [repeat mount_step]|apply takes_bind; [solve [repeat mount_step]|intros ?]].
Lemma takes_mount_limits bsect nrsv fasize nroot sysect nclst : takes (mount_limits bsect nrsv fasize nroot sysect nclst).
Proof.
  unfold mount_limits, win_dword. cbv zeta. do 4 takes_step. destruct a2 as [sz|]; [|by apply takes_keeps, mount_ret]. repeat takes_step.
  intros w a' w' E. right. do 6 (apply bind_inv in E as (? & ? & [= <- <-] & E)). by injection E as <- <-.
Qed.
Lemma takes_mount_bpb bsect : takes (mount_bpb bsect).
Proof. unfold mount_bpb, win_word, win_dword, win_byte. cbv zeta. repeat (apply takes_mount_limits || takes_step). Qed.

(** An access by a path leaves the volume as it is, unmounts it, or mounts it with the next identifier. *)
Lemma chk_mounted_ids path w r w' :
  chk_mounted path w = Some (r, w') ->
  (ff_fs w' = ff_fs w ∧ Fsid w' = Fsid w) ∨ (fs_type (ff_fs w') = 0 ∧ Fsid w' = Fsid w) ∨ (fs_id (ff_fs w') = Fsid w' ∧ Fsid w' = u16 (Fsid w + 1)).
Proof.
  intros E. unfold chk_mounted in E. apply bind_inv in E as ([vol p] & w0 & E0 & E). assert (w0 = w) as -> by (unfold lift in E0; destruct (path_volume path); by simplify_eq).
  case_bool_decide; [injection E as <- <-; auto|]. apply bind_inv in E as (reg & w0 & [= <- <-] & E). destruct (FatFs w); [|injection E as <- <-; auto]. simpl negb in E. cbv iota in E.
  apply bind_inv in E as (t & w0 & [= <- <-] & E). apply bind_inv in E as (st & w1 & E1 & E). assert (ff_fs w1 = ff_fs w ∧ Fsid w1 = Fsid w) as [Ef Ei].
  { clear E. case_bool_decide; [|unfold mret, st_ret in E1; by simplify_eq]. apply bind_inv in E1 as (d & w0 & E0' & E1). injection E0' as <- <-. unfold disk, zoom in E1. destruct (dk_status _ _) as [[x d]|]; [|done]. by injection E1 as <- <-. }
  case_bool_decide; [injection E as <- <-; auto|]. right. apply bind_inv in E as ([] & w2 & [= <-] & E). apply bind_inv in E as ([] & w3 & [= <-] & E). match type of E with ?f ?w0 = _ =>
    assert (takes f) as Ht; [|destruct (Ht _ _ _ E) as [[Et Eid]|[Et Eid]]; [left|right]; rewrite ?Et, Eid; simpl; by rewrite ?Ei] end.
  takes_step. apply takes_if; [by apply takes_keeps, mount_ret|]. apply takes_bind; [apply mount_find_vbr|]. intros [fmt bs]. repeat (apply takes_if; [by apply takes_keeps, mount_ret|]).
  apply (takes_map (mount_bpb bs) (λ res, (res, true, p))), takes_mount_bpb.
Qed.

(** What may happen to the volume: it is registered or unregistered, accessed, a sector is read into its window, and the disk does something (or is
    another one). [n] bounds the number of mounts: it counts the accesses that do not leave the volume as it is. *)
Inductive later : Z -> ff D -> ff D -> Prop :=
  | later_refl w : later 0 w w
  | later_disk n w d w2 : later n (set_ff_disk d w) w2 -> later n w w2
  | later_window n w a b w2 : later n (set_ff_fs (set_winsect a (set_win b (ff_fs w))) w) w2 -> later n w w2
  | later_register n w fs r w1 w2 : f_mount 0 fs w = Some (r, w1) -> later n w1 w2 -> later n w w2
  | later_ready n w path r w1 w2 : chk_mounted path w = Some (r, w1) -> ff_fs w1 = ff_fs w -> Fsid w1 = Fsid w -> later n w1 w2 -> later n w w2
  | later_mount n w path r w1 w2 : chk_mounted path w = Some (r, w1) -> later n w1 w2 -> later (n + 1) w w2.

(** [k] identifiers after [id] have been taken, the last of them for the mounted volume. *)
Definition taken (id k : Z) w : Prop := Fsid w = u16 (id + k) ∧ (fs_type (ff_fs w) = 0 ∨ (1 <= k ∧ fs_id (ff_fs w) = Fsid w)).

Lemma f_mount_taken fs w r w' : f_mount 0 fs w = Some (r, w') -> Fsid w' = Fsid w ∧ (fs_type (ff_fs w') = 0 ∨ ff_fs w' = ff_fs w) ∧ (FatFs w = true -> fs_type (ff_fs w') = 0).
Proof. unfold f_mount, mbind, st_bind, gets, modify, fs_mod, skip, mret, st_ret. simpl. destruct (FatFs w), fs; intros [= <- <-]; simpl; split_and!; auto; done. Qed.

Lemma later_taken n w w' : later n w w' -> forall id k, 0 <= k -> taken id k w -> exists k', k <= k' <= k + n ∧ taken id k' w'.
Proof.
  induction 1 as [w|n w d w2 _ IH|n w a b w2 _ IH|n w fs r w1 w2 E _ IH|n w path r w1 w2 E Ef Ei _ IH|n w path r w1 w2 E _ IH]; intros id k Hk Ht.
  - exists k. split; [lia|done].
  - by apply IH.
  - by apply IH.
  - apply IH; [done|]. destruct (f_mount_taken _ _ _ _ E) as (Ei & Ef & _), Ht as [H1 H2]. split; [by rewrite Ei|]. destruct Ef as [Ef|Ef]; [by left|]. by rewrite Ef, Ei.
  - apply IH; [done|]. unfold taken. by rewrite Ef, Ei.
  - destruct Ht as [H1 H2]. destruct (chk_mounted_ids _ _ _ _ E) as [[Ef Ei]|[[Ef Ei]|[Ef Ei]]].
    + destruct (IH id k Hk) as (k' & Hk' & Ht'); [unfold taken; by rewrite Ef, Ei|]. exists k'. split; [lia|done].
    + destruct (IH id k Hk) as (k' & Hk' & Ht'); [split; [by rewrite Ei|by left]|]. exists k'. split; [lia|done].
    + destruct (IH id (k + 1) ltac:(lia)) as (k' & Hk' & Ht'); [|exists k'; split; [lia|done]]. split; [|right; split; [lia|done]].
      rewrite Ei, H1. unfold u16. rewrite Zplus_mod_idemp_l. f_equal. lia.
Qed.

(** An object whose identifier is not that of the mounted volume is rejected. *)
Lemma validate_stale b id w : fs_type (ff_fs w) = 0 ∨ fs_id (ff_fs w) ≠ id -> validate b id w = Some (FR_INVALID_OBJECT, w).
Proof.
  intros Hs. unfold validate, mbind, st_bind, gets.
  assert (negb b || bool_decide (fs_type (ff_fs w) = 0) || bool_decide (fs_id (ff_fs w) ≠ id) = true) as ->; [|done].
  destruct b; [|done]. simpl. apply orb_true_iff. by rewrite !bool_decide_eq_true.
Qed.

(** C33: The file and directory objects of a mount, which have its identifier, do not survive it. An access has mounted the volume ([wm]); when later the work area is registered
    again or unregistered ([f_mount] in [w]), every operation on the objects gives FR_INVALID_OBJECT from then on and does
    not touch the disk, whatever is registered, accessed, read and mounted in between, until 2^16 further mounts have gone round
    the 16-bit identifiers. *)
Theorem stale_objects_rejected path wa ra wm w fs r w0 n w' fp dj cnt info :
  chk_mounted path wa = Some (ra, wm) -> fs_type (ff_fs wa) = 0 -> fs_type (ff_fs wm) ≠ 0 -> fil_id fp = fs_id (ff_fs wm) -> dj_id dj = fs_id (ff_fs wm) ->
  later 0 wm w -> FatFs w = true -> f_mount 0 fs w = Some (r, w0) -> later n w0 w' -> n < 2^16 ->
  f_read fp cnt w' = Some ((FR_INVALID_OBJECT, fp, 0, []), w') ∧ f_lseek fp cnt w' = Some ((FR_INVALID_OBJECT, fp), w') ∧
  f_close fp w' = Some ((FR_INVALID_OBJECT, fp), w') ∧ f_readdir dj info w' = Some ((FR_INVALID_OBJECT, dj, info), w').
Proof.
  intros Em Ha Hm Hfp Hdj Hl0 Hreg E Hl Hn. destruct (f_mount_taken _ _ _ _ E) as (Ei & _ & Et). specialize (Et Hreg).
  destruct (chk_mounted_ids _ _ _ _ Em) as [[Ef _]|[[Ef _]|[Hid Hnext]]]; [congruence|congruence|].
  destruct (later_taken _ _ _ Hl0 (Fsid wa) 1 ltac:(lia)) as (k0 & Hk0 & Hw & _); [by split; [|right]|]. replace k0 with 1 in Hw by lia. rewrite <- Hnext, <- Hid in Hw.
  assert (is_u16 (Fsid w)) as Hu by (rewrite Hw, Hid, Hnext; apply u16_range).
  destruct (later_taken _ _ _ Hl (Fsid w) 0 ltac:(lia)) as (k & Hk & H1 & H2); [split; [|by left]; rewrite Ei, Z.add_0_r; symmetry; by apply u16_small|].
  assert (fs_type (ff_fs w') = 0 ∨ fs_id (ff_fs w') ≠ fs_id (ff_fs wm)) as Hs.
  { destruct H2 as [H2|[H2 H3]]; [by left|]. right. rewrite H3, H1, <- Hw. unfold u16, is_u16 in *. pose proof (Z.div_mod (Fsid w + k) (2^16) ltac:(lia)). nia. }
  unfold f_read, f_lseek, f_close, f_readdir, mbind, st_bind. by rewrite Hfp, Hdj, !(validate_stale _ _ _ Hs).
Qed.
End stale.

Lemma demo_vbr : vbr_at Demo.image 0.
Proof. left. split; [done|]. split; vm_compute; [reflexivity|by left]. Qed.

Lemma demo_fits : bpb_fits (Demo.image 0) 0.
Proof. constructor; vm_compute; [discriminate|split; discriminate|reflexivity]. Qed.

Definition unmounted : ff unit := MkFF (set_fs_type 0 Demo.vol) true 0 tt.

Lemma mount_volume_witness :
  exists w', chk_mounted (path_text [demo_name]) unmounted = Some ((FR_OK, true, path_text [demo_name]), w') ∧
    wok (λ _, True) Demo.image w' ∧ layout_ok (ff_fs w') 0 8.
Proof.
  destruct (mount_volume (λ _, True) Demo.image (path_text [demo_name]) unmounted) as (r & w' & E & Hr & Hok & _);
    [reflexivity|reflexivity|reflexivity|reflexivity|by apply wp_ret|intros b Hb; rewrite (vbr_at_unique _ b 0 Hb demo_vbr); exact demo_fits|].
  assert (r = FR_OK) as ->. { vm_compute in E. by injection E. }
  exists w'. split; [exact E|]. destruct (Hok eq_refl) as (b & Hb & H1 & H2 & _). rewrite (vbr_at_unique _ b 0 Hb demo_vbr) in H2. split; [exact H1|exact H2].
Defined.

(** A card that never gets ready. *)
Definition dead_disk : Disk unit := {|
  dk_initialize _ := mret STA_NOINIT;
  dk_status _ := mret STA_NOINIT;
  dk_read _ _ _ := mret (false, []);
|}.

Lemma mount_not_ready_witness :
  exists w', @chk_mounted unit dead_disk (path_text [demo_name]) unmounted =
    Some ((FR_NOT_READY, true, path_text [demo_name]), w').
Proof.
  destruct (@mount_not_ready unit dead_disk (path_text [demo_name]) unmounted STA_NOINIT tt) as (w' & E & _);
    [reflexivity|reflexivity|reflexivity|reflexivity|discriminate|]. exists w'. exact E.
Defined.

(** The volume is mounted by an access, registered again and mounted by another one. *)
Definition access (w : ff unit) : ff unit := match chk_mounted (path_text [demo_name]) w with Some (_, w1) => w1 | None => w end.
Definition register (w : ff unit) : ff unit := match f_mount 0 true w with Some (_, w1) => w1 | None => w end.
Lemma stale_objects_rejected_witness :
  fs_type (ff_fs (access (register (access unmounted)))) = FS_FAT12 ∧
  f_read Demo.file 10 (access (register (access unmounted))) = Some ((FR_INVALID_OBJECT, Demo.file, 0, []), access (register (access unmounted))).
Proof.
  split; [vm_compute; reflexivity|]. set (r := (FR_OK, true, path_text [demo_name])).
  destruct (stale_objects_rejected (path_text [demo_name]) unmounted r (access unmounted) (access unmounted) true FR_OK (register (access unmounted)) 1
    (access (register (access unmounted))) Demo.file (set_dj_id 1 demo_dir) 10 None) as [E _]; [..|exact E].
  - vm_compute. reflexivity.
  - reflexivity.
  - vm_compute. discriminate.
  - vm_compute. reflexivity.
  - vm_compute. reflexivity.
  - constructor.
  - vm_compute. reflexivity.
  - vm_compute. reflexivity.
  - apply (later_mount 0 _ (path_text [demo_name]) r (access (register (access unmounted)))); [vm_compute; reflexivity|constructor].
  - lia.
Defined.

Lemma aborted_file_fails_witness : exists w', f_read (abort Demo.file) 10 Demo.world = Some ((FR_INT_ERR, abort Demo.file, 0, []), w').
Proof.
  destruct (aborted_file_fails (λ _, True) Demo.image Demo.world Demo.file 10 Demo.world_ok eq_refl eq_refl) as (w' & E & _).
  exists w'. exact E.
Defined.
