(* ===== verification/Boot.v ===== *)
(** * The loader program (sdloader/src/main.c)

    [bootelf] loads an ELF file from the card into memory and starts it; the
    console commands and the main loop tie the components together. The memory
    that segments are loaded into is apart from the variables of the loader. *)

From S2P Require Import Prelude Cmdline Motion Steppers Mmc FatFs FatRead FatDir FatMount.
From Stdlib Require String Ascii.
Import String.StringSyntax.
Open Scope Z_scope.

(** The card as the disk of the file system (diskio.c). *)
#[export] Instance mmc_disk {D} `{SpiMaster D} : Disk (mmc D) := {|
  dk_initialize := disk_initialize;
  dk_status := disk_status;
  dk_read drv sector count :=
    r ← disk_read drv sector count; mret (bool_decide (r.1 = RES_OK), r.2);
|}.

(** ** Memory *)

Definition mem : Type := Z -> Z.

(** Bytes are stored at increasing addresses modulo 2^32. *)
Definition mem_store (a : Z) (data : list Z) (m : mem) : mem :=
  λ x, let k := u32 (x - a) in
       if bool_decide (k < Z.of_nat (length data)) then default 0 (data !! Z.to_nat k) else m x.

Definition memset (a c n : Z) (m : mem) : mem := mem_store a (replicate (Z.to_nat n) c) m.

(** Big-endian access to a buffer. *)
Definition ld_half (b : list Z) (i : Z) : option Z :=
  x ← arr_get b i; y ← arr_get b (i + 1); Some (x * 256 + y).
Definition ld_word (b : list Z) (i : Z) : option Z :=
  x ← ld_half b i; y ← ld_half b (i + 2); Some (x * 65536 + y).

(** ** ELF structures (elf.h) *)

Record Elf32_Ehdr := Ehdr {
  e_ident : list Z; e_type : Z; e_machine : Z; e_version : Z; e_entry : Z; e_phoff : Z;
  e_phentsize : Z; e_phnum : Z;
}.

(** The header at the start of a buffer. *)
Definition read_ehdr (b : list Z) : option Elf32_Ehdr :=
  ident ← mem_cpy b 0 16;
  ty ← ld_half b 16; ma ← ld_half b 18; ve ← ld_word b 20; en ← ld_word b 24; ph ← ld_word b 28;
  pe ← ld_half b 42; pn ← ld_half b 44;
  Some (Ehdr ident ty ma ve en ph pe pn).

Record Elf32_Phdr := Phdr {
  p_type : Z; p_offset : Z; p_vaddr : Z; p_filesz : Z; p_memsz : Z;
}.

(** The program header at offset [i] of a buffer. *)
Definition read_phdr (b : list Z) (i : Z) : option Elf32_Phdr :=
  ty ← ld_word b i; off ← ld_word b (i + 4); va ← ld_word b (i + 8);
  fs ← ld_word b (i + 16); ms ← ld_word b (i + 20);
  Some (Phdr ty off va fs ms).

Definition ELFMAG : list Z := [0x7f; 69; 76; 70].
Definition CHUNK_SIZE : Z := 32768.

(** ** bootelf *)

Section bootelf.
Context {DK : Type} `{Disk DK} (dir0 : DIR).

(** The variables of the loader, the memory, the address that was jumped to
    and what was printed. *)
Record loader := MkLoader {
  ld_ff : ff DK;
  Fil : FIL;
  ld_buf : list Z;
  ld_mem : mem;
  ld_entry : option Z;
  ld_out : list message;
}.

Definition set_ld_ff x s := MkLoader x (Fil s) (ld_buf s) (ld_mem s) (ld_entry s) (ld_out s).
Definition set_Fil x s := MkLoader (ld_ff s) x (ld_buf s) (ld_mem s) (ld_entry s) (ld_out s).
Definition set_ld_buf x s := MkLoader (ld_ff s) (Fil s) x (ld_mem s) (ld_entry s) (ld_out s).
Definition set_ld_mem x s := MkLoader (ld_ff s) (Fil s) (ld_buf s) x (ld_entry s) (ld_out s).
Definition set_ld_entry x s := MkLoader (ld_ff s) (Fil s) (ld_buf s) (ld_mem s) x (ld_out s).
Definition set_ld_out x s := MkLoader (ld_ff s) (Fil s) (ld_buf s) (ld_mem s) (ld_entry s) x.

Definition say (fmt : String.string) (args : list Z) : ST loader unit :=
  modify (λ s, set_ld_out (ld_out s ++ [(fmt, args)]) s).
Arguments say fmt%_string_scope args.

Definition fat {A} (m : ST (ff DK) A) : ST loader A := zoom ld_ff set_ld_ff m.

(** The value of an enumerator, as it is printed. *)
Definition FRESULT_val (r : FRESULT) : Z :=
  match r with
  | FR_OK => 0 | FR_DISK_ERR => 1 | FR_INT_ERR => 2 | FR_NOT_READY => 3 | FR_NO_FILE => 4
  | FR_NO_PATH => 5 | FR_INVALID_NAME => 6 | FR_DENIED => 7 | FR_EXIST => 8 | FR_INVALID_OBJECT => 9
  | FR_WRITE_PROTECTED => 10 | FR_INVALID_DRIVE => 11 | FR_NOT_ENABLED => 12 | FR_NO_FILESYSTEM => 13
  | FR_MKFS_ABORTED => 14 | FR_TIMEOUT => 15 | FR_LOCKED => 16 | FR_NOT_ENOUGH_CORE => 17
  | FR_TOO_MANY_OPEN_FILES => 18 | FR_INVALID_PARAMETER => 19
  end.

(** [f_read(&Fil, dst, n, &br)]: the result and the bytes for [dst]. *)
Definition read_file (n : Z) : ST loader (FRESULT * list Z) :=
  fp ← gets Fil;
  r ← fat (f_read fp (u32 n));
  let '(rc, fp, br, data) := r in
  modify (set_Fil fp);;
  mret (rc, data).

Definition seek_file (ofs : Z) : ST loader FRESULT :=
  fp ← gets Fil;
  r ← fat (f_lseek fp ofs);
  let '(rc, fp) := r in
  modify (set_Fil fp);;
  mret rc.

(** The loop over the chunks of a segment; whether it ran to its end. [chunk]
    is an [int], [p_filesz] is unsigned. *)
Fixpoint chunk_loop (fuel : nat) (ph : Elf32_Phdr) (chunk : Z) : ST loader bool :=
  match fuel with
  | O => undef
  | S fuel =>
      if bool_decide (u32 chunk < p_filesz ph) then
        let to_read := s32 (p_filesz ph - chunk) in
        let to_read := if bool_decide (CHUNK_SIZE < to_read) then CHUNK_SIZE else to_read in
        rc ← seek_file (u32 (p_offset ph + chunk));
        if bool_decide (rc ≠ FR_OK) then say "f_seek: %d\r\n" [FRESULT_val rc];; mret false else
        say "    read %d bytes form %d to %d\r\n" [to_read; s32 (p_offset ph + chunk); s32 (p_vaddr ph + chunk)];;
        r ← read_file to_read;
        let '(rc, data) := r in
        modify (λ s, set_ld_mem (mem_store (u32 (p_vaddr ph + chunk)) data (ld_mem s)) s);;
        if bool_decide (rc ≠ FR_OK) then say "f_read: %d\r\n" [FRESULT_val rc];; mret false else
        if bool_decide (2^31 <= chunk + CHUNK_SIZE) then undef else
        chunk_loop fuel ph (chunk + CHUNK_SIZE)
      else mret true
  end.

(** Every iteration takes one chunk. *)
Definition chunk_fuel (ph : Elf32_Phdr) : nat := Z.to_nat (p_filesz ph / CHUNK_SIZE) + 2.

(** The body of the loop over the program headers. *)
Definition load_segment (i : Z) (ph : Elf32_Phdr) : ST loader bool :=
  say "  seg%d: type: %d offset: %d addr: %d fsize: %d msize: %d\r\n"
    [i; s32 (p_type ph); s32 (p_offset ph); s32 (p_vaddr ph); s32 (p_filesz ph); s32 (p_memsz ph)];;
  if bool_decide (p_type ph = 1) then
    ok ← (if bool_decide (0 < p_filesz ph) then chunk_loop (chunk_fuel ph) ph 0 else mret true);
    if negb (ok : bool) then mret false else
    if bool_decide (p_filesz ph < p_memsz ph) then
      say "    zero fill %d bytes at %d\r\n" [s32 (p_memsz ph - p_filesz ph); s32 (p_vaddr ph + p_filesz ph)];;
      modify (λ s, set_ld_mem (memset (u32 (p_vaddr ph + p_filesz ph)) 0 (p_memsz ph - p_filesz ph) (ld_mem s)) s);;
      mret true
    else mret true
  else mret true.

Fixpoint segments (n : nat) (i : Z) (eh : Elf32_Ehdr) : ST loader bool :=
  match n with
  | O => mret true
  | S n =>
      b ← gets ld_buf;
      ph ← lift (read_phdr b (s32 (e_phoff eh) + e_phentsize eh * i));
      ok ← load_segment i ph;
      if (ok : bool) then segments n (i + 1) eh else mret false
  end.

Definition boot_path : list Z := [98; 111; 111; 116; 46; 101; 108; 102; 0].

Definition bootelf : ST loader Z :=
  fat (f_mount 0 true);;
  fp ← gets Fil;
  r ← fat (f_open dir0 fp boot_path FA_READ);
  let '(rc, fp) := r in
  modify (set_Fil fp);;
  if bool_decide (rc ≠ FR_OK) then say "f_open: %d\r\n" [FRESULT_val rc];; mret (-1) else
  r ← read_file MMC_BLOCK_SIZE;
  let '(rc, data) := r in
  modify (λ s, set_ld_buf (buf_store data (ld_buf s)) s);;
  if bool_decide (rc ≠ FR_OK) then say "f_read: %d\r\n" [FRESULT_val rc];; mret (-1) else
  b ← gets ld_buf;
  eh ← lift (read_ehdr b);
  if bool_decide (take 4 (e_ident eh) ≠ ELFMAG) then say "ERROR: Bad magic\r\n" [];; mret (-1) else
  cl ← lift (arr_get (e_ident eh) 4); da ← lift (arr_get (e_ident eh) 5); ve ← lift (arr_get (e_ident eh) 6);
  say "class: %d data: %d version: %d\r\n" [cl; da; ve];;
  say "type: %d machine: %d version: %d\r\n" [e_type eh; e_machine eh; s32 (e_version eh)];;
  say "phoff: %d phentsize: %d phnum: %d\r\n" [s32 (e_phoff eh); e_phentsize eh; e_phnum eh];;
  say "entry: %x\r\n" [e_entry eh];;
  ok ← segments (Z.to_nat (e_phnum eh)) 0 eh;
  if negb (ok : bool) then mret (-1) else
  say "Start program at %d\r\n" [s32 (e_entry eh)];;
  modify (set_ld_entry (Some (e_entry eh)));;
  mret 0.
End bootelf.

Arguments loader : clear implicits.

(** ** Commands and main loop *)

(** The command functions. *)
Inductive command := do_help | do_bootelf | do_rd | do_wr | do_start | do_status | do_reset.

Section program.
Context {R DV DS DO : Type} `{Num R} `{Bus DV} `{SpiMaster DS} `{SpiMaster DO}.
(** Addresses and device numbers of the generated xparameters.h, and the
    contents of uninitialised local variables. *)
Context (base osram_id mmc_id : Z) (dir0 : DIR) (tgt0 : steppers_target R).

Record system := MkSystem {
  sys_cmd : cmdline command;
  sys_st : steppers R DV;
  sys_ld : loader (mmc DS);
  sys_osram : osram DO;
  sys_out : list message;
}.

Definition set_sys_cmd x s := MkSystem x (sys_st s) (sys_ld s) (sys_osram s) (sys_out s).
Definition set_sys_st x s := MkSystem (sys_cmd s) x (sys_ld s) (sys_osram s) (sys_out s).
Definition set_sys_ld x s := MkSystem (sys_cmd s) (sys_st s) x (sys_osram s) (sys_out s).
Definition set_sys_osram x s := MkSystem (sys_cmd s) (sys_st s) (sys_ld s) x (sys_out s).
Definition set_sys_out x s := MkSystem (sys_cmd s) (sys_st s) (sys_ld s) (sys_osram s) x.

Definition cmd {A} (m : ST (cmdline command) A) : ST system A := zoom sys_cmd set_sys_cmd m.
Definition stp {A} (m : ST (steppers R DV) A) : ST system A := zoom sys_st set_sys_st m.
Definition ldr {A} (m : ST (loader (mmc DS)) A) : ST system A := zoom sys_ld set_sys_ld m.
(** The SD card driver is the disk of the file system. *)
Definition card {A} (m : ST (mmc DS) A) : ST system A := ldr (fat (disk m)).
Definition osr {A} (m : ST (osram DO) A) : ST system A := zoom sys_osram set_sys_osram m.

Definition tell (fmt : String.string) (args : list Z) : ST system unit :=
  modify (λ s, set_sys_out (sys_out s ++ [(fmt, args)]) s).
Arguments tell fmt%_string_scope args.

Definition run_rd : ST system unit :=
  rc ← cmd (cmdlineGetArgHex 1);
  val ← stp (dev (XIo_In32 (u32 rc)));
  tell "%08lX: %08X\r\n" [u32 rc; val].

Definition run_wr : ST system unit :=
  rc ← cmd (cmdlineGetArgHex 1);
  val ← cmd (cmdlineGetArgHex 2);
  stp (dev (XIo_Out32 (u32 rc) (u32 val)));;
  tell "%08X <= %08X\r\n" [u32 rc; u32 val].

(** Only the first axis and the duration of the target are set. *)
Definition run_start : ST system unit :=
  x ← cmd (cmdlineGetArgInt 1);
  v ← cmd (cmdlineGetArgInt 2);
  dt ← cmd (cmdlineGetArgInt 3);
  xs ← lift (arr_set (t_x tgt0) 0 (num_of_Z x));
  vs ← lift (arr_set (t_v tgt0) 0 (num_of_Z v));
  stp (steppersQueue (Target (t_mode tgt0) (num_div (num_of_Z dt) (num_of_Z 1000)) xs vs));;
  skip.

Definition run_help : ST system unit :=
  tell "Commands:\r\n help            - this help\r\n rd <addr>       - memory read\r\n wr <addr> <val> - memory write\r\n bootelf         - start boot.elf\r\n\r\n" [].

Definition call (f : command) : ST system unit :=
  match f with
  | do_help => run_help
  | do_bootelf => ldr (bootelf dir0);; skip
  | do_rd => run_rd
  | do_wr => run_wr
  | do_start => run_start
  | do_status => stp (steppersStatus base)
  | do_reset => stp (steppersReset base)
  end.

Definition osram_Boot : list Z :=
  [0x03; 0x0f; 0xc5; 0xe1; 0x96; 0xf2; 0x8c; 0xf0; 0x45; 0x01; 0x76; 0x8a; 0x8c; 0x70;
   0x85; 0x01; 0x76; 0x8a; 0x8c; 0x70; 0x05; 0x41; 0xe6; 0x42; 0x44; 0x30].

Fixpoint osram_send_all (l : list Z) : ST system unit :=
  match l with [] => skip | c :: l => osr (osram_send c);; osram_send_all l end.

Definition commands : list (list Z * command) :=
  [([104; 101; 108; 112], do_help); ([63], do_help); ([98; 111; 111; 116; 101; 108; 102], do_bootelf);
   ([114; 100], do_rd); ([119; 114], do_wr); ([115; 116; 97; 114; 116], do_start);
   ([115; 116; 97; 116; 117; 115], do_status); ([114; 101; 115; 101; 116], do_reset)].

Fixpoint add_commands (l : list (list Z * command)) : ST (cmdline command) unit :=
  match l with [] => skip | (name, f) :: l => cmdlineAddCommand (name ++ [0]) f;; add_commands l end.

(** [main] up to its loop: whether the loop is entered. *)
Definition main_init : ST system bool :=
  tell "\r\n\r\nStart\r\n" [];;
  s ← osr (osram_init osram_id);
  if bool_decide (s ≠ XST_SUCCESS) then tell "osram_init: %d\r\n" [s];; mret false else
  osram_send_all osram_Boot;;
  s ← card (mmc_if_init mmc_id);
  if bool_decide (s ≠ XST_SUCCESS) then tell "mmc_if_init: %d\r\n" [s];; mret false else
  cmd cmdlineInit;;
  cmd (add_commands commands);;
  cmd cmdlinePrintPrompt;;
  mret true.

(** One iteration of the loop; [rx] is the received character, if any. *)
Definition main_iter (rx : option Z) : ST system unit :=
  (match rx with Some c => cmd (cmdlineInputFunc (u8 c)) | None => skip end);;
  cmdlineMainLoop sys_cmd set_sys_cmd call;;
  stp (steppersMainLoop base).

Fixpoint main_loop (rxs : list (option Z)) : ST system unit :=
  match rxs with [] => skip | rx :: rxs => main_iter rx;; main_loop rxs end.
End program.

(** ** Memory contents *)

(** Memories are compared at every address. *)
Definition meq (m m' : mem) : Prop := forall x, m x = m' x.
#[export] Instance meq_equiv : Equivalence meq.
Proof. split; [done|by intros m m' E x|intros m1 m2 m3 E E' x; by rewrite E]. Qed.
#[export] Instance mem_store_proper a d : Proper (meq ==> meq) (mem_store a d).
Proof. intros m m' E x. unfold mem_store. cbn zeta. by rewrite E. Qed.
#[export] Instance memset_proper a c n : Proper (meq ==> meq) (memset a c n).
Proof. unfold memset. solve_proper. Qed.

Lemma mem_store_at a d m x :
  mem_store a d m x = match d !! Z.to_nat (u32 (x - a)) with Some b => b | None => m x end.
Proof.
  unfold mem_store. cbn zeta. pose proof (u32_range (x - a)) as Hr. unfold is_u32 in Hr. case_bool_decide.
  - by destruct (lookup_lt_is_Some_2 d (Z.to_nat (u32 (x - a)))) as [b ->]; [lia|].
  - by rewrite lookup_ge_None_2 by lia.
Qed.

Lemma mem_store_nil a m : meq (mem_store a [] m) m.
Proof. intros x. by rewrite mem_store_at. Qed.

(** Two stores one after the other are one. *)
Lemma mem_store_app a d1 d2 m :
  Z.of_nat (length d1) + Z.of_nat (length d2) <= 2^32 ->
  meq (mem_store (u32 (a + Z.of_nat (length d1))) d2 (mem_store a d1 m)) (mem_store a (d1 ++ d2) m).
Proof.
  intros Hl x. rewrite !mem_store_at. set (k := u32 (x - a)). pose proof (u32_range (x - a)) as Hk. fold k in Hk. unfold is_u32 in Hk.
  assert (u32 (x - u32 (a + Z.of_nat (length d1))) = u32 (k - Z.of_nat (length d1))) as ->.
  { unfold k, u32. rewrite Zminus_mod_idemp_r, Zminus_mod_idemp_l. f_equal. lia. }
  destruct (decide (k < Z.of_nat (length d1))) as [Hlt|Hge].
  - assert (u32 (k - Z.of_nat (length d1)) = k - Z.of_nat (length d1) + 2^32) as ->.
    { unfold u32. symmetry. apply (Z.mod_unique _ _ (-1)); lia. }
    rewrite lookup_ge_None_2 by lia. by rewrite lookup_app_l by lia.
  - rewrite (u32_small (k - _)) by (unfold is_u32; lia). rewrite lookup_app_r by lia.
    replace (Z.to_nat (k - Z.of_nat (length d1))) with (Z.to_nat k - length d1)%nat by lia.
    destruct (d2 !! (Z.to_nat k - length d1)%nat); [done|]. by rewrite lookup_ge_None_2 by lia.
Qed.

(** ** Loading *)

Section loading.
Context {DK : Type} `{Disk DK} (P : DK -> Prop) (img : Z -> list Z) `{!DiskImage DK P img}.
Implicit Types (s : loader DK) (ph : Elf32_Phdr).

(** The open file has the contents [F] and is on the volume [w0]. *)
Record file_open (w0 : ff DK) (l F : list Z) s : Prop := {
  fo_vol : FatRead.same P img w0 (ld_ff s);
  fo_file : file_ok img (ff_fs w0) l (Fil s);
  fo_data : F = take (Z.to_nat (fsize (Fil s))) (flat img (ff_fs w0) l);
}.

(** What the steps of loading leave alone. *)
Definition frame s s' : Prop := ld_buf s' = ld_buf s ∧ ld_entry s' = ld_entry s.

(** The part of the file from [p] on, at most [n] bytes. *)
Definition part (F : list Z) (p n : Z) : list Z := take (Z.to_nat n) (drop (Z.to_nat p) F).

Lemma part_slice fs l size F p n :
  F = take (Z.to_nat size) (flat img fs l) -> 0 <= size -> 0 <= p -> 0 <= n ->
  slice img fs l (Z.min p size) (Z.min n (size - Z.min p size)) = part F p n.
Proof.
  intros -> Hs Hp Hn. unfold slice, part. rewrite skipn_firstn_comm, take_take.
  destruct (decide (p <= size)).
  - rewrite (Z.min_l p size) by lia. f_equal. lia.
  - rewrite (Z.min_r p size) by lia. replace (Z.to_nat (Z.min n (size - size))) with 0%nat by lia.
    by replace (Z.to_nat n `min` (Z.to_nat size - Z.to_nat p))%nat with 0%nat by lia.
Qed.

Lemma wp_ld_say fmt args s (Q : unit -> loader DK -> Prop) :
  (forall o, Q tt (set_ld_out o s)) -> wp (say fmt args) s Q.
Proof. intros HQ. apply wp_modify, HQ. Qed.

(** Seeking and reading: [s'] differs in the file, the volume and the output. *)
Definition moved w0 l F s s' : Prop := file_open w0 l F s' ∧ frame s s' ∧ ld_mem s' = ld_mem s ∧ fsize (Fil s') = fsize (Fil s).

Lemma moved_trans w0 l F s1 s2 s3 : moved w0 l F s1 s2 -> moved w0 l F s2 s3 -> moved w0 l F s1 s3.
Proof. intros (_ & [? ?] & ? & ?) (? & [? ?] & ? & ?). unfold moved, frame. split_and!; congruence || done. Qed.

Lemma moved_out w0 l F s o : file_open w0 l F s -> moved w0 l F s (set_ld_out o s).
Proof. intros []. unfold moved, frame. split_and!; done. Qed.

Lemma wp_seek_file w0 l F ofs s (Q : FRESULT -> loader DK -> Prop) :
  file_open w0 l F s -> 0 <= ofs ->
  (forall s', moved w0 l F s s' -> fptr (Fil s') = Z.min ofs (fsize (Fil s)) -> Q FR_OK s') ->
  wp (seek_file ofs) s Q.
Proof.
  intros [Hv Hf Hd] Ho HQ. unfold seek_file. apply wp_bind, wp_gets, wp_bind, wp_zoom.
  eapply wp_mono; [apply (f_lseek_spec P img _ l); [by eapply same_wok|by eapply file_ok_same|done]|].
  intros r w' (Hs & fp' & -> & Hf' & Hp & Hz). cbn beta iota. apply wp_bind, wp_modify, wp_ret, HQ; [|done].
  split_and!; try done. constructor; simpl; [by eapply same_trans|by apply (file_ok_back P img w0 (ld_ff s))|by rewrite Hz].
Qed.

Lemma wp_read_file w0 l F n s (Q : FRESULT * list Z -> loader DK -> Prop) :
  file_open w0 l F s -> 0 <= n < 2^32 ->
  (forall s', moved w0 l F s s' ->
    Q (FR_OK, slice img (ff_fs w0) l (fptr (Fil s)) (Z.min n (fsize (Fil s) - fptr (Fil s)))) s') ->
  wp (read_file n) s Q.
Proof.
  intros [Hv Hf Hd] Ho HQ. unfold read_file. apply wp_bind, wp_gets, wp_bind, wp_zoom. rewrite u32_small by (unfold is_u32; lia).
  eapply wp_mono; [apply (f_read_spec P img _ l); [by eapply same_wok|by eapply file_ok_same|lia]|].
  intros r w' (Hs & fp' & -> & Hf' & Hp & Hz). cbn beta iota. destruct (same_fields _ _ _ _ Hv) as (_ & _ & _ & _ & _ & _ & _ & Efl & _).
  unfold slice at 1. rewrite Efl. apply wp_bind, wp_modify, wp_ret, HQ.
  split_and!; try done. constructor; simpl; [by eapply same_trans|by apply (file_ok_back P img w0 (ld_ff s))|by rewrite Hz].
Qed.

(** A segment that the loader handles without arithmetic overflow. *)
Record ph_ok ph : Prop := {
  po_off : 0 <= p_offset ph;
  po_vaddr : 0 <= p_vaddr ph < 2^32;
  po_filesz : 0 <= p_filesz ph <= 2^31 - CHUNK_SIZE;
  po_end : p_offset ph + p_filesz ph < 2^32;
  po_memsz : 0 <= p_memsz ph < 2^32;
}.

(** Memory and file after a part of the loading. *)
Definition loads w0 l F (f : mem -> mem) s s' : Prop :=
  file_open w0 l F s' ∧ frame s s' ∧ meq (ld_mem s') (f (ld_mem s)).

Lemma length_part F p n : 0 <= n -> Z.of_nat (length (part F p n)) <= n.
Proof. intros Hn. unfold part. rewrite length_take. lia. Qed.

Lemma part_app F p n m : 0 <= p -> 0 <= n -> 0 <= m ->
  part F p n ++ part F (p + n) m = part F p (n + m).
Proof.
  intros Hp Hn Hm. unfold part. rewrite (Z2Nat.inj_add n), (Z2Nat.inj_add p) by lia. rewrite <- drop_drop.
  apply take_take_drop.
Qed.

(** Storing consecutive parts of the file at consecutive addresses. *)
Lemma store_parts F a p n k m :
  0 <= p -> 0 <= n -> 0 <= k -> n + k <= 2^32 ->
  meq (mem_store (u32 (a + n)) (part F (p + n) k) (mem_store a (part F p n) m)) (mem_store a (part F p (n + k)) m).
Proof.
  intros Hp Hn Hk Hl. pose proof (length_part F p n Hn) as H1. pose proof (length_part F (p + n) k Hk) as H2.
  rewrite <- part_app by lia. destruct (decide (Z.of_nat (length (part F p n)) = n)) as [E|E].
  - rewrite <- mem_store_app by lia. by rewrite E.
  - assert (part F (p + n) k = []) as ->; [|by rewrite app_nil_r, mem_store_nil].
    unfold part in *. rewrite length_take, length_drop in E. rewrite drop_ge by lia. apply take_nil.
Qed.

Lemma chunk_loop_spec w0 l F ph fuel : forall c s,
  ph_ok ph -> file_open w0 l F s -> 0 <= c < 2^31 -> (1 <= fuel)%nat -> p_filesz ph - c <= (Z.of_nat fuel - 1) * CHUNK_SIZE ->
  wp (chunk_loop fuel ph c) s (λ r s', r = true ∧
    loads w0 l F (mem_store (u32 (p_vaddr ph + c)) (part F (p_offset ph + c) (p_filesz ph - c))) s s').
Proof.
  induction fuel as [|fuel IH]; intros c s Hph Hs Hc Hf Hm; [lia|]. destruct (Hph) as [Ho Hv Hz He _]. cbn [chunk_loop].
  unfold CHUNK_SIZE in *. rewrite (u32_small c) by (unfold is_u32; lia). case_bool_decide as Hlt.
  2: { apply wp_ret. split; [done|]. split; [done|]. split; [done|]. unfold part. replace (Z.to_nat (p_filesz ph - c)) with 0%nat by lia. by rewrite mem_store_nil. }
  rewrite (s32_small (p_filesz ph - c)) by lia. set (n := if bool_decide (32768 < p_filesz ph - c) then _ else _).
  assert (n = Z.min 32768 (p_filesz ph - c)) as En by (unfold n; case_bool_decide; lia). clearbody n.
  rewrite (u32_small (p_offset ph + c)) by (unfold is_u32; lia).
  apply wp_bind, (wp_seek_file w0 l F); [done|lia|]. intros s1 H1 Hp1. rewrite bool_decide_eq_false_2 by auto.
  apply wp_bind, wp_ld_say. intros o. destruct H1 as (Ho1 & Hf1 & Hm1 & Hz1).
  apply wp_bind, (wp_read_file w0 l F); [by destruct Ho1|lia|]. intros s2 (Ho2 & Hf2 & Hm2 & Hz2). cbn beta iota.
  change (Fil (set_ld_out o s1)) with (Fil s1). rewrite Hp1, Hz1.
  destruct Hs as [Hs1 Hs2 Hs3]. pose proof (fo_pos _ _ _ _ Hs2) as Hpos.
  rewrite (part_slice (ff_fs w0) l (fsize (Fil s)) F) by (done || lia).
  apply wp_bind, wp_modify. rewrite bool_decide_eq_false_2 by auto. rewrite bool_decide_eq_false_2 by lia.
  match goal with |- wp _ ?x _ => set (s3 := x) end.
  eapply wp_mono; [apply (IH (c + 32768) s3); [done|by destruct Ho2|lia|lia|lia]|].
  intros r s4 (-> & Ho4 & Hf4 & Hm4). split; [done|]. split; [done|]. split.
  { unfold frame in *. simpl in *. destruct Hf1, Hf2, Hf4. split; congruence. }
  rewrite Hm4. change (ld_mem s3) with (mem_store (u32 (p_vaddr ph + c)) (part F (p_offset ph + c) n) (ld_mem s2)).
  rewrite Hm2. change (ld_mem (set_ld_out o s1)) with (ld_mem s1). rewrite Hm1.
  destruct (decide (p_filesz ph - c <= 32768)) as [Hlast|Hmore].
  - replace (part F (p_offset ph + (c + 32768)) (p_filesz ph - (c + 32768))) with (@nil Z).
    2: { unfold part. by replace (Z.to_nat (p_filesz ph - (c + 32768))) with 0%nat by lia. }
    rewrite mem_store_nil. by replace n with (p_filesz ph - c) by lia.
  - replace n with 32768 by lia. rewrite (Z.add_assoc (p_offset ph)).
    replace (u32 (p_vaddr ph + (c + 32768))) with (u32 (u32 (p_vaddr ph + c) + 32768)) by (unfold u32; rewrite Zplus_mod_idemp_l; f_equal; lia).
    rewrite store_parts by lia. by replace (32768 + (p_filesz ph - (c + 32768))) with (p_filesz ph - c) by lia.
Qed.

(** The effect of a segment on the memory: the bytes of the file, then zeros. *)
Definition seg_mem F ph (m : mem) : mem :=
  if bool_decide (p_type ph = 1) then
    let m := mem_store (p_vaddr ph) (part F (p_offset ph) (p_filesz ph)) m in
    if bool_decide (p_filesz ph < p_memsz ph)
    then memset (u32 (p_vaddr ph + p_filesz ph)) 0 (p_memsz ph - p_filesz ph) m else m
  else m.

#[local] Instance seg_mem_proper F ph : Proper (meq ==> meq) (seg_mem F ph).
Proof.
  intros m m' E. unfold seg_mem. case_bool_decide; [|done]. cbn zeta. case_bool_decide; by rewrite E.
Qed.

Lemma load_segment_spec w0 l F i ph s :
  ph_ok ph -> file_open w0 l F s ->
  wp (load_segment i ph) s (λ r s', r = true ∧ loads w0 l F (seg_mem F ph) s s').
Proof.
  intros Hph Hs. destruct (Hph) as [Ho Hv Hz He _]. unfold load_segment, seg_mem. apply wp_bind, wp_ld_say. intros o.
  case_bool_decide as Ht; [|apply wp_ret; split; [done|]; split; [by destruct Hs|done]].
  assert (wp (if bool_decide (0 < p_filesz ph) then chunk_loop (chunk_fuel ph) ph 0 else mret true) (set_ld_out o s)
    (λ r s', r = true ∧ loads w0 l F (mem_store (p_vaddr ph) (part F (p_offset ph) (p_filesz ph))) s s')) as Hc.
  { case_bool_decide as H0.
    - pose proof (Z.div_mod (p_filesz ph) CHUNK_SIZE ltac:(done)). pose proof (Z.mod_pos_bound (p_filesz ph) CHUNK_SIZE ltac:(done)).
      pose proof (Z.div_pos (p_filesz ph) CHUNK_SIZE ltac:(lia) ltac:(done)). unfold chunk_fuel.
      eapply wp_mono; [apply (chunk_loop_spec w0 l F ph); [done|by destruct Hs|lia|lia|unfold CHUNK_SIZE in *; lia]|].
      rewrite !Z.add_0_r, Z.sub_0_r, u32_small by (unfold is_u32; lia). intros r s' [-> Hl]. split; [done|exact Hl].
    - apply wp_ret. split; [done|]. split; [by destruct Hs|]. split; [done|]. replace (p_filesz ph) with 0 by lia. by rewrite mem_store_nil. }
  apply wp_bind. eapply wp_mono; [exact Hc|]. intros r s1 (-> & Ho1 & Hf1 & Hm1). clear Hc. simpl negb. cbn zeta.
  case_bool_decide; [|by apply wp_ret]. apply wp_bind, wp_ld_say. intros o2. apply wp_bind, wp_modify, wp_ret.
  split; [done|]. split; [by destruct Ho1|]. split; [done|]. cbn [ld_mem set_ld_mem set_ld_out]. by rewrite Hm1.
Qed.

(** The program headers in the buffer. *)
Definition headers (b : list Z) (eh : Elf32_Ehdr) (i : Z) (phs : list Elf32_Phdr) : Prop :=
  forall k ph, phs !! k = Some ph -> read_phdr b (s32 (e_phoff eh) + e_phentsize eh * (i + Z.of_nat k)) = Some ph.

Definition segs_mem F (phs : list Elf32_Phdr) (m : mem) : mem := foldl (λ m ph, seg_mem F ph m) m phs.

#[local] Instance segs_mem_proper F phs : Proper (meq ==> meq) (segs_mem F phs).
Proof.
  unfold segs_mem. induction phs as [|ph phs IH]; intros m m' E; [done|]. simpl. apply IH. by rewrite E.
Qed.

Lemma segments_spec w0 l F eh phs : forall i s,
  Forall ph_ok phs -> headers (ld_buf s) eh i phs -> file_open w0 l F s ->
  wp (segments (length phs) i eh) s (λ r s', r = true ∧ loads w0 l F (segs_mem F phs) s s').
Proof.
  induction phs as [|ph phs IH]; intros i s Hok Hh Hs; cbn [segments length].
  - apply wp_ret. split; [done|]. split; [done|]. split; [by split|]. by intros x.
  - apply Forall_cons_iff in Hok as [Hph Hok]. apply wp_bind, wp_gets, wp_bind.
    pose proof (Hh 0%nat ph eq_refl) as E0. rewrite Z.add_0_r in E0. eapply wp_lift; [exact E0|].
    apply wp_bind. eapply wp_mono; [by apply (load_segment_spec w0 l F)|]. intros r s1 (-> & Ho1 & Hf1 & Hm1).
    eapply wp_mono; [apply (IH (i + 1)); [done| |done]|].
    { intros k ph' Ek. destruct Hf1 as [-> _]. specialize (Hh (S k) ph' Ek). rewrite <- Hh. do 3 f_equal. lia. }
    intros r s2 (-> & Ho2 & Hf2 & Hm2). split; [done|]. split; [done|]. split.
    { destruct Hf1, Hf2. split; congruence. }
    rewrite Hm2, Hm1. done.
Qed.

(** ** The whole program *)

Definition boot_name : name83 := Name83 [98; 111; 111; 116] [101; 108; 102].

(** The loader before the command: its buffers, and a card that initialises. *)
Record loader_ready s : Prop := {
  lr_win : length (win (ff_fs (ld_ff s))) = 512%nat;
  lr_fil : length (buf (Fil s)) = 512%nat;
  lr_card : wp (dk_initialize 0) (ff_disk (ld_ff s)) (λ st d, Z.land st FatFs.STA_NOINIT = 0 ∧ P d);
}.

(** The image is a FAT volume with boot record in sector [b]; [fs] is the
    object that mounting it makes. *)
Record volume_ok s b (fs : FATFS) : Prop := {
  vo_vbr : vbr_at img b;
  vo_fits : bpb_fits (img b) b;
  vo_bpb : bpb_ok (img b);
  vo_fs : fs = mounted_vol 0 (Fsid (ld_ff s)) (img b) b;
}.

(** It has a file boot.elf with the contents [F]. *)
Definition boot_file fs (F : list Z) : Prop := exists k i l,
  let e := dir_entry img (dir_sectors fs k) i in
  resolves img fs 0 [boot_name] (At k i) ∧ Z.land (entry_attr e) AM_DIR = 0 ∧
  file_data img fs e l ∧ F = take (Z.to_nat (entry_size e)) (flat img fs l).

Lemma wp_f_mount w (Q : FRESULT -> ff DK -> Prop) :
  (forall w', fs_type (ff_fs w') = 0 -> FatFs w' = true -> win (ff_fs w') = win (ff_fs w) -> ff_disk w' = ff_disk w -> Fsid w' = Fsid w -> Q FR_OK w') ->
  wp (f_mount 0 true) w Q.
Proof.
  intros HQ. unfold f_mount. rewrite bool_decide_eq_false_2 by lia. apply wp_bind, wp_gets, wp_bind. unfold fs_mod.
  destruct (FatFs w); [apply wp_modify|apply wp_ret]; apply wp_bind, wp_modify, wp_bind, wp_modify, wp_ret; by apply HQ.
Qed.

(** Mounting: the volume that [f_open] finds. *)
Lemma wp_mount_for_open s b fs w :
  loader_ready s -> volume_ok s b fs ->
  fs_type (ff_fs w) = 0 -> FatFs w = true -> win (ff_fs w) = win (ff_fs (ld_ff s)) -> ff_disk w = ff_disk (ld_ff s) -> Fsid w = Fsid (ld_ff s) ->
  exists w0, ff_fs w0 = fs ∧
    wp (chk_mounted (path_text [boot_name])) w (λ r w', r = (FR_OK, true, path_text [boot_name]) ∧ FatRead.same P img w0 w').
Proof.
  intros [Hl _ Hi] [Hv Hf Hok ->] Ht Hr Ew Ed Ei.
  pose proof (chk_mounted_mounts P img (path_text [boot_name]) w) as Hm. rewrite Ew, Ed in Hm.
  apply wp_run in Hm as (r & w' & E & Hd & Hr' & [(b' & Hb' & -> & _ & wx & Ef & Ewx & Eix & Edx)|(_ & Hno & _)]); try done.
  2: { by destruct (Hno b Hv). }
  2: { intros b' Hb'. by rewrite (vbr_at_unique img b' b Hb' Hv). }
  assert (b' = b) as -> by (by apply (vbr_at_unique img)).
  unfold mounted_fs in Ef. rewrite Ewx, Eix, Edx, Ei in Ef. exists w'. split; [done|]. apply wp_run. eexists _, _. split; [exact E|].
  split; [done|]. apply same_refl. pose proof (mounted_layout wx b) as Hlay. cbn zeta in Hlay. rewrite Ewx in Hlay.
  destruct (Hlay (img_sector P img b) Hf Hok) as [Hg _]. unfold mounted_fs in Hg. rewrite Ewx, Eix, Edx, Ei in Hg.
  constructor; rewrite ?Ef; try done; [apply (sector_len P img)|by left].
Qed.

(** Opening the file: the program is ready to read it. *)
Lemma wp_open_boot dir0 s b fs F (Q : FRESULT * FIL -> loader DK -> Prop) w :
  loader_ready s -> volume_ok s b fs -> boot_file fs F ->
  fs_type (ff_fs w) = 0 -> FatFs w = true -> win (ff_fs w) = win (ff_fs (ld_ff s)) -> ff_disk w = ff_disk (ld_ff s) -> Fsid w = Fsid (ld_ff s) ->
  (forall w0 w' l fp, ff_fs w0 = fs -> file_open w0 l F (set_Fil fp (set_ld_ff w' s)) -> fptr fp = 0 -> Q (FR_OK, fp) (set_ld_ff w' s)) ->
  wp (fat (f_open dir0 (Fil s) boot_path FA_READ)) (set_ld_ff w s) Q.
Proof.
  intros Hs Hv (k & i & l & Hr & Ha & Hd & EF) Ht Hreg Ew Ed Ei HQ.
  destruct (wp_mount_for_open s b fs w Hs Hv Ht Hreg Ew Ed Ei) as (w0 & E0 & Hm). subst fs. apply wp_zoom.
  change boot_path with (path_text [boot_name]). change (ld_ff (set_ld_ff w s)) with w.
  eapply wp_mono; [apply (f_open_spec P img dir0 w0 w [boot_name] _ (Fil s) FA_READ Hr Hm)|]. intros r w' [Hsm Ho].
  unfold opened in Ho. rewrite bool_decide_eq_false_2 in Ho by tauto. subst r.
  apply (HQ w0 w' l); [done| |done]. constructor; [done| |done].
  apply (opened_file_ok P img); [done|apply (lr_fil _ Hs)].
Qed.

(** The first block of the file in the buffer of the loader. *)
Definition header_block s F : list Z := buf_store (take 512 F) (ld_buf s).

(** [bootelf] up to the header: the file is open and its first block is in the
    buffer. *)
Lemma wp_bootelf_head {A} dir0 s b fs F (k : FRESULT * list Z -> ST (loader DK) A) (Q : A -> loader DK -> Prop) :
  loader_ready s -> volume_ok s b fs -> boot_file fs F ->
  (forall w0 l s', ff_fs w0 = fs -> file_open w0 l F s' -> frame s s' -> ld_mem s' = ld_mem s -> wp (k (FR_OK, take 512 F)) s' Q) ->
  forall f : FRESULT -> ST (loader DK) A,
  wp (fat (f_mount 0 true);;
      fp ← gets Fil;
      r ← fat (f_open dir0 fp boot_path FA_READ);
      let '(rc, fp) := r in
      modify (set_Fil fp);;
      if bool_decide (rc ≠ FR_OK) then f rc else
      r ← read_file MMC_BLOCK_SIZE;
      k r) s Q.
Proof.
  intros Hs Hv Hf HQ f. apply wp_bind, wp_zoom, wp_f_mount. intros w Ht Hreg Ew Ed Ei. apply wp_bind, wp_gets.
  change (Fil (set_ld_ff w s)) with (Fil s). apply wp_bind, (wp_open_boot dir0 s b fs F); try done.
  intros w0 w' l fp E0 Ho Hp. cbn beta iota. apply wp_bind, wp_modify. rewrite bool_decide_eq_false_2 by auto.
  apply wp_bind, (wp_read_file w0 l F); [done|unfold MMC_BLOCK_SIZE; lia|]. intros s2 (Ho2 & Hf2 & Hm2 & _).
  destruct (Ho) as [_ Hf0 EF]. pose proof (fo_pos _ _ _ _ Hf0) as Hpos.
  cbn [Fil set_Fil] in *. rewrite Hp in *. pose proof (part_slice (ff_fs w0) l (fsize fp) F 0 MMC_BLOCK_SIZE EF ltac:(lia) ltac:(lia) ltac:(done)) as Ep.
  rewrite (Z.min_l 0) in Ep by lia. rewrite Ep. unfold part. rewrite drop_0. change (Z.to_nat MMC_BLOCK_SIZE) with 512%nat.
  by apply (HQ w0 l s2).
Qed.

Lemma bootelf_spec dir0 s b fs F eh phs :
  loader_ready s -> volume_ok s b fs -> boot_file fs F ->
  read_ehdr (header_block s F) = Some eh -> take 4 (e_ident eh) = ELFMAG -> (7 <= length (e_ident eh))%nat ->
  e_phnum eh = Z.of_nat (length phs) -> headers (header_block s F) eh 0 phs -> Forall ph_ok phs ->
  wp (bootelf dir0) s (λ r s', r = 0 ∧ ld_entry s' = Some (e_entry eh) ∧ meq (ld_mem s') (segs_mem F phs (ld_mem s))).
Proof.
  intros Hs Hv Hf He Hmag Hlen Hn Hh Hok. unfold bootelf. apply (wp_bootelf_head dir0 s b fs F); [done..|].
  intros w0 l s1 E0 Ho1 [Hb1 _] Hm1. cbn beta iota. apply wp_bind, wp_modify. rewrite bool_decide_eq_false_2 by auto.
  apply wp_bind, wp_gets, wp_bind. cbn [ld_buf set_ld_buf]. rewrite Hb1. eapply wp_lift; [exact He|].
  rewrite bool_decide_eq_false_2 by auto.
  destruct (arr_get_Some (e_ident eh) 4 ltac:(lia)) as (x4 & E4), (arr_get_Some (e_ident eh) 5 ltac:(lia)) as (x5 & E5),
    (arr_get_Some (e_ident eh) 6 ltac:(lia)) as (x6 & E6).
  apply wp_bind. eapply wp_lift; [exact E4|]. apply wp_bind. eapply wp_lift; [exact E5|]. apply wp_bind. eapply wp_lift; [exact E6|].
  do 4 (apply wp_bind, wp_ld_say; intros ?). apply wp_bind. rewrite Hn, Nat2Z.id.
  eapply wp_mono; [apply (segments_spec w0 l F eh phs 0); [done| |by destruct Ho1]|]; [exact Hh|].
  intros r s2 (-> & _ & _ & Hm2). simpl negb. apply wp_bind, wp_ld_say. intros o9. apply wp_bind, wp_modify, wp_ret.
  split_and!; [done|done|]. cbn [ld_mem set_ld_entry set_ld_out]. rewrite Hm2. cbn [ld_mem set_ld_buf set_ld_out]. by rewrite Hm1.
Qed.

Lemma bootelf_bad_magic dir0 s b fs F eh :
  loader_ready s -> volume_ok s b fs -> boot_file fs F ->
  read_ehdr (header_block s F) = Some eh -> take 4 (e_ident eh) ≠ ELFMAG ->
  wp (bootelf dir0) s (λ r s', r = -1 ∧ ld_entry s' = ld_entry s ∧ ld_mem s' = ld_mem s).
Proof.
  intros Hs Hv Hf He Hmag. unfold bootelf. apply (wp_bootelf_head dir0 s b fs F); [done..|].
  intros w0 l s1 E0 Ho1 [Hb1 He1] Hm1. cbn beta iota. apply wp_bind, wp_modify. rewrite bool_decide_eq_false_2 by auto.
  apply wp_bind, wp_gets, wp_bind. cbn [ld_buf set_ld_buf]. rewrite Hb1. eapply wp_lift; [exact He|].
  rewrite bool_decide_eq_true_2 by done. apply wp_bind, wp_ld_say. intros o. by apply wp_ret.
Qed.

Lemma bootelf_no_file dir0 s b fs e :
  loader_ready s -> volume_ok s b fs -> resolves img fs 0 [boot_name] (Missing e) ->
  wp (bootelf dir0) s (λ r s', r = -1 ∧ ld_entry s' = ld_entry s ∧ ld_mem s' = ld_mem s).
Proof.
  intros Hs Hv Hr. unfold bootelf. apply wp_bind, wp_zoom, wp_f_mount. intros w Ht Hreg Ew Ed Ei. apply wp_bind, wp_gets.
  destruct (wp_mount_for_open s b fs w Hs Hv Ht Hreg Ew Ed Ei) as (w0 & <- & Hm). apply wp_bind, wp_zoom.
  change boot_path with (path_text [boot_name]).
  eapply wp_mono; [apply (f_open_spec P img dir0 w0 _ [boot_name] _ (Fil s) FA_READ Hr Hm)|]. intros r w' [_ ->]. cbn beta iota.
  apply wp_bind, wp_modify. rewrite bool_decide_eq_true_2 by (by eapply resolves_missing). apply wp_bind, wp_ld_say. intros o. by apply wp_ret.
Qed.
End loading.

(** ** Properties *)

Section properties.
Context {DK : Type} `{Disk DK} (P : DK -> Prop) (img : Z -> list Z) `{!DiskImage DK P img}.

(** C1: Booting from a card. If the card holds a FAT volume with a file boot.elf
    whose header is in its first 512 bytes, [bootelf] mounts the volume, opens
    and reads the file in chunks and jumps to the entry point with every
    loadable segment in memory: its bytes of the file at its address, followed
    by zeros up to its memory size, the segments in the order of the headers;
    nothing else is changed. *)
Theorem bootelf_loads_program dir0 (s : loader DK) b fs F eh phs :
  loader_ready P s -> volume_ok img s b fs -> boot_file img fs F ->
  read_ehdr (header_block s F) = Some eh -> take 4 (e_ident eh) = ELFMAG -> (7 <= length (e_ident eh))%nat ->
  e_phnum eh = Z.of_nat (length phs) -> headers (header_block s F) eh 0 phs -> Forall ph_ok phs ->
  exists s', bootelf dir0 s = Some (0, s') ∧ ld_entry s' = Some (e_entry eh) ∧
    (forall x, ld_mem s' x = segs_mem F phs (ld_mem s) x).
Proof.
  intros Hs Hv Hf He Hm Hl Hn Hh Hok. pose proof (bootelf_spec P img dir0 s b fs F eh phs Hs Hv Hf He Hm Hl Hn Hh Hok) as Hb.
  apply wp_run in Hb as (r & s' & E & -> & H1 & H2). by exists s'.
Qed.

(** If there is no file boot.elf on the volume, or it does not start with
    the ELF magic number, [bootelf] returns -1, the memory is untouched and
    nothing is started. *)
Theorem bootelf_rejects dir0 (s : loader DK) b fs :
  loader_ready P s -> volume_ok img s b fs ->
  (exists e, resolves img fs 0 [boot_name] (Missing e)) ∨
  (exists F eh, boot_file img fs F ∧ read_ehdr (header_block s F) = Some eh ∧ take 4 (e_ident eh) ≠ ELFMAG) ->
  exists s', bootelf dir0 s = Some (-1, s') ∧ ld_entry s' = ld_entry s ∧ ld_mem s' = ld_mem s.
Proof.
  intros Hs Hv [[e Hr]|(F & eh & Hf & He & Hm)].
  - pose proof (bootelf_no_file P img dir0 s b fs e Hs Hv Hr) as Hb. apply wp_run in Hb as (r & s' & E & -> & H1). by exists s'.
  - pose proof (bootelf_bad_magic P img dir0 s b fs F eh Hs Hv Hf He Hm) as Hb. apply wp_run in Hb as (r & s' & E & -> & H1). by exists s'.
Qed.

(** The number of bytes that [f_read] reports is not checked: if the file
    ends before its segment does, [bootelf] still succeeds and starts the
    program, and the part of the segment beyond the end of the file keeps
    whatever the memory held before. *)
Theorem bootelf_ignores_truncation dir0 (s : loader DK) b fs F eh ph k :
  loader_ready P s -> volume_ok img s b fs -> boot_file img fs F ->
  read_ehdr (header_block s F) = Some eh -> take 4 (e_ident eh) = ELFMAG -> (7 <= length (e_ident eh))%nat ->
  e_phnum eh = 1 -> read_phdr (header_block s F) (s32 (e_phoff eh)) = Some ph -> ph_ok ph ->
  p_type ph = 1 -> p_memsz ph = p_filesz ph ->
  Z.of_nat (length F) - p_offset ph <= k -> 0 <= k < p_filesz ph ->
  exists s', bootelf dir0 s = Some (0, s') ∧ ld_entry s' = Some (e_entry eh) ∧
    ld_mem s' (u32 (p_vaddr ph + k)) = ld_mem s (u32 (p_vaddr ph + k)).
Proof.
  intros Hs Hv Hf He Hm Hl Hn Hh Hok Ht Hms Hk Hk'. destruct (Hok) as [Ho Hva Hz _ _].
  assert (headers (header_block s F) eh 0 [ph]) as Hhs.
  { intros [|i] ph' E; [|by destruct i]. injection E as <-. rewrite <- Hh. f_equal. simpl. lia. }
  pose proof (bootelf_spec P img dir0 s b fs F eh [ph] Hs Hv Hf He Hm Hl Hn Hhs ltac:(by constructor)) as Hb.
  apply wp_run in Hb as (r & s' & E & -> & H1 & H2). exists s'. split_and!; [done|done|]. rewrite H2.
  unfold segs_mem, seg_mem. simpl. rewrite bool_decide_eq_true_2 by done. rewrite bool_decide_eq_false_2 by lia.
  rewrite mem_store_at. assert (u32 (u32 (p_vaddr ph + k) - p_vaddr ph) = k) as ->.
  { rewrite u32_sub_l. replace (p_vaddr ph + k - p_vaddr ph) with k by lia. apply u32_small. unfold is_u32. unfold CHUNK_SIZE in *. lia. }
  rewrite lookup_ge_None_2; [done|]. unfold part. rewrite length_take, length_drop. lia.
Qed.
End properties.

(** ** An example

    The example volume with an ELF file of one segment: 188 bytes of the file
    at address 0x1000 and 12 zeros; and one whose segment is longer than the
    file. *)
Module ElfDemo.

Definition be (n : Z) : list Z := [n / 16777216 mod 256; n / 65536 mod 256; n / 256 mod 256; n mod 256].

(** The header, with a segment of [filesz] and [memsz] bytes. *)
Definition elf_sector (filesz memsz : Z) : list Z :=
  Demo.patch 0 [0x7f; 69; 76; 70; 1; 2; 1] (Demo.patch 24 (be 0x1000 ++ be 52) (Demo.patch 42 [0; 32; 0; 1]
    (Demo.patch 52 (be 1 ++ be 512 ++ be 0x1000 ++ be 0 ++ be filesz ++ be memsz) (replicate 512 0)))).

Definition image (filesz memsz s : Z) : list Z :=
  if bool_decide (s = 3) then elf_sector filesz memsz else Demo.image s.

Definition card (filesz memsz : Z) : Disk unit := ram_disk (image filesz memsz).

Lemma patch_u8 o b l : Forall is_u8 b -> Forall is_u8 l -> Forall is_u8 (Demo.patch o b l).
Proof. intros Hb Hl. unfold Demo.patch. apply Forall_app. split; [by apply Forall_take|]. apply Forall_app. split; [done|by apply Forall_drop]. Qed.

Lemma be_u8 n : Forall is_u8 (be n).
Proof. unfold be. repeat (apply List.Forall_cons; [apply Z.mod_pos_bound; lia|]). apply List.Forall_nil. Qed.

Lemma card_image f m : @DiskImage unit (card f m) (λ _, True) (image f m).
Proof.
  apply ram_disk_image. intros s. unfold image. case_bool_decide; [|apply (@di_sector _ _ _ _ Demo.image_ok)].
  split; [reflexivity|]. unfold elf_sector.
  repeat first [apply patch_u8|apply be_u8|apply Forall_app; split|apply Forall_replicate; unfold is_u8; lia];
    repeat (apply List.Forall_cons; [unfold is_u8; lia|]); apply List.Forall_nil.
Qed.

Definition start : loader unit :=
  MkLoader (MkFF (MkFATFS 0 0 0 0 0 0 0 0 0 0 0 0 0 (replicate 512 0)) false 0 tt) demo_fil (replicate 512 0) (λ _, 0x55) None [].

Lemma start_ready f m : @loader_ready unit (card f m) (λ _, True) start.
Proof. constructor; [reflexivity|reflexivity|]. by apply wp_ret. Qed.

(** The volume as [f_open] mounts it. *)
Definition vol : FATFS := set_win (Demo.image 0) Demo.vol.

Lemma volume (img : Z -> list Z) : img 0 = Demo.image 0 -> volume_ok img start 0 vol.
Proof.
  intros E. constructor; unfold vbr_at; rewrite ?E.
  - left. destruct demo_vbr as [H|(_ & Hn & _)]; [exact H|]. exfalso. apply Hn. split; vm_compute; [reflexivity|by left].
  - exact demo_fits.
  - constructor; try (vm_compute; reflexivity || discriminate); [by left|by exists 0|split; vm_compute; discriminate].
  - vm_compute. reflexivity.
Qed.

Definition contents (f m : Z) : list Z := elf_sector f m ++ replicate 188 4.

Lemma file f m : boot_file (image f m) vol (contents f m).
Proof.
  exists Fixed, 0, [2; 3]. split_and!.
  - apply res_here; [by apply (dir_fixed _ _ _ 1); vm_compute|exact demo_name_ok|reflexivity].
  - reflexivity.
  - constructor; [|by right|vm_compute; discriminate]. constructor; [repeat constructor; vm_compute; discriminate || reflexivity|].
    intros [|[|i]] c c' E E'; simpl in E, E'; simplify_eq. reflexivity.
  - reflexivity.
Qed.
End ElfDemo.

Lemma bootelf_loads_program_witness :
  exists s', @bootelf unit (ElfDemo.card 188 200) demo_dir ElfDemo.start = Some (0, s') ∧ ld_entry s' = Some 0x1000 ∧
    map (ld_mem s') [0xfff; 0x1000; 0x10bb; 0x10bc; 0x10c7; 0x10c8] = [0x55; 4; 4; 0; 0; 0x55].
Proof.
  destruct (@bootelf_loads_program unit (ElfDemo.card 188 200) (λ _, True) (ElfDemo.image 188 200) (ElfDemo.card_image 188 200)
    demo_dir ElfDemo.start 0 ElfDemo.vol (ElfDemo.contents 188 200) (Ehdr [0x7f; 69; 76; 70; 1; 2; 1; 0; 0; 0; 0; 0; 0; 0; 0; 0] 0 0 0 0x1000 52 32 1)
    [Phdr 1 512 0x1000 188 200]) as (s' & E & He & Hm);
    [apply ElfDemo.start_ready|apply ElfDemo.volume; reflexivity|apply ElfDemo.file|vm_compute; reflexivity|vm_compute; reflexivity|simpl; lia|reflexivity|..].
  - intros [|k] ph Ek; [injection Ek as <-; vm_compute; reflexivity|by destruct k].
  - apply List.Forall_cons; [|apply List.Forall_nil]. constructor; simpl; unfold CHUNK_SIZE; lia.
  - exists s'. split; [exact E|]. split; [exact He|]. simpl map. rewrite !Hm. vm_compute. reflexivity.
Defined.

Lemma bootelf_rejects_witness :
  exists s', @bootelf unit Demo.disk_inst demo_dir ElfDemo.start = Some (-1, s') ∧ ld_entry s' = None.
Proof.
  destruct (@bootelf_rejects unit Demo.disk_inst (λ _, True) Demo.image Demo.image_ok demo_dir ElfDemo.start 0 ElfDemo.vol) as (s' & E & He & _);
    [constructor; [reflexivity|reflexivity|by apply wp_ret]|apply ElfDemo.volume; reflexivity| |exists s'; split; [exact E|exact He]].
  right. exists (replicate 512 3 ++ replicate 188 4). exists (Ehdr (replicate 16 3) 0x303 0x303 0x3030303 0x3030303 0x3030303 0x303 0x303).
  split; [|split; [vm_compute; reflexivity|discriminate]]. exists Fixed, 0, [2; 3]. 
  split; [apply res_here; [by apply (dir_fixed _ _ _ 1); vm_compute|exact demo_name_ok|reflexivity]|]. split; [reflexivity|].
  split; [constructor; [by destruct Demo.chain_ok|by right|vm_compute; discriminate]|reflexivity].
Defined.

Lemma bootelf_ignores_truncation_witness :
  exists s', @bootelf unit (ElfDemo.card 400 400) demo_dir ElfDemo.start = Some (0, s') ∧ ld_entry s' = Some 0x1000 ∧
    ld_mem s' (u32 (0x1000 + 200)) = 0x55.
Proof.
  apply (@bootelf_ignores_truncation unit (ElfDemo.card 400 400) (λ _, True) (ElfDemo.image 400 400) (ElfDemo.card_image 400 400)
    demo_dir ElfDemo.start 0 ElfDemo.vol (ElfDemo.contents 400 400) (Ehdr [0x7f; 69; 76; 70; 1; 2; 1; 0; 0; 0; 0; 0; 0; 0; 0; 0] 0 0 0 0x1000 52 32 1)
    (Phdr 1 512 0x1000 400 400) 200);
    [apply ElfDemo.start_ready|apply ElfDemo.volume; reflexivity|apply ElfDemo.file|vm_compute; reflexivity|vm_compute; reflexivity|simpl; lia|reflexivity|vm_compute; reflexivity| |reflexivity|reflexivity|vm_compute; discriminate|simpl; lia].
  constructor; simpl; unfold CHUNK_SIZE; lia.
Defined.
