(* ===== verification/FatTotal.v ===== *)
(** * The file system on any card

    The theorems on FatFs elsewhere are about volumes that are well formed. Here
    nothing is assumed about what is on the card: the FAT may have cycles, the
    parameters of the boot record and the directories may be garbage, reads may
    fail at any time. Every function of the file system still returns, and never
    accesses its buffers, the window or a name outside of their bounds
    ([fat_run_rets]), on every disk whose functions return. *)

From S2P Require Import Prelude FatFs.
Open Scope Z_scope.

(** ** Computations that return *)

(** [m] returns in every state that satisfies [I], with a result in [R]. *)
Section returns.
Context {S : Type} (I : S -> Prop).

Definition rets {A} (m : ST S A) (R : A -> Prop) : Prop := forall s, I s -> wp m s (λ a s', I s' ∧ R a).

Lemma rets_ret {A} (a : A) (R : A -> Prop) : R a -> rets (mret a) R.
Proof. intros H s Hs. by apply wp_ret. Qed.
Lemma rets_bind {A B} (m : ST S A) (k : A -> ST S B) R1 R : rets m R1 -> (forall a, R1 a -> rets (k a) R) -> rets (m ≫= k) R.
Proof. intros Hm Hk s Hs. apply wp_bind. eapply wp_mono; [by apply Hm|]. intros a s' [Hs' Ha]. by apply Hk. Qed.
Lemma rets_mono {A} (m : ST S A) (R1 R : A -> Prop) : rets m R1 -> (forall a, R1 a -> R a) -> rets m R.
Proof. intros Hm H s Hs. eapply wp_mono; [by apply Hm|]. intros a s' [? ?]. auto. Qed.
Lemma rets_gets {A} (f : S -> A) (R : A -> Prop) : (forall s, I s -> R (f s)) -> rets (gets f) R.
Proof. intros H s Hs. apply wp_gets. auto. Qed.
Lemma rets_lift {A} (o : option A) a (R : A -> Prop) : o = Some a -> R a -> rets (lift o) R.
Proof. intros E H s Hs. by apply (wp_lift _ a). Qed.
Lemma rets_modify f : (forall s, I s -> I (f s)) -> rets (modify f) (λ _, True).
Proof. intros H s Hs. apply wp_modify. auto. Qed.
Lemma rets_iter n (body : Z -> ST S unit) : forall i, (forall j, i <= j < i + Z.of_nat n -> rets (body j) (λ _, True)) ->
  rets (iter_up n i body) (λ _, True).
Proof.
  induction n as [|n IH]; intros i Hb; simpl; [by apply rets_ret|]. eapply rets_bind; [apply Hb; lia|]. intros [] _. apply IH. intros j Hj. apply Hb. lia.
Qed.
End returns.

Lemma rets_any {S A} (I : S -> Prop) (m : ST S A) R : rets I m R -> rets I m (λ _, True).
Proof. intros H. by eapply rets_mono. Qed.

(** The next statement of a sequence. *)
Ltac rstep tac := eapply rets_bind; [tac|cbn beta].
Ltac rskip := rstep ltac:(by apply (rets_gets _ _ (λ _, True))); intros ? _.

Definition bytes (l : list Z) : Prop := Forall is_u8 l.

Lemma arr_get_byte l i : bytes l -> 0 <= i < Z.of_nat (length l) -> exists x, arr_get l i = Some x ∧ is_u8 x.
Proof.
  intros Hl Hi. rewrite arr_get_lookup by lia. destruct (lookup_lt_is_Some_2 l (Z.to_nat i)) as [x Hx]; [lia|].
  exists x. split; [done|]. by eapply Forall_lookup in Hl.
Qed.

Lemma buf_store_length data b : (length data <= length b)%nat -> length (buf_store data b) = length b.
Proof. intros. unfold buf_store. rewrite length_app, length_drop. lia. Qed.

Lemma buf_store_bytes data b : bytes data -> bytes b -> bytes (buf_store data b).
Proof. intros. apply Forall_app. split; [done|]. by apply Forall_drop. Qed.

(** ** Disks that answer *)

(** Whatever a disk holds, its functions return, and a read does not store
    more than the sectors that were asked for. *)
Class DiskTotal (D : Type) `{Disk D} (P : D -> Prop) : Prop := {
  dt_initialize drv : rets P (dk_initialize drv) (λ _, True);
  dt_status drv : rets P (dk_status drv) (λ _, True);
  dt_read drv sector count : 0 <= count ->
    rets P (dk_read drv sector count) (λ r, Z.of_nat (length r.2) <= 512 * count ∧ bytes r.2);
}.

Section total.
Context {D : Type} `{Disk D} (P : D -> Prop) `{!DiskTotal D P}.
Implicit Types (w : ff D) (dj : DIR) (fp : FIL).

(** The window is a sector. *)
Record win_ok w : Prop := {
  wo_len : length (win (ff_fs w)) = 512%nat;
  wo_bytes : bytes (win (ff_fs w));
  wo_disk : P (ff_disk w);
}.
Definition cs_ok w : Prop := 1 <= csize (ff_fs w) < 256.
(** A volume is mounted; a volume may be mounted; none is. *)
Definition live w : Prop := win_ok w ∧ cs_ok w.
Definition good w : Prop := win_ok w ∧ (fs_type (ff_fs w) ≠ 0 -> cs_ok w).
Definition idle w : Prop := win_ok w ∧ fs_type (ff_fs w) = 0.

(** The disk and the window do not matter for the rest. *)
Definition same_fs w w' : Prop :=
  csize (ff_fs w') = csize (ff_fs w) ∧ fs_type (ff_fs w') = fs_type (ff_fs w) ∧ fs_id (ff_fs w') = fs_id (ff_fs w) ∧ FatFs w' = FatFs w.
Class Closed (I : ff D -> Prop) : Prop := {
  cl_win w : I w -> win_ok w;
  cl_same w w' : I w -> win_ok w' -> same_fs w w' -> I w';
}.
#[local] Instance win_closed : Closed win_ok.
Proof. by split. Qed.
#[local] Instance live_closed : Closed live.
Proof. split; [by intros w []|]. intros w w' [_ Hc] Hw (E & _). split; [done|]. unfold cs_ok in *. by rewrite E. Qed.
#[local] Instance good_closed : Closed good.
Proof. split; [by intros w []|]. intros w w' [_ Hc] Hw (E & E' & _). split; [done|]. unfold cs_ok in *. by rewrite E, E'. Qed.
#[local] Instance idle_closed : Closed idle.
Proof. split; [by intros w []|]. intros w w' [_ Hc] Hw (_ & E & _). split; [done|]. by rewrite E. Qed.

Section access.
Context (I : ff D -> Prop) `{!Closed I}.

Lemma rets_disk {A} (m : ST D A) R : rets P m R -> rets I (disk m) R.
Proof using Closed0.
  intros Hm w Hw. pose proof (cl_win w Hw) as [? ? ?]. apply wp_zoom. eapply wp_mono; [by apply Hm|]. intros a d [Hd Ha]. split; [|done].
  eapply cl_same; [done|by constructor|done].
Qed.

Lemma rets_read_win sector : rets I (read_win sector) (λ _, True).
Proof using Closed0 DiskTotal0.
  unfold read_win. rskip. rstep ltac:(apply rets_disk, dt_read; lia). intros [ok data] [Hl Hb]. simpl in Hl, Hb. eapply rets_bind; [|intros [] _; by apply rets_ret].
  apply rets_modify. intros w Hw. pose proof (cl_win w Hw) as [Hlen ? ?]. eapply cl_same; [done| |done]. constructor; simpl; [|by apply buf_store_bytes|done].
  rewrite buf_store_length; lia.
Qed.

Lemma rets_winsect x : rets I (fs_mod (set_winsect x)) (λ _, True).
Proof using Closed0. apply rets_modify. intros w Hw. pose proof (cl_win w Hw) as []. eapply cl_same; [done|by constructor|done]. Qed.

Lemma rets_move_window sector : rets I (move_window sector) (λ _, True).
Proof using Closed0 DiskTotal0.
  unfold move_window. rskip. case_bool_decide; [|by apply rets_ret]. case_bool_decide; [|by apply rets_ret].
  rstep ltac:(apply rets_read_win). intros [] _; [|by apply rets_ret]. rstep ltac:(apply rets_winsect). intros [] _. by apply rets_ret.
Qed.

Lemma rets_win {A} (k : list Z -> ST (ff D) A) R : (forall l, length l = 512%nat -> bytes l -> rets I (k l) R) -> rets I (l ← fs_get win; k l) R.
Proof using Closed0.
  intros Hk. rstep ltac:(apply (rets_gets _ _ (λ l, length l = 512%nat ∧ bytes l)); intros w Hw; by destruct (cl_win w Hw)). intros l [? ?]. by apply Hk.
Qed.

Lemma rets_win_byte i : 0 <= i < 512 -> rets I (win_byte i) is_u8.
Proof using Closed0. intros Hi. apply rets_win. intros l Hl Hb. destruct (arr_get_byte l i Hb) as (x & E & Hx); [lia|]. by apply (rets_lift _ _ x). Qed.

Lemma rets_win_word i : 0 <= i < 511 -> rets I (win_word i) is_u16.
Proof using Closed0.
  intros Hi. apply rets_win. intros l Hl Hb. destruct (arr_get_byte l i Hb) as (x & E & _); [lia|].
  destruct (arr_get_byte l (i + 1) Hb) as (y & E' & _); [lia|]. eapply rets_lift; [unfold LD_WORD; rewrite E'; simpl; by rewrite E|]. apply u16_range.
Qed.

Lemma rets_win_dword i : 0 <= i < 509 -> rets I (win_dword i) is_u32.
Proof using Closed0.
  intros Hi. apply rets_win. intros l Hl Hb. destruct (arr_get_byte l i Hb) as (x & E & _); [lia|].
  destruct (arr_get_byte l (i + 1) Hb) as (y & E1 & _); [lia|]. destruct (arr_get_byte l (i + 2) Hb) as (z & E2 & _); [lia|].
  destruct (arr_get_byte l (i + 3) Hb) as (u & E3 & _); [lia|].
  eapply rets_lift; [unfold LD_DWORD; rewrite E3; simpl; rewrite E2; simpl; rewrite E1; simpl; by rewrite E|]. apply u32_range.
Qed.
End access.

(** ** The FAT and directories *)

Abbreviation lv := (rets live).

Lemma rets_fs {A} (k : FATFS -> ST (ff D) A) R : (forall fs, 1 <= csize fs < 256 -> lv (k fs) R) -> lv (fs ← gets ff_fs; k fs) R.
Proof using. intros Hk. rstep ltac:(apply (rets_gets _ _ (λ fs, 1 <= csize fs < 256)); by intros w []). apply Hk. Qed.

Lemma get_fat_rets clst : lv (get_fat clst) (λ _, True).
Proof using DiskTotal0.
  unfold get_fat. rskip. case_bool_decide; [by apply rets_ret|]. case_bool_decide; [|case_bool_decide; [|case_bool_decide; [|by apply rets_ret]]];
    (rstep ltac:(apply rets_move_window; apply _); intros r _; case_bool_decide; [by apply rets_ret|]).
  - rstep ltac:(apply rets_win_byte; [apply _|]; unfold SS; apply Z.mod_pos_bound; lia). intros x _.
    rstep ltac:(apply rets_move_window; apply _). intros r' _. case_bool_decide; [by apply rets_ret|].
    rstep ltac:(apply rets_win_byte; [apply _|]; unfold SS; apply Z.mod_pos_bound; lia). intros y _. by apply rets_ret.
  - apply (rets_any _ _ is_u16), rets_win_word; [apply _|]. unfold SS, u32. Z.to_euclidean_division_equations. lia.
  - eapply rets_bind; [apply rets_win_dword; [apply _|]|intros; by apply rets_ret]. unfold SS, u32. Z.to_euclidean_division_equations. lia.
Qed.

Lemma clust2sect_rets clst : lv (clust2sect clst) (λ _, True).
Proof using. unfold clust2sect. rskip. by apply rets_ret. Qed.

(** The directory object is at an entry. *)
Definition entry_ptr (o : option Z) : Prop := exists d, o = Some d ∧ 0 <= d <= 480.
Definition at_entry dj : Prop := 0 <= index dj < 2^16 ∧ entry_ptr (dir dj).
Definition same_obj dj dj' : Prop := fn dj' = fn dj ∧ dj_fs dj' = dj_fs dj.

Lemma entry_offset i : entry_ptr (Some ((i mod (SS / SZ_DIR)) * SZ_DIR)).
Proof using. eexists. split; [done|]. change (SS / SZ_DIR) with 16. unfold SZ_DIR. pose proof (Z.mod_pos_bound i 16). lia. Qed.

Lemma dir_sdi_rets dj : lv (dir_sdi dj 0) (λ r, same_obj dj r.2 ∧ (r.1 = FR_OK -> at_entry r.2 ∧ index r.2 = 0) ∧ (at_entry dj -> at_entry r.2)).
Proof using DiskTotal0.
  assert (forall res dj', res ≠ FR_OK -> same_obj dj dj' -> index dj' = 0 -> dir dj' = dir dj -> lv (mret (res, dj'))
    (λ r, same_obj dj r.2 ∧ (r.1 = FR_OK -> at_entry r.2 ∧ index r.2 = 0) ∧ (at_entry dj -> at_entry r.2))) as Herr.
  { intros res dj' Hr Hs Hi Hd. apply rets_ret. split; [done|]. split; [done|]. intros [_ ?]. split; simpl; [rewrite Hi; lia|by rewrite Hd]. }
  assert (forall dj' o, same_obj dj dj' -> index dj' = 0 -> entry_ptr o -> lv (mret (FR_OK, set_dir o dj'))
    (λ r, same_obj dj r.2 ∧ (r.1 = FR_OK -> at_entry r.2 ∧ index r.2 = 0) ∧ (at_entry dj -> at_entry r.2))) as Hok.
  { intros dj' o Hs Hi Ho. assert (at_entry (set_dir o dj')) by (split; [simpl; rewrite Hi; lia|done]). by apply rets_ret. }
  unfold dir_sdi. apply rets_fs. intros fs Hcs. cbn zeta. case_bool_decide; [by apply Herr|].
  generalize (if bool_decide (dj_sclust (set_index 0 dj) = 0 ∧ fs_type fs = FS_FAT32) then dirbase fs else dj_sclust (set_index 0 dj)). intros cl. case_bool_decide.
  - case_bool_decide; [by apply Herr|]. apply Hok; [done|done|apply entry_offset].
  - assert (u16 (SS / SZ_DIR * csize fs) = 16 * csize fs) as -> by (change (SS / SZ_DIR) with 16; apply u16_small; unfold is_u16; lia).
    apply (rets_bind _ _ _ (λ _, True)).
    + destruct SDI_FUEL as [|n] eqn:E; [by apply (f_equal Z.of_nat) in E|]. cbn [sdi_loop]. rewrite bool_decide_eq_false_2 by lia. by apply rets_ret.
    + intros [[res cl'] idx] _. case_bool_decide; [by apply Herr|]. rstep ltac:(apply clust2sect_rets). intros s _. apply Hok; [done|done|apply entry_offset].
Qed.

Lemma dir_next_rets dj : at_entry dj ->
  lv (dir_next dj) (λ r, same_obj dj r.2 ∧ at_entry r.2 ∧ (r.1 = FR_OK -> index r.2 = index dj + 1)).
Proof using DiskTotal0.
  intros [Hi Hd]. unfold dir_next. apply rets_fs. intros fs Hcs. cbn zeta. case_bool_decide as H0; [by apply rets_ret|].
  assert (u16 (index dj + 1) = index dj + 1 ∧ index dj + 1 < 2^16) as [-> Hlt].
  { destruct (decide (index dj + 1 = 2^16)) as [E|Hne]; [destruct H0; left; by rewrite E|]. split; [apply u16_small; unfold is_u16|]; lia. }
  assert (forall dj', same_obj dj dj' -> lv (mret (FR_OK, set_dir (Some ((index dj + 1) mod (SS / SZ_DIR) * SZ_DIR)) (set_index (index dj + 1) dj')))
    (λ r, same_obj dj r.2 ∧ at_entry r.2 ∧ (r.1 = FR_OK -> index r.2 = index dj + 1))) as Hdone.
  { intros dj' []. apply rets_ret. repeat split; try done; simpl; try lia. apply entry_offset. }
  case_bool_decide; [|by apply Hdone]. case_bool_decide.
  - case_bool_decide; [by apply rets_ret|]. by apply Hdone.
  - case_bool_decide; [|by apply Hdone]. rstep ltac:(apply get_fat_rets). intros c _. case_bool_decide; [by apply rets_ret|].
    case_bool_decide; [by apply rets_ret|]. case_bool_decide; [by apply rets_ret|]. rstep ltac:(apply clust2sect_rets). intros s _. by apply Hdone.
Qed.

Lemma rets_dir_ptr {A} dj (k : Z -> ST (ff D) A) R : at_entry dj -> (forall d, 0 <= d <= 480 -> lv (k d) R) -> lv (d ← dir_ptr dj; k d) R.
Proof using. intros [_ (d & E & Hd)] Hk. rstep ltac:(apply (rets_lift _ _ d (λ d', d' = d)); [exact E|done]). intros ? ->. by apply Hk. Qed.

Lemma rets_dir_byte d off : 0 <= d <= 480 -> 0 <= off < 32 -> lv (dir_byte d off) is_u8.
Proof using. intros. apply rets_win_byte; [apply _|lia]. Qed.
Lemma rets_dir_word d off : 0 <= d <= 480 -> 0 <= off < 31 -> lv (dir_word d off) is_u16.
Proof using. intros. apply rets_win_word; [apply _|lia]. Qed.

Lemma mem_cmp_total d s n : (n <= length d)%nat -> (n <= length s)%nat -> is_Some (mem_cmp d s n).
Proof using.
  revert d s. induction n as [|n IH]; intros [|x d] [|y s] Hd Hs; simpl in *; try lia; try by eexists. case_bool_decide; [apply IH; lia|by eexists].
Qed.

(** A scan ends: the index grows and has 16 bits. *)
Lemma find_loop_rets fuel : forall dj, at_entry dj -> length (fn dj) = 12%nat -> 2^16 - index dj < Z.of_nat fuel ->
  lv (find_loop fuel dj) (λ r, same_obj dj r.2 ∧ at_entry r.2).
Proof using DiskTotal0.
  induction fuel as [|fuel IH]; intros dj Ha Hf Hfu; [destruct Ha; lia|]. cbn [find_loop].
  rstep ltac:(apply rets_move_window; apply _). intros r _. case_bool_decide; [by apply rets_ret|].
  apply rets_dir_ptr; [done|]. intros d Hd. rstep ltac:(by apply rets_dir_byte). intros c _. case_bool_decide; [by apply rets_ret|].
  rstep ltac:(by apply rets_dir_byte). intros a _. apply rets_win; [apply _|]. intros l Hl Hb.
  apply (rets_bind _ _ _ (λ _, True)).
  { case_bool_decide; [|by apply rets_ret]. destruct (mem_cmp_total (drop (Z.to_nat d) l) (fn dj) 11) as [b E]; [rewrite length_drop; lia|lia|].
    by apply (rets_lift _ _ b). }
  intros [] _; [by apply rets_ret|]. rstep ltac:(by apply dir_next_rets). intros [res dj'] ([Hfn Hfs] & Ha' & Hi). cbn [fst snd] in *.
  case_bool_decide; [|by apply rets_ret]. eapply rets_mono; [apply IH; [done|by rewrite Hfn|rewrite Hi by done; lia]|].
  intros r' [[? ?] ?]. split; [split; congruence|done].
Qed.

Lemma dir_find_rets dj : length (fn dj) = 12%nat -> lv (dir_find dj) (λ r, same_obj dj r.2 ∧ (r.1 = FR_OK -> at_entry r.2)).
Proof using DiskTotal0.
  intros Hf. unfold dir_find. rstep ltac:(apply dir_sdi_rets). intros [res dj'] ([Hfn Hfs] & Ha & _). cbn [fst snd] in *. case_bool_decide; [by apply rets_ret|].
  destruct Ha as [Ha Hi]; [done|]. eapply rets_mono; [apply find_loop_rets; [done|by rewrite Hfn|rewrite Hi; unfold DIR_FUEL; lia]|].
  intros r [[? ?] ?]. split; [split; congruence|done].
Qed.

Lemma read_loop_rets fuel : forall dj res, at_entry dj -> 2^16 - index dj < Z.of_nat fuel ->
  lv (read_loop fuel dj res) (λ r, same_obj dj r.2 ∧ at_entry r.2).
Proof using DiskTotal0.
  induction fuel as [|fuel IH]; intros dj res Ha Hfu; [destruct Ha; lia|]. cbn [read_loop]. case_bool_decide; [by apply rets_ret|].
  rstep ltac:(apply rets_move_window; apply _). intros r _. case_bool_decide; [by apply rets_ret|].
  apply rets_dir_ptr; [done|]. intros d Hd. rstep ltac:(by apply rets_dir_byte). intros c _. case_bool_decide; [by apply rets_ret|].
  rstep ltac:(by apply rets_dir_byte). intros a _. case_bool_decide; [by apply rets_ret|].
  rstep ltac:(by apply dir_next_rets). intros [res' dj'] ([Hfn Hfs] & Ha' & Hi). cbn [fst snd] in *. case_bool_decide; [by apply rets_ret|].
  eapply rets_mono; [apply IH; [done|rewrite Hi by done; lia]|]. intros r' [[? ?] ?]. split; [split; congruence|done].
Qed.

Lemma dir_read_rets dj : at_entry dj -> lv (dir_read dj) (λ r, same_obj dj r.2 ∧ at_entry r.2).
Proof using DiskTotal0.
  intros Ha. unfold dir_read. rstep ltac:(apply read_loop_rets; [done|destruct Ha; unfold DIR_FUEL; lia]). intros [res dj'] [Hs Ha']. apply rets_ret.
  cbn [fst snd] in *. by case_bool_decide.
Qed.

(** ** Names and paths *)

(** A zero terminated string. *)
Definition cstring (p : list Z) : Prop := bytes p ∧ 0 ∈ p.

Lemma cstring_tail c p : cstring (c :: p) -> c ≠ 0 -> cstring p.
Proof using. intros [Hb Hz] Hc. apply list.Forall_cons in Hb as [_ Hb]. apply elem_of_cons in Hz as [?|?]; [congruence|done]. Qed.

Lemma cstring_head p : cstring p -> exists c p', p = c :: p' ∧ is_u8 c.
Proof using. intros [Hb Hz]. destruct p as [|c p]; [by apply elem_of_nil in Hz|]. apply list.Forall_cons in Hb as [? _]. eauto. Qed.

Lemma chk_chr_total str c : 0 ∈ str -> is_Some (chk_chr str c).
Proof using. intros Hz. induction str as [|x str IH]; [by apply elem_of_nil in Hz|]. simpl. case_bool_decide as E; [|by eexists]. apply elem_of_cons in Hz as [<-|?]; [by destruct E|auto]. Qed.

#[local] Arguments chk_chr : simpl never.
Lemma bad_chars_end : 0 ∈ bad_chars.
Proof using. apply (list_elem_of_lookup_2 _ 14%nat). done. Qed.

Lemma excvt_total c : 0x80 <= c < 256 -> is_Some (arr_get excvt (c - 0x80)).
Proof using. intros Hc. rewrite arr_get_lookup by lia. apply lookup_lt_is_Some_2. change (length excvt) with 128%nat. lia. Qed.

Lemma is_sep_range c : is_sep c = true -> 32 < c.
Proof using. unfold is_sep. intros [E|E]%orb_true_iff; apply bool_decide_eq_true_1 in E; lia. Qed.

Lemma arr_set_total (l : list Z) i x : 0 <= i < Z.of_nat (length l) -> exists l', arr_set l i x = Some l' ∧ length l' = length l.
Proof using. intros Hi. eexists. split; [by apply arr_set_in|]. apply length_insert. Qed.

Lemma name_loop_total p : forall sfn i ni b, cstring p -> length sfn = 12%nat -> 0 <= i -> ni = 8 ∨ ni = 11 ->
  exists res sg, name_loop p sfn i ni b = Some (res, sg) ∧ length (sg_fn sg) = 12%nat ∧
    (res = FR_OK -> 32 < sg_c sg -> cstring (sg_rest sg) ∧ (length (sg_rest sg) < length p)%nat).
Proof using.
  induction p as [|c p IH]; intros sfn i ni b Hp Hl Hi Hni; [by destruct Hp as [_ ?%elem_of_nil]|]. simpl.
  destruct (bool_decide (c <= 32) || is_sep c) eqn:Ec.
  { eexists _, _. split; [done|]. split; [done|]. simpl. intros _ Hc. split; [|lia]. apply (cstring_tail c); [done|lia]. }
  apply orb_false_iff in Ec as [Ec _]. apply bool_decide_eq_false_1 in Ec. assert (cstring p) as Hp' by (apply (cstring_tail c); [done|lia]).
  assert (forall res sg, (res = FR_OK -> 32 < sg_c sg -> cstring (sg_rest sg) ∧ (length (sg_rest sg) < length p)%nat) ->
    res = FR_OK -> 32 < sg_c sg -> cstring (sg_rest sg) ∧ (length (sg_rest sg) < S (length p))%nat) as Hmono by (intros res sg HH E1 E2; destruct (HH E1 E2); split; [done|lia]).
  case_bool_decide as Hdot.
  - case_bool_decide; [by eexists _, _|]. destruct (IH sfn 8 11 (u8 (Z.shiftl b 2)) Hp' Hl) as (res & sg & E & ? & ?); [lia|by right|]. eauto 6.
  - assert (is_u8 c) as Hc by (destruct Hp as [Hb _]; by apply list.Forall_cons in Hb as [? _]). unfold is_u8 in Hc.
    assert (is_Some (if bool_decide (0x80 <= c) then arr_get excvt (c - 0x80) else Some c)) as [c' Ec'] by (case_bool_decide; [apply excvt_total; lia|by eexists]).
    rewrite Ec'. simpl. destruct (chk_chr_total bad_chars c') as [bad Eb]; [apply bad_chars_end|]. rewrite Eb. simpl. destruct (bool_decide (bad ≠ 0)); [by eexists _, _|].
    set (bc := if IsUpper c' then _ else _). destruct bc as [b' c'']. destruct (arr_set_total sfn i c'') as (sfn' & Es & Hl'); [lia|]. rewrite Es. simpl.
    destruct (IH sfn' (i + 1) ni b' Hp') as (res & sg & E & ? & ?); [lia|lia|done|]. eauto 6.
Qed.

Lemma strip_sep_spec p : cstring p -> cstring (strip_sep p) ∧ (length (strip_sep p) <= length p)%nat.
Proof using.
  induction p as [|c p IH]; intros Hp; [done|]. simpl. destruct (is_sep c) eqn:E; [|done]. apply is_sep_range in E.
  destruct IH; [apply (cstring_tail c); [done|lia]|]. split; [done|lia].
Qed.

(** The flag of the last segment of a path. *)
Lemma last_flag (e1 e2 : bool) (z : Z) : z = NS_LAST ∨ z = 0 ->
  Z.land (if e1 then Z.lor (if e2 then Z.lor z NS_EXT else z) NS_BODY else (if e2 then Z.lor z NS_EXT else z)) NS_LAST = z.
Proof using. intros [-> | ->]; by destruct e1, e2. Qed.

Lemma create_name_total dj path : cstring path -> length (fn dj) = 12%nat ->
  exists res f path', create_name dj path = Some (res, set_fn f dj, path') ∧ length f = 12%nat ∧
    (res = FR_OK -> forall ns, arr_get f NS = Some ns -> Z.land ns NS_LAST = 0 -> cstring path' ∧ (length path' < length path)%nat).
Proof using.
  intros Hp Hf. unfold create_name. destruct (strip_sep_spec path Hp) as [Hp' Hle].
  assert (exists sfn, mem_set (fn dj) 32 11 = Some sfn ∧ length sfn = 12%nat) as (sfn & -> & Hsf).
  { eexists. split; [unfold mem_set; by rewrite decide_True by lia|]. rewrite length_app, length_replicate, length_drop. lia. }
  simpl. destruct (name_loop_total (strip_sep path) sfn 0 8 0) as (res & sg & E & Hl & Hr); [done|done|lia|by left|]. rewrite E. simpl. case_bool_decide; [by eexists _, _, _|]. case_bool_decide; [by eexists _, _, _|].
  destruct (sg_fn sg) as [|f0 f'] eqn:Efn; [done|]. change (arr_get (f0 :: f') 0) with (Some f0). simpl.
  assert (exists g, (if bool_decide (f0 = DDE) then arr_set (f0 :: f') 0 NDDE else Some (f0 :: f')) = Some g ∧ length g = 12%nat) as (g & -> & Hg).
  { case_bool_decide; [|eauto]. destruct (arr_set_total (f0 :: f') 0 NDDE) as (g & ? & Hg); [simpl; lia|]. exists g. split; [done|congruence]. }
  simpl. set (c := if bool_decide (Z.land _ 12 = 4) then _ else _).
  destruct (arr_set_total g NS c) as (g' & Es & Hg'); [unfold NS; lia|]. rewrite Es. simpl. eexists _, _, _. split; [done|]. split; [lia|].
  intros _ ns Hns Hlast. destruct Hr as [? ?]; [done| |split; [done|lia]].
  assert (ns = c) as ->.
  { rewrite arr_set_in in Es by (unfold NS; lia). injection Es as <-. rewrite arr_get_lookup in Hns by done. rewrite list_lookup_insert_eq in Hns by (change (Z.to_nat NS) with 11%nat; lia). by simplify_eq. }
  unfold c in Hlast. rewrite last_flag in Hlast by (destruct (bool_decide (sg_c sg <= 32)); auto).
  case_bool_decide; [done|lia].
Qed.

Lemma ld_clust_rets d : 0 <= d <= 480 -> lv (ld_clust d) (λ _, True).
Proof using.
  intros Hd. unfold ld_clust. rstep ltac:(by apply rets_dir_word). intros cl _. rskip. case_bool_decide; [|by apply rets_ret].
  rstep ltac:(by apply rets_dir_word). intros hi _. by apply rets_ret.
Qed.

(** The end of a path: an entry, or the root. *)
Definition found dj : Prop := at_entry dj ∨ dir dj = None.

(** Every segment takes a character off the path. *)
Lemma path_loop_rets fuel : forall dj path, cstring path -> length (fn dj) = 12%nat -> (length path < fuel)%nat ->
  lv (path_loop fuel dj path) (λ r, dj_fs r.2 = dj_fs dj ∧ (r.1 = FR_OK -> found r.2)).
Proof using DiskTotal0.
  induction fuel as [|fuel IH]; intros dj path Hp Hf Hfu; [lia|]. cbn [path_loop].
  destruct (create_name_total dj path Hp Hf) as (res & f & path' & E & Hl & Hr).
  rstep ltac:(apply (rets_lift _ _ _ (λ r, r = (res, set_fn f dj, path')) E); done). intros ? ->. case_bool_decide; [by apply rets_ret|].
  rstep ltac:(by apply dir_find_rets). intros [res' dj'] [[Hfn Hfs] Ha]. cbn [fst snd] in *.
  assert (exists ns, arr_get f NS = Some ns) as [ns Hns].
  { rewrite arr_get_lookup by done. apply lookup_lt_is_Some_2. change (Z.to_nat NS) with 11%nat. lia. }
  rstep ltac:(apply (rets_lift _ _ ns (λ x, x = ns)); [rewrite Hfn; exact Hns|done]). intros ? ->.
  case_bool_decide; [case_bool_decide; [by apply rets_ret|]; apply rets_ret; split; [done|]; simpl; case_bool_decide; congruence|].
  case_bool_decide; [apply rets_ret; split; [done|]; intros _; left; by apply Ha|].
  apply rets_dir_ptr; [by apply Ha|]. intros d Hd. rstep ltac:(by apply rets_dir_byte). intros a _. case_bool_decide; [by apply rets_ret|].
  rstep ltac:(by apply ld_clust_rets). intros cl _. destruct (Hr ltac:(done) ns Hns ltac:(done)) as [Hp' Hlt].
  eapply rets_mono; [apply IH; [done|simpl; by rewrite Hfn|lia]|]. intros r [E1 E2]. split; [by rewrite E1|done].
Qed.

Lemma follow_path_rets dj path : cstring path -> length (fn dj) = 12%nat ->
  lv (follow_path dj path) (λ r, dj_fs r.2 = dj_fs dj ∧ (r.1 = FR_OK -> found r.2)).
Proof using DiskTotal0.
  intros Hp Hf. unfold follow_path. destruct (cstring_head path Hp) as (c & p & -> & Hc). change (arr_get (c :: p) 0) with (Some c).
  rstep ltac:(apply (rets_lift _ _ c (λ x, x = c)); done). intros ? ->.
  assert (cstring (if is_sep c then tail (c :: p) else c :: p)) as Hp'.
  { destruct (is_sep c) eqn:E; [|done]. apply is_sep_range in E. apply (cstring_tail c); [done|lia]. }
  revert Hp'. generalize (if is_sep c then tail (c :: p) else c :: p). clear c p Hp Hc. intros path Hp. cbn zeta.
  destruct (cstring_head path Hp) as (c & p & -> & Hc). change (arr_get (c :: p) 0) with (Some c).
  rstep ltac:(apply (rets_lift _ _ c (λ x, x = c)); done). intros ? ->. case_bool_decide.
  - rstep ltac:(apply dir_sdi_rets). intros [res dj'] [[_ Hfs] _]. apply rets_ret. split; [exact Hfs|]. by right.
  - exact (path_loop_rets (S (length (c :: p))) (set_dj_sclust 0 dj) (c :: p) Hp Hf ltac:(lia)).
Qed.

Lemma mem_cpy_total (l : list Z) i n : 0 <= i -> 0 <= n -> i + n <= Z.of_nat (length l) -> exists l', mem_cpy l i n = Some l' ∧ Z.of_nat (length l') = n.
Proof using. intros. eexists. split; [unfold mem_cpy; by rewrite decide_True by lia|]. rewrite length_take, length_drop. lia. Qed.

Lemma get_fileinfo_rets dj fno : sect dj = 0 ∨ at_entry dj -> lv (get_fileinfo dj fno) (λ _, True).
Proof using.
  intros Hd. unfold get_fileinfo. case_bool_decide; [|by apply rets_ret]. destruct Hd as [?|Hd]; [done|]. apply rets_dir_ptr; [done|]. intros d Hr.
  apply rets_win; [apply _|]. intros l Hl Hb. destruct (mem_cpy_total l d 8) as (b & Eb & _); [lia..|]. destruct (mem_cpy_total l (d + 8) 3) as (e & Ee & He); [lia..|].
  rstep ltac:(by apply (rets_lift _ _ b (λ _, True))). intros ? _. rstep ltac:(by apply (rets_lift _ _ e (λ x, x = e))). intros ? ->.
  destruct e as [|e0 e]; [done|]. rstep ltac:(by apply (rets_lift _ _ e0 (λ _, True))). intros ? _.
  rstep ltac:(by apply rets_dir_byte). intros ? _. rstep ltac:(apply rets_win_dword; [apply _|unfold DIR_FileSize; lia]). intros ? _.
  rstep ltac:(by apply rets_dir_word). intros ? _. rstep ltac:(by apply rets_dir_word). intros ? _. by apply rets_ret.
Qed.

(** ** Mounting *)

(** While the boot record is examined: the cluster size is checked already. *)
Definition sized w : Prop := idle w ∧ cs_ok w.
#[local] Instance sized_closed : Closed sized.
Proof. split; [by intros w [[] _]|]. intros w w' [[_ Ht] Hc] Hw (E & E' & _). unfold sized, idle, cs_ok in *. by rewrite E, E'. Qed.

Lemma idle_good w : idle w -> good w.
Proof using. intros [Hw Ht]. by split. Qed.
Lemma live_good w : live w -> good w.
Proof using. intros [Hw Hc]. by split. Qed.

(** [m] ends with an error, or with a mounted volume. *)
Definition mounts (I : ff D -> Prop) (m : ST (ff D) FRESULT) : Prop :=
  forall w, I w -> wp m w (λ r w', good w' ∧ (r = FR_OK -> live w')).

Lemma mounts_bind {A} I (m : ST (ff D) A) k R1 : rets I m R1 -> (forall a, R1 a -> mounts I (k a)) -> mounts I (m ≫= k).
Proof using. intros Hm Hk w Hw. apply wp_bind. eapply wp_mono; [by apply Hm|]. intros a w' [Hw' Ha]. by apply Hk. Qed.
Lemma mounts_error (I : ff D -> Prop) r : (forall w, I w -> idle w) -> r ≠ FR_OK -> mounts I (mret r).
Proof using. intros Hi Hr w Hw. apply wp_ret. split; [by apply idle_good, Hi|done]. Qed.
Ltac mstep tac := eapply mounts_bind; [tac|cbn beta].

(** The fields that do not matter here. *)
Lemma rets_field I `{!Closed I} (f : FATFS -> FATFS) : (forall fs, win (f fs) = win fs ∧ csize (f fs) = csize fs ∧ fs_type (f fs) = fs_type fs ∧ fs_id (f fs) = fs_id fs) ->
  rets I (fs_mod f) (λ _, True).
Proof using.
  intros Hf. apply rets_modify. intros w Hw. destruct (Hf (ff_fs w)) as (E1 & E2 & E3 & E4). destruct (cl_win w Hw) as [? ? ?].
  apply (cl_same w); [done| |done]. constructor; simpl; by rewrite ?E1.
Qed.

Lemma sized_idle w : sized w -> idle w.
Proof using. by intros []. Qed.

Lemma mount_limits_rets bsect nrsv fasize nroot sysect nclst : mounts sized (mount_limits bsect nrsv fasize nroot sysect nclst).
Proof using.
  unfold mount_limits. cbn zeta. mstep ltac:(by apply rets_field; [apply _|]). intros [] _. mstep ltac:(by apply rets_field; [apply _|]). intros [] _.
  mstep ltac:(by apply rets_field; [apply _|]). intros [] _. set (fmt := if bool_decide (MIN_FAT32 <= nclst) then _ else _).
  assert (fmt ≠ 0) as Hfmt by (unfold fmt; by repeat case_bool_decide). clearbody fmt. eapply (mounts_bind _ _ _ (λ _, True)).
  - case_bool_decide; (case_bool_decide; [by apply rets_ret|]).
    + rstep ltac:(apply rets_win_dword; [apply _|unfold BPB_RootClus; lia]). intros root _. rstep ltac:(by apply rets_field; [apply _|]). intros [] _. by apply rets_ret.
    + rstep ltac:(by apply rets_field; [apply _|]). intros [] _. by apply rets_ret.
  - intros [sz|] _; [|by apply mounts_error; [apply sized_idle|]]. mstep ltac:(by apply (rets_gets _ _ (λ _, True))). intros fsz _.
    case_bool_decide; [by apply mounts_error; [apply sized_idle|]|]. intros w [[Hw _] Hc]. unfold fs_mod. wp_pure.
    assert (forall w', win (ff_fs w') = win (ff_fs w) -> csize (ff_fs w') = csize (ff_fs w) -> ff_disk w' = ff_disk w -> live w') as Hlive.
    { intros w' E1 E2 E3. split; [|by unfold cs_ok; rewrite E2]. destruct Hw. by constructor; rewrite ?E1, ?E3. }
    split; [|intros _]; [apply live_good|]; by apply Hlive.
Qed.

Lemma mount_bpb_rets bsect : mounts idle (mount_bpb bsect).
Proof using.
  assert (forall r, r ≠ FR_OK -> mounts idle (mret r)) as Herr by (intros; by apply mounts_error).
  assert (forall r, r ≠ FR_OK -> mounts sized (mret r)) as Herr' by (intros; by apply mounts_error; [apply sized_idle|]).
  unfold mount_bpb. mstep ltac:(apply rets_win_word; [apply _|unfold BPB_BytsPerSec; lia]). intros bps _. case_bool_decide; [by apply Herr|].
  mstep ltac:(apply rets_win_word; [apply _|unfold BPB_FATSz16; lia]). intros fas _. eapply (mounts_bind _ _ _ (λ _, True)).
  { case_bool_decide; [|by apply rets_ret]. eapply rets_any, rets_win_dword; [apply _|unfold BPB_FATSz32; lia]. }
  intros fas' _. mstep ltac:(by apply rets_field; [apply _|]). intros [] _. mstep ltac:(apply rets_win_byte; [apply _|unfold BPB_NumFATs; lia]). intros nf _.
  mstep ltac:(by apply rets_field; [apply _|]). intros [] _. case_bool_decide; [by apply Herr|]. cbn zeta.
  mstep ltac:(apply rets_win_byte; [apply _|unfold BPB_SecPerClus; lia]). intros b Hb. unfold is_u8 in Hb.
  intros w [Hw Ht]. apply wp_bind, wp_modify. set (w1 := set_ff_fs (set_csize b (ff_fs w)) w). assert (idle w1) as Hi by (destruct Hw; split; by try constructor).
  fold w1. case_bool_decide as Hz; [by apply Herr|]. assert (sized w1) as Hs by (split; [done|]; unfold cs_ok; simpl; split; [|lia]; destruct (decide (b = 0)); [destruct Hz; by left|lia]).
  revert Hs. generalize w1. clear w w1 Hw Ht Hi. 
  mstep ltac:(apply rets_win_word; [apply _|unfold BPB_RootEntCnt; lia]). intros nr _. mstep ltac:(by apply rets_field; [apply _|]). intros [] _.
  case_bool_decide; [by apply Herr'|]. mstep ltac:(apply rets_win_word; [apply _|unfold BPB_TotSec16; lia]). intros ts _. eapply (mounts_bind _ _ _ (λ _, True)).
  { case_bool_decide; [|by apply rets_ret]. eapply rets_any, rets_win_dword; [apply _|unfold BPB_TotSec32; lia]. }
  intros ts' _. mstep ltac:(apply rets_win_word; [apply _|unfold BPB_RsvdSecCnt; lia]). intros nrsv _. case_bool_decide; [by apply Herr'|].
  case_bool_decide; [by apply Herr'|]. case_bool_decide; [by apply Herr'|]. apply mount_limits_rets.
Qed.

Lemma check_fs_rets sect : rets idle (check_fs sect) (λ _, True).
Proof using DiskTotal0.
  unfold check_fs. rstep ltac:(apply rets_read_win; apply _). intros [] _; simpl; [|by apply rets_ret].
  rstep ltac:(apply rets_win_word; [apply _|unfold BS_55AA; lia]). intros sig _. case_bool_decide; [by apply rets_ret|].
  rstep ltac:(apply rets_win_dword; [apply _|unfold BS_FilSysType; lia]). intros ty _. case_bool_decide; [by apply rets_ret|].
  rstep ltac:(apply rets_win_dword; [apply _|unfold BS_FilSysType32; lia]). intros ty' _. case_bool_decide; by apply rets_ret.
Qed.

Lemma find_vbr_rets : rets idle find_vbr (λ _, True).
Proof using DiskTotal0.
  unfold find_vbr. rstep ltac:(apply check_fs_rets). intros fmt _. case_bool_decide; [|by apply rets_ret].
  rstep ltac:(apply rets_win_byte; [apply _|unfold MBR_Table; lia]). intros t4 _. case_bool_decide; [|by apply rets_ret].
  rstep ltac:(apply rets_win_dword; [apply _|unfold MBR_Table; lia]). intros bs _. rstep ltac:(apply check_fs_rets). intros fmt' _. by apply rets_ret.
Qed.

Lemma path_volume_total path : cstring path -> exists vol path', path_volume path = Some (vol, path') ∧ cstring path'.
Proof using.
  intros Hp. unfold path_volume. destruct (cstring_head path Hp) as (c & p & -> & Hc). change (arr_get (c :: p) 0) with (Some c). simpl.
  case_bool_decide as Hv; [|eauto]. assert (c ≠ 0) as Hc0 by (intros ->; by vm_compute in Hv). pose proof (cstring_tail c p Hp Hc0) as Hp'.
  destruct (cstring_head p Hp') as (d & q & -> & Hd). change (arr_get (c :: d :: q) 1) with (Some d). simpl. case_bool_decide; [|eauto].
  eexists _, _. split; [done|]. simpl. apply (cstring_tail d); [done|lia].
Qed.

(** The result of [chk_mounted]. *)
Definition checked (r : FRESULT * bool * list Z) w : Prop := good w ∧ (r.1.1 = FR_OK -> r.1.2 = true ∧ live w ∧ cstring r.2).

Lemma chk_mounted_rets path w : cstring path -> good w -> wp (chk_mounted path) w checked.
Proof using DiskTotal0.
  intros Hp Hw. destruct (path_volume_total path Hp) as (vol & path' & E & Hp'). unfold chk_mounted. apply wp_bind, (wp_lift _ (vol, path')); [done|].
  assert (forall r b w', r ≠ FR_OK -> good w' -> wp (mret (r, b, path')) w' checked) as Herr by (intros; by apply wp_ret).
  case_bool_decide; [by apply Herr|]. apply wp_bind, wp_gets. destruct (FatFs w); simpl; [|by apply Herr]. apply wp_bind, wp_gets.
  apply wp_bind, (wp_mono _ _ (λ st w', good w' ∧ (Z.land st STA_NOINIT = 0 -> live w'))).
  { case_bool_decide as Ht.
    - apply wp_bind, wp_gets. eapply wp_mono; [apply (rets_disk live _ _ (dt_status _))|]; [split; [apply Hw|by apply Hw]|]. intros st w' [Hl _]. split; [by apply live_good|done].
    - apply wp_ret. split; [done|]. intros E'. by vm_compute in E'. }
  intros st w1 [Hg Hl]. case_bool_decide; [apply wp_ret; split; [done|]; split; [done|]; split; [by apply Hl|done]|].
  apply wp_bind, wp_modify. set (w2 := set_ff_fs _ w1). assert (idle w2) as Hi by (destruct Hg as [[? ? ?] _]; split; by try constructor).
  clearbody w2. apply wp_bind. eapply wp_mono; [by apply (rets_field idle)|]. intros [] w3 [Hi3 _].
  apply wp_bind. eapply wp_mono; [by apply (rets_disk idle _ _ (dt_initialize _))|]. intros st' w4 [Hi4 _]. case_bool_decide; [by apply Herr, idle_good|].
  apply wp_bind. eapply wp_mono; [by apply find_vbr_rets|]. intros [fmt bsect] w5 [Hi5 _]. case_bool_decide; [by apply Herr, idle_good|]. case_bool_decide; [by apply Herr, idle_good|].
  apply wp_bind. eapply wp_mono; [by apply mount_bpb_rets|]. intros r w6 [Hg6 Hl6]. apply wp_ret. split; [done|]. intros Hr. simpl in Hr. auto.
Qed.

Lemma validate_rets b id w : good w -> wp (validate b id) w (λ r w', good w' ∧ (r = FR_OK -> b = true ∧ live w')).
Proof using DiskTotal0.
  intros Hw. unfold validate. apply wp_bind, wp_gets. destruct (negb b || _ || _) eqn:E; [by apply wp_ret|].
  apply orb_false_iff in E as [[Eb Et]%orb_false_iff _]. apply negb_false_iff in Eb. apply bool_decide_eq_false_1 in Et.
  apply wp_bind. eapply wp_mono; [apply (rets_disk live _ _ (dt_status _)); split; [apply Hw|by apply Hw]|]. intros st w' [Hl _]. apply wp_ret.
  split; [by apply live_good|done].
Qed.

(** ** Files *)

(** The buffer of a file object is a sector. *)
Definition fil_ok fp : Prop := length (buf fp) = 512%nat ∧ 0 <= fsize fp.

Lemma read_buf_rets fp sect : fil_ok fp -> lv (read_buf fp sect) (λ r, fil_ok r.2 ∧ fptr r.2 = fptr fp).
Proof using DiskTotal0.
  intros [Hb Hs]. unfold read_buf. rskip. rstep ltac:(apply rets_disk; [apply _|apply dt_read; lia]). intros [ok data] [Hl _]. apply rets_ret.
  simpl in Hl. split; [|done]. split; [|done]. simpl. rewrite buf_store_length; lia.
Qed.

Lemma read_cluster_rets fp csect : fil_ok fp -> lv (read_cluster fp csect) (λ r, fil_ok r.2 ∧ fptr r.2 = fptr fp).
Proof using DiskTotal0.
  intros Hf. unfold read_cluster. case_bool_decide; [|by apply rets_ret]. eapply (rets_bind _ _ _ (λ _, True)).
  { case_bool_decide; [by apply rets_ret|apply get_fat_rets]. }
  intros c _. case_bool_decide; [by apply rets_ret|]. case_bool_decide; by apply rets_ret.
Qed.

Lemma partial_total fp btr : fil_ok fp -> 0 < btr -> exists data, partial fp btr = Some data ∧ 0 < Z.of_nat (length data) <= btr.
Proof using.
  intros [Hb _] Hbt. unfold partial, SS. pose proof (Z.mod_pos_bound (fptr fp) 512). cbn zeta.
  destruct (mem_cpy_total (buf fp) (fptr fp mod 512) (if bool_decide (btr < 512 - fptr fp mod 512) then btr else 512 - fptr fp mod 512)) as (d & E & Hd);
    [lia|case_bool_decide; lia|case_bool_decide; lia|]. exists d. split; [done|]. case_bool_decide; lia.
Qed.

Lemma land_mask x m : 0 <= m -> 0 <= Z.land x m <= m.
Proof using.
  intros Hm. split; [apply Z.land_nonneg; by right|]. rewrite Z.land_comm.
  apply Z.ldiff_le; [done|]. apply Z.bits_inj'. intros n Hn. rewrite Z.ldiff_spec, Z.land_spec, Z.bits_0. by destruct (Z.testbit m n), (Z.testbit x n).
Qed.

Lemma fread_loop_rets fuel : forall fp btr br out, fil_ok fp -> 0 <= btr < Z.of_nat fuel ->
  lv (fread_loop fuel fp btr br out) (λ r, fil_ok r.1.1.2).
Proof using DiskTotal0.
  induction fuel as [|fuel IH]; intros fp btr br out Hf Hfu; [lia|]. cbn [fread_loop]. case_bool_decide; [by apply rets_ret|]. cbn zeta.
  assert (forall fp' rcnt br' out', fil_ok fp' -> 0 < rcnt <= btr -> lv (fread_loop fuel (set_fptr (u32 (fptr fp' + rcnt)) fp') (btr - rcnt) br' out') (λ r, fil_ok r.1.1.2)) as Hnext.
  { intros fp' rcnt br' out' Hf' Hr. apply IH; [done|lia]. }
  assert (forall fp', fil_ok fp' -> lv (data ← lift (partial fp' btr); fread_loop fuel (set_fptr (u32 (fptr fp' + Z.of_nat (length data))) fp')
      (btr - Z.of_nat (length data)) (br + Z.of_nat (length data)) (out ++ data)) (λ r, fil_ok r.1.1.2)) as Hpart.
  { intros fp' Hf'. destruct (partial_total fp' btr Hf') as (data & E & Hl); [lia|].
    rstep ltac:(by apply (rets_lift _ _ data (λ x, x = data))). intros ? ->. by apply Hnext. }
  case_bool_decide; [|by apply Hpart].
  rstep ltac:(apply (rets_gets _ _ (λ cs, 1 <= cs < 256)); by intros w []). intros cs Hcs.
  pose proof (land_mask (fptr fp / SS) (cs - 1) ltac:(lia)) as Hm. rewrite (u8_small (Z.land _ _)) by (unfold is_u8; lia).
  set (csect := Z.land _ _) in *. rstep ltac:(by apply read_cluster_rets). intros [res fp1] [Hf1 _]. cbn [fst snd] in *. case_bool_decide; [by apply rets_ret|].
  rstep ltac:(apply clust2sect_rets). intros sect _. case_bool_decide; [by apply rets_ret|].
  assert (0 <= btr / SS ∧ SS * (btr / SS) <= btr) as [Hc0 Hc1] by (unfold SS; Z.to_euclidean_division_equations; lia). case_bool_decide.
  - set (cc := if bool_decide _ then _ else _). assert (1 <= cc <= btr / SS) as Hcc by (unfold cc; case_bool_decide; lia). clearbody cc.
    rskip. rstep ltac:(apply rets_disk; [apply _|apply dt_read; apply u8_range]). intros [ok data] _. destruct ok; simpl negb; cbn iota; [|by apply rets_ret].
    apply Hnext; [done|]. unfold SS in *. lia.
  - eapply (rets_bind _ _ _ (λ r, fil_ok r.2)).
    { case_bool_decide; [|by apply rets_ret]. eapply rets_mono; [by apply read_buf_rets|]. by intros ? []. }
    intros [ok fp2] Hf2. cbn [snd] in Hf2. destruct ok; simpl negb; cbn iota; [|by apply rets_ret]. by apply Hpart.
Qed.

Lemma seek_loop_rets fuel : forall fp clst bcs ofs, fil_ok fp -> 0 < bcs -> 0 <= ofs < Z.of_nat fuel -> ofs < 2^32 ->
  lv (seek_loop fuel fp clst bcs ofs) (λ r, fil_ok r.1.1.2).
Proof using DiskTotal0.
  induction fuel as [|fuel IH]; intros fp clst bcs ofs Hf Hb Ho Hs; [lia|]. cbn [seek_loop]. case_bool_decide; [|by apply rets_ret].
  rstep ltac:(apply get_fat_rets). intros c _. case_bool_decide; [by apply rets_ret|]. rskip. case_bool_decide; [by apply rets_ret|].
  rewrite (u32_small (ofs - bcs)) by (unfold is_u32; lia). apply IH; [done|lia..].
Qed.

Lemma seek_to_rets fp ifptr ofs : fil_ok fp -> is_u32 ofs -> lv (seek_to fp ifptr ofs) (λ r, fil_ok r.1.2).
Proof using DiskTotal0.
  intros Hf Ho. unfold seek_to. rstep ltac:(apply (rets_gets _ _ (λ cs, 1 <= cs < 256)); by intros w []). intros cs Hcs. cbn zeta.
  assert (0 < u32 (cs * SS)) as Hb by (rewrite u32_small; unfold is_u32, SS; lia). set (bcs := u32 (cs * SS)) in *. clearbody bcs.
  set (start := if bool_decide (0 < ifptr ∧ _) then _ else _).
  assert (fil_ok start.1.1 ∧ is_u32 start.2) as [Hf' Ho'] by (unfold start; case_bool_decide; split; try done; apply u32_range).
  destruct start as [[fp' clst] ofs']. cbn [fst snd] in *. unfold is_u32 in Ho'. case_bool_decide; [by apply rets_ret|].
  rstep ltac:(apply seek_loop_rets; [done|done|lia|lia]). intros [[[res fp2] clst2] ofs2] Hf2. cbn [fst snd] in Hf2. case_bool_decide; [by apply rets_ret|]. case_bool_decide; [|by apply rets_ret].
  rstep ltac:(apply clust2sect_rets). intros s _. case_bool_decide; by apply rets_ret.
Qed.

(** ** The functions of the file system *)

(** A DIR object that belongs to a volume is at an entry. *)
Definition dir_ok dj : Prop := dj_fs dj = true -> at_entry dj.

(** From a mounted volume on. *)
Lemma live_wp {A} (m : ST (ff D) A) R w (Q : A -> ff D -> Prop) : lv m R -> live w -> (forall a w', good w' -> R a -> Q a w') -> wp m w Q.
Proof using. intros Hm Hw HQ. eapply wp_mono; [by apply Hm|]. intros a w' [Hw' Ha]. by apply HQ; [apply live_good|]. Qed.

Lemma f_mount_rets vol fs : rets good (f_mount vol fs) (λ _, True).
Proof using.
  assert (rets good (fs_mod (set_fs_type 0)) (λ _, True)) as Hz.
  { apply rets_modify. intros w [[? ? ?] _]. apply idle_good. split; by try constructor. }
  unfold f_mount. case_bool_decide; [by apply rets_ret|]. rskip. rstep ltac:(destruct a; [exact Hz|by apply (rets_ret _ _ (λ _, True))]). intros [] _.
  rstep ltac:(destruct fs; [exact Hz|by apply (rets_ret _ _ (λ _, True))]). intros [] _. eapply rets_bind; [apply rets_modify; intros w [[? ? ?] Hc]; split; [by constructor|exact Hc]|].
  intros [] _. by apply rets_ret.
Qed.

Lemma f_open_rets dir0 fp path mode : cstring path -> fil_ok fp -> rets good (f_open dir0 fp path mode) (λ r, fil_ok r.2).
Proof using DiskTotal0.
  intros Hp Hf w Hw. unfold f_open. cbn zeta. apply wp_bind. eapply wp_mono; [by apply chk_mounted_rets|]. intros [[res rfs] path'] w1 [Hg Hl]. cbn [fst snd] in Hl.
  case_bool_decide; [by apply wp_ret|]. destruct Hl as (-> & Hl & Hp'); [done|].
  apply (live_wp _ (λ r, fil_ok r.2)); [|done|done]. rstep ltac:(by apply follow_path_rets). intros [res' dj] [_ Hfd]. cbn [fst snd] in Hfd.
  case_bool_decide; [by apply rets_ret|]. destruct (Hfd ltac:(done)) as [[_ (d & -> & Hd)]| ->]; [|by apply rets_ret].
  rstep ltac:(by apply rets_dir_byte). intros a _. case_bool_decide; [by apply rets_ret|]. rstep ltac:(by apply ld_clust_rets). intros cl _.
  rstep ltac:(apply rets_win_dword; [apply _|unfold DIR_FileSize; lia]). intros sz Hsz. rskip. apply rets_ret. destruct Hf. split; [done|]. simpl. unfold is_u32 in Hsz. lia.
Qed.

Lemma f_read_rets fp btr : fil_ok fp -> 0 <= btr -> rets good (f_read fp btr) (λ r, fil_ok r.1.1.2).
Proof using DiskTotal0.
  intros Hf Hb w Hw. unfold f_read. apply wp_bind. eapply wp_mono; [by apply validate_rets|]. intros res w1 [Hg Hl]. case_bool_decide; [by apply wp_ret|].
  case_bool_decide; [by apply wp_ret|]. case_bool_decide; [by apply wp_ret|]. cbn zeta. pose proof (u32_range (fsize fp - fptr fp)) as Hr. unfold is_u32 in Hr.
  apply (live_wp _ (λ r, fil_ok r.1.1.2)); [|by apply Hl|done]. apply fread_loop_rets; [done|]. case_bool_decide; lia.
Qed.

Lemma f_lseek_rets fp ofs : fil_ok fp -> is_u32 ofs -> rets good (f_lseek fp ofs) (λ r, fil_ok r.2).
Proof using DiskTotal0.
  intros Hf Ho w Hw. unfold f_lseek. apply wp_bind. eapply wp_mono; [by apply validate_rets|]. intros res w1 [Hg Hl]. case_bool_decide; [by apply wp_ret|].
  case_bool_decide; [by apply wp_ret|]. cbn zeta. apply (live_wp _ (λ r, fil_ok r.2)); [|by apply Hl|done].
  set (o := if bool_decide (fsize fp < ofs) then fsize fp else ofs). assert (is_u32 o) as Ho' by (unfold o, is_u32 in *; destruct Hf; case_bool_decide; lia). clearbody o.
  apply (rets_bind _ _ _ (λ r, fil_ok r.1.2)).
  { case_bool_decide; [by apply seek_to_rets|by apply rets_ret]. }
  intros [[res' fp'] nsect] Hf'. cbn [fst snd] in Hf'. case_bool_decide; [by apply rets_ret|]. case_bool_decide; [|by apply rets_ret].
  rstep ltac:(by apply read_buf_rets). intros [ok fp2] [Hf2 _]. cbn [snd] in Hf2. destruct ok; simpl negb; cbn iota; by apply rets_ret.
Qed.

Lemma f_close_rets fp : fil_ok fp -> rets good (f_close fp) (λ r, fil_ok r.2).
Proof using DiskTotal0.
  intros Hf w Hw. unfold f_close. apply wp_bind. eapply wp_mono; [by apply validate_rets|]. intros res w1 [Hg _]. apply wp_ret. split; [done|]. by case_bool_decide.
Qed.

Lemma f_opendir_rets dj path : cstring path -> rets good (f_opendir dj path) (λ r, dir_ok r.2).
Proof using DiskTotal0.
  intros Hp w Hw. unfold f_opendir. cbn zeta. apply wp_bind. eapply wp_mono; [by apply chk_mounted_rets|]. intros [[res rfs] path'] w1 [Hg Hl]. cbn [fst snd] in Hl.
  case_bool_decide; [|by apply wp_ret]. destruct Hl as (-> & Hl & Hp'); [done|].
  apply (live_wp _ (λ r, dir_ok r.2)); [|done|done]. rstep ltac:(by apply follow_path_rets). intros [res' dj'] [Hfs Hfd]. cbn [fst snd] in *.
  apply (rets_bind _ _ _ (λ r, r.1 = FR_OK -> at_entry r.2)).
  - case_bool_decide; [|by apply rets_ret]. apply (rets_bind _ _ _ (λ _, True)).
    + destruct (Hfd ltac:(done)) as [[_ (d & -> & Hd)]| ->]; [|by apply rets_ret]. rstep ltac:(by apply rets_dir_byte). intros a _. case_bool_decide; [|by apply rets_ret].
      rstep ltac:(by apply ld_clust_rets). intros cl _. by apply rets_ret.
    + intros [r2 dj2] _. case_bool_decide; [|by apply rets_ret]. rskip. eapply rets_mono; [apply dir_sdi_rets|]. intros r (_ & Ha & _) Hr. by apply Ha.
  - intros [r3 dj3] Ha. cbn [fst snd] in Ha. apply rets_ret. simpl. intros Hd. destruct (decide (r3 = FR_OK)) as [->|]; [by apply Ha|].
    exfalso. revert Hd. rewrite bool_decide_eq_true_2 by (case_bool_decide; congruence). done.
Qed.

Lemma f_readdir_rets dj fno : dir_ok dj -> rets good (f_readdir dj fno) (λ r, dir_ok r.1.2).
Proof using DiskTotal0.
  intros Hd w Hw. unfold f_readdir. apply wp_bind. eapply wp_mono; [by apply validate_rets|]. intros res w1 [Hg Hl]. case_bool_decide; [by apply wp_ret|].
  destruct Hl as [Hfs Hl]; [done|]. pose proof (Hd Hfs) as Ha. apply (live_wp _ (λ r, dir_ok r.1.2)); [|done|done]. destruct fno as [info|].
  - cbn zeta. rstep ltac:(by apply dir_read_rets). intros [r1 dj1] [_ Ha1]. cbn [fst snd] in Ha1.
    set (p := if bool_decide (r1 = FR_NO_FILE) then _ else _). assert (at_entry p.2) as Ha2 by (unfold p; by case_bool_decide).
    destruct p as [r2 dj2]. cbn [snd] in Ha2. case_bool_decide; [|apply rets_ret; by intros _]. rstep ltac:(apply get_fileinfo_rets; by right). intros info' _.
    rstep ltac:(by apply dir_next_rets). intros [r3 dj3] (_ & Ha3 & _). cbn [fst snd] in Ha3. apply rets_ret. case_bool_decide; by intros _.
  - rstep ltac:(apply dir_sdi_rets). intros [r1 dj1] (_ & _ & Ha1). apply rets_ret. intros _. by apply Ha1.
Qed.

Lemma f_stat_rets dir0 path fno : cstring path -> rets good (f_stat dir0 path fno) (λ _, True).
Proof using DiskTotal0.
  intros Hp w Hw. unfold f_stat. apply wp_bind. eapply wp_mono; [by apply chk_mounted_rets|]. intros [[res rfs] path'] w1 [Hg Hl]. cbn [fst snd] in Hl.
  case_bool_decide; [|by apply wp_ret]. destruct Hl as (-> & Hl & Hp'); [done|].
  apply (live_wp _ (λ _, True)); [|done|done]. rstep ltac:(by apply follow_path_rets). intros [res' dj] [_ Hfd]. cbn [fst snd] in Hfd.
  case_bool_decide; [|by apply rets_ret]. destruct (Hfd ltac:(done)) as [Ha| ->]; [|by apply rets_ret]. destruct (dir dj) eqn:E; [|by apply rets_ret].
  rstep ltac:(apply get_fileinfo_rets; by right). intros i _. by apply rets_ret.
Qed.
End total.

(** ** Programs *)

(** A program that uses the file system: its file, directory and information
    objects are in tables. *)
Inductive fcall :=
  | FMount (vol : Z) (fs : bool) | FOpen (i : nat) (path : list Z) (mode : Z) | FRead (i : nat) (btr : Z) | FSeek (i : nat) (ofs : Z)
  | FClose (i : nat) | FOpendir (i : nat) (path : list Z) | FReaddir (i : nat) (info : option FILINFO) | FStat (path : list Z) (info : FILINFO).

Record fprog (D : Type) := MkProg { pg_ff : ff D; pg_fils : list FIL; pg_dirs : list DIR }.
Arguments MkProg {D}. Arguments pg_ff {D}. Arguments pg_fils {D}. Arguments pg_dirs {D}.

Section programs.
Context {D : Type} `{Disk D} (dir0 : DIR).

Definition on_ff {A} (m : ST (ff D) A) : ST (fprog D) A := zoom pg_ff (λ w s, MkProg w (pg_fils s) (pg_dirs s)) m.
Definition on_fil {A} (i : nat) (m : FIL -> ST (ff D) (A * FIL)) : ST (fprog D) A :=
  l ← gets pg_fils;
  fp ← lift (l !! i);
  r ← on_ff (m fp);
  modify (λ s, MkProg (pg_ff s) (<[i := r.2]> (pg_fils s)) (pg_dirs s));;
  mret r.1.
Definition on_dir {A} (i : nat) (m : DIR -> ST (ff D) (A * DIR)) : ST (fprog D) A :=
  l ← gets pg_dirs;
  dj ← lift (l !! i);
  r ← on_ff (m dj);
  modify (λ s, MkProg (pg_ff s) (pg_fils s) (<[i := r.2]> (pg_dirs s)));;
  mret r.1.

(** The result, and the bytes that were read. *)
Definition fat_call (c : fcall) : ST (fprog D) (FRESULT * list Z) :=
  match c with
  | FMount vol fs => r ← on_ff (f_mount vol fs); mret (r, [])
  | FOpen i path mode => r ← on_fil i (λ fp, f_open dir0 fp path mode); mret (r, [])
  | FRead i btr => on_fil i (λ fp, r ← f_read fp btr; let '(res, fp, _, data) := r in mret ((res, data), fp))
  | FSeek i ofs => r ← on_fil i (λ fp, f_lseek fp ofs); mret (r, [])
  | FClose i => r ← on_fil i f_close; mret (r, [])
  | FOpendir i path => r ← on_dir i (λ dj, f_opendir dj path); mret (r, [])
  | FReaddir i info => r ← on_dir i (λ dj, r ← f_readdir dj info; let '(res, dj, _) := r in mret (res, dj)); mret (r, [])
  | FStat path info => r ← on_ff (f_stat dir0 path info); mret (r.1, [])
  end.

Fixpoint fat_run (l : list fcall) : ST (fprog D) (list (FRESULT * list Z)) :=
  match l with
  | [] => mret []
  | c :: l => r ← fat_call c; rs ← fat_run l; mret (r :: rs)
  end.

(** Paths are strings, numbers have the width of their types, objects exist. *)
Definition call_fits (nf nd : nat) (c : fcall) : Prop :=
  match c with
  | FMount _ _ => True
  | FOpen i path _ => (i < nf)%nat ∧ cstring path
  | FRead i n => (i < nf)%nat ∧ is_u32 n
  | FSeek i ofs => (i < nf)%nat ∧ is_u32 ofs
  | FClose i => (i < nf)%nat
  | FOpendir i path => (i < nd)%nat ∧ cstring path
  | FReaddir i _ => (i < nd)%nat
  | FStat path _ => cstring path
  end.

Context (P : D -> Prop) `{!DiskTotal D P}.

Definition prog_ok (nf nd : nat) (s : fprog D) : Prop :=
  good P (pg_ff s) ∧ (length (pg_fils s) = nf ∧ Forall fil_ok (pg_fils s)) ∧ length (pg_dirs s) = nd ∧ Forall dir_ok (pg_dirs s).

Section calls.
Context (nf nd : nat).
Abbreviation pr := (rets (prog_ok nf nd)).

Lemma rets_ff {A} (m : ST (ff D) A) R : rets (good P) m R -> pr (on_ff m) R.
Proof using. intros Hm s [Hg Hs]. apply wp_zoom. eapply wp_mono; [by apply Hm|]. intros a w [Hw Ha]. done. Qed.

Lemma rets_fil {A} i (m : FIL -> ST (ff D) (A * FIL)) : (i < nf)%nat -> (forall fp, fil_ok fp -> rets (good P) (m fp) (λ r, fil_ok r.2)) ->
  pr (on_fil i m) (λ _, True).
Proof using.
  intros Hi Hm. unfold on_fil. rstep ltac:(apply (rets_gets _ _ (λ l, length l = nf ∧ Forall fil_ok l)); by intros s (_ & ? & _)). intros l [Hl Hf].
  destruct (lookup_lt_is_Some_2 l i) as [fp E]; [lia|]. rstep ltac:(apply (rets_lift _ _ fp fil_ok); [done|by eapply Forall_lookup in Hf]). intros fp' Hfp.
  rstep ltac:(by apply rets_ff, Hm). intros r Hr. eapply rets_bind; [|intros [] _; by apply rets_ret]. apply rets_modify. intros s (Hg & (Hlen & Hfs) & Hd).
  split; [done|]. split; [split; simpl; [by rewrite length_insert|by apply Forall_insert]|done].
Qed.

Lemma rets_dir {A} i (m : DIR -> ST (ff D) (A * DIR)) : (i < nd)%nat -> (forall dj, dir_ok dj -> rets (good P) (m dj) (λ r, dir_ok r.2)) ->
  pr (on_dir i m) (λ _, True).
Proof using.
  intros Hi Hm. unfold on_dir. rstep ltac:(apply (rets_gets _ _ (λ l, length l = nd ∧ Forall dir_ok l)); by intros s (_ & _ & ?)). intros l [Hl Hf].
  destruct (lookup_lt_is_Some_2 l i) as [dj E]; [lia|]. rstep ltac:(apply (rets_lift _ _ dj dir_ok); [done|by eapply Forall_lookup in Hf]). intros dj' Hdj.
  rstep ltac:(by apply rets_ff, Hm). intros r Hr. eapply rets_bind; [|intros [] _; by apply rets_ret]. apply rets_modify. intros s (Hg & Hf' & Hlen & Hd).
  split; [done|]. split; [done|]. split; simpl; [by rewrite length_insert|by apply Forall_insert].
Qed.

Lemma fat_call_rets c : call_fits nf nd c -> pr (fat_call c) (λ _, True).
Proof using DiskTotal0.
  destruct c as [vol fs|i path mode|i btr|i ofs|i|i path|i info|path info]; simpl; intros Hc.
  - eapply rets_bind; [apply rets_ff, f_mount_rets|intros; by apply rets_ret].
  - destruct Hc. eapply rets_bind; [apply rets_fil; [done|intros; by apply f_open_rets]|intros; by apply rets_ret].
  - destruct Hc as [? Hb]. unfold is_u32 in Hb. apply rets_fil; [done|]. intros fp Hf. rstep ltac:(apply f_read_rets; [done|done|lia]). intros [[[res fp'] br] data] Hf'. by apply rets_ret.
  - destruct Hc. eapply rets_bind; [apply rets_fil; [done|intros; by apply f_lseek_rets]|intros; by apply rets_ret].
  - eapply rets_bind; [apply rets_fil; [done|intros; by apply f_close_rets]|intros; by apply rets_ret].
  - destruct Hc. eapply rets_bind; [apply rets_dir; [done|intros; by apply f_opendir_rets]|intros; by apply rets_ret].
  - eapply rets_bind; [apply rets_dir; [done|]|intros; by apply rets_ret]. intros dj Hd. rstep ltac:(by apply f_readdir_rets). intros [[res dj'] inf] Hd'. by apply rets_ret.
  - eapply rets_bind; [by apply rets_ff, f_stat_rets|intros; by apply rets_ret].
Qed.

Lemma fat_run_rets l : Forall (call_fits nf nd) l -> pr (fat_run l) (λ rs, length rs = length l).
Proof using DiskTotal0.
  induction 1 as [|c l Hc _ IH]; simpl; [by apply rets_ret|]. rstep ltac:(by apply fat_call_rets). intros r _. rstep ltac:(exact IH). intros rs Hrs.
  apply rets_ret. simpl. by rewrite Hrs.
Qed.
End calls.
End programs.
