(* ===== verification/CardTotal.v ===== *)
(** * The file system and the driver on any card

    The driver of the card returns whatever the card answers ([mmc_total]): its
    loops count down, and what it stores in its buffers fits. So it is one of the
    disks on which every function of the file system returns, and both together
    return on every card ([card_always_returns]). *)

From S2P Require Import Prelude Mmc FatFs Boot FatTotal.
Open Scope Z_scope.

(** ** The driver of the card *)

(** A transfer exchanges as many bytes as it is given. *)
Class SpiTotal (D : Type) `{SpiMaster D} (P : D -> Prop) : Prop := {
  st_select m d : P d -> P (XSpi_SetSlaveSelect m d);
  st_transfer l d : P d -> length (XSpi_Transfer l d).1 = length l ∧ bytes (XSpi_Transfer l d).1 ∧ P (XSpi_Transfer l d).2;
}.

#[export] Instance wire_total : SpiTotal wire (λ w, bytes (w_rx w)).
Proof.
  split; [done|]. intros l w Hw. simpl. unfold rx_take. split_and!; [rewrite length_take, length_app, length_replicate; lia| |by apply Forall_drop].
  apply Forall_take, Forall_app. split; [done|]. by apply Forall_replicate.
Qed.

Section driver.
Context {D : Type} `{SpiMaster D} (PS : D -> Prop) `{!SpiTotal D PS}.

Record mmc_ok (s : mmc D) : Prop := {
  mo_cmd : length (mmc_cmd s) = 6%nat;
  mo_buf : length (sd_buf s) = 512%nat;
  mo_spi : PS (spi_sd s);
}.
Abbreviation mr := (rets mmc_ok).

Lemma printf_rets fmt args : mr (printf fmt args) (λ _, True).
Proof using. apply rets_modify. intros s []. by constructor. Qed.

Lemma store_cmd_rets i x : 0 <= i < 6 -> mr (store_cmd i x) (λ _, True).
Proof using.
  intros Hi s [Hc Hb Hs]. destruct (arr_set_total (mmc_cmd s) i x) as (l & E & Hl); [lia|]. unfold store_cmd. apply wp_bind, wp_gets, wp_bind, (wp_lift _ l); [done|].
  apply wp_modify. split; [|done]. constructor; simpl; [lia|done|done].
Qed.
Lemma store_buf_rets i x : 0 <= i < 512 -> mr (store_buf i x) (λ _, True).
Proof using.
  intros Hi s [Hc Hb Hs]. destruct (arr_set_total (sd_buf s) i x) as (l & E & Hl); [lia|]. unfold store_buf. apply wp_bind, wp_gets, wp_bind, (wp_lift _ l); [done|].
  apply wp_modify. split; [|done]. constructor; simpl; [done|lia|done].
Qed.

Lemma transfer_rets l : mr (transfer l) (λ r, length r = length l ∧ bytes r).
Proof using SpiTotal0.
  intros s [Hc Hb Hs]. destruct (st_transfer l (spi_sd s) Hs) as (Hl & Hr & Hp). unfold transfer. apply wp_run.
  destruct (XSpi_Transfer l (spi_sd s)) as [r d]. simpl in *. eexists _, _. split; [done|]. split; [by constructor|done].
Qed.

Lemma cs_rets m : mr (modify (λ s, set_spi_sd (XSpi_SetSlaveSelect m (spi_sd s)) s)) (λ _, True).
Proof using SpiTotal0. apply rets_modify. intros s []. constructor; [done..|by apply st_select]. Qed.

(** The first [n] bytes of the buffer are exchanged. *)
Lemma exchange_rets {A} n (k : list Z -> ST (mmc D) A) R : 0 <= n <= 512 ->
  (forall r, Z.of_nat (length r) = n -> bytes r -> mr (k r) R) -> mr (b ← gets sd_buf; send ← lift (arr_take b n); recv ← transfer send; k recv) R.
Proof using SpiTotal0.
  intros Hn Hk. rstep ltac:(apply (rets_gets _ _ (λ b, length b = 512%nat)); by intros s []). intros b Hb.
  rstep ltac:(apply (rets_lift _ _ (take (Z.to_nat n) b) (λ l, Z.of_nat (length l) = n)); [unfold arr_take; by rewrite decide_True by lia|rewrite length_take; lia]). intros l Hl.
  rstep ltac:(apply transfer_rets). intros r [Hr Hb']. apply Hk; [lia|done].
Qed.

Lemma spi_receive_byte_rets : mr spi_receive_byte (λ _, True).
Proof using SpiTotal0.
  unfold spi_receive_byte. rstep ltac:(by apply store_buf_rets). intros [] _. apply exchange_rets; [lia|]. intros r Hr _. destruct r as [|x [|]]; [done| |simpl in Hr; lia].
  rstep ltac:(by apply (rets_lift _ _ x (λ _, True))). intros ? _. rstep ltac:(by apply store_buf_rets). intros [] _.
  rstep ltac:(apply (rets_gets _ _ (λ b, length b = 512%nat)); by intros s []). intros b Hb. destruct b as [|y b]; [done|]. by apply (rets_lift _ _ y).
Qed.

Lemma spi_receive_rets n : 0 <= n <= 512 -> mr (spi_receive n) (λ r, Z.of_nat (length r) = n ∧ bytes r).
Proof using SpiTotal0.
  intros Hn. unfold spi_receive. rstep ltac:(apply rets_iter; intros j Hj; apply store_buf_rets; lia). intros [] _.
  intros s Hs. pose proof (exchange_rets n mret (λ r, Z.of_nat (length r) = n ∧ bytes r) Hn (λ r Hr Hb, rets_ret _ _ _ (conj Hr Hb)) s Hs) as Hw.
  apply wp_run in Hw as (r & s' & E & Hr). apply wp_run. exists r, s'. split; [|done]. rewrite <- E. cbv [mbind st_bind gets lift].
  destruct (arr_take (sd_buf s) n) as [l|]; [|done]. by destruct (transfer l s) as [[]|].
Qed.

Lemma send_cmd_rets c0 c1 c2 c3 c4 c5 : mr (send_cmd c0 c1 c2 c3 c4 c5) (λ _, True).
Proof using SpiTotal0.
  unfold send_cmd. do 6 (rstep ltac:(by apply store_cmd_rets); intros [] _). rstep ltac:(apply (rets_gets _ _ (λ b, length b = 6%nat)); by intros s []). intros b Hb.
  unfold spi_send. rstep ltac:(apply (rets_lift _ _ (take 6 b) (λ _, True)); [unfold arr_take; by rewrite decide_True by (rewrite Hb; done)|done]). intros l _.
  rstep ltac:(apply transfer_rets). intros r _. by apply rets_ret.
Qed.

(** The loops that wait for the card count down. *)
Lemma mmc_response_rets x : mr (mmc_response x) (λ _, True).
Proof using SpiTotal0.
  unfold mmc_response. generalize 0xFFF%nat. intros n. apply (rets_bind _ _ _ (λ _, True)); [|intros; by apply rets_ret].
  induction n as [|n IH]; simpl; [by apply rets_ret|]. rstep ltac:(apply spi_receive_byte_rets). intros r _. case_bool_decide; [by apply rets_ret|done].
Qed.

Lemma dummy_clocks_rets : mr dummy_clocks (λ _, True).
Proof using SpiTotal0.
  unfold dummy_clocks. rstep ltac:(apply spi_receive_byte_rets). intros ? _. rstep ltac:(apply cs_rets). intros ? _.
  do 2 (rstep ltac:(apply spi_receive_byte_rets); intros ? _). by apply rets_ret.
Qed.

Lemma cmd1_loop_rets n : mr (cmd1_loop n) (λ _, True).
Proof using SpiTotal0.
  induction n as [|n IH]; cbn [cmd1_loop]; [by apply rets_ret|]. rstep ltac:(apply send_cmd_rets). intros ? _. rstep ltac:(apply mmc_response_rets). intros r _.
  case_bool_decide; [done|by apply rets_ret].
Qed.

Ltac next := first [apply printf_rets | apply cs_rets | apply send_cmd_rets | apply mmc_response_rets | apply dummy_clocks_rets | apply spi_receive_byte_rets | apply cmd1_loop_rets].

Lemma mmc_init_rets : mr mmc_init (λ _, True).
Proof using SpiTotal0.
  unfold mmc_init. rstep next. intros ? _. rstep ltac:(apply rets_iter; intros j _; eapply rets_bind; [apply spi_receive_byte_rets|intros; by apply rets_ret]). intros ? _.
  do 4 (rstep next; intros ? _). case_bool_decide; [rstep next; intros ? _; by apply rets_ret|]. do 5 (rstep next; intros ? _).
  case_bool_decide; [rstep next; intros ? _; by apply rets_ret|]. do 6 (rstep next; intros ? _).
  apply (rets_bind _ _ _ (λ _, True)); [case_bool_decide; [apply printf_rets|by apply rets_ret]|]. intros ? _. do 2 (rstep next; intros ? _). by apply rets_ret.
Qed.

Lemma mmc_read_block_rets n : mr (mmc_read_block n) (λ r, Z.of_nat (length (default [] r.2)) <= 512 ∧ bytes (default [] r.2)).
Proof using SpiTotal0.
  assert (forall z, mr (mret (z, None)) (λ r : Z * option (list Z), Z.of_nat (length (default [] r.2)) <= 512 ∧ bytes (default [] r.2))) as Hn.
  { intros z. apply rets_ret. split; [done|constructor]. }
  unfold mmc_read_block. cbn zeta. do 3 (rstep next; intros ? _). case_bool_decide; [rstep next; intros ? _; apply Hn|]. rstep next. intros ? _.
  case_bool_decide; [rstep next; intros ? _; apply Hn|]. rstep ltac:(by apply spi_receive_rets). intros data [Hl Hb]. do 4 (rstep next; intros ? _).
  apply rets_ret. simpl. by rewrite Hl.
Qed.

Lemma read_blocks_rets n : forall i sector, mr (read_blocks n i sector) (λ r, Z.of_nat (length r.2) <= 512 * Z.of_nat n ∧ bytes r.2).
Proof using SpiTotal0.
  induction n as [|n IH]; intros i sector; cbn [read_blocks]; [apply rets_ret; split; [done|constructor]|].
  rstep ltac:(apply mmc_read_block_rets). intros [z data] [Hl Hb]. cbn [snd] in *. case_bool_decide; [apply rets_ret; split; [simpl; lia|done]|].
  rstep ltac:(apply IH). intros [res rest] [Hl' Hb']. cbn [snd] in *. apply rets_ret. cbn [snd]. split; [rewrite length_app; lia|by apply Forall_app].
Qed.

(** The card as a disk. *)
#[export] Instance mmc_total : DiskTotal (mmc D) mmc_ok.
Proof using SpiTotal0.
  split.
  - intros drv. simpl. unfold disk_initialize. case_bool_decide; [|by apply rets_ret]. eapply rets_bind; [apply mmc_init_rets|intros; by apply rets_ret].
  - intros drv. by apply rets_ret.
  - intros drv sector count Hc. simpl. unfold disk_read. eapply (rets_bind _ _ _ (λ r, Z.of_nat (length r.2) <= 512 * count ∧ bytes r.2)).
    + case_bool_decide; [|apply rets_ret; split; [simpl; lia|constructor]]. eapply rets_mono; [apply read_blocks_rets|]. intros r [? ?]. split; [lia|done].
    + intros r Hr. by apply rets_ret.
Qed.
End driver.

(** ** The theorem *)

(** C4: The file system returns, whatever card there is. For any bytes that come over the SPI bus
    (no card, a card that stops answering, a card with garbage or a cyclic FAT on it), every
    sequence of calls of the file system, from any objects that the program has, comes to an end:
    each call returns a result, no loop runs forever, and no access is outside of the window, the
    sector buffers, the directory entries, the names or the buffers of the driver. *)
Theorem card_always_returns {D : Type} `{SpiMaster D} (PS : D -> Prop) `{!SpiTotal D PS} (dir0 : DIR) (nf nd : nat)
    (l : list fcall) (s : fprog (mmc D)) :
  prog_ok (mmc_ok PS) nf nd s -> Forall (call_fits nf nd) l ->
  wp (fat_run dir0 l) s (λ rs s', length rs = length l ∧ prog_ok (mmc_ok PS) nf nd s').
Proof.
  intros Hs Hl. eapply wp_mono; [by apply (fat_run_rets dir0 (mmc_ok PS) nf nd l)|]. by intros rs s' [? ?].
Qed.

(** An empty slot: the line stays high. *)
Definition no_card : mmc wire := MkMmc (replicate 6 0) (replicate 512 0) (Wire [] []) [].
Definition some_fil : FIL := MkFIL false 0 0 0 0 0 0 0 (replicate 512 0).
Definition some_dir : DIR := MkDIR false 0 0 0 0 0 None (replicate 12 0).
Definition first_fs : FATFS := MkFATFS 0 0 0 0 0 0 0 0 0 0 0 0 0 (replicate 512 0).
Definition slot_prog : fprog (mmc wire) := MkProg (MkFF first_fs false 0 no_card) [some_fil] [some_dir].
Definition slot_calls : list fcall := [FMount 0 true; FOpen 0 boot_path 1; FRead 0 512; FOpendir 0 [0]; FReaddir 0 None].

Lemma card_always_returns_witness :
  exists rs s', fat_run some_dir slot_calls slot_prog = Some (rs, s') ∧ length rs = 5%nat ∧ fst <$> rs = [FR_OK; FR_NOT_READY; FR_INVALID_OBJECT; FR_NOT_READY; FR_INVALID_OBJECT].
Proof.
  assert (bytes (replicate 512 0)) as Hb by (by apply Forall_replicate).
  assert (cstring boot_path) as Hp.
  { split; [repeat (constructor; [unfold is_u8; lia|]); constructor|]. apply (list_elem_of_lookup_2 _ 8%nat). done. }
  assert (cstring [0]) as H0 by (split; [repeat (constructor; [unfold is_u8; lia|]); constructor|by apply list_elem_of_singleton]).
  assert (prog_ok (mmc_ok (λ w, bytes (w_rx w))) 1 1 slot_prog) as Hs.
  { split; [split; [constructor; [done|exact Hb|constructor; [done|done|constructor]]|done]|].
    split; split; try done; (constructor; [by split|constructor]). }
  assert (Forall (call_fits 1 1) slot_calls) as Hl0 by (repeat (constructor; [simpl; unfold is_u32; auto with lia|]); constructor).
  destruct (proj1 (wp_run _ _ _) (card_always_returns (λ w, bytes (w_rx w)) some_dir 1 1 slot_calls slot_prog
    Hs Hl0)) as (rs & s' & E & Hl & _).
  exists rs, s'. split; [exact E|]. split; [exact Hl|].
  assert ((match fat_run some_dir slot_calls slot_prog with Some (rs, _) => fst <$> rs | None => [] end) = [FR_OK; FR_NOT_READY; FR_INVALID_OBJECT; FR_NOT_READY; FR_INVALID_OBJECT]) as E2 by (vm_compute; reflexivity).
  by rewrite E in E2.
Defined.
