(* ===== verification/Kqueue.v ===== *)
(** * Queues of the kernel (bsp/xilkernel_v4_00_a/src/src/sys/queue.c)

    Ring buffers of items and of process identifiers, and the binary heap that
    the priority scheduler uses. The item memory of a queue is the list of its
    slots; an access beyond it has no result. *)

From S2P Require Import Prelude.
Open Scope Z_scope.

(** ** Data (ktypes.h) *)

Record queue (A : Type) := MkQueue {
  max_items : Z;
  item_count : Z;
  qfront : Z;
  qend : Z;
  items : list A;
}.
Arguments MkQueue {A}.
Arguments max_items {A}.
Arguments item_count {A}.
Arguments qfront {A}.
Arguments qend {A}.
Arguments items {A}.

Definition set_item_count {A} (x : Z) (q : queue A) := MkQueue (max_items q) x (qfront q) (qend q) (items q).
Definition set_qfront {A} (x : Z) (q : queue A) := MkQueue (max_items q) (item_count q) x (qend q) (items q).
Definition set_qend {A} (x : Z) (q : queue A) := MkQueue (max_items q) (item_count q) (qfront q) x (items q).
Definition set_items {A} (x : list A) (q : queue A) := MkQueue (max_items q) (item_count q) (qfront q) (qend q) x.

(** ** Ring buffers *)

Section ring.
Context {A : Type}.

(** [mem] is the memory that the allocator assigns to the queue. *)
Definition alloc_q (mem : list A) (max : Z) : queue A := MkQueue max 0 0 0 mem.

Definition qinit : ST (queue A) unit :=
  modify (set_qend 0);; modify (set_qfront 0);; modify (set_item_count 0).

(** The key is not used. *)
Definition enq (item : A) : ST (queue A) unit :=
  e ← gets qend;
  n ← gets item_count;
  max ← gets max_items;
  if bool_decide (n = max) then skip else
  its ← gets items;
  its' ← lift (arr_set its e item);
  modify (set_items its');;
  modify (set_qend (u8 ((e + 1) mod max)));;
  modify (set_item_count (u8 (n + 1))).

(** The item, or [None] when the caller's buffer is left alone. *)
Definition deq : ST (queue A) (option A) :=
  f ← gets qfront;
  n ← gets item_count;
  if bool_decide (n = 0) then mret None else
  max ← gets max_items;
  its ← gets items;
  x ← lift (arr_get its f);
  modify (set_qfront (u8 ((f + 1) mod max)));;
  modify (set_item_count (u8 (n - 1)));;
  mret (Some x).
End ring.

Definition penq (item : Z) : ST (queue Z) unit := enq item.

(** 255 for an empty queue. *)
Definition pdeq : ST (queue Z) Z :=
  x ← deq; mret (match x with Some x => x | None => 255 end).

(** The search of [pdelq]: the number of items that remain and the position. *)
Fixpoint search_loop (fuel : nat) (its : list Z) (max item f n : Z) : option (Z * Z) :=
  match fuel with
  | O => None
  | S fuel =>
      if bool_decide (n = 0) then Some (n, f) else
      x ← arr_get its f;
      if bool_decide (item ≠ x) then search_loop fuel its max item (u8 ((f + 1) mod max)) (u8 (n - 1))
      else Some (n, f)
  end.

(** The loop of [pdelq] that closes the gap at [temp]. *)
Fixpoint shift_loop (fuel : nat) (its : list Z) (max f e temp : Z) : option (list Z) :=
  match fuel with
  | O => None
  | S fuel =>
      if bool_decide (f ≠ e) then
        let f := u8 ((f + 1) mod max) in
        x ← arr_get its f;
        its' ← arr_set its temp x;
        shift_loop fuel its' max f e f
      else Some its
  end.

(** No loop runs longer than the queue is long. *)
Definition QUEUE_FUEL : nat := 257.

Definition pdelq (item : Z) : ST (queue Z) Z :=
  q ← gets id;
  let max := max_items q in
  if bool_decide (item_count q = 0) then mret (-1) else
  r ← lift (search_loop QUEUE_FUEL (items q) max item (qfront q) (item_count q));
  let '(n, f) := r in
  if bool_decide (n = 0) then mret (-1) else
  (if bool_decide (f = qfront q) then modify (set_qfront (u8 ((f + 1) mod max)))
   else
     its ← lift (shift_loop QUEUE_FUEL (items q) max f (qend q) f);
     modify (set_items its);;
     modify (set_qend (u8 ((qend q + max - 1) mod max))));;
  modify (set_item_count (u8 (item_count q - 1)));;
  mret 0.

(** ** Priority queues *)

Definition LEFT_CHILD (i : Z) : Z := Z.shiftl i 1 + 1.
Definition RIGHT_CHILD (i : Z) : Z := Z.shiftl i 1 + 2.
Definition PARENT (i : Z) : Z := Z.shiftr (i - 1) 1.

(** [PROC_PRIO(citems[i])] for the priorities [pr] of the process table. *)
Definition prio_at (pr its : list Z) (i : Z) : option Z := x ← arr_get its i; arr_get pr x.

(** Exchanging two slots; the temporary is an [unsigned char]. *)
Definition swap (its : list Z) (i j : Z) : option (list Z) :=
  tmp ← arr_get its i;
  x ← arr_get its j;
  its ← arr_set its i x;
  arr_set its j (u8 tmp).

(** The loop of [prio_penq]. *)
Fixpoint up_loop (fuel : nat) (pr its : list Z) (cur : Z) : option (list Z) :=
  match fuel with
  | O => None
  | S fuel =>
      if bool_decide (cur ≠ 0) then
        pp ← prio_at pr its (PARENT cur);
        pc ← prio_at pr its cur;
        if bool_decide (pc < pp) then
          its ← swap its cur (PARENT cur);
          up_loop fuel pr its (PARENT cur)
        else Some its
      else Some its
  end.

Definition prio_penq (pr : list Z) (item : Z) : ST (queue Z) unit :=
  q ← gets id;
  if bool_decide (item_count q = max_items q) then skip else
  its ← lift (arr_set (items q) (qend q) item);
  its ← lift (up_loop QUEUE_FUEL pr its (qend q));
  modify (set_items its);;
  modify (set_qend (u8 (qend q + 1)));;
  modify (set_item_count (u8 (item_count q + 1))).

(** The loop of [prio_pdeq]; [last] is [qend - 1]. *)
Fixpoint down_loop (fuel : nat) (pr its : list Z) (last cur : Z) : option (list Z) :=
  match fuel with
  | O => None
  | S fuel =>
      if bool_decide (LEFT_CHILD cur <= last) then
        slct ← (if bool_decide (last < RIGHT_CHILD cur) then Some (LEFT_CHILD cur) else
                pl ← prio_at pr its (LEFT_CHILD cur);
                pq ← prio_at pr its (RIGHT_CHILD cur);
                Some (if bool_decide (pl <= pq) then LEFT_CHILD cur else RIGHT_CHILD cur));
        ps ← prio_at pr its slct;
        pc ← prio_at pr its cur;
        if bool_decide (ps <= pc) then
          its ← swap its cur slct;
          down_loop fuel pr its last (u8 slct)
        else Some its
      else Some its
  end.

(** 255 for an empty queue. *)
Definition prio_pdeq (pr : list Z) : ST (queue Z) Z :=
  q ← gets id;
  if bool_decide (item_count q = 0) then mret 255 else
  ret ← lift (arr_get (items q) 0);
  x ← lift (arr_get (items q) (qend q - 1));
  its ← lift (arr_set (items q) 0 x);
  its ← lift (down_loop QUEUE_FUEL pr its (qend q - 1) 0);
  modify (set_items its);;
  modify (set_qend (u8 (qend q - 1)));;
  modify (set_item_count (u8 (item_count q - 1)));;
  mret ret.

(** The index of the first occurrence of [item], or [qsiz]. *)
Fixpoint index_loop (fuel : nat) (its : list Z) (item i qsiz : Z) : option Z :=
  match fuel with
  | O => None
  | S fuel =>
      if bool_decide (i < qsiz) then
        x ← arr_get its i;
        if bool_decide (x = item) then Some i else index_loop fuel its item (u8 (i + 1)) qsiz
      else Some i
  end.

(** The loop of [prio_pdelq] that moves the item to the root. *)
Fixpoint raise_loop (fuel : nat) (its : list Z) (i : Z) : option (list Z) :=
  match fuel with
  | O => None
  | S fuel =>
      if bool_decide (i ≠ 0) then
        tmp ← arr_get its i;
        x ← arr_get its (PARENT i);
        its ← arr_set its i x;
        its ← arr_set its (PARENT i) tmp;
        raise_loop fuel its (PARENT i)
      else Some its
  end.

(** The result and the priorities of the process table. *)
Definition prio_pdelq (pr : list Z) (item : Z) : ST (queue Z) (Z * list Z) :=
  q ← gets id;
  let qsiz := item_count q in
  if bool_decide (qsiz = 0) then mret (-1, pr) else
  i ← lift (index_loop QUEUE_FUEL (items q) item 0 qsiz);
  if bool_decide (i = qsiz) then mret (-1, pr) else
  x ← lift (arr_get (items q) i);
  priosave ← lift (arr_get pr x);
  pr ← lift (arr_set pr x (-1));
  its ← lift (raise_loop QUEUE_FUEL (items q) i);
  modify (set_items its);;
  tmp ← prio_pdeq pr;
  pr ← lift (arr_set pr tmp priosave);
  mret (0, pr).

(** ** Ring buffers implement bounded FIFO queues *)

Section slots.
Context {A : Type}.
Implicit Types (q : queue A) (l : list A).

(** The slot of the [i]th item. *)
Definition slot (max f i : Z) : Z := (f + i) mod max.

Lemma slot_range max f i : 0 < max -> 0 <= slot max f i < max.
Proof. intros. by apply Z.mod_pos_bound. Qed.

Lemma slot_inj max f i j : 0 < max -> i <= j < i + max -> slot max f i = slot max f j -> i = j.
Proof.
  intros Hm Hij E. unfold slot in E. pose proof (Z.div_mod (f + i) max ltac:(lia)). pose proof (Z.div_mod (f + j) max ltac:(lia)).
  rewrite E in *. assert (max * ((f + j) / max - (f + i) / max) = j - i) as Ed by lia.
  destruct (decide ((f + j) / max = (f + i) / max)) as [Eq|]; [rewrite Eq in Ed; lia|].
  assert (1 <= (f + j) / max - (f + i) / max ∨ (f + j) / max - (f + i) / max <= -1) as [|] by lia; nia.
Qed.

Lemma slot_next max f i : 0 < max -> (slot max f i + 1) mod max = slot max f (i + 1).
Proof. intros. unfold slot. rewrite Zplus_mod_idemp_l. f_equal. lia. Qed.

(** The queue holds the items [l]. *)
Record ring l q : Prop := {
  r_max : 1 <= max_items q <= 255;
  r_mem : length (items q) = Z.to_nat (max_items q);
  r_count : item_count q = Z.of_nat (length l) ∧ Z.of_nat (length l) <= max_items q;
  r_front : 0 <= qfront q < max_items q;
  r_end : qend q = slot (max_items q) (qfront q) (Z.of_nat (length l));
  r_items i x : l !! i = Some x -> arr_get (items q) (slot (max_items q) (qfront q) (Z.of_nat i)) = Some x;
}.

Lemma arr_get_set_ne (its its' : list A) i j x : arr_set its i x = Some its' -> i ≠ j -> arr_get its' j = arr_get its j.
Proof.
  intros E Hne. apply arr_set_Some in E as [Hi ->]. unfold arr_get. case_decide; [|done].
  by rewrite list_lookup_insert_ne by lia.
Qed.
Lemma arr_get_set (its its' : list A) i x : arr_set its i x = Some its' -> arr_get its' i = Some x.
Proof.
  intros E. apply arr_set_Some in E as [Hi ->]. rewrite arr_get_lookup by lia. apply list_lookup_insert_eq. lia.
Qed.
Lemma arr_set_length (its its' : list A) i x : arr_set its i x = Some its' -> length its' = length its.
Proof. intros E. apply arr_set_Some in E as [_ ->]. apply length_insert. Qed.

Lemma ring_init (mem : list A) max : 1 <= max <= 255 -> length mem = Z.to_nat max -> ring [] (alloc_q mem max).
Proof. intros Hm Hl. constructor; simpl; try done; lia. Qed.

Lemma enq_spec l q x :
  ring l q -> wp (enq x) q (λ _ q', max_items q' = max_items q ∧
    ring (if bool_decide (Z.of_nat (length l) = max_items q) then l else l ++ [x]) q').
Proof.
  intros Hr. destruct (Hr) as [Hm Hmem [Hc Hc'] Hf He Hi]. unfold enq. wp_pure. rewrite Hc.
  case_bool_decide as Hfull; [by apply wp_ret|].
  pose proof (slot_range (max_items q) (qfront q) (Z.of_nat (length l)) ltac:(lia)) as Hs. rewrite He.
  destruct (arr_set (items q) (slot (max_items q) (qfront q) (Z.of_nat (length l))) x) as [its|] eqn:E;
    [|unfold arr_set in E; rewrite decide_True in E by lia; done].
  wp_pure. apply wp_bind. eapply wp_lift; [done|]. rewrite slot_next by lia.
  pose proof (slot_range (max_items q) (qfront q) (Z.of_nat (length l) + 1) ltac:(lia)).
  rewrite !u8_small by (unfold is_u8; lia). wp_pure. split; [done|].
  constructor; simpl; try done; rewrite ?length_app; simpl.
  - by rewrite (arr_set_length _ _ _ _ E).
  - lia.
  - f_equal. lia.
  - intros i y Hy. apply lookup_app_Some in Hy as [Hy|[Hle Hy]].
    + pose proof (lookup_lt_Some _ _ _ Hy). rewrite (arr_get_set_ne _ _ _ _ _ E); [by apply Hi|].
      intros Es. symmetry in Es. apply slot_inj in Es; lia.
    + apply list_lookup_singleton_Some in Hy as [Hz <-]. replace i with (length l) by lia. by eapply arr_get_set.
Qed.

(** Without the first item. *)
Lemma ring_tail x l q :
  ring (x :: l) q ->
  ring l (set_item_count (u8 (item_count q - 1)) (set_qfront (u8 ((qfront q + 1) mod max_items q)) q)).
Proof.
  intros [Hm Hmem [Hc Hc'] Hf He Hi]. simpl length in *. pose proof (Z.mod_pos_bound (qfront q + 1) (max_items q) ltac:(lia)).
  rewrite Hc, !u8_small by (unfold is_u8; lia). constructor; simpl; try done; try lia.
  - rewrite He. unfold slot. rewrite Zplus_mod_idemp_l. f_equal. lia.
  - intros i y Hy. rewrite <- (Hi (S i) y Hy). f_equal. unfold slot. rewrite Zplus_mod_idemp_l. f_equal. lia.
Qed.

Lemma slot_0 l q : ring l q -> slot (max_items q) (qfront q) 0 = qfront q.
Proof. intros []. unfold slot. rewrite Z.add_0_r. by apply Z.mod_small. Qed.

Lemma deq_spec l q :
  ring l q -> wp deq q (λ r q', max_items q' = max_items q ∧ r = list.head l ∧ ring (tail l) q').
Proof.
  intros Hr. destruct (Hr) as [Hm Hmem [Hc Hc'] Hf He Hi]. unfold deq. wp_pure.
  destruct l as [|x l]; [rewrite bool_decide_eq_true_2 by done; by apply wp_ret|].
  rewrite bool_decide_eq_false_2 by (rewrite Hc; simpl; lia).
  pose proof (Hi 0%nat x eq_refl) as H0. change (Z.of_nat 0) with 0 in H0. rewrite (slot_0 _ _ Hr) in H0.
  wp_pure. apply wp_bind. eapply wp_lift; [exact H0|]. wp_pure. split; [done|]. split; [done|]. by apply ring_tail in Hr.
Qed.
End slots.

Section pdelq.
Implicit Types (q : queue Z) (l : list Z).

(** The search stops at the first occurrence, or after the last item. *)
Lemma search_spec l q item : ring l q -> forall d k fuel,
  (k + d = length l)%nat -> (d < fuel)%nat ->
  exists j, (k <= j <= length l)%nat ∧ (forall i, (k <= i < j)%nat -> l !! i ≠ Some item) ∧
    (j = length l ∨ l !! j = Some item) ∧
    search_loop fuel (items q) (max_items q) item (slot (max_items q) (qfront q) (Z.of_nat k)) (Z.of_nat d) =
      Some (Z.of_nat (length l - j), slot (max_items q) (qfront q) (Z.of_nat j)).
Proof.
  intros Hr. destruct (Hr) as [Hm Hmem [Hc Hc'] Hf He Hi]. intros d.
  induction d as [|d IH]; intros k fuel Hk Hfu; (destruct fuel as [|fuel]; [lia|]); cbn [search_loop].
  { rewrite bool_decide_eq_true_2 by done. exists k. split_and!; try lia. f_equal. f_equal. lia. }
  rewrite bool_decide_eq_false_2 by lia. destruct (lookup_lt_is_Some_2 l k) as [x Hx]; [lia|].
  rewrite (Hi k x Hx). simpl. case_bool_decide as Hne.
  - rewrite slot_next by lia. pose proof (slot_range (max_items q) (qfront q) (Z.of_nat k + 1) ltac:(lia)).
    rewrite !u8_small by (unfold is_u8; lia). replace (Z.of_nat k + 1) with (Z.of_nat (S k)) by lia.
    replace (Z.of_nat (S d) - 1) with (Z.of_nat d) by lia.
    destruct (IH (S k) fuel ltac:(lia) ltac:(lia)) as (j & Hj & Hn & Hend & ->). exists j. split_and!; try done; [lia|lia|].
    intros i Hik. destruct (decide (i = k)) as [->|]; [|apply Hn; lia]. rewrite Hx. congruence.
  - exists k. split_and!; try lia; [right; congruence|]. f_equal. f_equal. lia.
Qed.

(** Closing the gap at position [j >= 1] of [n] items. *)
Lemma shift_spec max f n : 0 < max <= 255 -> 0 <= n <= max -> forall d j its fuel,
  1 <= j -> j + Z.of_nat d = n -> (d < fuel)%nat -> length its = Z.to_nat max ->
  exists its', shift_loop fuel its max (slot max f j) (slot max f n) (slot max f j) = Some its' ∧ length its' = length its ∧
    forall i, 0 <= i < n -> arr_get its' (slot max f i) = arr_get its (slot max f (if bool_decide (j <= i) then i + 1 else i)).
Proof.
  intros Hm Hn d. induction d as [|d IH]; intros j its fuel Hj Ed Hfu Hl; (destruct fuel as [|fuel]; [lia|]); cbn [shift_loop].
  { replace j with n by lia. rewrite bool_decide_eq_false_2 by auto. exists its. split_and!; [done..|].
    intros i Hi. by rewrite bool_decide_eq_false_2 by lia. }
  rewrite bool_decide_eq_true_2 by (intros E; apply slot_inj in E; lia). rewrite slot_next by lia.
  pose proof (slot_range max f (j + 1) ltac:(lia)) as Hs1. pose proof (slot_range max f j ltac:(lia)) as Hs.
  rewrite u8_small by (unfold is_u8; lia). destruct (arr_get_Some its (slot max f (j + 1)) ltac:(lia)) as [x Ex]. rewrite Ex. simpl.
  rewrite (arr_set_in its) by lia. simpl. set (its1 := <[_:=_]> its).
  assert (arr_set its (slot max f j) x = Some its1) as E1 by (apply arr_set_in; lia).
  destruct (IH (j + 1) its1 fuel ltac:(lia) ltac:(lia) ltac:(lia)) as (its' & -> & Hl' & Hi'); [unfold its1; by rewrite length_insert|].
  exists its'. split_and!; [done|rewrite Hl'; apply length_insert|]. intros i Hi. rewrite Hi' by done.
  case_bool_decide as H1; case_bool_decide as H2; try lia.
  - apply (arr_get_set_ne _ _ _ _ _ E1). intros E. apply slot_inj in E; lia.
  - replace i with j by lia. rewrite (arr_get_set _ _ _ _ E1). done.
  - apply (arr_get_set_ne _ _ _ _ _ E1). intros E. symmetry in E. apply slot_inj in E; lia.
Qed.

(** Deleting the first occurrence. *)
Definition remove1 (x : Z) (l : list Z) : list Z :=
  match list_find (x =.) l with Some (i, _) => delete i l | None => l end.

(** Without the item of number [j >= 1]. *)
Lemma ring_delete l q its j :
  ring l q -> (0 < j < length l)%nat -> length its = length (items q) ->
  (forall i, 0 <= i < Z.of_nat (length l) -> arr_get its (slot (max_items q) (qfront q) i) =
    arr_get (items q) (slot (max_items q) (qfront q) (if bool_decide (Z.of_nat j <= i) then i + 1 else i))) ->
  ring (delete j l) (set_item_count (u8 (Z.of_nat (length l) - 1)) (set_qend (u8 ((slot (max_items q) (qfront q) (Z.of_nat (length l)) + max_items q - 1) mod max_items q)) (set_items its q))).
Proof.
  intros [Hm Hmem [Hc Hc'] Hf He Hi] Hj Hl Hits.
  assert (Z.of_nat (length (delete j l)) = Z.of_nat (length l) - 1) as Hdl.
  { rewrite length_delete by (apply lookup_lt_is_Some_2; lia). lia. }
  pose proof (Z.mod_pos_bound (slot (max_items q) (qfront q) (Z.of_nat (length l)) + max_items q - 1) (max_items q) ltac:(lia)).
  rewrite !u8_small by (unfold is_u8; lia). constructor; simpl; try done; try lia; rewrite ?Hdl.
  - unfold slot. replace ((qfront q + Z.of_nat (length l)) mod max_items q + max_items q - 1) with
      ((qfront q + Z.of_nat (length l)) mod max_items q + (max_items q - 1)) by lia. rewrite Zplus_mod_idemp_l.
    replace (qfront q + Z.of_nat (length l) + (max_items q - 1)) with (qfront q + (Z.of_nat (length l) - 1) + 1 * max_items q) by lia.
    apply Z_mod_plus_full.
  - intros i x Hx. destruct (decide (i < j)%nat) as [Hij|Hij].
    + rewrite list_lookup_delete_lt in Hx by lia. rewrite Hits by (apply lookup_lt_Some in Hx; lia).
      rewrite bool_decide_eq_false_2 by lia. by apply Hi.
    + rewrite list_lookup_delete_ge in Hx by lia. rewrite Hits by (apply lookup_lt_Some in Hx; lia).
      rewrite bool_decide_eq_true_2 by lia. rewrite <- (Hi _ _ Hx). do 2 f_equal. lia.
Qed.

Lemma pdelq_spec l q item :
  ring l q -> wp (pdelq item) q (λ r q', max_items q' = max_items q ∧
    r = (if bool_decide (item ∈ l) then 0 else -1) ∧ ring (remove1 item l) q').
Proof.
  intros Hr. destruct (Hr) as [Hm Hmem [Hc Hc'] Hf He Hi]. unfold pdelq, remove1. wp_pure. simpl id. rewrite Hc.
  case_bool_decide as H0.
  { apply wp_ret. destruct l; [|simpl in H0; lia]. split_and!; [done| |done]. by rewrite bool_decide_eq_false_2 by (by apply not_elem_of_nil). }
  destruct (search_spec l q item Hr (length l) 0 QUEUE_FUEL ltac:(lia) ltac:(unfold QUEUE_FUEL; lia)) as (j & Hj & Hno & Hend & Es).
  assert (slot (max_items q) (qfront q) (Z.of_nat 0) = qfront q) as Eq0 by (unfold slot; rewrite Z.add_0_r; apply Z.mod_small; lia).
  rewrite Eq0 in Es. apply wp_bind. eapply wp_lift; [exact Es|]. cbn beta iota.
  destruct (decide (j = length l)) as [->|Hjl].
  { assert (item ∉ l) as Hnin by (intros [i Hx]%list_elem_of_lookup; apply (Hno i); [pose proof (lookup_lt_Some _ _ _ Hx); lia|done]).
    rewrite bool_decide_eq_true_2 by lia. rewrite bool_decide_eq_false_2 by done. apply wp_ret. split_and!; [done..|].
    destruct (list_find _ l) as [[i x]|] eqn:E; [|done]. apply list_find_Some in E as (E & <- & _). exfalso. apply Hnin. by eapply list_elem_of_lookup_2. }
  destruct Hend as [|Hx]; [lia|]. assert (item ∈ l) as Hin by (by eapply list_elem_of_lookup_2).
  rewrite bool_decide_eq_false_2 by lia. rewrite (bool_decide_eq_true_2 (item ∈ l)) by done.
  assert (list_find (item =.) l = Some (j, item)) as ->.
  { apply list_find_Some. split_and!; [done..|]. intros i y Hy Hlt ->. apply (Hno i); [lia|done]. }
  assert (Z.of_nat (length (delete j l)) = Z.of_nat (length l) - 1) as Hdl by (rewrite length_delete by (by eauto); lia).
  destruct (decide (j = 0%nat)) as [->|Hj0].
  - rewrite bool_decide_eq_true_2 by done. destruct l as [|x l]; [done|]. apply ring_tail in Hr. wp_pure. split_and!; [done..|].
    rewrite <- Hc, Eq0. exact Hr.
  - rewrite bool_decide_eq_false_2 by (intros E; rewrite <- Eq0 in E at 2; symmetry in E; apply slot_inj in E; lia).
    rewrite He. destruct (shift_spec (max_items q) (qfront q) (Z.of_nat (length l)) ltac:(lia) ltac:(lia) (length l - j) (Z.of_nat j) (items q) QUEUE_FUEL)
      as (its & E & Hl & Hits); [lia|lia|unfold QUEUE_FUEL; lia|done|].
    apply wp_bind, wp_bind. eapply wp_lift; [exact E|]. wp_pure. split_and!; [done..|]. apply (ring_delete l q its j); done || lia.
Qed.
End pdelq.

(** Operations on a queue of process identifiers. *)
Inductive qop := Penq (x : Z) | Pdeq | Pdelq (x : Z) | Qinit.

Definition run_op (o : qop) : ST (queue Z) Z :=
  match o with
  | Penq x => penq x;; mret 0
  | Pdeq => pdeq
  | Pdelq x => pdelq x
  | Qinit => qinit;; mret 0
  end.

(** What they mean for a queue of at most [max] items. *)
Definition spec_op (max : Z) (o : qop) (l : list Z) : list Z * Z :=
  match o with
  | Penq x => (if bool_decide (Z.of_nat (length l) = max) then l else l ++ [x], 0)
  | Pdeq => match l with [] => ([], 255) | x :: l => (l, x) end
  | Pdelq x => (remove1 x l, if bool_decide (x ∈ l) then 0 else -1)
  | Qinit => ([], 0)
  end.

Fixpoint run_ops (os : list qop) : ST (queue Z) (list Z) :=
  match os with [] => mret [] | o :: os => r ← run_op o; rs ← run_ops os; mret (r :: rs) end.

Fixpoint spec_ops (max : Z) (os : list qop) (l : list Z) : list Z :=
  match os with [] => [] | o :: os => let '(l, r) := spec_op max o l in r :: spec_ops max os l end.

Lemma run_op_spec o l q :
  ring l q -> wp (run_op o) q (λ r q', max_items q' = max_items q ∧ r = (spec_op (max_items q) o l).2 ∧
    ring (spec_op (max_items q) o l).1 q').
Proof.
  intros Hr. destruct o as [x| |x|]; cbn [run_op spec_op].
  - apply wp_bind. eapply wp_mono; [by apply enq_spec|]. intros [] q' [Hm Hq]. by apply wp_ret.
  - unfold pdeq. apply wp_bind. eapply wp_mono; [by apply deq_spec|]. intros r q' (Hm & -> & Hq). apply wp_ret. by destruct l.
  - eapply wp_mono; [by apply pdelq_spec|]. intros r q' (Hm & -> & Hq). done.
  - unfold qinit. wp_pure. split_and!; [done|done|]. destruct Hr as [Hm Hmem _ _ _ _]. by apply (ring_init (items q) (max_items q)).
Qed.

Lemma run_ops_spec os : forall l q,
  ring l q -> wp (run_ops os) q (λ rs q', rs = spec_ops (max_items q) os l).
Proof.
  induction os as [|o os IH]; intros l q Hr; cbn [run_ops spec_ops]; [by apply wp_ret|].
  apply wp_bind. eapply wp_mono; [by apply (run_op_spec o l)|]. intros r q1 (Hm & -> & Hq).
  apply wp_bind. eapply wp_mono; [by apply IH|]. intros rs q2 ->. apply wp_ret. rewrite Hm. by destruct (spec_op _ _ _).
Qed.

(** C27: The process queues of the kernel are bounded FIFO queues: every
    sequence of enqueue, dequeue, delete and reset operations on a freshly
    allocated queue is defined and returns what the same operations return on
    a list (255 from an empty queue, items beyond the capacity are dropped,
    deletion takes the first occurrence and closes the gap). *)
Theorem queue_is_fifo (mem : list Z) max os :
  1 <= max <= 255 -> length mem = Z.to_nat max ->
  exists q', run_ops os (alloc_q mem max) = Some (spec_ops max os [], q').
Proof.
  intros Hm Hl. pose proof (run_ops_spec os [] (alloc_q mem max) (ring_init mem max Hm Hl)) as Hr.
  apply wp_run in Hr as (rs & q' & E & ->). by exists q'.
Qed.

Lemma queue_is_fifo_witness :
  exists q', run_ops [Penq 7; Penq 8; Pdeq; Penq 9; Penq 5; Penq 6; Pdelq 9; Pdeq; Pdeq; Pdeq] (alloc_q [0; 0; 0] 3) =
    Some ([0; 0; 7; 0; 0; 0; 0; 8; 5; 255], q').
Proof. apply (queue_is_fifo [0; 0; 0] 3 [Penq 7; Penq 8; Pdeq; Penq 9; Penq 5; Penq 6; Pdelq 9; Pdeq; Pdeq; Pdeq]); [lia|reflexivity]. Defined.
