(* ===== verification/Kheap.v ===== *)
(** * The priority queue of the scheduler is a heap

    The array operations of Kqueue.v ([prio_penq], [prio_pdeq], [prio_pdelq])
    keep the heap order and the multiset of the queued processes, and dequeue a
    process of the highest priority (the least number). *)

From Stdlib Require Import Sorted.
From S2P Require Import Prelude Kqueue.
Open Scope Z_scope.

(** ** Positions *)

Lemma parent_spec i : 0 < i -> 0 <= PARENT i < i ∧ (i = LEFT_CHILD (PARENT i) ∨ i = RIGHT_CHILD (PARENT i)).
Proof.
  intros Hi. unfold PARENT, LEFT_CHILD, RIGHT_CHILD. rewrite !Z.shiftl_mul_pow2, !Z.shiftr_div_pow2 by lia. change (2^1) with 2.
  pose proof (Z.div_mod (i - 1) 2 ltac:(lia)). pose proof (Z.mod_pos_bound (i - 1) 2 ltac:(lia)). lia.
Qed.

Lemma left_parent c : 0 <= c -> PARENT (LEFT_CHILD c) = c ∧ LEFT_CHILD c = 2 * c + 1.
Proof.
  intros Hc. unfold PARENT, LEFT_CHILD. rewrite !Z.shiftl_mul_pow2, !Z.shiftr_div_pow2 by lia. change (2^1) with 2.
  split; [|lia]. symmetry. apply (Z.div_unique _ _ _ 0); lia.
Qed.
Lemma right_parent c : 0 <= c -> PARENT (RIGHT_CHILD c) = c ∧ RIGHT_CHILD c = 2 * c + 2.
Proof.
  intros Hc. unfold PARENT, RIGHT_CHILD. rewrite !Z.shiftl_mul_pow2, !Z.shiftr_div_pow2 by lia. change (2^1) with 2.
  split; [|lia]. symmetry. apply (Z.div_unique _ _ _ 1); lia.
Qed.

(** ** Arrays *)

Section heap.
Implicit Types (pr its l : list Z) (n i j cur : Z).

Definition get (its : list Z) (i : Z) : Z := default 0 (arr_get its i).
(** The priority of the process in slot [i]. *)
Definition key pr its i : Z := get pr (get its i).

(** The first [n] slots hold processes of the table. *)
Definition valid pr n its : Prop :=
  0 <= n <= Z.of_nat (length its) ∧ n <= 255 ∧ forall i, 0 <= i < n -> 0 <= get its i < Z.of_nat (length pr) ∧ get its i < 256.

Lemma arr_get_get its i : 0 <= i < Z.of_nat (length its) -> arr_get its i = Some (get its i).
Proof. intros Hi. unfold get. by destruct (arr_get_Some its i Hi) as [x ->]. Qed.

Lemma get_insert its i x j : 0 <= i < Z.of_nat (length its) -> 0 <= j ->
  get (<[Z.to_nat i := x]> its) j = if bool_decide (j = i) then x else get its j.
Proof.
  intros Hi Hj. unfold get. rewrite !arr_get_lookup by lia. case_bool_decide as E.
  - subst. rewrite list_lookup_insert_eq by lia. done.
  - by rewrite list_lookup_insert_ne by lia.
Qed.

Lemma prio_at_key pr n its i : valid pr n its -> 0 <= i < n -> prio_at pr its i = Some (key pr its i).
Proof.
  intros (Hn & _ & Hv) Hi. unfold prio_at. rewrite arr_get_get by lia. simpl. apply arr_get_get. by apply Hv.
Qed.

(** Rearranging the first [n] slots. *)
Definition rearr n its its' : Prop :=
  its' ≡ₚ its ∧ drop (Z.to_nat n) its' = drop (Z.to_nat n) its ∧ length its' = length its.

Lemma rearr_refl n its : rearr n its its.
Proof. done. Qed.
Lemma rearr_trans n a b c : rearr n a b -> rearr n b c -> rearr n a c.
Proof. intros (H1 & H2 & H3) (H1' & H2' & H3'). split_and!; [by rewrite H1'|congruence|congruence]. Qed.

Lemma rearr_take n its its' : rearr n its its' -> take (Z.to_nat n) its' ≡ₚ take (Z.to_nat n) its.
Proof.
  intros (Hp & Hd & _). apply (Permutation_app_inv_r (drop (Z.to_nat n) its)).
  rewrite <- Hd at 1. by rewrite !take_drop.
Qed.

(** The exchange of two slots. *)
Lemma swap_spec pr n its i j :
  valid pr n its -> 0 <= i < n -> 0 <= j < n -> i ≠ j ->
  exists its', swap its i j = Some its' ∧ rearr n its its' ∧ valid pr n its' ∧
    forall k, 0 <= k < n -> get its' k = if bool_decide (k = j) then get its i else if bool_decide (k = i) then get its j else get its k.
Proof.
  intros (Hn & Hn' & Hv) Hi Hj Hne. unfold swap. rewrite !arr_get_get by lia. simpl. rewrite arr_set_in by lia. simpl.
  rewrite u8_small by (unfold is_u8; destruct (Hv i Hi); lia). rewrite arr_set_in by (rewrite length_insert; lia).
  eexists. split; [done|].
  assert (forall k, 0 <= k < n -> get (<[Z.to_nat j:=get its i]> (<[Z.to_nat i:=get its j]> its)) k =
    if bool_decide (k = j) then get its i else if bool_decide (k = i) then get its j else get its k) as Hg.
  { intros k Hk. rewrite get_insert by (rewrite ?length_insert; lia). case_bool_decide; [done|]. rewrite get_insert by lia. done. }
  split_and!; [..|done].
  - split_and!; [|rewrite !drop_insert_lt by lia; done|by rewrite !length_insert].
    assert (its !! Z.to_nat i = Some (get its i) ∧ its !! Z.to_nat j = Some (get its j)) as [Ei Ej]
      by (rewrite <- !arr_get_lookup by lia; split; apply arr_get_get; lia).
    by apply Permutation_insert_swap.
  - split_and!; [lia|rewrite !length_insert; lia|lia|]. intros k Hk. rewrite Hg by done.
    case_bool_decide; [by apply Hv|]. case_bool_decide; by apply Hv.
Qed.

(** ** The heap order *)

Definition heap pr n its : Prop := forall i, 0 < i < n -> key pr its (PARENT i) <= key pr its i.

(** The order may be violated between [cur] and its parent. *)
Definition heap_up pr n its cur : Prop :=
  (forall i, 0 < i < n -> i ≠ cur -> key pr its (PARENT i) <= key pr its i) ∧
  (forall i, 0 < i < n -> PARENT i = cur -> 0 < cur -> key pr its (PARENT cur) <= key pr its i).

(** The order may be violated between [cur] and its children. *)
Definition heap_down pr n its cur : Prop :=
  (forall i, 0 < i < n -> PARENT i ≠ cur -> key pr its (PARENT i) <= key pr its i) ∧
  (forall i, 0 < i < n -> PARENT i = cur -> 0 < cur -> key pr its (PARENT cur) <= key pr its i).

Lemma heap_root pr n its : heap pr n its -> forall i, 0 <= i < n -> key pr its 0 <= key pr its i.
Proof.
  intros Hh i Hi. assert (exists k, i = Z.of_nat k) as [k ->] by (exists (Z.to_nat i); lia).
  induction k as [k IH] using lt_wf_ind. destruct (decide (k = 0%nat)) as [->|]; [done|].
  destruct (parent_spec (Z.of_nat k) ltac:(lia)) as [Hp _]. specialize (Hh (Z.of_nat k) ltac:(lia)).
  assert (key pr its 0 <= key pr its (PARENT (Z.of_nat k))); [|lia].
  replace (PARENT (Z.of_nat k)) with (Z.of_nat (Z.to_nat (PARENT (Z.of_nat k)))) by lia. apply IH; lia.
Qed.

(** The keys after an exchange. *)
Lemma key_swap pr n its its' i j k :
  (forall k, 0 <= k < n -> get its' k = if bool_decide (k = j) then get its i else if bool_decide (k = i) then get its j else get its k) ->
  0 <= k < n -> key pr its' k = if bool_decide (k = j) then key pr its i else if bool_decide (k = i) then key pr its j else key pr its k.
Proof. intros Hg Hk. unfold key. rewrite Hg by done. by repeat case_bool_decide. Qed.

Lemma heap_up_step pr n its its' cur :
  (forall k, 0 <= k < n -> key pr its' k = if bool_decide (k = PARENT cur) then key pr its cur else if bool_decide (k = cur) then key pr its (PARENT cur) else key pr its k) ->
  0 < cur < n -> key pr its cur < key pr its (PARENT cur) -> heap_up pr n its cur -> heap_up pr n its' (PARENT cur).
Proof.
  intros Hk Hc Hlt [H1 H2]. destruct (parent_spec cur ltac:(lia)) as [Hp _]. split.
  - intros i Hi Hne. destruct (parent_spec i ltac:(lia)) as [Hpi _]. rewrite !Hk by lia.
    rewrite (bool_decide_eq_false_2 (i = PARENT cur)) by done. case_bool_decide as E1.
    + case_bool_decide as E2; [lia|]. specialize (H1 i Hi E2). rewrite E1 in H1. lia.
    + case_bool_decide as E2.
      * rewrite bool_decide_eq_false_2 by lia. apply H2; lia.
      * case_bool_decide as E3; [subst i; lia|]. by apply H1.
  - intros i Hi Ep Hp0. destruct (parent_spec (PARENT cur) ltac:(lia)) as [Hpp _]. destruct (parent_spec i ltac:(lia)) as [Hpi _].
    rewrite !Hk by lia. rewrite !(bool_decide_eq_false_2 (PARENT (PARENT cur) = _)) by lia.
    pose proof (H1 (PARENT cur) ltac:(lia) ltac:(lia)) as Hpc.
    rewrite (bool_decide_eq_false_2 (i = PARENT cur)) by lia. case_bool_decide as E; [lia|].
    specialize (H1 i Hi E). rewrite Ep in H1. lia.
Qed.

Lemma up_loop_spec pr n fuel : forall its cur,
  valid pr n its -> 0 <= cur < n -> heap_up pr n its cur -> (Z.to_nat cur < fuel)%nat ->
  exists its', up_loop fuel pr its cur = Some its' ∧ rearr n its its' ∧ valid pr n its' ∧ heap pr n its'.
Proof.
  induction fuel as [|fuel IH]; intros its cur Hv Hc Hh Hf; [lia|]. cbn [up_loop].
  case_bool_decide as H0.
  2: { exists its. split_and!; [done|done|done|]. intros i Hi. apply Hh; lia. }
  destruct (parent_spec cur ltac:(lia)) as [Hp _].
  rewrite (prio_at_key pr n its (PARENT cur)) by (done || lia). simpl. rewrite (prio_at_key pr n its cur) by (done || lia). simpl.
  case_bool_decide as Hlt.
  - destruct (swap_spec pr n its cur (PARENT cur) Hv ltac:(lia) ltac:(lia) ltac:(lia)) as (its1 & -> & Hr1 & Hv1 & Hg1). simpl.
    destruct (IH its1 (PARENT cur)) as (its2 & E & Hr2 & Hv2 & Hh2); [done|lia| |lia|].
    { apply (heap_up_step pr n its its1 cur); [|lia|done|done]. intros k Hk. by apply (key_swap pr n). }
    exists its2. split_and!; [done|by eapply rearr_trans|done|done].
  - exists its. split_and!; [done|done|done|]. intros i Hi. destruct (decide (i = cur)) as [->|]; [lia|]. by apply Hh.
Qed.

(** The least child of [cur] replaces it. *)
Lemma heap_down_step pr n its its' cur s :
  (forall k, 0 <= k < n -> key pr its' k = if bool_decide (k = s) then key pr its cur else if bool_decide (k = cur) then key pr its s else key pr its k) ->
  0 <= cur < n -> 0 < s < n -> PARENT s = cur -> key pr its s <= key pr its cur ->
  (forall i, 0 < i < n -> PARENT i = cur -> key pr its s <= key pr its i) ->
  heap_down pr n its cur -> heap_down pr n its' s.
Proof.
  intros Hk Hc Hs Ep Hle Hmin [H1 H2]. destruct (parent_spec s ltac:(lia)) as [Hps _]. split.
  - intros i Hi Hne. destruct (parent_spec i ltac:(lia)) as [Hpi _]. rewrite !Hk by lia.
    rewrite (bool_decide_eq_false_2 (PARENT i = s)) by done. case_bool_decide as E1.
    + case_bool_decide as E2; [done|]. rewrite bool_decide_eq_false_2 by lia. by apply Hmin.
    + case_bool_decide as E2; [subst i; lia|]. case_bool_decide as E3; [|by apply H1].
      subst i. by apply H2; [|done|lia].
  - intros i Hi Ei _. destruct (parent_spec i ltac:(lia)) as [Hpi _]. rewrite !Hk by lia.
    rewrite Ep, (bool_decide_eq_false_2 (cur = s)), bool_decide_eq_true_2 by lia.
    rewrite !bool_decide_eq_false_2 by lia. rewrite <- Ei. apply H1; lia.
Qed.

(** The slot that the loop of [prio_pdeq] selects is the least child. *)
Lemma select_spec pr n its cur :
  valid pr n its -> 0 <= cur -> LEFT_CHILD cur < n ->
  exists s, (if bool_decide (n - 1 < RIGHT_CHILD cur) then Some (LEFT_CHILD cur) else
             pl ← prio_at pr its (LEFT_CHILD cur);
             pq ← prio_at pr its (RIGHT_CHILD cur);
             Some (if bool_decide (pl <= pq) then LEFT_CHILD cur else RIGHT_CHILD cur)) = Some s ∧
    cur < s < n ∧ PARENT s = cur ∧ forall i, 0 < i < n -> PARENT i = cur -> key pr its s <= key pr its i.
Proof.
  intros Hv Hc Hl. destruct (left_parent cur Hc) as [Pl El]. destruct (right_parent cur Hc) as [Pr Er].
  assert (forall i, 0 < i < n -> PARENT i = cur -> i = LEFT_CHILD cur ∨ i = RIGHT_CHILD cur) as Hch.
  { intros i Hi E. destruct (parent_spec i ltac:(lia)) as [_ H]. by rewrite E in H. }
  case_bool_decide as Hr.
  - exists (LEFT_CHILD cur). split_and!; [done|lia|lia|done|]. intros i Hi E. destruct (Hch i Hi E) as [-> | ->]; lia.
  - rewrite (prio_at_key pr n its (LEFT_CHILD cur)) by (done || lia). simpl.
    rewrite (prio_at_key pr n its (RIGHT_CHILD cur)) by (done || lia). simpl.
    eexists. split; [done|]. case_bool_decide as Hle; (split_and!; [lia|lia|done|]);
      intros i Hi E; destruct (Hch i Hi E) as [-> | ->]; lia.
Qed.

Lemma down_loop_spec pr n z fuel : forall its cur,
  valid pr n its -> 0 <= cur < n -> heap_down pr n its cur -> (Z.to_nat (n - cur) <= fuel)%nat ->
  get its cur = z -> get its (n - 1) = z ->
  exists its', down_loop fuel pr its (n - 1) cur = Some its' ∧ rearr n its its' ∧ valid pr n its' ∧ heap pr n its' ∧ get its' (n - 1) = z.
Proof.
  induction fuel as [|fuel IH]; intros its cur Hv Hc Hh Hf Hz Hz'; [lia|]. cbn [down_loop].
  case_bool_decide as H0.
  2: { exists its. split_and!; [done|done|done| |done]. intros i Hi. apply Hh; [done|]. intros E.
       destruct (parent_spec i ltac:(lia)) as [_ [Ei|Ei]]; rewrite E in Ei; destruct (left_parent cur ltac:(lia)), (right_parent cur ltac:(lia)); lia. }
  destruct (select_spec pr n its cur Hv ltac:(lia) ltac:(lia)) as (s & -> & Hs & Ep & Hmin). simpl.
  rewrite (prio_at_key pr n its s) by (done || lia). simpl. rewrite (prio_at_key pr n its cur) by (done || lia). simpl.
  case_bool_decide as Hle.
  - destruct (swap_spec pr n its cur s Hv ltac:(lia) ltac:(lia) ltac:(lia)) as (its1 & -> & Hr1 & Hv1 & Hg1). simpl.
    rewrite u8_small by (unfold is_u8; destruct Hv; lia).
    destruct (IH its1 s) as (its2 & E & Hr2 & Hv2 & Hh2 & Hz2); [done|lia| |lia| | |].
    { apply (heap_down_step pr n its its1 cur); [|lia|lia|done|done|done|done]. intros k Hk. by apply (key_swap pr n). }
    { by rewrite Hg1, bool_decide_eq_true_2 by lia. }
    { rewrite Hg1 by lia. case_bool_decide; [done|]. rewrite bool_decide_eq_false_2 by lia. done. }
    exists its2. split_and!; [done|by eapply rearr_trans|done|done|done].
  - exists its. split_and!; [done|done|done| |done]. intros i Hi. destruct (decide (PARENT i = cur)) as [E|]; [|by apply Hh].
    rewrite E. specialize (Hmin i Hi E). lia.
Qed.

(** ** The queue *)

Record pheap pr l (q : queue Z) : Prop := {
  p_max : max_items q <= 255;
  p_mem : length (items q) = Z.to_nat (max_items q);
  p_count : item_count q = Z.of_nat (length l) ∧ qend q = Z.of_nat (length l) ∧ Z.of_nat (length l) <= max_items q;
  p_items : take (length l) (items q) ≡ₚ l;
  p_procs : Forall (λ x, 0 <= x < Z.of_nat (length pr) ∧ x < 256) l;
  p_heap : heap pr (Z.of_nat (length l)) (items q);
}.

Lemma get_elem (n : nat) its i : (Z.of_nat n <= Z.of_nat (length its)) -> 0 <= i < Z.of_nat n -> get its i ∈ take n its.
Proof.
  intros Hn Hi. apply list_elem_of_lookup. exists (Z.to_nat i). rewrite lookup_take_lt by lia.
  unfold get. rewrite arr_get_lookup by lia. by destruct (lookup_lt_is_Some_2 its (Z.to_nat i) ltac:(lia)) as [x ->].
Qed.
Lemma elem_get (n : nat) its x : x ∈ take n its -> exists i, 0 <= i < Z.of_nat n ∧ i < Z.of_nat (length its) ∧ get its i = x.
Proof.
  intros Hx. apply list_elem_of_lookup in Hx as [i Hi]. pose proof (lookup_lt_Some _ _ _ Hi) as Hlt. rewrite length_take in Hlt.
  exists (Z.of_nat i). split_and!; [lia..|]. unfold get. rewrite arr_get_lookup, Nat2Z.id by lia.
  rewrite lookup_take_lt in Hi by lia. by rewrite Hi.
Qed.

Lemma valid_intro pr (n : nat) its :
  (n <= length its)%nat -> (n <= 255)%nat -> Forall (λ x, 0 <= x < Z.of_nat (length pr) ∧ x < 256) (take n its) -> valid pr (Z.of_nat n) its.
Proof.
  intros Hn Hn' Hf. split_and!; [lia..|]. intros i Hi. rewrite list.Forall_forall in Hf. apply Hf. apply get_elem; lia.
Qed.

Lemma pheap_valid pr l q : pheap pr l q -> valid pr (Z.of_nat (length l)) (items q).
Proof.
  intros [Hm Hl (Hc & He & Hc') Hp Hf Hh]. apply valid_intro; [lia..|]. by rewrite Hp.
Qed.

(** Only the first [n] slots matter for the order. *)
Lemma heap_ext pr pr' n its its' :
  (forall i, 0 <= i < n -> key pr' its' i = key pr its i) -> heap pr n its -> heap pr' n its'.
Proof.
  intros Hk Hh i Hi. destruct (parent_spec i ltac:(lia)) as [Hp _]. rewrite !Hk by lia. by apply Hh.
Qed.

Lemma pheap_init pr mem max : 0 <= max <= 255 -> length mem = Z.to_nat max -> pheap pr [] (alloc_q mem max).
Proof. intros Hm Hl. constructor; simpl; try done; [lia|lia|]. intros i Hi. lia. Qed.

Lemma prio_penq_spec pr l q x :
  pheap pr l q -> 0 <= x < Z.of_nat (length pr) -> x < 256 ->
  wp (prio_penq pr x) q (λ _ q', max_items q' = max_items q ∧
    pheap pr (if bool_decide (Z.of_nat (length l) = max_items q) then l else x :: l) q').
Proof.
  intros Hq Hx Hx'. destruct (Hq) as [Hm Hl (Hc & He & Hc') Hp Hf Hh]. unfold prio_penq. wp_pure. simpl id. rewrite Hc.
  case_bool_decide as Hfull; [by apply wp_ret|]. rewrite He.
  wp_pure. apply wp_bind. eapply wp_lift; [apply arr_set_in; lia|]. rewrite Nat2Z.id.
  set (its0 := <[length l := x]> (items q)).
  assert (take (S (length l)) its0 = take (length l) (items q) ++ [x]) as Et.
  { unfold its0. erewrite take_S_r by (apply list_lookup_insert_eq; lia). by rewrite take_insert_ge by lia. }
  assert (take (S (length l)) its0 ≡ₚ x :: l) as Hp0 by (rewrite Et, Hp; symmetry; apply Permutation_cons_append).
  assert (valid pr (Z.of_nat (S (length l))) its0) as Hv0.
  { apply valid_intro; [unfold its0; rewrite length_insert; lia|lia|]. rewrite Hp0. by constructor. }
  assert (forall i, 0 <= i < Z.of_nat (length l) -> key pr its0 i = key pr (items q) i) as Hk0.
  { intros i Hi. unfold key, its0. rewrite <- (Nat2Z.id (length l)), get_insert by lia. by rewrite bool_decide_eq_false_2 by lia. }
  destruct (up_loop_spec pr _ QUEUE_FUEL its0 (Z.of_nat (length l)) Hv0) as (its1 & E & Hr & Hv1 & Hh1); [lia| |unfold QUEUE_FUEL; lia|].
  { split; intros i Hi Hne; destruct (parent_spec i ltac:(lia)) as [Hpi _]; [|lia]. rewrite !Hk0 by lia. apply Hh. lia. }
  wp_pure. apply wp_bind. eapply wp_lift; [exact E|]. rewrite !u8_small by (unfold is_u8; lia). wp_pure. split; [done|].
  destruct (Hr) as (_ & _ & Hlen). apply rearr_take in Hr. rewrite Nat2Z.id in Hr.
  constructor; simpl length; simpl.
  - done.
  - rewrite Hlen. unfold its0. by rewrite length_insert.
  - lia.
  - change (length (x :: l)) with (S (length l)). by rewrite Hr.
  - by constructor.
  - done.
Qed.

Lemma take_last (n : nat) its : (S n <= length its)%nat -> take (S n) its = take n its ++ [get its (Z.of_nat n)].
Proof.
  intros Hn. apply take_S_r. destruct (lookup_lt_is_Some_2 its n ltac:(lia)) as [x Hx]. rewrite Hx. f_equal.
  unfold get. by rewrite arr_get_lookup, Nat2Z.id, Hx by lia.
Qed.
Lemma take_first (n : nat) its : (S n <= length its)%nat -> take (S n) its = get its 0 :: take n (tail its).
Proof. intros Hn. by destruct its; [simpl in Hn; lia|]. Qed.

(** The result has the least number and leaves the queue. *)
Definition pdeq_result pr l (r : Z) (l' : list Z) : Prop :=
  l ≡ₚ r :: l' ∧ forall y, y ∈ l -> get pr r <= get pr y.

Lemma prio_pdeq_spec pr l q :
  pheap pr l q -> l ≠ [] ->
  wp (prio_pdeq pr) q (λ r q', max_items q' = max_items q ∧ exists l', pdeq_result pr l r l' ∧ pheap pr l' q').
Proof.
  intros Hq Hne. pose proof (pheap_valid _ _ _ Hq) as Hv. destruct (Hq) as [Hm Hl (Hc & He & Hc') Hp Hf Hh].
  destruct (length l) as [|n] eqn:En; [by apply nil_length_inv in En|].
  unfold prio_pdeq. wp_pure. simpl id. rewrite bool_decide_eq_false_2 by lia. rewrite He.
  set (z := get (items q) (Z.of_nat n)). set (its0 := <[Z.to_nat 0 := z]> (items q)).
  assert (valid pr (Z.of_nat (S n)) its0) as Hv0.
  { destruct Hv as (Hv1 & Hv2 & Hv3). split_and!; [unfold its0; rewrite ?length_insert; lia..|]. intros i Hi.
    unfold its0. rewrite get_insert by lia. case_bool_decide; apply Hv3; lia. }
  destruct (down_loop_spec pr (Z.of_nat (S n)) z QUEUE_FUEL its0 0 Hv0) as (its1 & E & Hr & Hv1 & Hh1 & Hz1); [lia| |unfold QUEUE_FUEL; lia|..].
  { split; intros i Hi Hpi; [|lia]. destruct (parent_spec i ltac:(lia)) as [Hpi' _].
    unfold key, its0. rewrite !get_insert, !bool_decide_eq_false_2 by lia. apply Hh. lia. }
  { unfold its0. by rewrite get_insert, bool_decide_eq_true_2 by lia. }
  { unfold its0. rewrite get_insert by lia. case_bool_decide; [done|]. unfold z. f_equal. lia. }
  apply wp_bind. eapply wp_lift; [apply arr_get_get; lia|].
  apply wp_bind. eapply wp_lift; [apply arr_get_get; lia|].
  replace (get (items q) (Z.of_nat (S n) - 1)) with z by (unfold z; f_equal; lia).
  apply wp_bind. eapply wp_lift; [apply arr_set_in; lia|]. fold its0.
  apply wp_bind. eapply wp_lift; [exact E|]. rewrite Hc, !u8_small by (unfold is_u8; lia). wp_pure. split; [done|].
  destruct (Hr) as (_ & _ & Hlen). apply rearr_take in Hr. rewrite Nat2Z.id in Hr. unfold its0 in Hlen. rewrite length_insert in Hlen.
  replace (Z.of_nat (S n) - 1) with (Z.of_nat n) in * by lia.
  assert (take n its1 ≡ₚ take n (tail (items q))) as Hrest.
  { apply (Permutation_cons_inv (a := z)). rewrite take_last, Hz1, <- Permutation_cons_append in Hr by lia. rewrite Hr.
    unfold its0. destruct (items q); [simpl in Hl; lia|done]. }
  rewrite take_first in Hp by lia. rewrite <- Hrest in Hp.
  exists (take n its1). split; [split|].
  - by symmetry.
  - intros y Hy. rewrite <- Hp in Hy. assert (y ∈ take (S n) (items q)) as Hy'.
    { rewrite take_first by lia. by rewrite <- Hrest. }
    apply elem_get in Hy' as (i & Hi & Hi' & <-). apply (heap_root pr _ _ Hh). lia.
  - assert (length (take n its1) = n) as Ht by (rewrite length_take; lia).
    constructor; simpl; rewrite ?Ht.
    + done.
    + congruence.
    + lia.
    + done.
    + rewrite <- Hp in Hf. by inversion Hf.
    + intros i Hi. apply Hh1. lia.
Qed.

Lemma prio_pdeq_empty pr q : pheap pr [] q -> wp (prio_pdeq pr) q (λ r q', r = 255 ∧ q' = q).
Proof.
  intros [Hm Hl (Hc & He & Hc') Hp Hf Hh]. unfold prio_pdeq. wp_pure. simpl id. rewrite bool_decide_eq_true_2 by done. by apply wp_ret.
Qed.

(** ** Deletion *)

Lemma index_loop_spec its item n : n <= Z.of_nat (length its) -> n <= 255 -> forall fuel i,
  0 <= i <= n -> (Z.to_nat (n - i) < fuel)%nat ->
  exists j, index_loop fuel its item i n = Some j ∧ i <= j <= n ∧ (forall k, i <= k < j -> get its k ≠ item) ∧ (j < n -> get its j = item).
Proof.
  intros Hn Hn' fuel. induction fuel as [|fuel IH]; intros i Hi Hf; [lia|]. cbn [index_loop].
  case_bool_decide as Hlt; [|exists i; split_and!; [done|lia..]].
  rewrite arr_get_get by lia. simpl. case_bool_decide as E; [exists i; split_and!; [done|lia..|done]|].
  rewrite u8_small by (unfold is_u8; lia). destruct (IH (i + 1) ltac:(lia) ltac:(lia)) as (j & -> & Hj & Hk & Hl).
  exists j. split_and!; [done|lia|lia| |done]. intros k Hk'. destruct (decide (k = i)) as [->|]; [done|apply Hk; lia].
Qed.

(** The item of the least priority moves up to the root. *)
Lemma raise_up pr n fuel : forall its i,
  valid pr n its -> 0 <= i < n -> (forall k, 0 <= k < n -> k ≠ i -> key pr its i < key pr its k) ->
  raise_loop fuel its i = up_loop fuel pr its i.
Proof.
  induction fuel as [|fuel IH]; intros its i Hv Hi Hmin; [done|]. cbn [raise_loop up_loop]. case_bool_decide as H0; [|done].
  destruct (parent_spec i ltac:(lia)) as [Hp _].
  rewrite (prio_at_key pr n its (PARENT i)) by (done || lia). simpl. rewrite (prio_at_key pr n its i) by (done || lia). simpl.
  rewrite bool_decide_eq_true_2 by (apply Hmin; lia).
  destruct (swap_spec pr n its i (PARENT i) Hv ltac:(lia) ltac:(lia) ltac:(lia)) as (its1 & E & _ & Hv1 & Hg1).
  rewrite E. simpl. rewrite <- (IH its1 (PARENT i)); [|done|lia|].
  - unfold swap in E. destruct Hv as (Hv1' & _ & Hv2). rewrite !arr_get_get in E by lia. rewrite !arr_get_get by lia. simpl in *.
    rewrite u8_small in E by (unfold is_u8; destruct (Hv2 i ltac:(lia)); lia).
    destruct (arr_set its i (get its (PARENT i))); [|done]. simpl in *. by rewrite E.
  - intros k Hk Hne. rewrite !(key_swap pr n its its1 i (PARENT i)) by (done || lia).
    rewrite bool_decide_eq_true_2, (bool_decide_eq_false_2 (k = _)) by done. case_bool_decide; apply Hmin; lia.
Qed.

(** Lowering the priority of the item in slot [i] below all others. *)
Section lower.
Context pr its n i.
Let x := get its i.
Let pr1 := <[Z.to_nat x := -1]> pr.
Hypothesis Hv : valid pr n its.
Hypothesis Hi : 0 <= i < n.
Hypothesis Hnd : forall k, 0 <= k < n -> k ≠ i -> get its k ≠ x.
Hypothesis Hpos : forall k, 0 <= k < n -> 0 <= key pr its k.

Lemma lower_get y : 0 <= y -> get pr1 y = if bool_decide (y = x) then -1 else get pr y.
Proof. intros Hy. destruct Hv as (_ & _ & H). destruct (H i Hi). unfold pr1. rewrite get_insert by (unfold x; lia). done. Qed.

Lemma lower_key k : 0 <= k < n -> key pr1 its k = if bool_decide (k = i) then -1 else key pr its k.
Proof.
  intros Hk. destruct Hv as (_ & _ & H). destruct (H k Hk). unfold key. rewrite lower_get by lia.
  case_bool_decide as E1; case_bool_decide as E2; try done; [by destruct (Hnd k Hk E2)|]. subst k. by destruct E1.
Qed.

Lemma lower_valid : valid pr1 n its.
Proof. destruct Hv as (H1 & H2 & H3). split_and!; [lia..|]. intros k Hk. unfold pr1. rewrite length_insert. by apply H3. Qed.

Lemma lower_heap_up : heap pr n its -> heap_up pr1 n its i.
Proof.
  intros Hh. split.
  - intros k Hk Hne. destruct (parent_spec k ltac:(lia)) as [Hp _]. rewrite !lower_key by lia.
    rewrite (bool_decide_eq_false_2 (k = i)) by done. case_bool_decide; [specialize (Hpos k); lia|]. by apply Hh.
  - intros k Hk Ep H0. destruct (parent_spec k ltac:(lia)) as [Hp _]. destruct (parent_spec i ltac:(lia)) as [Hpi _].
    rewrite !lower_key, !bool_decide_eq_false_2 by lia. pose proof (Hh k Hk) as H1. pose proof (Hh i ltac:(lia)) as H2.
    rewrite Ep in H1. lia.
Qed.

Lemma lower_raise fuel : heap pr n its -> (Z.to_nat i < fuel)%nat ->
  exists its', raise_loop fuel its i = Some its' ∧ rearr n its its' ∧ valid pr1 n its' ∧ heap pr1 n its'.
Proof.
  intros Hh Hf. rewrite (raise_up pr1 n); [|apply lower_valid|done|].
  - apply up_loop_spec; [apply lower_valid|done|by apply lower_heap_up|done].
  - intros k Hk Hne. rewrite !lower_key by done. rewrite bool_decide_eq_true_2, bool_decide_eq_false_2 by done.
    specialize (Hpos k Hk). lia.
Qed.

Lemma lower_restore : <[Z.to_nat x := get pr x]> pr1 = pr.
Proof.
  destruct Hv as (_ & _ & H). destruct (H i Hi) as [Hx _]. unfold pr1. rewrite list_insert_insert_eq. apply list_insert_id.
  rewrite <- arr_get_lookup by (unfold x; lia). by apply arr_get_get.
Qed.
End lower.

Lemma pheap_nodup l its :
  NoDup l -> take (length l) its ≡ₚ l -> (length l <= length its)%nat ->
  forall i k, 0 <= i < Z.of_nat (length l) -> 0 <= k < Z.of_nat (length l) -> k ≠ i -> get its k ≠ get its i.
Proof.
  intros Hnd Hp Hlen i k Hi Hk Hne E. assert (NoDup (take (length l) its)) as Hn by by rewrite Hp.
  assert (forall j, 0 <= j < Z.of_nat (length l) -> take (length l) its !! Z.to_nat j = Some (get its j)) as Hg.
  { intros j Hj. rewrite lookup_take_lt by lia. rewrite <- arr_get_lookup by lia. apply arr_get_get. lia. }
  apply Hne. assert (Z.to_nat k = Z.to_nat i); [|lia]. eapply NoDup_lookup; [exact Hn|by apply Hg|]. by rewrite E; apply Hg.
Qed.

(** Priorities restored: the order of the remaining items is the old one. *)
Lemma pheap_restore pr x l q :
  pheap (<[Z.to_nat x := -1]> pr) l q -> 0 <= x -> x ∉ l -> pheap pr l q.
Proof.
  intros Hq Hx Hn. pose proof (pheap_valid _ _ _ Hq) as (_ & _ & Hv). destruct Hq as [Hm Hl Hc Hp Hf Hh]. rewrite length_insert in Hf.
  constructor; try done. eapply heap_ext; [|exact Hh]. intros i Hi. unfold key.
  destruct (Hv i Hi) as [Hv1 _]. rewrite length_insert in Hv1. assert (get (items q) i ≠ x) as Hne.
  { intros E. apply Hn. rewrite <- E, <- Hp. apply get_elem; lia. }
  unfold get at 1 3. rewrite !arr_get_lookup by lia. by rewrite list_lookup_insert_ne by lia.
Qed.

Definition pdelq_result pr l (item : Z) (r : Z * list Z) (l' : list Z) : Prop :=
  r.2 = pr ∧ if bool_decide (item ∈ l) then r.1 = 0 ∧ l ≡ₚ item :: l' else r.1 = -1 ∧ l' = l.

Lemma prio_pdelq_spec pr l q item :
  pheap pr l q -> NoDup l -> (forall y, y ∈ l -> 0 <= get pr y) ->
  wp (prio_pdelq pr item) q (λ r q', max_items q' = max_items q ∧ exists l', pdelq_result pr l item r l' ∧ pheap pr l' q').
Proof.
  intros Hq Hnd Hpos. pose proof (pheap_valid _ _ _ Hq) as Hv. destruct (Hq) as [Hm Hl (Hc & He & Hc') Hp Hf Hh].
  set (n := Z.of_nat (length l)) in *. unfold prio_pdelq, pdelq_result. wp_pure. simpl id. rewrite Hc.
  case_bool_decide as H0.
  { apply wp_ret. split; [done|]. exists l. split; [|done]. split; [done|]. assert (l = []) as -> by (apply nil_length_inv; lia). done. }
  destruct (index_loop_spec (items q) item n ltac:(lia) ltac:(lia) QUEUE_FUEL 0) as (i & -> & Hi & Hbefore & Hfound); [lia|unfold QUEUE_FUEL; lia|].
  apply wp_bind. eapply wp_lift; [done|]. destruct (decide (i = n)) as [Hin|Hin];
    [rewrite (bool_decide_eq_true_2 (i = n)) by done|rewrite (bool_decide_eq_false_2 (i = n)) by done].
  { apply wp_ret. split; [done|]. exists l. split; [|done]. split; [done|]. rewrite bool_decide_eq_false_2; [done|].
    rewrite <- Hp. intros Hx. apply elem_get in Hx as (k & Hk & _ & Ek). by apply (Hbefore k); [lia|]. }
  specialize (Hfound ltac:(lia)). destruct (Hv) as (_ & _ & Hvi). destruct (Hvi i ltac:(lia)) as [Hx Hx'].
  assert (forall k, 0 <= k < n -> k ≠ i -> get (items q) k ≠ get (items q) i) as Hd by (intros k Hk Hne; apply (pheap_nodup l); (done || lia)).
  assert (forall k, 0 <= k < n -> get (items q) k ∈ l) as Hel by (intros k Hk; rewrite <- Hp; apply get_elem; lia).
  destruct (lower_raise pr (items q) n i Hv ltac:(lia) Hd) with (fuel := QUEUE_FUEL) as (its1 & E & Hr & Hv1 & Hh1);
    [intros k Hk; apply Hpos; by apply Hel|done|unfold QUEUE_FUEL; lia|].
  pose proof (lower_restore pr (items q) n i Hv ltac:(lia)) as Hrest. pose proof (lower_get pr (items q) n i Hv ltac:(lia)) as Hget.
  pose proof (Hel i ltac:(lia)) as Hil. rewrite Hfound in *.
  set (pr1 := <[Z.to_nat item := -1]> pr) in *.
  apply wp_bind. eapply wp_lift; [apply arr_get_get; lia|]. rewrite Hfound.
  apply wp_bind. eapply wp_lift; [apply arr_get_get; lia|].
  apply wp_bind. eapply wp_lift; [apply arr_set_in; lia|]. fold pr1.
  apply wp_bind. eapply wp_lift; [exact E|]. wp_pure. destruct (Hr) as (_ & _ & Hlen). apply rearr_take in Hr.
  replace (Z.to_nat n) with (length l) in Hr by lia.
  assert (pheap pr1 l (set_items its1 q)) as Hq1.
  { constructor; simpl; try done; [congruence|by rewrite Hr|]. unfold pr1. by rewrite length_insert. }
  apply wp_bind. eapply wp_mono; [apply (prio_pdeq_spec pr1 l _ Hq1)|].
  { intros ->. unfold n in H0. simpl in H0. lia. }
  intros tmp q' (Hm' & l' & [Hl' Hmin] & Hq').
  assert (tmp = item) as ->.
  { specialize (Hmin item Hil). assert (tmp ∈ l) as Ht by (rewrite Hl'; left). rewrite list.Forall_forall in Hf. destruct (Hf tmp Ht).
    rewrite !Hget in Hmin by lia. rewrite (bool_decide_eq_true_2 (item = item)) in Hmin by done. case_bool_decide; [done|]. specialize (Hpos tmp Ht). lia. }
  apply wp_bind. eapply wp_lift; [apply arr_set_in; unfold pr1; rewrite length_insert; lia|]. rewrite Hrest.
  apply wp_ret. split; [done|]. exists l'. split; [by rewrite bool_decide_eq_true_2|].
  apply (pheap_restore pr item); [done|lia|]. rewrite Hl' in Hnd. by apply list.NoDup_cons in Hnd as [].
Qed.
End heap.

(** ** The contract of the priority queue *)

(** The operations, with the priorities of the process table. *)
Definition run_prio (pr : list Z) (o : qop) : ST (queue Z) (Z * list Z) :=
  match o with
  | Penq x => prio_penq pr x;; mret (0, pr)
  | Pdeq => r ← prio_pdeq pr; mret (r, pr)
  | Pdelq x => prio_pdelq pr x
  | Qinit => qinit;; mret (0, pr)
  end.

(** A process is in the queue once, and has a place in the table. *)
Definition prio_ok (pr : list Z) (o : qop) (l : list Z) : Prop :=
  match o with
  | Penq x => (0 <= x < Z.of_nat (length pr) ∧ x < 256) ∧ 0 <= get pr x ∧ x ∉ l
  | _ => True
  end.

(** What an operation may do to the set [l] of the queued processes. *)
Inductive prio_spec (pr : list Z) (max : Z) : qop -> list Z -> Z -> list Z -> Prop :=
  | ps_full x l : Z.of_nat (length l) = max -> prio_spec pr max (Penq x) l 0 l
  | ps_penq x l : Z.of_nat (length l) ≠ max -> prio_spec pr max (Penq x) l 0 (x :: l)
  | ps_empty : prio_spec pr max Pdeq [] 255 []
  | ps_pdeq l r l' : l ≡ₚ r :: l' -> (forall y, y ∈ l -> get pr r <= get pr y) -> prio_spec pr max Pdeq l r l'
  | ps_absent x l : x ∉ l -> prio_spec pr max (Pdelq x) l (-1) l
  | ps_pdelq x l l' : l ≡ₚ x :: l' -> prio_spec pr max (Pdelq x) l 0 l'
  | ps_qinit l : prio_spec pr max Qinit l 0 [].

(** The queue holds the processes [l], each once. *)
Definition prio_queue (pr l : list Z) (q : queue Z) : Prop :=
  pheap pr l q ∧ NoDup l ∧ forall y, y ∈ l -> 0 <= get pr y.

Lemma prio_spec_kept pr max o l r l' :
  prio_spec pr max o l r l' -> prio_ok pr o l -> NoDup l -> (forall y, y ∈ l -> 0 <= get pr y) ->
  NoDup l' ∧ forall y, y ∈ l' -> 0 <= get pr y.
Proof.
  intros Hs Hok Hnd Hpos. destruct Hs as [x l H|x l H| |l r l' H Hmin|x l H|x l l' H|l]; try done.
  - destruct Hok as (_ & Hx & Hn). split; [by constructor|]. intros y Hy. by apply elem_of_cons in Hy as [->|Hy]; [|apply Hpos].
  - rewrite H in Hnd. apply list.NoDup_cons in Hnd as [_ Hnd]. split; [done|]. intros y Hy. apply Hpos. rewrite H. by right.
  - rewrite H in Hnd. apply list.NoDup_cons in Hnd as [_ Hnd]. split; [done|]. intros y Hy. apply Hpos. rewrite H. by right.
  - split; [constructor|]. intros y Hy. by apply elem_of_nil in Hy.
Qed.

Lemma run_prio_spec pr o l q :
  prio_queue pr l q -> prio_ok pr o l ->
  wp (run_prio pr o) q (λ r q', max_items q' = max_items q ∧ r.2 = pr ∧ exists l',
    prio_spec pr (max_items q) o l r.1 l' ∧ prio_queue pr l' q').
Proof.
  intros (Hq & Hnd & Hpos) Hok.
  assert (forall r l' q', prio_spec pr (max_items q) o l r l' -> pheap pr l' q' -> prio_queue pr l' q') as Hkeep.
  { intros r l' q' Hs Hq'. split; [done|]. by eapply prio_spec_kept. }
  destruct o as [x| |x|]; cbn [run_prio] in *.
  - destruct Hok as ([Hx Hx'] & _). apply wp_bind. eapply wp_mono; [by apply prio_penq_spec|]. intros [] q' [Hm Hq']. apply wp_ret.
    split_and!; [done|done|]. case_bool_decide as Hfull; eexists; (split; [|by eapply Hkeep; [|done]; constructor]); by constructor.
  - apply wp_bind. destruct (decide (l = [])) as [->|Hne].
    + eapply wp_mono; [by apply (prio_pdeq_empty pr)|]. intros r q' [-> ->]. apply wp_ret. split_and!; [done|done|]. exists []. split; [constructor|done].
    + eapply wp_mono; [by apply (prio_pdeq_spec pr l)|]. intros r q' (Hm & l' & [Hl Hmin] & Hq'). apply wp_ret. split_and!; [done|done|].
      assert (prio_spec pr (max_items q) Pdeq l r l') as Hs by by constructor. exists l'. split; [done|by eapply Hkeep].
  - eapply wp_mono; [by apply (prio_pdelq_spec pr l)|]. intros [r pr'] q' (Hm & l' & [-> Hr] & Hq'). simpl in *. split_and!; [done|done|].
    assert (prio_spec pr (max_items q) (Pdelq x) l r l') as Hs.
    { case_bool_decide as Hin; destruct Hr as [-> Hr]; [by constructor|subst l'; by constructor]. }
    exists l'. split; [done|by eapply Hkeep].
  - unfold qinit. wp_pure. split_and!; [done|done|]. exists []. split; [constructor|]. eapply Hkeep; [apply ps_qinit|].
    destruct Hq as [Hm Hl (_ & _ & Hc) _ _ _]. apply (pheap_init pr (items q) (max_items q)); [lia|done].
Qed.

(** C23: The scheduler's heap implements a priority queue: in every state that
    holds the processes [l] in heap order, each operation is defined, leaves
    the priorities of the process table as they were, and does to [l] what
    [prio_spec] allows: enqueueing adds the process unless the queue is full,
    dequeueing removes a process that no other precedes in priority (255 when
    there is none), deleting removes exactly the given process or reports -1,
    and the state again holds the result in heap order. *)
Theorem prio_queue_refines pr o l q :
  prio_queue pr l q -> prio_ok pr o l ->
  exists r q' l', run_prio pr o q = Some ((r, pr), q') ∧ prio_spec pr (max_items q) o l r l' ∧ prio_queue pr l' q'.
Proof.
  intros Hq Hok. pose proof (run_prio_spec pr o l q Hq Hok) as H. apply wp_run in H as ([r pr'] & q' & E & Hm & Hp & l' & Hs & Hq').
  simpl in *. subst pr'. by exists r, q', l'.
Qed.

Lemma prio_queue_refines_witness :
  exists r q' l', run_prio [3; 1; 2; 1] (Pdelq 0) (MkQueue 4 3 0 3 [1; 0; 2; 0]) = Some ((r, [3; 1; 2; 1]), q') ∧
    prio_spec [3; 1; 2; 1] 4 (Pdelq 0) [0; 1; 2] r l' ∧ prio_queue [3; 1; 2; 1] l' q'.
Proof.
  apply (prio_queue_refines [3; 1; 2; 1] (Pdelq 0) [0; 1; 2] (MkQueue 4 3 0 3 [1; 0; 2; 0])); [|exact I].
  split_and!.
  - constructor; simpl; try (vm_compute; congruence); [lia|by apply Permutation_swap| |].
    + repeat constructor; simpl; lia.
    + intros i Hi. assert (i = 1 ∨ i = 2) as [-> | ->] by lia; vm_compute; congruence.
  - repeat constructor; set_solver.
  - intros y Hy. assert (y = 0 ∨ y = 1 ∨ y = 2) as [-> | [-> | ->]] by set_solver; vm_compute; congruence.
Defined.

(** Queueing some processes and taking them all out again. *)
Fixpoint fill (pr xs : list Z) : ST (queue Z) unit :=
  match xs with [] => skip | x :: xs => prio_penq pr x;; fill pr xs end.
Fixpoint drain (pr : list Z) (n : nat) : ST (queue Z) (list Z) :=
  match n with O => mret [] | S n => r ← prio_pdeq pr; rs ← drain pr n; mret (r :: rs) end.

Lemma fill_spec pr xs : forall l q,
  pheap pr l q -> Forall (λ x, 0 <= x < Z.of_nat (length pr) ∧ x < 256) xs -> Z.of_nat (length l + length xs) <= max_items q ->
  wp (fill pr xs) q (λ _ q', exists l', l' ≡ₚ xs ++ l ∧ pheap pr l' q').
Proof.
  induction xs as [|x xs IH]; intros l q Hq Hf Hl; cbn [fill]; [apply wp_ret; by exists l|].
  apply list.Forall_cons in Hf as [[Hx Hx'] Hf]. simpl length in Hl.
  apply wp_bind. eapply wp_mono; [by apply (prio_penq_spec pr l)|]. intros [] q1 [Hm Hq1]. rewrite bool_decide_eq_false_2 in Hq1 by lia.
  eapply wp_mono; [apply (IH (x :: l) q1 Hq1 Hf); rewrite Hm; simpl; lia|]. intros [] q2 (l' & Hl' & Hq2).
  exists l'. split; [|done]. rewrite Hl'. symmetry. apply Permutation_middle.
Qed.

Lemma drain_spec pr n : forall l q,
  pheap pr l q -> length l = n ->
  wp (drain pr n) q (λ rs _, rs ≡ₚ l ∧ StronglySorted (λ x y, get pr x <= get pr y) rs).
Proof.
  induction n as [|n IH]; intros l q Hq Hl; cbn [drain].
  { apply wp_ret. apply nil_length_inv in Hl as ->. split; [done|constructor]. }
  apply wp_bind. eapply wp_mono; [apply (prio_pdeq_spec pr l q Hq); by intros ->|]. intros r q1 (_ & l' & [Hl' Hmin] & Hq1).
  apply wp_bind. eapply wp_mono; [apply (IH l' q1 Hq1); apply Permutation_length in Hl'; simpl in Hl'; lia|].
  intros rs q2 [Hrs Hs]. apply wp_ret. split; [by rewrite Hrs, Hl'|]. constructor; [done|].
  apply list.Forall_forall. intros y Hy. apply Hmin. rewrite Hl'. right. by rewrite <- Hrs.
Qed.

(** Processes that are enqueued into an empty heap come out in the order of
    their priorities: filling the queue with [xs] (up to its capacity, which
    is at most 255) and dequeuing as many times is defined and returns a
    permutation of [xs] in which priorities never decrease. *)
Theorem heap_sorts pr mem max xs :
  0 <= max <= 255 -> length mem = Z.to_nat max -> Z.of_nat (length xs) <= max ->
  Forall (λ x, 0 <= x < Z.of_nat (length pr) ∧ x < 256) xs ->
  exists rs q', (fill pr xs;; drain pr (length xs)) (alloc_q mem max) = Some (rs, q') ∧
    rs ≡ₚ xs ∧ StronglySorted (λ x y, get pr x <= get pr y) rs.
Proof.
  intros Hm Hl Hx Hf. apply wp_run. apply wp_bind.
  eapply wp_mono; [apply (fill_spec pr xs [] (alloc_q mem max) (pheap_init pr mem max Hm Hl) Hf); done|].
  intros [] q1 (l & Hl' & Hq). rewrite app_nil_r in Hl'.
  eapply wp_mono; [apply (drain_spec pr (length xs) l q1 Hq); by apply Permutation_length|].
  intros rs q2 [Hrs Hs]. split; [by rewrite Hrs|done].
Qed.

Lemma heap_sorts_witness :
  exists rs q', (fill [5; 1; 3; 1; 0] [0; 1; 2; 3; 4];; drain [5; 1; 3; 1; 0] 5) (alloc_q [0; 0; 0; 0; 0; 0] 6) = Some (rs, q') ∧
    rs ≡ₚ [0; 1; 2; 3; 4] ∧ StronglySorted (λ x y, get [5; 1; 3; 1; 0] x <= get [5; 1; 3; 1; 0] y) rs.
Proof.
  apply (heap_sorts [5; 1; 3; 1; 0] [0; 0; 0; 0; 0; 0] 6 [0; 1; 2; 3; 4]); [lia|reflexivity|simpl; lia|].
  repeat constructor; simpl; lia.
Defined.
