(* ===== verification/Ktimer.v ===== *)
(** * Software timers of the kernel (bsp/xilkernel_v4_00_a/src/src/sys/timer.c)

    The pool of timers and the two lists of active timer identifiers, of which
    one is current and the other is filled when the list changes. The handler
    of expired timers, which calls the scheduler's data, is in Ksched.v. *)

From S2P Require Import Prelude Kqueue.
Open Scope Z_scope.

(** ** Data (timer.h, timer.c) *)

Record soft_tmr := MkTmr { tm_timeout : Z; tm_pid : Z }.
Definition set_tm_timeout x t := MkTmr x (tm_pid t).
Definition set_tm_pid x t := MkTmr (tm_timeout t) x.

Record tmrs := MkTmrs {
  soft_tmrs : list soft_tmr;
  active_tmrs_a : list Z;
  active_tmrs_b : list Z;
  active_is_a : bool;    (** [active_tmrs] points to the list A *)
  nactive : Z;
}.
Definition set_soft_tmrs x t := MkTmrs x (active_tmrs_a t) (active_tmrs_b t) (active_is_a t) (nactive t).
Definition set_active_is_a x t := MkTmrs (soft_tmrs t) (active_tmrs_a t) (active_tmrs_b t) x (nactive t).
Definition set_nactive x t := MkTmrs (soft_tmrs t) (active_tmrs_a t) (active_tmrs_b t) (active_is_a t) x.
Definition set_list (a : bool) x t :=
  if a then MkTmrs (soft_tmrs t) x (active_tmrs_b t) (active_is_a t) (nactive t)
  else MkTmrs (soft_tmrs t) (active_tmrs_a t) x (active_is_a t) (nactive t).
Definition get_list (a : bool) t : list Z := if a then active_tmrs_a t else active_tmrs_b t.

(** The clock of the system timer, and the size of the pool. *)
Class TmrConfig := {
  MAX_TMRS : Z;
  SYSTMR_CLK_FREQ : Z;
  SYSTMR_CLK_FREQ_KHZ : Z;
  SYSTMR_INTERVAL : Z;
}.

Section timers.
Context {TC : TmrConfig}.

(** ** Operations *)

Definition get_tmr (i : Z) : ST tmrs soft_tmr := ts ← gets soft_tmrs; lift (arr_get ts i).
Definition put_tmr (i : Z) (x : soft_tmr) : ST tmrs unit :=
  ts ← gets soft_tmrs; ts' ← lift (arr_set ts i x); modify (set_soft_tmrs ts').
(** [active_tmrs[i]], and writing a slot of the list [a]. *)
Definition get_active (i : Z) : ST tmrs Z := a ← gets active_is_a; l ← gets (get_list a); lift (arr_get l i).
Definition put_list (a : bool) (i x : Z) : ST tmrs unit :=
  l ← gets (get_list a); l' ← lift (arr_set l i x); modify (set_list a l').

Definition soft_tmr_init : ST tmrs unit :=
  for_up 0 MAX_TMRS (λ i,
    put_tmr i (MkTmr 0 (-1));;
    put_list true i (-1);;
    put_list false i (-1));;
  modify (set_active_is_a true);;
  modify (set_nactive 0).

Definition ms_to_ticks (ms : Z) : Z := u32 (ms * SYSTMR_CLK_FREQ_KHZ) `div` SYSTMR_INTERVAL.
Definition ticks_to_ms (ticks : Z) : Z := u32 (ticks * (SYSTMR_INTERVAL `div` SYSTMR_CLK_FREQ_KHZ)).

(** The loop of [update_active_tmrs_list]; the result is [curactive]. *)
Fixpoint update_loop (n : nat) (i : Z) (pid : Z) (curactive : Z) : ST tmrs Z :=
  match n with
  | O => mret curactive
  | S n =>
      id ← get_active i;
      tm ← get_tmr id;
      if bool_decide (tm_pid tm = pid) then
        put_tmr id (set_tm_pid (-1) tm);;
        update_loop n (i + 1) pid curactive
      else
        a ← gets active_is_a;
        put_list (negb a) curactive id;;
        update_loop n (i + 1) pid (curactive + 1)
  end.

(** [active_tmrs = tmrshadow; nactive = curactive;] *)
Definition swap_lists (curactive : Z) : ST tmrs unit :=
  a ← gets active_is_a;
  modify (set_active_is_a (negb a));;
  modify (set_nactive curactive).

Definition update_active_tmrs_list (pid : Z) : ST tmrs unit :=
  n ← gets nactive;
  curactive ← update_loop (Z.to_nat n) 0 pid 0;
  swap_lists curactive.

(** The loop over the pool: the first index whose timer belongs to [pid],
    or [MAX_TMRS]. *)
Fixpoint find_tmr (n : nat) (i pid : Z) : ST tmrs Z :=
  match n with
  | O => mret i
  | S n => tm ← get_tmr i; if bool_decide (tm_pid tm = pid) then mret i else find_tmr n (i + 1) pid
  end.

Definition get_free_tmr : ST tmrs Z :=
  n ← gets nactive;
  if bool_decide (n = MAX_TMRS) then mret (-1) else find_tmr (Z.to_nat MAX_TMRS) 0 (-1).

Definition add_tmr (pid ms : Z) : ST tmrs Z :=
  tmr ← get_free_tmr;
  if bool_decide (tmr < 0) then mret (-1) else
  let ticks := ms_to_ticks ms in
  let ticks := if bool_decide (ticks = 0) then 1 else ticks in
  put_tmr tmr (MkTmr ticks pid);;
  n ← gets nactive;
  a ← gets active_is_a;
  put_list a n tmr;;
  modify (set_nactive (n + 1));;
  mret 0.

Definition remove_tmr (pid : Z) : ST tmrs Z :=
  i ← find_tmr (Z.to_nat MAX_TMRS) 0 pid;
  if bool_decide (i < MAX_TMRS) then
    tm ← get_tmr i;
    update_active_tmrs_list pid;;
    mret (ticks_to_ms (tm_timeout tm))
  else mret 0.

(** ** The lists implement a queue of timers *)

Implicit Types (K R : list Z) (T TK TR : list soft_tmr).

Abbreviation holds ts := (Forall2 (λ id tm, arr_get ts id = Some tm)).

Lemma wp_get_active i id t (Q : Z -> tmrs -> Prop) :
  arr_get (get_list (active_is_a t) t) i = Some id -> Q id t -> wp (get_active i) t Q.
Proof. intros E HQ. unfold get_active. wp_pure. by eapply wp_lift. Qed.
Lemma wp_get_tmr id tm t (Q : soft_tmr -> tmrs -> Prop) : arr_get (soft_tmrs t) id = Some tm -> Q tm t -> wp (get_tmr id) t Q.
Proof. intros E HQ. unfold get_tmr. wp_pure. by eapply wp_lift. Qed.
Lemma wp_put_tmr id x ts t (Q : unit -> tmrs -> Prop) :
  arr_set (soft_tmrs t) id x = Some ts -> Q tt (set_soft_tmrs ts t) -> wp (put_tmr id x) t Q.
Proof. intros E HQ. unfold put_tmr. wp_pure. apply wp_bind. eapply wp_lift; [done|]. by apply wp_modify. Qed.
Lemma wp_put_list a i x t (Q : unit -> tmrs -> Prop) :
  0 <= i < Z.of_nat (length (get_list a t)) -> Q tt (set_list a (<[Z.to_nat i := x]> (get_list a t)) t) -> wp (put_list a i x) t Q.
Proof.
  intros Hi HQ. unfold put_list. wp_pure. apply wp_bind. eapply wp_lift; [by apply arr_set_in|]. by apply wp_modify.
Qed.

(** What a write to one of the lists keeps. *)
Lemma set_list_facts a l t :
  active_is_a (set_list a l t) = active_is_a t ∧ soft_tmrs (set_list a l t) = soft_tmrs t ∧
  nactive (set_list a l t) = nactive t ∧
  forall b, get_list b (set_list a l t) = if bool_decide (b = a) then l else get_list b t.
Proof. unfold set_list, get_list. destruct a; split_and!; try done; by intros []. Qed.

(** While a list is rewritten: the first [i] entries of the current list are
    processed, [R] are left, and the shadow list holds [K]. *)
Record tmid (i : nat) K R TK TR (t : tmrs) : Prop := {
  m_soft : length (soft_tmrs t) = Z.to_nat MAX_TMRS;
  m_lists a : length (get_list a t) = Z.to_nat MAX_TMRS;
  m_cnt : nactive t = Z.of_nat (i + length R) ∧ Z.of_nat (i + length R) <= MAX_TMRS ∧ (length K <= i)%nat;
  m_cur j x : R !! j = Some x -> get_list (active_is_a t) t !! (i + j)%nat = Some x;
  m_shadow j x : K !! j = Some x -> get_list (negb (active_is_a t)) t !! j = Some x;
  m_nodup : NoDup (K ++ R);
  m_kept : holds (soft_tmrs t) K TK;
  m_left : holds (soft_tmrs t) R TR;
  m_own id tm : arr_get (soft_tmrs t) id = Some tm -> (tm_pid tm ≠ -1 <-> id ∈ K ++ R);
}.

(** The active timers are [T], in the order of the list. *)
Definition trep T (t : tmrs) : Prop := exists R, tmid 0 [] R [] T t.

Lemma vals_set ts ts' id x K TK :
  arr_set ts id x = Some ts' -> id ∉ K -> holds ts K TK -> holds ts' K TK.
Proof.
  intros E Hn. induction 1 as [|id' tm K TK H _ IH]; constructor; [|apply IH; set_solver].
  rewrite (arr_get_set_ne _ _ _ _ _ E); [done|set_solver].
Qed.

(** The entry that is processed next, and its timer. *)
Lemma mid_head i K id R TK tm TR t :
  tmid i K (id :: R) TK (tm :: TR) t ->
  arr_get (get_list (active_is_a t) t) (Z.of_nat i) = Some id ∧ arr_get (soft_tmrs t) id = Some tm.
Proof.
  intros H. split; [|pose proof (m_left _ _ _ _ _ _ H) as Hl; by inversion_clear Hl]. rewrite arr_get_nat.
  rewrite <- (Nat.add_0_r i). by apply (m_cur _ _ _ _ _ _ H).
Qed.

(** Changing the timer of that entry; a timer without owner leaves the list. *)
Lemma mid_put i K id R TK tm tm' TR t :
  tmid i K (id :: R) TK (tm :: TR) t ->
  wp (put_tmr id tm') t (λ _ t',
    if bool_decide (tm_pid tm' = -1) then tmid (S i) K R TK TR t' else tmid i K (id :: R) TK (tm' :: TR) t').
Proof.
  intros H. destruct (mid_head _ _ _ _ _ _ _ _ H) as [_ Ht]. pose proof (arr_get_range _ _ _ Ht) as Hid.
  destruct (arr_set (soft_tmrs t) id tm') as [ts|] eqn:E; [|by rewrite arr_set_in in E].
  eapply wp_put_tmr; [done|]. destruct H as [H1 H2 (H3 & H3' & H3'') H4 H5 H6 H7 H8 H9].
  pose proof (proj1 (list.NoDup_app K (id :: R)) H6) as (HndK & Hdis & HndR). apply list.NoDup_cons in HndR as [HnR HndR].
  assert (id ∉ K) as HnK by (intros ?; apply (Hdis id); set_solver). inversion_clear H8 as [|? ? ? ? Hx H8'].
  pose proof (arr_set_length _ _ _ _ E) as Hl.
  assert (forall j, tm_pid tm' ≠ -1 ∨ j ≠ id -> forall x, arr_get ts j = Some x -> (tm_pid x ≠ -1 <-> j ∈ K ++ id :: R)) as Hown.
  { intros j Hj x Hx'. destruct (decide (j = id)) as [->|Hne].
    - rewrite (arr_get_set _ _ _ _ E) in Hx'. simplify_eq. set_solver.
    - rewrite (arr_get_set_ne _ _ _ _ _ E) in Hx' by done. by apply H9. }
  case_bool_decide as Hp; constructor; simpl; try done; try congruence.
  - simpl in *. lia.
  - intros j x Hj. specialize (H4 (S j) x Hj). by replace (S (i + j)) with (i + S j)%nat by lia.
  - rewrite <- Permutation_middle in H6. by apply list.NoDup_cons in H6 as [_ H6].
  - by eapply vals_set.
  - by eapply vals_set.
  - intros j x Hj. destruct (decide (j = id)) as [->|Hne]; [rewrite (arr_get_set _ _ _ _ E) in Hj; simplify_eq; set_solver|].
    rewrite (Hown j (or_intror Hne) x Hj). set_solver.
  - by eapply vals_set.
  - constructor; [by eapply arr_get_set|by eapply vals_set].
  - intros j x. apply Hown. by left.
Qed.

(** Keeping the entry. *)
Lemma mid_keep i K id R TK tm TR t :
  tmid i K (id :: R) TK (tm :: TR) t ->
  wp (put_list (negb (active_is_a t)) (Z.of_nat (length K)) id) t (λ _ t',
    active_is_a t' = active_is_a t ∧ tmid (S i) (K ++ [id]) R (TK ++ [tm]) TR t').
Proof.
  intros [H1 H2 (H3 & H3' & H3'') H4 H5 H6 H7 H8 H9]. simpl length in *. apply wp_put_list; [rewrite H2; lia|]. rewrite Nat2Z.id.
  inversion_clear H8 as [|? ? ? ? Hx H8']. set (a := active_is_a t) in *. set (l := <[_ := _]> _).
  destruct (set_list_facts (negb a) l t) as (E1 & E2 & E3 & E4). fold a in E1.
  assert (get_list a (set_list (negb a) l t) = get_list a t) as E5 by (rewrite E4; by destruct a).
  assert (get_list (negb a) (set_list (negb a) l t) = l) as E6 by (rewrite E4; by rewrite bool_decide_eq_true_2).
  split; [done|]. constructor; rewrite ?E1, ?E2, ?E3; try done.
  - intros b. rewrite E4. case_bool_decide; [|done]. unfold l. rewrite length_insert. apply H2.
  - rewrite length_app. simpl. lia.
  - intros j x Hj. rewrite E5. specialize (H4 (S j) x Hj). by replace (S i + j)%nat with (i + S j)%nat by lia.
  - intros j x Hj. rewrite E6. apply lookup_app_Some in Hj as [Hj|[Hle Hj]].
    + pose proof (lookup_lt_Some _ _ _ Hj). unfold l. rewrite list_lookup_insert_ne by lia. by apply H5.
    + apply list_lookup_singleton_Some in Hj as [Hj <-]. replace j with (length K) by lia.
      unfold l. apply list_lookup_insert_eq. rewrite H2. lia.
  - by rewrite <- app_assoc.
  - apply Forall2_app; [done|]. by constructor.
  - intros id' tm' E. rewrite (H9 id' tm' E). set_solver.
Qed.

Lemma mid_finish i K TK t : tmid i K [] TK [] t -> wp (swap_lists (Z.of_nat (length K))) t (λ _ t', trep TK t').
Proof.
  intros [H1 H2 (H3 & H3' & H3'') H4 H5 H6 H7 H8 H9]. unfold swap_lists. wp_pure. exists K. simpl in *. rewrite Nat.add_0_r in *.
  rewrite app_nil_r in *. constructor; simpl; try done; lia.
Qed.

(** Removing the timers of a process. *)
Lemma update_loop_spec pid R : forall TR i K TK t,
  tmid i K R TK TR t ->
  wp (update_loop (length R) (Z.of_nat i) pid (Z.of_nat (length K))) t (λ n t', exists K',
    n = Z.of_nat (length K') ∧ tmid (i + length R) K' [] (TK ++ filter (λ tm, tm_pid tm ≠ pid) TR) [] t').
Proof.
  induction R as [|id R IH]; intros TR i K TK t H; cbn [update_loop length].
  { apply wp_ret. exists K. split; [done|]. pose proof (m_left _ _ _ _ _ _ H) as Hl. inversion Hl; subst. rewrite filter_nil, app_nil_r.
    by rewrite Nat.add_0_r. }
  pose proof (m_left _ _ _ _ _ _ H) as Hl. destruct TR as [|tm TR]; [by inversion Hl|].
  destruct (mid_head _ _ _ _ _ _ _ _ H) as [Ha Ht].
  apply wp_bind. eapply wp_get_active; [exact Ha|]. apply wp_bind. eapply wp_get_tmr; [exact Ht|].
  replace (i + S (length R))%nat with (S i + length R)%nat by lia. replace (Z.of_nat i + 1) with (Z.of_nat (S i)) by lia.
  rewrite filter_cons. case_bool_decide as Hp.
  - rewrite decide_False by auto. apply wp_bind. eapply wp_mono; [by apply (mid_put _ _ _ _ _ _ (set_tm_pid (-1) tm)) with (1 := H)|].
    intros [] t1 H1. rewrite bool_decide_eq_true_2 in H1 by done. by apply IH.
  - rewrite decide_True by auto. wp_pure. apply wp_bind. eapply wp_mono; [by eapply mid_keep|]. intros [] t1 [_ H1].
    replace (Z.of_nat (length K) + 1) with (Z.of_nat (length (K ++ [id]))) by (rewrite length_app; simpl; lia).
    eapply wp_mono; [by apply IH|]. intros n t2 (K' & -> & H2). exists K'. split; [done|]. by rewrite <- app_assoc in H2.
Qed.

Lemma update_spec pid T t :
  trep T t -> wp (update_active_tmrs_list pid) t (λ _ t', trep (filter (λ tm, tm_pid tm ≠ pid) T) t').
Proof.
  intros [R H]. unfold update_active_tmrs_list. wp_pure. destruct (m_cnt _ _ _ _ _ _ H) as (Hn & _). rewrite Hn, Nat2Z.id.
  apply wp_bind. eapply wp_mono; [apply (update_loop_spec pid R T 0 [] [] t H)|]. intros n t' (K & -> & H').
  eapply wp_mono; [by eapply mid_finish|]. done.
Qed.

(** The search through the pool. *)
Lemma find_tmr_spec pid t n : forall i,
  length (soft_tmrs t) = (i + n)%nat ->
  wp (find_tmr n (Z.of_nat i) pid) t (λ r t', t' = t ∧ Z.of_nat i <= r <= Z.of_nat (i + n) ∧
    (forall j tm, Z.of_nat i <= j < r -> arr_get (soft_tmrs t) j = Some tm -> tm_pid tm ≠ pid) ∧
    (r < Z.of_nat (i + n) -> exists tm, arr_get (soft_tmrs t) r = Some tm ∧ tm_pid tm = pid)).
Proof.
  induction n as [|n IH]; intros i Hl; cbn [find_tmr]; [apply wp_ret; split_and!; [done|lia..]|].
  destruct (arr_get_Some (soft_tmrs t) (Z.of_nat i)) as [tm E]; [lia|].
  apply wp_bind. eapply wp_get_tmr; [done|]. case_bool_decide as Hp.
  { apply wp_ret. split_and!; [done|lia..|]. by exists tm. }
  replace (Z.of_nat i + 1) with (Z.of_nat (S i)) by lia. eapply wp_mono; [apply IH; lia|].
  intros r t' (-> & Hr & Hno & Hyes). split_and!; [done|lia|lia| |].
  - intros j tm' Hj Ej. destruct (decide (j = Z.of_nat i)) as [->|]; [congruence|]. apply (Hno j); [lia|done].
  - intros Hlt. apply Hyes. lia.
Qed.

(** A pool with an inactive timer has a free one. *)
Lemma pool_not_full R T t :
  tmid 0 [] R [] T t -> Z.of_nat (length R) < MAX_TMRS ->
  ~ forall id tm, 0 <= id < MAX_TMRS -> arr_get (soft_tmrs t) id = Some tm -> tm_pid tm ≠ -1.
Proof.
  intros H Hlt Hall. assert (seqZ 0 MAX_TMRS ⊆ R) as Hsub.
  { intros id Hid%elem_of_seqZ. destruct (arr_get_Some (soft_tmrs t) id) as [tm E].
    { rewrite (m_soft _ _ _ _ _ _ H). lia. }
    rewrite <- (app_nil_l R). by apply (m_own _ _ _ _ _ _ H id tm E), (Hall id); [lia|]. }
  apply NoDup_submseteq, submseteq_length in Hsub; [rewrite length_seqZ in Hsub; lia|]. apply NoDup_seqZ.
Qed.

Lemma trep_length T t : trep T t -> nactive t = Z.of_nat (length T) ∧ Z.of_nat (length T) <= MAX_TMRS.
Proof.
  intros [R H]. destruct (m_cnt _ _ _ _ _ _ H) as (Hn & Hm & _). pose proof (Forall2_length (m_left _ _ _ _ _ _ H)). lia.
Qed.

Definition ticks_of (ms : Z) : Z := if bool_decide (ms_to_ticks ms = 0) then 1 else ms_to_ticks ms.

Lemma add_tmr_spec pid ms T t :
  trep T t -> pid ≠ -1 ->
  wp (add_tmr pid ms) t (λ r t',
    if bool_decide (Z.of_nat (length T) = MAX_TMRS) then r = -1 ∧ t' = t
    else r = 0 ∧ trep (T ++ [MkTmr (ticks_of ms) pid]) t').
Proof.
  intros Ht Hpid. destruct (trep_length _ _ Ht) as [Hn Hm]. destruct Ht as [R H].
  pose proof (Forall2_length (m_left _ _ _ _ _ _ H)) as HRT.
  unfold add_tmr, get_free_tmr. wp_pure. rewrite Hn. case_bool_decide as Hfull; [apply wp_ret; by apply wp_ret|].
  eapply wp_mono; [apply (find_tmr_spec (-1) t (Z.to_nat MAX_TMRS) 0); by rewrite (m_soft _ _ _ _ _ _ H)|].
  intros r t0 (-> & Hr & Hno & Hyes). change (Z.of_nat 0) with 0 in *. rewrite Nat.add_0_l in *.
  assert (r < MAX_TMRS) as Hlt.
  { destruct (decide (r = MAX_TMRS)) as [->|]; [|lia]. exfalso. apply (pool_not_full R T t H); [lia|]. intros id tm Hid. apply Hno. lia. }
  destruct (Hyes ltac:(lia)) as (tm & Er & Hfree). rewrite bool_decide_eq_false_2 by lia. fold (ticks_of ms).
  destruct H as [H1 H2 (H3 & H3' & H3'') H4 H5 H6 H7 H8 H9].
  assert (r ∉ R) as HnR by (intros Hin; by apply (H9 r tm Er)).
  destruct (arr_set (soft_tmrs t) r (MkTmr (ticks_of ms) pid)) as [ts|] eqn:E; [|by rewrite arr_set_in in E by lia].
  pose proof (arr_set_length _ _ _ _ E) as Hlts. apply wp_bind. eapply wp_put_tmr; [done|]. wp_pure.
  set (t1 := set_soft_tmrs ts t). assert (forall a, get_list a t1 = get_list a t) as Hg1 by done.
  apply wp_bind, wp_put_list; [rewrite Hg1, H2; simpl; lia|]. wp_pure. split; [done|]. simpl active_is_a. simpl nactive. rewrite Hn.
  exists (R ++ [r]). set (a := active_is_a t) in *. set (l := <[_ := r]> _). destruct (set_list_facts a l t1) as (E1 & E2 & E3 & E4).
  assert (get_list a (set_list a l t1) = l) as E5 by (rewrite E4; by rewrite bool_decide_eq_true_2).
  set (t2 := set_list a l t1) in *. set (t3 := set_nactive _ t2).
  assert (active_is_a t3 = a ∧ soft_tmrs t3 = ts ∧ forall b, get_list b t3 = get_list b t2) as (F1 & F2 & F3)
    by (split_and!; [exact E1|exact E2|done]).
  constructor; rewrite ?F1, ?F2, ?length_app; simpl length; try done; try lia.
  - intros b. rewrite F3, E4. case_bool_decide; [|apply H2]. unfold l. rewrite length_insert. apply H2.
  - simpl. lia.
  - intros j x Hj. rewrite F3, E5. apply lookup_app_Some in Hj as [Hj|[Hle Hj]].
    + pose proof (lookup_lt_Some _ _ _ Hj). unfold l. rewrite list_lookup_insert_ne by lia. by apply H4.
    + apply list_lookup_singleton_Some in Hj as [Hj <-]. replace (0 + j)%nat with (Z.to_nat (Z.of_nat (length T))) by lia.
      unfold l. apply list_lookup_insert_eq. rewrite Hg1, H2. lia.
  - simpl. apply list.NoDup_app. split_and!; [done|set_solver|apply NoDup_singleton].
  - apply Forall2_app; [by eapply vals_set|]. constructor; [by eapply arr_get_set|done].
  - intros id tm' Hid. simpl. destruct (decide (id = r)) as [->|Hne].
    + rewrite (arr_get_set _ _ _ _ E) in Hid. simplify_eq. set_solver.
    + rewrite (arr_get_set_ne _ _ _ _ _ E) in Hid by done. rewrite (H9 id tm' Hid). set_solver.
Qed.

Lemma filter_none_dropped {A} (P : A -> Prop) `{forall x, Decision (P x)} (l : list A) : (forall x, x ∈ l -> P x) -> filter P l = l.
Proof.
  induction l as [|x l IH]; intros Hl; [done|]. rewrite filter_cons, decide_True by (apply Hl; set_solver). f_equal. apply IH. set_solver.
Qed.

(** No timer of the pool belongs to a process without active timer. *)
Lemma trep_lookup T t pid id tm :
  trep T t -> pid ≠ -1 -> arr_get (soft_tmrs t) id = Some tm -> tm_pid tm = pid -> tm ∈ T.
Proof.
  intros [R H] Hpid E Hp. assert (id ∈ R) as Hin by (apply (m_own _ _ _ _ _ _ H id tm E); congruence).
  apply list_elem_of_lookup in Hin as [j Hj]. destruct (Forall2_lookup_l _ _ _ _ _ (m_left _ _ _ _ _ _ H) Hj) as (tm' & Hj' & E').
  assert (tm' = tm) as -> by congruence. by eapply list_elem_of_lookup_2.
Qed.

Lemma trep_pool T t tm : trep T t -> tm ∈ T -> exists id, 0 <= id < MAX_TMRS ∧ arr_get (soft_tmrs t) id = Some tm.
Proof.
  intros [R H] Hin. apply list_elem_of_lookup in Hin as [j Hj].
  destruct (Forall2_lookup_r _ _ _ _ _ (m_left _ _ _ _ _ _ H) Hj) as (id & _ & E). exists id. split; [|done].
  pose proof (arr_get_range _ _ _ E). rewrite (m_soft _ _ _ _ _ _ H) in *. lia.
Qed.

(** The time that the timer of [pid] had left. *)
Lemma remove_tmr_spec pid T t :
  trep T t -> pid ≠ -1 ->
  wp (remove_tmr pid) t (λ r t', trep (filter (λ tm, tm_pid tm ≠ pid) T) t' ∧
    ((exists tm, tm ∈ T ∧ tm_pid tm = pid ∧ r = ticks_to_ms (tm_timeout tm)) ∨ (r = 0 ∧ forall tm, tm ∈ T -> tm_pid tm ≠ pid))).
Proof.
  intros H Hpid. assert (length (soft_tmrs t) = Z.to_nat MAX_TMRS) as Hl by (destruct H as [R H]; apply (m_soft _ _ _ _ _ _ H)).
  unfold remove_tmr. apply wp_bind. eapply wp_mono; [by apply (find_tmr_spec pid t (Z.to_nat MAX_TMRS) 0)|].
  intros i t0 (-> & Hi & Hno & Hyes). change (Z.of_nat 0) with 0 in *. rewrite Nat.add_0_l in *. case_bool_decide as Hlt.
  - destruct (Hyes ltac:(lia)) as (tm & E & Hp). apply wp_bind. eapply wp_get_tmr; [done|].
    apply wp_bind. eapply wp_mono; [by apply update_spec|]. intros [] t' Ht'. apply wp_ret. split; [done|]. left.
    exists tm. split_and!; [|done..]. by eapply trep_lookup.
  - apply wp_ret. assert (forall tm, tm ∈ T -> tm_pid tm ≠ pid) as Hall.
    { intros tm Hin. destruct (trep_pool _ _ _ H Hin) as (id & Hid & E). apply (Hno id); [lia|done]. }
    split; [|by right]. by rewrite (filter_none_dropped _ T).
Qed.

Lemma soft_tmr_init_spec t :
  length (soft_tmrs t) = Z.to_nat MAX_TMRS -> (forall a, length (get_list a t) = Z.to_nat MAX_TMRS) -> 0 <= MAX_TMRS ->
  wp soft_tmr_init t (λ _ t', trep [] t').
Proof.
  intros Hs Hl Hm. unfold soft_tmr_init. apply wp_bind. apply (wp_for_up 0 MAX_TMRS _ (λ i t',
    length (soft_tmrs t') = Z.to_nat MAX_TMRS ∧ (forall a, length (get_list a t') = Z.to_nat MAX_TMRS) ∧
    forall j tm, j < i -> arr_get (soft_tmrs t') j = Some tm -> tm_pid tm = -1)); [done| | |].
  - split_and!; [done..|]. intros j tm Hj E. apply arr_get_range in E. lia.
  - intros i t1 Hi (H1 & H2 & H3). destruct (arr_set (soft_tmrs t1) i (MkTmr 0 (-1))) as [ts|] eqn:E; [|rewrite arr_set_in in E by lia; done].
    pose proof (arr_set_length _ _ _ _ E) as Hts.
    apply wp_bind. eapply wp_put_tmr; [done|]. apply wp_bind, wp_put_list; [specialize (H2 true); simpl in *; lia|].
    apply wp_put_list; [specialize (H2 false); simpl in *; lia|]. split_and!.
    + simpl. congruence.
    + intros []; simpl; rewrite length_insert; [apply (H2 true)|apply (H2 false)].
    + intros j tm Hj Ej. simpl in Ej. destruct (decide (j = i)) as [->|]; [rewrite (arr_get_set _ _ _ _ E) in Ej; by simplify_eq|].
      rewrite (arr_get_set_ne _ _ _ _ _ E) in Ej by done. apply (H3 j); [lia|done].
  - intros t1 (H1 & H2 & H3). wp_pure. exists []. constructor; simpl; try done; try constructor.
    + intros Hne. exfalso. apply Hne. apply (H3 id); [|done]. apply arr_get_range in H. lia.
    + intros ?%elem_of_nil. done.
Qed.
End timers.
