(* ===== verification/Ksched.v ===== *)
(** * Processes and the scheduler of the kernel

    process.c, sched.c, the handler of timer.c, timer_intr_handler.c and the entry
    code of bsp/xilkernel_v4_00_a/src/src, for both scheduling types. The
    configuration (os_config.h) is an argument; CONFIG_TIME, CONFIG_SEMA and
    CONFIG_PTHREAD_MUTEX are on, CONFIG_STATS and CONFIG_DEBUGMON are off.

    A process that waits inside of a system call keeps its place in the code in
    its saved context; here the context is a [frame], which says what the call
    does once [suspend] returns. Queues are referred to by name ([qid]), as the
    code does with pointers into its tables. *)

From stdpp Require Import gmap.
From S2P Require Import Prelude Kqueue Kheap Ktimer.
Open Scope Z_scope.

(** ** Configuration (os_config.h, config_param.h) *)

Class KConfig := {
  sched_is_prio : bool;      (** [SCHED_TYPE == SCHED_PRIO] *)
  MAX_PROCESS_CONTEXTS : Z;
  N_PRIO : Z;                (** 1 for round robin *)
  MAX_READYQ : Z;
  MAX_SEM : Z;
  MAX_SEM_WAITQ : Z;
  MAX_PTHREAD_MUTEX : Z;
  MAX_PTHREAD_MUTEX_WAITQ : Z;
  k_tmr :: TmrConfig;
}.

(** ** Data (ktypes.h) *)

(** The process states of process.h. *)
Inductive pstate := PROC_NEW | PROC_RUN | PROC_READY | PROC_WAIT | PROC_TIMED_WAIT | PROC_DELAY | PROC_DEAD.
#[export] Instance pstate_eq_dec : EqDecision pstate.
Proof. solve_decision. Defined.

(** Pointers to the process queues: [&ready_q[i]], [&sem_heap[i].sem_wait_q],
    [&pthread_mutex_heap[i].mutex_wait_q], [&thread_info_list[i].joinq]. *)
Inductive qid := ReadyQ (i : Z) | SemQ (i : Z) | MutexQ (i : Z) | JoinQ (i : Z).
#[export] Instance qid_eq_dec : EqDecision qid.
Proof. solve_decision. Defined.
#[export] Program Instance qid_countable : Countable qid :=
  inj_countable (λ q, match q with ReadyQ i => (0, i) | SemQ i => (1, i) | MutexQ i => (2, i) | JoinQ i => (3, i) end)
    (λ x, let '(k, i) := x in Some (if bool_decide (k = 0) then ReadyQ i else if bool_decide (k = 1) then SemQ i
      else if bool_decide (k = 2) then MutexQ i else JoinQ i)) _.
Next Obligation. by intros []. Qed.

(** Where a call is suspended: what it does when [suspend] returns. *)
Inductive frame :=
  | FSleep
  | FSemWait (i : Z)
  | FSemTimed (i pid : Z)
  | FMutex (i : Z)
  | FJoin (i : Z)    (** in [sys_pthread_join], which the threads continue *)
  | FExit.    (** the call does not return *)
#[export] Instance frame_eq_dec : EqDecision frame.
Proof. solve_decision. Defined.

(** The result of a system call, unless the caller is blocked. *)
Inductive outcome := Done (r : Z) | Blocked.

(** [isrflag] and [kctx] are the parts of [pcontext] that the C code sees; [kctx]
    is [None] for a process that is not inside of a system call. *)
Record pcb := MkPcb {
  isrflag : Z;
  kctx : option frame;
  p_state : pstate;
  p_pid : Z;
  p_priority : Z;
  is_allocated : bool;
  blockq : option qid;
  p_timeout : bool;
  p_remain : Z;
  p_errno : Z;
}.

Definition set_isrflag (x : Z) (s : pcb) : pcb := MkPcb x (kctx s) (p_state s) (p_pid s) (p_priority
    s) (is_allocated s) (blockq s) (p_timeout s) (p_remain s) (p_errno s).
Definition set_kctx (x : option frame) (s : pcb) : pcb := MkPcb (isrflag s) x (p_state s) (p_pid s)
    (p_priority s) (is_allocated s) (blockq s) (p_timeout s) (p_remain s) (p_errno s).
Definition set_p_state (x : pstate) (s : pcb) : pcb := MkPcb (isrflag s) (kctx s) x (p_pid s)
    (p_priority s) (is_allocated s) (blockq s) (p_timeout s) (p_remain s) (p_errno s).
Definition set_p_pid (x : Z) (s : pcb) : pcb := MkPcb (isrflag s) (kctx s) (p_state s) x (p_priority
    s) (is_allocated s) (blockq s) (p_timeout s) (p_remain s) (p_errno s).
Definition set_p_priority (x : Z) (s : pcb) : pcb := MkPcb (isrflag s) (kctx s) (p_state s) (p_pid
    s) x (is_allocated s) (blockq s) (p_timeout s) (p_remain s) (p_errno s).
Definition set_is_allocated (x : bool) (s : pcb) : pcb := MkPcb (isrflag s) (kctx s) (p_state s)
    (p_pid s) (p_priority s) x (blockq s) (p_timeout s) (p_remain s) (p_errno s).
Definition set_blockq (x : option qid) (s : pcb) : pcb := MkPcb (isrflag s) (kctx s) (p_state s)
    (p_pid s) (p_priority s) (is_allocated s) x (p_timeout s) (p_remain s) (p_errno s).
Definition set_p_timeout (x : bool) (s : pcb) : pcb := MkPcb (isrflag s) (kctx s) (p_state s) (p_pid
    s) (p_priority s) (is_allocated s) (blockq s) x (p_remain s) (p_errno s).
Definition set_p_remain (x : Z) (s : pcb) : pcb := MkPcb (isrflag s) (kctx s) (p_state s) (p_pid s)
    (p_priority s) (is_allocated s) (blockq s) (p_timeout s) x (p_errno s).
Definition set_p_errno (x : Z) (s : pcb) : pcb := MkPcb (isrflag s) (kctx s) (p_state s) (p_pid s)
    (p_priority s) (is_allocated s) (blockq s) (p_timeout s) (p_remain s) x.

Record sem_info := MkSem {
  sem_id : Z;
  sem_value : Z;
  sem_owner : Z;
  sem_unlink : bool;
}.

Definition set_sem_id (x : Z) (s : sem_info) : sem_info := MkSem x (sem_value s) (sem_owner s)
    (sem_unlink s).
Definition set_sem_value (x : Z) (s : sem_info) : sem_info := MkSem (sem_id s) x (sem_owner s)
    (sem_unlink s).
Definition set_sem_owner (x : Z) (s : sem_info) : sem_info := MkSem (sem_id s) (sem_value s) x
    (sem_unlink s).
Definition set_sem_unlink (x : bool) (s : sem_info) : sem_info := MkSem (sem_id s) (sem_value s)
    (sem_owner s) x.

Record sem_map_t := MkSemMap {
  sm_name : list Z;
  sm_sem : Z;
}.

Definition set_sm_name (x : list Z) (s : sem_map_t) : sem_map_t := MkSemMap x (sm_sem s).
Definition set_sm_sem (x : Z) (s : sem_map_t) : sem_map_t := MkSemMap (sm_name s) x.

Record mutexinfo := MkMutex {
  mx_allocated : bool;
  mx_locked : Z;
  mx_type : Z;
  mx_owner : Z;
}.

Definition set_mx_allocated (x : bool) (s : mutexinfo) : mutexinfo := MkMutex x (mx_locked s)
    (mx_type s) (mx_owner s).
Definition set_mx_locked (x : Z) (s : mutexinfo) : mutexinfo := MkMutex (mx_allocated s) x (mx_type
    s) (mx_owner s).
Definition set_mx_type (x : Z) (s : mutexinfo) : mutexinfo := MkMutex (mx_allocated s) (mx_locked s)
    x (mx_owner s).
Definition set_mx_owner (x : Z) (s : mutexinfo) : mutexinfo := MkMutex (mx_allocated s) (mx_locked
    s) (mx_type s) x.

Record kst := MkKst {
  ptable : list pcb;
  kqs : gmap qid (queue Z);
  current_pid : Z;
  prev_pid : Z;
  ctx_save_process : option Z;
  resched : bool;
  did_resched : bool;
  ktm : tmrs;
  kernel_ticks : Z;
  sched_partial_tick : bool;
  timer_need_refresh : bool;
  sem_heap : list sem_info;
  sem_map : list sem_map_t;
  mutex_heap : list mutexinfo;
}.

Definition set_ptable (x : list pcb) (s : kst) : kst := MkKst x (kqs s) (current_pid s) (prev_pid s)
    (ctx_save_process s) (resched s) (did_resched s) (ktm s) (kernel_ticks s) (sched_partial_tick s)
    (timer_need_refresh s) (sem_heap s) (sem_map s) (mutex_heap s).
Definition set_kqs (x : gmap qid (queue Z)) (s : kst) : kst := MkKst (ptable s) x (current_pid s)
    (prev_pid s) (ctx_save_process s) (resched s) (did_resched s) (ktm s) (kernel_ticks s)
    (sched_partial_tick s) (timer_need_refresh s) (sem_heap s) (sem_map s) (mutex_heap s).
Definition set_current_pid (x : Z) (s : kst) : kst := MkKst (ptable s) (kqs s) x (prev_pid s)
    (ctx_save_process s) (resched s) (did_resched s) (ktm s) (kernel_ticks s) (sched_partial_tick s)
    (timer_need_refresh s) (sem_heap s) (sem_map s) (mutex_heap s).
Definition set_prev_pid (x : Z) (s : kst) : kst := MkKst (ptable s) (kqs s) (current_pid s) x
    (ctx_save_process s) (resched s) (did_resched s) (ktm s) (kernel_ticks s) (sched_partial_tick s)
    (timer_need_refresh s) (sem_heap s) (sem_map s) (mutex_heap s).
Definition set_ctx_save_process (x : option Z) (s : kst) : kst := MkKst (ptable s) (kqs s)
    (current_pid s) (prev_pid s) x (resched s) (did_resched s) (ktm s) (kernel_ticks s)
    (sched_partial_tick s) (timer_need_refresh s) (sem_heap s) (sem_map s) (mutex_heap s).
Definition set_resched (x : bool) (s : kst) : kst := MkKst (ptable s) (kqs s) (current_pid s)
    (prev_pid s) (ctx_save_process s) x (did_resched s) (ktm s) (kernel_ticks s) (sched_partial_tick
    s) (timer_need_refresh s) (sem_heap s) (sem_map s) (mutex_heap s).
Definition set_did_resched (x : bool) (s : kst) : kst := MkKst (ptable s) (kqs s) (current_pid s)
    (prev_pid s) (ctx_save_process s) (resched s) x (ktm s) (kernel_ticks s) (sched_partial_tick s)
    (timer_need_refresh s) (sem_heap s) (sem_map s) (mutex_heap s).
Definition set_ktm (x : tmrs) (s : kst) : kst := MkKst (ptable s) (kqs s) (current_pid s) (prev_pid
    s) (ctx_save_process s) (resched s) (did_resched s) x (kernel_ticks s) (sched_partial_tick s)
    (timer_need_refresh s) (sem_heap s) (sem_map s) (mutex_heap s).
Definition set_kernel_ticks (x : Z) (s : kst) : kst := MkKst (ptable s) (kqs s) (current_pid s)
    (prev_pid s) (ctx_save_process s) (resched s) (did_resched s) (ktm s) x (sched_partial_tick s)
    (timer_need_refresh s) (sem_heap s) (sem_map s) (mutex_heap s).
Definition set_sched_partial_tick (x : bool) (s : kst) : kst := MkKst (ptable s) (kqs s)
    (current_pid s) (prev_pid s) (ctx_save_process s) (resched s) (did_resched s) (ktm s)
    (kernel_ticks s) x (timer_need_refresh s) (sem_heap s) (sem_map s) (mutex_heap s).
Definition set_timer_need_refresh (x : bool) (s : kst) : kst := MkKst (ptable s) (kqs s)
    (current_pid s) (prev_pid s) (ctx_save_process s) (resched s) (did_resched s) (ktm s)
    (kernel_ticks s) (sched_partial_tick s) x (sem_heap s) (sem_map s) (mutex_heap s).
Definition set_sem_heap (x : list sem_info) (s : kst) : kst := MkKst (ptable s) (kqs s) (current_pid
    s) (prev_pid s) (ctx_save_process s) (resched s) (did_resched s) (ktm s) (kernel_ticks s)
    (sched_partial_tick s) (timer_need_refresh s) x (sem_map s) (mutex_heap s).
Definition set_sem_map (x : list sem_map_t) (s : kst) : kst := MkKst (ptable s) (kqs s) (current_pid
    s) (prev_pid s) (ctx_save_process s) (resched s) (did_resched s) (ktm s) (kernel_ticks s)
    (sched_partial_tick s) (timer_need_refresh s) (sem_heap s) x (mutex_heap s).
Definition set_mutex_heap (x : list mutexinfo) (s : kst) : kst := MkKst (ptable s) (kqs s)
    (current_pid s) (prev_pid s) (ctx_save_process s) (resched s) (did_resched s) (ktm s)
    (kernel_ticks s) (sched_partial_tick s) (timer_need_refresh s) (sem_heap s) (sem_map s) x.

Section kernel.
Context {KC : KConfig}.

Definition PRIO_LOWEST : Z := N_PRIO - 1.
Definition idle_task_pid : Z := 0.

(** ** Access to the tables *)

Definition get_proc (p : Z) : ST kst pcb := t ← gets ptable; lift (arr_get t p).
Definition upd_proc (p : Z) (f : pcb -> pcb) : ST kst unit :=
  x ← get_proc p; t ← gets ptable; t' ← lift (arr_set t p (f x)); modify (set_ptable t').

(** Running a queue operation on the queue that a pointer refers to. *)
Definition on_q {A} (q : qid) (m : ST (queue Z) A) : ST kst A :=
  m0 ← gets kqs;
  x ← lift (m0 !! q);
  r ← lift (m x);
  let '(a, x') := r in
  modify (set_kqs (<[q := x']> m0));;
  mret a.
Definition tmr {A} (m : ST tmrs A) : ST kst A := zoom ktm set_ktm m.

Definition prios (s : kst) : list Z := p_priority <$> ptable s.
Definition set_prios (pr : list Z) (s : kst) : kst := set_ptable (zip_with set_p_priority pr (ptable s)) s.

(** The ready queue of a process. *)
Definition ready_of (x : pcb) : qid := ReadyQ (if sched_is_prio then p_priority x else 0).

(** The queue operations on wait queues, chosen by [SCHED_TYPE]; a [pid_t] is
    a [signed char]. *)
Definition wait_enq (q : qid) (pid : Z) : ST kst unit :=
  if sched_is_prio then pr ← gets prios; on_q q (prio_penq pr pid) else on_q q (penq pid).
Definition wait_deq (q : qid) : ST kst Z :=
  r ← (if sched_is_prio then pr ← gets prios; on_q q (prio_pdeq pr) else on_q q pdeq);
  mret (s8 r).
Definition wait_delq (q : qid) (pid : Z) : ST kst Z :=
  if sched_is_prio then
    pr ← gets prios;
    r ← on_q q (prio_pdelq pr pid);
    let '(n, pr') := r in
    modify (set_prios pr');;
    mret n
  else on_q q (pdelq pid).

(** [penq] on the ready queue of the process. *)
Definition ready_enq (pid : Z) : ST kst unit := x ← get_proc pid; on_q (ready_of x) (penq pid).

Definition kerrno (e : Z) : ST kst unit := c ← gets current_pid; upd_proc c (set_p_errno e).

(** ** Scheduling (sched.c) *)

(** The loop that takes the next process of a ready queue and flushes out
    dead ones; -1 when the queue runs empty. *)
Fixpoint flush_loop (fuel : nat) (q : qid) (ready : Z) : ST kst Z :=
  match fuel with
  | O => undef
  | S fuel =>
      n ← on_q q (gets item_count);
      if bool_decide (n = 0) then mret ready else
      r ← on_q q pdeq;
      x ← get_proc (s8 r);
      if bool_decide (p_state x = PROC_DEAD) then flush_loop fuel q (-1) else mret (s8 r)
  end.

(** [for (i = 0; i <= PRIO_LOWEST; i++)], until a process is found. *)
Fixpoint prio_loop (n : nat) (i : Z) : ST kst Z :=
  match n with
  | O => mret (-1)
  | S n =>
      ready ← flush_loop QUEUE_FUEL (ReadyQ i) (-1);
      if bool_decide (ready ≠ -1) then mret ready else prio_loop n (i + 1)
  end.

(** A running process goes back to its ready queue, unless it is the idle task. *)
Definition requeue_current : ST kst unit :=
  c ← gets current_pid;
  x ← get_proc c;
  if bool_decide (p_state x = PROC_RUN) then
    upd_proc c (set_p_state PROC_READY);;
    if bool_decide (c ≠ idle_task_pid) then ready_enq c else skip
  else skip.

(** The end of both schedulers. *)
Definition run_process (ready : Z) : ST kst unit :=
  let ready := if bool_decide (ready = -1) then idle_task_pid else ready in
  upd_proc ready (set_p_state PROC_RUN);;
  modify (set_current_pid ready).

Definition sched_rr : ST kst unit :=
  requeue_current;;
  modify (set_current_pid (-1));;
  ready ← flush_loop QUEUE_FUEL (ReadyQ 0) (-1);
  run_process ready.

Definition sched_prio : ST kst unit :=
  requeue_current;;
  modify (set_current_pid (-1));;
  ready ← prio_loop (Z.to_nat N_PRIO) 0;
  run_process ready.

(** 1 when the current process stays. *)
Definition scheduler : ST kst Z :=
  c ← gets current_pid;
  x ← get_proc c;
  (if bool_decide (p_state x = PROC_DEAD) then
     modify (set_ctx_save_process None);; modify (set_prev_pid (-1))
   else if bool_decide (isrflag x = 1) then
     modify (set_ctx_save_process None);; modify (set_prev_pid c)
   else
     modify (set_ctx_save_process (Some c));; modify (set_prev_pid c));;
  (if sched_is_prio then sched_prio else sched_rr);;
  c ← gets current_pid;
  if bool_decide (c = -1) then undef else
  modify (set_did_resched true);;
  modify (set_resched false);;
  p ← gets prev_pid;
  mret (if bool_decide (p = c) then 1 else 0).

(** [save_context], with the place [f] in the code where the call continues. *)
Definition save_context (p : Z) (f : option frame) : ST kst unit :=
  upd_proc p (λ x, set_isrflag 0 (set_kctx f x)).

(** The part of [pit_reset] that concerns the scheduler. *)
Definition pit_reset : ST kst unit :=
  refresh ← gets timer_need_refresh;
  if refresh : bool then
    modify (set_timer_need_refresh false);;
    modify (set_sched_partial_tick false);;
    modify (set_did_resched false)
  else
    d ← gets did_resched;
    if d : bool then modify (set_did_resched false);; modify (set_sched_partial_tick true) else skip.

Definition restore_context : ST kst unit :=
  pit_reset;;
  c ← gets current_pid;
  upd_proc c (set_isrflag 0).

(** A scheduling that does not change the process is an endless loop. *)
Definition suspend (f : frame) : ST kst unit :=
  r ← scheduler;
  if bool_decide (r ≠ 0) then undef else
  p ← gets ctx_save_process;
  (match p with Some p => save_context p (Some f) | None => skip end);;
  restore_context.

(** ** Processes (process.c) *)

Definition proc_create (priority : Z) : ST kst Z :=
  t ← gets ptable;
  match list_find (λ x, is_allocated x = false) t with
  | Some (i, x) =>
      let i := Z.of_nat i in
      upd_proc i (λ x, set_isrflag 0 (set_kctx None (set_blockq None (set_p_priority (s8 priority)
        (set_p_state PROC_NEW (set_p_pid i (set_is_allocated true x)))))));;
      (if bool_decide (i ≠ 0) then on_q (ReadyQ (if sched_is_prio then priority else 0)) (penq i) else skip);;
      (if sched_is_prio then modify (set_resched true) else skip);;
      mret i
  | None => mret (-1)
  end.

Definition process_invalidate (p : Z) : ST kst Z :=
  upd_proc p (λ x, set_p_state PROC_DEAD (set_is_allocated false x));; mret 0.

(** The pid and the state of [*ps]. *)
Definition sys_process_status (p : Z) : ST kst (Z * Z * option pstate) :=
  x ← get_proc p;
  mret (if is_allocated x then (0, p, Some (p_state x)) else (-1, -1, None)).

Definition sys_yield : ST kst outcome := modify (set_resched true);; mret (Done 0).

Definition sys_get_currentPID : ST kst Z := gets current_pid.

Definition process_block (q : qid) (st : pstate) (f : frame) : ST kst unit :=
  c ← gets current_pid;
  wait_enq q c;;
  upd_proc c (λ x, set_p_state st (set_blockq (Some q) x));;
  suspend f.

Definition process_unblock (q : qid) : ST kst unit :=
  pid ← wait_deq q;
  if bool_decide (pid = -1) then skip else
  x ← get_proc pid;
  (if bool_decide (p_state x = PROC_TIMED_WAIT) then
     r ← tmr (remove_tmr pid); upd_proc pid (set_p_remain r)
   else skip);;
  upd_proc pid (λ x, set_blockq None (set_p_state PROC_READY x));;
  ready_enq pid;;
  (if sched_is_prio then modify (set_resched true) else skip).

(** ** Timers (timer.c) *)

Definition handle_timeout (pid : Z) : ST kst unit :=
  x ← get_proc pid;
  (match blockq x with
   | Some q =>
       wait_delq q pid;;
       upd_proc pid (λ x, set_blockq None (set_p_timeout true x))
   | None => skip
   end);;
  upd_proc pid (set_p_state PROC_READY);;
  ready_enq pid;;
  modify (set_resched true).

(** The loop of [soft_tmr_handler]; the result is [curactive]. *)
Fixpoint handler_loop (n : nat) (i curactive : Z) : ST kst Z :=
  match n with
  | O => mret curactive
  | S n =>
      id ← tmr (get_active i);
      tm ← tmr (get_tmr id);
      let tm := set_tm_timeout (u32 (tm_timeout tm - 1)) tm in
      tmr (put_tmr id tm);;
      if bool_decide (tm_timeout tm = 0) then
        handle_timeout (tm_pid tm);;
        tmr (put_tmr id (set_tm_pid (-1) tm));;
        handler_loop n (i + 1) curactive
      else
        a ← gets (active_is_a ∘ ktm);
        tmr (put_list (negb a) curactive id);;
        handler_loop n (i + 1) (curactive + 1)
  end.

Definition soft_tmr_handler : ST kst unit :=
  n ← gets (nactive ∘ ktm);
  curactive ← handler_loop (Z.to_nat n) 0 0;
  tmr (swap_lists curactive).

Definition sys_xget_clock_ticks : ST kst Z := gets kernel_ticks.
Definition sys_time : ST kst Z :=
  t ← gets kernel_ticks; mret (u32 (t * SYSTMR_INTERVAL) `div` SYSTMR_CLK_FREQ).

Definition sys_sleep (ms : Z) : ST kst outcome :=
  c ← gets current_pid;
  r ← tmr (add_tmr c ms);
  if bool_decide (r = -1) then mret (Done ms) else
  upd_proc c (set_p_state PROC_DELAY);;
  suspend FSleep;;
  mret Blocked.

(** ** Interrupts (timer_intr_handler.c) and the entry code (entry.S) *)

Definition timer_int_handler : ST kst unit :=
  t ← gets kernel_ticks;
  modify (set_kernel_ticks (u32 (t + 1)));;
  soft_tmr_handler;;
  partial ← gets sched_partial_tick;
  (if partial : bool then
     (if sched_is_prio then skip else modify (set_resched false));;
     modify (set_sched_partial_tick false)
   else modify (set_resched true));;
  modify (set_timer_need_refresh true).

(** An interrupt of the timer, from the interrupted process to the next. *)
Definition irq_entry : ST kst unit :=
  c ← gets current_pid;
  upd_proc c (set_isrflag 1);;
  timer_int_handler;;
  b ← gets resched;
  (if b : bool then scheduler;; modify (set_ctx_save_process None) else skip);;
  restore_context.

(** The end of a system call that was not blocked. *)
Definition syscall_exit : ST kst unit :=
  b ← gets resched;
  if b : bool then
    r ← scheduler;
    if bool_decide (r ≠ 0) then skip else
    p ← gets ctx_save_process;
    p ← lift p;
    save_context p None;;
    modify (set_ctx_save_process None);;
    restore_context
  else skip.

(** ** Processes from ELF files (elf.c) *)

(** The start address and the stack are not modelled, only the mark of a new
    context ([setup_initial_context]). *)
Definition sys_elf_process_create (priority : Z) : ST kst outcome :=
  pid ← proc_create priority;
  if bool_decide (pid = -1) then mret (Done (-1)) else
  upd_proc pid (set_isrflag 2);;
  mret (Done pid).

Definition sys_elf_exit : ST kst outcome :=
  c ← gets current_pid;
  process_invalidate c;;
  suspend FExit;;
  mret Blocked.

(** ** Initialisation *)

Definition alloc_pid_q (max : Z) : queue Z := alloc_q (replicate (Z.to_nat max) 0) max.

Definition readyq_init : ST kst unit :=
  for_up 0 N_PRIO (λ i, m ← gets kqs; modify (set_kqs (<[ReadyQ i := alloc_pid_q MAX_READYQ]> m))).

Definition init_idle_task : ST kst unit :=
  p ← proc_create PRIO_LOWEST;
  upd_proc p (set_p_state PROC_RUN);;
  modify (set_current_pid p).
End kernel.
