(* ===== verification/Ksem.v ===== *)
(** * Semaphores of the kernel (bsp/xilkernel_v4_00_a/src/src/ipc/semaphore.c)

    The functions take the value that the [sem_t] pointer refers to, or [None]
    for a null pointer. The value of a semaphore is a [signed char]. *)

From stdpp Require Import gmap.
From S2P Require Import Prelude Kqueue Kheap Ktimer Ksched.
Open Scope Z_scope.

Definition EINVAL : Z := 22.
Definition ENOSPC : Z := 28.
Definition ENOENT : Z := 2.
Definition EEXIST : Z := 17.
Definition EAGAIN : Z := 11.
Definition EBUSY : Z := 16.
Definition EIDRM : Z := 36.
Definition ETIMEDOUT : Z := 116.
Definition ENOTSUP : Z := 134.
Definition O_CREAT : Z := 0x200.
Definition O_EXCL : Z := 0x800.
Definition SEM_NAME_MAX : Z := 25.

Section sem.
Context {KC : KConfig}.

Definition get_sem (i : Z) : ST kst sem_info := h ← gets sem_heap; lift (arr_get h i).
Definition upd_sem (i : Z) (f : sem_info -> sem_info) : ST kst unit :=
  x ← get_sem i; h ← gets sem_heap; h' ← lift (arr_set h i (f x)); modify (set_sem_heap h').
Definition put_map (i : Z) (x : sem_map_t) : ST kst unit :=
  m ← gets sem_map; m' ← lift (arr_set m i x); modify (set_sem_map m').
(** [bzero(name); sem = 0] *)
Definition clear_map (i : Z) : ST kst unit := put_map i (MkSemMap (replicate (Z.to_nat SEM_NAME_MAX) 0) 0).

(** A failing call. *)
Definition fail (e : Z) : ST kst outcome := kerrno e;; mret (Done (-1)).

(** ** Lookup *)

Definition sem_heap_init : ST kst unit :=
  for_up 0 MAX_SEM (λ i,
    upd_sem i (λ x, set_sem_unlink false (set_sem_owner (-1) (set_sem_id (-1) x)));;
    (m ← gets kqs; modify (set_kqs (<[SemQ i := alloc_pid_q MAX_SEM_WAITQ]> m)));;
    clear_map i).

(** The index of the semaphore; [*sem] is unsigned. *)
Definition get_sem_by_semt (sem : option Z) : ST kst (option Z) :=
  match sem with
  | None => mret None
  | Some i =>
      if bool_decide (i < MAX_SEM) then
        x ← get_sem i;
        mret (if bool_decide (sem_id x ≠ -1) then Some i else None)
      else mret None
  end.

Definition name_eq (a b : list Z) : bool := bool_decide (cstr a = cstr b).

(** The first semaphore of that name. *)
Fixpoint name_loop (n : nat) (i : Z) (name : list Z) : ST kst (option Z) :=
  match n with
  | O => mret None
  | S n =>
      m ← gets sem_map;
      e ← lift (arr_get m i);
      x ← get_sem i;
      if name_eq (sm_name e) name && bool_decide (sem_id x ≠ -1) then mret (Some i) else name_loop n (i + 1) name
  end.
Definition get_sem_by_name (name : list Z) : ST kst (option Z) := name_loop (Z.to_nat MAX_SEM) 0 name.
Definition get_semt_by_name (name : list Z) : ST kst (option Z) := name_loop (Z.to_nat MAX_SEM) 0 name.

(** ** Creation and destruction *)

Definition free_sem (x : sem_info) : sem_info := MkSem (-1) 0 (-1) false.

(** Taking the first free semaphore. *)
Definition new_sem (value owner : Z) : ST kst (option Z) :=
  h ← gets sem_heap;
  match list_find (λ x, sem_id x = -1) h with
  | Some (i, _) =>
      let i := Z.of_nat i in
      upd_sem i (λ _, MkSem i (s8 value) owner false);;
      on_q (SemQ i) qinit;;
      mret (Some i)
  | None => mret None
  end.

(** The result and the identifier in [*sem]. *)
Definition sys_sem_init (pshared value : Z) : ST kst (Z * option Z) :=
  c ← gets current_pid;
  i ← new_sem value (if bool_decide (pshared = 0) then c else -1);
  match i with
  | Some i => mret (0, Some i)
  | None => kerrno ENOSPC;; mret (-1, None)
  end.

(** The index of the entry of [sem_map] that the result points to, or [None]
    for [SEM_FAILED]. *)
Definition sys_sem_open (name : option (list Z)) (oflag value : Z) : ST kst (option Z) :=
  match name with
  | Some name =>
      if bool_decide (oflag ≠ O_CREAT) then kerrno EINVAL;; mret None else
      sem ← get_semt_by_name name;
      match sem with
      | Some i =>
          if bool_decide (Z.land oflag O_EXCL ≠ 0) then kerrno EEXIST;; mret None else mret (Some i)
      | None =>
          i ← new_sem value (-1);
          match i with
          | Some i =>
              m ← gets sem_map;
              e ← lift (arr_get m i);
              n ← lift (c_strcpy (sm_name e) name);
              put_map i (MkSemMap n i);;
              mret (Some i)
          | None => kerrno ENOSPC;; mret None
          end
      end
  | None => kerrno EINVAL;; mret None
  end.

(** Processes wait for the semaphore. *)
Definition sem_busy (i : Z) : ST kst bool :=
  x ← get_sem i;
  n ← on_q (SemQ i) (gets item_count);
  mret (bool_decide (sem_value x <= 0) && bool_decide (0 < n)).

Definition sys_sem_close (sem : option Z) : ST kst outcome :=
  s ← get_sem_by_semt sem;
  match s with
  | None => fail EINVAL
  | Some i =>
      busy ← sem_busy i;
      if busy : bool then fail ENOTSUP else
      x ← get_sem i;
      clear_map (sem_id x);;
      upd_sem i free_sem;;
      mret (Done 0)
  end.

Definition sys_sem_unlink (name : list Z) : ST kst outcome :=
  s ← get_sem_by_name name;
  match s with
  | None => fail ENOENT
  | Some i =>
      x ← get_sem i;
      if bool_decide (sem_value x <= 0) then upd_sem i (set_sem_unlink true);; mret (Done 0) else
      clear_map (sem_id x);;
      upd_sem i free_sem;;
      mret (Done 0)
  end.

Definition sys_sem_destroy (sem : option Z) : ST kst outcome :=
  s ← get_sem_by_semt sem;
  match s with
  | None => fail EINVAL
  | Some i =>
      busy ← sem_busy i;
      if busy : bool then fail EBUSY else
      upd_sem i free_sem;;
      mret (Done 0)
  end.

(** The loop of [sem_force_destroy]. *)
Fixpoint force_loop (fuel : nat) (i : Z) : ST kst unit :=
  match fuel with
  | O => undef
  | S fuel =>
      busy ← sem_busy i;
      if busy : bool then
        process_unblock (SemQ i);;
        upd_sem i (λ x, set_sem_value (s8 (sem_value x + 1)) x);;
        force_loop fuel i
      else skip
  end.

Definition sem_force_destroy (sem : option Z) : ST kst Z :=
  s ← get_sem_by_semt sem;
  match s with
  | None => mret (-1)
  | Some i => force_loop QUEUE_FUEL i;; upd_sem i free_sem;; mret 0
  end.

(** ** Waiting and posting *)

(** The value in [*sval]. *)
Definition sys_sem_getvalue (sem : option Z) : ST kst (outcome * option Z) :=
  s ← get_sem_by_semt sem;
  match s with
  | None => r ← fail EINVAL; mret (r, None)
  | Some i => x ← get_sem i; mret (Done 0, Some (sem_value x))
  end.

(** The end of the waiting calls. *)
Definition sem_acquired (i : Z) : ST kst outcome :=
  x ← get_sem i;
  if bool_decide (sem_id x = -1) then fail EIDRM else mret (Done 0).

Definition sys_sem_wait_x (sem : option Z) : ST kst outcome :=
  s ← get_sem_by_semt sem;
  match s with
  | None => fail EINVAL
  | Some i =>
      upd_sem i (λ x, set_sem_value (s8 (sem_value x - 1)) x);;
      x ← get_sem i;
      if bool_decide (sem_value x < 0) then process_block (SemQ i) PROC_WAIT (FSemWait i);; mret Blocked
      else sem_acquired i
  end.

(** A failure of [add_tmr] is ignored. *)
Definition sys_sem_timedwait (sem : option Z) (ms : Z) : ST kst outcome :=
  s ← get_sem_by_semt sem;
  match s with
  | None => fail EINVAL
  | Some i =>
      upd_sem i (λ x, set_sem_value (s8 (sem_value x - 1)) x);;
      x ← get_sem i;
      if bool_decide (sem_value x < 0) then
        c ← gets current_pid;
        self ← get_proc c;
        tmr (add_tmr (p_pid self) ms);;
        process_block (SemQ i) PROC_TIMED_WAIT (FSemTimed i c);;
        mret Blocked
      else sem_acquired i
  end.

(** After [process_block] returns in [sys_sem_timedwait]; [self] is the process. *)
Definition sem_timed_resume (i self : Z) : ST kst outcome :=
  x ← get_proc self;
  if p_timeout x then
    upd_sem i (λ s, set_sem_value (s8 (sem_value s + 1)) s);;
    upd_proc self (set_p_timeout false);;
    fail ETIMEDOUT
  else
    tmr (remove_tmr (p_pid x));;
    sem_acquired i.

Definition sys_sem_trywait (sem : option Z) : ST kst outcome :=
  s ← get_sem_by_semt sem;
  match s with
  | None => fail EINVAL
  | Some i =>
      x ← get_sem i;
      if bool_decide (0 < sem_value x) then upd_sem i (λ x, set_sem_value (s8 (sem_value x - 1)) x);; mret (Done 0)
      else fail EAGAIN
  end.

Definition sys_sem_post (sem : option Z) : ST kst outcome :=
  s ← get_sem_by_semt sem;
  match s with
  | None => fail EINVAL
  | Some i =>
      upd_sem i (λ x, set_sem_value (s8 (sem_value x + 1)) x);;
      busy ← sem_busy i;
      (if busy : bool then process_unblock (SemQ i)
       else
         x ← get_sem i;
         if bool_decide (0 < sem_value x) && sem_unlink x then sys_sem_destroy sem;; skip else skip);;
      mret (Done 0)
  end.
End sem.
