(* ===== verification/Kmutex.v ===== *)
(** * Mutexes of the kernel (bsp/xilkernel_v4_00_a/src/src/ipc/mutex.c)

    The functions take the value of the [pthread_mutex_t] (or [None] for a null
    pointer) and return it with their result, since a statically initialized
    mutex gets its identifier at its first use. *)

From stdpp Require Import gmap.
From S2P Require Import Prelude Kqueue Kheap Ktimer Ksched Ksem.
Open Scope Z_scope.

Definition EPERM : Z := 1.
Definition PTHREAD_MUTEX_RECURSIVE : Z := 1.
Definition PTHREAD_MUTEX_DEFAULT : Z := 3.
Definition PTHREAD_MUTEX_INITIALIZER : Z := 0xFFFFFFFF.
Definition PTHREAD_MUTEX_INVALID : Z := 0xFFFF.

Section mutex.
Context {KC : KConfig}.

Definition get_mx (i : Z) : ST kst mutexinfo := h ← gets mutex_heap; lift (arr_get h i).
Definition upd_mx (i : Z) (f : mutexinfo -> mutexinfo) : ST kst unit :=
  x ← get_mx i; h ← gets mutex_heap; h' ← lift (arr_set h i (f x)); modify (set_mutex_heap h').

Definition pthread_mutex_heap_init : ST kst unit :=
  for_up 0 MAX_PTHREAD_MUTEX (λ i,
    upd_mx i (set_mx_allocated false);;
    m ← gets kqs; modify (set_kqs (<[MutexQ i := alloc_pid_q MAX_PTHREAD_MUTEX_WAITQ]> m))).

(** [type] is the attribute, [None] for the default. *)
Definition sys_pthread_mutex_init (mutex : option Z) (type : option Z) : ST kst (Z * option Z) :=
  match mutex with
  | None => mret (-1, mutex)
  | Some _ =>
      let type := default PTHREAD_MUTEX_DEFAULT type in
      if bool_decide (type ≠ PTHREAD_MUTEX_DEFAULT ∧ type ≠ PTHREAD_MUTEX_RECURSIVE) then kerrno EINVAL;; mret (-1, mutex) else
      h ← gets mutex_heap;
      match list_find (λ x, mx_allocated x = false) h with
      | None => mret (EAGAIN, mutex)
      | Some (i, _) =>
          let i := Z.of_nat i in
          upd_mx i (λ _, MkMutex true 0 type (-1));;
          on_q (MutexQ i) qinit;;
          mret (0, Some i)
      end
  end.

Definition sys_pthread_mutex_destroy (mutex : option Z) : ST kst (Z * option Z) :=
  match mutex with
  | None => mret (EINVAL, None)
  | Some i =>
      if bool_decide (i = PTHREAD_MUTEX_INITIALIZER) then mret (0, Some PTHREAD_MUTEX_INVALID) else
      if bool_decide (i < 0 ∨ MAX_PTHREAD_MUTEX <= i) then mret (EINVAL, mutex) else
      x ← get_mx i;
      if negb (mx_allocated x) then mret (EINVAL, mutex) else
      if bool_decide (mx_locked x ≠ 0) then mret (EBUSY, mutex) else
      upd_mx i (set_mx_allocated false);;
      mret (0, Some PTHREAD_MUTEX_INVALID)
  end.

(** The common start of lock and unlock: the checks, and the initialization of
    a static mutex. The result is an error code or the identifier. *)
Definition mutex_index (mutex : option Z) : ST kst (Z + Z) :=
  match mutex with
  | None => mret (inl EINVAL)
  | Some i =>
      if bool_decide (i ≠ PTHREAD_MUTEX_INITIALIZER ∧ (i < 0 ∨ MAX_PTHREAD_MUTEX <= i)) then mret (inl EINVAL) else
      r ← (if bool_decide (i = PTHREAD_MUTEX_INITIALIZER) then sys_pthread_mutex_init mutex (Some PTHREAD_MUTEX_DEFAULT)
           else mret (0, Some i));
      match r with
      | (0, Some i) =>
          x ← get_mx i;
          mret (if negb (mx_allocated x) then inl EINVAL else inr i)
      | _ => mret (inl (-1))
      end
  end.

(** The mutex is taken by the current process. *)
Definition mutex_take (i : Z) : ST kst outcome :=
  c ← gets current_pid;
  upd_mx i (λ x, set_mx_owner c
    (set_mx_locked (if bool_decide (mx_type x = PTHREAD_MUTEX_RECURSIVE) then s32 (mx_locked x + 1) else 1) x));;
  mret (Done 0).

(** The loop of [pthread_mutex_lock_basic]; a blocked caller runs it again. *)
Definition mutex_lock_loop (i : Z) (trylock : bool) : ST kst outcome :=
  x ← get_mx i;
  c ← gets current_pid;
  if bool_decide (mx_locked x ≠ 0) && bool_decide (mx_type x ≠ PTHREAD_MUTEX_RECURSIVE ∨ mx_owner x ≠ c) then
    if trylock then mret (Done EBUSY)
    else process_block (MutexQ i) PROC_WAIT (FMutex i);; mret Blocked
  else mutex_take i.

Definition pthread_mutex_lock_basic (mutex : option Z) (trylock : bool) : ST kst (outcome * option Z) :=
  i ← mutex_index mutex;
  match i with
  | inl e => mret (Done e, mutex)
  | inr i => r ← mutex_lock_loop i trylock; mret (r, Some i)
  end.

Definition sys_pthread_mutex_lock (mutex : option Z) := pthread_mutex_lock_basic mutex false.
Definition sys_pthread_mutex_trylock (mutex : option Z) := pthread_mutex_lock_basic mutex true.

(** The part of [sys_pthread_mutex_unlock] after the checks. *)
Definition mutex_release (i : Z) : ST kst Z :=
  x ← get_mx i;
  c ← gets current_pid;
  if bool_decide (mx_type x = PTHREAD_MUTEX_RECURSIVE) && bool_decide (mx_owner x ≠ c) then mret EPERM else
  upd_mx i (set_mx_locked (if bool_decide (mx_type x = PTHREAD_MUTEX_RECURSIVE) then s32 (mx_locked x - 1) else 0));;
  x ← get_mx i;
  if bool_decide (mx_locked x = 0) then
    upd_mx i (set_mx_owner (-1));;
    n ← on_q (MutexQ i) (gets item_count);
    (if bool_decide (0 < n) then process_unblock (MutexQ i) else skip);;
    mret 0
  else mret 0.

Definition sys_pthread_mutex_unlock (mutex : option Z) : ST kst (Z * option Z) :=
  i ← mutex_index mutex;
  match i with
  | inl e => mret (e, mutex)
  | inr i => r ← mutex_release i; mret (r, Some i)
  end.
End mutex.
