(* ===== verification/Kinv.v ===== *)
(** * The invariant of the kernel

    Every process is in the queue that its state says, once, and the queues,
    the process table and the timers agree. The operations of Ksched.v keep the
    invariant, and are defined in every state that satisfies it. *)

From stdpp Require Import gmap.
From S2P Require Import Prelude Kqueue Kheap Ktimer Ksched Ksem.
Open Scope Z_scope.

(** What the code relies on about the configuration: the queues have room for
    every process but the idle task, and the numbers fit their types. *)
Class KConfigOk (KC : KConfig) : Prop := {
  ok_procs : 1 <= MAX_PROCESS_CONTEXTS <= 127;
  ok_prio : 1 <= N_PRIO <= 127;
  ok_rr : sched_is_prio = false -> N_PRIO = 1;
  ok_readyq : 1 <= MAX_READYQ <= 255 ∧ MAX_PROCESS_CONTEXTS - 1 <= MAX_READYQ;
  ok_semq : 1 <= MAX_SEM_WAITQ <= 255 ∧ MAX_PROCESS_CONTEXTS - 1 <= MAX_SEM_WAITQ;
  ok_mutexq : 1 <= MAX_PTHREAD_MUTEX_WAITQ <= 255 ∧ MAX_PROCESS_CONTEXTS - 1 <= MAX_PTHREAD_MUTEX_WAITQ;
  ok_sem : 0 <= MAX_SEM <= 127;
  ok_mutex : 0 <= MAX_PTHREAD_MUTEX <= 2^31;
  ok_tmrs : 0 <= MAX_TMRS;
  ok_clock : 0 < SYSTMR_INTERVAL ∧ 0 < SYSTMR_CLK_FREQ_KHZ ∧ 0 < SYSTMR_CLK_FREQ;
}.

Lemma arr_get_insert {A} (l : list A) i j x y :
  0 <= i -> arr_get (<[Z.to_nat i := x]> l) j = Some y -> (j = i ∧ y = x) ∨ (j ≠ i ∧ arr_get l j = Some y).
Proof.
  intros Hi E. pose proof (arr_get_range _ _ _ E) as Hr. rewrite length_insert in Hr. rewrite arr_get_lookup in * by lia.
  apply list_lookup_insert_Some in E as [(Hj & -> & _)|[Hj E]]; [left|right]; (split; [lia|done]).
Qed.

Section inv.
Context {KC : KConfig} {KOK : KConfigOk KC}.
Implicit Types (s : kst) (q : qid) (p : Z) (l : list Z).

(** ** Queues *)

Definition qmap := qid -> list Z.
Definition qupd (Q : qmap) q l : qmap := λ q', if decide (q' = q) then l else Q q'.
Implicit Types (Q : qmap).

Definition valid_q q : Prop :=
  match q with ReadyQ i => 0 <= i < N_PRIO | SemQ i => 0 <= i < MAX_SEM | MutexQ i => 0 <= i < MAX_PTHREAD_MUTEX | JoinQ _ => False end.
Definition q_cap q : Z :=
  match q with ReadyQ _ => MAX_READYQ | SemQ _ => MAX_SEM_WAITQ | MutexQ _ => MAX_PTHREAD_MUTEX_WAITQ | JoinQ _ => MAX_PROCESS_CONTEXTS end.
Definition is_wait q : bool := match q with ReadyQ _ => false | _ => true end.

(** The queue holds the processes [l]: in this order in a ring buffer, in any
    order in a heap. *)
Definition qok (pr : list Z) q l (x : queue Z) : Prop :=
  max_items x = q_cap q ∧ if sched_is_prio && is_wait q then prio_queue pr l x else ring l x.

Definition qsok (pr : list Z) (m : gmap qid (queue Z)) Q : Prop :=
  forall q, valid_q q -> exists x : queue Z, m !! q = Some x ∧ qok pr q (Q q) x.

Lemma qupd_eq Q q l : qupd Q q l q = l.
Proof. unfold qupd. by rewrite decide_True. Qed.
Lemma qupd_ne Q q q' l : q' ≠ q -> qupd Q q l q' = Q q'.
Proof. intros. unfold qupd. by rewrite decide_False. Qed.

Lemma qsok_insert pr m Q q l (x : queue Z) : qsok pr m Q -> qok pr q l x -> qsok pr (<[q := x]> m) (qupd Q q l).
Proof.
  intros H Hx q' Hq'. destruct (decide (q' = q)) as [->|Hne].
  - rewrite lookup_insert_eq, qupd_eq. by exists x.
  - rewrite lookup_insert_ne, qupd_ne by done. by apply H.
Qed.

Lemma qok_count pr q l (x : queue Z) : qok pr q l x -> item_count x = Z.of_nat (length l).
Proof. intros [_ H]. destruct (sched_is_prio && is_wait q); [apply H|apply H]. Qed.

(** [on_q] with the specification of the queue operation. *)
Lemma wp_on_q {A} q (m : ST (queue Z) A) s (x : queue Z) (R : A -> queue Z -> Prop) (P : A -> kst -> Prop) :
  kqs s !! q = Some x -> wp m x R ->
  (forall a (x' : queue Z), R a x' -> P a (set_kqs (<[q := x']> (kqs s)) s)) -> wp (on_q q m) s P.
Proof.
  intros E Hm HP. apply wp_run in Hm as (a & x' & Em & HR). unfold on_q. wp_pure.
  apply wp_bind. eapply wp_lift; [exact E|]. apply wp_bind. eapply wp_lift; [exact Em|]. cbn beta iota. wp_pure. by apply HP.
Qed.

Lemma wp_get_proc p x s (P : pcb -> kst -> Prop) : arr_get (ptable s) p = Some x -> P x s -> wp (get_proc p) s P.
Proof. intros E HP. unfold get_proc. wp_pure. by eapply wp_lift. Qed.

Definition put_proc p x s : kst := set_ptable (<[Z.to_nat p := x]> (ptable s)) s.

Lemma wp_upd_proc p f x s (P : unit -> kst -> Prop) :
  arr_get (ptable s) p = Some x -> P tt (put_proc p (f x) s) -> wp (upd_proc p f) s P.
Proof.
  intros E HP. unfold upd_proc. apply wp_bind. eapply wp_get_proc; [done|]. wp_pure.
  apply wp_bind. eapply wp_lift; [apply arr_set_in; by eapply arr_get_range|]. by apply wp_modify.
Qed.

(** The process table after a change. *)
Lemma put_proc_eq p x x0 s : arr_get (ptable s) p = Some x0 -> arr_get (ptable (put_proc p x s)) p = Some x.
Proof.
  intros E. pose proof (arr_get_range _ _ _ E). simpl. eapply arr_get_set. apply arr_set_in. lia.
Qed.
Lemma put_proc_ne p p' x x0 s :
  arr_get (ptable s) p = Some x0 -> p' ≠ p -> arr_get (ptable (put_proc p x s)) p' = arr_get (ptable s) p'.
Proof.
  intros E Hne. pose proof (arr_get_range _ _ _ E). simpl. eapply arr_get_set_ne; [|by apply not_eq_sym in Hne; exact Hne].
  apply arr_set_in. lia.
Qed.

(** The priorities of the heap's members decide whether it is one. *)
Lemma prio_queue_ext pr pr' l (x : queue Z) :
  length pr' = length pr -> (forall p, p ∈ l -> get pr' p = get pr p) -> prio_queue pr l x -> prio_queue pr' l x.
Proof.
  intros Hl He (Hq & Hnd & Hpos). split_and!; [|done|intros y Hy; rewrite He by done; by apply Hpos].
  pose proof (pheap_valid _ _ _ Hq) as (Hv1 & Hv2 & Hv3). destruct Hq as [Hm Hlen Hc Hp Hf Hh]. constructor; try done.
  - by rewrite Hl.
  - eapply heap_ext; [|exact Hh]. intros i Hi. unfold key. apply He. rewrite <- Hp. apply get_elem; lia.
Qed.

Lemma qsok_ext pr pr' m Q :
  length pr' = length pr -> (forall q p, is_wait q = true -> p ∈ Q q -> get pr' p = get pr p) -> qsok pr m Q -> qsok pr' m Q.
Proof.
  intros Hl He H q Hq. destruct (H q Hq) as (x & E & Hm & Hx). exists x. split; [done|]. split; [done|].
  destruct sched_is_prio, (is_wait q) eqn:Ew; simpl in *; try done. eapply prio_queue_ext; [done| |done]. intros p. by apply He.
Qed.
(** ** Queue operations *)

Abbreviation qs_of s := (qsok (prios s) (kqs s)).

(** [s] with other queues. *)
Definition with_qs s (m : gmap qid (queue Z)) : kst := set_kqs m s.

Lemma penq_spec s Q q p :
  qs_of s Q -> valid_q q -> is_wait q = false -> Z.of_nat (length (Q q)) < q_cap q ->
  wp (on_q q (penq p)) s (λ _ s', exists m, s' = with_qs s m ∧ qsok (prios s) m (qupd Q q (Q q ++ [p]))).
Proof.
  intros HQ Hv Hw Hc. destruct (HQ q Hv) as (x & E & Hm & Hx). rewrite Hw, andb_false_r in Hx. unfold penq.
  eapply (wp_on_q _ _ _ _ _ _ E); [by apply enq_spec|]. intros [] x' [Hm' Hr]. rewrite bool_decide_eq_false_2 in Hr by lia.
  eexists. split; [done|]. apply qsok_insert; [done|]. split; [congruence|]. by rewrite Hw, andb_false_r.
Qed.

Lemma pdeq_ready_spec s Q q p l :
  qs_of s Q -> valid_q q -> is_wait q = false -> Q q = p :: l ->
  wp (on_q q pdeq) s (λ r s', r = p ∧ exists m, s' = with_qs s m ∧ qsok (prios s) m (qupd Q q l)).
Proof.
  intros HQ Hv Hw El. destruct (HQ q Hv) as (x & E & Hm & Hx). rewrite Hw, andb_false_r, El in Hx.
  eapply (wp_on_q _ _ _ _ _ _ E); [by apply (run_op_spec Pdeq)|]. intros r x' (Hm' & -> & Hr). split; [done|].
  eexists. split; [done|]. apply qsok_insert; [done|]. split; [congruence|]. by rewrite Hw, andb_false_r.
Qed.

Lemma count_spec s Q q (P : Z -> kst -> Prop) :
  qs_of s Q -> valid_q q -> P (Z.of_nat (length (Q q))) s -> wp (on_q q (gets item_count)) s P.
Proof.
  intros HQ Hv HP. destruct (HQ q Hv) as (x & E & Hx).
  eapply (wp_on_q _ _ _ _ (λ a x', a = item_count x ∧ x' = x) _ E); [by apply wp_gets|]. intros a x' [-> ->].
  rewrite insert_id by done. rewrite (qok_count _ _ _ _ Hx). by destruct s.
Qed.
Lemma prios_length s : length (prios s) = length (ptable s).
Proof. apply length_fmap. Qed.

Lemma prios_get s p x : arr_get (ptable s) p = Some x -> get (prios s) p = p_priority x.
Proof.
  intros E. pose proof (arr_get_range _ _ _ E). rewrite arr_get_lookup in E by lia.
  unfold get, prios. by rewrite arr_get_lookup, list_lookup_fmap, E by lia.
Qed.

Lemma set_prios_id s : set_prios (prios s) s = s.
Proof.
  unfold set_prios, prios. replace (zip_with _ _ _) with (ptable s); [by destruct s|].
  induction (ptable s) as [|x t IH]; [done|]. simpl. rewrite <- IH at 1. by destruct x.
Qed.

(** Entering a wait queue. *)
Lemma wait_enq_spec s Q q p x :
  qs_of s Q -> valid_q q -> is_wait q = true -> p ∉ Q q -> Z.of_nat (length (Q q)) < q_cap q ->
  arr_get (ptable s) p = Some x -> 0 <= p_priority x -> p < 256 ->
  wp (wait_enq q p) s (λ _ s', exists m l', s' = with_qs s m ∧ l' ≡ₚ p :: Q q ∧ (sched_is_prio = false -> l' = Q q ++ [p]) ∧
    qsok (prios s) m (qupd Q q l')).
Proof.
  intros HQ Hv Hw Hn Hc Hx Hp Hp'. destruct (HQ q Hv) as (y & E & Hm & Hy). unfold wait_enq, qok in *.
  pose proof (arr_get_range _ _ _ Hx). rewrite Hw, andb_true_r in Hy. destruct sched_is_prio eqn:Es.
  - wp_pure. eapply (wp_on_q _ _ _ _ (λ _ y', max_items y' = max_items y ∧ pheap (prios s) (p :: Q q) y') _ E).
    { eapply wp_mono; [apply (prio_penq_spec (prios s) (Q q)); [apply Hy|rewrite prios_length; lia|lia]|].
      intros [] y' [Hm' H']. by rewrite bool_decide_eq_false_2 in H' by lia. }
    intros [] y' [Hm' Hy']. eexists _, _. split_and!; [done|done|done|]. apply qsok_insert; [done|]. split; [congruence|].
    rewrite Hw, Es. simpl. destruct Hy as (_ & Hnd & Hpos). split_and!; [done|by constructor|].
    intros z [->|Hz]%elem_of_cons; [|by apply Hpos]. by rewrite (prios_get _ _ _ Hx).
  - eapply (wp_on_q _ _ _ _ _ _ E); [by apply enq_spec|]. intros [] y' [Hm' Hr]. rewrite bool_decide_eq_false_2 in Hr by lia.
    eexists _, _. split_and!; [done|by rewrite Permutation_cons_append|done|]. apply qsok_insert; [done|]. split; [congruence|].
    by rewrite Es.
Qed.

(** The process that leaves a wait queue next: the first one, or one of the
    highest priority. *)
Definition next_waiter (pr : list Z) l r l' : Prop :=
  l ≡ₚ r :: l' ∧ if sched_is_prio then forall y, y ∈ l -> get pr r <= get pr y else l = r :: l'.

Lemma wait_deq_spec s Q q :
  qs_of s Q -> valid_q q -> is_wait q = true -> Q q ≠ [] -> (forall y, y ∈ Q q -> 0 <= y < 127) ->
  wp (wait_deq q) s (λ r s', exists m l', s' = with_qs s m ∧ next_waiter (prios s) (Q q) r l' ∧
    qsok (prios s) m (qupd Q q l')).
Proof.
  intros HQ Hv Hw Hne Hmem. destruct (HQ q Hv) as (y & E & Hm & Hy). unfold wait_deq, next_waiter, qok in *.
  rewrite Hw, andb_true_r in Hy. assert (forall r l', Q q ≡ₚ r :: l' -> s8 r = r) as Hs8.
  { intros r l' El. apply s8_small. assert (r ∈ Q q) as Hr by (rewrite El; by left). apply Hmem in Hr. lia. }
  apply wp_bind. destruct sched_is_prio eqn:Es.
  - wp_pure. destruct Hy as (Hh & Hnd & Hpos). eapply (wp_on_q _ _ _ _ _ _ E); [by apply (prio_pdeq_spec (prios s) (Q q))|].
    intros r y' (Hm' & l' & [El Hmin] & Hy'). apply wp_ret. rewrite (Hs8 _ _ El). eexists _, l'. split_and!; [done..|].
    apply qsok_insert; [done|]. split; [congruence|]. rewrite Hw, Es. simpl. split_and!; [done| |].
    + rewrite El in Hnd. by apply list.NoDup_cons in Hnd as [_ Hnd].
    + intros z Hz. apply Hpos. rewrite El. by right.
  - destruct (Q q) as [|r l'] eqn:Eq; [done|]. eapply (wp_on_q _ _ _ _ _ _ E); [by apply (run_op_spec Pdeq)|].
    intros r' y' (Hm' & -> & Hr). simpl. apply wp_ret. rewrite (Hs8 r l') by done. eexists _, l'. split_and!; [done..|].
    apply qsok_insert; [done|]. split; [congruence|]. by rewrite Es.
Qed.

(** Leaving a wait queue out of order. *)
Definition removed p l l' : Prop := (p ∈ l -> l ≡ₚ p :: l') ∧ (p ∉ l -> l' = l) ∧ (sched_is_prio = false -> l' = remove1 p l).

Lemma remove1_removed p l : (p ∈ l -> l ≡ₚ p :: remove1 p l) ∧ (p ∉ l -> remove1 p l = l).
Proof.
  unfold remove1. split.
  - intros Hin. destruct (list_find (p =.) l) as [[i y]|] eqn:E.
    + apply list_find_Some in E as (E & <- & _). by apply delete_Permutation.
    + apply list_find_None in E. rewrite list.Forall_forall in E. by destruct (E p Hin).
  - intros Hn. destruct (list_find (p =.) l) as [[i y]|] eqn:E; [|done].
    apply list_find_Some in E as (E & <- & _). destruct Hn. by eapply list_elem_of_lookup_2.
Qed.

Lemma wait_delq_spec s Q q p :
  qs_of s Q -> valid_q q -> is_wait q = true ->
  wp (wait_delq q p) s (λ _ s', exists m l', s' = with_qs s m ∧ removed p (Q q) l' ∧ qsok (prios s) m (qupd Q q l')).
Proof.
  intros HQ Hv Hw. destruct (HQ q Hv) as (y & E & Hm & Hy). unfold wait_delq, removed, qok in *.
  rewrite Hw, andb_true_r in Hy. destruct sched_is_prio eqn:Es.
  - wp_pure. destruct Hy as (Hh & Hnd & Hpos). apply wp_bind. eapply (wp_on_q _ _ _ _ _ _ E); [by apply (prio_pdelq_spec (prios s) (Q q) y p)|].
    intros [r pr'] y' (Hm' & l' & [Epr Hr] & Hy'). simpl in Epr, Hr. subst pr'. wp_pure.
    replace (prios s) with (prios (with_qs s (<[q:=y']> (kqs s)))) by done. rewrite set_prios_id.
    eexists _, l'. split_and!; [done| | |done|].
    + intros Hin. rewrite bool_decide_eq_true_2 in Hr by done. apply Hr.
    + intros Hn. rewrite bool_decide_eq_false_2 in Hr by done. apply Hr.
    + apply qsok_insert; [done|]. split; [congruence|]. rewrite Hw, Es. simpl. split_and!; [done| |].
      * case_bool_decide; destruct Hr as [_ Hr]; [|by subst]. rewrite Hr in Hnd. by apply list.NoDup_cons in Hnd as [_ Hnd].
      * intros z Hz. apply Hpos. case_bool_decide; destruct Hr as [_ Hr]; [rewrite Hr; by right|by subst].
  - eapply (wp_on_q _ _ _ _ _ _ E); [by apply (pdelq_spec (Q q))|]. intros r y' (Hm' & -> & Hr).
    eexists _, _. split_and!; [done|by apply remove1_removed|by apply remove1_removed|done|].
    apply qsok_insert; [done|]. split; [congruence|]. by rewrite Es.
Qed.
(** ** Processes *)

(** The queue that a process belongs to. *)
Definition home p (x : pcb) : option qid :=
  if is_allocated x then
    match p_state x with
    | PROC_NEW | PROC_READY => if bool_decide (p = idle_task_pid) then None else Some (ready_of x)
    | PROC_WAIT | PROC_TIMED_WAIT => blockq x
    | PROC_RUN | PROC_DELAY | PROC_DEAD => None
    end
  else None.

(** The frames that a process may be suspended with. *)
Definition frame_ok p (f : frame) : Prop :=
  match f with
  | FSleep => True
  | FSemWait i => 0 <= i < MAX_SEM
  | FSemTimed i self => 0 <= i < MAX_SEM ∧ self = p
  | FMutex i => 0 <= i < MAX_PTHREAD_MUTEX
  | FJoin _ | FExit => False
  end.

Record pcb_ok p (x : pcb) : Prop := {
  o_alloc : is_allocated x = true -> p_pid x = p ∧ 0 <= p_priority x < N_PRIO;
  o_block : match p_state x with
            | PROC_WAIT | PROC_TIMED_WAIT => exists q, blockq x = Some q ∧ valid_q q ∧ is_wait q = true
            | PROC_DEAD => True
            | _ => blockq x = None
            end;
  o_free : is_allocated x = false -> p_state x = PROC_NEW ∨ p_state x = PROC_DEAD;
  o_idle : p = idle_task_pid -> is_allocated x = true ∧ (p_state x = PROC_RUN ∨ p_state x = PROC_READY);
  o_frame f : kctx x = Some f -> p ≠ idle_task_pid ∧ frame_ok p f;
}.

Definition has_tmr (T : list soft_tmr) p : Prop := exists tm, tm ∈ T ∧ tm_pid tm = p.

(** The timers belong to processes that wait for them; the running process
    may have one while it is on its way into a queue. *)
Record tmr_ok (T : list soft_tmr) (pt : list pcb) : Prop := {
  t_nodup : NoDup (tm_pid <$> T);
  t_ticks tm : tm ∈ T -> 1 <= tm_timeout tm < 2^32;
  t_proc p : has_tmr T p -> exists x, arr_get pt p = Some x ∧ is_allocated x = true ∧
    (p_state x = PROC_TIMED_WAIT ∨ p_state x = PROC_DELAY ∨ p_state x = PROC_RUN);
  t_delay p x : arr_get pt p = Some x -> p_state x = PROC_DELAY -> has_tmr T p;
}.

(** A semaphore that is in use has its index as identifier, and values fit a
    [signed char]; the names fit their arrays. *)
Definition sem_ok i (x : sem_info) : Prop := (sem_id x = -1 ∨ sem_id x = i) ∧ -128 <= sem_value x <= 127.
Definition name_ok (e : sem_map_t) : Prop := Z.of_nat (length (sm_name e)) = SEM_NAME_MAX ∧ 0 ∈ sm_name e.

Record sems_ok (h : list sem_info) (m : list sem_map_t) : Prop := {
  sm_heap_len : length h = Z.to_nat MAX_SEM;
  sm_map_len : length m = Z.to_nat MAX_SEM;
  sm_sems i x : arr_get h i = Some x -> sem_ok i x;
  sm_names i e : arr_get m i = Some e -> name_ok e;
}.

Record kcore Q T s : Prop := {
  c_len : length (ptable s) = Z.to_nat MAX_PROCESS_CONTEXTS;
  c_qs : qs_of s Q;
  c_pcb p x : arr_get (ptable s) p = Some x -> pcb_ok p x;
  c_nodup q : NoDup (Q q);
  c_home q p : p ∈ Q q -> exists x, arr_get (ptable s) p = Some x ∧ home p x = Some q;
  c_ready p x i : arr_get (ptable s) p = Some x -> home p x = Some (ReadyQ i) -> p ∈ Q (ReadyQ i);
  c_run p x : arr_get (ptable s) p = Some x -> p_state x = PROC_RUN -> p = current_pid s;
  c_tmr : tmr_ok T (ptable s);
  c_sems : sems_ok (sem_heap s) (sem_map s);
  c_mutexes : length (mutex_heap s) = Z.to_nat MAX_PTHREAD_MUTEX;
}.

Lemma home_valid p x q : pcb_ok p x -> home p x = Some q -> p ≠ idle_task_pid ∧ valid_q q ∧ is_allocated x = true.
Proof.
  intros [Ha Hb Hf Hi _] Hh. unfold home in Hh. destruct (is_allocated x) eqn:Ea; [|done]. destruct (Ha eq_refl) as [_ Hp].
  destruct (decide (p = idle_task_pid)) as [->|Hne].
  { destruct (Hi eq_refl) as [_ [E|E]]; rewrite E in Hh; [done|]. by rewrite bool_decide_eq_true_2 in Hh. }
  split; [done|]. split; [|done].
  assert (forall i, i = (if sched_is_prio then p_priority x else 0) -> valid_q (ReadyQ i)) as Hr.
  { intros i ->. simpl. pose proof ok_prio. destruct sched_is_prio; lia. }
  rewrite bool_decide_eq_false_2 in Hh by done. unfold ready_of in Hh.
  destruct (p_state x); simplify_eq; try (by apply Hr); destruct Hb as (q' & E & Hv & _); congruence.
Qed.

Lemma core_range Q T s p x : kcore Q T s -> arr_get (ptable s) p = Some x -> 0 <= p < MAX_PROCESS_CONTEXTS ∧ p < 127.
Proof. intros H E. pose proof (arr_get_range _ _ _ E) as Hr. rewrite (c_len _ _ _ H) in Hr. pose proof ok_procs. lia. Qed.

Lemma core_elem Q T s q p : kcore Q T s -> p ∈ Q q -> 1 <= p < MAX_PROCESS_CONTEXTS.
Proof.
  intros H Hin. destruct (c_home _ _ _ H q p Hin) as (x & E & Hh). destruct (core_range _ _ _ _ _ H E).
  destruct (home_valid _ _ _ (c_pcb _ _ _ H p x E) Hh) as [Hne _]. unfold idle_task_pid in *. lia.
Qed.

(** A process is in at most one queue. *)
Lemma core_in Q T s q p x : kcore Q T s -> arr_get (ptable s) p = Some x -> p ∈ Q q -> home p x = Some q.
Proof. intros H E Hin. destruct (c_home _ _ _ H q p Hin) as (x' & E' & Hh). congruence. Qed.

Lemma nodup_bound (l : list Z) lo hi : NoDup l -> (forall p, p ∈ l -> lo <= p < hi) -> Z.of_nat (length l) <= Z.max 0 (hi - lo).
Proof.
  intros Hnd Hr. assert (l ⊆+ seqZ lo (hi - lo)) as Hs.
  { apply NoDup_submseteq; [done|]. intros p Hp. apply elem_of_seqZ. specialize (Hr p Hp). lia. }
  apply submseteq_length in Hs. rewrite length_seqZ in Hs. lia.
Qed.

(** There is room for a process that is in none of the queues. *)
Lemma core_room Q T s q p x :
  kcore Q T s -> arr_get (ptable s) p = Some x -> p ≠ idle_task_pid -> home p x ≠ Some q ->
  (p ∉ Q q) ∧ Z.of_nat (length (Q q)) < q_cap q.
Proof.
  intros H E Hp Hh. assert (p ∉ Q q) as Hn by (intros Hin; apply Hh; by eapply core_in). split; [done|].
  destruct (core_range _ _ _ _ _ H E) as [Hr _]. unfold idle_task_pid in *.
  pose proof (nodup_bound (p :: Q q) 1 MAX_PROCESS_CONTEXTS) as Hb. simpl length in Hb.
  assert (q_cap q >= MAX_PROCESS_CONTEXTS - 1) by (pose proof ok_readyq; pose proof ok_semq; pose proof ok_mutexq; destruct q; simpl; lia).
  assert (Z.of_nat (S (length (Q q))) <= Z.max 0 (MAX_PROCESS_CONTEXTS - 1)); [|lia]. apply Hb.
  - constructor; [done|]. apply (c_nodup _ _ _ H).
  - intros r [->|Hr']%elem_of_cons; [lia|]. by eapply core_elem.
Qed.

(** Changing one process, its place in the queues and its timer. *)
Lemma core_update Q T s Q' T' s' p x x' :
  kcore Q T s -> arr_get (ptable s) p = Some x -> ptable s' = <[Z.to_nat p := x']> (ptable s) ->
  pcb_ok p x' -> qs_of s' Q' -> (forall q, NoDup (Q' q)) ->
  (forall q r, r ≠ p -> (r ∈ Q' q <-> r ∈ Q q)) -> (forall q, p ∈ Q' q -> home p x' = Some q) ->
  (forall i, home p x' = Some (ReadyQ i) -> p ∈ Q' (ReadyQ i)) ->
  (forall r y, r ≠ p -> arr_get (ptable s) r = Some y -> p_state y = PROC_RUN -> r = current_pid s') ->
  (p_state x' = PROC_RUN -> p = current_pid s') -> tmr_ok T' (ptable s') ->
  sem_heap s' = sem_heap s -> sem_map s' = sem_map s -> mutex_heap s' = mutex_heap s -> kcore Q' T' s'.
Proof.
  intros H E Ept Hok HQ Hnd Hother Hin Hready Hrun Hrun' Ht E1 E2 E3.
  assert (arr_get (ptable s') p = Some x') as Ep by (pose proof (put_proc_eq p x' x s E) as Hp; simpl in Hp; by rewrite Ept).
  assert (forall r, r ≠ p -> arr_get (ptable s') r = arr_get (ptable s) r) as Er.
  { intros r Hr. rewrite Ept. apply (put_proc_ne p r x' x s E Hr). }
  constructor; try done.
  - rewrite Ept, length_insert. apply (c_len _ _ _ H).
  - intros r y Ey. destruct (decide (r = p)) as [->|Hne]; [by simplify_eq|]. rewrite Er in Ey by done. by apply (c_pcb _ _ _ H).
  - intros q r Hr. destruct (decide (r = p)) as [->|Hne]; [exists x'; auto|]. rewrite Er by done.
    apply (c_home _ _ _ H). by apply Hother.
  - intros r y i Ey Hh. destruct (decide (r = p)) as [->|Hne]; [simplify_eq; auto|]. rewrite Er in Ey by done.
    apply Hother; [done|]. by eapply (c_ready _ _ _ H).
  - intros r y Ey Hs. destruct (decide (r = p)) as [->|Hne]; [simplify_eq; auto|]. rewrite Er in Ey by done. by eapply Hrun.
  - rewrite E1, E2. apply (c_sems _ _ _ H).
  - rewrite E3. apply (c_mutexes _ _ _ H).
Qed.
Lemma prios_put p x x' s : arr_get (ptable s) p = Some x -> p_priority x' = p_priority x -> prios (put_proc p x' s) = prios s.
Proof.
  intros E Hp. pose proof (arr_get_range _ _ _ E). unfold prios. simpl. rewrite list_fmap_insert, Hp.
  apply list_insert_id. rewrite list_lookup_fmap, <- arr_get_lookup, E by lia. done.
Qed.

Lemma tmr_ok_put T pt p x x' :
  tmr_ok T pt -> arr_get pt p = Some x ->
  (has_tmr T p -> is_allocated x' = true ∧ (p_state x' = PROC_TIMED_WAIT ∨ p_state x' = PROC_DELAY ∨ p_state x' = PROC_RUN)) ->
  (p_state x' = PROC_DELAY -> has_tmr T p) -> tmr_ok T (<[Z.to_nat p := x']> pt).
Proof.
  intros [H2 H3 H4 H5] E Hhas Hdel. pose proof (arr_get_range _ _ _ E) as Hr.
  assert (arr_set pt p x' = Some (<[Z.to_nat p := x']> pt)) as Es by (apply arr_set_in; lia). constructor; try done.
  - intros r Hh. destruct (decide (p = r)) as [<-|Hne]; [rewrite (arr_get_set _ _ _ _ Es); eexists; split; [done|by apply Hhas]|].
    rewrite (arr_get_set_ne _ _ _ _ _ Es) by done. by apply H4.
  - intros r y. destruct (decide (p = r)) as [<-|Hne]; [rewrite (arr_get_set _ _ _ _ Es); intros; by simplify_eq; auto|].
    rewrite (arr_get_set_ne _ _ _ _ _ Es) by done. apply H5.
Qed.

(** Adding a process at the end of a queue, or taking one out. *)
Lemma qupd_nodup Q q l : (forall q, NoDup (Q q)) -> NoDup l -> forall q', NoDup (qupd Q q l q').
Proof. intros H Hl q'. unfold qupd. case_decide; [done|apply H]. Qed.
Lemma qupd_elem Q q l q' r : r ∈ qupd Q q l q' <-> (q' = q ∧ r ∈ l) ∨ (q' ≠ q ∧ r ∈ Q q').
Proof. unfold qupd. case_decide; naive_solver. Qed.

(** The fields that scheduling leaves alone. *)
Record same_objs s s' : Prop := {
  d_ticks : kernel_ticks s' = kernel_ticks s;
  d_sems : sem_heap s' = sem_heap s;
  d_map : sem_map s' = sem_map s;
  d_mutexes : mutex_heap s' = mutex_heap s;
}.
Record same_data s s' : Prop := {
  d_objs : same_objs s s';
  d_tmr : ktm s' = ktm s;
}.
#[export] Instance same_objs_preorder : PreOrder same_objs.
Proof. split; [done|]. intros s1 s2 s3 [] []. constructor; congruence. Qed.
#[export] Instance same_data_preorder : PreOrder same_data.
Proof. split; [done|]. intros s1 s2 s3 [H1 ?] [H2 ?]. constructor; [by rewrite H1|congruence]. Qed.

(** ** Scheduling *)

(** The ready queues after the running process went back to its queue. *)
Definition requeue Q p (x : pcb) : qmap :=
  if bool_decide (p_state x = PROC_RUN ∧ p ≠ idle_task_pid) then qupd Q (ready_of x) (Q (ready_of x) ++ [p]) else Q.

Definition requeued (x : pcb) : pcb := if bool_decide (p_state x = PROC_RUN) then set_p_state PROC_READY x else x.

(** A running process has no queue. *)
Lemma home_run p x : p_state x = PROC_RUN -> home p x = None.
Proof. unfold home. intros ->. by destruct (is_allocated x). Qed.

Lemma run_alloc p x : pcb_ok p x -> p_state x = PROC_RUN -> is_allocated x = true.
Proof. intros [_ _ Hf _ _] E. destruct (is_allocated x); [done|]. rewrite E in Hf. by destruct (Hf eq_refl). Qed.

(** Becoming ready. *)
Lemma pcb_ok_ready p x : pcb_ok p x -> is_allocated x = true -> pcb_ok p (set_blockq None (set_p_state PROC_READY x)).
Proof. intros [Ha Hb Hf Hi Hfr] Hal. constructor; simpl; try done; [by rewrite Hal|]. intros Hp. auto. Qed.

Lemma requeue_current_spec Q T s x :
  kcore Q T s -> arr_get (ptable s) (current_pid s) = Some x -> (p_state x = PROC_RUN -> ~ has_tmr T (current_pid s)) ->
  wp requeue_current s (λ _ s', exists m, s' = with_qs (put_proc (current_pid s) (requeued x) s) m ∧
    kcore (requeue Q (current_pid s) x) T s').
Proof.
  intros H E Htm. set (c := current_pid s) in *. unfold requeue_current, requeued, requeue. wp_pure. fold c.
  pose proof (c_pcb _ _ _ H c x E) as Hok. apply wp_bind. eapply wp_get_proc; [done|]. case_bool_decide as Hs.
  2: { rewrite bool_decide_eq_false_2 by (by intros []). apply wp_ret. exists (kqs s).
       assert (put_proc c x s = s) as Es.
       { unfold put_proc. rewrite list_insert_id; [by destruct s|]. rewrite <- arr_get_lookup; [done|]. apply arr_get_range in E. lia. }
       rewrite Es. by destruct s. }
  set (x' := set_p_state PROC_READY x). set (s1 := put_proc c x' s).
  assert (is_allocated x = true) as Hal by (by eapply run_alloc).
  assert (pcb_ok c x') as Hok'.
  { pose proof (pcb_ok_ready c x Hok Hal) as Hr. destruct Hok as [_ Hb _ _ _]. rewrite Hs in Hb. destruct x. simpl in *. by subst. }
  assert (prios s1 = prios s) as Hpr by (by eapply prios_put). assert (home c x = None) as Hno by (by apply home_run).
  assert (tmr_ok T (ptable s1)) as Ht.
  { eapply tmr_ok_put; [apply (c_tmr _ _ _ H)|exact E|intros Hh; by destruct (Htm Hs)|done]. }
  apply wp_bind. eapply wp_upd_proc; [exact E|]. fold x' s1. case_bool_decide as Hc.
  - rewrite bool_decide_eq_true_2 by done. unfold ready_enq. apply wp_bind.
    eapply wp_get_proc; [by eapply put_proc_eq|]. change (ready_of x') with (ready_of x).
    assert (home c x' = Some (ready_of x)) as Hh by (unfold home; simpl; rewrite Hal; by rewrite bool_decide_eq_false_2).
    destruct (home_valid _ _ _ Hok' Hh) as (_ & Hv & _).
    destruct (core_room Q T s (ready_of x) c x H E Hc) as [Hn Hroom]; [by rewrite Hno|].
    eapply wp_mono; [apply (penq_spec s1 Q); [|done|done|done]|].
    { unfold qs_of. rewrite Hpr. apply (c_qs _ _ _ H). }
    intros [] s2 (m & -> & HQ). exists m. split; [done|].
    eapply (core_update Q T s _ _ _ c x x'); try done.
    + apply qupd_nodup; [apply (c_nodup _ _ _ H)|]. apply list.NoDup_app. split_and!; [apply (c_nodup _ _ _ H)|set_solver|apply NoDup_singleton].
    + intros q r Hr. rewrite qupd_elem. destruct (decide (q = ready_of x)) as [->|]; set_solver.
    + intros q [[-> _]|[_ Hin]]%qupd_elem; [done|]. pose proof (core_in _ _ _ _ _ _ H E Hin). congruence.
    + intros i Hi. assert (ReadyQ i = ready_of x) as -> by congruence. rewrite qupd_eq. set_solver.
    + intros r y Hr Ey Hy. by eapply (c_run _ _ _ H).
  - rewrite bool_decide_eq_false_2 by (intros [_ ?]; done). apply wp_ret. exists (kqs s1). split; [done|].
    eapply (core_update Q T s _ _ _ c x x'); try done.
    + unfold qs_of. simpl. change (prios (with_qs s1 (kqs s1))) with (prios s1). rewrite Hpr. apply (c_qs _ _ _ H).
    + apply (c_nodup _ _ _ H).
    + intros q Hin. pose proof (core_in _ _ _ _ _ _ H E Hin). congruence.
    + intros i Hi. destruct (home_valid _ _ _ Hok' Hi) as [Hne _]. done.
    + intros r y Hr Ey Hy. by eapply (c_run _ _ _ H).
Qed.
(** The process that runs next: the first one of the highest priority that has
    a ready process, or the idle task. *)
Inductive picks Q : Z -> qmap -> Prop :=
  | picks_idle : (forall i, 0 <= i < N_PRIO -> Q (ReadyQ i) = []) -> picks Q idle_task_pid Q
  | picks_ready i p l : 0 <= i < N_PRIO -> (forall j, 0 <= j < i -> Q (ReadyQ j) = []) -> Q (ReadyQ i) = p :: l ->
      picks Q p (qupd Q (ReadyQ i) l).

(** With priorities, no process is ready that has a higher one than [n]. *)
Definition top_at (pt : list pcb) n Q : Prop := sched_is_prio = true -> forall y i,
  arr_get pt n = Some y -> 0 <= i < p_priority y -> Q (ReadyQ i) = [].

Lemma set_current_core Q T s c :
  kcore Q T s -> (forall p x, arr_get (ptable s) p = Some x -> p_state x ≠ PROC_RUN) -> kcore Q T (set_current_pid c s).
Proof. intros [] Hrun. constructor; try done. intros p x E Hs. by destruct (Hrun p x E). Qed.

Lemma flush_spec Q T s i ready :
  kcore Q T s -> 0 <= i < N_PRIO ->
  wp (flush_loop QUEUE_FUEL (ReadyQ i) ready) s (λ r s', match Q (ReadyQ i) with
    | [] => r = ready ∧ s' = s
    | p :: l => r = p ∧ exists m, s' = with_qs s m ∧ qsok (prios s) m (qupd Q (ReadyQ i) l) end).
Proof.
  intros H Hi. change QUEUE_FUEL with (S 256). cbn [flush_loop]. pose proof (c_qs _ _ _ H) as HQ.
  apply wp_bind, (count_spec s Q); [done|done|]. destruct (Q (ReadyQ i)) as [|p l] eqn:El; [by apply wp_ret|].
  rewrite bool_decide_eq_false_2 by (simpl; lia). apply wp_bind. eapply wp_mono; [by eapply (pdeq_ready_spec s Q)|].
  intros r s' (-> & m & -> & Hm). destruct (c_home _ _ _ H (ReadyQ i) p) as (x & E & Hh); [rewrite El; by left|].
  destruct (core_range _ _ _ _ _ H E). rewrite s8_small by lia. apply wp_bind. eapply wp_get_proc; [exact E|].
  rewrite bool_decide_eq_false_2; [by apply wp_ret; split; eauto|]. intros Hd. unfold home in Hh. rewrite Hd in Hh. by destruct (is_allocated x).
Qed.

Lemma prio_loop_spec Q T s n : forall i,
  kcore Q T s -> 0 <= i -> i + Z.of_nat n = N_PRIO -> (forall j, 0 <= j < i -> Q (ReadyQ j) = []) ->
  wp (prio_loop n i) s (λ r s',
    (r = -1 ∧ s' = s ∧ forall j, 0 <= j < N_PRIO -> Q (ReadyQ j) = []) ∨
    exists k l m, 0 <= k < N_PRIO ∧ (forall j, 0 <= j < k -> Q (ReadyQ j) = []) ∧ Q (ReadyQ k) = r :: l ∧
      s' = with_qs s m ∧ qsok (prios s) m (qupd Q (ReadyQ k) l)).
Proof.
  induction n as [|n IH]; intros i H Hi Hn He; cbn [prio_loop].
  { apply wp_ret. left. split_and!; [done..|]. intros j Hj. apply He. lia. }
  apply wp_bind. eapply wp_mono; [apply (flush_spec Q T s i); [done|lia]|]. intros r s' Hr. cbn beta in Hr.
  destruct (Q (ReadyQ i)) as [|p l] eqn:El.
  - destruct Hr as [-> ->]. rewrite bool_decide_eq_false_2 by auto. apply IH; [done|lia|lia|]. intros j Hj.
    destruct (decide (j = i)) as [->|]; [done|]. apply He. lia.
  - destruct Hr as (-> & m & -> & Hm). assert (1 <= p < MAX_PROCESS_CONTEXTS) by (eapply (core_elem _ _ _ (ReadyQ i)); [done|rewrite El; by left]).
    rewrite bool_decide_eq_true_2 by lia. apply wp_ret. right. exists i, l, m. split_and!; try done; lia.
Qed.

(** Both schedulers search the ready queues in the same way. *)
Definition sched_loop : ST kst Z := if sched_is_prio then prio_loop (Z.to_nat N_PRIO) 0 else flush_loop QUEUE_FUEL (ReadyQ 0) (-1).

Lemma sched_loop_spec Q T s :
  kcore Q T s ->
  wp sched_loop s (λ r s',
    (r = -1 ∧ s' = s ∧ forall j, 0 <= j < N_PRIO -> Q (ReadyQ j) = []) ∨
    exists k l m, 0 <= k < N_PRIO ∧ (forall j, 0 <= j < k -> Q (ReadyQ j) = []) ∧ Q (ReadyQ k) = r :: l ∧
      s' = with_qs s m ∧ qsok (prios s) m (qupd Q (ReadyQ k) l)).
Proof.
  intros H. pose proof ok_prio as Hp. unfold sched_loop. destruct sched_is_prio eqn:Es.
  - apply (prio_loop_spec Q T); [done|lia|lia|lia].
  - pose proof (ok_rr Es) as Hn. eapply wp_mono; [apply (flush_spec Q T s 0); [done|lia]|]. intros r s' Hr. cbn beta in Hr.
    destruct (Q (ReadyQ 0)) as [|p l] eqn:El.
    + destruct Hr as [-> ->]. left. split_and!; [done..|]. intros j Hj. by replace j with 0 by lia.
    + destruct Hr as (-> & m & -> & Hm). right. exists 0, l, m. split_and!; try done; lia.
Qed.

(** Starting the process that was found. *)
Lemma run_ready_core Q T s i p l x m :
  kcore Q T s -> (forall p x, arr_get (ptable s) p = Some x -> p_state x ≠ PROC_RUN) -> 0 <= i < N_PRIO ->
  Q (ReadyQ i) = p :: l -> arr_get (ptable s) p = Some x -> qsok (prios s) m (qupd Q (ReadyQ i) l) ->
  kcore (qupd Q (ReadyQ i) l) T (set_current_pid p (with_qs (put_proc p (set_p_state PROC_RUN x) s) m)).
Proof.
  intros H Hrun Hi El E HQ. assert (p ∈ Q (ReadyQ i)) as Hin by (rewrite El; by left).
  pose proof (core_in _ _ _ _ _ _ H E Hin) as Hh. pose proof (c_pcb _ _ _ H p x E) as Hok.
  destruct (home_valid _ _ _ Hok Hh) as (Hp & _ & Hal).
  pose proof (c_nodup _ _ _ H (ReadyQ i)) as Hnd. rewrite El in Hnd. apply list.NoDup_cons in Hnd as [Hpl Hnd].
  assert (p_state x = PROC_NEW ∨ p_state x = PROC_READY) as Hst.
  { unfold home in Hh. rewrite Hal in Hh. destruct Hok as [_ Hb _ _ _].
    destruct (p_state x); auto; try discriminate Hh; destruct Hb as (q' & Eq & _ & Hw); rewrite Hh in Eq; simplify_eq; done. }
  eapply (core_update Q T s _ _ _ p x (set_p_state PROC_RUN x)); try done.
  - destruct Hok as [Ha Hb Hf Hid Hfr]. constructor; simpl; try done; [|by rewrite Hal].
    by destruct Hst as [Es|Es]; rewrite Es in Hb.
  - unfold qs_of. change (prios (set_current_pid p (with_qs (put_proc p (set_p_state PROC_RUN x) s) m))) with (prios (put_proc p (set_p_state PROC_RUN x) s)).
    by rewrite (prios_put p x).
  - apply qupd_nodup; [apply (c_nodup _ _ _ H)|done].
  - intros q r Hr. rewrite qupd_elem. destruct (decide (q = ReadyQ i)) as [->|]; [rewrite El|]; set_solver.
  - intros q [[-> Hl]|[Hne Hq]]%qupd_elem; [done|]. pose proof (core_in _ _ _ _ _ _ H E Hq). congruence.
  - intros j Hj. unfold home in Hj. simpl in Hj. by rewrite Hal in Hj.
  - intros r y Hr Ey Hy. by destruct (Hrun r y Ey).
  - eapply tmr_ok_put; [apply (c_tmr _ _ _ H)|exact E| |done]. intros _. simpl. auto.
Qed.
Lemma run_idle_core Q T s x :
  kcore Q T s -> (forall p x, arr_get (ptable s) p = Some x -> p_state x ≠ PROC_RUN) -> arr_get (ptable s) idle_task_pid = Some x ->
  kcore Q T (set_current_pid idle_task_pid (put_proc idle_task_pid (set_p_state PROC_RUN x) s)).
Proof.
  intros H Hrun E. pose proof (c_pcb _ _ _ H _ _ E) as Hok. destruct (o_idle _ _ Hok eq_refl) as [Hal [Hs|Hs]]; [by destruct (Hrun _ _ E)|].
  assert (home idle_task_pid x = None) as Hno by (unfold home; by rewrite Hal, Hs).
  eapply (core_update Q T s _ _ _ idle_task_pid x (set_p_state PROC_RUN x)); try done.
  - destruct Hok as [Ha Hb Hf Hid Hfr]. rewrite Hs in Hb. constructor; simpl; try done; [by rewrite Hal|auto].
  - unfold qs_of. change (prios (set_current_pid idle_task_pid ?s1)) with (prios s1). rewrite (prios_put _ x) by done. apply (c_qs _ _ _ H).
  - apply (c_nodup _ _ _ H).
  - intros q Hin. pose proof (core_in _ _ _ _ _ _ H E Hin). congruence.
  - intros i Hi. unfold home in Hi. simpl in Hi. by rewrite Hal in Hi.
  - intros r y Hr Ey Hy. by destruct (Hrun r y Ey).
  - eapply tmr_ok_put; [apply (c_tmr _ _ _ H)|exact E| |done]. intros _. simpl. auto.
Qed.

Lemma core_idle Q T s : kcore Q T s -> exists x, arr_get (ptable s) idle_task_pid = Some x.
Proof. intros H. apply arr_get_Some. rewrite (c_len _ _ _ H). pose proof ok_procs. unfold idle_task_pid. lia. Qed.

(** From a state without running process. *)
Lemma sched_search_spec Q T s :
  kcore Q T s -> (forall p x, arr_get (ptable s) p = Some x -> p_state x ≠ PROC_RUN) ->
  wp (modify (set_current_pid (-1));; ready ← sched_loop; run_process ready) s (λ _ s', exists n Q' x m,
    picks Q n Q' ∧ arr_get (ptable s) n = Some x ∧ kcore Q' T s' ∧
    s' = set_current_pid n (with_qs (put_proc n (set_p_state PROC_RUN x) s) m)).
Proof.
  intros H Hrun. wp_pure. apply wp_bind. eapply wp_mono; [apply (sched_loop_spec Q T); by apply set_current_core|].
  intros r s' [(-> & -> & He)|(k & l & m & Hk & He & El & -> & HQ)]; unfold run_process.
  - rewrite bool_decide_eq_true_2 by done. destruct (core_idle _ _ _ H) as [x E]. apply wp_bind. eapply wp_upd_proc; [exact E|].
    wp_pure. exists idle_task_pid, Q, x, (kqs s). split_and!; [by constructor|done| |done].
    pose proof (run_idle_core Q T s x H Hrun E) as Hc. exact Hc.
  - assert (r ∈ Q (ReadyQ k)) as Hin by (rewrite El; by left). pose proof (core_elem _ _ _ _ _ H Hin).
    rewrite bool_decide_eq_false_2 by lia. destruct (c_home _ _ _ H _ _ Hin) as (x & E & _).
    apply wp_bind. eapply wp_upd_proc; [exact E|]. wp_pure. exists r, (qupd Q (ReadyQ k) l), x, m. split_and!; [by eapply picks_ready|done| |done].
    exact (run_ready_core Q T s k r l x m H Hrun Hk El E HQ).
Qed.

Lemma sched_search : (if sched_is_prio then sched_prio else sched_rr) = (requeue_current;; modify (set_current_pid (-1));; ready ← sched_loop; run_process ready).
Proof. unfold sched_loop, sched_prio, sched_rr. by destruct sched_is_prio. Qed.

Lemma requeued_not_run x : p_state (requeued x) ≠ PROC_RUN.
Proof. unfold requeued. by case_bool_decide. Qed.

(** Ready processes and the idle task have no timer. *)
Lemma ready_no_tmr Q T s p x :
  kcore Q T s -> arr_get (ptable s) p = Some x -> p_state x = PROC_READY ∨ p_state x = PROC_NEW ∨ p_state x = PROC_WAIT -> ~ has_tmr T p.
Proof.
  intros H E Hs Ht. destruct (t_proc _ _ (c_tmr _ _ _ H) p Ht) as (y & Ey & _ & Hy). simplify_eq.
  destruct Hs as [Hs|[Hs|Hs]], Hy as [Hy|[Hy|Hy]]; congruence.
Qed.

Lemma home_ready_state p x i : pcb_ok p x -> home p x = Some (ReadyQ i) -> p_state x = PROC_NEW ∨ p_state x = PROC_READY.
Proof.
  intros [_ Hb _ _ _] Hh. unfold home in Hh. destruct (is_allocated x); [|done].
  destruct (p_state x); auto; try discriminate Hh; destruct Hb as (q' & Eq & _ & Hw); rewrite Hh in Eq; simplify_eq; done.
Qed.

(** The chosen process was ready, and has no timer. *)
Lemma picked_ready Q T s n Q' x :
  kcore Q T s -> (forall p x, arr_get (ptable s) p = Some x -> p_state x ≠ PROC_RUN) -> picks Q n Q' ->
  arr_get (ptable s) n = Some x -> (p_state x = PROC_READY ∨ p_state x = PROC_NEW) ∧ ~ has_tmr T n ∧ is_allocated x = true.
Proof.
  intros H Hrun Hp E. pose proof (c_pcb _ _ _ H n x E) as Hok. assert ((p_state x = PROC_READY ∨ p_state x = PROC_NEW) ∧ is_allocated x = true) as [Hs Hal].
  { inversion Hp as [He|i p l Hi He El]; subst.
    - destruct (o_idle _ _ Hok eq_refl) as [Hal [Hs|Hs]]; [by destruct (Hrun _ _ E)|auto].
    - assert (n ∈ Q (ReadyQ i)) as Hin by (rewrite El; by left). pose proof (core_in _ _ _ _ _ _ H E Hin) as Hh.
      destruct (home_valid _ _ _ Hok Hh) as (_ & _ & Hal). destruct (home_ready_state _ _ _ Hok Hh); auto. }
  split; [done|]. split; [|done]. eapply ready_no_tmr; [done|done|]. tauto.
Qed.
Lemma picks_top Q T s n Q' : kcore Q T s -> picks Q n Q' -> top_at (ptable s) n Q'.
Proof.
  intros H Hp Hpr y i E Hi. pose proof (c_pcb _ _ _ H n y E) as Hok. inversion Hp as [He|k p l Hk He El]; subst.
  - apply He. destruct (o_idle _ _ Hok eq_refl) as [Hal _]. destruct (o_alloc _ _ Hok Hal). lia.
  - assert (n ∈ Q (ReadyQ k)) as Hin by (rewrite El; by left). pose proof (core_in _ _ _ _ _ _ H E Hin) as Hh.
    assert (ready_of y = ReadyQ k) as Hy.
    { destruct (home_valid _ _ _ Hok Hh) as (Hid & _ & Hal). pose proof (home_ready_state _ _ _ Hok Hh) as Hs. unfold home in Hh.
      rewrite Hal, bool_decide_eq_false_2 in Hh by done. destruct Hs as [Hs|Hs]; rewrite Hs in Hh; congruence. }
    unfold ready_of in Hy. rewrite Hpr in Hy. injection Hy as Hy. rewrite qupd_ne by (intros [= ->]; lia). apply He. lia.
Qed.

Lemma top_at_same Q n pt pt' :
  (forall y', arr_get pt' n = Some y' -> exists y, arr_get pt n = Some y ∧ p_priority y' = p_priority y) -> top_at pt n Q -> top_at pt' n Q.
Proof. intros Hy Ht Hpr y' i E' Hi. destruct (Hy y' E') as (y & E & Ey). apply (Ht Hpr y i E). lia. Qed.

(** The state after [scheduler], with the process [n] chosen. *)
Record scheduled s (x : pcb) n s' : Prop := {
  s_cur : current_pid s' = n;
  s_pt : exists y, arr_get (ptable (put_proc (current_pid s) (requeued x) s)) n = Some y ∧
    ptable s' = ptable (put_proc n (set_p_state PROC_RUN y) (put_proc (current_pid s) (requeued x) s));
  s_save : ctx_save_process s' = if bool_decide (p_state x = PROC_DEAD ∨ isrflag x = 1) then None else Some (current_pid s);
  s_prev : prev_pid s' = if bool_decide (p_state x = PROC_DEAD) then -1 else current_pid s;
  s_resched : resched s' = false ∧ did_resched s' = true;
  s_data : same_data s s';
  s_refresh : timer_need_refresh s' = timer_need_refresh s;
}.

Lemma scheduler_spec Q T s x :
  kcore Q T s -> arr_get (ptable s) (current_pid s) = Some x -> (p_state x = PROC_RUN -> ~ has_tmr T (current_pid s)) ->
  wp scheduler s (λ r s', exists n Q', picks (requeue Q (current_pid s) x) n Q' ∧ kcore Q' T s' ∧ scheduled s x n s' ∧
    top_at (ptable s) n Q' ∧ ~ has_tmr T n ∧ r = if bool_decide (prev_pid s' = n) then 1 else 0).
Proof.
  intros H E Htm. unfold scheduler. rewrite sched_search. wp_pure. apply wp_bind. eapply wp_get_proc; [done|].
  set (save := if bool_decide (p_state x = PROC_DEAD ∨ isrflag x = 1) then None else Some (current_pid s)).
  set (prev := if bool_decide (p_state x = PROC_DEAD) then -1 else current_pid s).
  apply wp_bind. apply wp_mono with (Q := λ _ s1, s1 = set_prev_pid prev (set_ctx_save_process save s)).
  { unfold save, prev. case_bool_decide as H1; [rewrite bool_decide_eq_true_2 by auto; by wp_pure|].
    case_bool_decide as H2; [rewrite bool_decide_eq_true_2 by auto; by wp_pure|]. rewrite bool_decide_eq_false_2 by tauto. by wp_pure. }
  intros [] s1 ->. set (s1 := set_prev_pid prev (set_ctx_save_process save s)).
  assert (kcore Q T s1) as H1 by (destruct H; by constructor). apply wp_bind, wp_bind. eapply wp_mono; [by apply (requeue_current_spec Q T s1 x)|].
  intros [] s2 (m & E2 & H2). change (current_pid s1) with (current_pid s) in *.
  assert (forall p y, arr_get (ptable s2) p = Some y -> p_state y ≠ PROC_RUN) as Hrun.
  { intros p y Ey Hs. pose proof (c_run _ _ _ H2 p y Ey Hs) as ->. rewrite E2 in Ey. simpl current_pid in Ey.
    change (ptable (with_qs ?a m)) with (ptable a) in Ey. rewrite (put_proc_eq _ _ x s1 E) in Ey. simplify_eq. by apply (requeued_not_run x). }
  eapply wp_mono; [by apply (sched_search_spec (requeue Q (current_pid s) x) T s2)|].
  intros [] s3 (n & Q' & y & m' & Hp & Ey & H3 & E3). assert (n ≠ -1) as Hn by (pose proof (arr_get_range _ _ _ Ey); lia).
  wp_pure. replace (current_pid s3) with n by (by rewrite E3). rewrite bool_decide_eq_false_2 by done. wp_pure.
  destruct (picked_ready _ _ _ _ _ _ H2 Hrun Hp Ey) as (_ & Hno & _).
  exists n, Q'. split_and!; [done|destruct H3; by constructor| | |done|done].
  { rewrite E3, E2. constructor; try done. exists y. split; [by rewrite E2 in Ey|done]. }
  apply (top_at_same _ _ (ptable s2)); [|by apply (picks_top _ _ _ _ _ H2)]. rewrite E2. intros z Ez. destruct (decide (n = current_pid s)) as [->|Hnc].
  - assert (z = x) as -> by congruence. exists (requeued x). split; [by apply (put_proc_eq _ _ x s1)|]. unfold requeued. by case_bool_decide.
  - exists z. split; [|done]. rewrite <- Ez. by apply (put_proc_ne _ n _ x s1).
Qed.
(** ** Switching to another process *)

(** Fields of a process that the invariant does not depend on. *)
Definition same_core (x x' : pcb) : Prop :=
  p_state x' = p_state x ∧ p_pid x' = p_pid x ∧ p_priority x' = p_priority x ∧ is_allocated x' = is_allocated x ∧ blockq x' = blockq x.

Lemma home_same p x x' : same_core x x' -> home p x' = home p x.
Proof. intros (E1 & E2 & E3 & E4 & E5). unfold home, ready_of. by rewrite E1, E3, E4, E5. Qed.
Lemma pcb_ok_same p x x' : same_core x x' -> pcb_ok p x -> (forall f, kctx x' = Some f -> p ≠ idle_task_pid ∧ frame_ok p f) -> pcb_ok p x'.
Proof. intros (E1 & E2 & E3 & E4 & E5) [Ha Hb Hf Hi _] Hfr. constructor; rewrite ?E1, ?E2, ?E3, ?E4, ?E5; done. Qed.

Lemma core_aux Q T s p x x' :
  kcore Q T s -> arr_get (ptable s) p = Some x -> same_core x x' -> kctx x' = kctx x ∨ (forall f, kctx x' = Some f -> p ≠ idle_task_pid ∧ frame_ok p f) ->
  kcore Q T (put_proc p x' s).
Proof.
  intros H E Hsame Hk. pose proof (home_same p x x' Hsame) as Hh. pose proof (c_pcb _ _ _ H p x E) as Hok. destruct (Hsame) as (E1 & E2 & E3 & E4 & E5).
  eapply (core_update Q T s _ _ _ p x x'); try done.
  - eapply pcb_ok_same; [done..|]. destruct Hk as [Hk|Hk]; [rewrite Hk; apply Hok|done].
  - unfold qs_of. rewrite (prios_put _ x) by done. apply (c_qs _ _ _ H).
  - apply (c_nodup _ _ _ H).
  - intros q Hin. rewrite Hh. by eapply core_in.
  - intros i. rewrite Hh. by apply (c_ready _ _ _ H).
  - intros r y _ Ey Hy. by eapply (c_run _ _ _ H).
  - rewrite E1. by apply (c_run _ _ _ H).
  - eapply tmr_ok_put; [apply (c_tmr _ _ _ H)|exact E| |].
    + rewrite E1, E4. intros Ht. destruct (t_proc _ _ (c_tmr _ _ _ H) p Ht) as (y & Ey & Hy). simpl in Ey. by simplify_eq.
    + rewrite E1. by apply (t_delay _ _ (c_tmr _ _ _ H) p x).
Qed.

(** Between the steps of the system: the current process runs. *)
Record kinv Q T s : Prop := {
  i_core : kcore Q T s;
  i_cur : exists x, arr_get (ptable s) (current_pid s) = Some x ∧ p_state x = PROC_RUN ∧ isrflag x = 0;
  i_notmr : ~ has_tmr T (current_pid s);
  i_rep : trep T (ktm s);
}.

Lemma restore_context_spec Q T s x :
  kcore Q T s -> arr_get (ptable s) (current_pid s) = Some x ->
  wp restore_context s (λ _ s', kcore Q T s' ∧ same_data s s' ∧ current_pid s' = current_pid s ∧ resched s' = resched s ∧
    ptable s' = ptable (put_proc (current_pid s) (set_isrflag 0 x) s) ∧ (timer_need_refresh s = true -> sched_partial_tick s' = false)).
Proof.
  intros H E. unfold restore_context. apply wp_bind.
  apply wp_mono with (Q := λ _ s1, exists d r b, s1 = set_sched_partial_tick b (set_timer_need_refresh r (set_did_resched d s)) ∧ (timer_need_refresh s = true -> b = false)).
  { unfold pit_reset. wp_pure. destruct (timer_need_refresh s) eqn:Er; [wp_pure; by exists false, false, false|].
    wp_pure. destruct (did_resched s) eqn:Ed.
    - wp_pure. exists false, false, true. split; [|done]. f_equal. destruct s. simpl in *. by subst.
    - wp_pure. exists (did_resched s), (timer_need_refresh s), (sched_partial_tick s). split; [by destruct s|congruence]. }
  intros [] s1 (d & r & b & -> & Hb). wp_pure. eapply wp_upd_proc; [exact E|].
  split_and!; try done. eapply core_aux; [destruct H; by constructor|exact E|done|by left].
Qed.
Lemma core_flags Q T s s' :
  kcore Q T s -> ptable s' = ptable s -> kqs s' = kqs s -> current_pid s' = current_pid s -> same_objs s s' -> kcore Q T s'.
Proof.
  intros [H1 H2 H3 H4 H5 H6 H7 H8 H9 H10] E1 E2 E3 [D1 D3 D4 D5]. unfold prios in H2.
  constructor; unfold prios; rewrite ?E1, ?E2, ?E3, ?D1, ?D3, ?D4, ?D5; done.
Qed.

(** The processor went from [c], which waits with the frame [f], to [n]. *)
Record switched s c (x : pcb) (f : frame) n s' : Prop := {
  w_cur : current_pid s' = n;
  w_ne : n ≠ c;
  w_other p : p ≠ c -> p ≠ n -> arr_get (ptable s') p = arr_get (ptable s) p;
  w_self : arr_get (ptable s') c = Some (if bool_decide (p_state x = PROC_DEAD) then x else set_isrflag 0 (set_kctx (Some f) x));
  w_next : exists y, arr_get (ptable s) n = Some y ∧ arr_get (ptable s') n = Some (set_isrflag 0 (set_p_state PROC_RUN y)) ∧
    (p_state y = PROC_READY ∨ p_state y = PROC_NEW);
  w_resched : resched s' = false;
  w_data : same_data s s';
}.

Lemma suspend_spec Q T s x f :
  kcore Q T s -> trep T (ktm s) -> arr_get (ptable s) (current_pid s) = Some x -> isrflag x = 0 -> current_pid s ≠ idle_task_pid ->
  p_state x ≠ PROC_RUN -> p_state x ≠ PROC_READY -> p_state x ≠ PROC_NEW -> p_state x = PROC_DEAD ∨ frame_ok (current_pid s) f ->
  wp (suspend f) s (λ _ s', exists n Q', picks Q n Q' ∧ kinv Q' T s' ∧ top_at (ptable s) n Q' ∧ switched s (current_pid s) x f n s').
Proof.
  intros H Hrep E Hisr Hid Hr1 Hr2 Hr3 Hfr. set (c := current_pid s) in *.
  assert (forall p y, arr_get (ptable s) p = Some y -> p_state y ≠ PROC_RUN) as Hrun.
  { intros p y Ey Hs. pose proof (c_run _ _ _ H p y Ey Hs) as ->. fold c in Ey. simplify_eq. }
  unfold suspend. apply wp_bind. eapply wp_mono; [by apply (scheduler_spec Q T s x)|]. intros r s1 (n & Q' & Hp & H1 & Hs & Htop & Hno & Hr).
  fold c in Hp, Hs. assert (requeue Q c x = Q) as Erq by (unfold requeue; by rewrite bool_decide_eq_false_2 by (by intros [])).
  rewrite Erq in Hp. destruct Hs as [Hcur (y & Ey & Ept) Hsave Hprev [Hre _] Hd].
  assert (requeued x = x) as Ex by (unfold requeued; by rewrite bool_decide_eq_false_2). rewrite Ex in *.
  assert (put_proc c x s = s) as Es.
  { unfold put_proc. rewrite list_insert_id; [by destruct s|]. rewrite <- arr_get_lookup; [done|]. apply arr_get_range in E. lia. }
  fold c in Ey, Ept, Hsave, Hprev. rewrite Es in Ey, Ept. destruct (picked_ready _ _ _ _ _ _ H Hrun Hp Ey) as (Hst & _ & Hal).
  assert (n ≠ c) as Hne by (intros ->; rewrite E in Ey; simplify_eq; by destruct Hst). assert (n <> -1) by (apply arr_get_range in Ey; lia).
  assert (r = 0) as ->.
  { rewrite Hr, bool_decide_eq_false_2; [done|]. rewrite Hprev. destruct (bool_decide (p_state x = PROC_DEAD)); auto. }
  clear Hr. rewrite bool_decide_eq_false_2 by auto. wp_pure. rewrite Hsave. clear Hsave Hprev.
  set (x2 := if bool_decide (p_state x = PROC_DEAD) then x else set_isrflag 0 (set_kctx (Some f) x)).
  assert (arr_get (ptable s1) c = Some x) as E1 by (rewrite Ept; rewrite (put_proc_ne n c _ y s Ey); done).
  apply wp_bind. apply wp_mono with (Q := λ _ s2, s2 = put_proc c x2 s1).
  { unfold x2. destruct (decide (p_state x = PROC_DEAD)) as [Hd1|Hd1].
    - rewrite !bool_decide_eq_true_2 by auto. apply wp_ret. unfold put_proc. rewrite list_insert_id; [by destruct s1|].
      rewrite <- arr_get_lookup; [done|]. apply arr_get_range in E. lia.
    - rewrite (bool_decide_eq_false_2 (_ ∨ _)) by (rewrite Hisr; intros [?|?]; done).
      rewrite bool_decide_eq_false_2 by done. by eapply wp_upd_proc. }
  intros [] s2 ->. assert (kcore Q' T (put_proc c x2 s1)) as H2.
  { eapply core_aux; [done|done|unfold x2; by case_bool_decide|]. unfold x2. case_bool_decide; [by left|]. right. intros f' [= <-].
    by destruct Hfr. }
  assert (arr_get (ptable s1) n = Some (set_p_state PROC_RUN y)) as E1n by (rewrite Ept; by apply (put_proc_eq n _ y s)).
  assert (arr_get (ptable (put_proc c x2 s1)) n = Some (set_p_state PROC_RUN y)) as E2n by (rewrite (put_proc_ne c n _ x s1 E1); done).
  eapply wp_mono; [apply (restore_context_spec Q' T _ (set_p_state PROC_RUN y) H2); simpl; rewrite Hcur; exact E2n|].
  intros [] s3 (H3 & Hd3 & Hc3 & Hre3 & Ept3 & _). simpl current_pid in *. rewrite Hcur in *.
  assert (arr_get (ptable s3) n = Some (set_isrflag 0 (set_p_state PROC_RUN y))) as E3n.
  { rewrite Ept3. by apply (put_proc_eq n _ _ _ E2n). }
  assert (forall p, p ≠ n -> arr_get (ptable s3) p = arr_get (ptable (put_proc c x2 s1)) p) as E3.
  { intros p Hpn. rewrite Ept3. by apply (put_proc_ne n p _ _ _ E2n). }
  exists n, Q'. split_and!; [done| |done|].
  - constructor; [done| |by rewrite Hc3|rewrite (d_tmr _ _ Hd3); simpl; by rewrite (d_tmr _ _ Hd)]. rewrite Hc3. eexists. split; [exact E3n|done].
  - constructor; try done.
    + intros p Hpc Hpn. rewrite E3 by done. rewrite (put_proc_ne c p _ x s1 E1) by done. rewrite Ept.
      by apply (put_proc_ne n p _ y s Ey).
    + rewrite E3 by done. by apply (put_proc_eq c _ x s1).
    + by exists y.
    + by rewrite Hre3.
    + by rewrite Hd, <- Hd3.
Qed.
End inv.
