(* ===== verification/Kops.v ===== *)
(** * The operations of the kernel keep its invariant

    Blocking and unblocking, the timers, the creation and the end of processes
    and the two ways out of the kernel, specified on the abstract queues and
    timers of Kinv.v. *)

From stdpp Require Import gmap.
From S2P Require Import Prelude Kqueue Kheap Ktimer Ksched Kinv.
Open Scope Z_scope.

Section ops.
Context {KC : KConfig} {KOK : KConfigOk KC}.
Implicit Types (s : kst) (q : qid) (p : Z) (l : list Z) (Q : qmap) (T : list soft_tmr).

Lemma put_proc_put p x x' s : put_proc p x' (put_proc p x s) = put_proc p x' s.
Proof. unfold put_proc. simpl. by rewrite list_insert_insert_eq. Qed.

(** ** Blocking *)

Lemma process_block_spec Q T s x q st f :
  kcore Q T s -> trep T (ktm s) -> arr_get (ptable s) (current_pid s) = Some x -> p_state x = PROC_RUN -> isrflag x = 0 ->
  current_pid s ≠ idle_task_pid -> valid_q q -> is_wait q = true ->
  st = PROC_TIMED_WAIT ∨ st = PROC_WAIT ∧ ~ has_tmr T (current_pid s) -> frame_ok (current_pid s) f ->
  wp (process_block q st f) s (λ _ s', exists l' n Q',
    l' ≡ₚ current_pid s :: Q q ∧ (sched_is_prio = false -> l' = Q q ++ [current_pid s]) ∧
    picks (qupd Q q l') n Q' ∧ kinv Q' T s' ∧ top_at (ptable s) n Q' ∧
    switched s (current_pid s) (set_p_state st (set_blockq (Some q) x)) f n s').
Proof.
  intros H Hrep E Hs Hisr Hid Hv Hw Hst Hfr. set (c := current_pid s) in *. set (x' := set_p_state st (set_blockq (Some q) x)).
  pose proof (c_pcb _ _ _ H c x E) as Hok. pose proof (run_alloc _ _ Hok Hs) as Hal. pose proof (home_run c x Hs) as Hno.
  destruct (core_room Q T s q c x H E Hid) as [Hn Hroom]; [by rewrite Hno|]. destruct (core_range _ _ _ _ _ H E).
  destruct (o_alloc _ _ Hok Hal) as [Hpid Hpr]. assert (st ≠ PROC_RUN ∧ st ≠ PROC_READY ∧ st ≠ PROC_NEW ∧ st ≠ PROC_DELAY ∧ st ≠ PROC_DEAD) as Hst'
    by (destruct Hst as [->|[-> _]]; done).
  unfold process_block. wp_pure. fold c. apply wp_bind. eapply wp_mono; [apply (wait_enq_spec s Q q c x); try done; [apply (c_qs _ _ _ H)|lia..]|].
  intros [] s1 (m & l' & -> & Hl' & Hrr & HQ). apply wp_bind. eapply wp_upd_proc; [exact E|]. fold x'.
  set (s2 := put_proc c x' (with_qs s m)).
  assert (kcore (qupd Q q l') T s2) as H2.
  { eapply (core_update Q T s _ _ s2 c x x'); try done.
    - destruct Hok as [Ha Hb Hf Hi Hfr']. constructor; simpl; try done; [destruct Hst as [->|[-> _]]; eauto|by rewrite Hal].
    - unfold s2. rewrite (prios_put c x) by done. exact HQ.
    - apply qupd_nodup; [apply (c_nodup _ _ _ H)|]. rewrite Hl'. constructor; [done|]. apply (c_nodup _ _ _ H).
    - intros q' r Hr. rewrite qupd_elem. destruct (decide (q' = q)) as [->|]; [rewrite Hl'|]; set_solver.
    - intros q' [[-> _]|[_ Hin]]%qupd_elem; [|pose proof (core_in _ _ _ _ _ _ H E Hin); congruence].
      unfold home. simpl. rewrite Hal. by destruct Hst as [->|[-> _]].
    - intros i Hi. unfold home in Hi. simpl in Hi. rewrite Hal in Hi. destruct Hst as [->|[-> _]]; simplify_eq; done.
    - intros r y Hr Ey Hy. by eapply (c_run _ _ _ H).
    - eapply tmr_ok_put; [apply (c_tmr _ _ _ H)|exact E| |tauto]. intros Ht. split; [done|]. simpl. destruct Hst as [->|[_ ?]]; [auto|done]. }
  assert (arr_get (ptable s2) c = Some x') as E2 by (eapply (put_proc_eq c _ x); exact E).
  eapply wp_mono; [apply (suspend_spec (qupd Q q l') T s2 x' f H2 Hrep E2); try tauto; by right|].
  intros [] s3 (n & Q' & Hp & H3 & Htop & Hsw). exists l', n, Q'. split_and!; [done..| |].
  { eapply top_at_same; [|exact Htop]. intros z Ez. exists z. split; [|done]. rewrite <- Ez.
    apply (put_proc_ne c n _ x (with_qs s m) E). apply (w_ne _ _ _ _ _ _ Hsw). }
  destruct Hsw as [W1 W2 W3 W4 (y & W5 & W6 & W7) W8 W9]. change (current_pid s2) with c in *.
  assert (forall p, p ≠ c -> arr_get (ptable s2) p = arr_get (ptable s) p) as E2'.
  { intros p Hp'. by apply (put_proc_ne c p _ x (with_qs s m)). }
  constructor; try done.
  - intros p Hpc Hpn. rewrite W3, E2' by done. done.
  - exists y. by rewrite <- E2'.
  - by rewrite <- W9.
Qed.

(** ** Unblocking *)

Lemma nodup_fmap_filter {A B} (f : A -> B) (P : A -> Prop) `{forall x, Decision (P x)} (l : list A) :
  NoDup (f <$> l) -> NoDup (f <$> filter P l).
Proof.
  induction l as [|a l IH]; [done|]. rewrite fmap_cons. intros [Hn Hnd]%list.NoDup_cons. rewrite filter_cons. case_decide; [|by apply IH].
  rewrite fmap_cons. constructor; [|by apply IH]. intros (b & Eb & Hb)%list_elem_of_fmap. apply Hn, list_elem_of_fmap.
  exists b. split; [done|]. by apply list_elem_of_filter in Hb as [_ Hb].
Qed.

(** The timer of [p] goes away. *)
Lemma tmr_ok_drop T pt p x x' :
  tmr_ok T pt -> arr_get pt p = Some x -> p_state x' ≠ PROC_DELAY ->
  tmr_ok (filter (λ tm, tm_pid tm ≠ p) T) (<[Z.to_nat p := x']> pt).
Proof.
  intros [H2 H3 H4 H5] E Hx. pose proof (arr_get_range _ _ _ E) as Hr.
  assert (arr_set pt p x' = Some (<[Z.to_nat p := x']> pt)) as Es by (apply arr_set_in; lia). constructor.
  - by apply nodup_fmap_filter.
  - intros tm [_ Hin]%list_elem_of_filter. by apply H3.
  - intros r (tm & [Hne Hin]%list_elem_of_filter & <-). rewrite (arr_get_set_ne _ _ _ _ _ Es) by auto. apply H4. by exists tm.
  - intros r y Ey Hd. destruct (decide (p = r)) as [<-|Hne]; [rewrite (arr_get_set _ _ _ _ Es) in Ey; by simplify_eq|].
    rewrite (arr_get_set_ne _ _ _ _ _ Es) in Ey by done. destruct (H5 r y Ey Hd) as (tm & Hin & Ht). exists tm. split; [|done].
    apply list_elem_of_filter. split; [congruence|done].
Qed.

Lemma no_tmr_filter T p : ~ has_tmr T p -> filter (λ tm, tm_pid tm ≠ p) T = T.
Proof. intros Hn. apply filter_none_dropped. intros tm Hin Ht. apply Hn. by exists tm. Qed.
(** [Q1] is [Q] without the process [p]. *)
Record without Q p Q1 : Prop := {
  wo_nodup q : NoDup (Q1 q);
  wo_other q r : r ≠ p -> (r ∈ Q1 q <-> r ∈ Q q);
  wo_self q : p ∉ Q1 q;
}.

(** A process that waited becomes ready. *)
Definition make_ready (x : pcb) : pcb := set_blockq None (set_p_state PROC_READY x).

Lemma ready_core Q T s Q1 p x x' s' :
  kcore Q T s -> arr_get (ptable s) p = Some x -> p ≠ idle_task_pid -> is_allocated x = true -> same_core (make_ready x) x' ->
  kctx x' = kctx x -> p_state x ≠ PROC_RUN ->
  without Q p Q1 -> ptable s' = ptable (put_proc p x' s) -> current_pid s' = current_pid s -> same_objs s s' ->
  qsok (prios s) (kqs s') (qupd Q1 (ready_of x) (Q1 (ready_of x) ++ [p])) ->
  kcore (qupd Q1 (ready_of x) (Q1 (ready_of x) ++ [p])) (filter (λ tm, tm_pid tm ≠ p) T) s'.
Proof.
  intros H E Hp Hal Hsame Hk Hnr [Hnd Hother Hself] Ept Ec [_ D2 D3 D4] HQ. pose proof (c_pcb _ _ _ H p x E) as Hok.
  destruct (Hsame) as (E1 & E2 & E3 & E4 & E5). simpl in *.
  assert (home p x' = Some (ready_of x)) as Hh.
  { unfold home, ready_of. by rewrite E1, E3, E4, Hal, bool_decide_eq_false_2. }
  eapply (core_update Q T s _ _ s' p x x'); try done.
  - eapply pcb_ok_same; [exact Hsame|by apply pcb_ok_ready|]. rewrite Hk. apply Hok.
  - replace (prios s') with (prios (put_proc p x' s)) by (unfold prios; by rewrite Ept). by rewrite (prios_put p x).
  - apply qupd_nodup; [done|]. apply list.NoDup_app. split_and!; [done|set_solver|apply NoDup_singleton].
  - intros q r Hr. rewrite qupd_elem. destruct (decide (q = ready_of x)) as [->|]; rewrite <- Hother by done; set_solver.
  - intros q [[-> _]|[_ Hin]]%qupd_elem; [done|]. by destruct (Hself q).
  - intros i Hi. assert (ReadyQ i = ready_of x) as -> by congruence. rewrite qupd_eq. set_solver.
  - intros r y Hr Ey Hy. rewrite Ec. by eapply (c_run _ _ _ H).
  - by rewrite E1.
  - rewrite Ept. eapply tmr_ok_drop; [apply (c_tmr _ _ _ H)|exact E|by rewrite E1].
Qed.

(** Taking [p] out of the only queue it is in. *)
Lemma without_qupd Q T s q p x l' :
  kcore Q T s -> arr_get (ptable s) p = Some x -> Q q ≡ₚ p :: l' -> without Q p (qupd Q q l').
Proof.
  intros H E Hl. pose proof (c_nodup _ _ _ H q) as Hnd. rewrite Hl in Hnd. apply list.NoDup_cons in Hnd as [Hpl Hnd].
  assert (p ∈ Q q) as Hin by (rewrite Hl; by left). pose proof (core_in _ _ _ _ _ _ H E Hin) as Hh. split.
  - apply qupd_nodup; [apply (c_nodup _ _ _ H)|done].
  - intros q' r Hr. rewrite qupd_elem. destruct (decide (q' = q)) as [->|]; [rewrite Hl|]; set_solver.
  - intros q'. rewrite qupd_elem. intros [[-> Hin']|[Hne Hin']]; [done|]. pose proof (core_in _ _ _ _ _ _ H E Hin'). congruence.
Qed.

Lemma wp_tmr {A} (m : ST tmrs A) s (P : A -> kst -> Prop) : wp m (ktm s) (λ a t, P a (set_ktm t s)) -> wp (tmr m) s P.
Proof. apply wp_zoom. Qed.

(** The state after a process left the wait queue [q], with the flag [b]. *)
Definition unblocked Q T s q (b : bool) s' : Prop := exists r y x' l',
  next_waiter (prios s) (Q q) r l' ∧ arr_get (ptable s) r = Some y ∧
  (same_core (make_ready y) x' ∧ kctx x' = kctx y ∧ p_timeout x' = p_timeout y ∧ isrflag x' = isrflag y) ∧
  ptable s' = ptable (put_proc r x' s) ∧
  kcore (qupd (qupd Q q l') (ready_of y) (Q (ready_of y) ++ [r])) (filter (λ tm, tm_pid tm ≠ r) T) s' ∧
  trep (filter (λ tm, tm_pid tm ≠ r) T) (ktm s') ∧ same_objs s s' ∧ current_pid s' = current_pid s ∧
  resched s' = b ∧ sched_partial_tick s' = sched_partial_tick s.

Lemma process_unblock_spec Q T s q :
  kcore Q T s -> trep T (ktm s) -> valid_q q -> is_wait q = true -> Q q ≠ [] ->
  wp (process_unblock q) s (λ _ s', unblocked Q T s q (sched_is_prio || resched s) s').
Proof.
  intros H Hrep Hv Hw Hne. unfold process_unblock. apply wp_bind. eapply wp_mono.
  { apply (wait_deq_spec s Q q); try done; [apply (c_qs _ _ _ H)|]. intros y Hy. pose proof (core_elem _ _ _ _ _ H Hy). pose proof ok_procs. lia. }
  intros r s1 (m & l' & -> & [Hl Hord] & HQ). assert (r ∈ Q q) as Hin by (rewrite Hl; by left).
  pose proof (core_elem _ _ _ _ _ H Hin) as Hr. rewrite bool_decide_eq_false_2 by lia.
  destruct (c_home _ _ _ H _ _ Hin) as (y & E & Hh). pose proof (c_pcb _ _ _ H r y E) as Hok.
  destruct (home_valid _ _ _ Hok Hh) as (Hid & _ & Hal). pose proof (without_qupd Q T s q r y l' H E Hl) as Hwo.
  assert (p_state y = PROC_WAIT ∨ p_state y = PROC_TIMED_WAIT) as Hst.
  { unfold home in Hh. rewrite Hal in Hh. rewrite bool_decide_eq_false_2 in Hh by done.
    destruct (p_state y); auto; try discriminate Hh; injection Hh as <-; done. }
  assert (ready_of y ≠ q) as Hrq by (intros <-; done).
  set (T' := filter (λ tm, tm_pid tm ≠ r) T). apply wp_bind. eapply wp_get_proc; [exact E|].
  apply wp_bind. apply wp_mono with (Q := λ _ s2, exists y2 t, s2 = set_ktm t (put_proc r y2 (with_qs s m)) ∧ trep T' t ∧
    same_core y y2 ∧ kctx y2 = kctx y ∧ p_timeout y2 = p_timeout y ∧ isrflag y2 = isrflag y).
  { case_bool_decide as Ht.
    - apply wp_bind, wp_tmr. eapply wp_mono; [apply (remove_tmr_spec r T); [done|lia]|]. intros k t [Ht' _].
      eapply wp_upd_proc; [exact E|]. by exists (set_p_remain k y), t.
    - apply wp_ret. exists y, (ktm s). unfold put_proc. simpl. rewrite list_insert_id by (rewrite <- arr_get_lookup by lia; done).
      split_and!; try done. unfold T'. rewrite no_tmr_filter; [done|].
      eapply (ready_no_tmr Q T s r y); [done|done|]. destruct Hst; tauto. }
  intros [] s2 (y2 & t & -> & Ht' & (S1 & S2 & S3 & S4 & S5) & K1 & K2 & K3). set (s2 := set_ktm t (put_proc r y2 (with_qs s m))).
  assert (arr_get (ptable s2) r = Some y2) as E2 by (eapply (put_proc_eq r y2 y); exact E).
  apply wp_bind. eapply wp_upd_proc; [exact E2|]. set (x' := set_blockq None (set_p_state PROC_READY y2)).
  set (s3 := put_proc r x' s2). assert (same_core (make_ready y) x') as Hsame by done.
  assert (ptable s3 = ptable (put_proc r x' s)) as Ept by (unfold s3, s2; simpl; by rewrite list_insert_insert_eq).
  assert (prios s3 = prios s) as Hpr by (unfold prios; rewrite Ept; apply (prios_put r y x' s E); simpl; congruence).
  apply wp_bind. unfold ready_enq. apply wp_bind. eapply wp_get_proc; [by eapply (put_proc_eq r x' y2)|].
  assert (ready_of x' = ready_of y) as -> by (unfold ready_of; simpl; by rewrite S3).
  destruct (core_room Q T s (ready_of y) r y H E Hid) as [_ Hroom]; [rewrite Hh; congruence|].
  assert (Q (ready_of y) = qupd Q q l' (ready_of y)) as EQ by (by rewrite qupd_ne).
  eapply wp_mono; [apply (penq_spec s3 (qupd Q q l')); [rewrite Hpr; exact HQ| |done|by rewrite <- EQ]|].
  { unfold ready_of, valid_q. pose proof ok_prio. destruct (o_alloc _ _ Hok Hal) as [_ ?]. destruct sched_is_prio; lia. }
  intros [] s4 (m4 & -> & HQ4). rewrite Hpr in HQ4.
  assert (forall b, kcore (qupd (qupd Q q l') (ready_of y) (qupd Q q l' (ready_of y) ++ [r])) T' (set_resched b (with_qs s3 m4))) as Hk.
  { intros b. eapply (ready_core Q T s (qupd Q q l') r y x'); try done. destruct Hst; congruence. }
  assert (forall b, unblocked Q T s q b (set_resched b (with_qs s3 m4))) as Hfin.
  { intros b. exists r, y, x', l'. rewrite EQ. by split_and!. }
  destruct sched_is_prio; wp_pure; [apply (Hfin true)|]. specialize (Hfin (resched s)).
  by replace (set_resched (resched s) (with_qs s3 m4)) with (with_qs s3 m4) in Hfin by done.
Qed.

(** ** Timeouts *)

(** The queues without a process whose timer expired. *)
Definition timeout_queues Q p (y : pcb) Q1 : Prop :=
  match blockq y with Some q => exists l', removed p (Q q) l' ∧ Q1 = qupd Q q l' | None => Q1 = Q end.

(** The state after the timeout of [p]. *)
Definition timed_out Q T s p s' : Prop := exists y x' Q1,
  arr_get (ptable s) p = Some y ∧ timeout_queues Q p y Q1 ∧
  (same_core (make_ready y) x' ∧ kctx x' = kctx y ∧ isrflag x' = isrflag y ∧
   p_timeout x' = match blockq y with Some _ => true | None => p_timeout y end) ∧
  ptable s' = ptable (put_proc p x' s) ∧
  kcore (qupd Q1 (ready_of y) (Q (ready_of y) ++ [p])) (filter (λ tm, tm_pid tm ≠ p) T) s' ∧
  same_data s s' ∧ current_pid s' = current_pid s ∧ resched s' = true ∧ sched_partial_tick s' = sched_partial_tick s.

(** Taking [p] out of its wait queue, where it may be missing. *)
Lemma removed_without Q T s p y q l' :
  kcore Q T s -> arr_get (ptable s) p = Some y -> home p y = Some q -> removed p (Q q) l' -> without Q p (qupd Q q l').
Proof.
  intros H E Hh (Hin & Hout & _). destruct (decide (p ∈ Q q)) as [Hp|Hp]; [by eapply without_qupd; [..|apply Hin]|].
  rewrite (Hout Hp). split.
  - intros q'. unfold qupd. case_decide; [subst|]; apply (c_nodup _ _ _ H).
  - intros q' r _. unfold qupd. case_decide; by subst.
  - intros q' Hq'. rewrite qupd_elem in Hq'. assert (p ∈ Q q') as Hq by (destruct Hq' as [[-> ?]|[_ ?]]; done).
    pose proof (core_in _ _ _ _ _ _ H E Hq). congruence.
Qed.

(** A process that belongs to no queue. *)
Lemma homeless_without Q T s p y : kcore Q T s -> arr_get (ptable s) p = Some y -> home p y = None -> without Q p Q.
Proof.
  intros H E Hh. split; [apply (c_nodup _ _ _ H)|done|]. intros q Hq. pose proof (core_in _ _ _ _ _ _ H E Hq). congruence.
Qed.

Lemma timeout_without Q T s p y Q1 :
  kcore Q T s -> arr_get (ptable s) p = Some y -> p_state y = PROC_TIMED_WAIT ∨ p_state y = PROC_DELAY ->
  timeout_queues Q p y Q1 -> without Q p Q1 ∧ Q1 (ready_of y) = Q (ready_of y).
Proof.
  intros H E Hst HQ1. pose proof (c_pcb _ _ _ H p y E) as [_ Hb Hf _ _]. unfold timeout_queues in HQ1.
  assert (is_allocated y = true) as Hal by (destruct (is_allocated y); [done|]; destruct (Hf eq_refl), Hst; congruence).
  assert (home p y = blockq y) as Hh.
  { unfold home. rewrite Hal. destruct Hst as [Hst|Hst]; rewrite Hst in *; [done|]. by rewrite Hb. }
  destruct (blockq y) as [q|] eqn:Eb.
  - destruct HQ1 as (l' & Hrm & ->). assert (is_wait q = true) as Hw.
    { destruct Hst as [Hst|Hst]; rewrite Hst in Hb; [|done]. by destruct Hb as (q' & [= <-] & _ & Hw). }
    split; [by eapply removed_without|]. rewrite qupd_ne; [done|by intros <-].
  - subst Q1. split; [by eapply homeless_without|done].
Qed.

Lemma handle_timeout_spec Q T s p y :
  kcore Q T s -> arr_get (ptable s) p = Some y -> is_allocated y = true -> p_state y = PROC_TIMED_WAIT ∨ p_state y = PROC_DELAY ->
  wp (handle_timeout p) s (λ _ s', timed_out Q T s p s').
Proof.
  intros H E Hal Hst. pose proof (c_pcb _ _ _ H p y E) as Hok. pose proof (arr_get_range _ _ _ E) as Hr.
  assert (p ≠ idle_task_pid) as Hid by (intros Hp; destruct (o_idle _ _ Hok Hp) as [_ [Hs|Hs]], Hst; congruence).
  unfold handle_timeout. apply wp_bind. eapply wp_get_proc; [exact E|].
  apply wp_bind. apply wp_mono with (Q := λ _ s1, exists Q1 m y1, timeout_queues Q p y Q1 ∧ s1 = put_proc p y1 (with_qs s m) ∧
    qsok (prios s) m Q1 ∧ same_core (set_blockq None y) y1 ∧ kctx y1 = kctx y ∧ isrflag y1 = isrflag y ∧
    p_timeout y1 = match blockq y with Some _ => true | None => p_timeout y end).
  { destruct (blockq y) as [q|] eqn:Eb.
    - assert (valid_q q ∧ is_wait q = true) as [Hv Hw].
      { destruct Hok as [_ Hb _ _ _]. destruct Hst as [Hst|Hst]; rewrite Hst in Hb; [|congruence].
        destruct Hb as (q' & Eq & Hv & Hw). rewrite Eb in Eq. by injection Eq as <-. }
      apply wp_bind. eapply wp_mono; [apply (wait_delq_spec s Q q p); try done; apply (c_qs _ _ _ H)|].
      intros _ s1 (m & l' & -> & Hrem & HQ1). eapply wp_upd_proc; [exact E|]. exists (qupd Q q l'), m.
      eexists. split; [unfold timeout_queues; rewrite Eb; by exists l'|]. split_and!; done.
    - apply wp_ret. exists Q, (kqs s), y. split; [unfold timeout_queues; by rewrite Eb|].
      split; [unfold put_proc; simpl; rewrite list_insert_id by (rewrite <- arr_get_lookup by lia; done); by destruct s|].
      split; [apply (c_qs _ _ _ H)|]. by split_and!. }
  intros [] s1 (Q1 & m & y1 & HQ1 & -> & Hqs & (S1 & S2 & S3 & S4 & S5) & K1 & K2 & K3).
  destruct (timeout_without _ _ _ _ _ _ H E Hst HQ1) as [Hwo EQ]. simpl in *.
  set (s1 := put_proc p y1 (with_qs s m)). set (x' := set_p_state PROC_READY y1).
  assert (arr_get (ptable s1) p = Some y1) as E1 by (eapply (put_proc_eq p y1 y); exact E).
  apply wp_bind. eapply wp_upd_proc; [exact E1|]. fold x'. set (s2 := put_proc p x' s1).
  assert (ptable s2 = ptable (put_proc p x' s)) as Ept by (unfold s2, s1; simpl; by rewrite list_insert_insert_eq).
  assert (prios s2 = prios s) as Hpr by (unfold prios; rewrite Ept; apply (prios_put p y x' s E); simpl; congruence).
  apply wp_bind. unfold ready_enq. apply wp_bind. eapply wp_get_proc; [by eapply (put_proc_eq p x' y1)|].
  assert (ready_of x' = ready_of y) as -> by (unfold ready_of; simpl; by rewrite S3).
  assert (home p y ≠ Some (ready_of y)) as Hhome.
  { intros Hh. destruct (home_ready_state _ _ _ Hok Hh), Hst; congruence. }
  destruct (core_room Q T s (ready_of y) p y H E Hid Hhome) as [_ Hroom].
  eapply wp_mono; [apply (penq_spec s2 Q1); [rewrite Hpr; exact Hqs| |done|by rewrite EQ]|].
  { unfold ready_of, valid_q. pose proof ok_prio. destruct (o_alloc _ _ Hok Hal) as [_ ?]. destruct sched_is_prio; lia. }
  intros [] s3 (m3 & -> & HQ3). rewrite Hpr in HQ3. wp_pure. exists y, x', Q1. split_and!; try done.
  rewrite <- EQ. eapply (ready_core Q T s Q1 p y x'); try done. destruct Hst; congruence.
Qed.
(** ** A tick of the timers *)

Definition tick_tmr (tm : soft_tmr) : soft_tmr := set_tm_timeout (u32 (tm_timeout tm - 1)) tm.
Definition ticked T : list soft_tmr := filter (λ tm, tm_timeout tm ≠ 0) (tick_tmr <$> T).
(** The processes whose timers expire with the next tick. *)
Definition expired T : list Z := tm_pid <$> filter (λ tm, tm_timeout tm = 1) T.

Lemma has_tmr_fmap T p : has_tmr T p <-> p ∈ tm_pid <$> T.
Proof. unfold has_tmr. rewrite list_elem_of_fmap. naive_solver. Qed.

(** Timers may change their remaining time. *)
Lemma core_ticks Q T T2 s :
  kcore Q T s -> tm_pid <$> T2 = tm_pid <$> T -> (forall tm, tm ∈ T2 -> 1 <= tm_timeout tm < 2^32) -> kcore Q T2 s.
Proof.
  intros [H1 H2 H3 H4 H5 H6 H7 [T1 T3 T4 T5] H9 H10] E Ht. constructor; try done. constructor.
  - by rewrite E.
  - done.
  - intros p Hp. apply T4. rewrite has_tmr_fmap in *. by rewrite <- E.
  - intros p x Ex Hx. rewrite has_tmr_fmap, E, <- has_tmr_fmap. by eapply T5.
Qed.

Lemma drop_tmr TK tm TR :
  NoDup (tm_pid <$> TK ++ tm :: TR) -> filter (λ tm', tm_pid tm' ≠ tm_pid tm) (TK ++ tm :: TR) = TK ++ TR.
Proof.
  intros Hnd. rewrite fmap_app, fmap_cons in Hnd. rewrite list.filter_app, filter_cons, decide_False by auto.
  rewrite <- Permutation_middle in Hnd. apply list.NoDup_cons in Hnd as [Hn _].
  rewrite <- (filter_none_dropped (λ tm', tm_pid tm' ≠ tm_pid tm) TK) at 2; [|intros t Ht Et; apply Hn; rewrite <- Et; set_solver].
  rewrite <- (filter_none_dropped (λ tm', tm_pid tm' ≠ tm_pid tm) TR) at 2; [done|].
  intros t Ht Et. apply Hn. rewrite <- Et. apply elem_of_app. right. by apply list_elem_of_fmap_2.
Qed.

(** What the timeouts of the processes [E] do. *)
Record expirations (E : list Z) Q s Q' s' : Prop := {
  e_other p : p ∉ E -> arr_get (ptable s') p = arr_get (ptable s) p;
  e_exp p : p ∈ E -> exists y x', arr_get (ptable s) p = Some y ∧ arr_get (ptable s') p = Some x' ∧
    (p_state y = PROC_TIMED_WAIT ∨ p_state y = PROC_DELAY) ∧ same_core (make_ready y) x' ∧ kctx x' = kctx y ∧ isrflag x' = isrflag y ∧
    p_timeout x' = match blockq y with Some _ => true | None => p_timeout y end;
  e_wait q : is_wait q = true -> Q' q ≡ₚ filter (λ p, p ∉ E) (Q q);
  e_ready i : exists l, Q' (ReadyQ i) = Q (ReadyQ i) ++ l;
  e_cur : current_pid s' = current_pid s;
  e_objs : same_objs s s';
  e_resched : resched s' = resched s || negb (bool_decide (E = []));
  e_partial : sched_partial_tick s' = sched_partial_tick s;
  e_none : E = [] -> Q' = Q;
}.

Lemma expirations_nil Q s s' :
  ptable s' = ptable s -> current_pid s' = current_pid s -> same_objs s s' -> resched s' = resched s ->
  sched_partial_tick s' = sched_partial_tick s -> expirations [] Q s Q s'.
Proof.
  intros E1 E2 E3 E4 E5. constructor; try done.
  - intros p _. by rewrite E1.
  - intros p ?%elem_of_nil. done.
  - intros q _. rewrite filter_none_dropped; [done|]. intros p _ ?%elem_of_nil. done.
  - intros i. exists []. by rewrite app_nil_r.
  - by rewrite E4, orb_false_r.
Qed.

Lemma removed_filter p l l' : NoDup l -> removed p l l' -> l' ≡ₚ filter (λ r, r ≠ p) l.
Proof.
  intros Hnd (Hin & Hout & _). destruct (decide (p ∈ l)) as [Hp|Hp].
  - specialize (Hin Hp). rewrite Hin in Hnd. apply list.NoDup_cons in Hnd as [Hn _]. rewrite Hin, filter_cons, decide_False by auto.
    rewrite filter_none_dropped; [done|]. by intros r Hr ->.
  - rewrite Hout, filter_none_dropped; [done| |done]. by intros r Hr ->.
Qed.

Lemma filter_all_filter (p : Z) E l : filter (λ r, r ∉ E) (filter (λ r, r ≠ p) l) = filter (λ r, r ∉ p :: E) l.
Proof. rewrite list_filter_filter. apply list_filter_iff. intros r. set_solver. Qed.

Lemma expirations_cons p E Q T s s1 s2 y x' Q0 Q' :
  kcore Q T s -> p ∉ E -> arr_get (ptable s) p = Some y -> p_state y = PROC_TIMED_WAIT ∨ p_state y = PROC_DELAY ->
  timeout_queues Q p y Q0 ->
  (same_core (make_ready y) x' ∧ kctx x' = kctx y ∧ isrflag x' = isrflag y ∧
   p_timeout x' = match blockq y with Some _ => true | None => p_timeout y end) ->
  ptable s1 = ptable (put_proc p x' s) -> same_objs s s1 -> current_pid s1 = current_pid s -> resched s1 = true ->
  sched_partial_tick s1 = sched_partial_tick s ->
  expirations E (qupd Q0 (ready_of y) (Q (ready_of y) ++ [p])) s1 Q' s2 -> expirations (p :: E) Q s Q' s2.
Proof.
  intros H Hn Ey Hst HQ0 Hx' Ept Hd Hc Hr Hpt [F1 F2 F3 F4 F5 F6 F7 F8 F9].
  destruct (timeout_without _ _ _ _ _ _ H Ey Hst HQ0) as [Hwo EQ].
  assert (forall r, r ≠ p -> arr_get (ptable s1) r = arr_get (ptable s) r) as E1 by (intros r Hr'; rewrite Ept; by eapply put_proc_ne).
  constructor.
  - intros r [Hrp HrE]%not_elem_of_cons. by rewrite F1, E1.
  - intros r Hin. destruct (decide (r = p)) as [->|Hrp].
    + rewrite F1 by done. exists y, x'. rewrite Ept, (put_proc_eq p x' y s Ey). tauto.
    + apply elem_of_cons in Hin as [|Hin]; [done|]. destruct (F2 r Hin) as (y2 & x2 & Ey2 & Hx2). rewrite E1 in Ey2 by done.
      by exists y2, x2.
  - intros q Hw. rewrite F3 by done. rewrite qupd_ne by (by intros ->). rewrite <- filter_all_filter.
    unfold timeout_queues in HQ0. destruct (blockq y) as [q0|] eqn:Eb.
    + destruct HQ0 as (l' & Hrem & ->). destruct (decide (q = q0)) as [->|Hq].
      * rewrite qupd_eq. by rewrite (removed_filter p (Q q0) l' (c_nodup _ _ _ H q0) Hrem).
      * rewrite qupd_ne by done. rewrite (filter_none_dropped (λ r, r ≠ p) (Q q)); [done|]. intros r Hr' ->.
        pose proof (core_in _ _ _ _ _ _ H Ey Hr') as Hh. pose proof (c_pcb _ _ _ H p y Ey) as [_ Hb _ _ _].
        unfold home in Hh. destruct (is_allocated y); [|done]. destruct Hst as [Hst|Hst]; rewrite Hst in Hh; [|done]. congruence.
    + subst Q0. rewrite (filter_none_dropped (λ r, r ≠ p) (Q q)); [done|]. intros r Hr' ->. by destruct (wo_self _ _ _ Hwo q).
  - intros i. destruct (F4 i) as [l Hl]. rewrite Hl. destruct (decide (ReadyQ i = ready_of y)) as [->|Hne].
    + rewrite qupd_eq, <- app_assoc. eauto.
    + rewrite qupd_ne by done. exists l. f_equal. unfold timeout_queues in HQ0. destruct (blockq y) as [q0|] eqn:Eb; [|by subst].
      destruct HQ0 as (l' & _ & ->). rewrite qupd_ne; [done|]. intros <-.
      pose proof (c_pcb _ _ _ H p y Ey) as [_ Hb _ _ _]. rewrite Eb in Hb. destruct Hst as [Hst|Hst]; rewrite Hst in Hb; [|done].
      by destruct Hb as (q' & [= <-] & _ & ?).
  - congruence.
  - by rewrite Hd.
  - rewrite F7, Hr. simpl. by rewrite orb_true_r.
  - congruence.
  - done.
Qed.
(** The loop over the active timers. *)
Lemma handler_loop_spec R : forall TR i K TK Q s,
  tmid i K R TK TR (ktm s) -> kcore Q (TK ++ TR) s -> (forall tm, tm ∈ TR -> tm_pid tm ≠ current_pid s) ->
  wp (handler_loop (length R) (Z.of_nat i) (Z.of_nat (length K))) s (λ n s', exists K' Q',
    n = Z.of_nat (length K') ∧ tmid (i + length R) K' [] (TK ++ ticked TR) [] (ktm s') ∧
    kcore Q' (TK ++ ticked TR) s' ∧ expirations (expired TR) Q s Q' s').
Proof.
  induction R as [|id R IH]; intros TR i K TK Q s Hm H Hcur; cbn [handler_loop length].
  { apply wp_ret. pose proof (m_left _ _ _ _ _ _ Hm) as Hl. inversion Hl; subst. exists K, Q.
    unfold ticked, expired. rewrite fmap_nil, !filter_nil, app_nil_r, Nat.add_0_r in *. split_and!; try done. by apply expirations_nil. }
  pose proof (m_left _ _ _ _ _ _ Hm) as Hl. destruct TR as [|tm TR]; [by inversion Hl|].
  destruct (mid_head _ _ _ _ _ _ _ _ Hm) as [Ha Ht]. pose proof (c_tmr _ _ _ H) as [T1 T2 T3 T4].
  assert (tm ∈ TK ++ tm :: TR) as Hin by set_solver. assert (has_tmr (TK ++ tm :: TR) (tm_pid tm)) as Hhas by (by exists tm).
  destruct (T3 _ Hhas) as (y & Ey & Hal & Hst). pose proof (T2 tm Hin) as Htk. pose proof (arr_get_range _ _ _ Ey) as Hpid.
  assert (p_state y = PROC_TIMED_WAIT ∨ p_state y = PROC_DELAY) as Hst'.
  { destruct Hst as [|[|Hst]]; auto. exfalso. apply (Hcur tm); [by left|]. by eapply (c_run _ _ _ H). }
  replace (i + S (length R))%nat with (S i + length R)%nat by lia. replace (Z.of_nat i + 1) with (Z.of_nat (S i)) by lia.
  apply wp_bind, wp_tmr. eapply wp_get_active; [exact Ha|]. apply wp_bind, wp_tmr. eapply wp_get_tmr; [exact Ht|]. cbn zeta.
  fold (tick_tmr tm). assert (tm_timeout (tick_tmr tm) = tm_timeout tm - 1) as Etk by (simpl; apply u32_small; unfold is_u32; lia).
  replace (set_ktm (ktm s) (set_ktm (ktm s) s)) with s by (by destruct s).
  apply wp_bind, wp_tmr. eapply wp_mono; [by apply (mid_put _ _ _ _ _ _ (tick_tmr tm)) with (1 := Hm)|]. intros [] t1 Hm1.
  rewrite bool_decide_eq_false_2 in Hm1 by (simpl; lia). set (s1 := set_ktm t1 s).
  assert (kcore Q (TK ++ tm :: TR) s1) as H1 by (by apply (core_flags _ _ s)).
  unfold ticked, expired in *. rewrite fmap_cons, !filter_cons, Etk. case_bool_decide as Hz.
  - rewrite (decide_False (P := _ ≠ 0)) by lia. rewrite decide_True by lia. rewrite fmap_cons.
    apply wp_bind. eapply wp_mono; [by apply (handle_timeout_spec Q (TK ++ tm :: TR) s1 (tm_pid tm) y)|].
    intros [] s2 (y' & x' & Q0 & Ey' & HQ0 & Hx' & Ept & H2 & Hd & Hc & Hr & Hpt). assert (y' = y) as -> by (simpl in Ey'; congruence).
    rewrite drop_tmr in H2 by done. apply wp_bind, wp_tmr.
    eapply wp_mono; [eapply (mid_put _ _ _ _ _ _ (set_tm_pid (-1) (tick_tmr tm))); rewrite (d_tmr _ _ Hd); exact Hm1|].
    intros [] t2 Hm2. rewrite bool_decide_eq_true_2 in Hm2 by done. set (s3 := set_ktm t2 s2).
    assert (kcore (qupd Q0 (ready_of y) (Q (ready_of y) ++ [tm_pid tm])) (TK ++ TR) s3) as H3 by (by apply (core_flags _ _ s2)).
    eapply wp_mono; [apply (IH TR (S i) K TK _ s3 Hm2 H3)|].
    { intros tm' Hin'. simpl. rewrite Hc. apply Hcur. by right. }
    intros n s4 (K' & Q' & -> & Hm4 & H4 & Hex). exists K', Q'. split_and!; [done..|].
    assert (tm_pid tm ∉ tm_pid <$> TR) as Hn.
    { rewrite fmap_app, fmap_cons, <- Permutation_middle in T1. apply list.NoDup_cons in T1 as [Hn _]. intros Hin'. apply Hn, elem_of_app. by right. }
    eapply (expirations_cons (tm_pid tm) _ Q (TK ++ tm :: TR) s s3 s4 y x' Q0); try done.
    { intros Hin'. apply Hn. apply list_elem_of_fmap in Hin' as (t & -> & [_ Hin']%list_elem_of_filter). by apply list_elem_of_fmap_2. }
    destruct Hd as [[] _]. by constructor.
  - rewrite (decide_True (P := _ ≠ 0)) by lia. rewrite decide_False by lia. wp_pure.
    change ((active_is_a ∘ ktm) s1) with (active_is_a (ktm s1)). apply wp_bind, wp_tmr. eapply wp_mono; [by eapply mid_keep|].
    intros [] t2 [_ Hm2]. set (s2 := set_ktm t2 s1).
    replace (Z.of_nat (length K) + 1) with (Z.of_nat (length (K ++ [id]))) by (rewrite length_app; simpl; lia).
    assert (kcore Q ((TK ++ [tick_tmr tm]) ++ TR) s2) as H2.
    { rewrite <- app_assoc. eapply (core_ticks Q (TK ++ tm :: TR)); [by apply (core_flags _ _ s1)|by rewrite !fmap_app|].
      intros t [Hin'|[->|Hin']%elem_of_cons]%elem_of_app; [apply T2, elem_of_app; by left|lia|apply T2, elem_of_app; right; by right]. }
    eapply wp_mono; [apply (IH TR (S i) (K ++ [id]) (TK ++ [tick_tmr tm]) Q s2 Hm2 H2)|].
    { intros tm' Hin'. apply Hcur. by right. }
    intros n s3 (K' & Q' & -> & Hm3 & H3 & Hex). rewrite <- app_assoc in Hm3, H3. exists K', Q'. split_and!; [done..|].
    destruct Hex as [F1 F2 F3 F4 F5 [] F7 F8 F9]. by constructor.
Qed.

Lemma soft_tmr_handler_spec Q T s :
  kcore Q T s -> trep T (ktm s) -> ~ has_tmr T (current_pid s) ->
  wp soft_tmr_handler s (λ _ s', exists Q', kcore Q' (ticked T) s' ∧ trep (ticked T) (ktm s') ∧ expirations (expired T) Q s Q' s').
Proof.
  intros H [R Hm] Hno. unfold soft_tmr_handler. wp_pure. change ((nactive ∘ ktm) s) with (nactive (ktm s)).
  destruct (m_cnt _ _ _ _ _ _ Hm) as (Hn & _). rewrite Hn, Nat2Z.id. apply wp_bind.
  eapply wp_mono; [apply (handler_loop_spec R T 0 [] [] Q s Hm H)|]. { intros tm Hin Et. apply Hno. by exists tm. }
  intros n s1 (K & Q' & -> & Hm1 & H1 & Hex). apply wp_tmr. eapply wp_mono; [by eapply mid_finish|]. intros [] t Ht.
  exists Q'. split_and!; [by apply (core_flags _ _ s1)|done|]. destruct Hex as [F1 F2 F3 F4 F5 [] F7 F8 F9]. by constructor.
Qed.
(** ** Leaving the kernel *)

(** What a scheduling from [c] to [n] changes in the process table. *)
Definition next_state c n p (y : pcb) : pstate :=
  if bool_decide (p = n) then PROC_RUN
  else if bool_decide (p = c ∧ p_state y = PROC_RUN) then PROC_READY else p_state y.

Definition sched_view c n (pt pt' : list pcb) : Prop := forall p y, arr_get pt p = Some y ->
  exists y', arr_get pt' p = Some y' ∧ p_state y' = next_state c n p y ∧ p_priority y' = p_priority y ∧
    is_allocated y' = is_allocated y ∧ blockq y' = blockq y ∧ kctx y' = kctx y ∧ p_timeout y' = p_timeout y ∧ p_pid y' = p_pid y ∧
    (p ≠ n -> p ≠ c -> y' = y).

Lemma scheduled_view s x n s' :
  arr_get (ptable s) (current_pid s) = Some x -> scheduled s x n s' -> sched_view (current_pid s) n (ptable s) (ptable s').
Proof.
  intros E [_ (z & Ez & Ept) _ _ _ _] p y Ey. set (c := current_pid s) in *. unfold next_state. rewrite Ept.
  set (s1 := put_proc c (requeued x) s) in *. assert (arr_get (ptable s1) c = Some (requeued x)) as E1 by (by eapply put_proc_eq).
  destruct (decide (p = n)) as [->|Hpn].
  - rewrite (put_proc_eq n _ z s1 Ez). rewrite bool_decide_eq_true_2 by done. eexists. split; [done|].
    destruct (decide (n = c)) as [->|Hnc].
    + simplify_eq. unfold requeued. case_bool_decide; by split_and!.
    + unfold s1 in Ez. rewrite (put_proc_ne c n _ x s E Hnc) in Ez. simplify_eq. by split_and!.
  - rewrite (put_proc_ne n p _ z s1 Ez Hpn), (bool_decide_eq_false_2 (p = n)) by done.
    destruct (decide (p = c)) as [->|Hpc].
    + simplify_eq. rewrite E1. eexists. split; [done|]. unfold requeued. case_bool_decide as Hs.
      * rewrite bool_decide_eq_true_2 by done. by split_and!.
      * rewrite bool_decide_eq_false_2 by (by intros []). by split_and!.
    + unfold s1. rewrite (put_proc_ne c p _ x s E Hpc). rewrite bool_decide_eq_false_2 by (by intros []).
      eexists. split; [done|]. by split_and!.
Qed.

(** Changing the saved context does not change the view. *)
Lemma sched_view_put c n pt s p z z' :
  sched_view c n pt (ptable s) -> arr_get (ptable s) p = Some z -> p = n ∨ p = c -> same_core z z' -> kctx z' = kctx z -> p_timeout z' = p_timeout z ->
  sched_view c n pt (ptable (put_proc p z' s)).
Proof.
  intros Hv Ez Hp (S1 & S2 & S3 & S4 & S5) Hk Ht r y Ey. destruct (Hv r y Ey) as (y' & Ey' & V1 & V2 & V3 & V4 & V5 & V6 & V7 & V8).
  destruct (decide (r = p)) as [->|Hne].
  - rewrite (put_proc_eq p z' z s Ez). simplify_eq. exists z'. split_and!; try done; try congruence. intros H1 H2. by destruct Hp.
  - rewrite (put_proc_ne p r z' z s Ez Hne). exists y'. by split_and!.
Qed.

Lemma syscall_exit_spec Q T s x :
  kinv Q T s -> arr_get (ptable s) (current_pid s) = Some x -> kctx x = None ->
  wp syscall_exit s (λ _ s', exists n Q', kinv Q' T s' ∧ current_pid s' = n ∧ resched s' = false ∧ same_data s s' ∧
    ((resched s = false ∧ s' = s ∧ Q' = Q) ∨ (picks (requeue Q (current_pid s) x) n Q' ∧ top_at (ptable s) n Q' ∧ sched_view (current_pid s) n (ptable s) (ptable s')))).
Proof.
  intros [H (x0 & E0 & Hs & Hisr) Hno Hrep] E Hk. assert (x0 = x) as -> by congruence. set (c := current_pid s) in *.
  unfold syscall_exit. wp_pure. destruct (resched s) eqn:Er.
  2: { apply wp_ret. exists c, Q. split_and!; try done; [|by left]. constructor; try done. by exists x. }
  apply wp_bind. eapply wp_mono; [by apply (scheduler_spec Q T s x)|]. intros r s1 (n & Q' & Hp & H1 & Hsch & Htop & Hno1 & Hr).
  pose proof (scheduled_view s x n s1 E Hsch) as Hv. fold c in Hv, Hp. pose proof (s_cur _ _ _ _ Hsch) as Hcur.
  destruct (s_resched _ _ _ _ Hsch) as [Hre _]. pose proof (s_data _ _ _ _ Hsch) as Hd.
  assert (prev_pid s1 = c) as Hprev by (rewrite (s_prev _ _ _ _ Hsch); by rewrite bool_decide_eq_false_2 by congruence).
  assert (ctx_save_process s1 = Some c) as Hsave.
  { rewrite (s_save _ _ _ _ Hsch), bool_decide_eq_false_2; [done|]. rewrite Hs, Hisr. by intros [|]. }
  destruct (Hv c x E) as (xc & Exc & Vs & V). rewrite Hprev in Hr.
  assert (exists xn, arr_get (ptable s1) n = Some xn ∧ p_state xn = PROC_RUN) as (xn & Exn & Hsn).
  { destruct (s_pt _ _ _ _ Hsch) as (z & Ez & Ept). rewrite Ept. eexists. split; [by eapply put_proc_eq|done]. }
  destruct (decide (c = n)) as [Hcn|Hcn].
  - rewrite bool_decide_eq_true_2 in Hr by done. subst r. rewrite <- Hcn in *. clear Hcn. rewrite bool_decide_eq_true_2 by done. apply wp_ret.
    exists c, Q'. split_and!; try done; [|by right]. constructor; try done.
    + rewrite Hcur. exists xn. split_and!; try done. destruct (s_pt _ _ _ _ Hsch) as (z & Ez & Ept). rewrite Ept in Exn.
      rewrite (put_proc_eq _ _ z _ Ez) in Exn. injection Exn as <-. fold c in Ez. rewrite (put_proc_eq c _ x s E) in Ez. injection Ez as <-.
      unfold requeued. by case_bool_decide.
    + by rewrite Hcur.
    + by rewrite (d_tmr _ _ Hd).
  - rewrite bool_decide_eq_false_2 in Hr by done. subst r. rewrite bool_decide_eq_false_2 by auto. wp_pure. rewrite Hsave. apply wp_bind. eapply wp_lift; [done|].
    destruct V as (V2 & V3 & V4 & V5 & V6 & V7 & V8).
    apply wp_bind. unfold save_context. eapply wp_upd_proc; [exact Exc|]. wp_pure. set (xc' := set_isrflag 0 (set_kctx None xc)).
    set (s2 := set_ctx_save_process None (put_proc c xc' s1)).
    assert (sched_view c n (ptable s) (ptable s2)) as Hv2 by (apply (sched_view_put c n _ s1 c xc xc' Hv Exc); [by right|done|simpl; congruence|done]).
    assert (kcore Q' T s2) as H2 by (apply (core_flags _ _ (put_proc c xc' s1)); try done; apply (core_aux _ _ s1 c xc); [done..|by right]).
    assert (arr_get (ptable s2) n = Some xn) as E2 by (simpl; rewrite <- Exn; apply (put_proc_ne c n xc' xc s1 Exc); congruence).
    eapply wp_mono; [apply (restore_context_spec Q' T s2 xn H2); simpl; by rewrite Hcur|].
    intros [] s3 (H3 & Hd3 & Hc3 & Hre3 & Ept3 & _). simpl current_pid in *. rewrite Hcur in *.
    exists n, Q'. split_and!; try done.
    + constructor; [done| |by rewrite Hc3|].
      * rewrite Hc3, Ept3, (put_proc_eq n _ xn s2 E2). eexists. split; [done|done].
      * rewrite (d_tmr _ _ Hd3). simpl. by rewrite (d_tmr _ _ Hd).
    + by rewrite Hre3.
    + rewrite Hd, <- Hd3. done.
    + right. split; [done|]. split; [done|]. rewrite Ept3. apply (sched_view_put c n _ s2 n xn); auto. by split_and!.
Qed.
(** The interrupted state, as the handler of the timers finds it. *)
Definition interrupted s (x : pcb) : kst := set_kernel_ticks (u32 (kernel_ticks s + 1)) (put_proc (current_pid s) (set_isrflag 1 x) s).

Lemma sched_view_refl c x pt : arr_get pt c = Some x -> p_state x = PROC_RUN -> sched_view c c pt pt.
Proof.
  intros E Hs p y Ey. exists y. unfold next_state. split_and!; try done. case_bool_decide as Hp; [by simplify_eq|].
  by rewrite bool_decide_eq_false_2 by (by intros []).
Qed.

Lemma irq_entry_spec Q T s x :
  kinv Q T s -> arr_get (ptable s) (current_pid s) = Some x ->
  wp irq_entry s (λ _ s', exists s1 Q1 n Q', expirations (expired T) Q (interrupted s x) Q1 s1 ∧ kinv Q' (ticked T) s' ∧
    current_pid s' = n ∧ resched s' = false ∧ sched_partial_tick s' = false ∧ same_objs s1 s' ∧
    sched_view (current_pid s) n (ptable s1) (ptable s') ∧
    ((n = current_pid s ∧ Q' = Q1 ∧ sched_partial_tick s = true ∧ (sched_is_prio = true -> resched s = false ∧ expired T = [])) ∨
     (picks (requeue Q1 (current_pid s) (set_isrflag 1 x)) n Q' ∧ top_at (ptable s1) n Q'))).
Proof.
  intros [H (x0 & E0 & Hs & Hisr) Hno Hrep] E. assert (x0 = x) as -> by congruence. set (c := current_pid s) in *.
  unfold irq_entry, timer_int_handler. wp_pure. fold c. apply wp_bind. eapply wp_upd_proc; [exact E|]. wp_pure.
  fold (interrupted s x). change (kernel_ticks (put_proc c (set_isrflag 1 x) s)) with (kernel_ticks s).
  change (set_kernel_ticks (u32 (kernel_ticks s + 1)) (put_proc c (set_isrflag 1 x) s)) with (interrupted s x).
  set (s0 := interrupted s x) in *. assert (kcore Q T s0) as H0.
  { assert (kcore Q T (put_proc c (set_isrflag 1 x) s)) as Hx by (by apply (core_aux _ _ s c x); [..|left]). destruct Hx. by constructor. }
  assert (arr_get (ptable s0) c = Some (set_isrflag 1 x)) as E0' by (by apply (put_proc_eq c _ x s)).
  apply wp_bind. eapply wp_mono; [apply (soft_tmr_handler_spec Q T s0 H0); [done|done]|].
  intros [] s1 (Q1 & H1 & Hrep1 & Hex). destruct (Hex) as [F1 F2 F3 F4 F5 F6 F7 F8 F9]. change (current_pid s0) with c in F5.
  assert (c ∉ expired T) as HcE.
  { unfold expired. intros (tm & -> & [_ Hin]%list_elem_of_filter)%list_elem_of_fmap. apply Hno. by exists tm. }
  assert (arr_get (ptable s1) c = Some (set_isrflag 1 x)) as E1 by (by rewrite F1).
  assert (~ has_tmr (ticked T) c) as Hno1.
  { intros (tm & [_ Hin]%list_elem_of_filter & Ht). apply list_elem_of_fmap in Hin as (tm' & -> & Hin). apply Hno. by exists tm'. }
  wp_pure. set (b := if sched_partial_tick s1 then (if sched_is_prio then resched s1 else false) else true).
  apply wp_bind. apply wp_mono with (Q := λ _ s2, exists pt, s2 = set_sched_partial_tick pt (set_resched b s1)).
  { unfold b. destruct (sched_partial_tick s1) eqn:Ep; [destruct sched_is_prio|]; wp_pure.
    - exists false. by destruct s1.
    - by exists false.
    - exists false. rewrite <- Ep. by destruct s1. }
  intros [] s2 (pt & ->). wp_pure. set (s2 := set_timer_need_refresh true _). assert (kcore Q1 (ticked T) s2) as H2 by (by apply (core_flags _ _ s1)).
  change (resched s2) with b. destruct b eqn:Eb.
  - apply wp_bind, wp_bind. eapply wp_mono; [apply (scheduler_spec Q1 (ticked T) s2 (set_isrflag 1 x) H2); simpl; by rewrite F5|].
    intros r s3 (n & Q' & Hp & H3 & Hsch & Htop & Hno3 & _). simpl current_pid in Hp. rewrite F5 in Hp. wp_pure.
    pose proof (scheduled_view s2 (set_isrflag 1 x) n s3) as Hv. simpl current_pid in Hv. rewrite F5 in Hv. specialize (Hv E1 Hsch).
    pose proof (s_cur _ _ _ _ Hsch) as Hcur. destruct (s_resched _ _ _ _ Hsch) as [Hre _]. pose proof (s_data _ _ _ _ Hsch) as Hd.
    assert (exists xn, arr_get (ptable s3) n = Some xn ∧ p_state xn = PROC_RUN) as (xn & Exn & Hsn).
    { destruct (s_pt _ _ _ _ Hsch) as (z & Ez & Ept). rewrite Ept. eexists. split; [by eapply put_proc_eq|done]. }
    set (s4 := set_ctx_save_process None s3). assert (kcore Q' (ticked T) s4) as H4 by (by apply (core_flags _ _ s3)).
    eapply wp_mono; [apply (restore_context_spec Q' (ticked T) s4 xn H4); simpl; by rewrite Hcur|].
    intros [] s5 (H5 & Hd5 & Hc5 & Hre5 & Ept5 & Hpt5). simpl current_pid in *. rewrite Hcur in *.
    exists s1, Q1, n, Q'. split_and!; try done.
    + constructor; [done| |by rewrite Hc5|].
      * rewrite Hc5, Ept5, (put_proc_eq n _ xn s4 Exn). eexists. split; [done|done].
      * rewrite (d_tmr _ _ Hd5). simpl. rewrite (d_tmr _ _ Hd). done.
    + by rewrite Hre5.
    + apply Hpt5. simpl. by rewrite (s_refresh _ _ _ _ Hsch).
    + destruct Hd as [[] _], Hd5 as [[] _]. simpl in *. constructor; congruence.
    + rewrite Ept5. apply (sched_view_put c n _ s4 n xn); auto. by split_and!.
    + by right.
  - wp_pure. eapply wp_mono; [apply (restore_context_spec Q1 (ticked T) s2 (set_isrflag 1 x) H2); simpl; by rewrite F5|].
    intros [] s5 (H5 & Hd5 & Hc5 & Hre5 & Ept5 & Hpt5). simpl current_pid in *. rewrite F5 in *.
    exists s1, Q1, c, Q1. split_and!; try done.
    + constructor; [done| |by rewrite Hc5|].
      * rewrite Hc5, Ept5, (put_proc_eq c _ _ s2 E1). eexists. split; [done|done].
      * by rewrite (d_tmr _ _ Hd5).
    + by apply Hpt5.
    + destruct Hd5 as [[] _]. by constructor.
    + rewrite Ept5. apply (sched_view_put c c _ s2 c (set_isrflag 1 x)); auto; [by eapply sched_view_refl|by split_and!].
    + left. unfold b in Eb. rewrite F8 in Eb. change (sched_partial_tick s0) with (sched_partial_tick s) in Eb. split_and!; try done.
      * by destruct (sched_partial_tick s).
      * intros Hpr. rewrite Hpr in Eb. destruct (sched_partial_tick s); [|done]. rewrite F7 in Eb.
        apply orb_false_iff in Eb as [? Hn]. split; [done|]. by apply negb_false_iff, bool_decide_eq_true in Hn.
Qed.

(** ** Creation and end of processes *)

Lemma ready_valid p x : pcb_ok p x -> is_allocated x = true -> valid_q (ready_of x).
Proof. intros Hok Hal. unfold ready_of, valid_q. pose proof ok_prio. destruct (o_alloc _ _ Hok Hal) as [_ ?]. destruct sched_is_prio; lia. Qed.

Lemma proc_create_spec Q T s priority :
  kcore Q T s -> 0 <= priority < N_PRIO ->
  wp (proc_create priority) s (λ r s', (r = -1 ∧ s' = s ∧ forall p x, arr_get (ptable s) p = Some x -> is_allocated x = true) ∨
    exists x x', 0 < r ∧ arr_get (ptable s) r = Some x ∧ is_allocated x = false ∧ is_allocated x' = true ∧
      p_state x' = PROC_NEW ∧ p_priority x' = priority ∧ kctx x' = None ∧
      kcore (qupd Q (ready_of x') (Q (ready_of x') ++ [r])) T s' ∧ ptable s' = ptable (put_proc r x' s) ∧
      same_data s s' ∧ current_pid s' = current_pid s ∧ resched s' = sched_is_prio || resched s ∧ sched_partial_tick s' = sched_partial_tick s).
Proof.
  intros H Hp. pose proof ok_prio as Hpr. unfold proc_create. wp_pure. destruct (list_find _ (ptable s)) as [[i x]|] eqn:Ef.
  2: { apply wp_ret. left. split_and!; [done..|]. intros p x E. apply list_find_None in Ef. rewrite list.Forall_forall in Ef.
       destruct (is_allocated x) eqn:Ea; [done|]. exfalso. apply (Ef x); [|done]. pose proof (arr_get_range _ _ _ E).
       rewrite arr_get_lookup in E by lia. by eapply list_elem_of_lookup_2. }
  apply list_find_Some in Ef as (Ei & Hal & _). rewrite <- arr_get_nat in Ei. set (p := Z.of_nat i) in *. pose proof (c_pcb _ _ _ H p x Ei) as Hok.
  assert (p ≠ 0) as Hp0 by (intros Hp0; destruct (o_idle _ _ Hok Hp0); congruence). assert (0 < p) by (unfold p in *; lia).
  assert (~ has_tmr T p) as Hnt by (intros Ht; destruct (t_proc _ _ (c_tmr _ _ _ H) p Ht) as (y & Ey & Hy & _); congruence).
  cbn zeta. apply wp_bind. eapply wp_upd_proc; [exact Ei|]. set (x' := set_isrflag 0 _). set (s1 := put_proc p x' s).
  assert (p_priority x' = priority) as Epr by (apply s8_small; lia). rewrite bool_decide_eq_true_2 by done.
  assert (ReadyQ (if sched_is_prio then priority else 0) = ready_of x') as -> by (unfold ready_of; by rewrite Epr).
  assert (forall q, home p x ≠ Some q) as Hno by (intros q; unfold home; by rewrite Hal).
  assert (forall q, p ∉ Q q) as HnQ by (intros q Hin; by apply (Hno q); eapply core_in).
  assert (pcb_ok p x') as Hok'.
  { constructor; try done. intros _. rewrite Epr. done. }
  assert (qsok (prios s1) (kqs s1) Q) as Hqs.
  { eapply (qsok_ext (prios s)); [by rewrite !prios_length; simpl; rewrite length_insert| |apply (c_qs _ _ _ H)].
    intros q r _ Hr. destruct (c_home _ _ _ H q r Hr) as (y & Ey & _). rewrite (prios_get s r y Ey). apply prios_get.
    unfold s1. rewrite (put_proc_ne p r x' x s Ei); [done|]. intros ->. by destruct (HnQ q). }
  destruct (core_room Q T s (ready_of x') p x H Ei Hp0 (Hno _)) as [_ Hroom].
  apply wp_bind. eapply wp_mono; [apply (penq_spec s1 Q); [done|by apply (ready_valid p)|done|done]|].
  intros [] s2 (m & -> & HQ2).
  assert (forall b, kcore (qupd Q (ready_of x') (Q (ready_of x') ++ [p])) T (set_resched b (with_qs s1 m))) as H2.
  { intros b. eapply (core_update Q T s _ _ _ p x x'); try done.
    - apply qupd_nodup; [apply (c_nodup _ _ _ H)|]. apply list.NoDup_app. split_and!; [apply (c_nodup _ _ _ H)| |apply NoDup_singleton].
      intros r Hr Hrp%list_elem_of_singleton. subst r. by apply (HnQ (ready_of x')).
    - intros q r Hr. rewrite qupd_elem. destruct (decide (q = ready_of x')) as [->|]; set_solver.
    - intros q [[-> _]|[_ Hin]]%qupd_elem; [|by destruct (HnQ q)]. unfold home. simpl. by rewrite bool_decide_eq_false_2.
    - intros j Hj. unfold home in Hj. simpl in Hj. rewrite bool_decide_eq_false_2 in Hj by done. injection Hj as Hj.
      unfold ready_of. rewrite <- Hj. simpl. rewrite qupd_eq. set_solver.
    - intros r y _ Ey Hy. by eapply (c_run _ _ _ H).
    - eapply tmr_ok_put; [apply (c_tmr _ _ _ H)|exact Ei|done|done]. }
  assert (forall b, exists x0 x0', 0 < p ∧ arr_get (ptable s) p = Some x0 ∧ is_allocated x0 = false ∧ is_allocated x0' = true ∧
    p_state x0' = PROC_NEW ∧ p_priority x0' = priority ∧ kctx x0' = None ∧
    kcore (qupd Q (ready_of x0') (Q (ready_of x0') ++ [p])) T (set_resched b (with_qs s1 m)) ∧ ptable (set_resched b (with_qs s1 m)) = ptable (put_proc p x0' s) ∧
    same_data s (set_resched b (with_qs s1 m)) ∧ current_pid (set_resched b (with_qs s1 m)) = current_pid s ∧ resched (set_resched b (with_qs s1 m)) = b ∧
    sched_partial_tick (set_resched b (with_qs s1 m)) = sched_partial_tick s) as Hfin.
  { intros b. exists x, x'. by split_and!. }
  destruct sched_is_prio; wp_pure; right; [apply (Hfin true)|]. apply (Hfin (resched s)).
Qed.

(** The running process is replaced for good. *)
Lemma invalidate_core Q T s x :
  kcore Q T s -> arr_get (ptable s) (current_pid s) = Some x -> p_state x = PROC_RUN -> current_pid s ≠ idle_task_pid ->
  ~ has_tmr T (current_pid s) -> kcore Q T (put_proc (current_pid s) (set_p_state PROC_DEAD (set_is_allocated false x)) s).
Proof.
  intros H E Hs Hid Hnt. set (c := current_pid s) in *. pose proof (c_pcb _ _ _ H c x E) as Hok.
  eapply (core_update Q T s _ _ _ c x); try done.
  - destruct Hok as [Ha Hb Hf Hi Hfr']. rewrite Hs in Hb. constructor; simpl; auto; done.
  - rewrite (prios_put c x) by done. apply (c_qs _ _ _ H).
  - apply (c_nodup _ _ _ H).
  - intros q Hin. pose proof (core_in _ _ _ _ _ _ H E Hin) as Hh. by rewrite home_run in Hh.
  - intros r y _ Ey Hy. by eapply (c_run _ _ _ H).
  - eapply tmr_ok_put; [apply (c_tmr _ _ _ H)|exact E|done|done].
Qed.

(** ** Timers of the running process *)

Lemma ticks_of_range ms : 1 <= ticks_of ms < 2^32.
Proof.
  pose proof ok_clock as (Hc & _ & _). unfold ticks_of, ms_to_ticks. set (z := u32 (ms * SYSTMR_CLK_FREQ_KHZ)).
  pose proof (u32_range (ms * SYSTMR_CLK_FREQ_KHZ)) as Hz. fold z in Hz. unfold is_u32 in Hz.
  assert (0 <= z `div` SYSTMR_INTERVAL <= z) as Hd; [|case_bool_decide; lia].
  split; [apply Z.div_pos; lia|]. apply Z.div_le_upper_bound; nia.
Qed.

Lemma add_tmr_core Q T s x ms :
  kcore Q T s -> arr_get (ptable s) (current_pid s) = Some x -> p_state x = PROC_RUN -> ~ has_tmr T (current_pid s) ->
  kcore Q (T ++ [MkTmr (ticks_of ms) (current_pid s)]) s.
Proof.
  intros H E Hs Hnt. set (c := current_pid s) in *. pose proof (run_alloc _ _ (c_pcb _ _ _ H c x E) Hs) as Hal.
  destruct (H) as [H1 H2 H3 H4 H5 H6 H7 [T1 T2 T3 T4] H9 H10]. constructor; try done. constructor.
  - rewrite fmap_app. apply list.NoDup_app. split_and!; [done| |apply NoDup_singleton]. intros r Hr Hrc%list_elem_of_singleton. simpl in Hrc. subst r.
    apply Hnt. by apply has_tmr_fmap.
  - intros tm [Hin|Hin%list_elem_of_singleton]%elem_of_app; [by apply T2|]. subst tm. apply ticks_of_range.
  - intros p (tm & [Hin|Hin%list_elem_of_singleton]%elem_of_app & <-); [apply T3; by exists tm|]. subst tm. exists x. simpl. auto.
  - intros p y Ey Hy. destruct (T4 p y Ey Hy) as (tm & Hin & Ht). exists tm. split; [|done]. apply elem_of_app. by left.
Qed.

Lemma delay_core Q T s x :
  kcore Q T s -> arr_get (ptable s) (current_pid s) = Some x -> p_state x = PROC_RUN -> current_pid s ≠ idle_task_pid ->
  has_tmr T (current_pid s) -> kcore Q T (put_proc (current_pid s) (set_p_state PROC_DELAY x) s).
Proof.
  intros H E Hs Hid Ht. set (c := current_pid s) in *. pose proof (c_pcb _ _ _ H c x E) as Hok. pose proof (run_alloc _ _ Hok Hs) as Hal.
  eapply (core_update Q T s _ _ _ c x); try done.
  - destruct Hok as [Ha Hb Hf Hi Hfr']. rewrite Hs in Hb. constructor; simpl; try done. by rewrite Hal.
  - rewrite (prios_put c x) by done. apply (c_qs _ _ _ H).
  - apply (c_nodup _ _ _ H).
  - intros q Hin. pose proof (core_in _ _ _ _ _ _ H E Hin) as Hh. by rewrite home_run in Hh.
  - intros i Hi. unfold home in Hi. simpl in Hi. by rewrite Hal in Hi.
  - intros r y _ Ey Hy. by eapply (c_run _ _ _ H).
  - eapply tmr_ok_put; [apply (c_tmr _ _ _ H)|exact E| |done]. simpl. auto.
Qed.
End ops.
