(* ===== verification/Kkill.v ===== *)
(** * Killing a process

    sys_kill of process.c (CONFIG_KILL), for processes without threads. A
    process that has run before and is not the caller is taken out of its queue
    and loses its timer, and the invariant of the kernel is kept. The code does not
    handle the other cases: a process that has not run yet stays in the ready
    queue, and for the running process the branch is empty. *)

From stdpp Require Import gmap.
From S2P Require Import Prelude Kqueue Kheap Ktimer Ksched Ksem Kinv Kops.
Open Scope Z_scope.

Section kill.
Context {KC : KConfig}.

(** The queue or the timer of a process, by its state. *)
Definition kill_unlink (pid : Z) (x : pcb) : ST kst unit :=
  match p_state x with
  | PROC_READY => on_q (ready_of x) (pdelq pid);; skip
  | PROC_WAIT => q ← lift (blockq x); wait_delq q pid;; skip
  | PROC_TIMED_WAIT => q ← lift (blockq x); wait_delq q pid;; tmr (remove_tmr pid);; skip
  | PROC_DELAY => tmr (remove_tmr pid);; skip
  | PROC_NEW | PROC_RUN | PROC_DEAD => skip
  end.

(** Without threads the branch for the running process is empty. *)
Definition sys_kill (pid : Z) : ST kst Z :=
  x ← get_proc pid;
  if is_allocated x then
    kill_unlink pid x;;
    process_invalidate pid;;
    modify (set_resched true);;
    mret 0
  else mret (-1).
End kill.

Section kill_spec.
Context {KC : KConfig} {KOK : KConfigOk KC}.
Implicit Types (s : kst) (q : qid) (p : Z) (l : list Z) (Q : qmap) (T : list soft_tmr).

Definition killed (x : pcb) : pcb := set_p_state PROC_DEAD (set_is_allocated false x).

Lemma kill_core Q T s Q1 p x s' :
  kcore Q T s -> arr_get (ptable s) p = Some x -> p ≠ idle_task_pid -> without Q p Q1 ->
  ptable s' = ptable (put_proc p (killed x) s) -> current_pid s' = current_pid s -> same_objs s s' ->
  qsok (prios s) (kqs s') Q1 -> kcore Q1 (filter (λ tm, tm_pid tm ≠ p) T) s'.
Proof.
  intros H E Hp [Hnd Hother Hself] Ept Ec [_ D2 D3 D4] HQ. pose proof (c_pcb _ _ _ H p x E) as Hok.
  eapply (core_update Q T s _ _ s' p x (killed x)); try done.
  - destruct Hok as [Ha Hb Hf Hi Hfr]. constructor; simpl; auto; done.
  - replace (prios s') with (prios (put_proc p (killed x) s)) by (unfold prios; by rewrite Ept). by rewrite (prios_put p x).
  - intros q Hin. by destruct (Hself q).
  - intros r y Hr Ey Hy. rewrite Ec. by eapply (c_run _ _ _ H).
  - rewrite Ept. eapply tmr_ok_drop; [apply (c_tmr _ _ _ H)|exact E|done].
Qed.

(** What is left of a list without repetition. *)
Lemma remove1_filter p l : NoDup l -> remove1 p l = filter (λ r, r ≠ p) l.
Proof.
  intros Hnd. unfold remove1. destruct (list_find (p =.) l) as [[i y]|] eqn:E.
  - apply list_find_Some in E as (E & <- & _). rewrite delete_take_drop. rewrite <- (take_drop_middle _ _ _ E) in Hnd at 1.
    rewrite <- (take_drop_middle _ _ _ E) at 3. apply list.NoDup_app in Hnd as (_ & Hd & [Hn _]%list.NoDup_cons).
    rewrite list.filter_app, filter_cons, decide_False by (by intros Hx; destruct (Hx eq_refl)). rewrite !filter_none_dropped; [done|..].
    + intros r Hr ->. done.
    + intros r Hr ->. apply (Hd _ Hr). by left.
  - apply list_find_None in E. rewrite list.Forall_forall in E. rewrite filter_none_dropped; [done|]. intros r Hr ->. by destruct (E p Hr).
Qed.

(** The ready queues when [p] is gone. *)
Definition unready Q p Q1 : Prop := forall i, Q1 (ReadyQ i) = filter (λ r, r ≠ p) (Q (ReadyQ i)).
Lemma unready_same Q p Q1 : without Q p Q1 -> (forall i, Q1 (ReadyQ i) = Q (ReadyQ i)) -> unready Q p Q1.
Proof. intros Hw He i. rewrite <- He, filter_none_dropped; [done|]. intros r Hr ->. by destruct (wo_self _ _ _ Hw (ReadyQ i)). Qed.

Lemma pdelq_ready_spec s Q q p :
  qsok (prios s) (kqs s) Q -> valid_q q -> is_wait q = false ->
  wp (on_q q (pdelq p)) s (λ _ s', exists m, s' = with_qs s m ∧ qsok (prios s) m (qupd Q q (remove1 p (Q q)))).
Proof.
  intros HQ Hv Hw. destruct (HQ q Hv) as (x & E & Hm & Hx). rewrite Hw, andb_false_r in Hx.
  eapply (wp_on_q _ _ _ _ _ _ E); [by apply pdelq_spec|]. intros r x' (Hm' & _ & Hr).
  eexists. split; [done|]. apply qsok_insert; [done|]. split; [congruence|]. by rewrite Hw, andb_false_r.
Qed.

Lemma kill_unlink_spec Q T s p x :
  kcore Q T s -> trep T (ktm s) -> arr_get (ptable s) p = Some x -> is_allocated x = true -> p ≠ idle_task_pid -> p ≠ current_pid s ->
  p_state x ≠ PROC_NEW ->
  wp (kill_unlink p x) s (λ _ s', exists m t Q1, s' = set_ktm t (with_qs s m) ∧ qsok (prios s) m Q1 ∧ (without Q p Q1 ∧ unready Q p Q1) ∧
    trep (filter (λ tm, tm_pid tm ≠ p) T) t).
Proof.
  intros H Hrep E Hal Hid Hc Hnew. pose proof (c_pcb _ _ _ H p x E) as Hok. pose proof (c_qs _ _ _ H) as HQ. pose proof (arr_get_range _ _ _ E) as Hrg.
  assert (forall m Q1, qsok (prios s) m Q1 -> without Q p Q1 ∧ unready Q p Q1 -> ~ has_tmr T p -> exists m' t Q1', with_qs s m = set_ktm t (with_qs s m') ∧
    qsok (prios s) m' Q1' ∧ (without Q p Q1' ∧ unready Q p Q1') ∧ trep (filter (λ tm, tm_pid tm ≠ p) T) t) as Hplain.
  { intros m Q1 H1 [H2 H3] Hn. exists m, (ktm s), Q1. rewrite no_tmr_filter by done. by split_and!. }
  assert (p_state x ≠ PROC_TIMED_WAIT -> p_state x ≠ PROC_DELAY -> p_state x ≠ PROC_RUN -> ~ has_tmr T p) as Hnt.
  { intros H1 H2 H3 Ht. destruct (t_proc _ _ (c_tmr _ _ _ H) p Ht) as (y & Ey & _ & Hy). simplify_eq. by destruct Hy as [?|[?|?]]. }
  assert (forall q l', home p x = Some q -> is_wait q = true -> removed p (Q q) l' -> without Q p (qupd Q q l') ∧ unready Q p (qupd Q q l')) as Hwait.
  { intros q l' Hh Hw Hrm. assert (without Q p (qupd Q q l')) as Hwo by (by eapply removed_without). split; [done|].
    apply unready_same; [done|]. intros i. apply qupd_ne. by intros <-. }
  assert (home p x = None -> without Q p Q ∧ unready Q p Q) as Hhome.
  { intros Hh. pose proof (homeless_without _ _ _ _ _ H E Hh) as Hwo. split; [done|]. by apply unready_same. }
  unfold kill_unlink. destruct (p_state x) eqn:Es; try done.
  - by destruct (Hc (c_run _ _ _ H p x E Es)).
  - assert (home p x = Some (ready_of x)) as Hh by (unfold home; by rewrite Hal, Es, bool_decide_eq_false_2).
    assert (p ∈ Q (ready_of x)) as Hin by (by apply (c_ready _ _ _ H p x)). apply wp_bind.
    eapply wp_mono; [apply (pdelq_ready_spec s Q); [done|by eapply (ready_valid p)|done]|]. intros _ s1 (m & -> & Hm). apply wp_ret.
    apply (Hplain _ _ Hm); [|by apply Hnt]. pose proof (c_nodup _ _ _ H (ready_of x)) as Hnd.
    assert (without Q p (qupd Q (ready_of x) (remove1 p (Q (ready_of x))))) as Hwo by (eapply without_qupd; [done|done|]; by apply remove1_removed).
    split; [done|]. intros i. destruct (decide (ReadyQ i = ready_of x)) as [->|Hne]; [by rewrite qupd_eq, remove1_filter|].
    rewrite qupd_ne by done. rewrite filter_none_dropped; [done|]. intros r Hr ->. pose proof (core_in _ _ _ _ _ _ H E Hr). congruence.
  - pose proof (o_block _ _ Hok) as Hb. rewrite Es in Hb. destruct Hb as (q & Eq & Hv & Hw). rewrite Eq. apply wp_bind. eapply wp_lift; [done|]. apply wp_bind.
    eapply wp_mono; [by apply (wait_delq_spec s Q q p)|]. intros _ s1 (m & l' & -> & Hrm & Hm). apply wp_ret.
    apply (Hplain _ _ Hm); [|by apply Hnt]. apply Hwait; [|done..]. unfold home. by rewrite Hal, Es.
  - pose proof (o_block _ _ Hok) as Hb. rewrite Es in Hb. destruct Hb as (q & Eq & Hv & Hw). rewrite Eq. apply wp_bind. eapply wp_lift; [done|]. apply wp_bind.
    eapply wp_mono; [by apply (wait_delq_spec s Q q p)|]. intros _ s1 (m & l' & -> & Hrm & Hm). apply wp_bind, wp_tmr.
    eapply wp_mono; [apply (remove_tmr_spec p T); [done|lia]|]. intros k t [Ht' _]. apply wp_ret. exists m, t, (qupd Q q l'). split_and!; try done.
    all: apply Hwait; [|done..]; unfold home; by rewrite Hal, Es.
  - apply wp_bind, wp_tmr. eapply wp_mono; [apply (remove_tmr_spec p T); [done|lia]|]. intros k t [Ht' _]. apply wp_ret.
    exists (kqs s), t, Q. split_and!; try done. all: apply Hhome; unfold home; by rewrite Hal, Es.
  - apply wp_ret. destruct (Hplain (kqs s) Q HQ) as (m & t & Q1 & Em & Hrest); [|by apply Hnt|by exists m, t, Q1; rewrite <- Em; destruct s].
    apply Hhome. unfold home. by rewrite Hal, Es.
Qed.

(** The process is gone, and nothing else has changed. *)
Lemma sys_kill_spec Q T s p x :
  kinv Q T s -> arr_get (ptable s) p = Some x -> is_allocated x = true -> p ≠ idle_task_pid -> p ≠ current_pid s -> p_state x ≠ PROC_NEW ->
  wp (sys_kill p) s (λ r s', r = 0 ∧ exists Q1, kinv Q1 (filter (λ tm, tm_pid tm ≠ p) T) s' ∧ without Q p Q1 ∧ unready Q p Q1 ∧
    ptable s' = ptable (put_proc p (killed x) s) ∧ current_pid s' = current_pid s ∧ same_objs s s' ∧ resched s' = true).
Proof.
  intros [H (c & Ec & Hs & Hi) Hn Hr] E Hal Hid Hc Hnew. unfold sys_kill, process_invalidate. apply wp_bind. eapply wp_get_proc; [exact E|].
  rewrite Hal. apply wp_bind. eapply wp_mono; [by apply (kill_unlink_spec Q T s p x)|]. intros [] s1 (m & t & Q1 & -> & Hm & [Hwo Hur] & Ht).
  wp_pure. eapply wp_upd_proc; [exact E|]. wp_pure. split; [done|]. exists Q1. set (s' := set_resched true _).
  split_and!; try done. constructor; try done.
  - by apply (kill_core Q T s Q1 p x s').
  - exists c. split; [|done]. rewrite <- Ec. by apply (put_proc_ne p (current_pid s) _ x s E).
  - intros (tm & [_ Hin]%list_elem_of_filter & Htm). apply Hn. by exists tm.
Qed.
End kill_spec.
