(* ===== verification/Kernel.v ===== *)
(** * The kernel as a transition system

    A step is a system call of the running process, the continuation of a call
    that was suspended, a call of sys_kill, or an interrupt of the timer. The
    kernel runs with interrupts disabled, so that steps do not overlap.

    What a process may do is [enabled]. Two restrictions there are not checks of the
    code: priorities and names of calls are in range, and sys_kill is called for
    processes that have run before, and not for the caller or the idle task.
    sys_kill goes wrong in the other cases (the end of Kreach.v). The calls for
    threads, messages and shared memory are in Kthread.v, Kmsg.v and Kshm.v. *)

From stdpp Require Import gmap.
From S2P Require Import Prelude Kqueue Kheap Ktimer Ksched Ksem Kmutex Kinv Kops Kkill.
Open Scope Z_scope.

(** ** System calls (syscall.h), for processes, semaphores and mutexes *)

Inductive call :=
  | CYield | CSleep (ms : Z) | CCreate (priority : Z) | CExit | CStatus (p : Z)
  | CSemInit (pshared value : Z) | CSemOpen (name : option (list Z)) (oflag value : Z)
  | CSemClose (sem : option Z) | CSemUnlink (name : list Z) | CSemDestroy (sem : option Z)
  | CSemGetvalue (sem : option Z) | CSemWait (sem : option Z) | CSemTimedwait (sem : option Z) (ms : Z)
  | CSemTrywait (sem : option Z) | CSemPost (sem : option Z)
  | CMutexInit (mutex type : option Z) | CMutexDestroy (mutex : option Z)
  | CMutexLock (mutex : option Z) | CMutexTrylock (mutex : option Z) | CMutexUnlock (mutex : option Z).

Inductive event := ECall (c : call) | EResume | ETick | EKill (p : Z).
#[export] Instance call_eq_dec : EqDecision call.
Proof. solve_decision. Defined.
#[export] Instance event_eq_dec : EqDecision event.
Proof. solve_decision. Defined.

Section kernel.
Context {KC : KConfig}.

(** The call, with the value that it stores through a pointer argument. *)
Definition run_call (c : call) : ST kst (outcome * option Z) :=
  match c with
  | CYield => o ← sys_yield; mret (o, None)
  | CSleep ms => o ← sys_sleep ms; mret (o, None)
  | CCreate priority => o ← sys_elf_process_create priority; mret (o, None)
  | CExit => o ← sys_elf_exit; mret (o, None)
  | CStatus p => r ← sys_process_status p; mret (Done r.1.1, Some r.1.2)
  | CSemInit pshared value => r ← sys_sem_init pshared value; mret (Done r.1, r.2)
  | CSemOpen name oflag value => r ← sys_sem_open name oflag value; mret (Done (default (-1) r), None)
  | CSemClose sem => o ← sys_sem_close sem; mret (o, None)
  | CSemUnlink name => o ← sys_sem_unlink name; mret (o, None)
  | CSemDestroy sem => o ← sys_sem_destroy sem; mret (o, None)
  | CSemGetvalue sem => sys_sem_getvalue sem
  | CSemWait sem => o ← sys_sem_wait_x sem; mret (o, None)
  | CSemTimedwait sem ms => o ← sys_sem_timedwait sem ms; mret (o, None)
  | CSemTrywait sem => o ← sys_sem_trywait sem; mret (o, None)
  | CSemPost sem => o ← sys_sem_post sem; mret (o, None)
  | CMutexInit mutex type => r ← sys_pthread_mutex_init mutex type; mret (Done r.1, r.2)
  | CMutexDestroy mutex => r ← sys_pthread_mutex_destroy mutex; mret (Done r.1, r.2)
  | CMutexLock mutex => sys_pthread_mutex_lock mutex
  | CMutexTrylock mutex => sys_pthread_mutex_trylock mutex
  | CMutexUnlock mutex => r ← sys_pthread_mutex_unlock mutex; mret (Done r.1, r.2)
  end.

(** A suspended call continues. *)
Definition resume (f : frame) : ST kst outcome :=
  match f with
  | FSleep => mret (Done 0)
  | FSemWait i => sem_acquired i
  | FSemTimed i self => sem_timed_resume i self
  | FMutex i => mutex_lock_loop i false
  | FJoin _ | FExit => undef
  end.

(** The end of a system call: a blocked caller has left the processor already. *)
Definition finish (o : outcome) : ST kst unit := match o with Done _ => syscall_exit | Blocked => skip end.

Definition kstep (e : event) : ST kst (outcome * option Z) :=
  match e with
  | ECall c => r ← run_call c; finish r.1;; mret r
  | EResume =>
      p ← gets current_pid;
      x ← get_proc p;
      f ← lift (kctx x);
      upd_proc p (set_kctx None);;
      o ← resume f;
      finish o;;
      mret (o, None)
  | ETick => irq_entry;; mret (Done 0, None)
  | EKill p => r ← sys_kill p; syscall_exit;; mret (Done r, None)
  end.

Definition sem_arg (sem : option Z) : Prop := match sem with Some i => 0 <= i < 2^32 | None => True end.
Definition name_arg (name : list Z) : Prop := 0 ∈ name ∧ Z.of_nat (length (cstr name)) < SEM_NAME_MAX.

(** Arguments that the types of the parameters and the calling conventions
    allow; the kernel does not check priorities and lengths of names. *)
Definition call_ok (c : call) : Prop :=
  match c with
  | CCreate priority => 0 <= priority < N_PRIO
  | CStatus p => 0 <= p < MAX_PROCESS_CONTEXTS
  | CSemOpen name _ _ => match name with Some name => name_arg name | None => True end
  | CSemClose sem | CSemDestroy sem | CSemGetvalue sem | CSemWait sem | CSemTimedwait sem _ | CSemTrywait sem | CSemPost sem => sem_arg sem
  | CMutexDestroy mutex | CMutexLock mutex | CMutexTrylock mutex | CMutexUnlock mutex => sem_arg mutex
  | _ => True
  end.

(** The context of the running process. *)
Definition cur_ctx (s : kst) : option frame := x ← arr_get (ptable s) (current_pid s); kctx x.

(** The processes that [sys_kill] handles. *)
Definition kill_ok (p : Z) (s : kst) : Prop :=
  match arr_get (ptable s) p with
  | Some x => is_allocated x = true -> p ≠ idle_task_pid ∧ p ≠ current_pid s ∧ p_state x ≠ PROC_NEW
  | None => False
  end.

(** A process in the middle of a call continues it; otherwise it may call the
    kernel (the idle task does not) or be interrupted. *)
Definition enabled (e : event) (s : kst) : Prop :=
  match e with
  | ECall c => cur_ctx s = None ∧ current_pid s ≠ idle_task_pid ∧ call_ok c
  | EResume => cur_ctx s ≠ None
  | ETick => cur_ctx s = None
  | EKill p => cur_ctx s = None ∧ current_pid s ≠ idle_task_pid ∧ kill_ok p s
  end.

Inductive steps : kst -> list event -> kst -> Prop :=
  | steps_nil s : steps s [] s
  | steps_cons s e r s1 es s2 : enabled e s -> kstep e s = Some (r, s1) -> steps s1 es s2 -> steps s (e :: es) s2.

(** Running a sequence of events. *)
#[export] Instance call_ok_dec c : Decision (call_ok c).
Proof. unfold call_ok, sem_arg, name_arg. destruct c as [| | | | | |[]| | |[]|[]|[]|[]|[]|[]| |[]|[]|[]|[]]; try destruct sem; apply _. Defined.
#[export] Instance kill_ok_dec p s : Decision (kill_ok p s).
Proof. unfold kill_ok. destruct (arr_get (ptable s) p); apply _. Defined.
#[export] Instance enabled_dec e s : Decision (enabled e s).
Proof. destruct e; apply _. Defined.

Fixpoint exec (es : list event) (s : kst) : option kst :=
  match es with
  | [] => Some s
  | e :: es => if decide (enabled e s) then match kstep e s with Some (_, s1) => exec es s1 | None => None end else None
  end.

Lemma exec_steps es : forall s s', exec es s = Some s' -> steps s es s'.
Proof.
  induction es as [|e es IH]; intros s s' E; simpl in E; [injection E as <-; constructor|]. case_decide; [|done].
  destruct (kstep e s) as [[r s1]|] eqn:Ek; [|done]. econstructor; eauto.
Qed.

(** ** Start (main.c) *)

(** Memory before the kernel starts. *)
Definition blank_pcb : pcb := MkPcb 0 None PROC_NEW 0 0 false None false 0 0.
Definition blank : kst :=
  MkKst (replicate (Z.to_nat MAX_PROCESS_CONTEXTS) blank_pcb) ∅ (-1) (-1) None false false
    (MkTmrs (replicate (Z.to_nat MAX_TMRS) (MkTmr 0 0)) (replicate (Z.to_nat MAX_TMRS) 0) (replicate (Z.to_nat MAX_TMRS) 0) false 0)
    0 false false
    (replicate (Z.to_nat MAX_SEM) (MkSem 0 0 0 false))
    (replicate (Z.to_nat MAX_SEM) (MkSemMap (replicate (Z.to_nat SEM_NAME_MAX) 0) 0))
    (replicate (Z.to_nat MAX_PTHREAD_MUTEX) (MkMutex false 0 0 0)).

(** The processes of the configuration (se_process_table), by priority. *)
Fixpoint se_process_init (ps : list Z) : ST kst Z :=
  match ps with
  | [] => mret 0
  | p :: ps =>
      r ← sys_elf_process_create p;
      match r with
      | Done r => if bool_decide (r < 0) then mret (-1) else se_process_init ps
      | Blocked => undef
      end
  end.

Definition xilkernel_init (ps : list Z) : ST kst unit :=
  for_up 0 MAX_PROCESS_CONTEXTS (λ i, upd_proc i (λ x, set_isrflag 0 (set_is_allocated false x)));;
  readyq_init;;
  pthread_mutex_heap_init;;
  sem_heap_init;;
  init_idle_task;;
  se_process_init ps;;
  tmr soft_tmr_init;;
  modify (set_kernel_ticks 0).
End kernel.
