(* ===== verification/Ksafe.v ===== *)
(** * Steps of the kernel keep its invariant

    What a system call does to the queues, the timers and the other processes,
    call by call; the theorems about all reachable states follow. *)

From stdpp Require Import gmap.
From S2P Require Import Prelude Kqueue Kheap Ktimer Ksched Ksem Kmutex Kinv Kops Kernel.
Open Scope Z_scope.

Section safe.
Context {KC : KConfig} {KOK : KConfigOk KC}.
Implicit Types (s : kst) (q : qid) (p : Z) (l : list Z) (Q : qmap) (T : list soft_tmr).

(** ** What a call may do *)

(** Processes only join the ready queues at the end. *)
Definition grows Q Q' : Prop := forall i, exists l, Q' (ReadyQ i) = Q (ReadyQ i) ++ l.

(** Sleeping processes and their timers are left alone. *)
Definition keeps_delay T s T' s' : Prop := forall p y tm, p ≠ current_pid s -> arr_get (ptable s) p = Some y ->
  p_state y = PROC_DELAY -> tm ∈ T -> tm_pid tm = p -> arr_get (ptable s') p = Some y ∧ tm ∈ T'.

(** The caller goes on. *)
Record done_post Q T s Q' T' s' : Prop := {
  dn_inv : kinv Q' T' s';
  dn_cur : current_pid s' = current_pid s;
  dn_self x : arr_get (ptable s) (current_pid s) = Some x ->
    exists x', arr_get (ptable s') (current_pid s) = Some x' ∧ kctx x' = kctx x ∧ p_priority x' = p_priority x;
  dn_grows : grows Q Q';
  dn_prio : sched_is_prio = true -> resched s' = false -> resched s = false ∧ forall i, Q' (ReadyQ i) = Q (ReadyQ i);
  dn_delay : keeps_delay T s T' s';
  dn_partial : sched_partial_tick s' = sched_partial_tick s;
}.

(** Another process runs. *)
Record block_post Q T s Q' T' s' : Prop := {
  bl_inv : kinv Q' T' s';
  bl_ne : current_pid s' ≠ current_pid s;
  bl_picks : exists Q1, grows Q Q1 ∧ picks Q1 (current_pid s') Q';
  bl_resched : resched s' = false;
  bl_top : top_at (ptable s') (current_pid s') Q';
  bl_delay : keeps_delay T s T' s';
}.

Definition call_post Q T s (o : outcome) s' : Prop :=
  exists Q' T', match o with Done _ => done_post Q T s Q' T' s' | Blocked => block_post Q T s Q' T' s' end.

Lemma grows_refl Q : grows Q Q.
Proof. intros i. exists []. by rewrite app_nil_r. Qed.
Lemma grows_trans Q1 Q2 Q3 : grows Q1 Q2 -> grows Q2 Q3 -> grows Q1 Q3.
Proof. intros H1 H2 i. destruct (H1 i) as [l1 E1], (H2 i) as [l2 E2]. exists (l1 ++ l2). by rewrite E2, E1, app_assoc. Qed.
Lemma grows_wait Q q l : is_wait q = true -> grows Q (qupd Q q l).
Proof. intros Hw i. exists []. rewrite app_nil_r, qupd_ne; [done|]. by intros <-. Qed.
Lemma grows_requeue Q p x : grows Q (requeue Q p x).
Proof.
  unfold requeue. case_bool_decide; [|apply grows_refl]. intros i. destruct (decide (ReadyQ i = ready_of x)) as [->|Hne].
  - rewrite qupd_eq. eauto.
  - rewrite qupd_ne by done. exists []. by rewrite app_nil_r.
Qed.

Lemma done_trans Q T s Q1 T1 s1 Q2 T2 s2 : done_post Q T s Q1 T1 s1 -> done_post Q1 T1 s1 Q2 T2 s2 -> done_post Q T s Q2 T2 s2.
Proof.
  intros [A1 A2 A3 A4 A5 A6 A7] [B1 B2 B3 B4 B5 B6 B7]. rewrite A2 in B2, B3. constructor; try done; try congruence.
  - intros x E. destruct (A3 x E) as (x1 & E1 & K1 & P1). destruct (B3 x1 E1) as (x2 & E2 & K2 & P2).
    exists x2. split_and!; congruence.
  - by eapply grows_trans.
  - intros Hp Hr. destruct (B5 Hp Hr) as [Hr1 HQ1]. destruct (A5 Hp Hr1) as [Hr0 HQ0]. split; [done|]. intros i. by rewrite HQ1.
  - intros p y tm Hp E Hs Hin Ht. destruct (A6 p y tm Hp E Hs Hin Ht) as [E1 Hin1]. apply (B6 p y tm); try done. by rewrite A2.
Qed.

Lemma done_block Q T s Q1 T1 s1 Q2 T2 s2 : done_post Q T s Q1 T1 s1 -> block_post Q1 T1 s1 Q2 T2 s2 -> block_post Q T s Q2 T2 s2.
Proof.
  intros [A1 A2 A3 A4 A5 A6 A7] [B1 B2 (Q3 & B3 & B4) B5 B7' B6]. rewrite A2 in B2. constructor; try done.
  - exists Q3. split; [by eapply grows_trans|done].
  - intros p y tm Hp E Hs Hin Ht. destruct (A6 p y tm Hp E Hs Hin Ht) as [E1 Hin1]. apply (B6 p y tm); try done. by rewrite A2.
Qed.

(** ** Elementary changes *)

(** Tables of objects, flags: nothing that the invariant is about. *)
Lemma done_objs Q T s s' :
  kinv Q T s -> ptable s' = ptable s -> kqs s' = kqs s -> current_pid s' = current_pid s -> ktm s' = ktm s ->
  sems_ok (sem_heap s') (sem_map s') ->
  length (mutex_heap s') = length (mutex_heap s) -> resched s' = true ∨ resched s' = resched s ->
  sched_partial_tick s' = sched_partial_tick s -> done_post Q T s Q T s'.
Proof.
  intros [[H1 H2 H3 H4 H5 H6 H7 H8 H9 H10] Hc Hn Hr] E1 E2 E3 E4 L1 L3 Hre Hpt. unfold prios in H2.
  constructor; try done.
  - constructor; rewrite ?E1, ?E3, ?E4; try done. constructor; unfold prios; rewrite ?E1, ?E2, ?E3, ?L3; done.
  - intros x E. rewrite E1. by exists x.
  - apply grows_refl.
  - intros _ Hr'. split; [destruct Hre; congruence|done].
  - intros p y tm _ E _ Hin _. rewrite E1. done.
Qed.

Lemma done_refl Q T s : kinv Q T s -> done_post Q T s Q T s.
Proof. intros H. apply done_objs; auto. apply (c_sems _ _ _ (i_core _ _ _ H)). Qed.

(** A field of the running process that the invariant does not mention. *)
Lemma done_self Q T s x x' :
  kinv Q T s -> arr_get (ptable s) (current_pid s) = Some x -> same_core x x' -> kctx x' = kctx x -> isrflag x' = isrflag x ->
  done_post Q T s Q T (put_proc (current_pid s) x' s).
Proof.
  intros [H (x0 & E0 & Hs & Hi) Hn Hr] E Hsame Hk Hisr. assert (x0 = x) as -> by congruence. destruct (Hsame) as (S1 & S2 & S3 & S4 & S5).
  constructor; try done.
  - constructor; try done; [apply (core_aux _ _ s _ x); auto|]. exists x'. split; [exact (put_proc_eq _ x' x s E)|]. split; congruence.
  - intros y Ey. exists x'. rewrite (put_proc_eq _ x' x s E). split_and!; congruence.
  - apply grows_refl.
  - intros p y tm Hp Ey Hy Hin _. rewrite (put_proc_ne _ p x' x s E Hp). done.
Qed.

Lemma kerrno_done Q T s e : kinv Q T s -> wp (kerrno e) s (λ _ s', done_post Q T s Q T s').
Proof.
  intros H. destruct (i_cur _ _ _ H) as (x & E & _). unfold kerrno. wp_pure. eapply wp_upd_proc; [exact E|]. by eapply done_self.
Qed.

(** Emptying a wait queue. *)
Lemma qinit_done Q T s q :
  kinv Q T s -> valid_q q -> is_wait q = true -> wp (on_q q qinit) s (λ _ s', done_post Q T s (qupd Q q []) T s').
Proof.
  intros [H Hc Hn Hr] Hv Hw. destruct (c_qs _ _ _ H q Hv) as (y & E & Hm & Hy).
  eapply (wp_on_q _ _ _ _ (λ _ y', qok (prios s) q [] y') _ E).
  { unfold qok. destruct (sched_is_prio && is_wait q) eqn:Ep.
    - pose proof (run_prio_spec (prios s) Qinit (Q q) y Hy I) as Hwp. apply wp_run in Hwp as (r & y' & Er & Hm' & _ & l' & Hs & Hq).
      inversion Hs; subst. unfold run_prio in Er. apply wp_run. unfold mbind, st_bind in Er. destruct (qinit y) as [[[] y1]|] eqn:Eq; [|done].
      injection Er as _ ->. exists tt, y'. split; [done|]. split; [congruence|done].
    - pose proof (run_op_spec Qinit (Q q) y Hy) as Hwp. apply wp_run in Hwp as (r & y' & Er & Hm' & _ & Hq).
      unfold run_op in Er. apply wp_run. unfold mbind, st_bind in Er. destruct (qinit y) as [[[] y1]|] eqn:Eq; [|done].
      injection Er as _ ->. exists tt, y'. split; [done|]. split; [congruence|done]. }
  intros [] y' Hy'. set (s' := set_kqs _ s). assert (kcore (qupd Q q []) T s') as H'.
  { destruct H as [H1 H2 H3 H4 H5 H6 H7 H8 H9 H10]. constructor; try done.
    - exact (qsok_insert (prios s) (kqs s) Q q [] y' H2 Hy').
    - apply qupd_nodup; [done|constructor].
    - intros q' p [[-> Hin]|[_ Hin]]%qupd_elem; [by apply elem_of_nil in Hin|by apply H5].
    - intros p x i Ex Hh. apply qupd_elem. right. split; [by intros <-|by eapply H6]. }
  constructor; try done.
  - intros x Ex. by exists x.
  - by apply grows_wait.
  - intros _ Hre. split; [exact Hre|]. intros i. rewrite qupd_ne; [done|]. by intros <-.
Qed.

Lemma unblock_done Q T s q :
  kinv Q T s -> valid_q q -> is_wait q = true -> Q q ≠ [] ->
  wp (process_unblock q) s (λ _ s', exists Q' T', done_post Q T s Q' T' s' ∧ unblocked Q T s q (sched_is_prio || resched s) s').
Proof.
  intros [H (x & E & Hs & Hi) Hn Hr] Hv Hw Hne. eapply wp_mono; [by apply (process_unblock_spec Q T s q)|].
  intros [] s' Hu. destruct (Hu) as (r & y & x' & l' & Hnw & Ey & (Hsame & K1 & K2 & K3) & Ept & H' & Hr' & Hd & Hc & Hre & Hpt).
  assert (r ∈ Q q) as Hin by (destruct Hnw as [Hl _]; rewrite Hl; by left). pose proof (core_in _ _ _ _ _ _ H Ey Hin) as Hh.
  assert (p_state y ≠ PROC_DELAY ∧ p_state y ≠ PROC_RUN) as [Hd1 Hd2] by (unfold home in Hh; destruct (is_allocated y), (p_state y); done).
  assert (r ≠ current_pid s) as Hrc by (intros ->; congruence). assert (forall p, p ≠ r -> arr_get (ptable s') p = arr_get (ptable s) p) as Eo.
  { intros p Hp. rewrite Ept. by apply (put_proc_ne r p x' y s). }
  eexists _, _. split; [|exact Hu]. constructor; try done.
  - constructor; try done; rewrite Hc.
    + exists x. by rewrite Eo.
    + intros (tm & [_ Hin']%list_elem_of_filter & Ht). apply Hn. by exists tm.
  - intros x0 E0. exists x0. by rewrite Eo.
  - eapply grows_trans; [by apply (grows_wait Q q l')|]. intros i. destruct (decide (ReadyQ i = ready_of y)) as [Ei|Hne'].
    + rewrite Ei, qupd_eq. rewrite qupd_ne by (by intros <-). eauto.
    + rewrite qupd_ne by done. exists []. by rewrite app_nil_r.
  - intros Hp. rewrite Hre, Hp. done.
  - intros p y0 tm Hp E0 Hs0 Hin0 Ht. assert (p ≠ r) by (intros ->; congruence). rewrite Eo by done. split; [done|].
    apply list_elem_of_filter. split; [congruence|done].
Qed.

(** ** Calls that block *)

(** [s1] is the state in which the caller gives up the processor. *)
Lemma block_intro Q T s Q1 T1 s1 x f n Q' s' :
  kinv Q T s -> (forall p, p ≠ current_pid s -> arr_get (ptable s1) p = arr_get (ptable s) p) -> kinv Q' T1 s' ->
  grows Q Q1 -> picks Q1 n Q' -> top_at (ptable s1) n Q' -> (forall tm, tm ∈ T -> tm ∈ T1) ->
  switched s1 (current_pid s) x f n s' -> block_post Q T s Q' T1 s'.
Proof.
  intros H E1 H' Hg Hp Htop HT [W1 W2 W3 W4 (y & W5 & W6 & W7) W8 W9]. constructor; try done.
  - by rewrite W1.
  - exists Q1. by rewrite W1.
  - rewrite W1. eapply top_at_same; [|exact Htop]. intros z Ez. exists y. split; [done|]. by simplify_eq.
  - intros p z tm Hpc Ez Hz Hin Ht. split; [|by apply HT]. rewrite W3, E1; [done|done|done|]. intros ->. rewrite E1 in W5 by done.
    rewrite W5 in Ez. destruct W7; congruence.
Qed.

Lemma block_call Q T s q i f :
  kinv Q T s -> current_pid s ≠ idle_task_pid -> valid_q q -> is_wait q = true -> frame_ok (current_pid s) f -> i = PROC_WAIT ->
  wp (process_block q i f) s (λ _ s', exists Q' T', block_post Q T s Q' T' s').
Proof.
  intros [H (x & E & Hs & Hi) Hn Hr] Hid Hv Hw Hf ->. eapply wp_mono; [by apply (process_block_spec Q T s x q PROC_WAIT f); auto|].
  intros [] s' (l' & n & Q' & Hl & _ & Hp & H' & Htop & Hsw). exists Q', T.
  eapply (block_intro Q T s (qupd Q q l') T s); try done; [|by apply grows_wait]. constructor; try done. by exists x.
Qed.

(** The timer of a call that waits for a limited time; without a free timer the
    process waits for good. *)
Lemma start_tmr Q T s ms :
  kinv Q T s -> wp (tmr (add_tmr (current_pid s) ms)) s (λ r s', exists t T', s' = set_ktm t s ∧ kcore Q T' s' ∧ trep T' t ∧
    ((r = -1 ∧ T' = T) ∨ (r = 0 ∧ T' = T ++ [MkTmr (ticks_of ms) (current_pid s)]))).
Proof.
  intros [H (x & E & Hs & Hi) Hn Hr]. apply wp_tmr. pose proof (arr_get_range _ _ _ E).
  eapply wp_mono; [apply (add_tmr_spec _ ms T); [done|lia]|].
  intros r t Ht. destruct (bool_decide _); destruct Ht as [-> Ht]; exists t; eexists; (split; [done|]).
  - split; [by apply (core_flags _ _ s)|]. subst t. split; [done|]. by left.
  - split; [|split; [done|by right]]. apply (core_flags _ _ s); try done. by eapply add_tmr_core.
Qed.

Lemma block_timed Q T s q f ms :
  kinv Q T s -> current_pid s ≠ idle_task_pid -> valid_q q -> is_wait q = true -> frame_ok (current_pid s) f ->
  wp (tmr (add_tmr (current_pid s) ms);; process_block q PROC_TIMED_WAIT f;; mret Blocked) s (λ o s', call_post Q T s o s').
Proof.
  intros Hk Hid Hv Hw Hf. apply wp_bind. eapply wp_mono; [by apply (start_tmr Q T)|]. intros r s1 (t & T' & -> & H1 & Ht & HT').
  destruct (Hk) as [H (x & E & Hs & Hi) Hn Hr]. apply wp_bind. eapply wp_mono; [by apply (process_block_spec Q T' (set_ktm t s) x q PROC_TIMED_WAIT f); auto|].
  intros [] s' (l' & n & Q' & Hl & _ & Hp & H' & Htop & Hsw). apply wp_ret. exists Q', T'.
  eapply (block_intro Q T s (qupd Q q l') T' (set_ktm t s)); try done; [by apply grows_wait|].
  destruct HT' as [[_ ->]|[_ ->]]; [done|]. intros tm Hin. apply elem_of_app. by left.
Qed.

Lemma sleep_call Q T s ms :
  kinv Q T s -> current_pid s ≠ idle_task_pid -> wp (sys_sleep ms) s (λ o s', exists Q' T', match o with
    | Done _ => done_post Q T s Q' T' s'
    | Blocked => block_post Q T s Q' T' s' ∧ MkTmr (ticks_of ms) (current_pid s) ∈ T' ∧
        exists y, arr_get (ptable s') (current_pid s) = Some y ∧ p_state y = PROC_DELAY
    end).
Proof.
  intros Hk Hid. unfold sys_sleep. wp_pure. apply wp_bind. eapply wp_mono; [by apply (start_tmr Q T)|].
  intros r s1 (t & T' & -> & H1 & Ht & [[-> ->]|[-> ->]]).
  - apply wp_ret. exists Q, T. destruct (Hk) as [H (x & E & Hs & Hi) Hn Hr]. constructor; try done; [|intros y Ey; by exists y|apply grows_refl].
    constructor; try done. by exists x.
  - set (T' := T ++ _) in *. set (s1 := set_ktm t s) in *. destruct (Hk) as [H (x & E & Hs & Hi) Hn Hr]. apply wp_bind. eapply wp_upd_proc; [exact E|].
    set (c := current_pid s) in *. set (s2 := put_proc c _ s1). assert (kcore Q T' s2) as H2.
    { apply (delay_core Q T' s1 x H1); try done. exists (MkTmr (ticks_of ms) c). split; [|done]. apply elem_of_app. right. by left. }
    assert (arr_get (ptable s2) c = Some (set_p_state PROC_DELAY x)) as E2 by (by apply (put_proc_eq c _ x s1)).
    apply wp_bind. eapply wp_mono; [apply (suspend_spec Q T' s2 _ FSleep H2 Ht E2); try done; by right|].
    intros [] s' (n & Q' & Hp & H' & Htop & Hsw). apply wp_ret. exists Q', T'. split_and!.
    + eapply (block_intro Q T s Q T' s2); try done; [|apply grows_refl|intros tm Hin; apply elem_of_app; by left].
      intros p Hpc. by apply (put_proc_ne c p _ x s1).
    + apply elem_of_app. right. by left.
    + eexists. split; [exact (w_self _ _ _ _ _ _ Hsw)|]. done.
Qed.

Lemma exit_call Q T s :
  kinv Q T s -> current_pid s ≠ idle_task_pid -> wp sys_elf_exit s (λ o s', call_post Q T s o s').
Proof.
  intros Hk Hid. destruct (Hk) as [H (x & E & Hs & Hi) Hn Hr]. unfold sys_elf_exit, process_invalidate. wp_pure.
  set (c := current_pid s) in *. eapply wp_upd_proc; [exact E|]. apply wp_ret. set (s2 := put_proc c _ s).
  pose proof (invalidate_core Q T s x H E Hs Hid Hn) as H2. fold c s2 in H2.
  assert (arr_get (ptable s2) c = Some (set_p_state PROC_DEAD (set_is_allocated false x))) as E2 by (by apply (put_proc_eq c _ x s)).
  apply wp_bind. eapply wp_mono; [apply (suspend_spec Q T s2 _ FExit H2 Hr E2); try done; by left|].
  intros [] s' (n & Q' & Hp & H' & Htop & Hsw). apply wp_ret. exists Q', T.
  eapply (block_intro Q T s Q T s2); try done; [|apply grows_refl]. intros p Hpc. by apply (put_proc_ne c p _ x s).
Qed.

(** ** Creation *)

Lemma create_done Q T s priority :
  kinv Q T s -> 0 <= priority < N_PRIO ->
  wp (sys_elf_process_create priority) s (λ o s', (exists r, o = Done r) ∧ exists Q' T', done_post Q T s Q' T' s').
Proof.
  intros Hk Hp. destruct (Hk) as [H (c & E & Hs & Hi) Hn Hr]. unfold sys_elf_process_create. apply wp_bind.
  eapply wp_mono; [by apply (proc_create_spec Q T s priority)|].
  intros r s' [(-> & -> & _)|(x & x' & Hr0 & Ex & Hal & Hal' & Hs' & Hpr & Hk' & H' & Ept & [Hd Ht] & Hc & Hre & Hpt)].
  - rewrite bool_decide_eq_true_2 by done. apply wp_ret. split; [eauto|]. exists Q, T. by apply done_refl.
  - rewrite bool_decide_eq_false_2 by lia. assert (arr_get (ptable s') r = Some x') as E1 by (rewrite Ept; by eapply put_proc_eq).
    assert (r ≠ current_pid s) as Hrc by (intros ->; pose proof (run_alloc _ _ (c_pcb _ _ _ H _ c E) Hs); congruence).
    assert (forall p, p ≠ r -> arr_get (ptable (put_proc r (set_isrflag 2 x') s')) p = arr_get (ptable s) p) as Eo.
    { intros p Hpr'. rewrite (put_proc_ne r p _ x' s' E1) by done. rewrite Ept. by apply (put_proc_ne r p _ x s). }
    apply wp_bind. eapply wp_upd_proc; [exact E1|]. apply wp_ret. split; [eauto|]. eexists _, T. constructor; try done.
    + constructor; [by apply (core_aux _ _ s' r x'); [..|left]| | |]; simpl; rewrite ?Hc, ?Ht; try done. exists c.
      split; [rewrite <- E; by apply Eo|done].
    + intros y Ey. exists y. by rewrite Eo.
    + intros i. destruct (decide (ReadyQ i = ready_of x')) as [->|Hne]; [rewrite qupd_eq; eauto|]. rewrite qupd_ne by done.
      exists []. by rewrite app_nil_r.
    + intros Hpr'. simpl. rewrite Hre, Hpr'. done.
    + intros p y tm Hpc Ey Hy Hin Htm. rewrite Eo; [done|]. intros ->.
      destruct (o_free _ _ (c_pcb _ _ _ H r x Ex) Hal); congruence.
Qed.

(** ** Composition

    [quiet] statements leave the caller running, with results as [R] says;
    [safe] ones may block it. The caller is [c]. *)

Definition quiet {A} c (R : A -> Prop) (m : ST kst A) : Prop := forall Q T s,
  kinv Q T s -> current_pid s = c -> wp m s (λ a s', R a ∧ exists Q' T', done_post Q T s Q' T' s').
Definition safe {A} c (out : A -> outcome) (m : ST kst A) : Prop := forall Q T s,
  kinv Q T s -> current_pid s = c -> wp m s (λ a s', call_post Q T s (out a) s').

Lemma quiet_bind {A B} c (R : A -> Prop) (R' : B -> Prop) (m : ST kst A) (k : A -> ST kst B) :
  quiet c R m -> (forall a, R a -> quiet c R' (k a)) -> quiet c R' (m ≫= k).
Proof.
  intros Hm Hk Q T s H Hc. apply wp_bind. eapply wp_mono; [by apply Hm|]. intros a s1 (Ha & Q1 & T1 & H1).
  eapply wp_mono; [apply (Hk a Ha Q1 T1); [apply H1|by rewrite (dn_cur _ _ _ _ _ _ H1)]|].
  intros b s2 (Hb & Q2 & T2 & H2). split; [done|]. exists Q2, T2. by eapply done_trans.
Qed.

Lemma safe_bind {A B} c (R : A -> Prop) (out : B -> outcome) (m : ST kst A) (k : A -> ST kst B) :
  quiet c R m -> (forall a, R a -> safe c out (k a)) -> safe c out (m ≫= k).
Proof.
  intros Hm Hk Q T s H Hc. apply wp_bind. eapply wp_mono; [by apply Hm|]. intros a s1 (Ha & Q1 & T1 & H1).
  eapply wp_mono; [apply (Hk a Ha Q1 T1); [apply H1|by rewrite (dn_cur _ _ _ _ _ _ H1)]|].
  intros b s2 (Q2 & T2 & H2). exists Q2, T2. destruct (out b); [by eapply done_trans|by eapply done_block].
Qed.

(** The result of a safe statement is passed on. *)
Lemma safe_map {A B} c (out : A -> outcome) (out' : B -> outcome) (m : ST kst A) (f : A -> B) :
  safe c out m -> (forall a, out' (f a) = out a) -> safe c out' (a ← m; mret (f a)).
Proof. intros Hm Hf Q T s H Hc. apply wp_bind. eapply wp_mono; [by apply Hm|]. intros a s' H'. apply wp_ret. by rewrite Hf. Qed.

Lemma quiet_safe {A} c (out : A -> outcome) (m : ST kst A) : quiet c (λ a, exists r, out a = Done r) m -> safe c out m.
Proof. intros Hm Q T s H Hc. eapply wp_mono; [by apply Hm|]. intros a s' ((r & E) & Q' & T' & H'). exists Q', T'. by rewrite E. Qed.

Lemma quiet_ret {A} c (R : A -> Prop) a : R a -> quiet c R (mret a).
Proof. intros Ha Q T s H Hc. apply wp_ret. split; [done|]. exists Q, T. by apply done_refl. Qed.

Lemma quiet_mono {A} c (R R' : A -> Prop) m : quiet c R m -> (forall a, R a -> R' a) -> quiet c R' m.
Proof. intros Hm HR Q T s H Hc. eapply wp_mono; [by apply Hm|]. intros a s' [Ha H']. auto. Qed.

(** Reading, and writing what the invariant does not mention. *)
Lemma quiet_gets {A} c (f : kst -> A) : quiet c (λ _, True) (gets f).
Proof. intros Q T s H Hc. apply wp_gets. split; [done|]. exists Q, T. by apply done_refl. Qed.
Lemma quiet_current c : quiet c (λ x, x = c) (gets current_pid).
Proof. intros Q T s H Hc. apply wp_gets. split; [done|]. exists Q, T. by apply done_refl. Qed.
Lemma quiet_kerrno c e : quiet c (λ _, True) (kerrno e).
Proof. intros Q T s H Hc. eapply wp_mono; [by apply (kerrno_done Q T)|]. intros [] s' H'. split; [done|]. by exists Q, T. Qed.

(** ** Semaphores *)

Lemma sem_range Q T s i : kinv Q T s -> 0 <= i < MAX_SEM -> 0 <= i < Z.of_nat (length (sem_heap s)) ∧ 0 <= i < Z.of_nat (length (sem_map s)).
Proof. intros [H _ _ _] Hi. destruct (c_sems _ _ _ H) as [-> -> _ _]. lia. Qed.

Lemma quiet_get_sem c i : 0 <= i < MAX_SEM -> quiet c (sem_ok i) (get_sem i).
Proof.
  intros Hi Q T s H Hc. destruct (sem_range Q T s i H Hi) as [Hr _]. destruct (arr_get_Some _ _ Hr) as [x E].
  unfold get_sem. wp_pure. eapply wp_lift; [exact E|]. split; [|exists Q, T; by apply done_refl].
  by apply (sm_sems _ _ (c_sems _ _ _ (i_core _ _ _ H))).
Qed.
Lemma quiet_upd_sem c i f : 0 <= i < MAX_SEM -> (forall x, sem_ok i x -> sem_ok i (f x)) -> quiet c (λ _, True) (upd_sem i f).
Proof.
  intros Hi Hf Q T s H Hc. destruct (sem_range Q T s i H Hi) as [Hr _]. destruct (arr_get_Some _ _ Hr) as [x E].
  unfold upd_sem, get_sem. wp_pure. eapply wp_lift; [exact E|]. wp_pure. apply wp_bind. eapply wp_lift; [by apply arr_set_in|].
  wp_pure. split; [done|]. exists Q, T. destruct (c_sems _ _ _ (i_core _ _ _ H)) as [L1 L2 Hs Hn]. apply done_objs; simpl; auto.
  constructor; try done; [by rewrite length_insert|]. intros j y Ey.
  apply arr_get_insert in Ey as [[-> ->]|[Hne Ey]]; [by apply Hf, Hs|by apply Hs|lia].
Qed.
Lemma quiet_put_map c i e : 0 <= i < MAX_SEM -> name_ok e -> quiet c (λ _, True) (put_map i e).
Proof.
  intros Hi He Q T s H Hc. destruct (sem_range Q T s i H Hi) as [_ Hr]. unfold put_map. wp_pure. apply wp_bind.
  eapply wp_lift; [by apply arr_set_in|]. wp_pure. split; [done|]. exists Q, T.
  destruct (c_sems _ _ _ (i_core _ _ _ H)) as [L1 L2 Hs Hn]. apply done_objs; simpl; auto.
  constructor; try done; [by rewrite length_insert|]. intros j y Ey.
  apply arr_get_insert in Ey as [[-> ->]|[Hne Ey]]; [done|by apply Hn in Ey|lia].
Qed.
Lemma quiet_count c q : valid_q q -> quiet c (λ _, True) (on_q q (gets item_count)).
Proof.
  intros Hv Q T s H Hc. eapply count_spec; [apply (c_qs _ _ _ (i_core _ _ _ H))|done|]. split; [done|]. exists Q, T. by apply done_refl.
Qed.
Lemma quiet_qinit c q : valid_q q -> is_wait q = true -> quiet c (λ _, True) (on_q q qinit).
Proof. intros Hv Hw Q T s H Hc. eapply wp_mono; [by apply (qinit_done Q T)|]. intros [] s' H'. split; [done|]. by exists (qupd Q q []), T. Qed.

Definition in_sem (o : option Z) : Prop := match o with Some i => 0 <= i < MAX_SEM | None => True end.

Lemma quiet_fail c e : quiet c (λ o, exists r, o = Done r) (fail e).
Proof. eapply quiet_bind; [apply quiet_kerrno|]. intros [] _. apply quiet_ret. eauto. Qed.

(** Waiting processes are there to be woken. *)
Lemma busy_spec Q T s i x (P : bool -> kst -> Prop) :
  kinv Q T s -> 0 <= i < MAX_SEM -> arr_get (sem_heap s) i = Some x ->
  P (bool_decide (sem_value x <= 0) && bool_decide (0 < Z.of_nat (length (Q (SemQ i))))) s -> wp (sem_busy i) s P.
Proof.
  intros H Hi E HP. unfold sem_busy, get_sem. wp_pure. eapply wp_lift; [exact E|]. apply wp_bind.
  eapply count_spec; [apply (c_qs _ _ _ (i_core _ _ _ H))|done|]. by apply wp_ret.
Qed.

Lemma quiet_busy c i : 0 <= i < MAX_SEM -> quiet c (λ _, True) (sem_busy i).
Proof.
  intros Hi Q T s H Hc. destruct (sem_range Q T s i H Hi) as [Hr _]. destruct (arr_get_Some _ _ Hr) as [x E].
  eapply busy_spec; [done..|]. split; [done|]. exists Q, T. by apply done_refl.
Qed.

Lemma s8_range z : -128 <= s8 z <= 127.
Proof. unfold s8. pose proof (Z.mod_pos_bound (z + 2^7) (2^8)). lia. Qed.
Lemma sem_ok_set i x z : sem_ok i x -> sem_ok i (set_sem_value (s8 z) x).
Proof. intros [Hi _]. split; [done|]. simpl. pose proof (s8_range z). lia. Qed.
Lemma sem_ok_free i x : sem_ok i (free_sem x).
Proof. split; simpl; [by left|lia]. Qed.
Lemma clear_name_ok i : name_ok (MkSemMap (replicate (Z.to_nat SEM_NAME_MAX) 0) i).
Proof. split; [done|]. by left. Qed.
Lemma quiet_clear c i : 0 <= i < MAX_SEM -> quiet c (λ _, True) (clear_map i).
Proof. intros Hi. apply quiet_put_map; [done|apply clear_name_ok]. Qed.

(** The semaphore [j] is in use and has that name. *)
Definition named s name j : Prop := exists e x,
  arr_get (sem_map s) j = Some e ∧ arr_get (sem_heap s) j = Some x ∧ cstr (sm_name e) = cstr name ∧ sem_id x ≠ -1.

Lemma name_loop_spec Q T s name n : kinv Q T s -> forall i, 0 <= i -> i + Z.of_nat n <= MAX_SEM ->
  wp (name_loop n i name) s (λ r s', s' = s ∧ match r with
    | Some j => i <= j < i + Z.of_nat n ∧ named s name j ∧ forall k, i <= k < j -> ~ named s name k
    | None => forall k, i <= k < i + Z.of_nat n -> ~ named s name k
    end).
Proof.
  intros H. induction n as [|n IH]; intros i Hi Hn; cbn [name_loop]; [apply wp_ret; split; [done|]; intros; lia|].
  destruct (sem_range Q T s i H ltac:(lia)) as [Hr1 Hr2]. destruct (arr_get_Some _ _ Hr1) as [x Ex], (arr_get_Some _ _ Hr2) as [e Ee].
  wp_pure. apply wp_bind. eapply wp_lift; [exact Ee|]. unfold get_sem. wp_pure. eapply wp_lift; [exact Ex|].
  assert (named s name i <-> name_eq (sm_name e) name && bool_decide (sem_id x ≠ -1) = true) as Hi0.
  { unfold named, name_eq. rewrite andb_true_iff, !bool_decide_eq_true. naive_solver. }
  destruct (_ && _) eqn:Eb.
  - apply wp_ret. split; [done|]. split; [lia|]. split; [by apply Hi0|]. lia.
  - assert (~ named s name i) as Hno by (rewrite Hi0; done). eapply wp_mono; [apply IH; lia|]. intros [j|] s' [-> Hj]; (split; [done|]).
    + destruct Hj as (Hj & Hnj & Hk). split; [lia|]. split; [done|]. intros k Hk'. destruct (decide (k = i)) as [->|]; [done|]. apply Hk. lia.
    + intros k Hk. destruct (decide (k = i)) as [->|]; [done|]. apply Hj. lia.
Qed.

Lemma by_name_spec Q T s name : kinv Q T s -> wp (get_semt_by_name name) s (λ r s', s' = s ∧ match r with
  | Some j => 0 <= j < MAX_SEM ∧ named s name j ∧ forall k, 0 <= k < j -> ~ named s name k
  | None => forall k, 0 <= k < MAX_SEM -> ~ named s name k
  end).
Proof.
  intros H. pose proof ok_sem. eapply wp_mono; [apply (name_loop_spec Q T s name); [done|lia..]|].
  rewrite Z2Nat.id by lia. by intros [j|] s'.
Qed.

Lemma semt_spec Q T s sem (P : option Z -> kst -> Prop) :
  kinv Q T s -> sem_arg sem ->
  (forall i x, sem = Some i -> 0 <= i < MAX_SEM -> arr_get (sem_heap s) i = Some x -> sem_id x ≠ -1 -> P (Some i) s) ->
  ((forall i x, sem = Some i -> arr_get (sem_heap s) i = Some x -> sem_id x = -1) -> P None s) -> wp (get_sem_by_semt sem) s P.
Proof.
  intros H Ha HS HN. destruct sem as [i|]; [|apply wp_ret; by apply HN]. simpl in *. case_bool_decide as Hi.
  - destruct (sem_range Q T s i H ltac:(lia)) as [Hr _]. destruct (arr_get_Some _ _ Hr) as [x E]. unfold get_sem. wp_pure.
    eapply wp_lift; [exact E|]. apply wp_ret. case_bool_decide as Hid; [apply (HS i x); [done|lia|done|done]|].
    apply HN. intros ? y [= <-] E'. assert (y = x) as -> by congruence. done.
  - apply wp_ret, HN. intros ? ? [= <-] E. apply arr_get_range in E. rewrite (sm_heap_len _ _ (c_sems _ _ _ (i_core _ _ _ H))) in E. lia.
Qed.

Lemma quiet_by_name c name : quiet c in_sem (get_semt_by_name name).
Proof.
  intros Q T s H Hc. eapply wp_mono; [by apply (by_name_spec Q T)|]. intros r s' [-> Hr]. split; [destruct r; [apply Hr|done]|].
  exists Q, T. by apply done_refl.
Qed.

Lemma quiet_new_sem c value owner : quiet c in_sem (new_sem value owner).
Proof.
  intros Q T s H Hc. unfold new_sem. wp_pure. destruct (list_find _ (sem_heap s)) as [[n x]|] eqn:Ef.
  2: { apply wp_ret. split; [done|]. exists Q, T. by apply done_refl. }
  apply list_find_Some in Ef as (E & _ & _). apply lookup_lt_Some in E. rewrite (sm_heap_len _ _ (c_sems _ _ _ (i_core _ _ _ H))) in E.
  cbn zeta. assert (0 <= Z.of_nat n < MAX_SEM) as Hn by lia. clear E. revert Q T s H Hc.
  eapply quiet_bind; [apply quiet_upd_sem; [done|]; intros y _; split; [by right|]; simpl; pose proof (s8_range value); lia|].
  intros [] _. eapply quiet_bind; [by apply quiet_qinit|]. intros [] _. by apply quiet_ret.
Qed.

Lemma quiet_sem_init c pshared value : quiet c (λ _, True) (sys_sem_init pshared value).
Proof.
  eapply quiet_bind; [apply quiet_gets|]. intros p _. eapply quiet_bind; [apply quiet_new_sem|].
  intros [i|] _; [by apply quiet_ret|]. eapply quiet_bind; [apply quiet_kerrno|]. intros [] _. by apply quiet_ret.
Qed.

Lemma quiet_error c {A} e (a : A) : quiet c (λ _, True) (kerrno e;; mret a).
Proof. eapply quiet_bind; [apply quiet_kerrno|]. intros [] _. by apply quiet_ret. Qed.

Lemma quiet_sem_open c name oflag value :
  match name with Some name => name_arg name | None => True end -> quiet c (λ _, True) (sys_sem_open name oflag value).
Proof.
  intros Hn. unfold sys_sem_open. destruct name as [name|]; [|apply quiet_error]. destruct Hn as [H0 Hlen].
  case_bool_decide; [apply quiet_error|]. eapply quiet_bind; [apply quiet_by_name|].
  intros [i|] _; [destruct (bool_decide _); [apply quiet_error|by apply quiet_ret]|].
  eapply quiet_bind; [apply quiet_new_sem|]. intros [i|] Hi; [|apply quiet_error]. simpl in Hi. intros Q T s Hk Hc.
  destruct (sem_range Q T s i Hk Hi) as [_ Hr]. destruct (arr_get_Some _ _ Hr) as [e E]. wp_pure. apply wp_bind. eapply wp_lift; [exact E|].
  pose proof (sm_names _ _ (c_sems _ _ _ (i_core _ _ _ Hk)) i e E) as [Hel He0].
  destruct (c_strcpy_spec (sm_name e) name H0) as (d & Ed & Hd & Hd0 & _); [unfold SEM_NAME_MAX in *; lia|].
  apply wp_bind. eapply wp_lift; [exact Ed|]. revert Q T s Hk Hc Hr E. intros Q T s Hk Hc _ _. revert Q T s Hk Hc.
  eapply quiet_bind; [apply quiet_put_map; [done|split; [simpl; lia|done]]|]. intros [] _. by apply quiet_ret.
Qed.

(** An identifier that is in use is an index. *)
Lemma quiet_close_sem c i x : 0 <= i < MAX_SEM -> sem_ok i x -> sem_id x ≠ -1 -> 
  quiet c (λ o, exists r, o = Done r) (clear_map (sem_id x);; upd_sem i free_sem;; mret (Done 0)).
Proof.
  intros Hi [Hid _] Hne. destruct Hid as [?|Hid]; [done|]; rewrite Hid. eapply quiet_bind; [by apply quiet_clear|]. intros [] _.
  eapply quiet_bind; [apply quiet_upd_sem; auto using sem_ok_free|]. intros [] _. apply quiet_ret. eauto.
Qed.

Abbreviation is_done := (λ o : outcome, exists r, o = Done r).

Lemma sem_at Q T s i x : kinv Q T s -> arr_get (sem_heap s) i = Some x -> sem_ok i x.
Proof. intros H. apply (sm_sems _ _ (c_sems _ _ _ (i_core _ _ _ H))). Qed.
Lemma wp_get_sem s i x (P : sem_info -> kst -> Prop) : arr_get (sem_heap s) i = Some x -> P x s -> wp (get_sem i) s P.
Proof. intros E HP. unfold get_sem. wp_pure. by eapply wp_lift. Qed.

Lemma quiet_free c i : 0 <= i < MAX_SEM -> quiet c is_done (upd_sem i free_sem;; mret (Done 0)).
Proof. intros Hi. eapply quiet_bind; [apply quiet_upd_sem; auto using sem_ok_free|]. intros [] _. apply quiet_ret. eauto. Qed.

Lemma quiet_sem_close c sem : sem_arg sem -> quiet c is_done (sys_sem_close sem).
Proof.
  intros Ha Q T s H Hc. unfold sys_sem_close. apply wp_bind. eapply semt_spec; [done|done| |intros _; by apply (quiet_fail c _ Q T)].
  intros i x _ Hi E Hid. apply wp_bind. eapply busy_spec; [done..|]. destruct (_ && _); [by apply (quiet_fail c _ Q T)|].
  apply wp_bind. eapply wp_get_sem; [done|]. apply (quiet_close_sem c i x); try done. by eapply sem_at.
Qed.

Lemma quiet_sem_unlink c name : quiet c is_done (sys_sem_unlink name).
Proof.
  intros Q T s H Hc. unfold sys_sem_unlink. apply wp_bind. eapply wp_mono; [by apply (by_name_spec Q T)|].
  intros [i|] s' [-> Hr]; [|by apply (quiet_fail c _ Q T)]. destruct Hr as (Hi & (e & x & _ & E & _ & Hid) & _).
  apply wp_bind. eapply wp_get_sem; [done|]. case_bool_decide; [|apply (quiet_close_sem c i x); try done; by eapply sem_at].
  revert Q T s H Hc E. intros Q T s H Hc _. revert Q T s H Hc. eapply quiet_bind; [by apply quiet_upd_sem|]. intros [] _. apply quiet_ret. eauto.
Qed.

Lemma quiet_sem_destroy c sem : sem_arg sem -> quiet c is_done (sys_sem_destroy sem).
Proof.
  intros Ha Q T s H Hc. unfold sys_sem_destroy. apply wp_bind. eapply semt_spec; [done|done| |intros _; by apply (quiet_fail c _ Q T)].
  intros i x _ Hi E Hid. apply wp_bind. eapply busy_spec; [done..|]. destruct (_ && _); [by apply (quiet_fail c _ Q T)|]. by apply (quiet_free c i Hi Q T).
Qed.

Lemma quiet_semt c sem : sem_arg sem -> quiet c in_sem (get_sem_by_semt sem).
Proof.
  intros Ha Q T s H Hc. eapply semt_spec; [done..| |]; intros; (split; [done|]); exists Q, T; by apply done_refl.
Qed.

Lemma quiet_acquired c i : 0 <= i < MAX_SEM -> quiet c is_done (sem_acquired i).
Proof.
  intros Hi. eapply quiet_bind; [by apply quiet_get_sem|]. intros x _. case_bool_decide; [apply quiet_fail|apply quiet_ret; eauto].
Qed.

(** Taking a token: the value after it decides. *)
Lemma quiet_take c i (d : Z) : 0 <= i < MAX_SEM -> quiet c (λ _, True) (upd_sem i (λ x, set_sem_value (s8 (sem_value x + d)) x)).
Proof. intros Hi. apply quiet_upd_sem; [done|]. intros x Hx. by apply sem_ok_set. Qed.

Lemma safe_sem_wait c sem : sem_arg sem -> c ≠ idle_task_pid -> safe c id (sys_sem_wait_x sem).
Proof.
  intros Ha Hid. eapply safe_bind; [by apply quiet_semt|]. intros [i|] Hi; [|by apply quiet_safe, quiet_fail]. simpl in Hi.
  eapply safe_bind; [by apply (quiet_take c i (-1))|]. intros [] _. eapply safe_bind; [by apply quiet_get_sem|]. intros x _.
  case_bool_decide as Hv; [|by apply quiet_safe, quiet_acquired]. clear Hv.
  intros Q T s H Hc. apply wp_bind. subst c. eapply wp_mono; [by apply (block_call Q T s (SemQ i))|]. intros [] s' H'. apply wp_ret. exact H'.
Qed.

Lemma safe_sem_timedwait c sem ms : sem_arg sem -> c ≠ idle_task_pid -> safe c id (sys_sem_timedwait sem ms).
Proof.
  intros Ha Hid. eapply safe_bind; [by apply quiet_semt|]. intros [i|] Hi; [|by apply quiet_safe, quiet_fail]. simpl in Hi.
  eapply safe_bind; [by apply (quiet_take c i (-1))|]. intros [] _. eapply safe_bind; [by apply quiet_get_sem|]. intros x _.
  case_bool_decide as Hv; [|by apply quiet_safe, quiet_acquired]. clear Hv.
  intros Q T s H Hc. destruct (i_cur _ _ _ H) as (y & E & Hs & _). wp_pure. apply wp_bind. eapply wp_get_proc; [done|].
  destruct (o_alloc _ _ (c_pcb _ _ _ (i_core _ _ _ H) _ y E)) as [-> _]; [by eapply run_alloc; [apply (c_pcb _ _ _ (i_core _ _ _ H))|]|].
  rewrite Hc. rewrite <- Hc in *. by apply (block_timed Q T s (SemQ i)).
Qed.

Lemma quiet_timed_resume c i : 0 <= i < MAX_SEM -> quiet c is_done (sem_timed_resume i c).
Proof.
  intros Hi Q T s H Hc. destruct (i_cur _ _ _ H) as (x & E & Hs & _). rewrite Hc in E. unfold sem_timed_resume.
  apply wp_bind. eapply wp_get_proc; [done|]. destruct (p_timeout x).
  - clear E Hs x. revert Q T s H Hc. eapply quiet_bind; [by apply (quiet_take c i 1)|]. intros [] _. eapply (quiet_bind c (λ _, True)); [|intros [] _; apply quiet_fail].
    intros Q T s H Hc. destruct (i_cur _ _ _ H) as (x & E & Hs & _). eapply wp_upd_proc; [by rewrite <- Hc|]. split; [done|].
    exists Q, T. rewrite <- Hc. by eapply done_self.
  - assert (p_pid x = c) as ->.
    { pose proof (c_pcb _ _ _ (i_core _ _ _ H) c x E) as Hok. by destruct (o_alloc _ _ Hok (run_alloc _ _ Hok Hs)). }
    assert (0 <= c) as Hc0 by (apply arr_get_range in E; lia). clear E Hs x. revert Q T s H Hc. eapply (quiet_bind c (λ _, True)); [|intros r _; by apply quiet_acquired].
    intros Q T s H Hc. apply wp_tmr. eapply wp_mono; [apply (remove_tmr_spec c T); [apply (i_rep _ _ _ H)|lia]|]. intros r t [Ht _].
    split; [done|]. exists Q, T. rewrite no_tmr_filter in Ht by (rewrite <- Hc; apply (i_notmr _ _ _ H)).
    destruct (H) as [H1 (x & E & Hx) H3 H4]. constructor; try done; [|intros y Ey; by exists y|apply grows_refl].
    constructor; try done; [|by exists x]. by apply (core_flags _ _ s).
Qed.

Lemma quiet_sem_trywait c sem : sem_arg sem -> quiet c is_done (sys_sem_trywait sem).
Proof.
  intros Ha. eapply quiet_bind; [by apply quiet_semt|]. intros [i|] Hi; [|by apply quiet_fail].
  eapply quiet_bind; [by apply quiet_get_sem|]. intros x _. case_bool_decide; [|by apply quiet_fail].
  eapply quiet_bind; [by apply (quiet_take c i (-1))|]. intros [] _. apply quiet_ret. eauto.
Qed.

Lemma quiet_sem_getvalue c sem : sem_arg sem -> quiet c (λ r, is_done r.1) (sys_sem_getvalue sem).
Proof.
  intros Ha. eapply quiet_bind; [by apply quiet_semt|]. intros [i|] Hi.
  - eapply quiet_bind; [by apply quiet_get_sem|]. intros x _. apply quiet_ret. simpl. eauto.
  - eapply quiet_bind; [apply quiet_fail|]. intros r Hr. by apply quiet_ret.
Qed.

Lemma wp_quiet_bind {A B} Q T s c (R : B -> Prop) (m : ST kst A) (k : A -> ST kst B) :
  current_pid s = c -> wp m s (λ _ s', exists Q' T', done_post Q T s Q' T' s') -> (forall a, quiet c R (k a)) ->
  wp (m ≫= k) s (λ b s', R b ∧ exists Q' T', done_post Q T s Q' T' s').
Proof.
  intros Hc Hm Hk. apply wp_bind. eapply wp_mono; [exact Hm|]. intros a s1 (Q1 & T1 & H1).
  eapply wp_mono; [apply (Hk a Q1 T1); [apply H1|by rewrite (dn_cur _ _ _ _ _ _ H1)]|].
  intros b s2 (Hb & Q2 & T2 & H2). split; [done|]. exists Q2, T2. by eapply done_trans.
Qed.

(** The process that waits is woken, or an unlinked semaphore goes away. *)
Lemma quiet_sem_post c sem : sem_arg sem -> quiet c is_done (sys_sem_post sem).
Proof.
  intros Ha. eapply quiet_bind; [by apply quiet_semt|]. intros [i|] Hi; [|by apply quiet_fail]. simpl in Hi.
  eapply quiet_bind; [by apply (quiet_take c i 1)|]. intros [] _. intros Q T s H Hc. destruct (sem_range Q T s i H Hi) as [Hr _].
  destruct (arr_get_Some _ _ Hr) as [x E]. apply wp_bind. eapply busy_spec; [done..|].
  apply (wp_quiet_bind Q T s c); [done| |intros []; apply quiet_ret; eauto]. destruct (_ && _) eqn:Eb.
  - apply andb_true_iff in Eb as [_ Hn]. apply bool_decide_eq_true in Hn.
    eapply wp_mono; [apply (unblock_done Q T s (SemQ i)); try done; intros Hq; by rewrite Hq in Hn|]. intros [] s' (Q' & T' & H' & _). by exists Q', T'.
  - clear Eb. apply wp_bind. eapply wp_get_sem; [done|]. destruct (bool_decide (0 < sem_value x) && sem_unlink x).
    + eapply (wp_mono _ _ (λ _ s', True ∧ exists Q' T', done_post Q T s Q' T' s')); [|intros ? ? [_ ?]; done].
      apply (wp_quiet_bind Q T s c (λ _, True)); [done| |intros o; by apply quiet_ret].
      eapply wp_mono; [by apply (quiet_sem_destroy c sem Ha Q T)|]. intros o s' [_ H']. exact H'.
    + apply wp_ret. exists Q, T. by apply done_refl.
Qed.

(** ** Mutexes *)

Lemma mx_range Q T s i : kinv Q T s -> 0 <= i < MAX_PTHREAD_MUTEX -> 0 <= i < Z.of_nat (length (mutex_heap s)).
Proof. intros [H _ _ _] Hi. rewrite (c_mutexes _ _ _ H). lia. Qed.
Lemma wp_get_mx s i x (P : mutexinfo -> kst -> Prop) : arr_get (mutex_heap s) i = Some x -> P x s -> wp (get_mx i) s P.
Proof. intros E HP. unfold get_mx. wp_pure. by eapply wp_lift. Qed.

Lemma quiet_get_mx c i : 0 <= i < MAX_PTHREAD_MUTEX -> quiet c (λ _, True) (get_mx i).
Proof.
  intros Hi Q T s H Hc. destruct (arr_get_Some _ _ (mx_range Q T s i H Hi)) as [x E]. eapply wp_get_mx; [exact E|].
  split; [done|]. exists Q, T. by apply done_refl.
Qed.
Lemma quiet_upd_mx c i f : 0 <= i < MAX_PTHREAD_MUTEX -> quiet c (λ _, True) (upd_mx i f).
Proof.
  intros Hi Q T s H Hc. pose proof (mx_range Q T s i H Hi) as Hr. destruct (arr_get_Some _ _ Hr) as [x E].
  unfold upd_mx, get_mx. wp_pure. eapply wp_lift; [exact E|]. wp_pure. apply wp_bind. eapply wp_lift; [by apply arr_set_in|].
  wp_pure. split; [done|]. exists Q, T. apply done_objs; simpl; auto; [apply (c_sems _ _ _ (i_core _ _ _ H))|]. by rewrite length_insert.
Qed.

Lemma quiet_mutex_init c mutex type :
  quiet c (λ r, match r with (0, Some i) => 0 <= i < MAX_PTHREAD_MUTEX | (_, m) => m = mutex end) (sys_pthread_mutex_init mutex type).
Proof.
  unfold sys_pthread_mutex_init. destruct mutex as [m|]; [|by apply quiet_ret]. cbn zeta. set (ty := default _ type). destruct (bool_decide _).
  { eapply quiet_bind; [apply quiet_kerrno|]. intros [] _. by apply quiet_ret. }
  intros Q T s H Hc. wp_pure. destruct (list_find _ (mutex_heap s)) as [[n x]|] eqn:Ef.
  2: { apply wp_ret. split; [done|]. exists Q, T. by apply done_refl. }
  apply list_find_Some in Ef as (E & _ & _). apply lookup_lt_Some in E. rewrite (c_mutexes _ _ _ (i_core _ _ _ H)) in E.
  assert (0 <= Z.of_nat n < MAX_PTHREAD_MUTEX) as Hn by lia. clear E. revert Q T s H Hc.
  eapply quiet_bind; [by apply quiet_upd_mx|]. intros [] _. eapply quiet_bind; [by apply quiet_qinit|]. intros [] _. by apply quiet_ret.
Qed.

Lemma quiet_mutex_destroy c mutex : sem_arg mutex -> quiet c (λ _, True) (sys_pthread_mutex_destroy mutex).
Proof.
  intros Ha. unfold sys_pthread_mutex_destroy. destruct mutex as [i|]; [|by apply quiet_ret]. simpl in Ha.
  case_bool_decide; [by apply quiet_ret|]. case_bool_decide; [by apply quiet_ret|].
  eapply quiet_bind; [apply quiet_get_mx; lia|]. intros x _. destruct (negb _); [by apply quiet_ret|]. case_bool_decide; [by apply quiet_ret|].
  eapply quiet_bind; [apply quiet_upd_mx; lia|]. intros [] _. by apply quiet_ret.
Qed.

Definition in_mutex (r : Z + Z) : Prop := match r with inr i => 0 <= i < MAX_PTHREAD_MUTEX | inl _ => True end.

Lemma quiet_mutex_index c mutex : sem_arg mutex -> quiet c in_mutex (mutex_index mutex).
Proof.
  intros Ha. unfold mutex_index. destruct mutex as [i|]; [|by apply quiet_ret]. simpl in Ha. case_bool_decide as Hi; [by apply quiet_ret|].
  eapply (quiet_bind c (λ r : Z * option Z, match r with (0, Some i) => 0 <= i < MAX_PTHREAD_MUTEX | _ => True end)).
  - destruct (decide (i = PTHREAD_MUTEX_INITIALIZER)) as [Hd|Hd].
    + rewrite bool_decide_eq_true_2 by done. eapply quiet_mono; [apply quiet_mutex_init|]. by intros [[] []].
    + rewrite bool_decide_eq_false_2 by done. apply quiet_ret. lia.
  - intros [r m] Hr. destruct r; try (by apply quiet_ret). destruct m as [j|]; [|by apply quiet_ret].
    eapply quiet_bind; [by apply quiet_get_mx|]. intros x _. apply quiet_ret. by destruct (mx_allocated x).
Qed.

Lemma quiet_mutex_take c i : 0 <= i < MAX_PTHREAD_MUTEX -> quiet c is_done (mutex_take i).
Proof.
  intros Hi. eapply quiet_bind; [apply quiet_current|]. intros p _. eapply quiet_bind; [by apply quiet_upd_mx|]. intros [] _. apply quiet_ret. eauto.
Qed.

Lemma safe_mutex_loop c i trylock : 0 <= i < MAX_PTHREAD_MUTEX -> c ≠ idle_task_pid -> safe c id (mutex_lock_loop i trylock).
Proof.
  intros Hi Hid. eapply safe_bind; [by apply quiet_get_mx|]. intros x _. eapply safe_bind; [apply quiet_current|]. intros p ->.
  destruct (_ && _); [|by apply quiet_safe, quiet_mutex_take]. destruct trylock; [apply quiet_safe, quiet_ret; eauto|].
  intros Q T s H Hc. apply wp_bind. subst c. eapply wp_mono; [by apply (block_call Q T s (MutexQ i))|]. intros [] s' H'. apply wp_ret. exact H'.
Qed.

Lemma safe_mutex_lock c mutex trylock : sem_arg mutex -> c ≠ idle_task_pid -> safe c fst (pthread_mutex_lock_basic mutex trylock).
Proof.
  intros Ha Hid. eapply safe_bind; [by apply quiet_mutex_index|]. intros [e|i] Hi; [apply quiet_safe, quiet_ret; simpl; eauto|].
  eapply safe_map; [by apply safe_mutex_loop|]. done.
Qed.

Lemma quiet_mutex_release c i : 0 <= i < MAX_PTHREAD_MUTEX -> quiet c (λ _, True) (mutex_release i).
Proof.
  intros Hi. eapply quiet_bind; [by apply quiet_get_mx|]. intros x _. eapply quiet_bind; [apply quiet_current|]. intros p _.
  destruct (_ && _); [by apply quiet_ret|]. eapply quiet_bind; [by apply quiet_upd_mx|]. intros [] _.
  eapply quiet_bind; [by apply quiet_get_mx|]. intros y _. case_bool_decide; [|by apply quiet_ret].
  eapply quiet_bind; [by apply quiet_upd_mx|]. intros [] _. intros Q T s Hk Hc. apply wp_bind.
  eapply count_spec; [apply (c_qs _ _ _ (i_core _ _ _ Hk))|done|].
  apply (wp_quiet_bind Q T s c (λ _, True)); [done| |intros []; by apply quiet_ret]. case_bool_decide as Hn.
  - eapply wp_mono; [apply (unblock_done Q T s (MutexQ i)); try done; intros Hq; by rewrite Hq in Hn|]. intros [] s' (Q' & T' & H' & _). by exists Q', T'.
  - apply wp_ret. exists Q, T. by apply done_refl.
Qed.

Lemma quiet_mutex_unlock c mutex : sem_arg mutex -> quiet c (λ _, True) (sys_pthread_mutex_unlock mutex).
Proof.
  intros Ha. eapply quiet_bind; [by apply quiet_mutex_index|]. intros [e|i] Hi; [by apply quiet_ret|].
  eapply quiet_bind; [by apply quiet_mutex_release|]. intros r _. by apply quiet_ret.
Qed.

(** ** All calls *)

Lemma run_call_safe c call : call_ok call -> c ≠ idle_task_pid -> safe c fst (run_call call).
Proof.
  intros Hok Hid. destruct call; simpl in Hok; cbn [run_call].
  - eapply (safe_map c id); [|done]. intros Q T s H Hc. unfold sys_yield. wp_pure. exists Q, T.
    apply done_objs; auto. apply (c_sems _ _ _ (i_core _ _ _ H)).
  - eapply (safe_map c id); [|done]. intros Q T s H Hc. subst c. eapply wp_mono; [by apply (sleep_call Q T)|].
    intros o s' (Q' & T' & H'). exists Q', T'. destruct o; [done|]. by destruct H'.
  - eapply (safe_map c id); [|done]. apply quiet_safe. intros Q T s H Hc. by apply (create_done Q T).
  - eapply (safe_map c id); [|done]. intros Q T s H Hc. subst c. by apply (exit_call Q T).
  - apply quiet_safe. intros Q T s H Hc. unfold sys_process_status. wp_pure.
    destruct (arr_get_Some (ptable s) p) as [x E]; [rewrite (c_len _ _ _ (i_core _ _ _ H)); lia|].
    eapply wp_get_proc; [exact E|]. wp_pure. split; [simpl; eauto|]. exists Q, T. by apply done_refl.
  - apply quiet_safe. eapply quiet_bind; [apply quiet_sem_init|]. intros r _. apply quiet_ret. simpl. eauto.
  - apply quiet_safe. eapply quiet_bind; [by apply quiet_sem_open|]. intros r _. apply quiet_ret. simpl. eauto.
  - eapply (safe_map c id); [|done]. by apply quiet_safe, quiet_sem_close.
  - eapply (safe_map c id); [|done]. by apply quiet_safe, quiet_sem_unlink.
  - eapply (safe_map c id); [|done]. by apply quiet_safe, quiet_sem_destroy.
  - by apply quiet_safe, quiet_sem_getvalue.
  - eapply (safe_map c id); [|done]. by apply safe_sem_wait.
  - eapply (safe_map c id); [|done]. by apply safe_sem_timedwait.
  - eapply (safe_map c id); [|done]. by apply quiet_safe, quiet_sem_trywait.
  - eapply (safe_map c id); [|done]. by apply quiet_safe, quiet_sem_post.
  - apply quiet_safe. eapply quiet_bind; [apply quiet_mutex_init|]. intros r _. apply quiet_ret. simpl. eauto.
  - apply quiet_safe. eapply quiet_bind; [by apply quiet_mutex_destroy|]. intros r _. apply quiet_ret. simpl. eauto.
  - by apply safe_mutex_lock.
  - by apply safe_mutex_lock.
  - apply quiet_safe. eapply quiet_bind; [by apply quiet_mutex_unlock|]. intros r _. apply quiet_ret. simpl. eauto.
Qed.

Lemma resume_safe c f : frame_ok c f -> c ≠ idle_task_pid -> safe c id (resume f).
Proof.
  intros Hf Hid. destruct f; simpl in Hf; cbn [resume].
  - apply quiet_safe, quiet_ret. eauto.
  - by apply quiet_safe, quiet_acquired.
  - destruct Hf as [Hi ->]. by apply quiet_safe, quiet_timed_resume.
  - by apply safe_mutex_loop.
  - done.
  - done.
Qed.
End safe.
