(* ===== verification/Kinit.v ===== *)
(** * The start of the kernel

    After [xilkernel_init] the invariant holds: the idle task runs, and the
    processes of the configuration are in the ready queues. *)

From stdpp Require Import gmap.
From S2P Require Import Prelude Kqueue Kheap Ktimer Ksched Ksem Kmutex Kinv Kops Kernel Ksafe.
Open Scope Z_scope.

Section init.
Context {KC : KConfig} {KOK : KConfigOk KC}.
Implicit Types (s : kst) (q : qid) (p : Z) (Q : qmap) (T : list soft_tmr).

(** During the initialisation: the queues of [V] are set up, and the first [k]
    semaphores. *)
Record raw (V : qid -> Prop) (k : Z) s : Prop := {
  w_pt : ptable s = replicate (Z.to_nat MAX_PROCESS_CONTEXTS) blank_pcb;
  w_tm : ktm s = ktm blank;
  w_qs q : V q -> kqs s !! q = Some (alloc_pid_q (q_cap q));
  w_heap : length (sem_heap s) = Z.to_nat MAX_SEM;
  w_map : length (sem_map s) = Z.to_nat MAX_SEM;
  w_sems i x : arr_get (sem_heap s) i = Some x -> -128 <= sem_value x <= 127 ∧ (i < k -> sem_id x = -1);
  w_names i e : arr_get (sem_map s) i = Some e -> name_ok e;
  w_mx : length (mutex_heap s) = Z.to_nat MAX_PTHREAD_MUTEX;
}.

Lemma raw_blank : raw (λ _, False) 0 blank.
Proof.
  constructor; simpl; rewrite ?length_replicate; try done.
  - intros i x E. pose proof (arr_get_range _ _ _ E) as Hr. rewrite arr_get_lookup in E by lia. apply lookup_replicate in E as [-> _]. simpl. lia.
  - intros i e E. pose proof (arr_get_range _ _ _ E) as Hr. rewrite arr_get_lookup in E by lia. apply lookup_replicate in E as [-> _]. apply clear_name_ok.
Qed.

Lemma raw_queue V k s q : raw V k s -> raw (λ q', V q' ∨ q' = q) k (set_kqs (<[q := alloc_pid_q (q_cap q)]> (kqs s)) s).
Proof.
  intros []. constructor; try done. simpl. intros q' Hq'. destruct (decide (q' = q)) as [->|Hne]; [by rewrite lookup_insert_eq|].
  rewrite lookup_insert_ne by done. destruct Hq'; auto. done.
Qed.
Lemma raw_mono V V' k k' s : raw V k s -> (forall q, V' q -> V q) -> k' <= k -> raw V' k' s.
Proof. intros [] HV Hk. constructor; auto. intros i x E. destruct (w_sems0 i x E). split; [done|]. intros. apply H0. lia. Qed.

Lemma readyq_raw V k s : raw V k s -> wp readyq_init s (λ _ s', raw (λ q, V q ∨ exists i, q = ReadyQ i ∧ 0 <= i < N_PRIO) k s').
Proof.
  intros H. pose proof ok_prio. unfold readyq_init. apply (wp_for_up _ _ _ (λ j s', raw (λ q, V q ∨ exists i, q = ReadyQ i ∧ 0 <= i < j) k s')); [lia| | |done].
  - eapply raw_mono; [exact H| |done]. intros q [|(i & _ & ?)]; [done|lia].
  - intros j s1 Hj H1. wp_pure. eapply raw_mono; [exact (raw_queue _ _ _ (ReadyQ j) H1)| |done].
    intros q [|(i & -> & Hi)]; [auto|]. destruct (decide (i = j)) as [->|]; [auto|]. left. right. exists i. split; [done|lia].
Qed.

Lemma raw_mutex V k s i x f : raw V k s -> arr_get (mutex_heap s) i = Some x -> raw V k (set_mutex_heap (<[Z.to_nat i := f]> (mutex_heap s)) s).
Proof. intros [] E. constructor; try done. simpl. by rewrite length_insert. Qed.

Lemma mutex_raw V k s : raw V k s -> wp pthread_mutex_heap_init s (λ _ s', raw (λ q, V q ∨ exists i, q = MutexQ i ∧ 0 <= i < MAX_PTHREAD_MUTEX) k s').
Proof.
  intros H. pose proof ok_mutex. unfold pthread_mutex_heap_init.
  apply (wp_for_up _ _ _ (λ j s', raw (λ q, V q ∨ exists i, q = MutexQ i ∧ 0 <= i < j) k s')); [lia| | |done].
  - eapply raw_mono; [exact H| |done]. intros q [|(i & _ & ?)]; [done|lia].
  - intros j s1 Hj H1. destruct (arr_get_Some (mutex_heap s1) j) as [x E]; [rewrite (w_mx _ _ _ H1); lia|]. unfold upd_mx, get_mx. wp_pure.
    eapply wp_lift; [exact E|]. wp_pure. apply wp_bind. eapply wp_lift; [apply arr_set_in; by apply arr_get_range in E|]. wp_pure.
    eapply raw_mono; [exact (raw_queue _ _ _ (MutexQ j) (raw_mutex _ _ _ _ _ (set_mx_allocated false x) H1 E))| |done].
    intros q [|(i & -> & Hi)]; [auto|]. destruct (decide (i = j)) as [->|]; [auto|]. left. right. exists i. split; [done|lia].
Qed.

Lemma raw_sem V k s x :
  raw V k s -> arr_get (sem_heap s) k = Some x ->
  raw V (k + 1) (set_sem_heap (<[Z.to_nat k := set_sem_unlink false (set_sem_owner (-1) (set_sem_id (-1) x))]> (sem_heap s)) s).
Proof.
  intros [] E. pose proof (arr_get_range _ _ _ E). constructor; simpl; try done; [by rewrite length_insert|].
  intros i y Ey. apply arr_get_insert in Ey as [[-> ->]|[Hne Ey]]; [| |lia].
  - simpl. destruct (w_sems0 k x E). split; [done|]. done.
  - destruct (w_sems0 i y Ey) as [? Hi]. split; [done|]. intros. apply Hi. lia.
Qed.
Lemma raw_map V k s i e e' :
  raw V k s -> arr_get (sem_map s) i = Some e -> name_ok e' -> raw V k (set_sem_map (<[Z.to_nat i := e']> (sem_map s)) s).
Proof.
  intros [] E He. pose proof (arr_get_range _ _ _ E). constructor; simpl; try done; [by rewrite length_insert|].
  intros j y Ey. apply arr_get_insert in Ey as [[-> ->]|[Hne Ey]]; [done|by eapply w_names0|lia].
Qed.

Lemma sem_raw V s : raw V 0 s -> wp sem_heap_init s (λ _ s', raw (λ q, V q ∨ exists i, q = SemQ i ∧ 0 <= i < MAX_SEM) MAX_SEM s').
Proof.
  intros H. pose proof ok_sem. unfold sem_heap_init.
  apply (wp_for_up _ _ _ (λ j s', raw (λ q, V q ∨ exists i, q = SemQ i ∧ 0 <= i < j) j s')); [lia| | |done].
  - eapply raw_mono; [exact H| |done]. intros q [|(i & _ & ?)]; [done|lia].
  - intros j s1 Hj H1. destruct (arr_get_Some (sem_heap s1) j) as [x E]; [rewrite (w_heap _ _ _ H1); lia|].
    destruct (arr_get_Some (sem_map s1) j) as [e Ee]; [rewrite (w_map _ _ _ H1); lia|].
    unfold upd_sem, get_sem, clear_map, put_map. wp_pure. eapply wp_lift; [exact E|]. wp_pure. apply wp_bind.
    eapply wp_lift; [apply arr_set_in; by apply arr_get_range in E|]. wp_pure. apply wp_bind.
    eapply wp_lift; [apply arr_set_in; by apply arr_get_range in Ee|]. wp_pure.
    pose proof (raw_queue _ _ _ (SemQ j) (raw_sem _ _ _ _ H1 E)) as H2. pose proof (raw_map _ _ _ j e _ H2 Ee (clear_name_ok 0)) as H3.
    eapply raw_mono; [exact H3| |done].
    intros q [|(i & -> & Hi)]; [auto|]. destruct (decide (i = j)) as [->|]; [auto|]. left. right. exists i. split; [done|lia].
Qed.

(** The queues are empty. *)
Lemma empty_queues pr (m : gmap qid (queue Z)) : (forall q, valid_q q -> m !! q = Some (alloc_pid_q (q_cap q))) -> qsok pr m (λ _, []).
Proof.
  intros H q Hv. exists (alloc_pid_q (q_cap q)). split; [by apply H|]. split; [done|].
  assert (1 <= q_cap q <= 255) by (pose proof ok_readyq; pose proof ok_semq; pose proof ok_mutexq; pose proof ok_procs; destruct q; simpl; lia).
  destruct (sched_is_prio && is_wait q).
  - split_and!; [apply pheap_init; [lia|by rewrite length_replicate]|constructor|]. by intros y ?%elem_of_nil.
  - apply ring_init; [lia|by rewrite length_replicate].
Qed.

(** The idle task is the first process. *)
Lemma idle_core V s :
  raw V MAX_SEM s -> (forall q, valid_q q -> V q) ->
  wp init_idle_task s (λ _ s', kcore (λ _, []) [] s' ∧ (exists x, arr_get (ptable s') (current_pid s') = Some x ∧ p_state x = PROC_RUN ∧ isrflag x = 0 ∧ kctx x = None) ∧
    ktm s' = ktm s ∧ (sched_is_prio = true -> resched s' = true) ∧ current_pid s' = idle_task_pid ∧ sem_heap s' = sem_heap s ∧
    forall p x, arr_get (ptable s') p = Some x -> (p_state x = PROC_RUN ∨ p_state x = PROC_NEW) ∧ kctx x = None).
Proof.
  intros H HV. pose proof ok_procs as Hm. pose proof ok_prio as Hpr. pose proof (w_pt _ _ _ H) as Ept.
  destruct (Z.to_nat MAX_PROCESS_CONTEXTS) as [|n] eqn:En; [lia|]. simpl in Ept.
  unfold init_idle_task, proc_create. wp_pure.
  rewrite Ept. cbn [list_find]. rewrite decide_True by done. cbn zeta beta iota. change (Z.of_nat 0) with 0.
  assert (arr_get (ptable s) 0 = Some blank_pcb) as E0 by (by rewrite Ept).
  apply wp_bind. eapply wp_upd_proc; [exact E0|]. set (x1 := set_isrflag 0 _). rewrite (bool_decide_eq_false_2 (0 ≠ 0)) by lia. wp_pure.
  set (x2 := set_p_state PROC_RUN x1).
  assert (forall b p x, arr_get (ptable (put_proc 0 x2 (set_resched b (put_proc 0 x1 s)))) p = Some x -> (p = 0 ∧ x = x2) ∨ (p ≠ 0 ∧ x = blank_pcb)) as Hx0.
  { intros b. assert (ptable (put_proc 0 x2 (set_resched b (put_proc 0 x1 s))) = x2 :: replicate n blank_pcb) as Ept' by (simpl; by rewrite Ept).
    { intros p x E. rewrite Ept' in E. pose proof (arr_get_range _ _ _ E) as Hr. rewrite arr_get_lookup in E by lia.
      destruct (decide (p = 0)) as [->|Hp]; [left; by injection E as <-|right]. split; [done|].
      replace (Z.to_nat p) with (S (Z.to_nat (p - 1))) in E by lia. simpl in E. by apply lookup_replicate in E as [-> _]. } }
  assert (forall b, kcore (λ _, []) [] (set_current_pid 0 (put_proc 0 x2 (set_resched b (put_proc 0 x1 s))))) as Hk.
  { intros b. pose proof (Hx0 b) as Hx. assert (s8 PRIO_LOWEST = PRIO_LOWEST) as Hs8 by (apply s8_small; unfold PRIO_LOWEST; lia).
    constructor; simpl.
    - rewrite Ept. simpl. by rewrite length_replicate.
    - apply empty_queues. simpl. intros q Hq. by apply (w_qs _ _ _ H), HV.
    - intros p x [[-> ->]|[Hp ->]]%Hx; constructor; simpl; auto; try done. intros _. rewrite Hs8. unfold PRIO_LOWEST. lia.
    - constructor.
    - intros q p ?%elem_of_nil. done.
    - intros p x i [[-> ->]|[Hp ->]]%Hx; done.
    - intros p x [[-> ->]|[Hp ->]]%Hx; done.
    - constructor; simpl; [constructor|intros tm ?%elem_of_nil; done|intros p (tm & ?%elem_of_nil & _); done|].
      intros p x [[-> ->]|[Hp ->]]%Hx; done.
    - constructor; [apply H|apply H| |apply H]. intros i x E. destruct (w_sems _ _ _ H i x E) as [Hv Hid]. split; [|done]. left. apply Hid.
      apply arr_get_range in E. rewrite (w_heap _ _ _ H) in E. lia.
    - apply H. }
  assert (forall b, arr_get (ptable (put_proc 0 x2 (set_resched b (put_proc 0 x1 s)))) 0 = Some x2) as E2.
  { intros b. eapply (put_proc_eq 0 _ x1). by apply (put_proc_eq 0 _ blank_pcb s). }
  destruct sched_is_prio; wp_pure.
  - eapply wp_bind, wp_upd_proc; [by apply (put_proc_eq 0 _ blank_pcb s)|]. wp_pure. split; [apply (Hk true)|].
    split; [exists x2; split; [apply (E2 true)|done]|]. split_and!; try done. intros p x [[-> ->]|[_ ->]]%(Hx0 true); auto.
  - eapply wp_bind, wp_upd_proc; [by apply (put_proc_eq 0 _ blank_pcb s)|]. wp_pure. split; [apply (Hk (resched s))|].
    split; [exists x2; split; [apply (E2 (resched s))|done]|]. split_and!; try done. intros p x [[-> ->]|[_ ->]]%(Hx0 (resched s)); auto.
Qed.

(** While the processes are created the timers are not set up yet. *)
Record started Q s : Prop := {
  sd_core : kcore Q [] s;
  sd_cur : current_pid s = idle_task_pid;
  sd_idle : exists x, arr_get (ptable s) idle_task_pid = Some x ∧ p_state x = PROC_RUN ∧ isrflag x = 0 ∧ kctx x = None;
  sd_tm : ktm s = ktm blank;
  sd_resched : sched_is_prio = true -> resched s = true;
  sd_procs p x : arr_get (ptable s) p = Some x -> (p_state x = PROC_RUN ∨ p_state x = PROC_NEW) ∧ kctx x = None;
  sd_sems i x : arr_get (sem_heap s) i = Some x -> sem_id x = -1;
}.

Lemma create_started Q s priority :
  started Q s -> 0 <= priority < N_PRIO ->
  wp (sys_elf_process_create priority) s (λ r s', (exists k, r = Done k) ∧ exists Q', started Q' s').
Proof.
  intros [H Hc (x0 & E0 & Hx0 & Hi0) Ht Hr Hps Hss] Hp. unfold sys_elf_process_create. apply wp_bind.
  eapply wp_mono; [by apply (proc_create_spec Q [] s priority)|].
  intros r s' [(-> & -> & _)|(x & x' & Hr0 & Ex & Hal & Hal' & Hs' & Hpr & Hk' & H' & Ept & [Hd Htm] & Hc' & Hre & _)].
  - apply wp_ret. split; [eauto|]. exists Q. constructor; try done. by exists x0.
  - rewrite bool_decide_eq_false_2 by lia. assert (arr_get (ptable s') r = Some x') as E1 by (rewrite Ept; by eapply put_proc_eq).
    apply wp_bind. eapply wp_upd_proc; [exact E1|]. apply wp_ret. split; [eauto|]. eexists. constructor.
    + apply (core_aux _ _ s' r x'); [exact H'|done..|by left].
    + exact (eq_trans Hc' Hc).
    + exists x0. split; [|done]. rewrite (put_proc_ne r _ _ x' s' E1) by (unfold idle_task_pid; lia). rewrite Ept.
      rewrite (put_proc_ne r _ _ x s Ex) by (unfold idle_task_pid; lia). done.
    + exact (eq_trans Htm Ht).
    + intros Hpr'. simpl. rewrite Hre, Hpr'. done.
    + intros p z Ez. destruct (decide (p = r)) as [->|Hpr'].
      * rewrite (put_proc_eq r _ x' s' E1) in Ez. injection Ez as <-. simpl. auto.
      * rewrite (put_proc_ne r p _ x' s' E1), Ept, (put_proc_ne r p _ x s Ex) in Ez by done. by apply (Hps p).
    + simpl. rewrite (d_sems _ _ Hd). exact Hss.
Qed.

Lemma procs_started ps : forall Q s, started Q s -> Forall (λ p, 0 <= p < N_PRIO) ps ->
  wp (se_process_init ps) s (λ _ s', exists Q', started Q' s').
Proof.
  induction ps as [|p ps IH]; intros Q s H Hps; cbn [se_process_init]; [apply wp_ret; by exists Q|].
  inversion Hps as [|? ? Hp Hps']; subst. apply wp_bind. eapply wp_mono; [by apply (create_started Q)|].
  intros r s' ((k & ->) & Q' & H'). case_bool_decide; [apply wp_ret; by exists Q'|]. by apply (IH Q').
Qed.

Lemma xilkernel_init_spec ps :
  Forall (λ p, 0 <= p < N_PRIO) ps ->
  wp (xilkernel_init ps) blank (λ _ s', exists Q, kinv Q [] s' ∧ cur_ctx s' = None ∧ current_pid s' = idle_task_pid ∧ (sched_is_prio = true -> resched s' = true) ∧
    (forall p x, arr_get (ptable s') p = Some x -> (p_state x = PROC_RUN ∨ p_state x = PROC_NEW) ∧ kctx x = None) ∧
    (forall i x, arr_get (sem_heap s') i = Some x -> sem_id x = -1)).
Proof.
  intros Hps. pose proof ok_procs. unfold xilkernel_init. apply wp_bind. apply (wp_for_up _ _ _ (λ _ s, s = blank)); [lia|done| |].
  { intros i s Hi ->. assert (arr_get (ptable blank) i = Some blank_pcb) as E.
    { rewrite arr_get_lookup by lia. simpl. apply lookup_replicate. split; [done|lia]. }
    eapply wp_upd_proc; [exact E|]. unfold put_proc. rewrite list_insert_id; [done|]. by rewrite <- arr_get_lookup by lia. }
  intros s ->. apply wp_bind. eapply wp_mono; [apply readyq_raw, raw_blank|]. intros [] s1 H1.
  apply wp_bind. eapply wp_mono; [by apply mutex_raw|]. intros [] s2 H2. apply wp_bind. eapply wp_mono; [by apply sem_raw|]. intros [] s3 H3.
  apply wp_bind. eapply wp_mono; [apply (idle_core _ _ H3)|].
  { intros [i|i|i|i] Hv; simpl in Hv; [left; left; right|right|left; right|done]; eauto. }
  intros [] s4 (H4 & Hx & Ht & Hr & Hc & Hsm & Hnew). apply wp_bind. eapply wp_mono; [apply (procs_started ps (λ _, []) s4); [|done]|].
  { constructor; try done; [by rewrite <- Hc|rewrite Ht; apply (w_tm _ _ _ H3)|]. rewrite Hsm. intros i x E. apply (w_sems _ _ _ H3 i x E).
    apply arr_get_range in E. rewrite (w_heap _ _ _ H3) in E. pose proof ok_sem. lia. }
  intros _ s5 (Q & [H5 Hc5 (x & E & Hs & Hi & Hk) Ht5 Hr5 Hp5 Hs5]). apply wp_bind, wp_tmr. rewrite Ht5. pose proof ok_tmrs.
  eapply wp_mono; [apply soft_tmr_init_spec; [simpl; by rewrite length_replicate|intros []; simpl; by rewrite length_replicate|done]|].
  intros [] t Htr. wp_pure. exists Q. split; [|split; [unfold cur_ctx; simpl; by rewrite Hc5, E|done]]. constructor.
  - by destruct H5.
  - exists x. simpl. by rewrite Hc5.
  - intros (tm & ?%elem_of_nil & _). done.
  - done.
Qed.
End init.
