(* ===== verification/Kreach.v ===== *)
(** * Reachable states of the kernel

    What holds in every state that the kernel reaches: no step is undefined,
    no process of higher priority than the running one is ready, sleeping
    processes wake up on time, and ready processes get their turn. *)

From stdpp Require Import gmap.
From S2P Require Import Prelude Kqueue Kheap Ktimer Ksched Ksem Kmutex Kinv Kops Kkill Kernel Ksafe Kinit.
Open Scope Z_scope.

Section reach.
Context {KC : KConfig} {KOK : KConfigOk KC}.
Implicit Types (s : kst) (q : qid) (p : Z) (l : list Z) (Q : qmap) (T : list soft_tmr).

(** ** Steps *)

(** Between steps: the invariant, and the priorities unless the kernel is about
    to schedule. *)
Record kgood Q T s : Prop := {
  g_inv : kinv Q T s;
  g_top : resched s = false -> top_at (ptable s) (current_pid s) Q;
}.

(** The queues without a killed process. *)
Definition kept e Q : qmap := match e with EKill p => λ q, filter (λ r, r ≠ p) (Q q) | _ => Q end.

Lemma grows_kept e Q Q1 : (forall i, kept e Q (ReadyQ i) = Q (ReadyQ i)) -> grows Q Q1 -> grows (kept e Q) Q1.
Proof. intros HQe Hg i. destruct (Hg i) as [l Hl]. exists l. by rewrite HQe. Qed.

(** Who runs after a step: the next one of the ready queues, or the same
    process as before. *)
Definition turn e s Q s' Q' : Prop :=
  (exists Q1, grows (kept e Q) Q1 ∧ picks Q1 (current_pid s') Q') ∨
  (grows (kept e Q) Q' ∧ current_pid s' = current_pid s ∧ if decide (e = ETick) then sched_partial_tick s = true else sched_partial_tick s' = sched_partial_tick s).

(** A process that sleeps, with its timer. *)
Definition sleeps p (y : pcb) (tm : soft_tmr) T s : Prop :=
  arr_get (ptable s) p = Some y ∧ p_state y = PROC_DELAY ∧ tm ∈ T ∧ tm_pid tm = p.
Definition awake p s : Prop := exists y, arr_get (ptable s) p = Some y ∧ (p_state y = PROC_READY ∨ p_state y = PROC_RUN).

Record step_post (e : event) Q T s Q' T' s' : Prop := {
  st_good : kgood Q' T' s';
  st_resched : resched s' = false;
  st_turn : turn e s Q s' Q';
  st_partial : e = ETick -> sched_partial_tick s' = false;
  st_delay p y tm : sleeps p y tm T s -> e ≠ ETick -> e ≠ EKill p -> sleeps p y tm T' s';
  st_tick p y tm : sleeps p y tm T s -> e = ETick ->
    if decide (tm_timeout tm = 1) then awake p s' else sleeps p y (tick_tmr tm) T' s';
}.

Lemma sleeper_other Q T s p y tm : kinv Q T s -> sleeps p y tm T s -> p ≠ current_pid s.
Proof. intros H (E & Hs & _) ->. destruct (i_cur _ _ _ H) as (x & Ex & Hx & _). congruence. Qed.

(** A scheduling does not touch sleeping processes. *)
Lemma view_sleeper Q T s p y tm n pt' :
  kinv Q T s -> sleeps p y tm T s -> sched_view (current_pid s) n (ptable s) pt' -> ~ has_tmr T n -> arr_get pt' p = Some y.
Proof.
  intros H Hsl Hv Hn. pose proof (sleeper_other _ _ _ _ _ _ H Hsl) as Hp. destruct Hsl as (E & Hs & Hin & Ht).
  destruct (Hv p y E) as (y' & E' & _ & _ & _ & _ & _ & _ & _ & Hy). rewrite Hy in E'; [done| |done]. intros ->. apply Hn. by exists tm.
Qed.

Lemma view_top c n pt pt' Q : sched_view c n pt pt' -> is_Some (arr_get pt n) -> top_at pt n Q -> top_at pt' n Q.
Proof.
  intros Hv [y E] Ht. eapply top_at_same; [|exact Ht]. intros z Ez. destruct (Hv n y E) as (y' & E' & _ & Hp & _). exists y. split; [done|]. congruence.
Qed.

Lemma current_known Q T s Q' T' s' : kinv Q T s -> kinv Q' T' s' -> is_Some (arr_get (ptable s) (current_pid s')).
Proof.
  intros H H'. destruct (i_cur _ _ _ H') as (x & E & _). apply arr_get_Some. apply arr_get_range in E.
  rewrite (c_len _ _ _ (i_core _ _ _ H)). by rewrite (c_len _ _ _ (i_core _ _ _ H')) in E.
Qed.

(** The processes that stay are those of the queues before. *)
Lemma picks_elem Q n Q' q p : picks Q n Q' -> p ∈ Q' q -> p ∈ Q q.
Proof.
  intros [He|i r l Hi He El]; [done|]. rewrite qupd_elem. intros [[-> Hin]|[_ Hin]]; [rewrite El; by right|done].
Qed.
Lemma requeue_elem Q c x q p : p ≠ c -> p ∈ requeue Q c x q -> p ∈ Q q.
Proof.
  intros Hc. unfold requeue. case_bool_decide; [|done]. rewrite qupd_elem. intros [[-> Hin]|[_ Hin]]; [|done].
  apply elem_of_app in Hin as [Hin|Hin%list_elem_of_singleton]; done.
Qed.

(** The way out of a call. *)
Lemma exit_step e Q T s Q1 T1 s1 :
  e ≠ ETick -> (forall i, kept e Q (ReadyQ i) = Q (ReadyQ i)) -> kgood Q T s -> cur_ctx s = None -> done_post Q T s Q1 T1 s1 ->
  wp syscall_exit s1 (λ _ s', exists Q' T', step_post e Q T s Q' T' s').
Proof.
  intros He HQe [H Htop] Hctx [D1 D2 D3 D4 D5 D6 D7]. destruct (i_cur _ _ _ H) as (x & E & Hx & _). destruct (D3 x E) as (x1 & E1 & K1 & P1).
  assert (kctx x = None) as Hk by (unfold cur_ctx in Hctx; by rewrite E in Hctx). rewrite Hk in K1. rewrite <- D2 in E1.
  eapply wp_mono; [by apply (syscall_exit_spec Q1 T1 s1 x1)|]. intros [] s' (n & Q' & H' & Hc & Hre & Hd & Hor). exists Q', T1.
  assert (forall p y tm, sleeps p y tm T s -> sleeps p y tm T1 s1) as Hsl.
  { intros p y tm Hsl. pose proof (sleeper_other _ _ _ _ _ _ H Hsl) as Hp. destruct Hsl as (Ey & Hs & Hin & Ht).
    destruct (D6 p y tm Hp Ey Hs Hin Ht) as [Ey' Hin']. done. }
  destruct Hor as [(Hr1 & -> & ->)|(Hp & Ht & Hv)].
  - constructor; try done; [|by right; rewrite decide_False by done; split_and!; [by apply grows_kept|..]|intros ? ? ? ? _ _; by apply Hsl]. constructor; [done|].
    intros _ Hpr y i Ey Hi. destruct (D5 Hpr Hr1) as [Hr0 HQ]. rewrite HQ. rewrite D2 in *.
    apply (Htop Hr0 Hpr x i E). assert (y = x1) as -> by congruence. lia.
  - assert (~ has_tmr T1 n) as Hno by (rewrite <- Hc; apply (i_notmr _ _ _ H')).
    assert (is_Some (arr_get (ptable s1) n)) as Hn by (rewrite <- Hc; by eapply current_known).
    constructor; try done.
    + constructor; [done|]. intros _. rewrite Hc. by eapply view_top.
    + left. rewrite Hc. exists (requeue Q1 (current_pid s1) x1). split; [|done]. apply grows_kept; [done|]. eapply grows_trans; [done|]. apply grows_requeue.
    + intros p y tm Hs _ _. pose proof (Hsl _ _ _ Hs) as Hs1. pose proof (view_sleeper _ _ _ _ _ _ _ _ D1 Hs1 Hv Hno).
      by destruct Hs1 as (_ & ? & ? & ?).
Qed.

Lemma call_step {A} e Q T s c (out : A -> outcome) (m : ST kst A) (B : Type) (r : A -> B) :
  e ≠ ETick -> (forall i, kept e Q (ReadyQ i) = Q (ReadyQ i)) -> kgood Q T s -> cur_ctx s = None -> current_pid s = c -> safe c out m ->
  wp (a ← m; finish (out a);; mret (r a)) s (λ _ s', exists Q' T', step_post e Q T s Q' T' s').
Proof.
  intros He HQe Hg Hctx Hc Hm. apply wp_bind. eapply wp_mono; [apply (Hm Q T s); [apply Hg|done]|].
  intros a s1 (Q1 & T1 & H1). apply wp_bind. destruct (out a); simpl.
  - eapply wp_mono; [by apply (exit_step e Q T s Q1 T1)|]. intros [] s' H'. by apply wp_ret.
  - apply wp_ret, wp_ret. exists Q1, T1. destruct H1 as [B1 B2 B3 B4 B5 B6]. constructor; try done.
    + left. destruct B3 as (Q2 & HQ2 & HQ2'). exists Q2. split; [by apply grows_kept|done].
    + intros p y tm Hsl _ _. pose proof (sleeper_other _ _ _ _ _ _ (g_inv _ _ _ Hg) Hsl) as Hp. destruct Hsl as (E & Hs & Hin & Ht).
      by destruct (B6 p y tm Hp E Hs Hin Ht).
Qed.

(** The suspended call is taken from the context. *)
Lemma resume_good Q T s x :
  kgood Q T s -> arr_get (ptable s) (current_pid s) = Some x -> kgood Q T (put_proc (current_pid s) (set_kctx None x) s).
Proof.
  intros [[H (x0 & E0 & Hs & Hi) Hn Hr] Htop] E. assert (x0 = x) as -> by congruence. constructor.
  - constructor; try done; [by apply (core_aux _ _ s _ x); [..|right]|]. eexists. split; [by apply (put_proc_eq _ _ x s)|done].
  - intros Hre. eapply top_at_same; [|by apply Htop]. intros y Ey. exists x. split; [done|].
    change (current_pid (put_proc ?a ?b s)) with (current_pid s) in Ey. rewrite (put_proc_eq _ _ x s E) in Ey. by simplify_eq.
Qed.

Lemma nodup_tmr T tm tm' : NoDup (tm_pid <$> T) -> tm ∈ T -> tm' ∈ T -> tm_pid tm = tm_pid tm' -> tm = tm'.
Proof.
  intros Hnd [i Hi]%list_elem_of_lookup_1 [j Hj]%list_elem_of_lookup_1 E.
  assert (i = j) as -> by (eapply (NoDup_lookup _ i j (tm_pid tm) Hnd); rewrite list_lookup_fmap, ?Hi, ?Hj; simpl; congruence). congruence.
Qed.

Lemma sleeper_expires Q T s p y tm :
  kinv Q T s -> sleeps p y tm T s -> (p ∈ expired T <-> tm_timeout tm = 1) ∧ 1 <= tm_timeout tm < 2^32.
Proof.
  intros H (Ey & Hs & Hin & Ht). destruct (c_tmr _ _ _ (i_core _ _ _ H)) as [T1 T2 _ _]. split; [|by apply T2].
  unfold expired. rewrite list_elem_of_fmap. split.
  - intros (tm' & Et & [Ht' Hin']%list_elem_of_filter). rewrite Et in Ht. by rewrite (nodup_tmr T tm tm').
  - intros Ht1. exists tm. split; [done|]. by apply list_elem_of_filter.
Qed.

Lemma tick_step Q T s :
  kgood Q T s -> wp (kstep ETick) s (λ _ s', exists Q' T', step_post ETick Q T s Q' T' s').
Proof.
  intros [H Htop]. destruct (i_cur _ _ _ H) as (x & E & Hx & _). cbn [kstep]. apply wp_bind.
  eapply wp_mono; [by apply (irq_entry_spec Q T s x)|].
  intros [] s' (s1 & Q1 & n & Q' & Hex & H' & Hc & Hre & Hpt & Hobj & Hv & Hor). apply wp_ret. exists Q', (ticked T).
  destruct (Hex) as [F1 F2 F3 F4 F5 F6 F7 F8 F9]. set (c := current_pid s) in *.
  assert (arr_get (ptable (interrupted s x)) c = Some (set_isrflag 1 x)) as Ec by (by apply (put_proc_eq c _ x s)).
  assert (forall p, p ≠ c -> arr_get (ptable (interrupted s x)) p = arr_get (ptable s) p) as Ei by (intros p Hp; by apply (put_proc_ne c p _ x s)).
  assert (c ∉ expired T) as HcE.
  { unfold expired. intros (tm & Et & [_ Hin]%list_elem_of_filter)%list_elem_of_fmap. apply (i_notmr _ _ _ H). by exists tm. }
  assert (arr_get (ptable s1) c = Some (set_isrflag 1 x)) as E1 by (by rewrite F1).
  constructor; try done.
  - constructor; [done|]. intros _. rewrite Hc. destruct Hor as [(-> & -> & _ & Hn0)|[Hp Ht]].
    + intros Hpr. destruct (Hn0 Hpr) as [Hr0 He]. rewrite (F9 He). revert Hpr. eapply top_at_same; [|by apply Htop].
      intros z Ez. destruct (Hv c _ E1) as (y' & Ey' & _ & Hpy & _). exists x. split; [done|]. assert (z = y') as -> by congruence. done.
    + eapply view_top; [done| |done]. destruct (current_known _ _ _ _ _ _ H H') as [z Ez]. rewrite Hc in Ez.
      destruct (decide (n = c)) as [->|Hnc]; [by eauto|]. destruct (decide (n ∈ expired T)) as [Hin|Hin].
      * destruct (F2 n Hin) as (_ & x' & _ & Ex' & _). by rewrite Ex'.
      * rewrite F1, Ei by done. by eauto.
  - destruct Hor as [(-> & -> & Hpart & _)|[Hp _]]; [right|left].
    + rewrite decide_True by done. by split_and!.
    + rewrite Hc. eexists. split; [|exact Hp]. eapply grows_trans; [exact F4|apply grows_requeue].
  - intros p y tm Hsl _. destruct (sleeper_expires _ _ _ _ _ _ H Hsl) as [Hexp Htm]. pose proof (sleeper_other _ _ _ _ _ _ H Hsl) as Hpc. fold c in Hpc.
    destruct Hsl as (Ey & Hs & Hin & Ht). case_decide as Ht1.
    + destruct (F2 p) as (y0 & x' & _ & Ex' & _ & (S1 & _) & _); [by apply Hexp|]. simpl in S1. destruct (Hv p x' Ex') as (y' & Ey' & Hy' & _).
      exists y'. split; [done|]. rewrite Hy'. unfold next_state. destruct (bool_decide (p = n)); [by right|]. rewrite S1.
      rewrite bool_decide_eq_false_2 by (by intros []). by left.
    + assert (tick_tmr tm ∈ ticked T) as Htk.
      { apply list_elem_of_filter. split; [simpl; rewrite u32_small by (unfold is_u32; lia); lia|]. by apply list_elem_of_fmap_2. }
      assert (arr_get (ptable s1) p = Some y) as Ey1 by (rewrite F1, Ei by tauto; done).
      destruct (Hv p y Ey1) as (y' & Ey' & _ & _ & _ & _ & _ & _ & _ & Hy'). split_and!; try done. rewrite <- (Hy'); [done| |done].
      intros ->. apply (i_notmr _ _ _ H'). rewrite Hc. by exists (tick_tmr tm).
Qed.

(** Killing a process. *)
Lemma kill_step Q T s p :
  kgood Q T s -> enabled (EKill p) s -> wp (kstep (EKill p)) s (λ r s', exists Q' T', step_post (EKill p) Q T s Q' T' s' ∧
    match arr_get (ptable s) p with
    | Some x => if is_allocated x then
        r = (Done 0, None) ∧ same_objs s s' ∧ (exists x', arr_get (ptable s') p = Some x' ∧ is_allocated x' = false) ∧ (forall q, p ∉ Q' q) ∧ ~ has_tmr T' p
      else r = (Done (-1), None)
    | None => True
    end).
Proof.
  intros Hg (Hctx & Hid & Hok). pose proof (g_inv _ _ _ Hg) as H. unfold kill_ok in Hok. destruct (arr_get (ptable s) p) as [x|] eqn:E; [|done].
  cbn [kstep]. apply wp_bind. destruct (is_allocated x) eqn:Hal.
  - destruct (Hok eq_refl) as (Hidle & Hcur & Hnew). eapply wp_mono; [by apply (sys_kill_spec Q T s p x)|].
    intros r s1 (-> & Q1 & H1 & Hwo & Hur & Ept & Hc1 & Ho1 & Hre). set (T1 := filter (λ tm, tm_pid tm ≠ p) T) in *.
    destruct (i_cur _ _ _ H) as (c & Ec & _). unfold cur_ctx in Hctx. rewrite Ec in Hctx. simpl in Hctx.
    assert (forall r, r ≠ p -> arr_get (ptable s1) r = arr_get (ptable s) r) as Eo by (intros r Hr; rewrite Ept; by apply (put_proc_ne p r _ x s E)).
    assert (arr_get (ptable s1) (current_pid s1) = Some c) as Ec1 by (by rewrite Hc1, Eo).
    apply wp_bind. eapply wp_mono; [by apply (syscall_exit_spec Q1 T1 s1 c)|]. intros [] s' (n & Q' & H2 & Hc2 & Hre2 & Hd2 & Hor).
    destruct Hor as [[Hbad _]|(Hp & Htop & Hv)]; [congruence|]. apply wp_ret. exists Q', T1.
    assert (arr_get (ptable s1) p = Some (killed x)) as Ep1 by (rewrite Ept; by apply (put_proc_eq p _ x s)).
    assert (~ has_tmr T1 n) as Hno by (rewrite <- Hc2; apply (i_notmr _ _ _ H2)).
    split; [constructor; try done|split_and!; try done].
    + constructor; [done|]. intros _. rewrite Hc2. eapply view_top; [done| |done]. rewrite <- Hc2. by eapply current_known.
    + left. rewrite Hc2. exists (requeue Q1 (current_pid s1) c). split; [|done]. eapply grows_trans; [|apply grows_requeue]. intros i. exists []. by rewrite app_nil_r, Hur.
    + intros r y tm Hsl _ Hne. assert (r ≠ p) as Hrp by congruence. assert (sleeps r y tm T1 s1) as Hs1.
      { destruct Hsl as (Ey & Hs & Hin & Ht). split_and!; [by rewrite Eo|done|apply list_elem_of_filter; by rewrite Ht|done]. }
      pose proof (view_sleeper _ _ _ _ _ _ _ _ H1 Hs1 Hv Hno). by destruct Hs1 as (_ & ? & ? & ?).
    + etransitivity; [exact Ho1|]. apply (d_objs _ _ Hd2).
    + destruct (Hv p _ Ep1) as (x' & Ep' & _ & _ & Hal' & _). by exists x'.
    + intros q Hin. apply (wo_self _ _ _ Hwo q). rewrite <- Hc1 in Hcur. by eapply requeue_elem, picks_elem.
    + intros (tm & [Hne _]%list_elem_of_filter & Ht). done.
  - assert (forall i, kept (EKill p) Q (ReadyQ i) = Q (ReadyQ i)) as HQe.
    { intros i. simpl. apply filter_none_dropped. intros r Hr ->.
      destruct (home_valid p x (ReadyQ i) (c_pcb _ _ _ (i_core _ _ _ H) p x E)) as (_ & _ & Hal'); [by apply (core_in _ _ _ _ _ _ (i_core _ _ _ H) E)|congruence]. }
    unfold sys_kill. apply wp_bind. eapply wp_get_proc; [exact E|]. rewrite Hal. apply wp_ret, wp_bind.
    eapply wp_mono; [apply (exit_step (EKill p) Q T s Q T s); [done|done|done|done|by apply done_refl]|]. intros [] s' (Q' & T' & Hs). apply wp_ret. by exists Q', T'.
Qed.

Lemma kstep_spec Q T s e :
  kgood Q T s -> enabled e s -> wp (kstep e) s (λ _ s', exists Q' T', step_post e Q T s Q' T' s').
Proof.
  intros Hg He. destruct e as [call| | |p]; [| |by apply tick_step|eapply wp_mono; [by apply kill_step|]; intros r s' (Q' & T' & Hs & _); by exists Q', T'].
  - destruct He as (Hctx & Hid & Hok). cbn [kstep]. eapply (call_step (ECall call) Q T s (current_pid s) fst); try done. by apply run_call_safe.
  - cbn [kstep enabled] in *. destruct (i_cur _ _ _ (g_inv _ _ _ Hg)) as (x & E & Hs & _). unfold cur_ctx in He. rewrite E in He. simpl in He.
    destruct (kctx x) as [f|] eqn:Ek; [clear He|done]. destruct (o_frame _ _ (c_pcb _ _ _ (i_core _ _ _ (g_inv _ _ _ Hg)) _ x E) f Ek) as [Hid Hf].
    wp_pure. apply wp_bind. eapply wp_get_proc; [exact E|]. apply wp_bind. eapply wp_lift; [exact Ek|]. apply wp_bind.
    eapply wp_upd_proc; [exact E|]. set (s0 := put_proc (current_pid s) (set_kctx None x) s).
    assert (arr_get (ptable s0) (current_pid s0) = Some (set_kctx None x)) as E0 by (by apply (put_proc_eq _ _ x s)).
    eapply wp_mono; [apply (call_step EResume Q T s0 (current_pid s) id (resume f)); [done|done|by apply resume_good| |done|by apply resume_safe]|].
    { unfold cur_ctx. by rewrite E0. }
    intros r s' (Q' & T' & [S1 S2 S3 S4 S5 S6]). exists Q', T'. constructor; try done.
    intros p y tm Hsl _ _. apply S5; [|done..]. pose proof (sleeper_other _ _ _ _ _ _ (g_inv _ _ _ Hg) Hsl) as Hp. destruct Hsl as (Ey & Hrest).
    split; [|done]. rewrite <- Ey. by apply (put_proc_ne _ p _ x s).
Qed.

(** ** Sequences of steps *)

Lemma step_of Q T s e r s' : kgood Q T s -> enabled e s -> kstep e s = Some (r, s') -> exists Q' T', step_post e Q T s Q' T' s'.
Proof. intros Hg He E. pose proof (kstep_spec Q T s e Hg He) as H. apply wp_run in H as (r' & s1 & E' & H). by simplify_eq. Qed.

Lemma steps_good s es s' : steps s es s' -> forall Q T, kgood Q T s -> exists Q' T', kgood Q' T' s' ∧ (es ≠ [] -> resched s' = false).
Proof.
  induction 1 as [s|s e r s1 es s2 He E Hst IH]; intros Q T Hg; [by exists Q, T|].
  destruct (step_of _ _ _ _ _ _ Hg He E) as (Q1 & T1 & H1). destruct (IH Q1 T1 (st_good _ _ _ _ _ _ _ H1)) as (Q' & T' & Hg' & Hre).
  exists Q', T'. split; [done|]. intros _. destruct es; [|by apply Hre]. inversion Hst; subst. apply H1.
Qed.

Lemma steps_app s es s1 es' s2 : steps s es s1 -> steps s1 es' s2 -> steps s (es ++ es') s2.
Proof. induction 1; [done|]. intros. simpl. econstructor; eauto. Qed.

(** The initial state. *)
Definition starts (ps : list Z) s : Prop := xilkernel_init ps blank = Some (tt, s).

Lemma starts_good ps s : Forall (λ p, 0 <= p < N_PRIO) ps -> starts ps s -> exists Q T, kgood Q T s.
Proof.
  intros Hps E. pose proof (xilkernel_init_spec ps Hps) as H. apply wp_run in H as ([] & s' & E' & Q & H & _ & _ & Hr & _). unfold starts in E.
  assert (s' = s) as -> by congruence. exists Q, []. constructor; [done|]. intros Hre Hpr. rewrite (Hr Hpr) in Hre. done.
Qed.

Lemma run_good ps s0 es s : Forall (λ p, 0 <= p < N_PRIO) ps -> starts ps s0 -> steps s0 es s ->
  exists Q T, kgood Q T s ∧ (es ≠ [] -> resched s = false).
Proof. intros Hps H0 Hst. destruct (starts_good _ _ Hps H0) as (Q & T & Hg). by eapply steps_good. Qed.

(** C2: The kernel starts, in every configuration whose queues have room for all
    processes but the idle task and whose numbers fit their types ([KConfigOk]),
    and from then on every state satisfies the invariant, every step that may
    come next is defined, and there is one. The steps are the calls for processes,
    semaphores and mutexes, with arguments in range, continued calls, interrupts
    of the timer, and sys_kill of a process that has run before and is neither
    the caller nor the idle task. *)
Theorem kernel_safe (ps : list Z) :
  Forall (λ p, 0 <= p < N_PRIO) ps ->
  exists s0, starts ps s0 ∧ forall es s, steps s0 es s ->
    (exists Q T, kinv Q T s) ∧ (exists e, enabled e s) ∧ forall e, enabled e s -> exists r s', kstep e s = Some (r, s').
Proof.
  intros Hps. pose proof (xilkernel_init_spec ps Hps) as H. apply wp_run in H as ([] & s0 & E & _). exists s0. split; [done|].
  intros es s Hst. destruct (run_good ps s0 es s Hps E Hst) as (Q & T & Hg & _). split; [exists Q, T; apply Hg|]. split.
  - destruct (cur_ctx s) eqn:Ec; [exists EResume|exists ETick]; simpl; congruence.
  - intros e He. pose proof (kstep_spec Q T s e Hg He) as H. apply wp_run in H as (r & s' & E' & _). eauto.
Qed.

(** A process that is ready. *)
Definition is_ready p s : Prop := exists y, arr_get (ptable s) p = Some y ∧ is_allocated y = true ∧
  (p_state y = PROC_READY ∨ p_state y = PROC_NEW) ∧ p ≠ idle_task_pid.

Lemma ready_queued Q T s p : kinv Q T s -> is_ready p s -> exists y, arr_get (ptable s) p = Some y ∧ p ∈ Q (ready_of y).
Proof.
  intros H (y & E & Hal & Hs & Hid). exists y. split; [done|]. apply (c_ready _ _ _ (i_core _ _ _ H) p y); [done|].
  unfold home. rewrite Hal, bool_decide_eq_false_2 by done. by destruct Hs as [->| ->].
Qed.


(** ** Sleeping *)

Definition ticks (es : list event) : Z := Z.of_nat (length (filter (λ e, e = ETick) es)).

Lemma ticks_cons e es : ticks (e :: es) = (if decide (e = ETick) then 1 else 0) + ticks es.
Proof. unfold ticks. rewrite filter_cons. case_decide; simpl; lia. Qed.

Lemma sleeps_steps p y s es s' : steps s es s' -> EKill p ∉ es -> forall Q T tm, kgood Q T s -> sleeps p y tm T s -> ticks es < tm_timeout tm ->
  exists Q' T' tm', kgood Q' T' s' ∧ sleeps p y tm' T' s' ∧ tm_timeout tm' = tm_timeout tm - ticks es.
Proof.
  induction 1 as [s|s e r s1 es s2 He E Hst IH]; intros Hnk Q T tm Hg Hsl Ht.
  { exists Q, T, tm. split_and!; try apply Hsl; try done. change (ticks []) with 0. lia. }
  destruct (step_of _ _ _ _ _ _ Hg He E) as (Q1 & T1 & H1). destruct (sleeper_expires _ _ _ _ _ _ (g_inv _ _ _ Hg) Hsl) as [_ Hr].
  rewrite ticks_cons in *. assert (0 <= ticks es) by (unfold ticks; lia). case_decide as He'.
  - pose proof (st_tick _ _ _ _ _ _ _ H1 p y tm Hsl He') as Hs1. rewrite decide_False in Hs1 by lia.
    assert (tm_timeout (tick_tmr tm) = tm_timeout tm - 1) as Etk by (simpl; apply u32_small; unfold is_u32; lia).
    destruct (IH ltac:(set_solver) Q1 T1 _ (st_good _ _ _ _ _ _ _ H1) Hs1) as (Q' & T' & tm' & Hg' & Hs' & Ht'); [lia|]. exists Q', T', tm'. split_and!; try apply Hs'; [done|lia].
  - destruct (IH ltac:(set_solver) Q1 T1 _ (st_good _ _ _ _ _ _ _ H1) (st_delay _ _ _ _ _ _ _ H1 p y tm Hsl He' ltac:(set_solver))) as (Q' & T' & tm' & Hg' & Hs' & Ht'); [lia|].
    exists Q', T', tm'. split_and!; try apply Hs'; [done|lia].
Qed.

Lemma sleep_step Q T s ms r s1 :
  kgood Q T s -> enabled (ECall (CSleep ms)) s -> kstep (ECall (CSleep ms)) s = Some ((Blocked, r), s1) ->
  exists Q' T' y, kgood Q' T' s1 ∧ sleeps (current_pid s) y (MkTmr (ticks_of ms) (current_pid s)) T' s1.
Proof.
  intros Hg (_ & Hid & _) E. pose proof (sleep_call Q T s ms (g_inv _ _ _ Hg) Hid) as H. apply wp_run in H as (o & s2 & Es & Q' & T' & H).
  cbn [kstep run_call] in E. unfold mbind, st_bind in E. rewrite Es in E. destruct o as [z|]; cbn in E.
  - destruct (syscall_exit s2) as [[[] s3]|]; done.
  - injection E as _ <-. destruct H as ([B1 B2 B3 B4 B5 B6] & Hin & y & Ey & Hy). exists Q', T', y. split; [|done]. by constructor.
Qed.

(** C15: A process that sleeps for [ms] milliseconds and is not killed sleeps through the
    first [ticks_of ms - 1] interrupts of the timer, whatever else the other
    processes do meanwhile, and the next one wakes it up. As in every run of the
    model, sys_kill is called only for processes that have run and are not the
    caller. *)
Theorem sleep_wakes_on_time (ps : list Z) s0 es0 s ms r s1 es s2 :
  Forall (λ p, 0 <= p < N_PRIO) ps -> starts ps s0 -> steps s0 es0 s ->
  enabled (ECall (CSleep ms)) s -> kstep (ECall (CSleep ms)) s = Some ((Blocked, r), s1) -> steps s1 es s2 -> EKill (current_pid s) ∉ es ->
  ticks es < ticks_of ms ->
  (exists y, arr_get (ptable s2) (current_pid s) = Some y ∧ p_state y = PROC_DELAY) ∧
  forall r' s3, ticks es = ticks_of ms - 1 -> enabled ETick s2 -> kstep ETick s2 = Some (r', s3) -> awake (current_pid s) s3.
Proof.
  intros Hps H0 Hst He E Hes Hnk Ht. destruct (run_good ps s0 es0 s Hps H0 Hst) as (Q & T & Hg & _).
  destruct (sleep_step Q T s ms r s1 Hg He E) as (Q1 & T1 & y & Hg1 & Hs1).
  destruct (sleeps_steps _ _ _ _ _ Hes Hnk Q1 T1 _ Hg1 Hs1 Ht) as (Q2 & T2 & tm & Hg2 & Hs2 & Htm). simpl in Htm. split.
  - destruct Hs2 as (Ey & Hy & _). eauto.
  - intros r' s3 Hlast Hen E3. destruct (step_of _ _ _ _ _ _ Hg2 Hen E3) as (Q3 & T3 & H3).
    pose proof (st_tick _ _ _ _ _ _ _ H3 _ _ _ Hs2 eq_refl) as Hw. by rewrite decide_True in Hw by lia.
Qed.

(** ** Fairness *)

(** How far the process with [n] processes in front of it is from its turn. *)
Definition distance (n : nat) s : Z := 2 * Z.of_nat n + if sched_partial_tick s then 1 else 0.

(** A process that is not killed keeps at most its distance. *)
Lemma kept_split e p Q l1 l2 : e ≠ EKill p -> Q (ReadyQ 0) = l1 ++ p :: l2 ->
  exists l1' l2', kept e Q (ReadyQ 0) = l1' ++ p :: l2' ∧ (length l1' <= length l1)%nat.
Proof.
  intros He Hl. destruct e as [| | |r]; simpl; try (by exists l1, l2). exists (filter (λ z, z ≠ r) l1), (filter (λ z, z ≠ r) l2).
  rewrite Hl, list.filter_app, filter_cons, decide_True by congruence. split; [done|apply length_filter].
Qed.

Lemma turn_comes p s es s' : steps s es s' -> EKill p ∉ es -> forall Q T l1 l2, sched_is_prio = false -> kgood Q T s ->
  Q (ReadyQ 0) = l1 ++ p :: l2 -> distance (length l1) s < ticks es ->
  exists es1 es2 s1, es = es1 ++ es2 ∧ steps s es1 s1 ∧ current_pid s1 = p.
Proof.
  induction 1 as [s|s e r s1 es s2 He E Hst IH]; intros Hnk Q T l1 l2 Hrr Hg Hl Hd.
  { exfalso. change (ticks []) with 0 in Hd. unfold distance in Hd. destruct (sched_partial_tick s); lia. }
  destruct (step_of _ _ _ _ _ _ Hg He E) as (Q1 & T1 & H1). rewrite ticks_cons in Hd.
  assert (forall l1' l2', Q1 (ReadyQ 0) = l1' ++ p :: l2' -> distance (length l1') s1 + (if decide (e = ETick) then 1 else 0) <= distance (length l1) s ->
    exists es1 es2 s1, e :: es = es1 ++ es2 ∧ steps s es1 s1 ∧ current_pid s1 = p) as Hnext.
  { intros l1' l2' Hl' Hd'. destruct (IH ltac:(set_solver) Q1 T1 l1' l2' Hrr (st_good _ _ _ _ _ _ _ H1) Hl') as (es1 & es2 & s3 & -> & Hs3 & Hc); [lia|].
    exists (e :: es1), es2, s3. split_and!; [done|by econstructor|done]. }
  destruct (kept_split e p Q l1 l2 ltac:(set_solver) Hl) as (k1 & k2 & Hk & Hlen).
  pose proof (st_partial _ _ _ _ _ _ _ H1) as Hpt. destruct (st_turn _ _ _ _ _ _ _ H1) as [(Q0 & Hgr & Hp)|(Hgr & _ & Hpart)].
  - destruct (Hgr 0) as [l Hl0]. rewrite Hk in Hl0. pose proof (ok_rr Hrr) as Hn1. inversion Hp as [Hem|i n l' Hi Hem Hl']; subst.
    { rewrite Hem in Hl0 by lia. by destruct k1. }
    assert (i = 0) as -> by lia. rewrite Hl' in Hl0. destruct k1 as [|a k1].
    + simpl in Hl0. injection Hl0 as Hn _. exists [e], es, s1. split_and!; [done| |done]. econstructor; [done|done|constructor].
    + simpl in Hl0. injection Hl0 as _ ->. apply (Hnext k1 (k2 ++ l)); [by rewrite qupd_eq, <- app_assoc|].
      unfold distance. simpl length in Hlen. case_decide; [rewrite Hpt by done|]; destruct (sched_partial_tick s), (sched_partial_tick s1); lia.
  - destruct (Hgr 0) as [l Hl0]. rewrite Hk, <- app_assoc in Hl0. apply (Hnext k1 (k2 ++ l) Hl0). unfold distance.
    case_decide; [rewrite Hpt, Hpart by done|rewrite Hpart]; lia.
Qed.


End reach.

(** ** Configurations for examples *)

Definition demo_tmr : TmrConfig := {| MAX_TMRS := 4; SYSTMR_CLK_FREQ := 1000000; SYSTMR_CLK_FREQ_KHZ := 1000; SYSTMR_INTERVAL := 1000 |}.
Definition demo_conf (prio : bool) : KConfig := {|
  sched_is_prio := prio; MAX_PROCESS_CONTEXTS := 5; N_PRIO := if prio then 4 else 1; MAX_READYQ := 4; MAX_SEM := 2; MAX_SEM_WAITQ := 4;
  MAX_PTHREAD_MUTEX := 2; MAX_PTHREAD_MUTEX_WAITQ := 4; k_tmr := demo_tmr |}.

Lemma demo_ok prio : KConfigOk (demo_conf prio).
Proof. destruct prio; constructor; simpl; try done; lia. Qed.

(** The states of an example run. *)
Definition demo_start (prio : bool) (ps : list Z) : kst :=
  match @xilkernel_init (demo_conf prio) ps (@blank (demo_conf prio)) with Some (_, s) => s | None => @blank (demo_conf prio) end.
Definition demo_run (prio : bool) (ps : list Z) (es : list event) : kst :=
  default (demo_start prio ps) (@exec (demo_conf prio) es (demo_start prio ps)).

Lemma demo_enabled prio e s : bool_decide (@enabled (demo_conf prio) e s) = true -> @enabled (demo_conf prio) e s.
Proof. apply bool_decide_eq_true_1. Qed.

Lemma kernel_safe_witness : Forall (λ p, 0 <= p < 1) [0; 0; 0] ∧ exists s0, @starts (demo_conf false) [0; 0; 0] s0 ∧
  exists s, @steps (demo_conf false) s0 [ETick; ECall (CSleep 5); EKill 1; ETick] s ∧ exists e, @enabled (demo_conf false) e s.
Proof.
  split; [repeat constructor; lia|].
  destruct (@kernel_safe (demo_conf false) (demo_ok false) [0; 0; 0]) as (s0 & H0 & H); [repeat constructor; simpl; lia|].
  exists s0. split; [exact H0|]. exists (demo_run false [0; 0; 0] [ETick; ECall (CSleep 5); EKill 1; ETick]).
  assert (@steps (demo_conf false) s0 [ETick; ECall (CSleep 5); EKill 1; ETick] (demo_run false [0; 0; 0] [ETick; ECall (CSleep 5); EKill 1; ETick])) as Hst.
  { apply exec_steps. replace s0 with (demo_start false [0; 0; 0]); [vm_compute; reflexivity|]. unfold demo_start. by rewrite H0. }
  split; [exact Hst|]. by destruct (H _ _ Hst) as (_ & He & _).
Defined.


Lemma sleep_wakes_on_time_witness :
  let s := demo_run false [0; 0] [ETick] in let s2 := demo_run false [0; 0] [ETick; ECall (CSleep 3); ETick; ETick] in
  (exists y, arr_get (ptable s2) (current_pid s) = Some y ∧ p_state y = PROC_DELAY) ∧
  awake (current_pid s) (demo_run false [0; 0] [ETick; ECall (CSleep 3); ETick; ETick; ETick]).
Proof.
  intros s s2.
  assert (exists r, @kstep (demo_conf false) (ECall (CSleep 3)) s = Some ((Blocked, r), demo_run false [0; 0] [ETick; ECall (CSleep 3)])) as [r E]
    by (eexists; vm_compute; reflexivity).
  destruct (@sleep_wakes_on_time (demo_conf false) (demo_ok false) [0; 0] (demo_start false [0; 0]) [ETick] s 3 r
    (demo_run false [0; 0] [ETick; ECall (CSleep 3)]) [ETick; ETick] s2) as [H1 H2].
  - repeat constructor; simpl; lia.
  - vm_compute; reflexivity.
  - apply exec_steps. vm_compute; reflexivity.
  - apply demo_enabled. vm_compute; reflexivity.
  - exact E.
  - apply exec_steps. vm_compute; reflexivity.
  - rewrite !not_elem_of_cons. split_and!; [done..|apply not_elem_of_nil].
  - vm_compute; reflexivity.
  - split; [exact H1|]. eapply H2; [vm_compute; reflexivity|apply demo_enabled; vm_compute; reflexivity|vm_compute; reflexivity].
Defined.



(** Killing a process that has not run yet leaves it in the ready queue: when
    its slot is used again the new process is there twice, and it gets the
    processor while it waits. Here it passes a semaphore whose value was 0 and
    which nobody has posted. *)
Example kill_new_breaks_wait :
  exists s0 s1 s2 s3 s4 r, @starts (demo_conf false) [0; 0; 0] s0 ∧
    @steps (demo_conf false) s0 [ETick; ECall (CSemInit 1 0)] s1 ∧
    @kstep (demo_conf false) (EKill 3) s1 = Some (r, s2) ∧
    @steps (demo_conf false) s2 [ECall (CCreate 0); ECall CYield; ECall (CSemWait (Some 0)); ECall CYield] s3 ∧
    current_pid s3 = 3 ∧ @kstep (demo_conf false) EResume s3 = Some ((Done 0, None), s4).
Proof.
  set (s1 := demo_run false [0; 0; 0] [ETick; ECall (CSemInit 1 0)]). set (s2 := default s1 (snd <$> @kstep (demo_conf false) (EKill 3) s1)).
  set (s3 := default s2 (@exec (demo_conf false) [ECall (CCreate 0); ECall CYield; ECall (CSemWait (Some 0)); ECall CYield] s2)).
  exists (demo_start false [0; 0; 0]), s1, s2, s3, (default s3 (snd <$> @kstep (demo_conf false) EResume s3)), (Done 0, None). split_and!.
  - vm_compute; reflexivity.
  - apply exec_steps. vm_compute; reflexivity.
  - vm_compute; reflexivity.
  - apply exec_steps. vm_compute; reflexivity.
  - vm_compute; reflexivity.
  - vm_compute; reflexivity.
Qed.
