(* ===== verification/Kframe.v ===== *)
(** * What the scheduler leaves alone

    A view [f] of the state that does not depend on the tables of the scheduler
    is the same before and after its operations, in any state. *)

From stdpp Require Import gmap.
From S2P Require Import Prelude Kqueue Kheap Ktimer Ksched Ksem Kmutex Kkill Kernel.
Open Scope Z_scope.

(** The view is the same after [m]. *)
Definition frame_of {X A} (f : kst -> X) (m : ST kst A) : Prop := forall s a s', m s = Some (a, s') -> f s' = f s.

(** The view does not depend on a queue. *)
Definition blind_q {X} (f : kst -> X) (q : qid) : Prop := forall m s, f (set_kqs (<[q := m]> (kqs s)) s) = f s.

(** The view depends neither on processes, nor timers, nor flags, nor ready queues. *)
Record blind {X} (f : kst -> X) : Prop := {
  b_pt x s : f (set_ptable x s) = f s;
  b_cur x s : f (set_current_pid x s) = f s;
  b_prev x s : f (set_prev_pid x s) = f s;
  b_save x s : f (set_ctx_save_process x s) = f s;
  b_resched x s : f (set_resched x s) = f s;
  b_did x s : f (set_did_resched x s) = f s;
  b_tm x s : f (set_ktm x s) = f s;
  b_ticks x s : f (set_kernel_ticks x s) = f s;
  b_partial x s : f (set_sched_partial_tick x s) = f s;
  b_refresh x s : f (set_timer_need_refresh x s) = f s;
  b_ready i : blind_q f (ReadyQ i);
}.

Create HintDb kframe discriminated.

Section frame.
Context {KC : KConfig} {X : Type} (f : kst -> X) (Hf : blind f).

Lemma frame_ret {A} (a : A) : frame_of f (mret a).
Proof. intros s b s' [= _ <-]. done. Qed.
Lemma frame_skip : frame_of f skip.
Proof. apply frame_ret. Qed.
Lemma frame_undef {A} : frame_of f (undef : ST kst A).
Proof. by intros s a s'. Qed.
Lemma frame_gets {A} (g : kst -> A) : frame_of f (gets g).
Proof. intros s b s' [= _ <-]. done. Qed.
Lemma frame_lift {A} (o : option A) : frame_of f (lift o).
Proof. intros s b s' E. unfold lift in E. destruct o; [by injection E as _ <-|done]. Qed.
Lemma frame_modify g : (forall s, f (g s) = f s) -> frame_of f (modify g).
Proof. intros H s b s' [= _ <-]. done. Qed.
Lemma frame_bind {A B} (m : ST kst A) (k : A -> ST kst B) : frame_of f m -> (forall a, frame_of f (k a)) -> frame_of f (m ≫= k).
Proof.
  intros Hm Hk s b s' E. unfold mbind, st_bind in E. destruct (m s) as [[a s1]|] eqn:Em; [|done].
  rewrite (Hk a s1 b s' E). by apply (Hm s a).
Qed.
Lemma frame_tmr {A} (m : ST tmrs A) : frame_of f (tmr m).
Proof. intros s b s' E. unfold tmr, zoom in E. destruct (m (ktm s)) as [[a t]|]; [|done]. injection E as _ <-. apply (b_tm f Hf). Qed.
Lemma frame_on_q {A} q (m : ST (queue Z) A) : blind_q f q -> frame_of f (on_q q m).
Proof.
  intros Hq s b s' E. unfold on_q, mbind, st_bind, gets, lift, modify in E.
  destruct (kqs s !! q) as [x|]; [|done]. destruct (m x) as [[a x']|]; [|done]. injection E as _ <-. apply Hq.
Qed.

Lemma frame_get_proc p : frame_of f (get_proc p).
Proof. apply frame_bind; [apply frame_gets|]. intros t. apply frame_lift. Qed.
Lemma frame_upd_proc p g : frame_of f (upd_proc p g).
Proof.
  apply frame_bind; [apply frame_get_proc|]. intros x. apply frame_bind; [apply frame_gets|]. intros t.
  apply frame_bind; [apply frame_lift|]. intros t'. apply frame_modify, (b_pt f Hf).
Qed.
End frame.

#[export] Hint Resolve frame_ret frame_skip frame_undef frame_gets frame_lift frame_tmr frame_on_q frame_get_proc frame_upd_proc
  b_pt b_cur b_prev b_save b_resched b_did b_tm b_ticks b_partial b_refresh b_ready : kframe.

(** Walks through a statement. *)
Ltac frame_step :=
  match goal with
  | |- frame_of _ (_ ≫= _) => apply frame_bind; [|intros ?]
  | |- frame_of _ (modify _) => apply frame_modify; intros ?
  | |- frame_of _ (if ?b then _ else _) => destruct b
  | |- frame_of _ (match ?x with _ => _ end) => destruct x
  | |- _ => solve [auto with kframe]
  end.
Ltac frame_walk := repeat frame_step.

Section ops.
Context {KC : KConfig} {X : Type} (f : kst -> X) (Hf : blind f).
Hint Resolve Hf : kframe.

Lemma frame_kerrno e : frame_of f (kerrno e).
Proof. unfold kerrno. frame_walk. Qed.
Lemma frame_fail e : frame_of f (fail e).
Proof. unfold fail, kerrno. frame_walk. Qed.
Lemma frame_wait_enq q p : blind_q f q -> frame_of f (wait_enq q p).
Proof. intros Hq. unfold wait_enq. frame_walk. Qed.
Lemma frame_wait_deq q : blind_q f q -> frame_of f (wait_deq q).
Proof. intros Hq. unfold wait_deq. frame_walk. Qed.
Lemma frame_wait_delq q p : blind_q f q -> frame_of f (wait_delq q p).
Proof. intros Hq. unfold wait_delq. frame_walk. apply (b_pt f Hf). Qed.
Lemma frame_ready_enq p : frame_of f (ready_enq p).
Proof. unfold ready_enq. frame_walk. apply frame_on_q, (b_ready f Hf). Qed.
Hint Resolve frame_kerrno frame_fail frame_wait_enq frame_wait_deq frame_wait_delq frame_ready_enq : kframe.

Lemma frame_flush fuel i ready : frame_of f (flush_loop fuel (ReadyQ i) ready).
Proof. revert ready. induction fuel as [|fuel IH]; intros ready; cbn [flush_loop]; frame_walk; apply frame_on_q, (b_ready f Hf). Qed.
Lemma frame_prio_loop n i : frame_of f (prio_loop n i).
Proof. revert i. induction n as [|n IH]; intros i; cbn [prio_loop]; frame_walk. apply frame_flush. Qed.
Hint Resolve frame_flush frame_prio_loop : kframe.
Lemma frame_scheduler : frame_of f scheduler.
Proof. unfold scheduler, sched_prio, sched_rr, requeue_current, run_process. frame_walk. Qed.
Lemma frame_restore : frame_of f restore_context.
Proof. unfold restore_context, pit_reset. frame_walk. Qed.
Hint Resolve frame_scheduler frame_restore : kframe.
Lemma frame_suspend g : frame_of f (suspend g).
Proof. unfold suspend, save_context. frame_walk. Qed.
Lemma frame_exit : frame_of f syscall_exit.
Proof. unfold syscall_exit, save_context. frame_walk. Qed.
Hint Resolve frame_suspend frame_exit : kframe.
Lemma frame_block q st g : blind_q f q -> frame_of f (process_block q st g).
Proof. intros Hq. unfold process_block. frame_walk. Qed.
Lemma frame_unblock q : blind_q f q -> frame_of f (process_unblock q).
Proof. intros Hq. unfold process_unblock. frame_walk. Qed.
Lemma frame_create p : frame_of f (sys_elf_process_create p).
Proof. unfold sys_elf_process_create, proc_create. frame_walk. Qed.
Lemma frame_finish o : frame_of f (finish o).
Proof. unfold finish. frame_walk. Qed.
Hint Resolve frame_block frame_unblock frame_create frame_finish : kframe.

(** Interrupts take processes out of any queue. *)
Lemma frame_handler_loop n i k : (forall q, blind_q f q) -> frame_of f (handler_loop n i k).
Proof.
  intros Hq. revert i k. induction n as [|n IH]; intros i k; cbn [handler_loop]; [apply frame_ret|]. unfold handle_timeout. frame_walk.
Qed.
Lemma frame_irq : (forall q, blind_q f q) -> frame_of f irq_entry.
Proof. intros Hq. unfold irq_entry, timer_int_handler, soft_tmr_handler. frame_walk. by apply frame_handler_loop. Qed.

Lemma frame_lift_bind {A B} (o : option A) (k : A -> ST kst B) : (forall a, o = Some a -> frame_of f (k a)) -> frame_of f (lift o ≫= k).
Proof. intros Hk s b s' (a & s1 & E1 & E2)%bind_inv. unfold lift in E1. destruct o as [a'|]; [|done]. injection E1 as -> <-. by apply (Hk a eq_refl s b). Qed.

(** [sys_kill] takes a process out of its queue. *)
Lemma frame_unlink p x : (forall q, blockq x = Some q -> p_state x = PROC_WAIT ∨ p_state x = PROC_TIMED_WAIT -> blind_q f q) -> frame_of f (kill_unlink p x).
Proof.
  intros Hq. unfold kill_unlink. destruct (p_state x) eqn:Es; try (by frame_walk).
  { unfold ready_of. frame_walk. }
  all: apply frame_lift_bind; intros q Eq; frame_walk; apply frame_wait_delq, Hq; auto.
Qed.
Lemma frame_kill_at p x s r s' :
  arr_get (ptable s) p = Some x -> (forall q, blockq x = Some q -> is_allocated x = true -> p_state x = PROC_WAIT ∨ p_state x = PROC_TIMED_WAIT -> blind_q f q) ->
  kstep (EKill p) s = Some (r, s') -> f s' = f s.
Proof.
  intros Ex Hq E. cbn [kstep] in E. apply bind_inv in E as (z & s1 & E1 & E). apply bind_inv in E as ([] & s2 & E2 & [= _ ->]). rewrite (frame_exit s1 tt s' E2).
  unfold sys_kill in E1. apply bind_inv in E1 as (y & s3 & E3 & E1).
  assert (y = x ∧ s3 = s) as [-> ->] by (unfold get_proc, mbind, st_bind, gets, lift in E3; rewrite Ex in E3; by simplify_eq).
  destruct (is_allocated x) eqn:Hal; [|by injection E1 as _ <-]. apply bind_inv in E1 as ([] & s3 & E3' & E1). apply (frame_unlink p x) in E3'; [|by auto].
  rewrite <- E3'. revert E1. set (m := process_invalidate p;; _). intros E1. assert (frame_of f m) as Hm by (unfold m, process_invalidate; frame_walk). by apply (Hm s3 z).
Qed.
Lemma frame_kill p : (forall q, blind_q f q) -> frame_of f (kstep (EKill p)).
Proof. intros Hq. cbn [kstep]. unfold sys_kill, kill_unlink, process_invalidate. frame_walk. Qed.

(** The calls that are about neither semaphores nor mutexes. *)
Definition plain_call (c : call) : bool :=
  match c with CYield | CSleep _ | CCreate _ | CExit | CStatus _ => true | _ => false end.
Lemma frame_plain c : plain_call c = true -> frame_of f (run_call c).
Proof.
  intros Hc. destruct c; try done; cbn [run_call]; unfold sys_yield, sys_sleep, sys_elf_exit, process_invalidate, sys_process_status; frame_walk.
Qed.

(** Semaphore calls, for a view that does not depend on semaphores. *)
Definition sem_call (c : call) : bool :=
  match c with
  | CSemInit _ _ | CSemOpen _ _ _ | CSemClose _ | CSemUnlink _ | CSemDestroy _ | CSemGetvalue _ | CSemWait _ | CSemTimedwait _ _
  | CSemTrywait _ | CSemPost _ => true
  | _ => false
  end.
Record blind_sem : Prop := {
  bs_heap x s : f (set_sem_heap x s) = f s;
  bs_map x s : f (set_sem_map x s) = f s;
  bs_q i : blind_q f (SemQ i);
}.
Context (Hs : blind_sem).
Lemma frame_upd_sem i g : frame_of f (upd_sem i g).
Proof. unfold upd_sem, get_sem. frame_walk. apply (bs_heap Hs). Qed.
Lemma frame_put_map i e : frame_of f (put_map i e).
Proof. unfold put_map. frame_walk. apply (bs_map Hs). Qed.
Lemma frame_sem_q {A} i (m : ST (queue Z) A) : frame_of f (on_q (SemQ i) m).
Proof. apply frame_on_q, (bs_q Hs). Qed.
Lemma frame_name_loop n i name : frame_of f (name_loop n i name).
Proof. revert i. induction n as [|n IH]; intros i; cbn [name_loop]; unfold get_sem; frame_walk. Qed.
Hint Resolve frame_upd_sem frame_put_map frame_sem_q frame_name_loop bs_q : kframe.
Lemma frame_sem c : sem_call c = true -> frame_of f (run_call c).
Proof.
  intros Hc. pose proof (bs_q Hs) as Hq.
  destruct c; try done; cbn [run_call]; unfold sys_sem_init, sys_sem_open, sys_sem_close, sys_sem_unlink, sys_sem_destroy, sys_sem_getvalue,
    sys_sem_wait_x, sys_sem_timedwait, sys_sem_trywait, sys_sem_post, sys_sem_destroy, new_sem, get_sem_by_semt, sem_busy, sem_acquired,
    get_semt_by_name, get_sem_by_name, clear_map, get_sem; frame_walk.
Qed.
Lemma frame_sem_resume i self : frame_of f (sem_acquired i) ∧ frame_of f (sem_timed_resume i self).
Proof. unfold sem_timed_resume, sem_acquired, get_sem. split; frame_walk. Qed.
End ops.

(** Mutex calls, for a view that does not depend on mutexes. *)
Record blind_mutex {X} (f : kst -> X) : Prop := {
  bm_heap x s : f (set_mutex_heap x s) = f s;
  bm_q i : blind_q f (MutexQ i);
}.

Section mutexes.
Context {KC : KConfig} {X : Type} (f : kst -> X) (Hf : blind f) (Hm : blind_mutex f).
Hint Resolve frame_kerrno frame_block frame_unblock Hf bm_q : kframe.

Lemma frame_upd_mx i g : frame_of f (upd_mx i g).
Proof. unfold upd_mx, get_mx. frame_walk. apply (bm_heap f Hm). Qed.
Lemma frame_mutex_q {A} i (m : ST (queue Z) A) : frame_of f (on_q (MutexQ i) m).
Proof. apply frame_on_q, (bm_q f Hm). Qed.
Hint Resolve frame_upd_mx frame_mutex_q : kframe.
Lemma frame_lock_loop i trylock : frame_of f (mutex_lock_loop i trylock).
Proof. unfold mutex_lock_loop, mutex_take, get_mx. frame_walk. Qed.
Hint Resolve frame_lock_loop : kframe.
Lemma frame_mutex c : plain_call c || sem_call c = false -> frame_of f (run_call c).
Proof.
  intros Hc. destruct c; try done; cbn [run_call]; unfold sys_pthread_mutex_destroy, sys_pthread_mutex_lock, sys_pthread_mutex_trylock,
    sys_pthread_mutex_unlock, pthread_mutex_lock_basic, mutex_index, mutex_release, sys_pthread_mutex_init, get_mx; frame_walk.
Qed.
End mutexes.
