(* ===== verification/Ksync.v ===== *)
(** * What mutexes and semaphores promise

    A locked mutex stays with its owner until it is unlocked, and unlocking it
    wakes a process that waits. The value of a semaphore counts its tokens or
    the processes that wait for one, as long as no process waits with a time
    limit; with a time limit a wakeup can be lost. *)

From stdpp Require Import gmap.
From S2P Require Import Prelude Kqueue Kheap Ktimer Ksched Ksem Kmutex Kinv Kops Kernel Ksafe Kinit Kreach Kframe.
Open Scope Z_scope.

(** ** Mutual exclusion *)

Section mutex.
Context {KC : KConfig}.
Implicit Types (s : kst).

(** Mutex [i], and who holds it. *)
Definition mutex_at (i : Z) s : option mutexinfo := arr_get (mutex_heap s) i.
Definition locked_mutex (x : mutexinfo) : Prop := mx_allocated x = true ∧ mx_locked x ≠ 0 ∧ mx_type x ≠ PTHREAD_MUTEX_RECURSIVE.

Lemma mutex_blind i : blind (mutex_at i).
Proof. constructor; try done. Qed.
Lemma mutex_blind_sem i : blind_sem (mutex_at i).
Proof. constructor; try done. Qed.

Definition keeps {A} i x (m : ST kst A) : Prop := forall s a s', mutex_at i s = Some x -> m s = Some (a, s') -> mutex_at i s' = Some x.

Lemma keeps_frame {A} i x (m : ST kst A) : frame_of (mutex_at i) m -> keeps i x m.
Proof. intros H s a s' E Em. by rewrite (H s a s' Em). Qed.
Lemma keeps_mbind {A B} i x (m : ST kst A) (k : A -> ST kst B) : keeps i x m -> (forall a, keeps i x (k a)) -> keeps i x (m ≫= k).
Proof.
  intros Hm Hk s b s' E Eb. unfold mbind, st_bind in Eb. destruct (m s) as [[a s1]|] eqn:Em; [|done].
  apply (Hk a s1 b s'); [|done]. by apply (Hm s a s1).
Qed.
Lemma keeps_upd i x j g : j ≠ i -> keeps i x (upd_mx j g).
Proof.
  intros Hj s a s' E Em. unfold upd_mx, get_mx, mbind, st_bind, gets, lift, modify in Em. destruct (arr_get (mutex_heap s) j) as [y|]; [|done].
  destruct (arr_set (mutex_heap s) j (g y)) as [h|] eqn:Eh; [|done]. injection Em as _ <-. unfold mutex_at. simpl. by rewrite (arr_get_set_ne _ _ _ _ _ Eh).
Qed.

(** A new mutex is another one. *)
Lemma keeps_init i x mutex type : mx_allocated x = true -> keeps i x (sys_pthread_mutex_init mutex type).
Proof.
  intros Hx. unfold sys_pthread_mutex_init. destruct mutex as [m|]; [|apply keeps_frame, frame_ret]. cbn zeta.
  destruct (bool_decide _); [apply keeps_frame; pose proof (mutex_blind i); frame_walk; by apply frame_kerrno|].
  intros s a s' E Em. unfold mbind at 1, st_bind at 1, gets in Em. destruct (list_find _ (mutex_heap s)) as [[j y]|] eqn:Ef; [|by injection Em as _ <-].
  apply list_find_Some in Ef as (Ej & Hy & _). rewrite <- arr_get_nat in Ej.
  assert (Z.of_nat j ≠ i) as Hj by (intros <-; unfold mutex_at in E; congruence).
  refine (keeps_mbind i x _ _ (keeps_upd i x _ _ Hj) _ s a s' E Em). intros []. apply keeps_frame. pose proof (mutex_blind i). frame_walk. by apply frame_on_q.
Qed.

Lemma keeps_index i x mutex : mx_allocated x = true -> keeps i x (mutex_index mutex).
Proof.
  intros Hx. unfold mutex_index. destruct mutex as [m|]; [|apply keeps_frame, frame_ret]. destruct (bool_decide _); [apply keeps_frame, frame_ret|].
  apply keeps_mbind; [destruct (bool_decide _); [by apply keeps_init|apply keeps_frame, frame_ret]|].
  intros [r [k|]]; apply keeps_frame; unfold get_mx; frame_walk.
Qed.

(** The index of a mutex that is in use is the one that was given. *)
Lemma mutex_index_is i x s : mutex_at i s = Some x -> mx_allocated x = true -> i ≠ PTHREAD_MUTEX_INITIALIZER -> i < MAX_PTHREAD_MUTEX ->
  mutex_index (Some i) s = Some (inr i, s).
Proof.
  intros E Hx Hi Hm. pose proof (arr_get_range _ _ _ E). unfold mutex_index. rewrite bool_decide_eq_false_2 by lia. rewrite bool_decide_eq_false_2 by done.
  unfold mutex_at in E. unfold get_mx, mbind, st_bind, mret, st_ret, gets, lift. rewrite E. by rewrite Hx.
Qed.

Lemma index_of mutex s j s' : mutex_index mutex s = Some (inr j, s') -> mutex = Some j ∨ mutex = Some PTHREAD_MUTEX_INITIALIZER.
Proof.
  unfold mutex_index. destruct mutex as [m|]; [|done]. case_bool_decide; [done|]. case_bool_decide as Hm; [subst; by right|].
  unfold get_mx, mbind, st_bind, mret, st_ret, gets, lift. destruct (arr_get _ m) as [x|]; [|done]. destruct (mx_allocated x); [|done].
  intros [= <- _]. by left.
Qed.

(** Nobody else gets a locked mutex. *)
Lemma lock_loop_locked i x trylock s r s' :
  mutex_at i s = Some x -> locked_mutex x -> mutex_lock_loop i trylock s = Some (r, s') ->
  r = (if trylock then Done EBUSY else Blocked) ∧ mutex_at i s' = Some x.
Proof.
  intros E (Hx & Hl & Ht) Em. unfold mutex_lock_loop, get_mx in Em. unfold mbind, st_bind, mret, st_ret, gets, lift in Em. unfold mutex_at in E. rewrite E in Em.
  rewrite !bool_decide_eq_true_2 in Em by auto. simpl in Em. destruct trylock.
  - by injection Em as <- <-.
  - destruct (process_block _ _ _ s) as [[[] s1]|] eqn:Eb; [|done]. injection Em as <- <-. split; [done|]. rewrite <- E.
    apply (frame_block (mutex_at i) (mutex_blind i) (MutexQ i) PROC_WAIT (FMutex i)) with (2 := Eb). done.
Qed.

Lemma keeps_lock_loop i x j trylock : locked_mutex x -> keeps i x (mutex_lock_loop j trylock).
Proof.
  intros Hx s r s' E Em. destruct (decide (j = i)) as [->|Hj]; [by eapply lock_loop_locked|]. revert s r s' E Em. change (keeps i x (mutex_lock_loop j trylock)).
  pose proof (mutex_blind i). unfold mutex_lock_loop, mutex_take. apply keeps_mbind; [apply keeps_frame; unfold get_mx; frame_walk|]. intros y.
  apply keeps_mbind; [apply keeps_frame, frame_gets|]. intros c. destruct (_ && _).
  - apply keeps_frame. destruct trylock; frame_walk. by apply frame_block.
  - apply keeps_mbind; [apply keeps_frame, frame_gets|]. intros c'. apply keeps_mbind; [by apply keeps_upd|]. intros []. apply keeps_frame, frame_ret.
Qed.

Lemma keeps_release i x j : j ≠ i -> keeps i x (mutex_release j).
Proof.
  intros Hj. pose proof (mutex_blind i) as Hb. unfold mutex_release. apply keeps_mbind; [apply keeps_frame; unfold get_mx; frame_walk|]. intros y.
  apply keeps_mbind; [apply keeps_frame, frame_gets|]. intros c. destruct (_ && _); [apply keeps_frame, frame_ret|].
  apply keeps_mbind; [by apply keeps_upd|]. intros []. apply keeps_mbind; [apply keeps_frame; unfold get_mx; frame_walk|]. intros z.
  destruct (bool_decide _); [|apply keeps_frame, frame_ret]. apply keeps_mbind; [by apply keeps_upd|]. intros [].
  apply keeps_frame. frame_walk; [by apply frame_on_q|by apply frame_unblock].
Qed.

(** A locked mutex is not destroyed. *)
Lemma keeps_destroy i x mutex : locked_mutex x -> keeps i x (sys_pthread_mutex_destroy mutex).
Proof.
  intros (Hx & Hl & _) s r s' E Em. unfold sys_pthread_mutex_destroy in Em. destruct mutex as [j|]; [|by injection Em as _ <-].
  destruct (bool_decide _); [by injection Em as _ <-|]. destruct (bool_decide _); [by injection Em as _ <-|].
  destruct (decide (j = i)) as [->|Hj].
  - unfold get_mx, mbind, st_bind, mret, st_ret, gets, lift in Em. unfold mutex_at in E. rewrite E in Em. rewrite Hx in Em. simpl in Em.
    rewrite bool_decide_eq_true_2 in Em by done. by injection Em as _ <-.
  - revert E Em. revert s r s'. change (keeps i x (y ← get_mx j; if negb (mx_allocated y) then mret (EINVAL, Some j) else
      if bool_decide (mx_locked y ≠ 0) then mret (EBUSY, Some j) else upd_mx j (set_mx_allocated false);; mret (0, Some PTHREAD_MUTEX_INVALID))).
    apply keeps_mbind; [apply keeps_frame; unfold get_mx; frame_walk|]. intros y. destruct (negb _); [apply keeps_frame, frame_ret|].
    destruct (bool_decide _); [apply keeps_frame, frame_ret|]. apply keeps_mbind; [by apply keeps_upd|]. intros []. apply keeps_frame, frame_ret.
Qed.

Lemma init_other i x mutex type s j s' :
  mutex_at i s = Some x -> mx_allocated x = true -> sys_pthread_mutex_init mutex type s = Some ((0, Some j), s') -> j ≠ i.
Proof.
  intros E Hx Em. unfold sys_pthread_mutex_init in Em. destruct mutex as [m|]; [|done]. cbn zeta in Em. destruct (bool_decide _).
  { unfold mbind, st_bind in Em. by destruct (kerrno EINVAL s) as [[[] s1]|]. }
  unfold mbind, st_bind, gets in Em. destruct (list_find _ (mutex_heap s)) as [[k y]|] eqn:Ef; [|done].
  apply list_find_Some in Ef as (Ej & Hy & _). rewrite <- arr_get_nat in Ej. unfold mutex_at in E.
  destruct (upd_mx _ _ s) as [[[] s1]|]; [|done]. destruct (on_q _ _ s1) as [[[] s2]|]; [|done]. injection Em as <- _. intros <-. congruence.
Qed.

Lemma index_other i x mutex s j s' :
  mutex_at i s = Some x -> mx_allocated x = true -> mutex ≠ Some i -> mutex_index mutex s = Some (inr j, s') -> j ≠ i.
Proof.
  intros E Hx Hne Em. destruct (index_of _ _ _ _ Em) as [->| ->]; [congruence|]. unfold mutex_index in Em.
  rewrite bool_decide_eq_false_2 in Em by tauto. rewrite bool_decide_eq_true_2 in Em by done. unfold mbind at 1, st_bind at 1 in Em.
  destruct (sys_pthread_mutex_init _ _ s) as [[[r m] s1]|] eqn:Ei; [|done]. destruct r; try done. destruct m as [k|]; [|done].
  assert (k ≠ i) as Hk by (by eapply init_other). unfold get_mx, mbind, st_bind, mret, st_ret, gets, lift in Em.
  destruct (arr_get _ k) as [y|]; [|done]. destruct (mx_allocated y); [|done]. by injection Em as <- _.
Qed.

Lemma keeps_unlock i x mutex : mx_allocated x = true -> mutex ≠ Some i -> keeps i x (sys_pthread_mutex_unlock mutex).
Proof.
  intros Hx Hne s r s' E Em. unfold sys_pthread_mutex_unlock, mbind at 1, st_bind at 1 in Em.
  destruct (mutex_index mutex s) as [[a s1]|] eqn:Ei; [|done]. pose proof (keeps_index i x mutex Hx s a s1 E Ei) as E1.
  destruct a as [e|j]; [by injection Em as _ <-|]. pose proof (index_other i x mutex s j s1 E Hx Hne Ei) as Hj.
  refine (keeps_mbind i x _ _ (keeps_release i x j Hj) _ s1 r s' E1 Em). intros z. apply keeps_frame, frame_ret.
Qed.

Definition is_mutex_call (c : call) : bool := negb (plain_call c || sem_call c).

Lemma keeps_call i x c : locked_mutex x -> c ≠ CMutexUnlock (Some i) -> keeps i x (run_call c).
Proof.
  intros Hx Hc. destruct (plain_call c) eqn:Ep; [by apply keeps_frame, frame_plain; [apply mutex_blind|]|].
  destruct (sem_call c) eqn:Es; [by apply keeps_frame, frame_sem; [apply mutex_blind|apply mutex_blind_sem|]|].
  destruct c; try done; cbn [run_call].
  - apply keeps_mbind; [apply keeps_init, Hx|]. intros r. apply keeps_frame, frame_ret.
  - apply keeps_mbind; [by apply keeps_destroy|]. intros r. apply keeps_frame, frame_ret.
  - apply keeps_mbind; [apply keeps_index, Hx|]. intros [e|j]; [apply keeps_frame, frame_ret|].
    apply keeps_mbind; [by apply keeps_lock_loop|]. intros o. apply keeps_frame, frame_ret.
  - apply keeps_mbind; [apply keeps_index, Hx|]. intros [e|j]; [apply keeps_frame, frame_ret|].
    apply keeps_mbind; [by apply keeps_lock_loop|]. intros o. apply keeps_frame, frame_ret.
  - apply keeps_mbind; [apply keeps_unlock; [apply Hx|congruence]|]. intros r. apply keeps_frame, frame_ret.
Qed.

Lemma keeps_step i x e : locked_mutex x -> e ≠ ECall (CMutexUnlock (Some i)) -> keeps i x (kstep e).
Proof.
  intros Hx He. pose proof (mutex_blind i) as Hb. destruct e as [c| | |p]; [cbn [kstep]..|].
  - apply keeps_mbind; [apply keeps_call; [done|congruence]|]. intros r. apply keeps_frame. frame_walk. by apply frame_finish.
  - apply keeps_mbind; [apply keeps_frame, frame_gets|]. intros p. apply keeps_mbind; [apply keeps_frame, frame_get_proc|]. intros y.
    apply keeps_mbind; [apply keeps_frame, frame_lift|]. intros f. apply keeps_mbind; [by apply keeps_frame, frame_upd_proc|]. intros [].
    apply keeps_mbind; [|intros o; apply keeps_frame; frame_walk; by apply frame_finish].
    destruct f; cbn [resume]; [apply keeps_frame, frame_ret|..|apply keeps_frame, frame_undef|apply keeps_frame, frame_undef].
    + apply keeps_frame. by apply frame_sem_resume; [|apply mutex_blind_sem|exact 0].
    + apply keeps_frame. by apply frame_sem_resume; [|apply mutex_blind_sem].
    + by apply keeps_lock_loop.
  - apply keeps_frame. frame_walk. by apply frame_irq.
  - apply keeps_frame. by apply frame_kill.
Qed.

End mutex.

(** ** Unlocking *)

Section unlock.
Context {KC : KConfig} {KOK : KConfigOk KC}.
Implicit Types (s : kst) (q : qid) (p : Z) (Q : qmap) (T : list soft_tmr).

(** A process that waits in a queue. *)
Definition waits p q s : Prop := exists z, arr_get (ptable s) p = Some z ∧ (p_state z = PROC_WAIT ∨ p_state z = PROC_TIMED_WAIT) ∧ blockq z = Some q.

Lemma exit_awake Q T s p :
  kinv Q T s -> cur_ctx s = None -> awake p s -> wp syscall_exit s (λ _ s', awake p s').
Proof.
  intros H Hctx (y & E & Hy). destruct (i_cur _ _ _ H) as (x & Ex & _). assert (kctx x = None) as Hk by (unfold cur_ctx in Hctx; by rewrite Ex in Hctx).
  eapply wp_mono; [by apply (syscall_exit_spec Q T s x)|]. intros [] s' (n & Q' & _ & _ & _ & _ & [(_ & -> & _)|(_ & _ & Hv)]); [by exists y|].
  destruct (Hv p y E) as (y' & E' & Hs & _). exists y'. split; [done|]. rewrite Hs. unfold next_state. repeat case_bool_decide; auto.
Qed.

(** Who leaves a wait queue was waiting there, and is ready then. *)
Lemma unblocked_awake Q T s q b s' :
  kinv Q T s -> is_wait q = true -> unblocked Q T s q b s' -> exists p, waits p q s ∧ awake p s'.
Proof.
  intros [H _ _ _] Hw (r & y & x' & l' & [Hl _] & Ey & ((S1 & _) & _) & Ept & _). exists r. split.
  - exists y. split; [done|]. assert (r ∈ Q q) as Hin by (rewrite Hl; by left). pose proof (core_in _ _ _ _ _ _ H Ey Hin) as Hh.
    pose proof (c_pcb _ _ _ H r y Ey) as Hok. destruct (home_valid _ _ _ Hok Hh) as (Hid & _ & Hal). unfold home in Hh.
    rewrite Hal, bool_decide_eq_false_2 in Hh by done. destruct (p_state y); auto; try discriminate Hh; injection Hh as <-; done.
  - exists x'. rewrite Ept, (put_proc_eq r x' y s Ey). split; [done|]. left. exact S1.
Qed.

Lemma wp_upd_mx s i x g (P : unit -> kst -> Prop) :
  mutex_at i s = Some x -> P tt (set_mutex_heap (<[Z.to_nat i := g x]> (mutex_heap s)) s) -> wp (upd_mx i g) s P.
Proof.
  intros E HP. pose proof (arr_get_range _ _ _ E). unfold upd_mx, get_mx. wp_pure. eapply wp_lift; [exact E|]. wp_pure. apply wp_bind.
  eapply wp_lift; [by apply arr_set_in|]. by wp_pure.
Qed.

Definition unlocked (x : mutexinfo) : mutexinfo := set_mx_owner (-1) (set_mx_locked 0 x).

Lemma release_spec Q T s i x :
  kinv Q T s -> 0 <= i < MAX_PTHREAD_MUTEX -> mutex_at i s = Some x -> mx_type x ≠ PTHREAD_MUTEX_RECURSIVE ->
  wp (mutex_release i) s (λ r s', r = 0 ∧ mutex_at i s' = Some (unlocked x) ∧ (exists Q' T', done_post Q T s Q' T' s') ∧
    (Q (MutexQ i) ≠ [] -> exists p, waits p (MutexQ i) s ∧ awake p s')).
Proof.
  intros H Hi E Ht. pose proof (arr_get_range _ _ _ E) as Hr. unfold mutex_release. apply wp_bind. eapply wp_get_mx; [exact E|]. wp_pure.
  rewrite (bool_decide_eq_false_2 (mx_type x = _)) by done. cbn [andb]. apply wp_bind. eapply wp_upd_mx; [exact E|]. cbn beta iota.
  set (s1 := set_mutex_heap _ s). assert (mutex_at i s1 = Some (set_mx_locked 0 x)) as E1 by (eapply arr_get_set; by apply arr_set_in).
  apply wp_bind. eapply wp_get_mx; [exact E1|]. rewrite bool_decide_eq_true_2 by done. apply wp_bind. eapply wp_upd_mx; [exact E1|].
  fold (unlocked x). set (s2 := set_mutex_heap _ s1). assert (mutex_at i s2 = Some (unlocked x)) as E2.
  { eapply arr_get_set. apply arr_set_in. simpl. rewrite length_insert. lia. }
  assert (done_post Q T s Q T s2) as H2.
  { apply done_objs; simpl; auto; [apply (c_sems _ _ _ (i_core _ _ _ H))|]. by rewrite !length_insert. }
  apply wp_bind. eapply count_spec; [apply (c_qs _ _ _ (i_core _ _ _ (dn_inv _ _ _ _ _ _ H2)))|done|].
  apply wp_bind. case_bool_decide as Hn.
  - eapply wp_mono; [apply (unblock_done Q T s2 (MutexQ i)); try done; [apply H2|intros Hq; by rewrite Hq in Hn]|].
    intros [] s3 (Q' & T' & H3 & Hu). apply wp_ret. split_and!; [done| |exists Q', T'; by eapply done_trans|].
    + destruct Hu as (r & y & x' & l' & _ & _ & _ & _ & _ & _ & Hd & _). unfold mutex_at. rewrite (d_mutexes _ _ Hd). exact E2.
    + intros _. exact (unblocked_awake Q T s2 (MutexQ i) _ s3 (dn_inv _ _ _ _ _ _ H2) eq_refl Hu).
  - apply wp_ret, wp_ret. split_and!; [done|done|by exists Q, T|]. intros Hq. exfalso. apply Hn. destruct (Q (MutexQ i)); [done|simpl; lia].
Qed.

(** Unlocking a mutex frees it, and if processes wait for it then one of them
    becomes ready. *)
Theorem mutex_unlock_wakes (ps : list Z) s0 es s i x y r s' :
  Forall (λ p, 0 <= p < N_PRIO) ps -> starts ps s0 -> steps s0 es s -> enabled (ECall (CMutexUnlock (Some i))) s ->
  mutex_at i s = Some x -> mx_allocated x = true -> mx_type x ≠ PTHREAD_MUTEX_RECURSIVE -> kqs s !! MutexQ i = Some y ->
  kstep (ECall (CMutexUnlock (Some i))) s = Some (r, s') ->
  r = (Done 0, Some i) ∧ mutex_at i s' = Some (unlocked x) ∧ (0 < item_count y -> exists p, waits p (MutexQ i) s ∧ awake p s').
Proof.
  intros Hps H0 Hst (Hctx & Hid & _) E Hx Ht Ey Ek. destruct (run_good ps s0 es s Hps H0 Hst) as (Q & T & [H _] & _).
  assert (0 <= i < MAX_PTHREAD_MUTEX) as Hi. { apply arr_get_range in E. rewrite (c_mutexes _ _ _ (i_core _ _ _ H)) in E. lia. }
  assert (i ≠ PTHREAD_MUTEX_INITIALIZER) as Hne by (unfold PTHREAD_MUTEX_INITIALIZER; pose proof ok_mutex; lia).
  destruct (c_qs _ _ _ (i_core _ _ _ H) (MutexQ i) Hi) as (y' & Ey' & Hq). assert (y' = y) as -> by congruence. pose proof (qok_count _ _ _ _ Hq) as Hcnt.
  pose proof (release_spec Q T s i x H Hi E Ht) as Hr. apply wp_run in Hr as (z & s1 & Er & -> & E1 & (Q1 & T1 & H1) & Hwake).
  cbn [kstep run_call] in Ek. unfold sys_pthread_mutex_unlock, mbind, st_bind in Ek. rewrite (mutex_index_is i x) in Ek by (done || lia).
  rewrite Er in Ek. cbn [mret st_ret fst snd finish] in Ek. destruct (syscall_exit s1) as [[[] s2]|] eqn:Ex; [|done]. injection Ek as <- <-.
  split; [done|]. split; [by rewrite (frame_exit (mutex_at i) (mutex_blind i) s1 tt s2 Ex)|]. intros Hpos.
  destruct Hwake as (p & Hp & Ha); [intros Hq'; rewrite Hq' in Hcnt; simpl in Hcnt; lia|]. exists p. split; [done|].
  assert (cur_ctx s1 = None) as Hctx1.
  { destruct (i_cur _ _ _ H) as (c & Ec & _). destruct (dn_self _ _ _ _ _ _ H1 c Ec) as (c' & Ec' & Hk & _). unfold cur_ctx in *.
    rewrite (dn_cur _ _ _ _ _ _ H1), Ec'. rewrite Ec in Hctx. simpl in *. congruence. }
  pose proof (exit_awake Q1 T1 s1 p (dn_inv _ _ _ _ _ _ H1) Hctx1 Ha) as Hfin. apply wp_run in Hfin as ([] & s3 & E3 & Hfin). congruence.
Qed.
End unlock.


Lemma mutex_unlock_wakes_witness :
  let es := [ETick; ECall (CMutexInit (Some 0) None); ECall (CMutexLock (Some 0)); ETick; ECall (CMutexLock (Some 0)); ETick] in
  exists r s', @kstep (demo_conf false) (ECall (CMutexUnlock (Some 0))) (demo_run false [0; 0] es) = Some (r, s') ∧
    r = (Done 0, Some 0) ∧ exists p, waits p (MutexQ 0) (demo_run false [0; 0] es) ∧ awake p s'.
Proof.
  intros es. set (s := demo_run false [0; 0] es).
  exists (Done 0, Some 0), (default s (snd <$> @kstep (demo_conf false) (ECall (CMutexUnlock (Some 0))) s)). split; [vm_compute; reflexivity|].
  destruct (@mutex_unlock_wakes (demo_conf false) (demo_ok false) [0; 0] (demo_start false [0; 0]) es s 0 (MkMutex true 1 PTHREAD_MUTEX_DEFAULT 1)
    (MkQueue 4 1 0 1 [2; 0; 0; 0]) (Done 0, Some 0) (default s (snd <$> @kstep (demo_conf false) (ECall (CMutexUnlock (Some 0))) s))) as (_ & _ & H).
  - repeat constructor; simpl; lia.
  - vm_compute; reflexivity.
  - apply exec_steps. vm_compute; reflexivity.
  - apply demo_enabled. vm_compute; reflexivity.
  - vm_compute; reflexivity.
  - done.
  - done.
  - vm_compute; reflexivity.
  - vm_compute; reflexivity.
  - split; [done|]. apply H. done.
Defined.
