(* ===== verification/Kcount.v ===== *)
(** * The value of a semaphore

    Without time limits the value of a semaphore is the number of its tokens,
    or the number of processes that wait for one, negated. *)

From stdpp Require Import gmap.
From S2P Require Import Prelude Kqueue Kheap Ktimer Ksched Ksem Kmutex Kinv Kops Kkill Kernel Ksafe Kinit Kreach Kframe.
Open Scope Z_scope.

(** ** Nobody waits with a time limit *)

Definition untimed (x : pcb) : Prop := p_state x ≠ PROC_TIMED_WAIT ∧ forall i t, kctx x ≠ Some (FSemTimed i t).
Definition no_timed (s : kst) : Prop := forall p x, arr_get (ptable s) p = Some x -> untimed x.

Definition stable {A} (m : ST kst A) : Prop := forall s a s', no_timed s -> m s = Some (a, s') -> no_timed s'.
Create HintDb kstable discriminated.

Section stable.
Context {KC : KConfig}.

Lemma stable_bind {A B} (m : ST kst A) (k : A -> ST kst B) : stable m -> (forall a, stable (k a)) -> stable (m ≫= k).
Proof.
  intros Hm Hk s b s' H E. unfold mbind, st_bind in E. destruct (m s) as [[a s1]|] eqn:Em; [|done].
  apply (Hk a s1 b s'); [|done]. by apply (Hm s a s1).
Qed.
Lemma stable_ret {A} (a : A) : stable (mret a).
Proof. intros s b s' H [= _ <-]. done. Qed.
Lemma stable_undef {A} : stable (undef : ST kst A).
Proof. by intros s a s'. Qed.
Lemma stable_gets {A} (g : kst -> A) : stable (gets g).
Proof. intros s b s' H [= _ <-]. done. Qed.
Lemma stable_lift {A} (o : option A) : stable (lift o).
Proof. intros s b s' H E. unfold lift in E. destruct o; [by injection E as _ <-|done]. Qed.
Lemma stable_modify g : (forall s, ptable (g s) = ptable s) -> stable (modify g).
Proof. intros Hg s b s' H [= _ <-]. unfold no_timed. by rewrite Hg. Qed.
Lemma stable_tmr {A} (m : ST tmrs A) : stable (tmr m).
Proof. intros s b s' H E. unfold tmr, zoom in E. destruct (m (ktm s)) as [[a t]|]; [|done]. by injection E as _ <-. Qed.
Lemma stable_on_q {A} q (m : ST (queue Z) A) : stable (on_q q m).
Proof.
  intros s b s' H E. unfold on_q, mbind, st_bind, gets, lift, modify in E.
  destruct (kqs s !! q) as [x|]; [|done]. destruct (m x) as [[a x']|]; [|done]. by injection E as _ <-.
Qed.
Lemma stable_get_proc p : stable (get_proc p).
Proof. apply stable_bind; [apply stable_gets|]. intros t. apply stable_lift. Qed.
Lemma stable_upd_proc p g : (forall x, untimed x -> untimed (g x)) -> stable (upd_proc p g).
Proof.
  intros Hg s b s' H E. unfold upd_proc, get_proc, mbind, st_bind, gets, lift, modify in E. destruct (arr_get (ptable s) p) as [x|] eqn:Ex; [|done].
  destruct (arr_set (ptable s) p (g x)) as [t|] eqn:Et; [|done]. injection E as _ <-. intros r y Ey. simpl in Ey.
  destruct (decide (r = p)) as [->|Hr]; [rewrite (arr_get_set _ _ _ _ Et) in Ey; injection Ey as <-; by apply Hg, (H p)|].
  rewrite (arr_get_set_ne _ _ _ _ _ Et) in Ey by auto. by apply (H r).
Qed.
Lemma stable_prios pr : stable (modify (set_prios pr)).
Proof.
  intros s b s' H [= _ <-] p x E. pose proof (arr_get_range _ _ _ E). rewrite arr_get_lookup in E by lia. simpl in E.
  apply lookup_zip_with_Some in E as (z & y & -> & _ & Ey). rewrite <- arr_get_lookup in Ey by lia. destruct (H p y Ey). by split.
Qed.
End stable.

#[export] Hint Resolve stable_ret stable_undef stable_gets stable_lift stable_tmr stable_on_q stable_get_proc stable_prios : kstable.
Ltac stable_step :=
  match goal with
  | |- stable (_ ≫= _) => apply stable_bind; [|intros ?]
  | |- stable (if ?b then _ else _) => destruct b
  | |- stable (match ?x with _ => _ end) => destruct x
  | |- stable _ => solve [auto with kstable]
  | |- stable skip => apply stable_ret
  | |- stable (modify _) => apply stable_modify; reflexivity
  | |- stable (upd_proc _ _) => apply stable_upd_proc; intros ? []; split; simpl; auto; congruence
  end.
Ltac stable_walk := repeat stable_step.

Section ops.
Context {KC : KConfig}.

Lemma stable_kerrno e : stable (kerrno e).
Proof. unfold kerrno. stable_walk. Qed.
Lemma stable_fail e : stable (fail e).
Proof. unfold fail, kerrno. stable_walk. Qed.
Lemma stable_flush fuel q ready : stable (flush_loop fuel q ready).
Proof. revert ready. induction fuel as [|fuel IH]; intros ready; cbn [flush_loop]; stable_walk. Qed.
Lemma stable_prio_loop n i : stable (prio_loop n i).
Proof. revert i. induction n as [|n IH]; intros i; cbn [prio_loop]; stable_walk. apply stable_flush. Qed.
Hint Resolve stable_kerrno stable_fail stable_flush stable_prio_loop : kstable.
Lemma stable_scheduler : stable scheduler.
Proof. unfold scheduler, sched_prio, sched_rr, requeue_current, run_process, ready_enq. stable_walk. Qed.
Lemma stable_restore : stable restore_context.
Proof. unfold restore_context, pit_reset. stable_walk. Qed.
Hint Resolve stable_scheduler stable_restore : kstable.
Definition untimed_frame (g : frame) : Prop := forall i t, g ≠ FSemTimed i t.
Lemma stable_save p g : (forall i t, g ≠ Some (FSemTimed i t)) -> stable (save_context p g).
Proof. intros Hg. unfold save_context. apply stable_upd_proc. intros x [Hx _]. by split. Qed.
Lemma stable_suspend g : untimed_frame g -> stable (suspend g).
Proof. intros Hg. unfold suspend. stable_walk. apply stable_save. intros i t [= E]. by apply (Hg i t). Qed.
Lemma stable_exit : stable syscall_exit.
Proof. unfold syscall_exit. stable_walk. by apply stable_save. Qed.
Hint Resolve stable_exit : kstable.
Lemma stable_block q g : untimed_frame g -> stable (process_block q PROC_WAIT g).
Proof. intros Hg. unfold process_block, wait_enq. stable_walk. by apply stable_suspend. Qed.
Lemma stable_unblock q : stable (process_unblock q).
Proof. unfold process_unblock, wait_deq, ready_enq. stable_walk. Qed.
Lemma stable_finish o : stable (finish o).
Proof. unfold finish. stable_walk. Qed.
Hint Resolve stable_unblock stable_finish : kstable.
Lemma stable_handler n i k : stable (handler_loop n i k).
Proof. revert i k. induction n as [|n IH]; intros i k; cbn [handler_loop]; unfold handle_timeout, wait_delq, ready_enq; stable_walk. Qed.
Hint Resolve stable_handler : kstable.
Lemma stable_irq : stable irq_entry.
Proof. unfold irq_entry, timer_int_handler, soft_tmr_handler. stable_walk. Qed.

Definition timed_call (c : call) : bool := match c with CSemTimedwait _ _ => true | _ => false end.

Lemma stable_upd_sem i g : stable (upd_sem i g).
Proof. unfold upd_sem, get_sem. stable_walk. Qed.
Lemma stable_upd_mx i g : stable (upd_mx i g).
Proof. unfold upd_mx, get_mx. stable_walk. Qed.
Lemma stable_put_map i e : stable (put_map i e).
Proof. unfold put_map. stable_walk. Qed.
Lemma stable_name_loop n i name : stable (name_loop n i name).
Proof. revert i. induction n as [|n IH]; intros i; cbn [name_loop]; unfold get_sem; stable_walk. Qed.
Hint Resolve stable_upd_sem stable_upd_mx stable_put_map stable_name_loop : kstable.
Hint Extern 1 (stable (process_block _ PROC_WAIT _)) => (apply stable_block; intros ? ?; congruence) : kstable.
Hint Extern 1 (stable (suspend _)) => (apply stable_suspend; intros ? ?; congruence) : kstable.

Lemma stable_call c : timed_call c = false -> stable (run_call c).
Proof.
  intros Hc. destruct c; try done; cbn [run_call];
    unfold sys_yield, sys_sleep, sys_elf_exit, process_invalidate, sys_process_status, sys_elf_process_create, proc_create,
      sys_sem_init, sys_sem_open, sys_sem_close, sys_sem_unlink, sys_sem_destroy, sys_sem_getvalue, sys_sem_wait_x, sys_sem_trywait, sys_sem_post,
      sys_sem_destroy, new_sem, get_sem_by_semt, sem_busy, sem_acquired, get_semt_by_name, get_sem_by_name, clear_map, get_sem,
      sys_pthread_mutex_destroy, sys_pthread_mutex_lock, sys_pthread_mutex_trylock, sys_pthread_mutex_unlock, pthread_mutex_lock_basic,
      mutex_index, mutex_lock_loop, mutex_take, mutex_release, sys_pthread_mutex_init, get_mx; stable_walk.
Qed.

Lemma stable_resume s r s' : no_timed s -> kstep EResume s = Some (r, s') -> no_timed s'.
Proof.
  intros H E. cbn [kstep] in E. unfold mbind at 1 2 3, st_bind at 1 2 3, gets, get_proc, mbind at 1, st_bind at 1, gets, lift in E.
  destruct (arr_get (ptable s) (current_pid s)) as [x|] eqn:Ex; [|done]. destruct (kctx x) as [g|] eqn:Eg; [|done].
  assert (untimed_frame g) as Hg by (intros i t ->; by apply (proj2 (H _ _ Ex) i t)).
  eapply (stable_bind _ _ _ _ s r s' H E). Unshelve.
  - apply stable_upd_proc. intros y [Hy _]. by split.
  - intros []. apply stable_bind; [|intros o; stable_walk]. destruct g; cbn [resume]; unfold sem_acquired, get_sem, mutex_lock_loop, mutex_take, get_mx; stable_walk.
    by destruct (Hg i pid).
Qed.

Lemma stable_kill p : stable (kstep (EKill p)).
Proof. cbn [kstep]. unfold sys_kill, kill_unlink, process_invalidate, wait_delq. stable_walk. Qed.

Lemma stable_kstep e s r s' :
  no_timed s -> match e with ECall c => timed_call c = false | _ => True end -> kstep e s = Some (r, s') -> no_timed s'.
Proof.
  intros H He E. destruct e as [c| | |p].
  - refine (stable_bind _ _ (stable_call c He) _ s r s' H E). intros o. stable_walk.
  - by eapply stable_resume.
  - refine (stable_bind _ _ stable_irq _ s r s' H E). intros []. apply stable_ret.
  - by eapply stable_kill.
Qed.
End ops.

(** ** The value and the waiting processes *)

Section count.
Context {KC : KConfig} {KOK : KConfigOk KC}.
Implicit Types (s : kst) (q : qid) (p : Z) (Q : qmap) (T : list soft_tmr).

(** Tokens and no waiting process, or waiting processes that the value counts. *)
Definition balance (value waiting : Z) : Prop := (waiting = 0 ∧ 0 <= value) ∨ (0 < waiting ∧ value = - waiting).

(** Semaphore [i] and the number of processes in its queue. *)
Definition sem_view (i : Z) s : option sem_info * option Z := (arr_get (sem_heap s) i, option_map item_count (kqs s !! SemQ i)).
Definition balanced s : Prop := forall i x n, sem_view i s = (Some x, Some n) -> sem_id x ≠ -1 -> balance (sem_value x) n.

Lemma view_blind i : blind (sem_view i).
Proof. constructor; try done. intros j m s. unfold sem_view. simpl. by rewrite lookup_insert_ne. Qed.
Lemma view_blind_mutex i : blind_mutex (sem_view i).
Proof. constructor; [done|]. intros j m s. unfold sem_view. simpl. by rewrite lookup_insert_ne. Qed.

Lemma balanced_frame {A} (m : ST kst A) s a s' : (forall i, frame_of (sem_view i) m) -> m s = Some (a, s') -> balanced s -> balanced s'.
Proof. intros Hm E H i x n Ev. rewrite (Hm i s a s' E) in Ev. by apply (H i). Qed.

(** The view in terms of the abstract queues. *)
Lemma view_queue Q T s i x : kinv Q T s -> arr_get (sem_heap s) i = Some x -> sem_view i s = (Some x, Some (Z.of_nat (length (Q (SemQ i))))).
Proof.
  intros H E. pose proof (arr_get_range _ _ _ E) as Hr. rewrite (sm_heap_len _ _ (c_sems _ _ _ (i_core _ _ _ H))) in Hr.
  destruct (c_qs _ _ _ (i_core _ _ _ H) (SemQ i)) as (y & Ey & Hq); [simpl; lia|]. unfold sem_view. rewrite E, Ey. simpl. by rewrite (qok_count _ _ _ _ Hq).
Qed.

Lemma balanced_queues Q T s :
  kinv Q T s -> (forall i x, arr_get (sem_heap s) i = Some x -> sem_id x ≠ -1 -> balance (sem_value x) (Z.of_nat (length (Q (SemQ i))))) -> balanced s.
Proof.
  intros H Hb i x n Ev Hid. assert (arr_get (sem_heap s) i = Some x) as E by (unfold sem_view in Ev; congruence). rewrite (view_queue Q T s i x H E) in Ev.
  injection Ev as <-. by apply Hb.
Qed.
Lemma balanced_at Q T s i x : kinv Q T s -> balanced s -> arr_get (sem_heap s) i = Some x -> sem_id x ≠ -1 -> balance (sem_value x) (Z.of_nat (length (Q (SemQ i)))).
Proof. intros H Hb E Hid. apply (Hb i x); [|done]. by eapply view_queue. Qed.

(** The same queues, the same semaphores. *)
Lemma balanced_same Q T s Q' T' s' :
  kinv Q T s -> kinv Q' T' s' -> sem_heap s' = sem_heap s -> (forall i, length (Q' (SemQ i)) = length (Q (SemQ i))) -> balanced s -> balanced s'.
Proof. intros H H' Eh HQ Hb. apply (balanced_queues Q' T' s' H'). rewrite Eh. intros i x E Hid. rewrite HQ. by eapply balanced_at. Qed.

Lemma picks_wait Q n Q' q : picks Q n Q' -> is_wait q = true -> Q' q = Q q.
Proof. intros Hp Hw. inversion Hp; subst; [done|]. rewrite qupd_ne; [done|]. by intros ->. Qed.
Lemma requeue_wait Q p x q : is_wait q = true -> requeue Q p x q = Q q.
Proof. intros Hw. unfold requeue. case_bool_decide; [|done]. rewrite qupd_ne; [done|]. by intros ->. Qed.

(** Interrupts do not touch the semaphores. *)
Lemma balanced_tick Q T s r s' : kinv Q T s -> no_timed s -> balanced s -> kstep ETick s = Some (r, s') -> balanced s'.
Proof.
  intros H Hnt Hb E. destruct (i_cur _ _ _ H) as (x & Ex & _). pose proof (irq_entry_spec Q T s x H Ex) as Hw. apply wp_run in Hw as ([] & s1' & Ei & Hw).
  cbn [kstep] in E. unfold mbind, st_bind in E. rewrite Ei in E. injection E as _ ->. destruct Hw as (s1 & Q1 & n & Q' & Hex & H' & _ & _ & _ & Hob & _ & Hor).
  apply (balanced_same Q T s Q' (ticked T) s' H H'); [| |done].
  - rewrite (d_sems _ _ Hob), (d_sems _ _ (e_objs _ _ _ _ _ Hex)). done.
  - intros i. assert (length (Q1 (SemQ i)) = length (Q (SemQ i))) as HQ1.
    { rewrite (e_wait _ _ _ _ _ Hex) by done. rewrite filter_none_dropped; [done|]. intros p Hp Hexp.
      destruct (e_exp _ _ _ _ _ Hex p Hexp) as (y & x' & Ey & _ & Hs & _).
      assert (arr_get (ptable s) p = Some y ∨ p = current_pid s) as [Eyp|Hpc].
      { destruct (decide (p = current_pid s)) as [|Hne]; [by right|left]. rewrite <- Ey. symmetry. by apply (put_proc_ne _ p _ x s). }
      - pose proof (core_in _ _ _ _ _ _ (i_core _ _ _ H) Eyp Hp) as Hh. unfold home in Hh. destruct (is_allocated y); [|done].
        destruct Hs as [Hs|Hs]; [by destruct (Hnt p y Eyp)|]. by rewrite Hs in Hh.
      - subst p. pose proof (core_in _ _ _ _ _ _ (i_core _ _ _ H) Ex Hp) as Hh. destruct (i_cur _ _ _ H) as (x2 & Ex2 & Hrun & _).
        assert (x2 = x) as -> by congruence. by rewrite home_run in Hh. }
    destruct Hor as [(_ & -> & _)|[Hp _]]; [done|]. rewrite (picks_wait _ _ _ (SemQ i) Hp eq_refl), requeue_wait by done. done.
Qed.

(** ** Calls *)

Definition kb {A} (m : ST kst A) : Prop := forall s a s', balanced s -> m s = Some (a, s') -> balanced s'.

Lemma kb_frame {A} (m : ST kst A) : (forall i, frame_of (sem_view i) m) -> kb m.
Proof. intros Hm s a s' H E. by eapply balanced_frame. Qed.
Lemma kb_bind {A B} (m : ST kst A) (k : A -> ST kst B) : kb m -> (forall a, kb (k a)) -> kb (m ≫= k).
Proof.
  intros Hm Hk s b s' H E. unfold mbind, st_bind in E. destruct (m s) as [[a s1]|] eqn:Em; [|done].
  apply (Hk a s1 b s'); [|done]. by apply (Hm s a s1).
Qed.
Lemma kb_ret {A} (a : A) : kb (mret a).
Proof. apply kb_frame. intros i. apply frame_ret. Qed.

(** One semaphore changes. *)
Lemma balanced_put s i x' s' :
  balanced s -> kqs s' = kqs s -> 0 <= i -> sem_heap s' = <[Z.to_nat i := x']> (sem_heap s) ->
  (forall n, sem_id x' ≠ -1 -> option_map item_count (kqs s !! SemQ i) = Some n -> balance (sem_value x') n) -> balanced s'.
Proof.
  intros Hb Eq Hi Eh Hx j y n Ev Hid. unfold sem_view in Ev. rewrite Eq, Eh in Ev. injection Ev as Ey En.
  apply arr_get_insert in Ey as [[-> ->]|[Hne Ey]]; [by apply Hx| |done]. apply (Hb j); [|done]. unfold sem_view. by rewrite Ey, En.
Qed.

Lemma upd_sem_run i g s s' : upd_sem i g s = Some (tt, s') -> exists x, arr_get (sem_heap s) i = Some x ∧ s' = set_sem_heap (<[Z.to_nat i := g x]> (sem_heap s)) s.
Proof.
  intros E. unfold upd_sem, get_sem, mbind, st_bind, gets, lift, modify in E. destruct (arr_get (sem_heap s) i) as [x|] eqn:Ex; [|done].
  rewrite arr_set_in in E by (by apply arr_get_range in Ex). injection E as <-. by exists x.
Qed.

Lemma kb_upd i g : (forall x, sem_id (g x) = -1 ∨ sem_id (g x) = sem_id x ∧ sem_value (g x) = sem_value x) -> kb (upd_sem i g).
Proof.
  intros Hg s [] s' Hb E. apply upd_sem_run in E as (x & Ex & ->). pose proof (arr_get_range _ _ _ Ex).
  eapply (balanced_put s i (g x)); [done|done|lia|done|]. intros n Hid Hn. destruct (Hg x) as [|[E1 E2]]; [done|]. rewrite E2.
  apply (Hb i); [|congruence]. unfold sem_view. by rewrite Ex, Hn.
Qed.

Lemma frame_count i q : frame_of (sem_view i) (on_q q (gets item_count)).
Proof.
  intros s a s' E. unfold on_q, mbind, st_bind, gets, lift, modify in E. destruct (kqs s !! q) as [y|] eqn:Ey; [|done].
  injection E as _ <-. rewrite insert_id by done. by destruct s.
Qed.
Lemma kb_kerrno e : kb (kerrno e).
Proof. apply kb_frame. intros i. apply frame_kerrno, view_blind. Qed.
Lemma kb_fail e : kb (fail e).
Proof. apply kb_bind; [apply kb_kerrno|]. intros []. apply kb_ret. Qed.
Lemma kb_gets {A} (g : kst -> A) : kb (gets g).
Proof. apply kb_frame. intros i. apply frame_gets. Qed.
Lemma kb_lift {A} (o : option A) : kb (lift o).
Proof. apply kb_frame. intros i. apply frame_lift. Qed.
Lemma kb_count q : kb (on_q q (gets item_count)).
Proof. apply kb_frame. intros i. apply frame_count. Qed.
Lemma kb_put_map i e : kb (put_map i e).
Proof. apply kb_frame. intros j. unfold put_map. frame_walk. Qed.
Lemma kb_free i : kb (upd_sem i free_sem).
Proof. apply kb_upd. by left. Qed.
Lemma kb_unlink i : kb (upd_sem i (set_sem_unlink true)).
Proof. apply kb_upd. by right. Qed.
Create HintDb kbal discriminated.
Hint Resolve kb_ret kb_kerrno kb_fail kb_gets kb_lift kb_count kb_put_map kb_free kb_unlink : kbal.
Ltac kb_step :=
  match goal with
  | |- kb (_ ≫= _) => apply kb_bind; [|intros ?]
  | |- kb (if ?b then _ else _) => destruct b
  | |- kb (match ?x with _ => _ end) => destruct x
  | |- kb skip => apply kb_ret
  | |- kb _ => solve [auto with kbal]
  end.
Ltac kb_walk := repeat kb_step.

Lemma kb_name_loop n i name : kb (name_loop n i name).
Proof. revert i. induction n as [|n IH]; intros i; cbn [name_loop]; unfold get_sem; kb_walk. Qed.
Hint Resolve kb_name_loop : kbal.
Lemma kb_semt sem : kb (get_sem_by_semt sem).
Proof. unfold get_sem_by_semt, get_sem. kb_walk. Qed.
Lemma kb_destroy sem : kb (sys_sem_destroy sem).
Proof. unfold sys_sem_destroy, sem_busy, get_sem_by_semt, get_sem. kb_walk. Qed.
Hint Resolve kb_semt kb_destroy : kbal.
Lemma kb_close sem : kb (sys_sem_close sem).
Proof. unfold sys_sem_close, sem_busy, clear_map, get_sem. kb_walk. Qed.
Lemma kb_unlink_name name : kb (sys_sem_unlink name).
Proof. unfold sys_sem_unlink, get_sem_by_name, clear_map, get_sem. kb_walk. Qed.
Lemma kb_getvalue sem : kb (sys_sem_getvalue sem).
Proof. unfold sys_sem_getvalue, get_sem. kb_walk. Qed.
Lemma kb_acquired i : kb (sem_acquired i).
Proof. unfold sem_acquired, get_sem. kb_walk. Qed.

(** A new semaphore has no waiting processes. *)
Lemma kb_new value owner : 0 <= value <= 127 -> kb (new_sem value owner).
Proof.
  intros Hv s r s' Hb E. unfold new_sem, mbind at 1, st_bind at 1, gets in E. destruct (list_find _ (sem_heap s)) as [[k x]|]; [|by injection E as _ <-].
  cbn zeta in E. unfold mbind at 1, st_bind at 1 in E. destruct (upd_sem _ _ s) as [[[] s1]|] eqn:Eu; [|done]. apply upd_sem_run in Eu as (y & Ey & ->).
  unfold on_q, qinit, mbind, st_bind, gets, lift, modify in E. simpl in E. destruct (kqs s !! SemQ (Z.of_nat k)) as [q|] eqn:Eq; [|done].
  injection E as _ <-. intros j z n Ev Hid. unfold sem_view in Ev. simpl in Ev. injection Ev as Ez En.
  apply arr_get_insert in Ez as [[-> ->]|[Hne Ez]]; [| |lia].
  - rewrite lookup_insert_eq in En. injection En as <-. left. simpl. rewrite s8_small by lia. lia.
  - rewrite lookup_insert_ne in En by congruence. apply (Hb j); [|done]. unfold sem_view. by rewrite Ez, En.
Qed.
Lemma kb_init pshared value : 0 <= value <= 127 -> kb (sys_sem_init pshared value).
Proof. intros Hv. pose proof (kb_new value). unfold sys_sem_init. kb_walk. Qed.
Lemma kb_open name oflag value : 0 <= value <= 127 -> kb (sys_sem_open name oflag value).
Proof. intros Hv. pose proof (kb_new value). unfold sys_sem_open, get_semt_by_name. kb_walk. Qed.

(** A value changes; the invariant of the kernel does not care. *)
Definition put_value i (x : sem_info) (v : Z) s : kst := set_sem_heap (<[Z.to_nat i := set_sem_value v x]> (sem_heap s)) s.

Lemma wp_put_value i d s x (P : unit -> kst -> Prop) :
  arr_get (sem_heap s) i = Some x -> -128 <= sem_value x + d <= 127 -> P tt (put_value i x (sem_value x + d) s) ->
  wp (upd_sem i (λ x, set_sem_value (s8 (sem_value x + d)) x)) s P.
Proof.
  intros E Hv HP. unfold upd_sem, get_sem. wp_pure. eapply wp_lift; [exact E|]. wp_pure. apply wp_bind.
  eapply wp_lift; [apply arr_set_in; by apply arr_get_range in E|]. rewrite s8_small by lia. by wp_pure.
Qed.

Lemma put_value_done Q T s i x v : kinv Q T s -> arr_get (sem_heap s) i = Some x -> -128 <= v <= 127 -> done_post Q T s Q T (put_value i x v s).
Proof.
  intros H E Hv. pose proof (arr_get_range _ _ _ E). destruct (c_sems _ _ _ (i_core _ _ _ H)) as [L1 L2 Hs Hn].
  apply done_objs; auto. simpl. constructor; [by rewrite length_insert|done| |done]. intros j y Ey.
  apply arr_get_insert in Ey as [[-> ->]|[_ Ey]]; [|by apply Hs|lia]. split; [|done]. apply (Hs i x E).
Qed.

Lemma put_value_at s i x v : arr_get (sem_heap s) i = Some x -> arr_get (sem_heap (put_value i x v s)) i = Some (set_sem_value v x).
Proof. intros E. eapply arr_get_set. apply arr_set_in. by apply arr_get_range in E. Qed.

(** The balance after a change of semaphore [i] and of its queue. *)
Lemma balanced_change Q T s i x v Q' T' s' :
  kinv Q T s -> balanced s -> arr_get (sem_heap s) i = Some x -> kinv Q' T' s' -> sem_heap s' = sem_heap (put_value i x v s) ->
  (forall j, j ≠ i -> Q' (SemQ j) = Q (SemQ j)) -> (sem_id x ≠ -1 -> balance v (Z.of_nat (length (Q' (SemQ i))))) -> balanced s'.
Proof.
  intros H Hb E H' Eh HQ Hv. apply (balanced_queues Q' T' s' H'). rewrite Eh. simpl. intros j y Ey Hid. pose proof (arr_get_range _ _ _ E).
  apply arr_get_insert in Ey as [[-> ->]|[Hne Ey]]; [by apply Hv| |lia]. rewrite HQ by done. by eapply balanced_at.
Qed.

(** The caller is in none of the queues, so that the number of waiting
    processes is smaller than the number of processes. *)
Lemma waiting_bound Q T s q : kinv Q T s -> current_pid s ≠ idle_task_pid -> Z.of_nat (length (Q q)) <= 125.
Proof.
  intros H Hid. destruct (i_cur _ _ _ H) as (x & E & Hs & _). destruct (core_range _ _ _ _ _ (i_core _ _ _ H) E) as [Hr _].
  pose proof (nodup_bound (current_pid s :: Q q) 1 MAX_PROCESS_CONTEXTS) as Hb. simpl in Hb. pose proof ok_procs.
  assert (Z.of_nat (S (length (Q q))) <= Z.max 0 (MAX_PROCESS_CONTEXTS - 1)); [|lia]. apply Hb.
  - constructor; [|apply (c_nodup _ _ _ (i_core _ _ _ H))]. intros Hin. pose proof (core_in _ _ _ _ _ _ (i_core _ _ _ H) E Hin) as Hh.
    by rewrite home_run in Hh.
  - intros p [->|Hp]%elem_of_cons; [unfold idle_task_pid in *; lia|]. by eapply core_elem; [apply H|].
Qed.

Lemma fail_balanced Q T s e : kinv Q T s -> balanced s -> wp (fail e) s (λ _ s', balanced s').
Proof.
  intros H Hb. pose proof (quiet_fail (current_pid s) e Q T s H eq_refl) as Hw. apply wp_run in Hw as (o & s' & E & _).
  apply wp_run. exists o, s'. split; [done|]. by eapply kb_fail.
Qed.

(** The queues of a state are determined up to the order of heaps. *)
Lemma ring_same {A} (l l' : list A) y : ring l y -> ring l' y -> l = l'.
Proof.
  intros [_ _ [C1 _] _ _ I1] [_ _ [C2 _] _ _ I2]. apply list_eq. intros i. assert (length l = length l') as El by lia.
  destruct (l !! i) as [x|] eqn:E1, (l' !! i) as [x'|] eqn:E2; [|apply lookup_lt_Some in E1; apply lookup_ge_None in E2; lia|apply lookup_ge_None in E1; apply lookup_lt_Some in E2; lia|done].
  apply I1 in E1. apply I2 in E2. congruence.
Qed.
Lemma qok_same pr pr' q l l' y : qok pr q l y -> qok pr' q l' y -> l ≡ₚ l'.
Proof.
  intros [_ H] [_ H']. destruct (sched_is_prio && is_wait q); [|by rewrite (ring_same l l' y H H')].
  destruct H as [[_ _ (C1 & _) P1 _ _] _], H' as [[_ _ (C2 & _) P2 _ _] _]. assert (length l = length l') as El by lia. rewrite <- P1, <- P2. by rewrite El.
Qed.
Lemma kinv_same Q T Q' T' s q : kinv Q T s -> kinv Q' T' s -> valid_q q -> Q q ≡ₚ Q' q.
Proof.
  intros H H' Hv. destruct (c_qs _ _ _ (i_core _ _ _ H) q Hv) as (y & Ey & Hy), (c_qs _ _ _ (i_core _ _ _ H') q Hv) as (y' & Ey' & Hy').
  assert (y' = y) as -> by congruence. by eapply qok_same.
Qed.

Lemma sem_valid Q T s i x : kinv Q T s -> arr_get (sem_heap s) i = Some x -> 0 <= i < MAX_SEM.
Proof. intros H E. apply arr_get_range in E. rewrite (sm_heap_len _ _ (c_sems _ _ _ (i_core _ _ _ H))) in E. lia. Qed.
Lemma sem_valid_arg i : 0 <= i < MAX_SEM -> sem_arg (Some i).
Proof. pose proof ok_sem. simpl. lia. Qed.

(** A semaphore in use is found. *)
Lemma wp_found {A} Q T s i x (k : option Z -> ST kst A) (P : A -> kst -> Prop) :
  kinv Q T s -> arr_get (sem_heap s) i = Some x -> sem_id x ≠ -1 -> wp (k (Some i)) s P -> wp (get_sem_by_semt (Some i) ≫= k) s P.
Proof.
  intros H E Hus HP. apply wp_bind. eapply semt_spec; [done|by eapply sem_valid_arg, sem_valid|by intros j y [= <-]|].
  intros Hn. destruct Hus. by apply (Hn i).
Qed.

(** ** The calls on a semaphore in use *)

Lemma wait_spec Q T s i x :
  kinv Q T s -> current_pid s ≠ idle_task_pid -> arr_get (sem_heap s) i = Some x -> sem_id x ≠ -1 -> -127 <= sem_value x ->
  let v := sem_value x + -1 in
  wp (sys_sem_wait_x (Some i)) s (λ o s',
    (o = Done 0 ∧ 0 <= v ∧ s' = put_value i x v s) ∨
    (o = Blocked ∧ v < 0 ∧ exists c l' n Q', arr_get (ptable s) (current_pid s) = Some c ∧ is_allocated c = true ∧ l' ≡ₚ current_pid s :: Q (SemQ i) ∧
      picks (qupd Q (SemQ i) l') n Q' ∧ kinv Q' T s' ∧ top_at (ptable s) n Q' ∧
      switched (put_value i x v s) (current_pid s) (set_p_state PROC_WAIT (set_blockq (Some (SemQ i)) c)) (FSemWait i) n s')).
Proof.
  intros H Hid E Hus Hlow v. pose proof (sem_valid _ _ _ _ _ H E) as Hi. pose proof (sem_at _ _ _ _ _ H E) as [_ Hval].
  assert (-128 <= v <= 127) as Hv by lia. eapply (wp_found Q T s i x); [done..|]. apply wp_bind. eapply (wp_put_value i (-1)); [exact E|done|]. fold v.
  set (s1 := put_value i x v s). pose proof (put_value_done Q T s i x v H E Hv) as H1. pose proof (put_value_at s i x v E) as E1. fold s1 in E1, H1.
  apply wp_bind. eapply wp_get_sem; [exact E1|]. simpl sem_value. case_bool_decide as Hneg.
  - destruct (dn_inv _ _ _ _ _ _ H1) as [K1 (c & Ec & Hrun & Hisr) K3 K4]. apply wp_bind.
    eapply wp_mono; [apply (process_block_spec Q T s1 c (SemQ i) PROC_WAIT (FSemWait i)); try done; by right|].
    intros [] s' (l' & n & Q' & Hl & _ & Hp & H' & Htop & Hsw). apply wp_ret. right. do 2 (split; [done|]). exists c, l', n, Q'. split_and!; try done.
    by apply (run_alloc _ _ (c_pcb _ _ _ K1 _ c Ec)).
  - unfold sem_acquired. apply wp_bind. eapply wp_get_sem; [exact E1|]. rewrite bool_decide_eq_false_2 by done. apply wp_ret. left. split_and!; [done|lia|done].
Qed.

Lemma trywait_spec Q T s i x :
  kinv Q T s -> arr_get (sem_heap s) i = Some x -> sem_id x ≠ -1 ->
  wp (sys_sem_trywait (Some i)) s (λ o s',
    (o = Done 0 ∧ 0 < sem_value x ∧ s' = put_value i x (sem_value x + -1) s) ∨
    (o = Done (-1) ∧ sem_value x <= 0 ∧ fail EAGAIN s = Some (o, s'))).
Proof.
  intros H E Hus. pose proof (sem_at _ _ _ _ _ H E) as [_ Hval]. eapply (wp_found Q T s i x); [done..|].
  apply wp_bind. eapply wp_get_sem; [exact E|]. case_bool_decide as Hpos.
  - apply wp_bind. eapply (wp_put_value i (-1)); [exact E|lia|]. apply wp_ret. by left.
  - pose proof (quiet_fail (current_pid s) EAGAIN Q T s H eq_refl) as Hw. apply wp_run in Hw as (o & s' & Ef & _). apply wp_run. exists o, s'. split; [done|].
    right. split_and!; [|lia|done]. unfold fail, mbind, st_bind in Ef. destruct (kerrno EAGAIN s) as [[[] s1]|]; [|done]. by injection Ef as <- _.
Qed.

(** A post wakes a process, or leaves a token (and then removes a semaphore that
    has been unlinked). *)
Lemma post_spec Q T s i x :
  kinv Q T s -> arr_get (sem_heap s) i = Some x -> sem_id x ≠ -1 -> sem_value x < 127 ->
  let v := sem_value x + 1 in
  wp (sys_sem_post (Some i)) s (λ o s', o = Done 0 ∧
    ((exists Q' T' r, done_post Q T s Q' T' s' ∧ sem_heap s' = sem_heap (put_value i x v s) ∧ v <= 0 ∧
       (forall j, j ≠ i -> 0 <= j < MAX_SEM -> Q' (SemQ j) ≡ₚ Q (SemQ j)) ∧ Q (SemQ i) ≡ₚ r :: Q' (SemQ i)) ∨
     ((0 < v ∨ Q (SemQ i) = []) ∧ (s' = put_value i x v s ∨ sem_unlink x = true ∧ exists o', sys_sem_destroy (Some i) (put_value i x v s) = Some (o', s'))))).
Proof.
  intros H E Hus Hmax v. pose proof (sem_valid _ _ _ _ _ H E) as Hi. pose proof (sem_at _ _ _ _ _ H E) as [_ Hval].
  assert (-128 <= v <= 127) as Hv by lia. eapply (wp_found Q T s i x); [done..|]. apply wp_bind. eapply (wp_put_value i 1); [exact E|done|]. fold v.
  set (s1 := put_value i x v s). pose proof (put_value_done Q T s i x v H E Hv) as H1. pose proof (put_value_at s i x v E) as E1. fold s1 in E1, H1.
  pose proof (dn_inv _ _ _ _ _ _ H1) as K1. apply wp_bind. eapply (busy_spec Q T s1 i); [done..|]. simpl sem_value. destruct (_ && _) eqn:Eb.
  - apply andb_true_iff in Eb as [Hle Hn]. apply bool_decide_eq_true in Hn, Hle. apply wp_bind.
    eapply wp_mono; [apply (unblock_done Q T s1 (SemQ i)); try done; intros Hq; by rewrite Hq in Hn|].
    intros [] s' (Q' & T' & H' & Hu). apply wp_ret. split; [done|]. left. exists Q', T'. pose proof (dn_inv _ _ _ _ _ _ H') as K'.
    destruct Hu as (r & y & x' & l' & [Hl _] & Ey & _ & Ept & Hk & Hr & Hd & Hc & _). exists r.
    assert (kinv (qupd (qupd Q (SemQ i) l') (ready_of y) (Q (ready_of y) ++ [r])) (filter (λ tm, tm_pid tm ≠ r) T) s') as K2.
    { destruct K1 as [_ _ K3 _], K' as [_ K6 _ _]. constructor; try done. rewrite Hc. intros (tm & [_ Hin]%list_elem_of_filter & Ht). apply K3. by exists tm. }
    split; [by eapply done_trans|]. split; [by rewrite (d_sems _ _ Hd)|]. split; [done|]. split.
    + intros j Hj Hrj. rewrite (kinv_same _ _ _ _ _ (SemQ j) K' K2 Hrj). rewrite qupd_ne, qupd_ne; [done|congruence|done].
    + rewrite Hl. f_equiv. rewrite (kinv_same _ _ _ _ _ (SemQ i) K' K2 Hi). by rewrite qupd_ne, qupd_eq.
  - assert (0 < v ∨ Q (SemQ i) = []) as Htok.
    { apply andb_false_iff in Eb as [Eb|Eb]; apply bool_decide_eq_false in Eb; [left; lia|right]. destruct (Q (SemQ i)); [done|simpl in Eb; lia]. }
    apply wp_bind. apply wp_bind. eapply wp_get_sem; [exact E1|]. destruct (bool_decide (0 < sem_value (set_sem_value v x)) && sem_unlink (set_sem_value v x)) eqn:Eu.
    + apply andb_true_iff in Eu as [_ Eu]. pose proof (quiet_sem_destroy (current_pid s1) (Some i) (sem_valid_arg i Hi) Q T s1 K1 eq_refl) as Hw.
      apply wp_run in Hw as (o & s2 & E2 & _). apply wp_bind. apply wp_run. exists o, s2. split; [done|]. apply wp_ret, wp_ret. split; [done|]. right. split; [done|]. right. eauto.
    + apply wp_ret, wp_ret. split; [done|]. right. split; [done|]. by left.
Qed.

(** The semaphore that an argument refers to, if there is one. *)
Lemma sem_cases s sem Q T {A} (k : option Z -> ST kst A) (P : A -> kst -> Prop) :
  kinv Q T s -> sem_arg sem -> (forall i x, sem = Some i -> arr_get (sem_heap s) i = Some x -> sem_id x ≠ -1 -> wp (get_sem_by_semt (Some i) ≫= k) s P) ->
  wp (k None) s P -> wp (get_sem_by_semt sem ≫= k) s P.
Proof.
  intros H Ha HS HN. destruct sem as [i|]; [|by apply wp_bind, wp_ret].
  destruct (arr_get (sem_heap s) i) as [x|] eqn:E; [destruct (decide (sem_id x = -1)) as [Hf|Hus]; [|by eapply HS]|];
    apply wp_bind; eapply semt_spec; try done; intros j y [= <-] _ Ey; congruence.
Qed.

Lemma wait_balanced Q T s sem :
  kinv Q T s -> current_pid s ≠ idle_task_pid -> sem_arg sem -> balanced s -> wp (sys_sem_wait_x sem) s (λ _ s', balanced s').
Proof.
  intros H Hid Ha Hb. eapply sem_cases; [done|done| |by eapply fail_balanced]. intros i x -> E Hus.
  pose proof (balanced_at _ _ _ _ _ H Hb E Hus) as Hbal. pose proof (waiting_bound Q T s (SemQ i) H Hid) as Hn. pose proof (sem_at _ _ _ _ _ H E) as [_ Hval].
  eapply wp_mono; [apply (wait_spec Q T s i x H Hid E Hus); destruct Hbal; lia|].
  intros o s' [(_ & Hv & ->)|(_ & Hv & c & l' & n & Q' & _ & _ & Hl & Hp & H' & _ & Hsw)].
  - assert (-128 <= sem_value x + -1 <= 127) as Hr by lia. pose proof (dn_inv _ _ _ _ _ _ (put_value_done Q T s i x _ H E Hr)) as K1.
    eapply (balanced_change Q T s i x _ Q T _ H Hb E K1); try done. intros _. left. destruct Hbal; lia.
  - eapply (balanced_change Q T s i x (sem_value x + -1) Q' T s' H Hb E H').
    + by rewrite (d_sems _ _ (d_objs _ _ (w_data _ _ _ _ _ _ Hsw))).
    + intros j Hj. rewrite (picks_wait _ _ _ (SemQ j) Hp eq_refl). rewrite qupd_ne; [done|congruence].
    + intros _. rewrite (picks_wait _ _ _ (SemQ i) Hp eq_refl), qupd_eq, Hl. simpl. right. destruct Hbal; lia.
Qed.

Lemma trywait_balanced Q T s sem :
  kinv Q T s -> sem_arg sem -> balanced s -> wp (sys_sem_trywait sem) s (λ _ s', balanced s').
Proof.
  intros H Ha Hb. eapply sem_cases; [done|done| |by eapply fail_balanced]. intros i x -> E Hus.
  pose proof (balanced_at _ _ _ _ _ H Hb E Hus) as Hbal. pose proof (sem_at _ _ _ _ _ H E) as [_ Hval].
  eapply wp_mono; [by apply (trywait_spec Q T s i x)|]. intros o s' [(_ & Hv & ->)|(_ & _ & Ef)]; [|by eapply kb_fail].
  eapply (balanced_change Q T s i x _ Q T _ H Hb E); [apply put_value_done; [done..|lia]|done..|]. intros _. left. destruct Hbal; lia.
Qed.

(** A post gives a token, or wakes a process that waits for one. *)
Lemma post_balanced Q T s sem :
  kinv Q T s -> sem_arg sem -> (forall i x, sem = Some i -> arr_get (sem_heap s) i = Some x -> sem_value x < 127) -> balanced s ->
  wp (sys_sem_post sem) s (λ _ s', balanced s').
Proof.
  intros H Ha Hmax Hb. eapply sem_cases; [done|done| |by eapply fail_balanced]. intros i x -> E Hus. specialize (Hmax i x eq_refl E).
  pose proof (balanced_at _ _ _ _ _ H Hb E Hus) as Hbal. pose proof (sem_at _ _ _ _ _ H E) as [_ Hval].
  eapply wp_mono; [by apply (post_spec Q T s i x)|]. intros o s' [_ [(Q' & T' & r & H' & Eh & _ & Hot & Hl)|[Htok Hs]]].
  - apply (balanced_queues Q' T' s' (dn_inv _ _ _ _ _ _ H')). rewrite Eh. simpl. intros j y Ey Hid. pose proof (arr_get_range _ _ _ E).
    apply arr_get_insert in Ey as [[-> ->]|[Hne Ey]]; [| |lia].
    + rewrite Hl in Hbal. simpl in *. unfold balance in *. lia.
    + rewrite (Hot j Hne (sem_valid _ _ _ _ _ H Ey)). by eapply balanced_at.
  - assert (balanced (put_value i x (sem_value x + 1) s)) as Hb1.
    { eapply (balanced_change Q T s i x _ Q T _ H Hb E); [apply put_value_done; [done..|lia]|done..|]. intros _. left.
      destruct Htok as [Htok|Htok]; [|rewrite Htok in *; simpl in *]; destruct Hbal; lia. }
    destruct Hs as [->|(_ & o' & Ed)]; [done|]. by eapply kb_destroy.
Qed.

(** ** Runs *)

(** No time limits, initial values that are numbers of tokens, no post when
    the value is the largest that fits, and no kill of a process that waits for a
    semaphore: [sys_kill] does not give its decrement back. *)
Definition tame (e : event) s : Prop :=
  match e with
  | ECall (CSemTimedwait _ _) => False
  | ECall (CSemInit _ value) | ECall (CSemOpen _ _ value) => 0 <= value <= 127
  | ECall (CSemPost (Some i)) => match arr_get (sem_heap s) i with Some x => sem_value x < 127 | None => True end
  | EKill p => match arr_get (ptable s) p with
    | Some x => match home p x with Some (SemQ _) => False | _ => True end
    | None => True
    end
  | _ => True
  end.

Inductive tame_steps : kst -> list event -> kst -> Prop :=
  | tame_nil s : tame_steps s [] s
  | tame_cons s e r s1 es s2 : enabled e s -> tame e s -> kstep e s = Some (r, s1) -> tame_steps s1 es s2 -> tame_steps s (e :: es) s2.

#[export] Instance tame_dec e s : Decision (tame e s).
Proof.
  destruct e as [[]| | |p]; try apply _; simpl.
  - destruct sem; [|apply _]. destruct (arr_get _ _); apply _.
  - destruct (arr_get (ptable s) p) as [x|]; [|apply _]. destruct (home p x) as [[]|]; apply _.
Defined.

(** Running a sequence of such events. *)
Fixpoint tame_exec (es : list event) s : option kst :=
  match es with
  | [] => Some s
  | e :: es => if decide (enabled e s ∧ tame e s) then match kstep e s with Some (_, s1) => tame_exec es s1 | None => None end else None
  end.
Lemma tame_exec_steps es : forall s s', tame_exec es s = Some s' -> tame_steps s es s'.
Proof.
  induction es as [|e es IH]; intros s s' E; simpl in E; [injection E as <-; constructor|]. case_decide as He; [|done]. destruct He.
  destruct (kstep e s) as [[r s1]|] eqn:Ek; [|done]. econstructor; eauto.
Qed.

Lemma tame_steps_steps s es s' : tame_steps s es s' -> steps s es s'.
Proof. induction 1; econstructor; eauto. Qed.

Lemma wp_partial {A} (m : ST kst A) s (P : A -> kst -> Prop) a s' : wp m s P -> m s = Some (a, s') -> P a s'.
Proof. intros H E. apply wp_run in H as (b & s2 & E' & H). rewrite E in E'. by injection E' as -> ->. Qed.

Lemma kb_then {A B} (m : ST kst A) (g : A -> B) s b s' :
  (forall a s1, m s = Some (a, s1) -> balanced s1) -> (a ← m; mret (g a)) s = Some (b, s') -> balanced s'.
Proof. intros Hm E. unfold mbind, st_bind in E. destruct (m s) as [[a s1]|] eqn:Em; [|done]. injection E as _ <-. by apply (Hm a). Qed.

Lemma call_balanced Q T s c r s' :
  kinv Q T s -> current_pid s ≠ idle_task_pid -> call_ok c -> balanced s -> tame (ECall c) s -> run_call c s = Some (r, s') -> balanced s'.
Proof.
  intros H Hid Hok Hb Ht E. destruct (plain_call c) eqn:Ep.
  { revert Hb. eapply balanced_frame; [|exact E]. intros i. apply frame_plain; [apply view_blind|done]. }
  destruct (sem_call c) eqn:Es.
  2: { revert Hb. eapply balanced_frame; [|exact E]. intros i. apply frame_mutex; [apply view_blind|apply view_blind_mutex|by rewrite Ep, Es]. }
  destruct c; try done; cbn [run_call] in E; simpl in Ht, Hok.
  - refine (kb_then _ _ s r s' _ E). intros a s1. by apply kb_init.
  - refine (kb_then _ _ s r s' _ E). intros a s1. by apply kb_open.
  - refine (kb_then _ _ s r s' _ E). intros a s1. by apply kb_close.
  - refine (kb_then _ _ s r s' _ E). intros a s1. by apply kb_unlink_name.
  - refine (kb_then _ _ s r s' _ E). intros a s1. by apply kb_destroy.
  - by apply (kb_getvalue sem s r s').
  - refine (kb_then _ _ s r s' _ E). intros a s1 E1. by apply (wp_partial _ _ _ a s1 (wait_balanced Q T s sem H Hid Hok Hb)).
  - refine (kb_then _ _ s r s' _ E). intros a s1 E1. by apply (wp_partial _ _ _ a s1 (trywait_balanced Q T s sem H Hok Hb)).
  - refine (kb_then _ _ s r s' _ E). intros a s1 E1.
    refine (wp_partial _ _ _ a s1 (post_balanced Q T s sem H Hok _ Hb) E1). intros i x ->. simpl in Ht. intros Ex. by rewrite Ex in Ht.
Qed.

Lemma resume_balanced s r s' : no_timed s -> balanced s -> kstep EResume s = Some (r, s') -> balanced s'.
Proof.
  intros Hnt Hb E. cbn [kstep] in E. unfold mbind at 1 2 3, st_bind at 1 2 3, gets, get_proc, mbind at 1, st_bind at 1, gets, lift in E.
  destruct (arr_get (ptable s) (current_pid s)) as [x|] eqn:Ex; [|done]. destruct (kctx x) as [g|] eqn:Eg; [|done].
  assert (kb (resume g)) as Hg.
  { destruct g; cbn [resume]; [apply kb_ret|apply kb_acquired| | |apply kb_frame; intros j; apply frame_undef..].
    - by destruct (proj2 (Hnt _ _ Ex) i pid).
    - apply kb_frame. intros j. apply frame_lock_loop; [apply view_blind|apply view_blind_mutex]. }
  refine (kb_bind _ _ _ _ s r s' Hb E); [apply kb_frame; intros j; apply frame_upd_proc, view_blind|]. intros [].
  apply kb_bind; [done|]. intros o. apply kb_bind; [apply kb_frame; intros j; apply frame_finish, view_blind|]. intros []. apply kb_ret.
Qed.

(** The queue of a killed process is not that of a semaphore. *)
Lemma kill_blind {X} (f : kst -> X) p x s r s' :
  blind f -> (forall q, (forall i, q ≠ SemQ i) -> blind_q f q) -> arr_get (ptable s) p = Some x -> tame (EKill p) s -> kstep (EKill p) s = Some (r, s') -> f s' = f s.
Proof.
  intros Hf Hq Ex Ht E. eapply (frame_kill_at f Hf p x); [done| |done]. intros q Eq Hal Hs. apply Hq. intros i ->. simpl in Ht. rewrite Ex in Ht.
  assert (home p x = Some (SemQ i)) as Hh by (unfold home; rewrite Hal; by destruct Hs as [->| ->]). by rewrite Hh in Ht.
Qed.
Lemma view_blind_q i q : (forall j, q ≠ SemQ j) -> blind_q (sem_view i) q.
Proof. intros Hq m s. unfold sem_view. simpl. by rewrite lookup_insert_ne by (intros E; apply (Hq i); done). Qed.
Lemma balanced_kill s p r s' : balanced s -> enabled (EKill p) s -> tame (EKill p) s -> kstep (EKill p) s = Some (r, s') -> balanced s'.
Proof.
  intros Hb (_ & _ & Hok) Ht E. unfold kill_ok in Hok. destruct (arr_get (ptable s) p) as [x|] eqn:Ex; [|done].
  intros i y n Ev. rewrite (kill_blind (sem_view i) p x s r s' (view_blind i) (view_blind_q i) Ex Ht E) in Ev. exact (Hb i y n Ev).
Qed.

Lemma step_balanced Q T s e r s' :
  kinv Q T s -> no_timed s -> balanced s -> enabled e s -> tame e s -> kstep e s = Some (r, s') -> balanced s'.
Proof.
  intros H Hnt Hb He Ht E. destruct e as [c| | |p]; [|by eapply resume_balanced|by eapply balanced_tick|by eapply balanced_kill].
  destruct He as (_ & Hid & Hok). cbn [kstep] in E. unfold mbind at 1, st_bind at 1 in E.
  destruct (run_call c s) as [[o s1]|] eqn:Ec; [|done]. pose proof (call_balanced Q T s c o s1 H Hid Hok Hb Ht Ec) as Hb1.
  refine (kb_bind _ _ _ _ s1 r s' Hb1 E); [apply kb_frame; intros j; apply frame_finish, view_blind|]. intros []. apply kb_ret.
Qed.

Lemma run_balanced s es s' : tame_steps s es s' -> forall Q T, kgood Q T s -> no_timed s -> balanced s -> balanced s'.
Proof.
  induction 1 as [s|s e r s1 es s2 He Ht E Hst IH]; intros Q T Hg Hnt Hb; [done|].
  destruct (step_of _ _ _ _ _ _ Hg He E) as (Q1 & T1 & H1). apply (IH Q1 T1); [apply H1| |by eapply (step_balanced Q T); [apply Hg|..]].
  refine (stable_kstep e s r s1 Hnt _ E). by destruct e as [[]| | |].
Qed.

Lemma starts_balanced (ps : list Z) s0 : Forall (λ p, 0 <= p < N_PRIO) ps -> starts ps s0 -> exists Q T, kgood Q T s0 ∧ no_timed s0 ∧ balanced s0.
Proof.
  intros Hps E. destruct (starts_good ps s0 Hps E) as (Q & T & Hg). pose proof (xilkernel_init_spec ps Hps) as H.
  apply wp_run in H as ([] & s0' & E' & Q0 & _ & _ & _ & _ & Hnew & Hfree). unfold starts in E. assert (s0' = s0) as -> by congruence.
  exists Q, T. split_and!; [done|..].
  - intros p z Ez. destruct (Hnew p z Ez) as [Hs Hk]. split; [destruct Hs; congruence|]. intros j t. by rewrite Hk.
  - intros j z n Ev Hne. destruct Hne. apply (Hfree j z). unfold sem_view in Ev. congruence.
Qed.
End count.

(** With time limits a wakeup can be lost: a process times out while another
    one posts, a third one starts to wait before the first takes back its
    decrement, and it waits although there are tokens. *)
Example timed_wait_lost_wakeup :
  exists s0 s x z, @starts (demo_conf false) [0; 0; 0] s0 ∧
    @steps (demo_conf false) s0 [ETick; ECall (CSemInit 1 0); ECall (CSemTimedwait (Some 0) 1); ECall CYield; ETick; ETick;
      ECall (CSemPost (Some 0)); ECall (CSemWait (Some 0)); EResume; ECall CYield; ECall (CSemPost (Some 0)); ECall (CSemPost (Some 0))] s ∧
    arr_get (sem_heap s) 0 = Some x ∧ sem_value x = 2 ∧ arr_get (ptable s) 2 = Some z ∧ p_state z = PROC_WAIT ∧ blockq z = Some (SemQ 0).
Proof.
  set (es := [ETick; ECall (CSemInit 1 0); _; _; _; _; _; _; _; _; _; _]).
  exists (demo_start false [0; 0; 0]), (demo_run false [0; 0; 0] es). eexists _, _. split; [vm_compute; reflexivity|]. split; [apply exec_steps; vm_compute; reflexivity|].
  split; [vm_compute; reflexivity|]. split; [reflexivity|]. split; [vm_compute; reflexivity|]. done.
Qed.
