(* ===== verification/Kwait.v ===== *)
(** * Semaphores that belong to a client inside of the kernel

    The message queues use semaphores of their own. This file says what such a
    client can rely on: while other processes make other calls, its semaphores
    keep their values, the processes that it has suspended stay suspended
    where they are, and nobody else waits for its semaphores. *)

From stdpp Require Import gmap.
From S2P Require Import Prelude Kqueue Kheap Ktimer Ksched Ksem Kmutex Kinv Kops Kernel Ksafe Kinit Kreach Kframe Kcount.
Open Scope Z_scope.

Section waiting.
Context {KC : KConfig}.
(** The suspended processes of the client, with the semaphores that they are
    suspended at. *)
Context (W : gmap Z Z).

Definition wpcb (p : Z) (x : pcb) : Prop := forall j, W !! p = Some j -> kctx x = Some (FSemWait j) ∧ is_allocated x = true.
Definition wprocs (s : kst) : Prop := forall p x, arr_get (ptable s) p = Some x -> wpcb p x.

(** Statements that keep this in any state ([wk]), statements of a process
    outside of the client that leave it running ([qk]), or may not ([ck]). *)
Definition wk {A} (m : ST kst A) : Prop := forall s a s', wprocs s -> m s = Some (a, s') -> wprocs s'.
Definition qk {A} (m : ST kst A) : Prop := forall s a s', wprocs s -> W !! current_pid s = None -> m s = Some (a, s') ->
  wprocs s' ∧ current_pid s' = current_pid s.
Definition ck {A} (m : ST kst A) : Prop := forall s a s', wprocs s -> W !! current_pid s = None -> m s = Some (a, s') -> wprocs s'.

Lemma wk_bind {A B} (m : ST kst A) (k : A -> ST kst B) : wk m -> (forall a, wk (k a)) -> wk (m ≫= k).
Proof. intros Hm Hk s b s' H E. unfold mbind, st_bind in E. destruct (m s) as [[a s1]|] eqn:Em; [|done]. apply (Hk a s1 b s'); [|done]. by apply (Hm s a s1). Qed.
Lemma qk_bind {A B} (m : ST kst A) (k : A -> ST kst B) : qk m -> (forall a, qk (k a)) -> qk (m ≫= k).
Proof.
  intros Hm Hk s b s' H Hc E. unfold mbind, st_bind in E. destruct (m s) as [[a s1]|] eqn:Em; [|done]. destruct (Hm s a s1 H Hc Em) as [H1 E1].
  rewrite <- E1. apply (Hk a s1 b s' H1); [by rewrite E1|done].
Qed.
Lemma ck_bind {A B} (m : ST kst A) (k : A -> ST kst B) : qk m -> (forall a, ck (k a)) -> ck (m ≫= k).
Proof.
  intros Hm Hk s b s' H Hc E. unfold mbind, st_bind in E. destruct (m s) as [[a s1]|] eqn:Em; [|done]. destruct (Hm s a s1 H Hc Em) as [H1 E1].
  apply (Hk a s1 b s' H1); [by rewrite E1|done].
Qed.
Lemma ck_map {A B} (m : ST kst A) (f : A -> B) : ck m -> ck (a ← m; mret (f a)).
Proof. intros Hm s b s' H Hc E. unfold mbind, st_bind in E. destruct (m s) as [[a s1]|] eqn:Em; [|done]. injection E as _ <-. by apply (Hm s a s1). Qed.
Lemma qk_ck {A} (m : ST kst A) : qk m -> ck m.
Proof. intros Hm s a s' H Hc E. by destruct (Hm s a s' H Hc E). Qed.

(** ** Statements that do not look at the processes *)

Definition same_pt {A} (m : ST kst A) : Prop := forall s a s', m s = Some (a, s') -> ptable s' = ptable s ∧ current_pid s' = current_pid s.
Lemma same_wk {A} (m : ST kst A) : same_pt m -> wk m.
Proof. intros Hm s a s' H E. destruct (Hm s a s' E) as [Ep _]. unfold wprocs. by rewrite Ep. Qed.
Lemma same_qk {A} (m : ST kst A) : same_pt m -> qk m.
Proof. intros Hm s a s' H _ E. split; [by eapply same_wk|]. by destruct (Hm s a s' E). Qed.
Lemma same_ret {A} (a : A) : same_pt (mret a).
Proof. intros s b s' [= _ <-]. done. Qed.
Lemma same_undef {A} : same_pt (undef : ST kst A).
Proof. done. Qed.
Lemma same_gets {A} (g : kst -> A) : same_pt (gets g).
Proof. intros s b s' [= _ <-]. done. Qed.
Lemma same_lift {A} (o : option A) : same_pt (lift o).
Proof. intros s b s' E. unfold lift in E. destruct o; [by injection E as _ <-|done]. Qed.
Lemma same_modify g : (forall s, ptable (g s) = ptable s ∧ current_pid (g s) = current_pid s) -> same_pt (modify g).
Proof. intros Hg s b s' [= _ <-]. apply Hg. Qed.
Lemma same_tmr {A} (m : ST tmrs A) : same_pt (tmr m).
Proof. intros s b s' E. unfold tmr, zoom in E. destruct (m (ktm s)) as [[a t]|]; [|done]. by injection E as _ <-. Qed.
Lemma same_on_q {A} q (m : ST (queue Z) A) : same_pt (on_q q m).
Proof.
  intros s b s' E. unfold on_q, mbind, st_bind, gets, lift, modify in E.
  destruct (kqs s !! q) as [x|]; [|done]. destruct (m x) as [[a x']|]; [|done]. by injection E as _ <-.
Qed.
Lemma same_get_proc p : same_pt (get_proc p).
Proof. intros s b s' E. unfold get_proc, mbind, st_bind, gets, lift in E. destruct (arr_get _ _); [by injection E as _ <-|done]. Qed.

(** ** Updates of a process *)

Lemma wprocs_put s p x x' : wprocs s -> arr_get (ptable s) p = Some x -> wpcb p x' -> wprocs (put_proc p x' s).
Proof.
  intros H E Hx r y Ey. destruct (decide (r = p)) as [->|Hr]; [rewrite (put_proc_eq p x' x s E) in Ey; by simplify_eq|].
  rewrite (put_proc_ne p r x' x s E Hr) in Ey. by apply H.
Qed.
Lemma upd_proc_run p g s s' : upd_proc p g s = Some (tt, s') -> exists x, arr_get (ptable s) p = Some x ∧ s' = put_proc p (g x) s.
Proof.
  intros E. unfold upd_proc, get_proc, mbind, st_bind, gets, lift, modify in E. destruct (arr_get (ptable s) p) as [x|] eqn:Ex; [|done].
  rewrite arr_set_in in E by (by apply arr_get_range in Ex). injection E as <-. by exists x.
Qed.
Lemma wk_upd p g : (forall x, wpcb p x -> wpcb p (g x)) -> wk (upd_proc p g).
Proof. intros Hg s [] s' H E. apply upd_proc_run in E as (x & Ex & ->). eapply wprocs_put; [done|done|]. by apply Hg, (H p). Qed.
Lemma qk_upd p g : (forall x, wpcb p x -> wpcb p (g x)) -> qk (upd_proc p g).
Proof. intros Hg s [] s' H Hc E. split; [by eapply wk_upd|]. by apply upd_proc_run in E as (x & Ex & ->). Qed.
Lemma same_prios pr s : wprocs s -> wprocs (set_prios pr s).
Proof.
  intros H p x E. pose proof (arr_get_range _ _ _ E). rewrite arr_get_lookup in E by lia. simpl in E.
  apply lookup_zip_with_Some in E as (z & y & -> & _ & Ey). rewrite <- arr_get_lookup in Ey by lia. exact (H p y Ey).
Qed.
End waiting.

Create HintDb kwait discriminated.
#[export] Hint Resolve same_ret same_undef same_gets same_lift same_tmr same_on_q same_get_proc : kwait.
#[export] Hint Extern 1 (same_pt skip) => apply same_ret : kwait.
#[export] Hint Extern 1 (same_pt (modify _)) => (apply same_modify; intros ?; split; reflexivity) : kwait.

Ltac wait_upd := intros ? H; exact H.
Ltac wk_step :=
  match goal with
  | |- wk _ (_ ≫= _) => apply wk_bind; [|intros ?]
  | |- wk _ (if ?b then _ else _) => destruct b
  | |- wk _ (match ?x with _ => _ end) => destruct x
  | |- wk _ (upd_proc _ _) => apply wk_upd; wait_upd
  | |- wk _ _ => solve [apply same_wk; auto with kwait | auto with kwait]
  end.
Ltac wk_walk := repeat wk_step.
Ltac qk_step :=
  match goal with
  | |- qk _ (_ ≫= _) => apply qk_bind; [|intros ?]
  | |- qk _ (if ?b then _ else _) => destruct b
  | |- qk _ (match ?x with _ => _ end) => destruct x
  | |- qk _ (upd_proc _ _) => apply qk_upd; wait_upd
  | |- qk _ _ => solve [apply same_qk; auto with kwait | auto with kwait]
  end.
Ltac qk_walk := repeat qk_step.
Ltac ck_step :=
  match goal with
  | |- ck _ (if ?b then _ else _) => destruct b
  | |- ck _ (match ?x with _ => _ end) => destruct x
  | |- ck _ (_ ≫= _) => apply ck_bind; [solve [qk_walk]|intros ?]
  | |- ck _ (_ ≫= _) => apply ck_map
  | |- ck _ _ => solve [auto with kwait | apply qk_ck; qk_walk]
  end.
Ltac ck_walk := repeat ck_step.

Section ops.
Context {KC : KConfig} (W : gmap Z Z).

Lemma qk_kerrno e : qk W (kerrno e).
Proof. unfold kerrno. qk_walk. Qed.
Lemma qk_fail e : qk W (fail e).
Proof. unfold fail, kerrno. qk_walk. Qed.
Lemma wk_flush fuel q ready : wk W (flush_loop fuel q ready).
Proof. revert ready. induction fuel as [|fuel IH]; intros ready; cbn [flush_loop]; wk_walk. Qed.
Lemma wk_prio_loop n i : wk W (prio_loop n i).
Proof. revert i. induction n as [|n IH]; intros i; cbn [prio_loop]; wk_walk. apply wk_flush. Qed.
Hint Resolve wk_flush wk_prio_loop : kwait.
Lemma wk_set_current c : wk W (modify (set_current_pid c)).
Proof. intros s b s' H [= _ <-]. done. Qed.
Hint Resolve wk_set_current : kwait.
Lemma wk_scheduler : wk W scheduler.
Proof. unfold scheduler, sched_prio, sched_rr, requeue_current, run_process, ready_enq. wk_walk. Qed.
Lemma wk_restore : wk W restore_context.
Proof. unfold restore_context, pit_reset. wk_walk. Qed.
Lemma qk_unblock q : qk W (process_unblock q).
Proof. unfold process_unblock, wait_deq, ready_enq. qk_walk. Qed.
Lemma wk_delq q p : wk W (wait_delq q p).
Proof.
  unfold wait_delq. destruct sched_is_prio; wk_walk. intros s b s' H [= _ <-]. by apply same_prios.
Qed.
Hint Resolve wk_delq wk_scheduler wk_restore : kwait.
Lemma wk_handler n i k : wk W (handler_loop n i k).
Proof. revert i k. induction n as [|n IH]; intros i k; cbn [handler_loop]; unfold handle_timeout, ready_enq; wk_walk. Qed.
Hint Resolve wk_handler : kwait.
Lemma wk_irq : wk W irq_entry.
Proof. unfold irq_entry, timer_int_handler, soft_tmr_handler. wk_walk. Qed.

(** ** Leaving the processor *)

(** The scheduler saves the context of nobody or of the process that ran. *)
Definition same_save {A} (m : ST kst A) : Prop := forall s a s', m s = Some (a, s') -> ctx_save_process s' = ctx_save_process s.
Lemma save_bind {A B} (m : ST kst A) (k : A -> ST kst B) : same_save m -> (forall a, same_save (k a)) -> same_save (m ≫= k).
Proof. intros Hm Hk s b s' E. unfold mbind, st_bind in E. destruct (m s) as [[a s1]|] eqn:Em; [|done]. rewrite (Hk a s1 b s' E). by apply (Hm s a). Qed.
Lemma save_gets {A} (g : kst -> A) : same_save (gets g).
Proof. intros s b s' [= _ <-]. done. Qed.
Lemma save_ret {A} (a : A) : same_save (mret a).
Proof. intros s b s' [= _ <-]. done. Qed.
Lemma save_modify g : (forall s, ctx_save_process (g s) = ctx_save_process s) -> same_save (modify g).
Proof. intros Hg s b s' [= _ <-]. apply Hg. Qed.
Lemma save_on_q {A} q (m : ST (queue Z) A) : same_save (on_q q m).
Proof.
  intros s b s' E. unfold on_q, mbind, st_bind, gets, lift, modify in E.
  destruct (kqs s !! q) as [x|]; [|done]. destruct (m x) as [[a x']|]; [|done]. by injection E as _ <-.
Qed.
Lemma save_get_proc p : same_save (get_proc p).
Proof. intros s b s' E. unfold get_proc, mbind, st_bind, gets, lift in E. destruct (arr_get _ _); [by injection E as _ <-|done]. Qed.
Lemma save_upd p g : same_save (upd_proc p g).
Proof. intros s [] s' E. by apply upd_proc_run in E as (x & _ & ->). Qed.
Hint Resolve save_gets save_ret save_on_q save_get_proc save_upd : kwait.
Ltac save_walk := repeat match goal with
  | |- same_save (_ ≫= _) => apply save_bind; [|intros ?]
  | |- same_save (if ?b then _ else _) => destruct b
  | |- same_save (modify _) => apply save_modify; intros ?; reflexivity
  | |- same_save skip => apply save_ret
  | |- same_save undef => by intros ? ? ?
  | |- same_save _ => solve [auto with kwait]
  end.
Lemma save_flush fuel q ready : same_save (flush_loop fuel q ready).
Proof. revert ready. induction fuel as [|fuel IH]; intros ready; cbn [flush_loop]; save_walk. Qed.
Lemma save_prio_loop n i : same_save (prio_loop n i).
Proof. revert i. induction n as [|n IH]; intros i; cbn [prio_loop]; save_walk. apply save_flush. Qed.
Hint Resolve save_flush save_prio_loop : kwait.

Lemma scheduler_saves s r s' : scheduler s = Some (r, s') -> ctx_save_process s' = None ∨ ctx_save_process s' = Some (current_pid s).
Proof.
  intros E. unfold scheduler in E. apply bind_inv in E as (c & s0 & [= <- <-] & E). apply bind_inv in E as (x & s0 & Ex & E).
  assert (s0 = s) as ->. { unfold get_proc, mbind, st_bind, gets, lift in Ex. destruct (arr_get _ _); by simplify_eq. }
  apply bind_inv in E as ([] & s1 & E1 & E).
  assert (ctx_save_process s1 = None ∨ ctx_save_process s1 = Some (current_pid s)) as H1.
  { destruct (bool_decide (p_state x = PROC_DEAD)), (bool_decide (isrflag x = 1)); injection E1 as <-; simpl; auto. }
  assert (ctx_save_process s' = ctx_save_process s1) as ->; [|done]. clear -E. revert s1 r s' E. change (same_save ((if sched_is_prio then sched_prio else sched_rr);; c ← gets current_pid;
    if bool_decide (c = -1) then undef else modify (set_did_resched true);; modify (set_resched false);; p ← gets prev_pid; mret (if bool_decide (p = c) then 1 else 0))).
  unfold sched_prio, sched_rr, requeue_current, run_process, ready_enq. save_walk.
Qed.

Lemma ck_suspend f : ck W (suspend f).
Proof.
  intros s [] s' H Hc E. unfold suspend in E. apply bind_inv in E as (r & s1 & E1 & E). pose proof (scheduler_saves _ _ _ E1) as Hsv.
  pose proof (wk_scheduler s r s1 H E1) as H1. revert E. case_bool_decide; [done|]. intros E. apply bind_inv in E as (p & s2 & [= <- <-] & E).
  apply bind_inv in E as ([] & s3 & E3 & E). refine (wk_restore s3 tt s' _ E). destruct Hsv as [Hsv|Hsv]; rewrite Hsv in E3; [by injection E3 as <-|].
  apply upd_proc_run in E3 as (x & Ex & ->). eapply wprocs_put; [done|done|]. intros j Hj. congruence.
Qed.

Lemma ck_exit : ck W syscall_exit.
Proof.
  intros s [] s' H Hc E. unfold syscall_exit in E. apply bind_inv in E as (b & s0 & [= <- <-] & E). destruct (resched s); [|by injection E as <-].
  apply bind_inv in E as (r & s1 & E1 & E). pose proof (scheduler_saves _ _ _ E1) as Hsv. pose proof (wk_scheduler s r s1 H E1) as H1. revert E.
  case_bool_decide; [by intros [= <-]|]. intros E. apply bind_inv in E as (p & s2 & [= <- <-] & E). apply bind_inv in E as (p & s2 & Ep & E).
  destruct Hsv as [Hsv|Hsv]; rewrite Hsv in Ep; [done|]. injection Ep as <- <-. apply bind_inv in E as ([] & s3 & E3 & E).
  apply bind_inv in E as ([] & s4 & [= <-] & E). refine (wk_restore _ tt s' _ E).
  apply upd_proc_run in E3 as (x & Ex & ->). apply (wprocs_put W s1 _ x); [done|done|]. intros j Hj. congruence.
Qed.
Hint Resolve ck_suspend ck_exit : kwait.

Lemma ck_finish o : ck W (finish o).
Proof. unfold finish. ck_walk. Qed.

Lemma qk_wait_enq q p : qk W (wait_enq q p).
Proof. unfold wait_enq. qk_walk. Qed.
Hint Resolve qk_wait_enq : kwait.
Lemma ck_block q st f : ck W (process_block q st f).
Proof. unfold process_block. ck_walk. Qed.

(** A new process takes a slot that is free. *)
Lemma qk_proc_create p : qk W (proc_create p).
Proof.
  intros s r s' H Hc E. unfold proc_create in E. apply bind_inv in E as (t & s0 & [= <- <-] & E).
  destruct (list_find _ (ptable s)) as [[i x]|] eqn:Ef; [|by injection E as _ <-]. apply list_find_Some in Ef as (Ei & Hal & _).
  rewrite <- arr_get_nat in Ei. cbn zeta in E. apply bind_inv in E as ([] & s1 & E1 & E). apply upd_proc_run in E1 as (y & Ey & ->).
  assert (y = x) as -> by congruence. set (s1 := put_proc _ _ s) in *. assert (wprocs W s1) as H1.
  { eapply wprocs_put; [done|exact Ei|]. intros j Hj. destruct (H _ x Ei j Hj). congruence. }
  revert E. set (m := (if bool_decide _ then _ else _) ≫= _). assert (qk W m) as Hm by (unfold m; qk_walk). intros E. exact (Hm s1 r s' H1 Hc E).
Qed.
Hint Resolve qk_proc_create : kwait.
Lemma qk_create p : qk W (sys_elf_process_create p).
Proof. unfold sys_elf_process_create. qk_walk. Qed.

Lemma ck_elf_exit : ck W sys_elf_exit.
Proof.
  intros s o s' H Hc E. unfold sys_elf_exit in E. apply bind_inv in E as (c & s0 & [= <- <-] & E). apply bind_inv in E as (r & s1 & E1 & E).
  assert (wprocs W s1 ∧ current_pid s1 = current_pid s) as [H1 Hc1].
  { unfold process_invalidate in E1. apply bind_inv in E1 as ([] & s2 & E2 & [= _ <-]). apply upd_proc_run in E2 as (x & Ex & ->). split; [|done].
    eapply wprocs_put; [done|done|]. intros j Hj. congruence. }
  refine (ck_map _ _ _ _ s1 o s' H1 _ E); [apply ck_suspend|by rewrite Hc1].
Qed.

(** ** Calls *)

Lemma qk_upd_sem i g : qk W (upd_sem i g).
Proof. unfold upd_sem, get_sem. qk_walk. Qed.
Lemma qk_upd_mx i g : qk W (upd_mx i g).
Proof. unfold upd_mx, get_mx. qk_walk. Qed.
Lemma qk_put_map i e : qk W (put_map i e).
Proof. unfold put_map. qk_walk. Qed.
Lemma qk_name_loop n i name : qk W (name_loop n i name).
Proof. revert i. induction n as [|n IH]; intros i; cbn [name_loop]; unfold get_sem; qk_walk. Qed.
Hint Resolve qk_kerrno qk_fail qk_unblock qk_create ck_elf_exit qk_upd_sem qk_upd_mx qk_put_map qk_name_loop ck_block : kwait.

Lemma ck_call c : ck W (run_call c).
Proof.
  destruct c; cbn [run_call];
    unfold sys_yield, sys_sleep, sys_process_status,
      sys_sem_init, sys_sem_open, sys_sem_close, sys_sem_unlink, sys_sem_destroy, sys_sem_getvalue, sys_sem_wait_x, sys_sem_timedwait, sys_sem_trywait, sys_sem_post,
      sys_sem_destroy, new_sem, get_sem_by_semt, sem_busy, sem_acquired, get_semt_by_name, get_sem_by_name, clear_map, get_sem,
      sys_pthread_mutex_destroy, sys_pthread_mutex_lock, sys_pthread_mutex_trylock, sys_pthread_mutex_unlock, pthread_mutex_lock_basic,
      mutex_index, mutex_lock_loop, mutex_take, mutex_release, sys_pthread_mutex_init, get_mx; ck_walk.
Qed.

(** A suspended call of another process goes on. *)
Lemma ck_resume f : ck W (resume f).
Proof. destruct f; cbn [resume]; unfold sem_timed_resume, sem_acquired, mutex_lock_loop, mutex_take, get_mx, get_sem; ck_walk. Qed.
End ops.

(** ** The semaphores of the client *)

Section sems.
Context {KC : KConfig}.
(** A semaphore and its queue. *)
Definition sem_info_at (j : Z) (s : kst) : option sem_info * option (queue Z) := (arr_get (sem_heap s) j, kqs s !! SemQ j).

Lemma info_blind_q j q : q ≠ SemQ j -> blind_q (sem_info_at j) q.
Proof. intros Hq m s. unfold sem_info_at. simpl. by rewrite lookup_insert_ne. Qed.
Lemma info_blind j : blind (sem_info_at j).
Proof. constructor; try done. intros i. by apply info_blind_q. Qed.
Lemma info_blind_mutex j : blind_mutex (sem_info_at j).
Proof. constructor; [done|]. intros i. by apply info_blind_q. Qed.
Lemma info_upd_sem i j g : i ≠ j -> frame_of (sem_info_at j) (upd_sem i g).
Proof.
  intros Hne s [] s' E. apply upd_sem_run in E as (x & Ex & ->). unfold sem_info_at. simpl. f_equal. pose proof (arr_get_range _ _ _ Ex).
  eapply arr_get_set_ne; [by apply arr_set_in|done].
Qed.

Lemma semt_run i s r s' : get_sem_by_semt (Some i) s = Some (r, s') -> s' = s ∧ (r = Some i ∨ r = None).
Proof.
  intros E. unfold get_sem_by_semt in E. revert E. case_bool_decide; [|intros [= <- <-]; auto]. intros E. apply bind_inv in E as (x & s2 & Ex & [= <- <-]).
  unfold get_sem, mbind, st_bind, gets, lift in Ex. destruct (arr_get _ _); [|done]. injection Ex as <- <-. split; [done|]. case_bool_decide; auto.
Qed.

(** The call does not concern the semaphore [j], which is in use. *)
Definition apart (j : Z) (c : call) (s : kst) : Prop :=
  match c with
  | CSemClose (Some i) | CSemDestroy (Some i) | CSemWait (Some i) | CSemTimedwait (Some i) _ | CSemTrywait (Some i) | CSemPost (Some i) => i ≠ j
  | CSemUnlink name => forall e, arr_get (sem_map s) j = Some e -> name_eq (sm_name e) name = false
  | _ => True
  end.

Lemma by_name_run name n : forall i s r s', name_loop n i name s = Some (r, s') -> s' = s ∧
  match r with Some k => exists e, arr_get (sem_map s) k = Some e ∧ name_eq (sm_name e) name = true | None => True end.
Proof.
  induction n as [|n IH]; intros i s r s' E; cbn [name_loop] in E; [by injection E as <- <-|].
  apply bind_inv in E as (m & s1 & [= <- <-] & E). apply bind_inv in E as (e & s1 & Ee & E). unfold lift in Ee.
  destruct (arr_get (sem_map s) i) as [e'|] eqn:Ei; [|done]. injection Ee as -> <-. apply bind_inv in E as (x & s1 & Ex & E).
  unfold get_sem, mbind, st_bind, gets, lift in Ex. destruct (arr_get (sem_heap s) i); [|done]. injection Ex as _ <-.
  destruct (name_eq (sm_name e) name && _) eqn:Eq; [|by apply IH in E]. injection E as <- <-. split; [done|]. exists e. by apply andb_true_iff in Eq as [? _].
Qed.

Lemma info_new j x value owner s r s' :
  arr_get (sem_heap s) j = Some x -> sem_id x ≠ -1 -> new_sem value owner s = Some (r, s') -> sem_info_at j s' = sem_info_at j s.
Proof.
  intros Hj Hid E. unfold new_sem in E. apply bind_inv in E as (h & s1 & [= <- <-] & E).
  destruct (list_find _ (sem_heap s)) as [[k y]|] eqn:Ef; [|by injection E as _ <-]. apply list_find_Some in Ef as (Ek & Hy & _). cbn zeta in E.
  assert (Z.of_nat k ≠ j) as Hne. { intros <-. rewrite arr_get_nat in Hj. congruence. }
  apply bind_inv in E as ([] & s1 & E1 & E). pose proof (info_upd_sem _ _ _ Hne _ _ _ E1) as Hi. apply bind_inv in E as ([] & s2 & E2 & [= _ <-]).
  rewrite (frame_on_q _ _ _ (info_blind_q j (SemQ (Z.of_nat k)) ltac:(congruence)) _ _ _ E2). done.
Qed.

Hint Resolve info_blind : kframe.
Hint Extern 2 (blind_q (sem_info_at _) _) => (apply info_blind_q; intros [= ?]; congruence) : kframe.
Hint Extern 2 (frame_of _ (upd_sem _ _)) => (apply info_upd_sem; assumption) : kframe.
Hint Extern 2 (frame_of _ (fail _)) => (apply frame_fail, info_blind) : kframe.
Hint Extern 2 (frame_of _ (kerrno _)) => (apply frame_kerrno, info_blind) : kframe.
Hint Extern 2 (frame_of _ (process_block _ _ _)) => (apply frame_block; [apply info_blind|apply info_blind_q; intros [= ?]; congruence]) : kframe.
Hint Extern 2 (frame_of _ (process_unblock _)) => (apply frame_unblock; [apply info_blind|apply info_blind_q; intros [= ?]; congruence]) : kframe.
Hint Extern 2 (frame_of _ (put_map _ _)) => (unfold put_map; frame_walk) : kframe.

(** The rest of a call, when it has found the semaphore. *)
Lemma info_found {A} j i (k : option Z -> ST kst A) s r s' :
  (get_sem_by_semt (Some i) ≫= k) s = Some (r, s') -> frame_of (sem_info_at j) (k (Some i)) -> frame_of (sem_info_at j) (k None) ->
  sem_info_at j s' = sem_info_at j s.
Proof. intros E H1 H2. apply bind_inv in E as (a & s1 & E1 & E). apply semt_run in E1 as [-> [-> | ->]]; [by eapply H1|by eapply H2]. Qed.

Lemma info_destroy j i : i ≠ j -> frame_of (sem_info_at j) (sys_sem_destroy (Some i)).
Proof. intros Hne s r s' E. eapply info_found; [exact E|..]; unfold sem_busy, get_sem; frame_walk. Qed.
Hint Resolve info_destroy : kframe.

Lemma map_inv {A B} (m : ST kst A) (f : A -> B) s b s' : (a ← m; mret (f a)) s = Some (b, s') -> exists a, m s = Some (a, s').
Proof. intros E. apply bind_inv in E as (a & s1 & E & [= _ <-]). by exists a. Qed.

Lemma info_call j x c s r s' :
  arr_get (sem_heap s) j = Some x -> sem_id x ≠ -1 -> apart j c s -> run_call c s = Some (r, s') -> sem_info_at j s' = sem_info_at j s.
Proof.
  intros Hj Hid Ha E. destruct (plain_call c) eqn:Ep; [by refine (frame_plain _ _ c Ep s r s' E); apply info_blind|].
  destruct (sem_call c) eqn:Es; [|by refine (frame_mutex _ _ _ c _ s r s' E); [apply info_blind|apply info_blind_mutex|rewrite Ep, Es]].
  assert (forall e, frame_of (sem_info_at j) (fail e)) as Hfail by (intros e; apply frame_fail, info_blind).
  destruct c as [| | | | |pshared value|name oflag value|sem|name|sem|sem|sem|sem ms|sem|sem| | | | |]; try done; cbn [run_call] in E; simpl in Ha.
  - apply map_inv in E as (a & E). unfold sys_sem_init in E. apply bind_inv in E as (c & s1 & [= <- <-] & E). apply bind_inv in E as (i & s1 & E1 & E).
    rewrite <- (info_new j x _ _ _ _ _ Hj Hid E1). destruct i; [by injection E as _ <-|]. revert E. apply (frame_bind _ (kerrno ENOSPC)); [|intros []]; frame_walk.
  - apply map_inv in E as (a & E). destruct name as [name|]; [|revert E; apply (frame_bind _ (kerrno EINVAL)); [|intros []]; frame_walk]. cbn [sys_sem_open] in E.
    revert E. case_bool_decide; [apply (frame_bind _ (kerrno EINVAL)); [|intros []]; frame_walk|]. intros E. apply bind_inv in E as (i & s1 & E1 & E).
    apply by_name_run in E1 as [-> _]. destruct i as [i|]; [revert E; set (m := if bool_decide _ then _ else _); intros E; assert (frame_of (sem_info_at j) m) as Hm by (unfold m; frame_walk); by apply (Hm s a)|].
    apply bind_inv in E as (i & s1 & E1 & E). rewrite <- (info_new j x _ _ _ _ _ Hj Hid E1). revert E.
    set (m := match i with Some _ => _ | None => _ end). intros E. assert (frame_of (sem_info_at j) m) as Hm by (unfold m; frame_walk). by apply (Hm s1 a).
  - apply map_inv in E as (a & E). destruct sem as [i|]; [|by apply (Hfail EINVAL s a)]. eapply info_found; [exact E|..]; unfold sem_busy, get_sem, clear_map; frame_walk.
  - apply map_inv in E as (a & E). unfold sys_sem_unlink in E. apply bind_inv in E as (i & s1 & E1 & E). apply by_name_run in E1 as [-> Hi].
    destruct i as [i|]; [|by apply (Hfail ENOENT s a)]. destruct Hi as (e & Ee & Hn). assert (i ≠ j) as Hne by (intros ->; rewrite (Ha e Ee) in Hn; done).
    revert E. set (m := get_sem i ≫= _). intros E. assert (frame_of (sem_info_at j) m) as Hm by (unfold m, get_sem, clear_map; frame_walk). by apply (Hm s a).
  - apply map_inv in E as (a & E). destruct sem as [i|]; [|by apply (Hfail EINVAL s a)]. by eapply info_destroy.
  - unfold sys_sem_getvalue in E. destruct sem as [i|]; [|refine (frame_bind _ _ _ (Hfail EINVAL) _ s r s' E); intros o; frame_walk].
    eapply info_found; [exact E|..]; unfold get_sem; frame_walk.
  - apply map_inv in E as (a & E). destruct sem as [i|]; [|by apply (Hfail EINVAL s a)]. eapply info_found; [exact E|..]; unfold sem_acquired, get_sem; frame_walk.
  - apply map_inv in E as (a & E). destruct sem as [i|]; [|by apply (Hfail EINVAL s a)]. eapply info_found; [exact E|..]; unfold sem_acquired, get_sem; frame_walk.
  - apply map_inv in E as (a & E). destruct sem as [i|]; [|by apply (Hfail EINVAL s a)]. eapply info_found; [exact E|..]; unfold sem_acquired, get_sem; frame_walk.
  - apply map_inv in E as (a & E). destruct sem as [i|]; [|by apply (Hfail EINVAL s a)]. eapply info_found; [exact E|..]; unfold sem_busy, get_sem; frame_walk.
Qed.

(** Resuming another process, and interrupts. *)
Lemma info_resume j f : (forall i t, f ≠ FSemTimed i t) -> frame_of (sem_info_at j) (resume f).
Proof.
  intros Hf. destruct f as [|i|i t|i|i|]; cbn [resume].
  - apply frame_ret.
  - unfold sem_acquired, get_sem. frame_walk.
  - by destruct (Hf i t).
  - apply frame_lock_loop; [apply info_blind|apply info_blind_mutex].
  - apply frame_undef.
  - apply frame_undef.
Qed.
Lemma info_finish j o : frame_of (sem_info_at j) (finish o).
Proof. apply frame_finish, info_blind. Qed.
End sems.

(** ** The invariant of a client *)

Section client.
Context {KC : KConfig} {KOK : KConfigOk KC}.
Implicit Types (s : kst) (p j : Z) (Q : qmap) (T : list soft_tmr) (J : gset Z) (W : gmap Z Z).

(** [J] are the semaphores of the client, [W] its suspended processes: only they
    wait for the semaphores. *)
Record cinv J W Q s : Prop := {
  ci_timed : no_timed s;
  ci_bal : balanced s;
  ci_procs : wprocs W s;
  ci_sems j : j ∈ J -> exists x, arr_get (sem_heap s) j = Some x ∧ sem_id x ≠ -1 ∧ sem_unlink x = false;
  ci_queue j p : j ∈ J -> p ∈ Q (SemQ j) -> W !! p = Some j;
}.

Definition sval j s : Z := match arr_get (sem_heap s) j with Some x => sem_value x | None => 0 end.

Lemma sval_at j s x : arr_get (sem_heap s) j = Some x -> sval j s = sem_value x.
Proof. unfold sval. by intros ->. Qed.
Lemma info_sval j s s' : sem_info_at j s' = sem_info_at j s -> sval j s' = sval j s.
Proof. intros [= E _]. unfold sval. by rewrite E. Qed.

Lemma info_queue Q T s Q' T' s' j x p :
  kinv Q T s -> kinv Q' T' s' -> arr_get (sem_heap s) j = Some x -> sem_info_at j s' = sem_info_at j s -> p ∈ Q' (SemQ j) -> p ∈ Q (SemQ j).
Proof.
  intros H H' E [= _ Eq] Hp. pose proof (sem_valid _ _ _ _ _ H E) as Hj.
  destruct (c_qs _ _ _ (i_core _ _ _ H) (SemQ j) Hj) as (y & Ey & Hy), (c_qs _ _ _ (i_core _ _ _ H') (SemQ j) Hj) as (y' & Ey' & Hy').
  assert (y' = y) as -> by congruence. by rewrite (qok_same _ _ _ _ _ _ Hy Hy').
Qed.

(** Statements that leave the semaphores alone. *)
Lemma cinv_info J W Q T s Q' T' s' :
  kinv Q T s -> kinv Q' T' s' -> cinv J W Q s -> no_timed s' -> balanced s' -> wprocs W s' ->
  (forall j, j ∈ J -> sem_info_at j s' = sem_info_at j s) -> cinv J W Q' s' ∧ forall j, j ∈ J -> sval j s' = sval j s.
Proof.
  intros H H' [C1 C2 C3 C4 C5] N B P HI. split; [|intros j Hj; by apply info_sval, HI]. constructor; try done.
  - intros j Hj. destruct (C4 j Hj) as (x & E & Hx). exists x. split; [|done]. pose proof (HI j Hj) as [= -> _]. done.
  - intros j p Hj Hp. apply (C5 j); [done|]. destruct (C4 j Hj) as (x & E & _). by apply (info_queue Q T s Q' T' s' j x p H H' E (HI j Hj)).
Qed.

Lemma cinv_call J W Q T s c r s' Q' T' :
  kinv Q T s -> cinv J W Q s -> current_pid s ≠ idle_task_pid -> W !! current_pid s = None -> call_ok c -> tame (ECall c) s ->
  run_call c s = Some (r, s') -> kinv Q' T' s' -> (forall j, j ∈ J -> apart j c s) ->
  cinv J W Q' s' ∧ forall j, j ∈ J -> sval j s' = sval j s.
Proof.
  intros H Hc Hid Hw Hok Ht E H' Ha. destruct (Hc) as [C1 C2 C3 C4 C5]. apply (cinv_info J W Q T s Q' T' s' H H' Hc).
  - refine (stable_call c _ s r s' C1 E). by destruct c.
  - exact (call_balanced Q T s c r s' H Hid Hok C2 Ht E).
  - exact (ck_call W c s r s' C3 Hw E).
  - intros j Hj. destruct (C4 j Hj) as (x & Ex & Hx & _). by apply (info_call j x c s r s' Ex Hx (Ha j Hj)).
Qed.

Lemma cinv_finish J W Q T s o s' Q' T' :
  kinv Q T s -> cinv J W Q s -> W !! current_pid s = None -> finish o s = Some (tt, s') -> kinv Q' T' s' ->
  cinv J W Q' s' ∧ forall j, j ∈ J -> sval j s' = sval j s.
Proof.
  intros H Hc Hw E H'. destruct (Hc) as [C1 C2 C3 C4 C5]. apply (cinv_info J W Q T s Q' T' s' H H' Hc).
  - exact (stable_finish o s tt s' C1 E).
  - eapply kb_frame; [|exact C2|exact E]. intros i. apply frame_finish, view_blind.
  - exact (ck_finish W o s tt s' C3 Hw E).
  - intros j _. by apply (info_finish j o s tt s').
Qed.

Lemma cinv_weaken J J' W Q s : cinv J W Q s -> J' ⊆ J -> cinv J' W Q s.
Proof. intros [C1 C2 C3 C4 C5] HJ. constructor; auto. Qed.
Lemma cinv_add J W Q s j x :
  cinv (J ∖ {[j]}) W Q s -> arr_get (sem_heap s) j = Some x -> sem_id x ≠ -1 -> sem_unlink x = false ->
  (forall p, p ∈ Q (SemQ j) -> W !! p = Some j) -> cinv J W Q s.
Proof.
  intros [C1 C2 C3 C4 C5] E Hid Hun Hq. constructor; try done; intros i; destruct (decide (i = j)) as [->|Hne]; try (by eauto).
  - intros Hi. apply C4. set_solver.
  - intros p Hi. apply C5. set_solver.
Qed.

(** ** Steps outside of the client *)

Lemma call_cinv J W Q T s c r s' :
  kgood Q T s -> cinv J W Q s -> enabled (ECall c) s -> tame (ECall c) s -> W !! current_pid s = None -> (forall j, j ∈ J -> apart j c s) ->
  kstep (ECall c) s = Some (r, s') -> exists Q' T', kgood Q' T' s' ∧ cinv J W Q' s' ∧ forall j, j ∈ J -> sval j s' = sval j s.
Proof.
  intros Hg Hc He Ht Hw Ha E. destruct (step_of _ _ _ _ _ _ Hg He E) as (Q' & T' & H'). exists Q', T'. split; [apply H'|].
  pose proof (g_inv _ _ _ (st_good _ _ _ _ _ _ _ H')) as K'. destruct He as (Hctx & Hid & Hok). cbn [kstep] in E.
  apply bind_inv in E as (o & s1 & E1 & E). apply bind_inv in E as ([] & s2 & E2 & [= _ ->]).
  pose proof (run_call_safe (current_pid s) c Hok Hid Q T s (g_inv _ _ _ Hg) eq_refl) as Hr. apply wp_run in Hr as (o' & s1' & E1' & Q1 & T1 & Hp). simplify_eq.
  assert (kinv Q1 T1 s1 ∧ (forall r, o.1 = Done r -> current_pid s1 = current_pid s)) as [K1 Hcur] by (destruct (o.1); destruct Hp; split; try done; by intros ? [=]).
  destruct (cinv_call J W Q T s c o s1 Q1 T1 (g_inv _ _ _ Hg) Hc Hid Hw Hok Ht E1 K1 Ha) as [C1 V1]. destruct o as [[r'|] v]; cbn [fst finish] in *.
  - destruct (cinv_finish J W Q1 T1 s1 (Done r') s' Q' T' K1 C1) as [C2 V2]; [by rewrite (Hcur r' eq_refl)|done|done|].
    split; [done|]. intros j Hj. by rewrite V2, V1.
  - injection E2 as <-. destruct (cinv_info J W Q1 T1 s1 Q' T' s1 K1 K' C1) as [C2 _]; try apply C1; done.
Qed.

Lemma resume_cinv J W Q T s r s' :
  kgood Q T s -> cinv J W Q s -> enabled EResume s -> W !! current_pid s = None -> kstep EResume s = Some (r, s') ->
  exists Q' T', kgood Q' T' s' ∧ cinv J W Q' s' ∧ forall j, j ∈ J -> sval j s' = sval j s.
Proof.
  intros Hg Hc He Hw E. destruct (step_of _ _ _ _ _ _ Hg He E) as (Q' & T' & H'). exists Q', T'. split; [apply H'|].
  pose proof (g_inv _ _ _ (st_good _ _ _ _ _ _ _ H')) as K'. destruct (Hc) as [C1 C2 C3 C4 C5].
  apply (cinv_info J W Q T s Q' T' s' (g_inv _ _ _ Hg) K' Hc); [by eapply stable_resume|by eapply resume_balanced|..].
  all: cbn [kstep] in E; apply bind_inv in E as (p & s0 & [= <- <-] & E); apply bind_inv in E as (x & s0 & Ex & E).
  all: assert (s0 = s ∧ arr_get (ptable s) (current_pid s) = Some x) as [-> Exx]
    by (unfold get_proc, mbind, st_bind, gets, lift in Ex; destruct (arr_get _ _); by simplify_eq).
  all: apply bind_inv in E as (f & s0 & Ef & E); unfold lift in Ef; destruct (kctx x) as [f'|] eqn:Ek; [injection Ef as -> <-|done].
  all: apply bind_inv in E as ([] & s0 & E0 & E); apply bind_inv in E as (o & s1 & E1 & E); apply bind_inv in E as ([] & s2 & E2 & [= _ ->]).
  - assert (wprocs W s0 ∧ current_pid s0 = current_pid s) as [P0 Hc0].
    { apply upd_proc_run in E0 as (y & Ey & ->). split; [|done]. eapply wprocs_put; [done|done|]. intros j Hj. congruence. }
    assert (wprocs W s1) as P1 by (eapply (ck_resume W f s0); [done|by rewrite Hc0|done]).
    destruct o as [r'|]; [|by injection E2 as <-]. eapply (ck_finish W (Done r') s1); [done| |done].
    pose proof (g_inv _ _ _ (resume_good Q T s x Hg Exx)) as K0. destruct (o_frame _ _ (c_pcb _ _ _ (i_core _ _ _ (g_inv _ _ _ Hg)) _ x Exx) f Ek) as [Hid Hf].
    apply upd_proc_run in E0 as (y & Ey & ->). assert (y = x) as -> by congruence.
    pose proof (resume_safe _ f Hf Hid Q T _ K0 eq_refl) as Hr. apply wp_run in Hr as (o' & s1' & E1' & Q1 & T1 & Hp). simplify_eq.
    simpl in Hp. by rewrite (dn_cur _ _ _ _ _ _ Hp).
  - intros j Hj. rewrite (info_finish j o _ _ _ E2). rewrite (info_resume j f (fun i t Hf => proj2 (C1 _ _ Exx) i t (eq_trans Ek (f_equal Some Hf))) _ _ _ E1).
    by apply (frame_upd_proc _ (info_blind j) _ _ _ _ _ E0).
Qed.

Lemma tick_cinv J W Q T s r s' :
  kgood Q T s -> cinv J W Q s -> kstep ETick s = Some (r, s') ->
  exists Q' T', kgood Q' T' s' ∧ cinv J W Q' s' ∧ forall j, j ∈ J -> sval j s' = sval j s.
Proof.
  intros Hg Hc E. pose proof (tick_step Q T s Hg) as Hs. apply wp_run in Hs as (r' & s2 & E' & Q2 & T2 & H2). assert (s2 = s') as -> by congruence. clear E'.
  pose proof (g_inv _ _ _ Hg) as H. destruct (Hc) as [C1 C2 C3 C4 C5]. exists Q2, T2. split; [apply H2|]. pose proof (g_inv _ _ _ (st_good _ _ _ _ _ _ _ H2)) as K2.
  destruct (i_cur _ _ _ H) as (x & Ex & _). pose proof (irq_entry_spec Q T s x H Ex) as Hw. apply wp_run in Hw as ([] & s1' & Ei & Hw).
  assert (balanced s') as B' by exact (balanced_tick Q T s r s' H C1 C2 E). assert (no_timed s') as N' by (by refine (stable_kstep ETick s r s' C1 I E)).
  cbn [kstep] in E. unfold mbind, st_bind in E. rewrite Ei in E. injection E as _ ->. destruct Hw as (s1 & Q1 & n & Q' & Hex & H' & _ & _ & _ & Hob & _ & Hor).
  assert (sem_heap s' = sem_heap s) as Eh by (rewrite (d_sems _ _ Hob), (d_sems _ _ (e_objs _ _ _ _ _ Hex)); done).
  split; [|intros j _; unfold sval; by rewrite Eh]. constructor; try done; [exact (wk_irq W s tt s' C3 Ei)|by rewrite Eh|].
  intros j p Hj Hp. destruct (C4 j Hj) as (y & Ey & _). apply (C5 j); [done|].
  assert (p ∈ Q' (SemQ j)) as Hp1 by (eapply (info_queue Q' _ s' Q2 T2 s' j y); [done|done|by rewrite Eh|done|done]).
  assert (p ∈ Q1 (SemQ j)) as Hp2.
  { destruct Hor as [(_ & -> & _)|[Hpk _]]; [done|]. by rewrite (picks_wait _ _ _ (SemQ j) Hpk eq_refl), requeue_wait in Hp1. }
  rewrite (e_wait _ _ _ _ _ Hex (SemQ j) eq_refl) in Hp2. by apply list_elem_of_filter in Hp2 as [_ ?].
Qed.
End client.
