(* ===== verification/Ktokens.v ===== *)
(** * The tokens of a semaphore

    The value of a semaphore accounts for its tokens: it is the initial value, plus
    the posts, minus the waits that have begun and the successful
    [sys_sem_trywait]; when it is negative, the processes that are still waiting
    are as many as it says. *)

From stdpp Require Import gmap.
From S2P Require Import Prelude Kqueue Kheap Ktimer Ksched Ksem Kmutex Kinv Kops Kkill Kernel Ksafe Kinit Kreach Kframe Kcount Kwait.
Open Scope Z_scope.

(** A step with its result. *)
Abbreviation kres := (outcome * option Z)%type.

#[export] Instance outcome_eq_dec : EqDecision outcome.
Proof. solve_decision. Defined.

(** The posts to a semaphore, and the calls that take a token or begin to wait for one. *)
Definition posted (i : Z) (er : event * kres) : Z :=
  if decide (er.1 = ECall (CSemPost (Some i)) ∧ er.2.1 = Done 0) then 1 else 0.
Definition taken (i : Z) (er : event * kres) : Z :=
  if decide (er.1 = ECall (CSemWait (Some i)) ∨ (er.1 = ECall (CSemTrywait (Some i)) ∧ er.2.1 = Done 0)) then 1 else 0.
Fixpoint posts (i : Z) (tr : list (event * kres)) : Z := match tr with [] => 0 | er :: tr => posted i er + posts i tr end.
Fixpoint takes (i : Z) (tr : list (event * kres)) : Z := match tr with [] => 0 | er :: tr => taken i er + takes i tr end.

Section tokens.
Context {KC : KConfig} {KOK : KConfigOk KC}.
Implicit Types (s : kst) (i : Z) (Q : qmap) (T : list soft_tmr).

(** The event does not remove the semaphore. *)
Definition keeps_sem i (e : event) s : Prop :=
  match e with
  | ECall c => c = CSemWait (Some i) ∨ c = CSemTrywait (Some i) ∨ c = CSemPost (Some i) ∨ apart i c s
  | _ => True
  end.

(** Runs in which the semaphore [i] is not removed. *)
Inductive sem_run i : kst -> list (event * kres) -> kst -> Prop :=
  | sem_run_nil s : sem_run i s [] s
  | sem_run_cons s e r s1 tr s2 : enabled e s -> tame e s -> keeps_sem i e s -> kstep e s = Some (r, s1) -> sem_run i s1 tr s2 ->
      sem_run i s ((e, r) :: tr) s2.

Definition live_sem i (v : Z) s : Prop := exists x, arr_get (sem_heap s) i = Some x ∧ sem_id x ≠ -1 ∧ sem_unlink x = false ∧ sem_value x = v.

Lemma live_put i v s x w : arr_get (sem_heap s) i = Some x -> sem_id x ≠ -1 -> sem_unlink x = false -> w = v -> live_sem i v (put_value i x w s).
Proof. intros E H1 H2 ->. exists (set_sem_value v x). split; [by apply put_value_at|done]. Qed.
Lemma live_same i v s s' : sem_heap s' = sem_heap s -> live_sem i v s -> live_sem i v s'.
Proof. intros E. unfold live_sem. by rewrite E. Qed.
Lemma live_info i v s s' : sem_info_at i s' = sem_info_at i s -> live_sem i v s -> live_sem i v s'.
Proof. intros [= E _]. unfold live_sem. by rewrite E. Qed.

(** The calls on the semaphore. *)
Lemma call_tokens Q T s i v c r s' :
  kinv Q T s -> balanced s -> current_pid s ≠ idle_task_pid -> tame (ECall c) s -> keeps_sem i (ECall c) s -> live_sem i v s ->
  run_call c s = Some (r, s') -> live_sem i (v + posted i (ECall c, r) - taken i (ECall c, r)) s'.
Proof.
  intros H Hb Hid Ht Hk (x & E & Hus & Hun & <-) Ec. pose proof (balanced_at _ _ _ _ _ H Hb E Hus) as Hbal. pose proof (waiting_bound Q T s (SemQ i) H Hid) as Hn.
  unfold posted, taken. simpl fst. simpl snd. destruct Hk as [->|[->|[->|Ha]]]; cbn [run_call] in Ec.
  - apply bind_inv in Ec as (o & s1 & Eo & [= <- <-]). rewrite decide_False by (by intros []). rewrite decide_True by (by left).
    assert (-127 <= sem_value x) as Hlow by (destruct Hbal; lia). pose proof (wp_partial _ _ _ _ _ (wait_spec Q T s i x H Hid E Hus Hlow) Eo) as Hor.
    simpl in Hor. destruct Hor as [(_ & _ & ->)|(_ & _ & c & l' & n & Q' & _ & _ & _ & _ & _ & _ & Hsw)]; [apply live_put; [done..|lia]|].
    eapply live_same; [apply (d_sems _ _ (d_objs _ _ (w_data _ _ _ _ _ _ Hsw)))|]. apply live_put; [done..|lia].
  - apply bind_inv in Ec as (o & s1 & Eo & [= <- <-]). rewrite decide_False by (by intros []). simpl.
    pose proof (wp_partial _ _ _ _ _ (trywait_spec Q T s i x H E Hus) Eo) as [(-> & _ & ->)|(-> & _ & Ef)].
    + rewrite decide_True by (by right). apply live_put; [done..|lia].
    + rewrite decide_False by (by intros [|[]]). eapply live_info; [exact (frame_fail _ (info_blind i) _ _ _ _ Ef)|]. exists x. split_and!; [done..|lia].
  - apply bind_inv in Ec as (o & s1 & Eo & [= <- <-]). simpl in Ht. rewrite E in Ht.
    pose proof (wp_partial _ _ _ _ _ (post_spec Q T s i x H E Hus Ht) Eo) as [-> Hor]. rewrite decide_True by done. rewrite decide_False by (by intros [|[]]).
    destruct Hor as [(Q' & T' & z & _ & Eh & _)|[_ [->|[Hu _]]]]; [|apply live_put; [done..|lia]|congruence].
    eapply live_same; [exact Eh|]. apply live_put; [done..|lia].
  - rewrite decide_False by (intros [[= ->] _]; by apply Ha). rewrite decide_False by (intros [[= ->]|[[= ->] _]]; by apply Ha).
    eapply live_info; [by eapply info_call|]. exists x. split_and!; [done..|lia].
Qed.

Lemma step_tokens Q T s i v e r s' :
  kgood Q T s -> no_timed s -> balanced s -> enabled e s -> tame e s -> keeps_sem i e s -> live_sem i v s -> kstep e s = Some (r, s') ->
  live_sem i (v + posted i (e, r) - taken i (e, r)) s'.
Proof.
  intros Hg Hnt Hb He Ht Hk Hl E. pose proof (g_inv _ _ _ Hg) as H. destruct e as [c| | |p].
  { destruct He as (_ & Hid & _). cbn [kstep] in E. apply bind_inv in E as (o & s1 & Ec & E). apply bind_inv in E as ([] & s2 & Ef & [= -> ->]).
    eapply live_info; [exact (info_finish i _ _ _ _ Ef)|]. by eapply call_tokens. }
  all: unfold posted, taken; rewrite decide_False by (by intros []); rewrite decide_False by (by intros [|[]]); replace (v + 0 - 0) with v by lia.
  - eapply live_info; [|done]. cbn [kstep] in E. apply bind_inv in E as (p & s0 & [= <- <-] & E). apply bind_inv in E as (x & s0 & Ex & E).
    assert (s0 = s ∧ arr_get (ptable s) (current_pid s) = Some x) as [-> Exx]
      by (unfold get_proc, mbind, st_bind, gets, lift in Ex; destruct (arr_get _ _); by simplify_eq).
    apply bind_inv in E as (f & s0 & Ef & E). unfold lift in Ef. destruct (kctx x) as [f'|] eqn:Ek; [injection Ef as -> <-|done].
    apply bind_inv in E as ([] & s0 & E0 & E). apply bind_inv in E as (o & s1 & E1 & E). apply bind_inv in E as ([] & s2 & E2 & [= _ ->]).
    rewrite (info_finish i o _ _ _ E2). rewrite (info_resume i f (fun j t Hf => proj2 (Hnt _ _ Exx) j t (eq_trans Ek (f_equal Some Hf))) _ _ _ E1).
    by apply (frame_upd_proc _ (info_blind i) _ _ _ _ _ E0).
  - eapply live_same; [|done]. cbn [kstep] in E. apply bind_inv in E as ([] & s1 & E1 & [= _ ->]). by apply (frame_irq sem_heap ltac:(done) ltac:(done) s tt).
  - eapply live_same; [|done]. by apply (frame_kill sem_heap ltac:(done) p ltac:(done) s r).
Qed.

Lemma run_tokens i s tr s' : sem_run i s tr s' -> forall Q T v, kgood Q T s -> no_timed s -> balanced s -> live_sem i v s ->
  live_sem i (v + posts i tr - takes i tr) s' ∧ balanced s' ∧ exists Q' T', kgood Q' T' s'.
Proof.
  induction 1 as [s|s e r s1 tr s2 He Ht Hk E _ IH]; intros Q T v Hg Hnt Hb Hl; simpl.
  { replace (v + 0 - 0) with v by lia. eauto. }
  pose proof (step_tokens Q T s i v e r s1 Hg Hnt Hb He Ht Hk Hl E) as Hl1. destruct (step_of _ _ _ _ _ _ Hg He E) as (Q1 & T1 & H1).
  assert (no_timed s1) as Hnt1 by (refine (stable_kstep e s r s1 Hnt _ E); by destruct e as [[]| | |]).
  assert (balanced s1) as Hb1 by (by eapply (step_balanced Q T); [apply Hg|..]).
  destruct (IH Q1 T1 _ (st_good _ _ _ _ _ _ _ H1) Hnt1 Hb1 Hl1) as (Hl2 & Hrest). split; [|done].
  replace (v + (posted i (e, r) + posts i tr) - (taken i (e, r) + takes i tr)) with (v + posted i (e, r) - taken i (e, r) + posts i tr - takes i tr) by lia. done.
Qed.

Lemma run_state s es s' : tame_steps s es s' -> forall Q T, kgood Q T s -> no_timed s -> balanced s -> exists Q' T', kgood Q' T' s' ∧ no_timed s' ∧ balanced s'.
Proof.
  induction 1 as [s|s e r s1 es s2 He Ht E Hst IH]; intros Q T Hg Hnt Hb; [eauto|].
  destruct (step_of _ _ _ _ _ _ Hg He E) as (Q1 & T1 & H1). apply (IH Q1 T1); [apply H1| |by eapply (step_balanced Q T); [apply Hg|..]].
  refine (stable_kstep e s r s1 Hnt _ E). by destruct e as [[]| | |].
Qed.

(** A new semaphore has the initial value. *)
Lemma init_live pshared v s r i s' : 0 <= v <= 127 -> kstep (ECall (CSemInit pshared v)) s = Some ((r, Some i), s') -> live_sem i v s'.
Proof.
  intros Hv E. cbn [kstep run_call] in E. apply bind_inv in E as (o & s1 & E1 & E). apply bind_inv in E as ([] & s2 & Ef & [= -> ->]).
  eapply live_info; [exact (info_finish i _ _ _ _ Ef)|]. clear Ef. apply bind_inv in E1 as ([a b] & s2 & E1 & [= _ -> <-]). unfold sys_sem_init in E1.
  apply bind_inv in E1 as (c & s0 & [= <- <-] & E1). apply bind_inv in E1 as (j & s3 & E3 & E1).
  destruct j as [j|]; [|by apply bind_inv in E1 as ([] & s4 & _ & [=])]. injection E1 as <- <- ->.
  unfold new_sem in E3. apply bind_inv in E3 as (h & s4 & [= <- <-] & E3). destruct (list_find _ _) as [[k y]|] eqn:Ek; [|done]. cbn zeta in E3.
  apply bind_inv in E3 as ([] & s4 & Eu & E3). apply bind_inv in E3 as ([] & s5 & Eq & [= <- ->]). apply upd_sem_run in Eu as (x & Ex & ->).
  eapply live_same; [exact (frame_on_q sem_heap (SemQ (Z.of_nat k)) qinit ltac:(done) _ _ _ Eq)|]. eexists. split; [simpl; eapply arr_get_set, arr_set_in; by apply arr_get_range in Ex|].
  simpl. split_and!; [lia|done|]. apply s8_small. lia.
Qed.

End tokens.

(** One token, three waits (two processes have to wait), and a post that wakes one of them. *)
Definition token_trace : list (event * kres) :=
  [(ECall (CSemWait (Some 0)), (Done 0, None)); (ECall (CSemWait (Some 0)), (Blocked, None)); (ECall (CSemWait (Some 0)), (Blocked, None));
   (ECall (CSemPost (Some 0)), (Done 0, None)); (ECall (CSemTrywait (Some 0)), (Done (-1), None))].
Definition token_demo (n : nat) : kst := demo_run false [0; 0; 0] (ETick :: ECall (CSemInit 1 1) :: take n (fst <$> token_trace)).

