(* ===== verification/Kclient.v ===== *)
(** * The semaphore operations of a client inside of the kernel

    What [sys_sem_wait_x], [sys_sem_trywait], [sys_sem_post] and [sys_sem_init] do
    to the semaphores of a client, to its suspended processes and to the
    invariant of Kwait.v. *)

From stdpp Require Import gmap.
From S2P Require Import Prelude Kqueue Kheap Ktimer Ksched Ksem Kmutex Kinv Kops Kernel Ksafe Kinit Kreach Kframe Kcount Kwait.
Open Scope Z_scope.

Section ops.
Context {KC : KConfig} {KOK : KConfigOk KC}.
Implicit Types (s : kst) (p j : Z) (Q : qmap) (T : list soft_tmr) (J : gset Z) (W : gmap Z Z).

(** The values of the other semaphores stay. *)
Definition keeps_others J j s s' : Prop := forall i, i ∈ J -> i ≠ j -> sval i s' = sval i s.

(** A call of the client concerns the semaphore [j]. *)
Lemma cinv_own J W Q T s c r s' Q' T' j x' :
  kinv Q T s -> cinv J W Q s -> current_pid s ≠ idle_task_pid -> W !! current_pid s = None -> call_ok c -> tame (ECall c) s ->
  run_call c s = Some (r, s') -> kinv Q' T' s' -> (forall i, i ∈ J -> i ≠ j -> apart i c s) ->
  arr_get (sem_heap s') j = Some x' -> sem_id x' ≠ -1 -> sem_unlink x' = false -> (forall p, p ∈ Q' (SemQ j) -> p ∈ Q (SemQ j)) -> j ∈ J ->
  cinv J W Q' s' ∧ keeps_others J j s s'.
Proof.
  intros H Hc Hid Hw Hok Ht E H' Ha Ex Hx Hu Hq Hj.
  destruct (cinv_call (J ∖ {[j]}) W Q T s c r s' Q' T' H) as [C' V']; [eapply cinv_weaken; [done|set_solver]|done..|intros i Hi; apply Ha; set_solver|].
  split; [|intros i Hi Hne; apply V'; set_solver]. eapply cinv_add; [done|exact Ex|done|done|]. intros p Hp. by apply (ci_queue _ _ _ _ Hc), Hq.
Qed.

Lemma map_run {A B} (m : ST kst A) (f : A -> B) s a s' : m s = Some (a, s') -> (a ← m; mret (f a)) s = Some (f a, s').
Proof. intros E. unfold mbind, st_bind. by rewrite E. Qed.

(** A process of the client is suspended. *)
Lemma wprocs_insert W s p j x : wprocs W s -> arr_get (ptable s) p = Some x -> kctx x = Some (FSemWait j) -> is_allocated x = true -> wprocs (<[p := j]> W) s.
Proof.
  intros H E Hk Ha r y Ey i Hi. destruct (decide (r = p)) as [->|Hr].
  - rewrite lookup_insert_eq in Hi. injection Hi as <-. by simplify_eq.
  - rewrite lookup_insert_ne in Hi by done. by apply (H r).
Qed.
Lemma cinv_insert J W Q s p j x :
  cinv J W Q s -> W !! p = None -> arr_get (ptable s) p = Some x -> kctx x = Some (FSemWait j) -> is_allocated x = true -> cinv J (<[p := j]> W) Q s.
Proof.
  intros [C1 C2 C3 C4 C5] Hp E Hk Ha. constructor; try done; [by eapply wprocs_insert|]. intros i r Hi Hr. specialize (C5 i r Hi Hr).
  rewrite lookup_insert_ne; [done|]. intros ->. congruence.
Qed.

Lemma client_value J W Q T s j :
  kinv Q T s -> cinv J W Q s -> j ∈ J -> exists x, arr_get (sem_heap s) j = Some x ∧ sem_id x ≠ -1 ∧ sem_unlink x = false ∧ sval j s = sem_value x ∧
    balance (sem_value x) (Z.of_nat (length (Q (SemQ j)))) ∧ sem_value x <= 127 ∧ 0 <= j < MAX_SEM.
Proof.
  intros H Hc Hj. destruct (ci_sems _ _ _ _ Hc j Hj) as (x & E & Hid & Hu). exists x. pose proof (sem_at _ _ _ _ _ H E) as [_ Hv].
  split_and!; try done; [by apply sval_at|by eapply balanced_at; [done|apply Hc|..]|lia|by eapply sem_valid..].
Qed.

Lemma client_wait J W Q T s j :
  kinv Q T s -> cinv J W Q s -> j ∈ J -> current_pid s ≠ idle_task_pid -> W !! current_pid s = None ->
  wp (sys_sem_wait_x (Some j)) s (λ o s', sval j s' = sval j s - 1 ∧ keeps_others J j s s' ∧
    match o with
    | Done r => r = 0 ∧ 0 < sval j s ∧ done_post Q T s Q T s' ∧ cinv J W Q s'
    | Blocked => sval j s <= 0 ∧ exists Q' T', block_post Q T s Q' T' s' ∧ cinv J (<[current_pid s := j]> W) Q' s'
    end).
Proof.
  intros H Hc Hj Hid Hw. destruct (client_value _ _ _ _ _ _ H Hc Hj) as (x & E & Hus & Hu & Hs & Hbal & Hle & Hr).
  pose proof (waiting_bound Q T s (SemQ j) H Hid) as Hn.
  assert (-127 <= sem_value x) as Hlow by (destruct Hbal; lia). pose proof (wait_spec Q T s j x H Hid E Hus Hlow) as Hwp.
  apply wp_run in Hwp as (o & s' & Eo & Hor). apply wp_run. exists o, s'. split; [done|].
  pose proof (map_run _ (λ o, (o, @None Z)) _ _ _ Eo) as Ec.
  assert (forall Q' T' x', kinv Q' T' s' -> arr_get (sem_heap s') j = Some x' -> sem_id x' ≠ -1 -> sem_unlink x' = false ->
    cinv (J ∖ {[j]}) W Q' s' ∧ forall i, i ∈ J ∖ {[j]} -> sval i s' = sval i s) as Hoth.
  { intros Q' T' x' H' _ _ _. apply (cinv_call (J ∖ {[j]}) W Q T s (CSemWait (Some j)) (o, None) s' Q' T' H); try done; [eapply cinv_weaken; [done|set_solver]|by apply sem_valid_arg|].
    intros i Hi ->. set_solver. }
  set (x' := set_sem_value (sem_value x + -1) x) in *.
  destruct Hor as [(-> & Hv & ->)|(-> & Hv & c & l' & n & Q' & Ecur & Hal & Hl & Hp & H' & Htop & Hsw)].
  - assert (-128 <= sem_value x + -1 <= 127) as Hrg by lia. pose proof (put_value_done Q T s j x _ H E Hrg) as H1.
    pose proof (put_value_at s j x (sem_value x + -1) E) as E1. fold x' in E1.
    destruct (Hoth Q T x' (dn_inv _ _ _ _ _ _ H1) E1 Hus Hu) as [C1 V1]. split; [rewrite (sval_at _ _ _ E1), Hs; simpl; lia|].
    split; [intros i Hi Hne; apply V1; set_solver|]. split; [done|]. split; [lia|]. split; [done|]. eapply cinv_add; [exact C1|exact E1|done|done|].
    intros p. by apply (ci_queue _ _ _ _ Hc).
  - assert (arr_get (sem_heap s') j = Some x') as E1.
    { rewrite (d_sems _ _ (d_objs _ _ (w_data _ _ _ _ _ _ Hsw))). by apply put_value_at. }
    destruct (Hoth Q' T x' H' E1 Hus Hu) as [C1 V1]. split; [rewrite (sval_at _ _ _ E1), Hs; simpl; lia|].
    split; [intros i Hi Hne; apply V1; set_solver|]. split; [lia|]. exists Q', T. split.
    + eapply (block_intro Q T s (qupd Q (SemQ j) l') T (put_value j x (sem_value x + -1) s)); try done. by apply grows_wait.
    + pose proof (w_self _ _ _ _ _ _ Hsw) as Es. rewrite bool_decide_eq_false_2 in Es by done. eapply cinv_add; [|exact E1|done|done|].
      * by eapply cinv_insert.
      * intros p. rewrite (picks_wait _ _ _ (SemQ j) Hp eq_refl), qupd_eq, Hl. intros [->|Hin]%elem_of_cons; [apply lookup_insert_eq|].
        pose proof (ci_queue _ _ _ _ Hc j p Hj Hin). rewrite lookup_insert_ne; [done|]. congruence.
Qed.

(** A call that fails. *)
Lemma client_errno J W Q T s e :
  kinv Q T s -> cinv J W Q s -> wp (kerrno e) s (λ _ s', done_post Q T s Q T s' ∧ cinv J W Q s' ∧ forall j, j ∈ J -> sval j s' = sval j s).
Proof.
  intros H Hc. pose proof (kerrno_done Q T s e H) as Hw. apply wp_run in Hw as ([] & s' & E & H'). apply wp_run. exists tt, s'. split; [done|]. split; [done|].
  destruct (Hc) as [C1 C2 C3 C4 C5]. apply (cinv_info J W Q T s Q T s' H (dn_inv _ _ _ _ _ _ H') Hc).
  - exact (stable_kerrno e s tt s' C1 E).
  - exact (kb_kerrno e s tt s' C2 E).
  - unfold kerrno in E. apply bind_inv in E as (c & s1 & [= <- <-] & E). refine (wk_upd W _ _ _ s tt s' C3 E). intros x Hx. exact Hx.
  - intros j _. exact (frame_kerrno _ (info_blind j) e s tt s' E).
Qed.
Lemma client_fail J W Q T s e :
  kinv Q T s -> cinv J W Q s -> wp (fail e) s (λ o s', o = Done (-1) ∧ done_post Q T s Q T s' ∧ cinv J W Q s' ∧ forall j, j ∈ J -> sval j s' = sval j s).
Proof. intros H Hc. apply wp_bind. eapply wp_mono; [by apply client_errno|]. intros [] s' Hp. by apply wp_ret. Qed.

Lemma client_trywait J W Q T s j :
  kinv Q T s -> cinv J W Q s -> j ∈ J -> current_pid s ≠ idle_task_pid -> W !! current_pid s = None ->
  wp (sys_sem_trywait (Some j)) s (λ o s', keeps_others J j s s' ∧ done_post Q T s Q T s' ∧ cinv J W Q s' ∧
    ((o = Done 0 ∧ 0 < sval j s ∧ sval j s' = sval j s - 1) ∨ (o = Done (-1) ∧ sval j s <= 0 ∧ sval j s' = sval j s))).
Proof.
  intros H Hc Hj Hid Hw. destruct (client_value _ _ _ _ _ _ H Hc Hj) as (x & E & Hus & Hu & Hs & Hbal & Hle & Hr).
  pose proof (trywait_spec Q T s j x H E Hus) as Hwp. apply wp_run in Hwp as (o & s' & Eo & Hor). apply wp_run. exists o, s'. split; [done|].
  pose proof (map_run _ (λ o, (o, @None Z)) _ _ _ Eo) as Ec. destruct Hor as [(-> & Hv & ->)|(-> & Hv & Ef)].
  - assert (-128 <= sem_value x + -1 <= 127) as Hrg by lia. pose proof (put_value_done Q T s j x _ H E Hrg) as H1.
    pose proof (put_value_at s j x (sem_value x + -1) E) as E1.
    destruct (cinv_own J W Q T s (CSemTrywait (Some j)) _ _ Q T j (set_sem_value (sem_value x + -1) x) H Hc Hid Hw (sem_valid_arg j Hr) I Ec (dn_inv _ _ _ _ _ _ H1)) as [C1 V1]; try done.
    split; [done|]. split; [done|]. split; [done|]. left. rewrite (sval_at _ _ _ E1), Hs. simpl. split_and!; [done|lia|lia].
  - pose proof (client_fail J W Q T s EAGAIN H Hc) as Hf. apply wp_run in Hf as (o & s2 & E2 & _ & D & C & V). simplify_eq.
    split; [intros i Hi _; by apply V|]. split; [done|]. split; [done|]. right. rewrite Hs. split_and!; [done|lia|]. by rewrite V.
Qed.

Lemma client_post J W Q T s j :
  kinv Q T s -> cinv J W Q s -> j ∈ J -> current_pid s ≠ idle_task_pid -> W !! current_pid s = None -> sval j s < 127 ->
  wp (sys_sem_post (Some j)) s (λ o s', o = Done 0 ∧ keeps_others J j s s' ∧ sval j s' = sval j s + 1 ∧
    exists Q' T', done_post Q T s Q' T' s' ∧ cinv J W Q' s').
Proof.
  intros H Hc Hj Hid Hw Hmax. destruct (client_value _ _ _ _ _ _ H Hc Hj) as (x & E & Hus & Hu & Hs & Hbal & Hle & Hr). rewrite Hs in *.
  pose proof (post_spec Q T s j x H E Hus Hmax) as Hwp. apply wp_run in Hwp as (o & s' & Eo & -> & Hor). apply wp_run. exists (Done 0), s'. split; [done|].
  pose proof (map_run _ (λ o, (o, @None Z)) _ _ _ Eo) as Ec. split; [done|].
  assert (tame (ECall (CSemPost (Some j))) s) as Ht by (simpl; by rewrite E).
  assert (-128 <= sem_value x + 1 <= 127) as Hrg by (pose proof (sem_at _ _ _ _ _ H E) as [_ ?]; lia).
  pose proof (put_value_at s j x (sem_value x + 1) E) as E1. assert (exists Q' T', done_post Q T s Q' T' s' ∧ arr_get (sem_heap s') j = Some (set_sem_value (sem_value x + 1) x) ∧
    forall p, p ∈ Q' (SemQ j) -> p ∈ Q (SemQ j)) as (Q' & T' & D & E2 & Hq).
  { destruct Hor as [(Q' & T' & r & D & Eh & _ & _ & Hl)|[_ [->|[Hu' _]]]]; [| |congruence].
    - exists Q', T'. rewrite Eh. split_and!; [done|done|]. intros p Hp. rewrite Hl. by right.
    - exists Q, T. split_and!; [|done|done]. by apply put_value_done. }
  destruct (cinv_own J W Q T s (CSemPost (Some j)) _ _ Q' T' j (set_sem_value (sem_value x + 1) x) H Hc Hid Hw (sem_valid_arg j Hr) Ht Ec (dn_inv _ _ _ _ _ _ D)) as [C1 V1]; try done.
  split; [done|]. split; [rewrite (sval_at _ _ _ E2); done|]. by exists Q', T'.
Qed.

(** The first free semaphore is taken. *)
Lemma sem_init_spec Q T s value k x :
  kinv Q T s -> 0 <= value <= 127 -> list_find (λ x, sem_id x = -1) (sem_heap s) = Some (k, x) ->
  wp (sys_sem_init 0 value) s (λ r s', r = (0, Some (Z.of_nat k)) ∧
    done_post Q T s (qupd Q (SemQ (Z.of_nat k)) []) T s' ∧ sem_heap s' = <[k := MkSem (Z.of_nat k) value (current_pid s) false]> (sem_heap s)).
Proof.
  intros H Hv Ef. pose proof Ef as (E & _ & _)%list_find_Some. assert (arr_get (sem_heap s) (Z.of_nat k) = Some x) as Ex by (by rewrite arr_get_nat).
  pose proof (sem_valid _ _ _ _ _ H Ex) as Hr. unfold sys_sem_init, new_sem. wp_pure. rewrite Ef. cbn zeta. apply wp_bind, wp_bind.
  unfold upd_sem, get_sem. wp_pure. eapply wp_lift; [exact Ex|]. wp_pure. apply wp_bind. eapply wp_lift; [apply arr_set_in; by apply arr_get_range in Ex|].
  wp_pure. rewrite s8_small by lia. rewrite bool_decide_eq_true_2 by done. set (s1 := set_sem_heap _ s).
  assert (done_post Q T s Q T s1) as D1.
  { apply done_objs; auto. destruct (c_sems _ _ _ (i_core _ _ _ H)) as [L1 L2 Hs Hn]. simpl. constructor; [by rewrite length_insert|done| |done].
    intros i y Ey. apply arr_get_insert in Ey as [[-> ->]|[_ Ey]]; [|by apply Hs|lia]. split; simpl; [by right|lia]. }
  pose proof (qinit_done Q T s1 (SemQ (Z.of_nat k)) (dn_inv _ _ _ _ _ _ D1) Hr eq_refl) as Hq. apply wp_run in Hq as ([] & s' & Eq & D2).
  apply wp_bind. apply wp_run. exists tt, s'. split; [exact Eq|]. wp_pure. split; [done|]. split; [by eapply done_trans|].
  assert (blind_q sem_heap (SemQ (Z.of_nat k))) as Hb by done. rewrite (frame_on_q sem_heap _ _ Hb _ _ _ Eq). simpl. by rewrite Nat2Z.id.
Qed.

(** A semaphore for the client. *)
Lemma client_new J W Q T s value k x :
  kinv Q T s -> cinv J W Q s -> current_pid s ≠ idle_task_pid -> W !! current_pid s = None -> 0 <= value <= 127 ->
  list_find (λ x, sem_id x = -1) (sem_heap s) = Some (k, x) -> 
  wp (sys_sem_init 0 value) s (λ r s', r = (0, Some (Z.of_nat k)) ∧ (Z.of_nat k ∉ J) ∧ sval (Z.of_nat k) s' = value ∧
    (forall i, i ∈ J -> sval i s' = sval i s) ∧ sem_heap s' = <[k := MkSem (Z.of_nat k) value (current_pid s) false]> (sem_heap s) ∧
    exists Q', done_post Q T s Q' T s' ∧ cinv ({[Z.of_nat k]} ∪ J) W Q' s').
Proof.
  intros H Hc Hid Hw Hv Ef. pose proof Ef as (E & Hf & _)%list_find_Some.
  pose proof (sem_init_spec Q T s value k x H Hv Ef) as Hwp. apply wp_run in Hwp as (r & s' & Er & -> & D & Eh). apply wp_run. eexists _, s'. split; [exact Er|].
  set (j := Z.of_nat k) in *. assert (j ∉ J) as Hj.
  { intros Hj. destruct (ci_sems _ _ _ _ Hc j Hj) as (y & Ey & Hy & _). unfold j in Ey. rewrite arr_get_nat in Ey. congruence. }
  assert (arr_get (sem_heap s') j = Some (MkSem j value (current_pid s) false)) as E1.
  { unfold j. rewrite arr_get_nat, Eh. apply list_lookup_insert_eq. by eapply lookup_lt_Some. }
  pose proof (map_run _ (λ r : Z * option Z, (Done r.1, r.2)) _ _ _ Er) as Ec.
  destruct (cinv_call J W Q T s (CSemInit 0 value) _ s' _ _ H Hc Hid Hw I Hv Ec (dn_inv _ _ _ _ _ _ D)) as [C1 V1]; [done|].
  split_and!; [done|done|by rewrite (sval_at _ _ _ E1)|done|done|]. exists (qupd Q (SemQ j) []). split; [done|].
  eapply (cinv_add _ _ _ _ j); [eapply cinv_weaken; [exact C1|set_solver]|exact E1|simpl; lia|done|]. intros p. rewrite qupd_eq. by intros ?%elem_of_nil.
Qed.

(** ** The end of a call *)

Lemma client_exit J W Q T s Q1 T1 s1 :
  kgood Q T s -> cur_ctx s = None -> done_post Q T s Q1 T1 s1 -> cinv J W Q1 s1 -> W !! current_pid s = None ->
  wp syscall_exit s1 (λ _ s', exists Q' T', kgood Q' T' s' ∧ cinv J W Q' s' ∧ forall j, j ∈ J -> sval j s' = sval j s1).
Proof.
  intros Hg Hctx D Hc Hw. pose proof (exit_step EResume Q T s Q1 T1 s1 ltac:(done) ltac:(done) Hg Hctx D) as He.
  apply wp_run in He as ([] & s' & E & Q' & T' & Hp). apply wp_run. exists tt, s'. split; [done|]. exists Q', T'. split; [apply Hp|].
  apply (cinv_finish J W Q1 T1 s1 (Done 0) s' Q' T' (dn_inv _ _ _ _ _ _ D) Hc); [by rewrite (dn_cur _ _ _ _ _ _ D)|done|].
  apply (st_good _ _ _ _ _ _ _ Hp).
Qed.

Lemma block_good Q T s Q' T' s' : block_post Q T s Q' T' s' -> kgood Q' T' s'.
Proof. intros [B1 B2 B3 B4 B5 B6]. by constructor. Qed.

(** A process of the client goes on: its call of the semaphore has returned. *)
Lemma client_resume J W Q T s x j :
  kgood Q T s -> cinv J W Q s -> W !! current_pid s = Some j -> arr_get (ptable s) (current_pid s) = Some x ->
  let s0 := put_proc (current_pid s) (set_kctx None x) s in
  kctx x = Some (FSemWait j) ∧ current_pid s ≠ idle_task_pid ∧ kgood Q T s0 ∧ cur_ctx s0 = None ∧ cinv J (delete (current_pid s) W) Q s0 ∧
  current_pid s0 = current_pid s ∧ (forall i, sval i s0 = sval i s) ∧ forall i, i ∈ J -> current_pid s ∉ Q (SemQ i).
Proof.
  intros Hg Hc Hw E s0. destruct (Hc) as [C1 C2 C3 C4 C5]. destruct (C3 _ x E j Hw) as [Hk Hal]. split; [done|].
  split; [by apply (o_frame _ _ (c_pcb _ _ _ (i_core _ _ _ (g_inv _ _ _ Hg)) _ x E) _ Hk)|]. split; [by apply resume_good|].
  split; [unfold cur_ctx; change (current_pid s0) with (current_pid s); unfold s0; by rewrite (put_proc_eq _ _ x s E)|].
  assert (forall i, current_pid s ∉ Q (SemQ i)) as Hnq.
  { intros i Hin. pose proof (core_in _ _ _ _ _ _ (i_core _ _ _ (g_inv _ _ _ Hg)) E Hin) as Hh. destruct (i_cur _ _ _ (g_inv _ _ _ Hg)) as (y & Ey & Hrun & _).
    assert (y = x) as -> by congruence. by rewrite home_run in Hh. }
  split; [|done]. constructor.
  - intros p y Ey. unfold s0 in Ey. destruct (decide (p = current_pid s)) as [->|Hne]; [rewrite (put_proc_eq _ _ x s E) in Ey|rewrite (put_proc_ne _ p _ x s E Hne) in Ey; by apply (C1 p)].
    injection Ey as <-. destruct (C1 _ x E) as [N1 N2]. by split.
  - intros i y n Ev. by apply (C2 i).
  - intros p y Ey i Hi. apply lookup_delete_Some in Hi as [Hne Hi]. unfold s0 in Ey. rewrite (put_proc_ne _ p _ x s E) in Ey by done. by apply (C3 p).
  - done.
  - intros i p Hi Hp. rewrite lookup_delete_ne; [by apply (C5 i)|]. intros <-. by apply (Hnq i).
Qed.

(** A semaphore of the client with suspended processes that are not in its queue
    has tokens for them. *)
Lemma client_tokens J W Q T s j :
  kinv Q T s -> cinv J W Q s -> j ∈ J -> - Z.of_nat (length (Q (SemQ j))) <= sval j s ∧ Z.of_nat (length (Q (SemQ j))) <= Z.of_nat (size (filter (λ pj, pj.2 = j) W)).
Proof.
  intros H Hc Hj. destruct (client_value _ _ _ _ _ _ H Hc Hj) as (x & E & Hus & Hu & Hs & Hbal & Hle & Hr). split; [rewrite Hs; destruct Hbal; lia|].
  rewrite <- size_dom. apply Nat2Z.inj_le. rewrite <- (size_list_to_set (C := gset Z) (Q (SemQ j))) by apply (c_nodup _ _ _ (i_core _ _ _ H)).
  apply subseteq_size. intros p Hp. apply elem_of_list_to_set in Hp. apply elem_of_dom. exists j. apply map_lookup_filter_Some. split; [|done].
  by apply (ci_queue _ _ _ _ Hc).
Qed.
End ops.
