(* ===== verification/Bufmalloc.v ===== *)
(** * Block memory pools of the kernel (bsp/xilkernel_v4_00_a/src/src/sys/bufmalloc.c, mem.c)

    Pools of equal blocks whose free blocks are linked through their first
    words. The words live in the memory that the client of the allocator uses as
    well, so the theorems are about programs that mix calls of the allocator
    with stores of the client. An access to an address that is not aligned, or
    beyond the table of pools, has no result. *)

From S2P Require Import Prelude.
Open Scope Z_scope.

(** ** Model *)

Inductive errno := EINVAL | EAGAIN.

Record membuf_info := MkMembuf {
  active : bool;
  memptr : Z;
  limit : Z;
  freep : Z;
  nblks : Z;
  nfree : Z;
  blksiz : Z;
}.

Definition set_active x p := MkMembuf x (memptr p) (limit p) (freep p) (nblks p) (nfree p) (blksiz p).
Definition set_freep x p := MkMembuf (active p) (memptr p) (limit p) x (nblks p) (nfree p) (blksiz p).
Definition set_nfree x p := MkMembuf (active p) (memptr p) (limit p) (freep p) (nblks p) x (blksiz p).

(** The table of pools, the words of memory and the last error. *)
Record kmem := MkKmem { mbufheap : list membuf_info; words : Z -> Z; kerrno : option errno }.

Definition set_mbufheap x s := MkKmem x (words s) (kerrno s).
Definition set_words x s := MkKmem (mbufheap s) x (kerrno s).
Definition set_kerrno x s := MkKmem (mbufheap s) (words s) (Some x).

Definition aligned (p : Z) : bool := bool_decide (p mod 4 = 0).

(** [*(void** )p]. *)
Definition load_word (p : Z) : ST kmem Z := if aligned p then gets (λ s, words s p) else undef.
Definition store_word (p x : Z) : ST kmem unit :=
  if aligned p then modify (λ s, set_words (λ a, if bool_decide (a = p) then x else words s a) s) else undef.

(** [mbufheap[i]], and an update of it. *)
Definition mbuf (i : Z) : ST kmem membuf_info := h ← gets mbufheap; lift (arr_get h i).
Definition upd_mbuf (i : Z) (f : membuf_info -> membuf_info) : ST kmem unit :=
  h ← gets mbufheap;
  p ← lift (arr_get h i);
  h ← lift (arr_set h i (f p));
  modify (set_mbufheap h).

Definition MEMBUF_ANY : Z := -1.
Definition NULL : Z := 0.

Definition MEM_TO_BLK (p : membuf_info) (mem : Z) : option Z :=
  if bool_decide (blksiz p = 0) then None else Some (u32 (mem - memptr p) / blksiz p).
Definition MEM_WITHIN_BUF (p : membuf_info) (mem : Z) : bool := bool_decide (memptr p <= mem < limit p).

Definition get_mbufblk (i : Z) : ST kmem Z :=
  p ← mbuf i;
  if bool_decide (nfree p = 0) then mret NULL else
  let ret := freep p in
  next ← load_word ret;
  upd_mbuf i (set_freep next);;
  upd_mbuf i (λ p, set_nfree (nfree p - 1) p);;
  mret ret.

Section bufmalloc.
(** [N_MBUFS]. *)
Context (N : nat).

(** The first pool from [i] on that satisfies [f], or [i + n]. *)
Fixpoint find_mbuf (f : membuf_info -> bool) (n : nat) (i : Z) : ST kmem Z :=
  match n with
  | O => mret i
  | S n => p ← mbuf i; if f p then mret i else find_mbuf f n (i + 1)
  end.

(** The loop that links the free blocks: the last value of [cur]. *)
Fixpoint link_blocks (n : nat) (cur next siz : Z) : ST kmem Z :=
  match n with
  | O => mret cur
  | S n => store_word cur next;; link_blocks n next (u32 (next + siz)) siz
  end.

(** [out] is the address where the identifier of the pool is stored. *)
Definition sys_bufcreate (out mem n siz : Z) : ST kmem Z :=
  if bool_decide (out = NULL ∨ mem = NULL ∨ n <= 0 ∨ siz < 4) then modify (set_kerrno EINVAL);; mret (-1) else
  i ← find_mbuf (λ p, negb (active p)) N 0;
  if bool_decide (i = Z.of_nat N) then modify (set_kerrno EAGAIN);; mret (-1) else
  upd_mbuf i (λ _, MkMembuf true mem (u32 (mem + u32 (n * siz))) mem n n siz);;
  store_word out i;;
  cur ← link_blocks (Z.to_nat (n - 1)) mem (u32 (mem + siz)) siz;
  store_word cur NULL;;
  mret 0.

Definition sys_bufdestroy (i : Z) : ST kmem Z :=
  if bool_decide (0 <= i < Z.of_nat N) then upd_mbuf i (set_active false);; mret 0
  else modify (set_kerrno EINVAL);; mret (-1).

(** The search of [sys_bufmalloc] through all pools. *)
Fixpoint malloc_any (siz : Z) (n : nat) (i : Z) : ST kmem Z :=
  match n with
  | O => mret NULL
  | S n =>
      p ← mbuf i;
      if active p && bool_decide (siz <= blksiz p) then
        ret ← get_mbufblk i;
        if bool_decide (ret = NULL) then malloc_any siz n (i + 1) else mret ret
      else malloc_any siz n (i + 1)
  end.

Definition sys_bufmalloc (i siz : Z) : ST kmem Z :=
  if bool_decide (i ≠ MEMBUF_ANY ∧ (i < 0 ∨ Z.of_nat N < i)) then mret NULL else
  (if bool_decide (i = MEMBUF_ANY) then
     ret ← malloc_any siz N 0;
     (if bool_decide (ret = NULL) then modify (set_kerrno EAGAIN) else skip);;
     mret ret
   else
     p ← mbuf i;
     if negb (active p) then modify (set_kerrno EINVAL);; mret NULL else
     ret ← get_mbufblk i;
     (if bool_decide (ret = NULL) then modify (set_kerrno EAGAIN) else skip);;
     mret ret).

(** The end of [sys_buffree], when the pool is known. *)
Definition put_mbufblk (i mem : Z) : ST kmem unit :=
  p ← mbuf i;
  b ← lift (MEM_TO_BLK p mem);
  let blk := s32 b in
  if bool_decide (blk < 0 ∨ nblks p < blk) then skip else
  let newblk := u32 (memptr p + u32 (blksiz p * blk)) in
  store_word newblk (freep p);;
  upd_mbuf i (set_freep newblk);;
  upd_mbuf i (λ p, set_nfree (nfree p + 1) p).

Definition sys_buffree (i mem : Z) : ST kmem unit :=
  if bool_decide (i ≠ MEMBUF_ANY ∧ (i < 0 ∨ Z.of_nat N < i)) then skip else
  if bool_decide (i = MEMBUF_ANY) then
    j ← find_mbuf (λ p, active p && MEM_WITHIN_BUF p mem) N 0;
    if bool_decide (j = Z.of_nat N) then skip else put_mbufblk j mem
  else put_mbufblk i mem.

(** mem.c: the pools of the configuration, one after the other in memory.
    [out] is the address of the array of their identifiers. *)
Fixpoint bufmalloc_mem_init (cfg : list (Z * Z)) (out ptr : Z) : ST kmem unit :=
  match cfg with
  | [] => skip
  | (bsiz, nblks) :: cfg =>
      r ← sys_bufcreate out ptr nblks bsiz;
      if bool_decide (r ≠ 0) then skip else bufmalloc_mem_init cfg (out + 4) (u32 (ptr + u32 (bsiz * nblks)))
  end.

Definition bufmalloc_init (cfg : list (Z * Z)) (out ptr : Z) : ST kmem unit :=
  for_up 0 (Z.of_nat N) (λ i, upd_mbuf i (set_active false));;
  bufmalloc_mem_init cfg out ptr.
End bufmalloc.

(** ** Specification

    A pool is a region of memory and the stack of its free blocks. *)

Record apool := Apool { ap_base : Z; ap_n : nat; ap_size : Z; ap_free : list nat }.

Definition addr (p : apool) (k : nat) : Z := ap_base p + Z.of_nat k * ap_size p.
Definition ap_end (p : apool) : Z := ap_base p + Z.of_nat (ap_n p) * ap_size p.
Definition set_free (l : list nat) (p : apool) : apool := Apool (ap_base p) (ap_n p) (ap_size p) l.

(** The index of the first element that satisfies [f]. *)
Fixpoint first_ix {A} (f : A -> bool) (l : list A) : option nat :=
  match l with
  | [] => None
  | x :: l => if f x then Some 0%nat else S <$> first_ix f l
  end.

Definition is_free (o : option apool) : bool := match o with None => true | Some _ => false end.
Definition has_block (siz : Z) (o : option apool) : bool :=
  match o with Some p => bool_decide (siz <= ap_size p) && negb (bool_decide (ap_free p = [])) | None => false end.
Definition has_addr (mem : Z) (o : option apool) : bool :=
  match o with Some p => bool_decide (ap_base p <= mem < ap_end p) | None => false end.

(** The pools and the last error. *)
Record apools := Apools { ap_list : list (option apool); ap_errno : option errno }.

Definition apool_at (i : nat) (a : apools) : option apool := mjoin (ap_list a !! i).
Definition put_pool (i : nat) (o : option apool) (a : apools) : apools := Apools (<[i := o]> (ap_list a)) (ap_errno a).
Definition fails (e : errno) (r : Z) (a : apools) : Z * apools := (r, Apools (ap_list a) (Some e)).

(** Taking a block, and returning one. *)
Definition spec_take (i : nat) (a : apools) : Z * apools :=
  match apool_at i a with
  | None => fails EINVAL NULL a
  | Some p =>
      match ap_free p with
      | [] => fails EAGAIN NULL a
      | k :: ks => (addr p k, put_pool i (Some (set_free ks p)) a)
      end
  end.
Definition spec_put (i : nat) (mem : Z) (a : apools) : apools :=
  match apool_at i a with
  | None => a
  | Some p => put_pool i (Some (set_free (Z.to_nat ((mem - ap_base p) / ap_size p) :: ap_free p) p)) a
  end.

(** What a program does with the allocator: the calls, and the stores to
    memory. The result of [Create] is the identifier of the pool. *)
Inductive op :=
  | Create (out mem n siz : Z)
  | Destroy (i : Z)
  | Malloc (i siz : Z)
  | Free (i mem : Z)
  | Store (x v : Z).

Definition spec_op (o : op) (a : apools) : Z * apools :=
  let N := length (ap_list a) in
  match o with
  | Create out mem n siz =>
      if bool_decide (out = NULL ∨ mem = NULL ∨ n <= 0 ∨ siz < 4) then fails EINVAL (-1) a else
      match first_ix is_free (ap_list a) with
      | None => fails EAGAIN (-1) a
      | Some i => (Z.of_nat i, put_pool i (Some (Apool mem (Z.to_nat n) siz (seq 0 (Z.to_nat n)))) a)
      end
  | Destroy i => if bool_decide (0 <= i < Z.of_nat N) then (0, put_pool (Z.to_nat i) None a) else fails EINVAL (-1) a
  | Malloc i siz =>
      if bool_decide (i = MEMBUF_ANY) then
        match first_ix (has_block siz) (ap_list a) with None => fails EAGAIN NULL a | Some i => spec_take i a end
      else if bool_decide (0 <= i < Z.of_nat N) then spec_take (Z.to_nat i) a else (NULL, a)
  | Free i mem =>
      if bool_decide (i = MEMBUF_ANY) then
        (0, match first_ix (has_addr mem) (ap_list a) with None => a | Some i => spec_put i mem a end)
      else (0, if bool_decide (0 <= i < Z.of_nat N) then spec_put (Z.to_nat i) mem a else a)
  | Store _ _ => (0, a)
  end.

(** A block that the client has. *)
Definition allocated (p : apool) (mem : Z) : Prop := exists k, (k < ap_n p)%nat ∧ (k ∉ ap_free p) ∧ mem = addr p k.

Definition apart (p q : apool) : Prop := ap_end p <= ap_base q ∨ ap_end q <= ap_base p.
Definition outside (x : Z) (p : apool) : Prop := x < ap_base p ∨ ap_end p <= x.

(** The contract of the client: pools are made in aligned memory of their
    own, only allocated blocks are freed, the words of free blocks are
    left alone, and [N_MBUFS] is not taken for an identifier. *)
Definition allowed (o : op) (a : apools) : Prop :=
  let N := length (ap_list a) in
  match o with
  | Create out mem n siz =>
      let p := Apool mem (Z.to_nat n) siz [] in
      out = NULL ∨ mem = NULL ∨ n <= 0 ∨ siz < 4 ∨
      (0 < mem ∧ mem mod 4 = 0 ∧ siz mod 4 = 0 ∧ ap_end p < 2^32 ∧ out mod 4 = 0 ∧ outside out p ∧
       forall i q, apool_at i a = Some q -> apart p q ∧ outside out q)
  | Destroy _ => True
  | Malloc i _ => i ≠ Z.of_nat N
  | Free i mem =>
      if bool_decide (i = MEMBUF_ANY) then forall j p, apool_at j a = Some p -> outside mem p ∨ allocated p mem
      else 0 <= i <= Z.of_nat N -> exists p, apool_at (Z.to_nat i) a = Some p ∧ allocated p mem
  | Store x _ => x mod 4 = 0 ∧ forall i p k, apool_at i a = Some p -> k ∈ ap_free p -> x ≠ addr p k
  end.

(** ** The pools in memory *)

(** The blocks [l] are linked from [x] on. *)
Fixpoint chain (w : Z -> Z) (p : apool) (l : list nat) (x : Z) : Prop :=
  match l with
  | [] => x = NULL
  | k :: l => x = addr p k ∧ chain w p l (w x)
  end.

Record apool_ok (p : apool) : Prop := {
  po_base : 0 < ap_base p;
  po_align : ap_base p mod 4 = 0 ∧ ap_size p mod 4 = 0;
  po_size : 4 <= ap_size p;
  po_n : (0 < ap_n p)%nat;
  po_end : ap_end p < 2^32;
  po_free : NoDup (ap_free p) ∧ Forall (λ k, (k < ap_n p)%nat) (ap_free p);
}.

(** A descriptor and the memory represent a pool. *)
Record pool_rel (w : Z -> Z) (p : apool) (m : membuf_info) : Prop := {
  pr_ok : apool_ok p;
  pr_fields : active m = true ∧ memptr m = ap_base p ∧ limit m = ap_end p ∧ nblks m = Z.of_nat (ap_n p) ∧ blksiz m = ap_size p;
  pr_nfree : nfree m = Z.of_nat (length (ap_free p));
  pr_chain : chain w p (ap_free p) (freep m);
}.

Definition slot_rel (w : Z -> Z) (o : option apool) (m : membuf_info) : Prop :=
  match o with None => active m = false | Some p => pool_rel w p m end.

Record rel (a : apools) (s : kmem) : Prop := {
  re_slots : Forall2 (slot_rel (words s)) (ap_list a) (mbufheap s);
  re_apart i j p q : i ≠ j -> apool_at i a = Some p -> apool_at j a = Some q -> apart p q;
  re_errno : kerrno s = ap_errno a;
}.

Lemma chain_frame w w' p l x : (forall k, k ∈ l -> w' (addr p k) = w (addr p k)) -> chain w p l x -> chain w' p l x.
Proof.
  revert x. induction l as [|k l IH]; intros x Hw; [done|]. intros [-> Hc]. split; [done|].
  rewrite Hw by set_solver. apply IH; [set_solver|done].
Qed.

Lemma chain_set_free w p l' l x : chain w p l x -> chain w (set_free l' p) l x.
Proof. revert x. induction l as [|k l IH]; intros x; [done|]. intros [-> Hc]. split; [done|]. by apply IH. Qed.

Lemma slot_frame w w' o m :
  (forall p k, o = Some p -> k ∈ ap_free p -> w' (addr p k) = w (addr p k)) -> slot_rel w o m -> slot_rel w' o m.
Proof. intros Hw. destruct o as [p|]; [|done]. intros []. constructor; try done. by eapply chain_frame; [|done]; intros; eapply Hw. Qed.

Lemma apool_at_Some i a p : apool_at i a = Some p <-> ap_list a !! i = Some (Some p).
Proof. unfold apool_at. destruct (ap_list a !! i) as [[]|]; simpl; naive_solver. Qed.

Lemma apool_put i o a j : (i < length (ap_list a))%nat -> apool_at j (put_pool i o a) = if decide (j = i) then o else apool_at j a.
Proof.
  intros Hi. unfold apool_at, put_pool. cbn [ap_list]. case_decide as E.
  - subst. by rewrite list_lookup_insert_eq.
  - by rewrite list_lookup_insert_ne.
Qed.

Lemma block_bounds p k : apool_ok p -> (k < ap_n p)%nat -> ap_base p <= addr p k ∧ addr p k + ap_size p <= ap_end p.
Proof. intros [] Hk. unfold addr, ap_end. nia. Qed.

Lemma block_aligned p k : apool_ok p -> aligned (addr p k) = true.
Proof.
  intros [_ [Hb Hs] _ _ _ _]. unfold aligned, addr. apply bool_decide_eq_true_2.
  rewrite Z.add_mod, Z.mul_mod, Hb, Hs, Z.mul_0_r by lia. done.
Qed.

Lemma block_inj p k l : apool_ok p -> addr p k = addr p l -> k = l.
Proof. intros []. unfold addr. nia. Qed.

(** One slot and some words change. *)
Lemma rel_put i o m a s w' e :
  rel a s -> (i < length (ap_list a))%nat -> slot_rel w' o m ->
  (forall j p k, j ≠ i -> apool_at j a = Some p -> k ∈ ap_free p -> w' (addr p k) = words s (addr p k)) ->
  (forall j p q, j ≠ i -> apool_at j a = Some p -> o = Some q -> apart p q) ->
  rel (Apools (<[i := o]> (ap_list a)) e) (MkKmem (<[i := m]> (mbufheap s)) w' e).
Proof.
  intros [Hsl Hap _] Hi Ho Hw Hd. constructor; [| |done].
  - cbn [ap_list mbufheap words]. apply Forall2_same_length_lookup. pose proof (Forall2_length Hsl) as Hl.
    split; [by rewrite !length_insert|]. intros j x y Hx Hy. destruct (decide (j = i)) as [->|Hne].
    + rewrite list_lookup_insert_eq in Hx by lia. rewrite list_lookup_insert_eq in Hy by lia. naive_solver.
    + rewrite list_lookup_insert_ne in Hx by done. rewrite list_lookup_insert_ne in Hy by done. eapply slot_frame; [|by eapply Forall2_lookup_lr].
      intros p k -> Hk. eapply Hw; [done| |done]. by apply apool_at_Some.
  - intros j l p q Hne. change (Apools (<[i := o]> (ap_list a)) e) with (Apools (ap_list (put_pool i o a)) e).
    unfold apool_at at 1 2. cbn [ap_list]. change (mjoin (ap_list (put_pool i o a) !! ?x)) with (apool_at x (put_pool i o a)).
    rewrite !apool_put by done. repeat case_decide; intros Hp Hq; subst; [done|..].
    + assert (apart q p) as [|]; [by eapply (Hd l)|right|left]; done.
    + by eapply (Hd j).
    + by eapply (Hap j l).
Qed.

(** ** Operations *)

Lemma wp_mbuf i m s (Q : membuf_info -> kmem -> Prop) : mbufheap s !! i = Some m -> Q m s -> wp (mbuf (Z.of_nat i)) s Q.
Proof. intros Hm HQ. unfold mbuf. wp_pure. eapply wp_lift; [|exact HQ]. by rewrite arr_get_nat. Qed.

Lemma wp_upd_mbuf i f m s (Q : unit -> kmem -> Prop) :
  mbufheap s !! i = Some m -> Q tt (set_mbufheap (<[i := f m]> (mbufheap s)) s) -> wp (upd_mbuf (Z.of_nat i) f) s Q.
Proof.
  intros Hm HQ. pose proof (lookup_lt_Some _ _ _ Hm). unfold upd_mbuf. wp_pure. apply wp_bind. eapply wp_lift; [by rewrite arr_get_nat|].
  apply wp_bind. eapply wp_lift; [by apply arr_set_in; lia|]. rewrite Nat2Z.id. wp_pure. exact HQ.
Qed.

Lemma wp_store_word x v s (Q : unit -> kmem -> Prop) :
  aligned x = true -> Q tt (set_words (λ a, if bool_decide (a = x) then v else words s a) s) -> wp (store_word x v) s Q.
Proof. intros Ha HQ. unfold store_word. rewrite Ha. by apply wp_modify. Qed.
Lemma wp_load_word x s (Q : Z -> kmem -> Prop) : aligned x = true -> Q (words s x) s -> wp (load_word x) s Q.
Proof. intros Ha HQ. unfold load_word. rewrite Ha. by apply wp_gets. Qed.

Lemma rel_slot i p a s : rel a s -> apool_at i a = Some p ->
  (i < length (ap_list a))%nat ∧ exists m, mbufheap s !! i = Some m ∧ pool_rel (words s) p m.
Proof.
  intros [Hs _ _] Hp%apool_at_Some. split; [by eapply lookup_lt_Some|].
  destruct (Forall2_lookup_l _ _ _ _ _ Hs Hp) as (m & Hm & Hr). by exists m.
Qed.

Lemma rel_length a s : rel a s -> length (mbufheap s) = length (ap_list a).
Proof. intros [Hs _ _]. by rewrite (Forall2_length Hs). Qed.

Lemma get_mbufblk_spec i p a s :
  rel a s -> apool_at i a = Some p ->
  wp (get_mbufblk (Z.of_nat i)) s (λ r s',
    match ap_free p with
    | [] => r = NULL ∧ s' = s
    | k :: ks => r = addr p k ∧ r ≠ NULL ∧ rel (put_pool i (Some (set_free ks p)) a) s'
    end).
Proof.
  intros Hr Hp. destruct (rel_slot _ _ _ _ Hr Hp) as (Hi & m & Hm & Hpr). pose proof (rel_length _ _ Hr) as Hl.
  destruct (Hpr) as [Hok (F1 & F2 & F3 & F4 & F5) Hn Hc]. unfold get_mbufblk. apply wp_bind. eapply wp_mbuf; [exact Hm|].
  rewrite Hn. destruct (ap_free p) as [|k ks] eqn:Ef.
  { rewrite bool_decide_eq_true_2 by done. by apply wp_ret. }
  rewrite bool_decide_eq_false_2 by (simpl; lia). destruct Hc as [Hf Hc]. rewrite Hf in *.
  apply wp_bind, wp_load_word; [by apply block_aligned|]. apply wp_bind. eapply wp_upd_mbuf; [exact Hm|].
  apply wp_bind. eapply wp_upd_mbuf; [by apply list_lookup_insert_eq; lia|]. apply wp_ret.
  destruct (po_free _ Hok) as [Hnd Hall]. rewrite Ef in Hnd, Hall. apply list.NoDup_cons in Hnd as [_ Hnd]. apply list.Forall_cons in Hall as [Hk Hall].
  pose proof (block_bounds p k Hok Hk) as Hbb. pose proof (po_base _ Hok). split; [done|]. split; [unfold NULL; lia|].
  cbn [mbufheap set_mbufheap words kerrno]. rewrite list_insert_insert_eq. unfold put_pool, set_mbufheap. cbn [words kerrno].
  rewrite (re_errno _ _ Hr). apply rel_put; [done|done| |done|].
  - constructor; cbn [set_freep set_nfree active memptr limit nblks blksiz nfree freep set_free ap_free]; try done.
    + by destruct Hok.
    + rewrite Hn. simpl. lia.
    + by apply chain_set_free.
  - intros j q q' Hne Hq [= <-]. exact (re_apart _ _ Hr j i q p Hne Hq Hp).
Qed.

Lemma put_mbufblk_spec i p k a s :
  rel a s -> apool_at i a = Some p -> (k < ap_n p)%nat -> k ∉ ap_free p ->
  wp (put_mbufblk (Z.of_nat i) (addr p k)) s (λ _ s', rel (spec_put i (addr p k) a) s' ∧ forall x, x ≠ addr p k -> words s' x = words s x).
Proof.
  intros Hr Hp Hk Hkf. destruct (rel_slot _ _ _ _ Hr Hp) as (Hi & m & Hm & Hpr). pose proof (rel_length _ _ Hr) as Hl.
  destruct (Hpr) as [Hok (F1 & F2 & F3 & F4 & F5) Hn Hc]. destruct (block_bounds p k Hok Hk) as [B1 B2].
  pose proof (po_size _ Hok) as Hsz. pose proof (po_base _ Hok) as Hba. pose proof (po_end _ Hok) as He. unfold ap_end in He, B2.
  assert ((addr p k - ap_base p) / ap_size p = Z.of_nat k) as Ek by (unfold addr; replace (ap_base p + Z.of_nat k * ap_size p - ap_base p) with (Z.of_nat k * ap_size p) by lia; apply Z.div_mul; lia).
  unfold put_mbufblk. apply wp_bind. eapply wp_mbuf; [exact Hm|]. apply wp_bind.
  eapply wp_lift; [unfold MEM_TO_BLK; rewrite bool_decide_eq_false_2 by lia; reflexivity|].
  rewrite F2, F4, F5. rewrite (u32_small (addr p k - ap_base p)) by (unfold is_u32; lia). rewrite Ek, s32_small by nia.
  rewrite bool_decide_eq_false_2 by lia. rewrite (u32_small (ap_size p * _)) by (unfold is_u32; nia).
  replace (ap_base p + ap_size p * Z.of_nat k) with (addr p k) by (unfold addr; lia). rewrite u32_small by (unfold is_u32; lia).
  apply wp_bind, wp_store_word; [by apply block_aligned|]. apply wp_bind. eapply wp_upd_mbuf; [exact Hm|].
  eapply wp_upd_mbuf; [by apply list_lookup_insert_eq; cbn [mbufheap set_words]; lia|].
  split; [|intros x Hx; cbn; by rewrite bool_decide_eq_false_2].
  cbn [mbufheap set_mbufheap set_words]. rewrite list_insert_insert_eq. unfold spec_put, put_pool, set_mbufheap, set_words.
  rewrite Hp, Ek, Nat2Z.id. cbn [words kerrno]. rewrite (re_errno _ _ Hr). apply rel_put; [done|done| | |].
  - constructor; cbn [set_freep set_nfree active memptr limit nblks blksiz nfree freep set_free ap_free]; try done.
    + destruct Hok as [? ? ? ? ? [Hnd Hall]]. constructor; try done. cbn [set_free ap_free ap_n].
      split; [by apply list.NoDup_cons|by apply list.Forall_cons].
    + rewrite Hn. simpl. lia.
    + split; [done|]. rewrite bool_decide_eq_true_2 by done. apply chain_set_free. eapply chain_frame; [|exact Hc].
      intros l Hl'. cbn. rewrite bool_decide_eq_false_2; [done|]. intros E%block_inj; [|done]. by subst.
  - intros j q l Hne Hq Hl'. cbn. rewrite bool_decide_eq_false_2; [done|]. intros E.
    destruct (rel_slot _ _ _ _ Hr Hq) as (_ & mq & _ & [Hokq _ _ _]). destruct (po_free _ Hokq) as [_ Hall].
    rewrite list.Forall_forall in Hall. destruct (block_bounds q l Hokq (Hall l Hl')). pose proof (po_size _ Hokq).
    destruct (re_apart _ _ Hr j i q p Hne Hq Hp); unfold ap_end in *; lia.
  - intros j q q' Hne Hq [= <-]. exact (re_apart _ _ Hr j i q p Hne Hq Hp).
Qed.

(** A search through the table finds what the specification finds. *)
Lemma find_mbuf_spec (f : membuf_info -> bool) (g : option apool -> bool) s al : forall n i,
  Forall2 (λ o m, g o = f m) al (drop i (mbufheap s)) -> length al = n ->
  wp (find_mbuf f n (Z.of_nat i)) s (λ r s', s' = s ∧ r = Z.of_nat (i + default n (first_ix g al))).
Proof.
  induction al as [|o al IH]; intros n i Hf Hn; subst n; cbn [find_mbuf length first_ix].
  - apply wp_ret. split; [done|]. simpl. lia.
  - apply Forall2_cons_inv_l in Hf as (m & ms & Ho & Hf & Hd). assert (mbufheap s !! i = Some m) as Hm by (rewrite <- (Nat.add_0_r i), <- lookup_drop, Hd; done).
    apply wp_bind. eapply wp_mbuf; [exact Hm|]. rewrite <- Ho. destruct (g o); [apply wp_ret; split; [done|]; simpl; lia|].
    replace (Z.of_nat i + 1) with (Z.of_nat (S i)) by lia. eapply wp_mono; [apply (IH (length al) (S i)); [|done]|].
    { rewrite (drop_S _ _ _ Hm) in Hd. injection Hd as Hd. by rewrite Hd. }
    intros r s' [-> ->]. split; [done|]. destruct (first_ix g al); simpl; lia.
Qed.

Lemma first_ix_Some {A} (f : A -> bool) l i : first_ix f l = Some i -> exists x, l !! i = Some x ∧ f x = true.
Proof.
  revert i. induction l as [|x l IH]; intros i; simpl; [done|]. destruct (f x) eqn:Ef; [intros [= <-]; by exists x|].
  destruct (first_ix f l) as [j|]; [|done]. intros [= <-]. apply (IH j eq_refl).
Qed.
Lemma first_ix_None {A} (f : A -> bool) l : first_ix f l = None -> forall i x, l !! i = Some x -> f x = false.
Proof.
  induction l as [|x l IH]; simpl; [done|]. destruct (f x) eqn:Ef; [done|]. destruct (first_ix f l); [done|].
  intros _ [|i] y; [intros [= <-]; done|]. by apply IH.
Qed.

(** The table as the specification sees it. *)
Lemma slots_pred (f : membuf_info -> bool) (g : option apool -> bool) a s :
  rel a s -> (forall o m, slot_rel (words s) o m -> g o = f m) -> Forall2 (λ o m, g o = f m) (ap_list a) (mbufheap s).
Proof. intros [Hs _ _] H. by eapply Forall2_impl. Qed.

Lemma spec_take_free i p k ks a : apool_at i a = Some p -> ap_free p = k :: ks -> spec_take i a = (addr p k, put_pool i (Some (set_free ks p)) a).
Proof. intros Hp Hf. unfold spec_take. by rewrite Hp, Hf. Qed.

Lemma malloc_any_spec siz a s al : forall n i,
  rel a s -> al = drop i (ap_list a) -> length al = n ->
  wp (malloc_any siz n (Z.of_nat i)) s (λ r s',
    match first_ix (has_block siz) al with
    | None => r = NULL ∧ s' = s
    | Some j => r = (spec_take (i + j) a).1 ∧ r ≠ NULL ∧ rel (spec_take (i + j) a).2 s'
    end).
Proof.
  induction al as [|o al IH]; intros n i Hr Hal Hn; subst n; cbn [malloc_any length first_ix]; [by apply wp_ret|].
  assert (ap_list a !! i = Some o) as Ho by (rewrite <- (Nat.add_0_r i), <- lookup_drop, <- Hal; done).
  assert (al = drop (S i) (ap_list a)) as Hal' by (rewrite (drop_S _ _ _ Ho) in Hal; by injection Hal).
  destruct (Forall2_lookup_l _ _ _ _ _ (re_slots _ _ Hr) Ho) as (m & Hm & Hs). apply wp_bind. eapply wp_mbuf; [exact Hm|].
  specialize (IH (length al) (S i) Hr Hal' eq_refl). replace (Z.of_nat i + 1) with (Z.of_nat (S i)) by lia.
  assert (wp (malloc_any siz (length al) (Z.of_nat (S i))) s (λ r s',
    match S <$> first_ix (has_block siz) al with
    | None => r = NULL ∧ s' = s
    | Some j => r = (spec_take (i + j) a).1 ∧ r ≠ NULL ∧ rel (spec_take (i + j) a).2 s'
    end)) as Hnext.
  { eapply wp_mono; [exact IH|]. intros r s'. destruct (first_ix (has_block siz) al) as [j|]; [|done]. simpl. by rewrite Nat.add_succ_r. }
  destruct o as [p|]; cbn [has_block].
  2: { cbn in Hs. by rewrite Hs. }
  destruct (Hs) as [_ (F1 & _ & _ & _ & F5) _ _]. rewrite F1, F5. cbn [andb]. destruct (bool_decide (siz <= ap_size p)) eqn:Esz; [|done]. cbn [andb].
  apply apool_at_Some in Ho. apply wp_bind. eapply wp_mono; [by apply get_mbufblk_spec|]. intros r s'.
  destruct (ap_free p) as [|k ks] eqn:Ef.
  - intros [-> ->]. by rewrite bool_decide_eq_true_2.
  - intros (-> & Hnz & Hr'). rewrite (bool_decide_eq_false_2 (addr p k = _)), (bool_decide_eq_false_2 (k :: ks = [])) by done. apply wp_ret. cbn [negb]. rewrite Nat.add_0_r, (spec_take_free _ _ _ _ _ Ho Ef). done.
Qed.

(** The loop that links the blocks from [j] on. *)
Lemma link_blocks_spec p m : forall j s,
  apool_ok p -> (j + m < ap_n p)%nat ->
  wp (link_blocks m (addr p j) (addr p (S j)) (ap_size p)) s (λ r s', r = addr p (j + m) ∧ s' = set_words (words s') s ∧
    (forall l, (j <= l < j + m)%nat -> words s' (addr p l) = addr p (S l)) ∧
    (forall x, (forall l, (j <= l < j + m)%nat -> x ≠ addr p l) -> words s' x = words s x)).
Proof.
  induction m as [|m IH]; intros j s Hok Hj; cbn [link_blocks].
  - apply wp_ret. rewrite Nat.add_0_r. split_and!; [done|by destruct s|lia|done].
  - apply wp_bind, wp_store_word; [by apply block_aligned|]. destruct (block_bounds p (S j) Hok ltac:(lia)) as [_ B]. pose proof (po_end _ Hok).
    pose proof (po_base _ Hok). pose proof (po_size _ Hok).
    assert (addr p (S j) + ap_size p = addr p (S (S j))) as E by (unfold addr; lia). rewrite E, u32_small by (unfold is_u32, addr in *; lia).
    eapply wp_mono; [apply (IH (S j)); [done|lia]|]. intros r s' (-> & Es & Hin & Hout). replace (S j + m)%nat with (j + S m)%nat by lia.
    split_and!; [done|by rewrite Es| |].
    + intros l Hl. destruct (decide (l = j)) as [->|]; [|apply Hin; lia]. rewrite Hout.
      * cbn. by rewrite bool_decide_eq_true_2.
      * intros l Hl' El%block_inj; [lia|done].
    + intros x Hx. rewrite Hout by (intros l Hl'; apply Hx; lia). cbn. rewrite bool_decide_eq_false_2; [done|]. apply Hx. lia.
Qed.

Lemma chain_seq w p m : forall j, (forall l, (j <= l < j + m)%nat -> w (addr p l) = addr p (S l)) -> w (addr p (j + m)) = NULL ->
  chain w p (seq j (S m)) (addr p j).
Proof.
  induction m as [|m IH]; intros j Hw Hn; cbn [seq chain].
  - rewrite Nat.add_0_r in Hn. by rewrite Hn.
  - split; [done|]. rewrite Hw by lia. apply IH; [intros l Hl; apply Hw; lia|]. by rewrite Nat.add_succ_comm.
Qed.

Definition perform (N : nat) (o : op) : ST kmem Z :=
  match o with
  | Create out mem n siz => r ← sys_bufcreate N out mem n siz; if bool_decide (r = 0) then load_word out else mret r
  | Destroy i => sys_bufdestroy N i
  | Malloc i siz => sys_bufmalloc N i siz
  | Free i mem => sys_buffree N i mem;; mret 0
  | Store x v => store_word x v;; mret 0
  end.

Lemma rel_fails e a s : rel a s -> rel (Apools (ap_list a) (Some e)) (set_kerrno e s).
Proof. intros [H1 H2 H3]. by constructor. Qed.

Lemma outside_block x p k : apool_ok p -> (k < ap_n p)%nat -> outside x p -> addr p k ≠ x.
Proof. intros Hok Hk Ho E. destruct (block_bounds p k Hok Hk). pose proof (po_size _ Hok). unfold outside in Ho. lia. Qed.

Lemma apart_outside p q k : apool_ok q -> (k < ap_n q)%nat -> apart p q -> outside (addr q k) p.
Proof. intros Hok Hk Ha. destruct (block_bounds q k Hok Hk). pose proof (po_size _ Hok). unfold apart, outside in *. lia. Qed.

(** The memory of a new pool. *)
Lemma format_spec p out i s (Q : Z -> kmem -> Prop) :
  apool_ok p -> out mod 4 = 0 -> outside out p -> ap_free p = seq 0 (ap_n p) ->
  (forall w', w' out = i -> chain w' p (ap_free p) (ap_base p) -> (forall x, x ≠ out -> outside x p -> w' x = words s x) -> Q 0 (set_words w' s)) ->
  wp (store_word out i;; cur ← link_blocks (Z.to_nat (Z.of_nat (ap_n p) - 1)) (ap_base p) (u32 (ap_base p + ap_size p)) (ap_size p); store_word cur NULL;; mret 0) s Q.
Proof.
  intros Hok Hout Hoo Hf HQ. pose proof (po_n _ Hok) as Hn. pose proof (po_size _ Hok). pose proof (po_base _ Hok). pose proof (po_end _ Hok).
  replace (Z.to_nat (Z.of_nat (ap_n p) - 1)) with (ap_n p - 1)%nat by lia.
  assert (ap_base p = addr p 0) as Eb by (unfold addr; lia). destruct (block_bounds p 0 Hok ltac:(lia)) as [_ B0].
  assert (u32 (ap_base p + ap_size p) = addr p 1) as -> by (rewrite u32_small; unfold addr, ap_end, is_u32 in *; lia). rewrite Eb.
  apply wp_bind, wp_store_word; [by apply bool_decide_eq_true_2|]. apply wp_bind. eapply wp_mono; [apply (link_blocks_spec p (ap_n p - 1) 0); [done|lia]|].
  intros cur s' (-> & Es & Hin & Hother). apply wp_bind, wp_store_word; [by apply block_aligned|]. apply wp_ret. rewrite Es. cbn [words set_words mbufheap kerrno].
  assert (forall l, (l < ap_n p)%nat -> addr p l ≠ out) as Hne by (intros; by apply outside_block). cbn [Nat.add] in *. apply HQ.
  - rewrite bool_decide_eq_false_2 by (symmetry; apply Hne; lia). rewrite Hother by (intros l Hl E; apply (Hne l); [lia|done]). cbn. by rewrite bool_decide_eq_true_2.
  - rewrite Hf. replace (seq 0 (ap_n p)) with (seq 0 (S (ap_n p - 1))) by (f_equal; lia). rewrite Eb. apply chain_seq.
    + intros l Hl. rewrite bool_decide_eq_false_2 by (intros E%block_inj; [lia|done]). apply Hin. lia.
    + by rewrite bool_decide_eq_true_2.
  - intros x Hx Hxo. assert (forall l, (l < ap_n p)%nat -> addr p l ≠ x) as Hnx by (intros; by apply outside_block).
    rewrite bool_decide_eq_false_2 by (intros E; apply (Hnx (ap_n p - 1)%nat); [lia|done]).
    rewrite Hother by (intros l Hl E; apply (Hnx l); [lia|done]). cbn. by rewrite bool_decide_eq_false_2.
Qed.

Lemma bufcreate_spec out mem n siz a s :
  rel a s -> allowed (Create out mem n siz) a ->
  wp (sys_bufcreate (length (ap_list a)) out mem n siz) s (λ r s', rel (spec_op (Create out mem n siz) a).2 s' ∧
    if decide (r = 0) then out mod 4 = 0 ∧ words s' out = (spec_op (Create out mem n siz) a).1 ∧ 0 <= words s' out
    else r = -1 ∧ (spec_op (Create out mem n siz) a).1 = -1).
Proof.
  intros Hr Hal. cbn [spec_op]. unfold sys_bufcreate.
  case_bool_decide as Hbad; [wp_pure; split; [by apply rel_fails|done]|].
  assert (0 < mem ∧ mem mod 4 = 0 ∧ siz mod 4 = 0 ∧ ap_end (Apool mem (Z.to_nat n) siz []) < 2^32 ∧ out mod 4 = 0 ∧
    outside out (Apool mem (Z.to_nat n) siz []) ∧ forall i q, apool_at i a = Some q -> apart (Apool mem (Z.to_nat n) siz []) q ∧ outside out q)
    as (H0 & H4 & H5 & H6 & H7 & H8 & H9) by (destruct Hal as [|[|[|[|Hal]]]]; [tauto..|exact Hal]). clear Hal.
  apply wp_bind. eapply wp_mono; [apply (find_mbuf_spec _ is_free s (ap_list a) (length (ap_list a)) 0); [|done]|].
  { apply slots_pred; [done|]. intros [p|] m; cbn; [by intros [_ (-> & _) _ _]|by intros ->]. }
  intros r s1 [-> ->]. cbn [Nat.add]. pose proof (rel_length _ _ Hr) as Hlen.
  destruct (first_ix is_free (ap_list a)) as [i|] eqn:Ef; cbn [from_option id].
  2: { rewrite bool_decide_eq_true_2 by done. wp_pure. split; [by apply rel_fails|done]. }
  destruct (first_ix_Some _ _ _ Ef) as (o & Ho & _). pose proof (lookup_lt_Some _ _ _ Ho) as Hi.
  rewrite bool_decide_eq_false_2 by lia. destruct (lookup_lt_is_Some_2 (mbufheap s) i) as [m Hm]; [lia|].
  set (p := Apool mem (Z.to_nat n) siz (seq 0 (Z.to_nat n))). change (ap_end (Apool mem (Z.to_nat n) siz [])) with (ap_end p) in *.
  change (outside out p) in H8. change (forall i q, apool_at i a = Some q -> apart p q ∧ outside out q) in H9.
  assert (apool_ok p) as Hok.
  { constructor; [done|done|cbn; lia|cbn; lia|done|]. split; [apply NoDup_seq|]. apply list.Forall_forall. intros k Hk%elem_of_seq. cbn. lia. }
  apply wp_bind. eapply wp_upd_mbuf; [exact Hm|]. unfold ap_end, p in H6. cbn [ap_base ap_n ap_size] in H6. rewrite Z2Nat.id in H6 by lia.
  assert (u32 (n * siz) = n * siz) as -> by (apply u32_small; unfold is_u32; nia).
  assert (u32 (mem + n * siz) = mem + n * siz) as -> by (apply u32_small; unfold is_u32; nia).
  replace (Z.to_nat (n - 1)) with (Z.to_nat (Z.of_nat (ap_n p) - 1)) by (cbn [ap_n p]; lia).
  apply (format_spec p); [done|done|done|done|]. intros w' Hwo Hch Hw.
  cbn [words set_words fst snd]. rewrite decide_True by done. split; [|split_and!; [done|done|rewrite Hwo; lia]].
  unfold put_pool, set_words, set_mbufheap. cbn [mbufheap kerrno]. rewrite (re_errno _ _ Hr). apply rel_put; [done|done| | |].
  - constructor; [done| |cbn [nfree ap_free p]; rewrite length_seq; lia|done]. cbn. unfold ap_end. cbn. split_and!; try done; lia.
  - intros j q k Hne Hq Hk. destruct (H9 _ _ Hq) as [Hap Hoq]. destruct (rel_slot _ _ _ _ Hr Hq) as (_ & mq & _ & [Hokq _ _ _]).
    destruct (po_free _ Hokq) as [_ Hall]. rewrite list.Forall_forall in Hall. specialize (Hall k Hk).
    apply Hw; [by apply outside_block|by apply apart_outside].
  - intros j q q' Hne Hq [= <-]. destruct (H9 _ _ Hq) as [[|] _]; [right|left]; done.
Qed.

Lemma create_spec out mem n siz a s :
  rel a s -> allowed (Create out mem n siz) a ->
  wp (perform (length (ap_list a)) (Create out mem n siz)) s (λ r s', r = (spec_op (Create out mem n siz) a).1 ∧ rel (spec_op (Create out mem n siz) a).2 s').
Proof.
  intros Hr Hal. cbn [perform]. apply wp_bind. eapply wp_mono; [by apply bufcreate_spec|]. intros r s' [Hr' Hcase].
  case_decide; [subst r; destruct Hcase as (H4 & Hw & _)|destruct Hcase as [-> E]].
  - rewrite bool_decide_eq_true_2 by done. by apply wp_load_word; [apply bool_decide_eq_true_2|].
  - rewrite bool_decide_eq_false_2 by done. apply wp_ret. by rewrite E.
Qed.

Lemma destroy_spec i a s :
  rel a s ->
  wp (perform (length (ap_list a)) (Destroy i)) s (λ r s', r = (spec_op (Destroy i) a).1 ∧ rel (spec_op (Destroy i) a).2 s').
Proof.
  intros Hr. cbn [perform spec_op]. unfold sys_bufdestroy. pose proof (rel_length _ _ Hr) as Hlen.
  case_bool_decide as Hi; [|wp_pure; split; [done|by apply rel_fails]].
  destruct (lookup_lt_is_Some_2 (mbufheap s) (Z.to_nat i)) as [m Hm]; [lia|]. replace i with (Z.of_nat (Z.to_nat i)) at 1 by lia.
  apply wp_bind. eapply wp_upd_mbuf; [exact Hm|]. wp_pure. split; [done|]. unfold put_pool, set_mbufheap. cbn [snd]. rewrite (re_errno _ _ Hr).
  apply rel_put; [done|lia|done|done|done].
Qed.

(** The end of [sys_bufmalloc]: an error is reported when there is no block. *)
Lemma malloc_end r a s (Q : Z -> kmem -> Prop) :
  (r = NULL -> rel (Apools (ap_list a) (Some EAGAIN)) (set_kerrno EAGAIN s) -> Q r (set_kerrno EAGAIN s)) -> (r ≠ NULL -> Q r s) -> (r = NULL -> rel a s) ->
  wp ((if bool_decide (r = NULL) then modify (set_kerrno EAGAIN) else skip);; mret r) s Q.
Proof.
  intros H1 H2 Hr. case_bool_decide as E; wp_pure; [apply H1; [done|by apply rel_fails, Hr]|by apply H2].
Qed.

Lemma malloc_spec i siz a s :
  rel a s -> allowed (Malloc i siz) a ->
  wp (perform (length (ap_list a)) (Malloc i siz)) s (λ r s', r = (spec_op (Malloc i siz) a).1 ∧ rel (spec_op (Malloc i siz) a).2 s').
Proof.
  intros Hr Hal. cbn [perform spec_op allowed] in *. unfold sys_bufmalloc. pose proof (rel_length _ _ Hr) as Hlen.
  destruct (decide (i = MEMBUF_ANY)) as [->|Hany].
  - rewrite (bool_decide_eq_false_2 (_ ∧ _)), (bool_decide_eq_true_2 (MEMBUF_ANY = _)) by naive_solver.
    apply wp_bind. eapply wp_mono; [apply (malloc_any_spec siz a s (ap_list a) (length (ap_list a)) 0 Hr); [by rewrite drop_0|done]|].
    intros r s'. destruct (first_ix (has_block siz) (ap_list a)) as [j|]; [intros (-> & Hnz & Hr')|intros [-> ->]].
    + apply (malloc_end _ a); [done|done|]. intros E. done.
    + apply (malloc_end _ a); [done|done|done].
  - rewrite (bool_decide_eq_false_2 (i = MEMBUF_ANY)) by done. destruct (decide (0 <= i < Z.of_nat (length (ap_list a)))) as [Hi|Hi].
    2: { rewrite bool_decide_eq_true_2, bool_decide_eq_false_2 by (done || lia). by apply wp_ret. }
    rewrite bool_decide_eq_false_2, bool_decide_eq_true_2 by (done || lia).
    set (k := Z.to_nat i). replace i with (Z.of_nat k) by lia. destruct (lookup_lt_is_Some_2 (mbufheap s) k) as [m Hm]; [lia|].
    destruct (Forall2_lookup_r _ _ _ _ _ (re_slots _ _ Hr) Hm) as (o & Ho & Hs). apply wp_bind. eapply wp_mbuf; [exact Hm|].
    unfold spec_take. destruct o as [p|]; cbn [slot_rel] in Hs.
    + destruct (Hs) as [_ (-> & _) _ _]. cbn [negb]. apply apool_at_Some in Ho. rewrite Ho. apply wp_bind. eapply wp_mono; [by apply get_mbufblk_spec|].
      intros r s'. destruct (ap_free p) as [|b bs]; [intros [-> ->]|intros (-> & Hnz & Hr')]; apply (malloc_end _ a); done.
    + rewrite Hs. cbn [negb]. unfold apool_at. rewrite Ho. cbn. wp_pure. split; [done|by apply rel_fails].
Qed.

Lemma free_spec i mem a s :
  rel a s -> allowed (Free i mem) a ->
  wp (perform (length (ap_list a)) (Free i mem)) s (λ r s', r = (spec_op (Free i mem) a).1 ∧ rel (spec_op (Free i mem) a).2 s' ∧
    forall x, x ≠ mem -> words s' x = words s x).
Proof.
  intros Hr Hal. cbn [perform spec_op allowed] in *. unfold sys_buffree. pose proof (rel_length _ _ Hr) as Hlen. apply wp_bind.
  assert (forall j p, apool_at j a = Some p -> allocated p mem ->
    wp (put_mbufblk (Z.of_nat j) mem) s (λ _ s1, wp (mret 0) s1 (λ r s', r = 0 ∧ rel (spec_put j mem a) s' ∧ forall x, x ≠ mem -> words s' x = words s x))) as Hput.
  { intros j p Hp (k & Hk & Hkf & ->). eapply wp_mono; [by eapply put_mbufblk_spec|]. intros [] s' [Hr' Hx]. by apply wp_ret. }
  destruct (decide (i = MEMBUF_ANY)) as [->|Hany].
  - rewrite (bool_decide_eq_false_2 (_ ∧ _)) by naive_solver. rewrite !(bool_decide_eq_true_2 (MEMBUF_ANY = _)) in * by done.
    apply wp_bind. eapply wp_mono; [apply (find_mbuf_spec _ (has_addr mem) s (ap_list a) (length (ap_list a)) 0); [|done]|].
    { apply slots_pred; [done|]. intros [p|] m; cbn; [|by intros ->]. intros [_ (-> & Hb & Hl & _) _ _]. unfold MEM_WITHIN_BUF. by rewrite Hb, Hl. }
    intros r s1 [-> ->]. cbn [Nat.add fst snd]. destruct (first_ix (has_addr mem) (ap_list a)) as [j|] eqn:Ef; cbn [from_option id].
    + destruct (first_ix_Some _ _ _ Ef) as ([p|] & Ho & Hin); [|done]. pose proof (lookup_lt_Some _ _ _ Ho). rewrite bool_decide_eq_false_2 by lia.
      apply apool_at_Some in Ho. apply (Hput j p Ho). destruct (Hal _ _ Ho) as [Hout|]; [|done]. apply bool_decide_eq_true in Hin. unfold outside in Hout. lia.
    + rewrite bool_decide_eq_true_2 by done. by wp_pure.
  - rewrite (bool_decide_eq_false_2 (i = MEMBUF_ANY)) in * by done. cbn [fst snd]. destruct (decide (0 <= i <= Z.of_nat (length (ap_list a)))) as [Hi|Hi].
    + destruct (Hal Hi) as (p & Hp & Hpa). pose proof (rel_slot _ _ _ _ Hr Hp) as [Hlt _].
      rewrite bool_decide_eq_false_2, bool_decide_eq_true_2 by lia. replace i with (Z.of_nat (Z.to_nat i)) at 1 by lia. by apply (Hput _ p).
    + rewrite bool_decide_eq_true_2, bool_decide_eq_false_2 by lia. by wp_pure.
Qed.

Lemma store_spec x v a s :
  rel a s -> allowed (Store x v) a -> wp (perform (length (ap_list a)) (Store x v)) s (λ r s', r = 0 ∧ rel a s').
Proof.
  intros Hr [Hx Hal]. cbn [perform]. apply wp_bind, wp_store_word; [by apply bool_decide_eq_true_2|]. wp_pure. split; [done|].
  destruct Hr as [Hs Ha He]. constructor; [|done|done]. cbn [words set_words mbufheap].
  apply Forall2_same_length_lookup. split; [by rewrite (Forall2_length Hs)|]. intros i o m Ho Hm.
  eapply slot_frame; [|by eapply Forall2_lookup_lr]. intros p k -> Hk. cbn. rewrite bool_decide_eq_false_2; [done|]. intros E.
  apply (Hal i p k); [by apply apool_at_Some|done|done].
Qed.

Lemma perform_spec o a s :
  rel a s -> allowed o a -> wp (perform (length (ap_list a)) o) s (λ r s', r = (spec_op o a).1 ∧ rel (spec_op o a).2 s').
Proof. intros Hr Hal. destruct o; [by apply create_spec|by apply destroy_spec|by apply malloc_spec| |by apply store_spec].
  eapply wp_mono; [by apply free_spec|]. by intros r s' (Hres & Hrel & _). Qed.

(** ** Programs *)

Fixpoint perform_all (N : nat) (os : list op) : ST kmem (list Z) :=
  match os with
  | [] => mret []
  | o :: os => r ← perform N o; rs ← perform_all N os; mret (r :: rs)
  end.
Fixpoint spec_all (os : list op) (a : apools) : list Z * apools :=
  match os with
  | [] => ([], a)
  | o :: os => let '(r, a) := spec_op o a in let '(rs, a) := spec_all os a in (r :: rs, a)
  end.
Fixpoint respects (os : list op) (a : apools) : Prop :=
  match os with [] => True | o :: os => allowed o a ∧ respects os (spec_op o a).2 end.

(** The pools of the configuration, as far as they can be made. *)
Fixpoint spec_init (cfg : list (Z * Z)) (out ptr : Z) (a : apools) : apools :=
  match cfg with
  | [] => a
  | (bsiz, n) :: cfg =>
      let '(r, a) := spec_op (Create out ptr n bsiz) a in
      if bool_decide (r < 0) then a else spec_init cfg (out + 4) (u32 (ptr + u32 (bsiz * n))) a
  end.
Fixpoint respects_init (cfg : list (Z * Z)) (out ptr : Z) (a : apools) : Prop :=
  match cfg with
  | [] => True
  | (bsiz, n) :: cfg =>
      allowed (Create out ptr n bsiz) a ∧ respects_init cfg (out + 4) (u32 (ptr + u32 (bsiz * n))) (spec_op (Create out ptr n bsiz) a).2
  end.

Lemma spec_op_length o a : length (ap_list (spec_op o a).2) = length (ap_list a).
Proof.
  destruct o; cbn [spec_op]; unfold spec_take, spec_put, put_pool, fails;
    repeat match goal with |- context [match ?x with _ => _ end] => destruct x end; cbn [snd ap_list]; rewrite ?length_insert; done.
Qed.

Lemma spec_init_length cfg : forall out ptr a, length (ap_list (spec_init cfg out ptr a)) = length (ap_list a).
Proof.
  induction cfg as [|[b n] cfg IH]; intros out ptr a; [done|]. cbn [spec_init]. pose proof (spec_op_length (Create out ptr n b) a) as Hl.
  destruct (spec_op (Create out ptr n b) a) as [r a']. cbn [snd] in Hl. case_bool_decide; [done|]. by rewrite IH.
Qed.

Lemma mem_init_spec cfg : forall out ptr a s,
  rel a s -> respects_init cfg out ptr a ->
  wp (bufmalloc_mem_init (length (ap_list a)) cfg out ptr) s (λ _ s', rel (spec_init cfg out ptr a) s').
Proof.
  induction cfg as [|[b n] cfg IH]; intros out ptr a s Hr Hal; cbn [bufmalloc_mem_init spec_init]; [by apply wp_ret|].
  destruct Hal as [Hal Hrest]. apply wp_bind. eapply wp_mono; [by apply bufcreate_spec|]. pose proof (spec_op_length (Create out ptr n b) a) as Hl.
  destruct (spec_op (Create out ptr n b) a) as [r0 a']. cbn [fst snd] in *. intros r s' [Hr' Hcase]. case_decide.
  - subst r. destruct Hcase as (_ & <- & Hpos). rewrite !bool_decide_eq_false_2 by (auto || lia). rewrite <- Hl. by apply IH.
  - destruct Hcase as [-> ->]. rewrite !bool_decide_eq_true_2 by done. by apply wp_ret.
Qed.

Lemma perform_all_spec os : forall a s,
  rel a s -> respects os a -> wp (perform_all (length (ap_list a)) os) s (λ rs s', rs = (spec_all os a).1 ∧ rel (spec_all os a).2 s').
Proof.
  induction os as [|o os IH]; intros a s Hr Hal; cbn [perform_all spec_all]; [by apply wp_ret|]. destruct Hal as [Hal Hrest].
  apply wp_bind. eapply wp_mono; [by apply perform_spec|]. pose proof (spec_op_length o a) as Hl. destruct (spec_op o a) as [r a1]. cbn [fst snd] in *.
  intros r' s1 [-> Hr1]. apply wp_bind. rewrite <- Hl. eapply wp_mono; [by apply IH|]. intros rs s2 [-> Hr2].
  destruct (spec_all os a1) as [rs a2]. by apply wp_ret.
Qed.

(** The table after the loop of [bufmalloc_init]. *)
Lemma pools_init_spec N s : length (mbufheap s) = N ->
  wp (for_up 0 (Z.of_nat N) (λ i, upd_mbuf i (set_active false))) s (λ _ s', rel (Apools (replicate N None) (kerrno s)) s').
Proof.
  intros Hl. apply wp_for_up with (I := λ i s', length (mbufheap s') = N ∧ kerrno s' = kerrno s ∧
    forall j m, (Z.of_nat j < i) -> mbufheap s' !! j = Some m -> active m = false); [lia| | |].
  - split_and!; [done|done|]. intros; lia.
  - intros i s' Hi (Hl' & He & Ha). destruct (lookup_lt_is_Some_2 (mbufheap s') (Z.to_nat i)) as [m Hm]; [lia|].
    replace i with (Z.of_nat (Z.to_nat i)) by lia. eapply wp_upd_mbuf; [exact Hm|]. cbn [mbufheap set_mbufheap kerrno].
    split_and!; [by rewrite length_insert|done|]. intros j m' Hj Hm'. destruct (decide (j = Z.to_nat i)) as [->|].
    + rewrite list_lookup_insert_eq in Hm' by lia. by injection Hm' as <-.
    + rewrite list_lookup_insert_ne in Hm' by done. eapply Ha; [|exact Hm']. lia.
  - intros s' (Hl' & He & Ha). constructor; [| |done].
    + cbn [ap_list]. apply Forall2_same_length_lookup. split; [by rewrite length_replicate|]. intros j o m Ho Hm.
      apply lookup_replicate in Ho as [-> Hj]. cbn. eapply Ha; [|exact Hm]. lia.
    + intros i j p q _ Hp. apply apool_at_Some in Hp. cbn [ap_list] in Hp. apply lookup_replicate in Hp as [? _]. done.
Qed.

(** ** Properties *)

Section properties.
Context (N : nat) (cfg : list (Z * Z)) (out ptr : Z) (os : list op) (s : kmem).
Hypothesis Hlen : length (mbufheap s) = N.

Definition no_pools : apools := Apools (replicate N None) (kerrno s).
Hypothesis Hinit : respects_init cfg out ptr no_pools.
Hypothesis Hos : respects os (spec_init cfg out ptr no_pools).

Lemma program_spec :
  wp (bufmalloc_init N cfg out ptr;; perform_all N os) s (λ rs s',
    rs = (spec_all os (spec_init cfg out ptr no_pools)).1 ∧ rel (spec_all os (spec_init cfg out ptr no_pools)).2 s').
Proof.
  assert (length (ap_list no_pools) = N) as Hn by apply length_replicate.
  unfold bufmalloc_init. apply wp_bind, wp_bind. eapply wp_mono; [by apply pools_init_spec|]. intros [] s1 Hr.
  rewrite <- Hn. eapply wp_mono; [by apply mem_init_spec|]. intros [] s2 Hr2. rewrite <- (spec_init_length cfg out ptr no_pools). by apply perform_all_spec.
Qed.
End properties.

Lemma spec_all_length os : forall a, length (ap_list (spec_all os a).2) = length (ap_list a).
Proof.
  induction os as [|o os IH]; intros a; [done|]. cbn [spec_all]. pose proof (spec_op_length o a) as Hl. destruct (spec_op o a) as [r a1].
  specialize (IH a1). destruct (spec_all os a1). cbn [snd] in *. congruence.
Qed.

(** C24: The block allocator implements pools of blocks: after initialisation
    with any configuration, every program of calls and stores that keeps the
    contract of the client runs without undefined behaviour and gets the
    results of the specification, in which a pool is a stack of free blocks
    (pools made and destroyed, blocks taken from a given pool or from the first one
    that fits, blocks returned, and every error). *)
Theorem bufmalloc_refines N cfg out ptr os s :
  length (mbufheap s) = N -> respects_init cfg out ptr (no_pools N s) -> respects os (spec_init cfg out ptr (no_pools N s)) ->
  exists s', (bufmalloc_init N cfg out ptr;; perform_all N os) s = Some ((spec_all os (spec_init cfg out ptr (no_pools N s))).1, s') ∧
    kerrno s' = ap_errno (spec_all os (spec_init cfg out ptr (no_pools N s))).2.
Proof.
  intros Hl Hi Ho. destruct (proj1 (wp_run _ _ _) (program_spec N cfg out ptr os s Hl Hi Ho)) as (rs & s' & E & -> & Hr).
  exists s'. split; [exact E|apply Hr].
Qed.

(** A block that is taken lies in its pool and overlaps no block of a client. *)
Lemma take_exclusive i p k ks q mem j a s :
  rel a s -> apool_at i a = Some p -> ap_free p = k :: ks -> apool_at j a = Some q -> allocated q mem ->
  addr p k + ap_size p <= mem ∨ mem + ap_size q <= addr p k.
Proof.
  intros Hr Hp Hf Hq (l & Hl & Hlf & ->). destruct (rel_slot _ _ _ _ Hr Hp) as (_ & _ & _ & [Hokp _ _ _]).
  destruct (rel_slot _ _ _ _ Hr Hq) as (_ & _ & _ & [Hokq _ _ _]). destruct (po_free _ Hokp) as [_ Hall]. rewrite Hf in Hall.
  apply list.Forall_cons in Hall as [Hk _]. destruct (block_bounds p k Hokp Hk), (block_bounds q l Hokq Hl).
  destruct (decide (i = j)) as [->|Hne].
  - rewrite Hp in Hq. injection Hq as <-. assert (k ≠ l) by (intros ->; apply Hlf; rewrite Hf; set_solver). pose proof (po_size _ Hokp). unfold addr. nia.
  - destruct (re_apart _ _ Hr i j p q Hne Hp Hq); unfold ap_end in *; lia.
Qed.

Lemma malloc_result i siz a :
  (spec_op (Malloc i siz) a).1 = NULL ∨ exists j p k ks, apool_at j a = Some p ∧ ap_free p = k :: ks ∧
    (spec_op (Malloc i siz) a).1 = addr p k ∧ (i = MEMBUF_ANY -> siz <= ap_size p).
Proof.
  cbn [spec_op]. case_bool_decide as Hany.
  - destruct (first_ix (has_block siz) (ap_list a)) as [j|] eqn:Ef; [|by left]. right. destruct (first_ix_Some _ _ _ Ef) as ([p|] & Ho & Hb); [|done].
    apply andb_true_iff in Hb as [Hb%bool_decide_eq_true Hf]. destruct (ap_free p) as [|k ks] eqn:Efr; [done|]. apply apool_at_Some in Ho.
    exists j, p, k, ks. by rewrite (spec_take_free _ _ _ _ _ Ho Efr).
  - case_bool_decide as Hi; [|by left]. unfold spec_take. destruct (apool_at (Z.to_nat i) a) as [p|] eqn:Hp; [|by left].
    destruct (ap_free p) as [|k ks] eqn:Ef; [by left|]. right. exists (Z.to_nat i), p, k, ks. done.
Qed.

(** No block is handed out twice. After any program that keeps the
    contract, [sys_bufmalloc] returns NULL or the address of a block that
    is aligned, lies inside its pool, has the requested size (when any pool may
    be used) and overlaps no block that the program holds. *)
Theorem malloc_exclusive N cfg out ptr os i siz s :
  length (mbufheap s) = N -> respects_init cfg out ptr (no_pools N s) -> respects os (spec_init cfg out ptr (no_pools N s)) ->
  i ≠ Z.of_nat N ->
  let a := (spec_all os (spec_init cfg out ptr (no_pools N s))).2 in
  exists r s', (bufmalloc_init N cfg out ptr;; perform_all N os;; sys_bufmalloc N i siz) s = Some (r, s') ∧
    (r = NULL ∨ exists j p, apool_at j a = Some p ∧ (i = MEMBUF_ANY -> siz <= ap_size p) ∧ r mod 4 = 0 ∧
      ap_base p <= r ∧ r + ap_size p <= ap_end p ∧
      forall l q mem, apool_at l a = Some q -> allocated q mem -> r + ap_size p <= mem ∨ mem + ap_size q <= r).
Proof.
  intros Hl Hi Ho HiN a. pose proof (program_spec N cfg out ptr os s Hl Hi Ho) as (rs & s1 & E1 & _ & Hr)%wp_run. fold a in Hr.
  assert (length (ap_list a) = N) as Hla by (unfold a; rewrite spec_all_length, spec_init_length; apply length_replicate).
  assert (allowed (Malloc i siz) a) as Hal by (cbn; by rewrite Hla).
  pose proof (malloc_spec i siz a s1 Hr Hal) as (r & s2 & E2 & -> & _)%wp_run. rewrite Hla in E2. exists (spec_op (Malloc i siz) a).1, s2. split.
  { unfold mbind, st_bind in *. destruct (bufmalloc_init N cfg out ptr s) as [[[] s0]|]; [|done]. rewrite E1. exact E2. }
  destruct (malloc_result i siz a) as [|(j & p & k & ks & Hp & Hf & -> & Hsz)]; [by left|right]. exists j, p.
  destruct (rel_slot _ _ _ _ Hr Hp) as (_ & _ & _ & [Hok _ _ _]). destruct (po_free _ Hok) as [_ Hall]. rewrite Hf in Hall.
  apply list.Forall_cons in Hall as [Hk _]. destruct (block_bounds p k Hok Hk). pose proof (block_aligned p k Hok) as Hal4%bool_decide_eq_true.
  split_and!; try done. intros l q mem Hq Hmem. by eapply take_exclusive.
Qed.

(** A region for a pool of [n] blocks, and a place for its identifier. *)
Record region_ok (out mem n siz : Z) : Prop := {
  ro_mem : 0 < mem ∧ mem mod 4 = 0;
  ro_siz : 4 <= siz ∧ siz mod 4 = 0;
  ro_end : 0 < n ∧ mem + n * siz < 2^32;
  ro_out : out ≠ NULL ∧ out mod 4 = 0 ∧ (out < mem ∨ mem + n * siz <= out);
}.

(** The first pool of an empty table. *)
Definition one_pool (N : nat) (mem n siz : Z) (l : list nat) (e : option errno) : apools :=
  Apools (Some (Apool mem (Z.to_nat n) siz l) :: replicate N None) e.

Lemma first_pool N out mem n siz s :
  region_ok out mem n siz ->
  allowed (Create out mem n siz) (no_pools (S N) s) ∧
  spec_op (Create out mem n siz) (no_pools (S N) s) = (0, one_pool N mem n siz (seq 0 (Z.to_nat n)) (kerrno s)).
Proof.
  intros [[H1 H2] [H3 H4] [H5 H6] (H7 & H8 & H9)]. split.
  - cbn [allowed]. do 4 right. unfold outside, ap_end. cbn [ap_base ap_n ap_size]. rewrite Z2Nat.id by lia.
    split_and!; try done. intros i q Hq%apool_at_Some. cbn [ap_list no_pools] in Hq. apply lookup_replicate in Hq as [? _]. done.
  - cbn [spec_op]. rewrite bool_decide_eq_false_2 by (unfold NULL in *; lia). done.
Qed.

(** Taking the blocks of the first pool until there are none. *)
Lemma drain_pool N mem n siz e l :
  let os := replicate (S (length l)) (Malloc 0 siz) in
  respects os (one_pool N mem n siz l e) ∧
  (spec_all os (one_pool N mem n siz l e)).1 = ((λ k, mem + Z.of_nat k * siz) <$> l) ++ [NULL] ∧
  ap_errno (spec_all os (one_pool N mem n siz l e)).2 = Some EAGAIN.
Proof.
  induction l as [|k l IH]; intros os; [done|]. destruct IH as (R1 & R2 & R3).
  change os with (Malloc 0 siz :: replicate (S (length l)) (Malloc 0 siz)). cbn [respects]. cbn [spec_all].
  change (spec_op (Malloc 0 siz) (one_pool N mem n siz (k :: l) e)) with (mem + Z.of_nat k * siz, one_pool N mem n siz l e). cbn [snd fst].
  destruct (spec_all (replicate (S (length l)) (Malloc 0 siz)) (one_pool N mem n siz l e)) as [rs a'].
  cbn [fst snd] in *. split_and!; [done|done|by rewrite R2|done].
Qed.

(** C35: A pool has exactly the blocks it was made with: after a pool of [n]
    blocks is made, [n] requests get the [n] blocks of the region, in order
    and without gaps, and the next one gets NULL with the error EAGAIN. *)
Theorem pool_capacity N out mem n siz s :
  length (mbufheap s) = S N -> region_ok out mem n siz ->
  exists s', (bufmalloc_init (S N) [] 0 0;; perform_all (S N) (Create out mem n siz :: replicate (S (Z.to_nat n)) (Malloc 0 siz))) s =
      Some (0 :: ((λ k, mem + Z.of_nat k * siz) <$> seq 0 (Z.to_nat n)) ++ [NULL], s') ∧ kerrno s' = Some EAGAIN.
Proof.
  intros Hl Hreg. set (os := Create out mem n siz :: replicate (S (Z.to_nat n)) (Malloc 0 siz)).
  destruct (first_pool N out mem n siz s Hreg) as [Hal Ec].
  destruct (drain_pool N mem n siz (kerrno s) (seq 0 (Z.to_nat n))) as (R1 & R2 & R3). rewrite length_seq in R1, R2, R3.
  assert (respects os (spec_init [] 0 0 (no_pools (S N) s))) as Hos by (cbn [spec_init os respects]; by rewrite Ec).
  destruct (proj1 (wp_run _ _ _) (program_spec (S N) [] 0 0 os s Hl I Hos)) as (rs & s' & E & -> & Hr).
  exists s'. cbn [spec_init] in *. rewrite E, (re_errno _ _ Hr). unfold os. cbn [spec_all]. rewrite Ec.
  destruct (spec_all (replicate (S (Z.to_nat n)) (Malloc 0 siz)) _) as [rs a']. cbn [fst snd] in *. by rewrite R2.
Qed.

(** C36: Two range checks are off by one. The address just past the last
    block of a pool is accepted by [sys_buffree], and the next
    [sys_bufmalloc] hands it out, although it is outside of the pool; and
    N_MBUFS is accepted as the identifier of a pool, which is read from beyond
    the table. *)
Theorem range_checks_off_by_one N out mem n siz s :
  length (mbufheap s) = S N -> region_ok out mem n siz ->
  (exists s', (bufmalloc_init (S N) [] 0 0;; perform (S N) (Create out mem n siz);; sys_buffree (S N) 0 (mem + n * siz);; sys_bufmalloc (S N) 0 siz) s =
    Some (mem + n * siz, s')) ∧
  sys_bufmalloc (S N) (Z.of_nat (S N)) siz s = None.
Proof.
  intros Hl Hreg. split.
  2: { unfold sys_bufmalloc. rewrite !bool_decide_eq_false_2 by (unfold MEMBUF_ANY; lia). unfold mbuf, mbind, st_bind, gets, lift.
       by rewrite arr_get_nat, lookup_ge_None_2 by lia. }
  cut (wp (bufmalloc_init (S N) [] 0 0;; perform (S N) (Create out mem n siz);; sys_buffree (S N) 0 (mem + n * siz);; sys_bufmalloc (S N) 0 siz) s (λ r _, r = mem + n * siz)).
  { intros (r & s' & E & ->)%wp_run. by exists s'. }
  destruct (first_pool N out mem n siz s Hreg) as [Hal Ec]. destruct Hreg as [[H1 H2] [H3 H4] [H5 H6] _].
  assert (length (ap_list (no_pools (S N) s)) = S N) as Hn by apply length_replicate.
  unfold bufmalloc_init. apply wp_bind, wp_bind. eapply wp_mono; [by apply pools_init_spec|]. intros [] s1 Hr. apply wp_ret.
  apply wp_bind. rewrite <- Hn. eapply wp_mono; [by apply perform_spec|]. rewrite Ec, Hn. intros r0 s2 [_ Hr2]. cbn [snd] in Hr2.
  destruct (rel_slot 0 _ _ _ Hr2 eq_refl) as (_ & m & Hm & [Hok (F1 & F2 & F3 & F4 & F5) Hnf _]). pose proof (rel_length _ _ Hr2) as Hl2.
  cbn [ap_base ap_n ap_size ap_free one_pool ap_list length] in *. rewrite length_seq in Hnf. rewrite Z2Nat.id in * by lia. change 0 with (Z.of_nat 0).
  apply wp_bind. unfold sys_buffree. rewrite !bool_decide_eq_false_2 by (unfold MEMBUF_ANY; lia). unfold put_mbufblk.
  apply wp_bind. eapply wp_mbuf; [exact Hm|]. apply wp_bind. eapply wp_lift; [unfold MEM_TO_BLK; rewrite bool_decide_eq_false_2 by lia; reflexivity|].
  rewrite F2, F4, F5. replace (mem + n * siz - mem) with (n * siz) by lia. rewrite u32_small by (unfold is_u32; nia).
  rewrite Z.div_mul, s32_small by nia. rewrite bool_decide_eq_false_2 by lia. rewrite (u32_small (siz * n)) by (unfold is_u32; nia).
  replace (mem + siz * n) with (mem + n * siz) by lia. rewrite u32_small by (unfold is_u32; nia).
  assert (aligned (mem + n * siz) = true) as Ha by (apply bool_decide_eq_true_2; rewrite Z.add_mod, Z.mul_mod, H2, H4, Z.mul_0_r by lia; done).
  apply wp_bind, wp_store_word; [done|]. apply wp_bind. eapply wp_upd_mbuf; [exact Hm|].
  eapply wp_upd_mbuf; [by apply list_lookup_insert_eq; cbn [mbufheap set_words]; lia|]. cbn [mbufheap set_mbufheap set_words]. rewrite list_insert_insert_eq.
  set (m' := set_nfree _ _). unfold sys_bufmalloc. rewrite !bool_decide_eq_false_2 by (unfold MEMBUF_ANY; lia).
  apply wp_bind. eapply wp_mbuf; [apply list_lookup_insert_eq; cbn; lia|]. cbn [active m' set_nfree set_freep]. rewrite F1. cbn [negb].
  apply wp_bind. unfold get_mbufblk. apply wp_bind. eapply wp_mbuf; [apply list_lookup_insert_eq; cbn; lia|]. cbn [nfree freep m' set_nfree set_freep].
  rewrite bool_decide_eq_false_2 by lia. apply wp_bind, wp_load_word; [done|]. apply wp_bind. eapply wp_upd_mbuf; [apply list_lookup_insert_eq; cbn; lia|].
  apply wp_bind. eapply wp_upd_mbuf; [apply list_lookup_insert_eq; cbn; rewrite length_insert; lia|]. wp_pure. rewrite bool_decide_eq_false_2 by (unfold NULL; nia). by wp_pure.
Qed.

(** ** Examples *)

Definition sample_kmem : kmem := MkKmem (replicate 2 (MkMembuf true 0 0 0 0 0 0)) (λ _, 0) None.
Definition sample_ops : list op := [Malloc (-1) 4; Store 100 9; Free 0 100; Malloc 0 8; Malloc (-1) 8; Malloc 0 8; Destroy 0; Malloc 0 8].

Lemma sample_region : region_ok 400 100 2 8.
Proof. constructor; unfold NULL; split_and!; (done || lia). Qed.

Lemma sample_init : respects_init [(8, 2)] 400 100 (no_pools 2 sample_kmem).
Proof. split; [|done]. apply (first_pool 1 400 100 2 8 sample_kmem sample_region). Qed.

Lemma sample_respects : respects sample_ops (spec_init [(8, 2)] 400 100 (no_pools 2 sample_kmem)).
Proof.
  unfold sample_ops. cbn [respects]. split_and!; try done.
  - split; [done|]. intros i p k Hp Hk. destruct i as [|[|i]]; [|done|done]. injection Hp as <-. cbn in Hk. assert (k = 1%nat) as -> by set_solver. done.
  - cbn [allowed]. rewrite bool_decide_eq_false_2 by done. intros _. eexists. split; [reflexivity|]. exists 0%nat. split_and!; [cbn; lia|cbn; set_solver|done].
Qed.

Lemma bufmalloc_refines_witness : exists s',
  (bufmalloc_init 2 [(8, 2)] 400 100;; perform_all 2 sample_ops) sample_kmem = Some ([100; 0; 0; 100; 108; 0; 0; 0], s') ∧ kerrno s' = Some EINVAL.
Proof.
  destruct (bufmalloc_refines 2 [(8, 2)] 400 100 sample_ops sample_kmem eq_refl sample_init sample_respects) as (s' & E & He).
  exists s'. split; [exact E|exact He].
Defined.

Lemma malloc_exclusive_witness : exists r s',
  (bufmalloc_init 2 [(8, 2)] 400 100;; perform_all 2 sample_ops;; sys_bufmalloc 2 (-1) 8) sample_kmem = Some (r, s').
Proof.
  destruct (malloc_exclusive 2 [(8, 2)] 400 100 sample_ops (-1) 8 sample_kmem eq_refl sample_init sample_respects ltac:(done)) as (r & s' & E & _).
  exists r, s'. exact E.
Defined.

Lemma pool_capacity_witness : exists s',
  (bufmalloc_init 2 [] 0 0;; perform_all 2 [Create 400 100 2 8; Malloc 0 8; Malloc 0 8; Malloc 0 8]) sample_kmem = Some ([0; 100; 108; 0], s').
Proof.
  destruct (pool_capacity 1 400 100 2 8 sample_kmem eq_refl sample_region) as (s' & E & _). exists s'. exact E.
Defined.

Lemma range_checks_off_by_one_witness : exists s',
  (bufmalloc_init 2 [] 0 0;; perform 2 (Create 400 100 2 8);; sys_buffree 2 0 116;; sys_bufmalloc 2 0 8) sample_kmem = Some (116, s').
Proof.
  destruct (range_checks_off_by_one 1 400 100 2 8 sample_kmem eq_refl sample_region) as [[s' E] _]. exists s'. exact E.
Defined.
