(* ===== verification/Kmsg.v ===== *)
(** * Message queues of the kernel (msg.c, and [msgq_init] of mem.c)

    A message queue is a ring of buffers with two semaphores: senders wait for a
    place, receivers for a message. The buffers come from an allocator, which is
    an interface here, since the configuration chooses it ([MSGQ_MALLOC]).

    The calls run on top of the kernel: its state is a part of the state here,
    and a process that waits inside of a message call has, in addition to the
    frame of the semaphore call, a frame that says how the message call goes on. *)

From stdpp Require Import gmap.
From S2P Require Import Prelude Kqueue Kheap Ktimer Ksched Ksem Kmutex Kernel.
Open Scope Z_scope.

(** ** Constants (ipc.h, msg.h) *)

Definition IPC_CREAT : Z := 1.
Definition IPC_EXCL : Z := 2.
Definition IPC_NOWAIT : Z := 3.
Definition IPC_SET : Z := 1.
Definition IPC_STAT : Z := 1.
Definition IPC_RMID : Z := 2.
Definition IPC_PRIVATE : Z := 0xffffffff.
Definition MSG_NOERROR : Z := 1.
Definition E2BIG : Z := 7.

Class MsgConfig := {
  NUM_MSGQS : Z;
  MSGQ_CAPACITY : Z;
  MSGQ_MAX_BYTES : Z;
}.

(** ** The allocator (MSGQ_MALLOC, MSGQ_FREE) and its memory *)

Class MsgMem := {
  mem : Type;
  msgq_malloc : Z -> ST mem Z;      (** the address, or 0 *)
  msgq_free : Z -> ST mem unit;
  load_byte : mem -> Z -> Z;
  store_byte : Z -> Z -> mem -> mem;
}.

Section memory.
Context {MM : MsgMem}.

(** [memcpy] from and to the buffer of a caller. *)
Fixpoint write_bytes (a : Z) (data : list Z) (m : mem) : mem :=
  match data with [] => m | b :: data => write_bytes (a + 1) data (store_byte a b m) end.
Definition read_bytes (a n : Z) (m : mem) : list Z := load_byte m <$> seqZ a n.
End memory.

(** What the message queues rely on, for the blocks [B] (addresses and sizes)
    that they hold: blocks do not overlap, and only the owner of a block changes
    its bytes. *)
Definition in_blocks (B : list (Z * Z)) (x : Z) : Prop := exists a n, (a, n) ∈ B ∧ a <= x < a + n.

Class MsgMemOk (MM : MsgMem) := {
  mem_ok : list (Z * Z) -> mem -> Prop;
  mem_ok_perm B B' m : B ≡ₚ B' -> mem_ok B m -> mem_ok B' m;
  mem_ok_apart a n B m x : mem_ok ((a, n) :: B) m -> a <= x < a + n -> ~ in_blocks B x;
  malloc_ok B m n : mem_ok B m -> 0 <= n -> wp (msgq_malloc n) m (λ a m',
    (forall x, in_blocks B x -> load_byte m' x = load_byte m x) ∧
    if bool_decide (a = 0) then mem_ok B m' else mem_ok ((a, n) :: B) m');
  free_ok a n B m : mem_ok ((a, n) :: B) m -> wp (msgq_free a) m (λ _ m',
    (forall x, in_blocks B x -> load_byte m' x = load_byte m x) ∧ mem_ok B m');
  store_ok B m x v : mem_ok B m -> in_blocks B x -> mem_ok B (store_byte x v m);
  load_store x v y m : is_u8 v -> load_byte (store_byte x v m) y = if bool_decide (y = x) then v else load_byte m y;
}.

(** ** Data (ktypes.h) *)

Record msg_t := MkMsg { msg_buf : Z; msg_len : Z }.

Record msgid_ds := MkMsgq {
  msgid : Z;
  msgq_key : Z;
  msgq_len : Z;
  q_full : Z;
  q_empty : Z;
  msg_q : queue msg_t;
  msg_qnum : Z;
  msg_qbytes : Z;
  msg_lspid : Z;
  msg_lrpid : Z;
}.

Definition set_msgid (x : Z) (s : msgid_ds) := MkMsgq x (msgq_key s) (msgq_len s) (q_full s) (q_empty s) (msg_q s) (msg_qnum s) (msg_qbytes s) (msg_lspid s) (msg_lrpid s).
Definition set_msgq_key (x : Z) (s : msgid_ds) := MkMsgq (msgid s) x (msgq_len s) (q_full s) (q_empty s) (msg_q s) (msg_qnum s) (msg_qbytes s) (msg_lspid s) (msg_lrpid s).
Definition set_q_full (x : Z) (s : msgid_ds) := MkMsgq (msgid s) (msgq_key s) (msgq_len s) x (q_empty s) (msg_q s) (msg_qnum s) (msg_qbytes s) (msg_lspid s) (msg_lrpid s).
Definition set_q_empty (x : Z) (s : msgid_ds) := MkMsgq (msgid s) (msgq_key s) (msgq_len s) (q_full s) x (msg_q s) (msg_qnum s) (msg_qbytes s) (msg_lspid s) (msg_lrpid s).
Definition set_msg_q (x : queue msg_t) (s : msgid_ds) := MkMsgq (msgid s) (msgq_key s) (msgq_len s) (q_full s) (q_empty s) x (msg_qnum s) (msg_qbytes s) (msg_lspid s) (msg_lrpid s).
Definition set_msg_qnum (x : Z) (s : msgid_ds) := MkMsgq (msgid s) (msgq_key s) (msgq_len s) (q_full s) (q_empty s) (msg_q s) x (msg_qbytes s) (msg_lspid s) (msg_lrpid s).
Definition set_msg_lspid (x : Z) (s : msgid_ds) := MkMsgq (msgid s) (msgq_key s) (msgq_len s) (q_full s) (q_empty s) (msg_q s) (msg_qnum s) (msg_qbytes s) x (msg_lrpid s).
Definition set_msg_lrpid (x : Z) (s : msgid_ds) := MkMsgq (msgid s) (msgq_key s) (msgq_len s) (q_full s) (q_empty s) (msg_q s) (msg_qnum s) (msg_qbytes s) (msg_lspid s) x.

(** How a message call goes on when its semaphore call returns: a send with
    its buffer and the bytes of the caller, a receive with its size and flags. *)
Inductive mframe := MSend (id buf : Z) (data : list Z) | MRecv (id sz flg : Z).

Record mst {MM : MsgMem} := MkMst {
  mkern : kst;
  mmem : mem;
  msgq_heap : list msgid_ds;
  mctx : gmap Z mframe;
}.
Arguments mst : clear implicits.
Arguments MkMst {MM}.

Section msg.
Context {KC : KConfig} {MC : MsgConfig} {MM : MsgMem}.
Abbreviation M := (ST (mst MM)).

Definition set_mkern (x : kst) (s : mst MM) : mst MM := MkMst x (mmem s) (msgq_heap s) (mctx s).
Definition set_mmem (x : mem) (s : mst MM) : mst MM := MkMst (mkern s) x (msgq_heap s) (mctx s).
Definition set_msgq_heap (x : list msgid_ds) (s : mst MM) : mst MM := MkMst (mkern s) (mmem s) x (mctx s).
Definition set_mctx (x : gmap Z mframe) (s : mst MM) : mst MM := MkMst (mkern s) (mmem s) (msgq_heap s) x.

Definition kern {A} (m : ST kst A) : M A := zoom mkern set_mkern m.
Definition mm {A} (m : ST mem A) : M A := zoom mmem set_mmem m.
Definition get_msgq (i : Z) : M msgid_ds := h ← gets msgq_heap; lift (arr_get h i).
Definition upd_msgq (i : Z) (f : msgid_ds -> msgid_ds) : M unit :=
  x ← get_msgq i; h ← gets msgq_heap; h' ← lift (arr_set h i (f x)); modify (set_msgq_heap h').
(** An operation on the ring of a message queue. *)
Definition on_msgq {A} (i : Z) (m : ST (queue msg_t) A) : M A :=
  x ← get_msgq i;
  r ← lift (m (msg_q x));
  upd_msgq i (set_msg_q r.2);;
  mret r.1.

(** ** Initialisation (mem.c) *)

Definition msgq_init : M unit :=
  for_up 0 NUM_MSGQS (λ i, upd_msgq i (λ x,
    MkMsgq (-1) (msgq_key x) MSGQ_CAPACITY (q_full x) (q_empty x) (alloc_q (items (msg_q x)) MSGQ_CAPACITY) (msg_qnum x) MSGQ_MAX_BYTES (-1) (-1))).

(** ** Queues *)

(** The first queue in use with that key. *)
Definition get_msgid_by_key (key : Z) : M (option Z) :=
  h ← gets msgq_heap;
  mret (match list_find (λ x, msgid x ≠ -1 ∧ msgq_key x = key) h with Some (i, _) => Some (Z.of_nat i) | None => None end).

(** A new semaphore, whose identifier [put] stores. *)
Definition msg_sem (i value : Z) (put : Z -> msgid_ds -> msgid_ds) : M bool :=
  r ← kern (sys_sem_init 0 value);
  (match r.2 with Some j => upd_msgq i (put j) | None => skip end);;
  mret (bool_decide (0 <= r.1)).

(** The end of [sys_msgget], when the queue [i] is free. *)
Definition new_msgq (i key : Z) : M Z :=
  upd_msgq i (λ x, set_msgq_key key (set_msgid i x));;
  x ← get_msgq i;
  ok ← msg_sem i (msgq_len x) set_q_full;
  if negb ok then mret (-1) else
  ok ← msg_sem i 0 set_q_empty;
  if negb ok then mret (-1) else
  on_msgq i qinit;;
  upd_msgq i (λ x, set_msg_lrpid 0 (set_msg_lspid 0 (set_msg_qnum 0 x)));;
  mret i.

Definition sys_msgget (key msgflg : Z) : M Z :=
  q ← get_msgid_by_key key;
  match q with
  | Some i =>
      if bool_decide (Z.land msgflg IPC_CREAT ≠ 0 ∧ Z.land msgflg IPC_EXCL ≠ 0) then kern (kerrno EEXIST);; mret (-1)
      else if bool_decide (Z.land msgflg IPC_CREAT ≠ 0) then x ← get_msgq i; mret (msgid x)
      else mret (-1)
  | None =>
      if bool_decide (key = IPC_PRIVATE) then mret (-1) else
      if bool_decide (Z.land msgflg IPC_CREAT = 0) then kern (kerrno ENOENT);; mret (-1) else
      h ← gets msgq_heap;
      match list_find (λ x, msgid x = -1) h with
      | None => kern (kerrno ENOSPC);; mret (-1)
      | Some (i, _) => new_msgq (Z.of_nat i) key
      end
  end.

(** The test that [id] is a queue in use. *)
Definition msgq_valid (id : Z) : M bool :=
  if bool_decide (id < 0 ∨ NUM_MSGQS <= id) then mret false else
  x ← get_msgq id; mret (bool_decide (msgid x ≠ -1)).

(** The loop of [IPC_RMID]: [item_count] is decremented by [deq] and again by the
    loop; it is an [unsigned char]. *)
Fixpoint rmid_loop (fuel : nat) (id i : Z) : M unit :=
  match fuel with
  | O => undef
  | S fuel =>
      n ← on_msgq id (gets item_count);
      if bool_decide (i < n) then
        k ← on_msgq id deq;
        k ← lift k;
        mm (msgq_free (msg_buf k));;
        on_msgq id (n ← gets item_count; modify (set_item_count (u8 (n - 1))));;
        rmid_loop fuel id (i + 1)
      else skip
  end.

(** The statistics in [*buf], for [IPC_STAT]; [buf] says whether the pointer is not null. *)
Definition sys_msgctl (id cmd : Z) (buf : bool) : M (Z * option (Z * Z * Z * Z)) :=
  ok ← msgq_valid id;
  if negb ok then kern (kerrno EINVAL);; mret (-1, None) else
  x ← get_msgq id;
  if bool_decide (cmd = IPC_STAT) then
    if buf then mret (0, Some (msg_qnum x, msg_qbytes x, msg_lspid x, msg_lrpid x))
    else kern (kerrno EINVAL);; mret (-1, None)
  else if bool_decide (cmd = IPC_RMID) then
    r ← kern (sem_force_destroy (Some (q_full x)));
    if bool_decide (r < 0) then mret (-1, None) else
    r ← kern (sem_force_destroy (Some (q_empty x)));
    if bool_decide (r < 0) then mret (-1, None) else
    rmid_loop QUEUE_FUEL id 0;;
    upd_msgq id (λ x, set_msgid (-1) (set_msg_lrpid (-1) (set_msg_lspid (-1) x)));;
    mret (0, None)
  else if bool_decide (cmd = IPC_SET) then mret (0, None)
  else kern (kerrno EINVAL);; mret (-1, None).

(** ** Sending *)

Definition is_error (o : outcome) : bool := match o with Done r => bool_decide (r < 0) | Blocked => false end.

(** The message goes into the queue. *)
Definition msgsnd_end (id buf : Z) (data : list Z) : M outcome :=
  modify (λ s, set_mmem (write_bytes buf data (mmem s)) s);;
  on_msgq id (enq (MkMsg buf (Z.of_nat (length data))));;
  p ← kern sys_get_currentPID;
  upd_msgq id (λ x, set_msg_qnum (u32 (msg_qnum x + 1)) (set_msg_lspid p x));;
  x ← get_msgq id;
  kern (sys_sem_post (Some (q_empty x)));;
  mret (Done 0).

(** After [sys_sem_wait_x] has returned [o]. *)
Definition msgsnd_waited (id buf : Z) (data : list Z) (o : outcome) : M outcome :=
  if is_error o then mm (msgq_free buf);; mret (Done (-1)) else
  x ← get_msgq id;
  if bool_decide (msgid x = -1) then mm (msgq_free buf);; kern (fail EIDRM)
  else msgsnd_end id buf data.

(** [data] is the message, of [msgsz] bytes. *)
Definition sys_msgsnd (id : Z) (data : list Z) (msgflg : Z) : M outcome :=
  ok ← msgq_valid id;
  if negb ok then kern (fail EINVAL) else
  buf ← mm (msgq_malloc (Z.of_nat (length data)));
  if bool_decide (buf = 0) then kern (fail ENOSPC) else
  x ← get_msgq id;
  if bool_decide (Z.land msgflg IPC_NOWAIT ≠ 0) then
    o ← kern (sys_sem_trywait (Some (q_full x)));
    if is_error o then mm (msgq_free buf);; kern (fail EAGAIN) else msgsnd_end id buf data
  else
    c ← kern sys_get_currentPID;
    o ← kern (sys_sem_wait_x (Some (q_full x)));
    match o with
    | Blocked => modify (λ s, set_mctx (<[c := MSend id buf data]> (mctx s)) s);; mret Blocked
    | Done _ => msgsnd_waited id buf data o
    end.

(** ** Receiving: the result and the bytes stored at [*msgp] *)

Definition msgrcv_end (id sz msgflg : Z) : M (outcome * list Z) :=
  k ← on_msgq id deq;
  k ← lift k;
  if bool_decide (sz < msg_len k ∧ Z.land msgflg MSG_NOERROR = 0) then
    mm (msgq_free (msg_buf k));;
    o ← kern (fail E2BIG);
    mret (o, [])
  else
    let nbytes := if bool_decide (sz < msg_len k) then sz else msg_len k in
    data ← gets (λ s, read_bytes (msg_buf k) nbytes (mmem s));
    p ← kern sys_get_currentPID;
    upd_msgq id (λ x, set_msg_qnum (u32 (msg_qnum x - 1)) (set_msg_lrpid p x));;
    mm (msgq_free (msg_buf k));;
    x ← get_msgq id;
    kern (sys_sem_post (Some (q_full x)));;
    mret (Done (s32 nbytes), data).

Definition msgrcv_waited (id sz msgflg : Z) (o : outcome) : M (outcome * list Z) :=
  if is_error o then mret (Done (-1), []) else
  x ← get_msgq id;
  if bool_decide (msgid x = -1) then o ← kern (fail EIDRM); mret (o, [])
  else msgrcv_end id sz msgflg.

Definition sys_msgrcv (id sz msgflg : Z) : M (outcome * list Z) :=
  ok ← msgq_valid id;
  if negb ok then o ← kern (fail EINVAL); mret (o, []) else
  x ← get_msgq id;
  if bool_decide (msgflg = IPC_NOWAIT) then
    o ← kern (sys_sem_trywait (Some (q_empty x)));
    if is_error o then mret (Done (-1), []) else msgrcv_end id sz msgflg
  else
    c ← kern sys_get_currentPID;
    o ← kern (sys_sem_wait_x (Some (q_empty x)));
    match o with
    | Blocked => modify (λ s, set_mctx (<[c := MRecv id sz msgflg]> (mctx s)) s);; mret (Blocked, [])
    | Done _ => msgrcv_waited id sz msgflg o
    end.

(** ** The kernel with message calls as a transition system *)

Inductive mcall :=
  | MGet (key msgflg : Z)
  | MCtl (id cmd : Z) (buf : bool)
  | MSnd (id : Z) (data : list Z) (msgflg : Z)
  | MRcv (id sz msgflg : Z)
  | MKern (c : call).

Inductive mevent := MCall (c : mcall) | MResume | MTick.

(** The result of a call, and the bytes that a receive stores. *)
Definition run_mcall (c : mcall) : M (outcome * list Z) :=
  match c with
  | MGet key msgflg => r ← sys_msgget key msgflg; mret (Done r, [])
  | MCtl id cmd buf => r ← sys_msgctl id cmd buf; mret (Done r.1, [])
  | MSnd id data msgflg => o ← sys_msgsnd id data msgflg; mret (o, [])
  | MRcv id sz msgflg => sys_msgrcv id sz msgflg
  | MKern c => r ← kern (run_call c); mret (r.1, [])
  end.

(** A message call goes on after its semaphore call. *)
Definition mresume (f : mframe) (o : outcome) : M (outcome * list Z) :=
  match f with
  | MSend id buf data => o ← msgsnd_waited id buf data o; mret (o, [])
  | MRecv id sz msgflg => msgrcv_waited id sz msgflg o
  end.

Definition mstep (e : mevent) : M (outcome * list Z) :=
  match e with
  | MCall c => r ← run_mcall c; kern (finish r.1);; mret r
  | MResume =>
      p ← kern (gets current_pid);
      x ← kern (get_proc p);
      f ← lift (kctx x);
      kern (upd_proc p (set_kctx None));;
      o ← kern (resume f);
      w ← gets mctx;
      r ← (match w !! p, o with
           | Some g, Done _ => modify (set_mctx (delete p w));; mresume g o
           | _, _ => mret (o, [])
           end);
      kern (finish r.1);;
      mret r
  | MTick => kern irq_entry;; mret (Done 0, [])
  end.
End msg.
