(* ===== verification/KmsgPool.v ===== *)
(** * The block pools as the allocator of the message queues

    [MSGQ_MALLOC] and [MSGQ_FREE] are [sys_bufmalloc] and [sys_buffree] on any
    pool (msg.c without CONFIG_ENHANCED_MSGQ). The block pools of Bufmalloc.v
    keep what the message queues rely on. *)

From S2P Require Import Prelude Kmsg Bufmalloc.
Open Scope Z_scope.

(** ** Bytes of a word, the first one is the most significant *)

Definition byte_pos (x : Z) : Z := 2^(8 * (3 - x mod 4)).
Definition word_of (x : Z) : Z := x - x mod 4.
Definition get_byte (w x : Z) : Z := (w / byte_pos x) mod 256.
Definition put_byte (w x v : Z) : Z := w + (v - get_byte w x) * byte_pos x.

Lemma byte_cases x : (x mod 4 = 0 ∧ byte_pos x = 2^24) ∨ (x mod 4 = 1 ∧ byte_pos x = 2^16) ∨ (x mod 4 = 2 ∧ byte_pos x = 2^8) ∨ (x mod 4 = 3 ∧ byte_pos x = 1).
Proof.
  pose proof (Z.mod_pos_bound x 4 ltac:(lia)). unfold byte_pos. assert (x mod 4 = 0 ∨ x mod 4 = 1 ∨ x mod 4 = 2 ∨ x mod 4 = 3) as Hx by lia.
  destruct Hx as [->|[->|[->| ->]]]; auto.
Qed.

Lemma get_put w x v y : is_u8 v -> get_byte (put_byte w x v) y = if bool_decide (y mod 4 = x mod 4) then v else get_byte w y.
Proof.
  intros Hv. unfold get_byte, put_byte, is_u8 in *. unfold get_byte.
  destruct (byte_cases x) as [[Ex Px]|[[Ex Px]|[[Ex Px]|[Ex Px]]]], (byte_cases y) as [[Ey Py]|[[Ey Py]|[[Ey Py]|[Ey Py]]]];
    rewrite Ex, Ey, Px, Py; case_bool_decide; try lia; Z.div_mod_to_equations; lia.
Qed.

Section pool.
(** [N_MBUFS]. *)
Context (N : nat).

#[export] Instance pool_mem : MsgMem := {|
  mem := kmem;
  msgq_malloc := sys_bufmalloc N MEMBUF_ANY;
  msgq_free := sys_buffree N MEMBUF_ANY;
  load_byte s x := get_byte (words s (word_of x)) x;
  store_byte x v s := set_words (λ a, if bool_decide (a = word_of x) then put_byte (words s a) x v else words s a) s;
|}.

(** ** Only the freed block is written *)

Definition keeps_words {A} (m : ST kmem A) : Prop := forall s a s', m s = Some (a, s') -> words s' = words s.
Lemma keeps_bind_words {A B} (m : ST kmem A) (k : A -> ST kmem B) : keeps_words m -> (forall a, keeps_words (k a)) -> keeps_words (m ≫= k).
Proof.
  intros Hm Hk s b s' E. unfold mbind, st_bind in E. destruct (m s) as [[a s1]|] eqn:Em; [|done].
  rewrite (Hk a s1 b s' E). by apply (Hm s a).
Qed.
Lemma keeps_words_ret {A} (a : A) : keeps_words (mret a).
Proof. intros s b s' [= _ <-]. done. Qed.
Lemma keeps_words_gets {A} (g : kmem -> A) : keeps_words (gets g).
Proof. intros s b s' [= _ <-]. done. Qed.
Lemma keeps_words_lift {A} (o : option A) : keeps_words (lift o).
Proof. intros s b s' E. unfold lift in E. destruct o; [by injection E as _ <-|done]. Qed.
Lemma keeps_words_undef {A} : keeps_words (undef : ST kmem A).
Proof. done. Qed.
Lemma keeps_words_modify g : (forall s, words (g s) = words s) -> keeps_words (modify g).
Proof. intros Hg s b s' [= _ <-]. done. Qed.

Ltac words_walk := repeat match goal with
  | |- keeps_words (_ ≫= _) => apply keeps_bind_words; [|intros ?]
  | |- keeps_words (if ?b then _ else _) => destruct b
  | |- keeps_words (mret _) => apply keeps_words_ret
  | |- keeps_words skip => apply keeps_words_ret
  | |- keeps_words (gets _) => apply keeps_words_gets
  | |- keeps_words (lift _) => apply keeps_words_lift
  | |- keeps_words undef => apply keeps_words_undef
  | |- keeps_words (modify _) => apply keeps_words_modify; reflexivity
  | H : forall _, keeps_words _ |- _ => apply H
  end.

Lemma malloc_any_words siz n i : keeps_words (malloc_any siz n i).
Proof.
  revert i. induction n as [|n IH]; intros i; cbn [malloc_any]; [apply keeps_words_ret|].
  unfold get_mbufblk, mbuf, upd_mbuf, load_word. words_walk.
Qed.
Lemma malloc_words siz : keeps_words (sys_bufmalloc N MEMBUF_ANY siz).
Proof.
  unfold sys_bufmalloc. rewrite (bool_decide_eq_true_2 (MEMBUF_ANY = MEMBUF_ANY)) by done. pose proof (malloc_any_words siz N).
  destruct (bool_decide _); [apply keeps_words_ret|]. words_walk.
Qed.

(** ** The contract *)

Definition block_of (a : apools) (b : Z * Z) : Prop := exists i p k, apool_at i a = Some p ∧ (k < ap_n p)%nat ∧ (k ∉ ap_free p) ∧ b.1 = addr p k ∧ b.2 <= ap_size p.

Definition pool_ok (B : list (Z * Z)) (s : kmem) : Prop :=
  exists a, rel a s ∧ length (ap_list a) = N ∧ Forall (block_of a) B ∧ NoDup B.*1.

(** Two blocks of the pools do not overlap. *)
Lemma blocks_apart a s b b' x : rel a s -> block_of a b -> block_of a b' -> b.1 <= x < b.1 + b.2 -> b'.1 <= x < b'.1 + b'.2 -> b.1 = b'.1.
Proof.
  intros Hr (i & p & k & Hp & Hk & _ & -> & Hs) (j & q & l & Hq & Hl & _ & -> & Hs') Hx Hx'.
  destruct (rel_slot _ _ _ _ Hr Hp) as (_ & _ & _ & [Hokp _ _ _]), (rel_slot _ _ _ _ Hr Hq) as (_ & _ & _ & [Hokq _ _ _]).
  destruct (block_bounds p k Hokp Hk), (block_bounds q l Hokq Hl). destruct (decide (i = j)) as [->|Hne].
  - rewrite Hp in Hq. injection Hq as <-. pose proof (po_size _ Hokp). unfold addr in *. assert (k = l) as -> by nia. done.
  - destruct (re_apart _ _ Hr i j p q Hne Hp Hq); lia.
Qed.

(** The word of a byte of a block is in the block. *)
Lemma block_word p k x n : apool_ok p -> addr p k <= x < addr p k + n -> n <= ap_size p -> addr p k <= word_of x < addr p k + ap_size p ∧ word_of x mod 4 = 0.
Proof.
  intros Hok Hx Hn. pose proof (block_aligned p k Hok) as Ha%bool_decide_eq_true. destruct Hok as [_ [_ Hs] _ _ _ _]. unfold word_of.
  pose proof (Z.mod_pos_bound x 4 ltac:(lia)). Z.div_mod_to_equations. lia.
Qed.

Lemma perm_pool B B' s : B ≡ₚ B' -> pool_ok B s -> pool_ok B' s.
Proof. intros HB (a & Hr & Hl & Hb & Hnd). exists a. split_and!; [done|done|by rewrite <- HB|by rewrite <- HB]. Qed.

Lemma apart_pool b n B s x : pool_ok ((b, n) :: B) s -> b <= x < b + n -> ~ in_blocks B x.
Proof.
  intros (a & Hr & _ & Hb & Hnd) Hx (b' & n' & Hin & Hx'). apply list.Forall_cons in Hb as [Hb HB]. rewrite list.Forall_forall in HB.
  apply list.NoDup_cons in Hnd as [Hn _]. apply Hn. pose proof (blocks_apart a s (b, n) (b', n') x Hr Hb (HB _ Hin) Hx Hx') as E. simpl in E. subst b'.
  apply list_elem_of_fmap. by exists (b, n').
Qed.

Lemma spec_malloc_any n a : spec_op (Malloc MEMBUF_ANY n) a =
  match first_ix (has_block n) (ap_list a) with None => fails EAGAIN NULL a | Some i => spec_take i a end.
Proof. done. Qed.

Lemma malloc_pool B s n : pool_ok B s -> 0 <= n -> wp (sys_bufmalloc N MEMBUF_ANY n) s (λ b s',
  (forall x, in_blocks B x -> load_byte s' x = load_byte s x) ∧ if bool_decide (b = 0) then pool_ok B s' else pool_ok ((b, n) :: B) s').
Proof.
  intros (a & Hr & Hl & Hb & Hnd) Hn. pose proof (malloc_spec MEMBUF_ANY n a s Hr) as Hw. cbn [allowed perform] in Hw.
  specialize (Hw ltac:(unfold MEMBUF_ANY; lia)). rewrite Hl in Hw. apply wp_run in Hw as (r & s' & E & -> & Hr'). apply wp_run. eexists _, s'. split; [exact E|].
  split; [intros x _; cbn [load_byte pool_mem]; by rewrite (malloc_words n s _ s' E)|].
  pose proof (spec_op_length (Malloc MEMBUF_ANY n) a) as Hl'. rewrite spec_malloc_any in *.
  destruct (first_ix (has_block n) (ap_list a)) as [j|] eqn:Ef; [|rewrite bool_decide_eq_true_2 by done; eexists; split_and!; [exact Hr'|congruence|exact Hb|done]].
  destruct (first_ix_Some _ _ _ Ef) as ([p|] & Ho & Hbk); [|done]. apply andb_true_iff in Hbk as [Hsz%bool_decide_eq_true Hf].
  destruct (ap_free p) as [|k ks] eqn:Efr; [done|]. apply apool_at_Some in Ho. pose proof (spec_take_free _ _ _ _ _ Ho Efr) as Et.
  rewrite Et in *. cbn [fst snd] in *. destruct (rel_slot _ _ _ _ Hr Ho) as (Hj & _ & _ & [Hok _ _ _]).
  destruct (po_free _ Hok) as [Hnf Hall]. rewrite Efr in Hnf, Hall. apply list.NoDup_cons in Hnf as [Hkn _]. apply list.Forall_cons in Hall as [Hk _].
  destruct (block_bounds p k Hok Hk). pose proof (po_base _ Hok). rewrite bool_decide_eq_false_2 by lia.
  eexists. split; [exact Hr'|]. split; [congruence|]. split.
  - apply list.Forall_cons. split.
    + exists j, (set_free ks p), k. rewrite apool_put, decide_True by done. by split_and!.
    + eapply list.Forall_impl; [exact Hb|]. intros b (i & q & l & Hq & Hlq & Hlf & E1 & E2). destruct (decide (i = j)) as [->|Hij].
      * assert (q = p) as -> by congruence. exists j, (set_free ks p), l. rewrite apool_put, decide_True by done. split_and!; try done. simpl. rewrite Efr in Hlf. set_solver.
      * exists i, q, l. rewrite apool_put, decide_False by done. by split_and!.
  - rewrite fmap_cons. apply list.NoDup_cons. split; [|done]. intros (b & Eb & Hin)%list_elem_of_fmap. simpl in Eb.
    rewrite list.Forall_forall in Hb. destruct (Hb _ Hin) as (i & q & l & Hq & Hlq & Hlf & E1 & E2).
    assert (allocated q (addr q l)) as Hal by (by exists l). pose proof (take_exclusive j p k ks q _ i a s Hr Ho Efr Hq Hal) as Hx.
    destruct (rel_slot _ _ _ _ Hr Hq) as (_ & _ & _ & [Hokq _ _ _]). pose proof (po_size _ Hok). pose proof (po_size _ Hokq). lia.
Qed.

Lemma free_pool b n B s : pool_ok ((b, n) :: B) s -> wp (sys_buffree N MEMBUF_ANY b) s (λ _ s',
  (forall x, in_blocks B x -> load_byte s' x = load_byte s x) ∧ pool_ok B s').
Proof.
  intros (a & Hr & Hl & Hb & Hnd). apply list.Forall_cons in Hb as [(i & p & k & Hp & Hk & Hkf & Eb & Hn) Hb]. simpl in Eb, Hn.
  rewrite fmap_cons in Hnd. apply list.NoDup_cons in Hnd as [Hnb Hnd]. simpl in Hnb.
  destruct (rel_slot _ _ _ _ Hr Hp) as (Hi & _ & _ & [Hok _ _ _]). destruct (block_bounds p k Hok Hk) as [Hb1 Hb2]. pose proof (po_size _ Hok).
  assert (forall j q, apool_at j a = Some q -> j ≠ i -> outside b q) as Hout.
  { intros j q Hq Hji. destruct (re_apart _ _ Hr j i q p Hji Hq Hp); unfold outside; lia. }
  pose proof (free_spec MEMBUF_ANY b a s Hr) as Hw. cbn [allowed perform] in Hw. rewrite bool_decide_eq_true_2 in Hw by done.
  specialize (Hw ltac:(intros j q Hq; destruct (decide (j = i)) as [->|Hji]; [right; exists k; by simplify_eq|left; by apply (Hout j)])).
  rewrite Hl in Hw. apply wp_run in Hw as (r & s' & E & _ & Hr' & Hx). unfold mbind, st_bind in E.
  destruct (sys_buffree N MEMBUF_ANY b s) as [[[] s1]|] eqn:Ef; [|done]. injection E as _ <-. apply wp_run. exists tt, s1. split; [done|].
  assert ((spec_op (Free MEMBUF_ANY b) a).2 = spec_put i b a) as Es.
  { cbn [spec_op]. rewrite bool_decide_eq_true_2 by done. destruct (first_ix (has_addr b) (ap_list a)) as [j|] eqn:Ex; cbn [snd].
    - destruct (first_ix_Some _ _ _ Ex) as ([q|] & Hq & Hin); [|done]. apply bool_decide_eq_true in Hin. apply apool_at_Some in Hq.
      destruct (decide (j = i)) as [->|Hji]; [done|]. pose proof (Hout j q Hq Hji). unfold outside in *. lia.
    - pose proof (first_ix_None _ _ Ex i (Some p) (proj1 (apool_at_Some _ _ _) Hp)) as Hf. apply bool_decide_eq_false in Hf. lia. }
  pose proof (spec_op_length (Free MEMBUF_ANY b) a) as Hl'. rewrite Es in Hr', Hl'. split.
  - intros x (b' & n' & Hin & Hxb). cbn [load_byte pool_mem]. rewrite Hx; [done|]. rewrite list.Forall_forall in Hb. pose proof (Hb _ Hin) as (j & q & l & Hq & Hlq & Hlf & E1 & E2).
    simpl in E1, E2. subst b'. destruct (rel_slot _ _ _ _ Hr Hq) as (_ & _ & _ & [Hokq _ _ _]). destruct (block_word q l x n' Hokq Hxb E2) as [Hwx _].
    intros Hw. apply Hnb, list_elem_of_fmap. exists (addr q l, n'). split; [|done]. simpl.
    apply (blocks_apart a s (b, ap_size p) (addr q l, ap_size q) b Hr); simpl; [by exists i, p, k|by exists j, q, l|lia|lia].
  - exists (spec_put i b a). split; [done|]. split; [congruence|]. split; [|done]. unfold spec_put. rewrite Hp.
    assert (Z.to_nat ((b - ap_base p) / ap_size p) = k) as -> by (subst b; unfold addr; replace (ap_base p + Z.of_nat k * ap_size p - ap_base p) with (Z.of_nat k * ap_size p) by lia; rewrite Z.div_mul by lia; lia).
    rewrite list.Forall_forall in Hb. apply list.Forall_forall. intros [b' n'] Hin. destruct (Hb _ Hin) as (j & q & l & Hq & Hlq & Hlf & E1 & E2). simpl in E1, E2.
    destruct (decide (j = i)) as [->|Hji].
    + assert (q = p) as -> by congruence. exists i, (set_free (k :: ap_free p) p), l. rewrite apool_put, decide_True by done. split_and!; try done.
      simpl. intros [->|Hlf']%elem_of_cons; [|done]. apply Hnb, list_elem_of_fmap. exists (b', n'). split; [simpl; congruence|done].
    + exists j, q, l. rewrite apool_put, decide_False by done. by split_and!.
Qed.

Lemma store_pool B s x v : pool_ok B s -> in_blocks B x -> pool_ok B (store_byte x v s).
Proof.
  intros (a & Hr & Hl & Hb & Hnd) (b & n & Hin & Hx). exists a. split; [|done]. rewrite list.Forall_forall in Hb.
  destruct (Hb _ Hin) as (i & p & k & Hp & Hk & Hkf & E1 & E2). simpl in E1, E2. subst b. destruct (rel_slot _ _ _ _ Hr Hp) as (_ & _ & _ & [Hok _ _ _]).
  destruct (block_word p k x n Hok Hx E2) as [Hw Hal]. destruct (block_bounds p k Hok Hk). pose proof (po_size _ Hok).
  set (y := put_byte (words s (word_of x)) x v). pose proof (store_spec (word_of x) y a s Hr) as Hst.
  assert (allowed (Store (word_of x) y) a) as Hok'.
  { split; [done|]. intros j q l Hq Hlf Ew. destruct (rel_slot _ _ _ _ Hr Hq) as (_ & _ & _ & [Hokq _ _ _]). destruct (po_free _ Hokq) as [_ Hall].
    rewrite list.Forall_forall in Hall. pose proof (Hall l Hlf) as Hll. destruct (block_bounds q l Hokq Hll). pose proof (po_size _ Hokq).
    destruct (decide (j = i)) as [->|Hji]; [|destruct (re_apart _ _ Hr j i q p Hji Hq Hp); lia].
    assert (q = p) as -> by congruence. unfold addr in *. assert (l = k) as -> by nia. done. }
  apply wp_run in Hst as (r & s' & E & _ & Hr'); [|done]. cbn [perform] in E. unfold store_word, aligned in E. rewrite bool_decide_eq_true_2 in E by done.
  unfold mbind, st_bind, modify, mret, st_ret in E. injection E as _ <-. destruct Hr' as [R1 R2 R3]. constructor; [|done|done]. cbn [words set_words mbufheap store_byte pool_mem] in *.
  apply Forall2_same_length_lookup in R1 as [R0 R1]. apply Forall2_same_length_lookup. split; [done|]. intros j o m Ho Hm.
  eapply slot_frame; [|by apply (R1 j)]. intros q l _ _. simpl. case_bool_decide as Ew; [|done]. by rewrite Ew.
Qed.

Lemma load_pool x v y s : is_u8 v -> load_byte (store_byte x v s) y = if bool_decide (y = x) then v else load_byte s y.
Proof.
  intros Hv. cbn [load_byte store_byte pool_mem words set_words]. case_bool_decide as Hw.
  - case_bool_decide as Hy; [subst y; rewrite get_put, bool_decide_eq_true_2; done|]. rewrite get_put, bool_decide_eq_false_2 by (done || (unfold word_of in Hw; lia)). done.
  - rewrite bool_decide_eq_false_2; [done|]. by intros ->.
Qed.

#[export] Instance pool_mem_ok : MsgMemOk pool_mem := {|
  mem_ok := pool_ok;
  mem_ok_perm := perm_pool;
  mem_ok_apart := apart_pool;
  malloc_ok := malloc_pool;
  free_ok := free_pool;
  store_ok := store_pool;
  load_store := load_pool;
|}.

(** The pools after their initialisation. *)
Lemma pool_start cfg out ptr s s' :
  length (mbufheap s) = N -> respects_init cfg out ptr (no_pools N s) -> bufmalloc_init N cfg out ptr s = Some (tt, s') -> mem_ok [] s'.
Proof.
  intros Hn Hcfg E. assert (length (ap_list (no_pools N s)) = N) as Hl by apply length_replicate.
  assert (wp (bufmalloc_init N cfg out ptr) s (λ _ s', rel (spec_init cfg out ptr (no_pools N s)) s')) as Hw.
  { unfold bufmalloc_init. apply wp_bind. eapply wp_mono; [by apply pools_init_spec|]. intros [] s1 Hr. pose proof (mem_init_spec cfg out ptr (no_pools N s) s1 Hr Hcfg) as Hm.
    by rewrite Hl in Hm. }
  apply wp_run in Hw as ([] & s1 & E1 & Hr). assert (s1 = s') as -> by congruence. exists (spec_init cfg out ptr (no_pools N s)).
  split_and!; [done|by rewrite spec_init_length|constructor|constructor].
Qed.
End pool.

(** ** An example *)

(** Two blocks of eight bytes. *)
Definition sample_mem : kmem := match bufmalloc_init 2 [(8, 2)] 400 100 sample_kmem with Some (_, s) => s | None => sample_kmem end.
Lemma sample_mem_ok : @mem_ok (pool_mem 2) (pool_mem_ok 2) [] sample_mem.
Proof. apply (pool_start 2 [(8, 2)] 400 100 sample_kmem); [done|apply sample_init|vm_compute; reflexivity]. Qed.
