(* ===== verification/KmsgInv.v ===== *)
(** * The invariant of the message queues

    Every queue holds the messages of an abstract queue, in order, with their
    bytes in blocks of their own, and the two semaphores count the messages and
    the free places that no suspended process has been promised. *)

From stdpp Require Import gmap.
From S2P Require Import Prelude Kqueue Kheap Ktimer Ksched Ksem Kmutex Kinv Kops Kernel Ksafe Kinit Kreach Kframe Kcount Kwait Kclient Kmsg.
Open Scope Z_scope.

(** The capacity is the initial value of a semaphore, a [signed char]. *)
Class MsgConfigOk (MC : MsgConfig) : Prop := {
  ok_msgqs : 0 <= NUM_MSGQS;
  ok_capacity : 1 <= MSGQ_CAPACITY <= 127;
}.

(** ** Collecting the values of a map *)

Definition gather {A B} (f : A -> list B) (M : gmap Z A) : list B := concat (f <$> (map_to_list M).*2).
Lemma gather_insert {A B} (f : A -> list B) M k a : M !! k = None -> gather f (<[k := a]> M) ≡ₚ f a ++ gather f M.
Proof. intros E. unfold gather. by rewrite map_to_list_insert by done. Qed.
Lemma gather_lookup {A B} (f : A -> list B) M k a : M !! k = Some a -> gather f M ≡ₚ f a ++ gather f (delete k M).
Proof. intros E. rewrite <- (insert_delete_id M k a E) at 1. apply gather_insert, lookup_delete_eq. Qed.
Lemma gather_update {A B} (f : A -> list B) M k a : gather f (<[k := a]> M) ≡ₚ f a ++ gather f (delete k M).
Proof. rewrite <- insert_delete_eq. apply gather_insert, lookup_delete_eq. Qed.
Lemma gather_elem {A B} (f : A -> list B) M k a x : M !! k = Some a -> x ∈ f a -> x ∈ gather f M.
Proof. intros E Hx. rewrite (gather_lookup _ _ _ _ E). apply elem_of_app. by left. Qed.

(** ** Bytes *)

Section bytes.
Context {MM : MsgMem} {MOK : MsgMemOk MM}.

Lemma read_length a n m : 0 <= n -> length (read_bytes a n m) = Z.to_nat n.
Proof. intros Hn. unfold read_bytes. by rewrite length_fmap, length_seqZ. Qed.
Lemma read_ext a n m m' : (forall x, a <= x < a + n -> load_byte m' x = load_byte m x) -> read_bytes a n m' = read_bytes a n m.
Proof. intros H. apply list_fmap_ext. intros i x Hx%list_elem_of_lookup_2. apply elem_of_seqZ in Hx. by apply H. Qed.
Lemma read_take a n k m : 0 <= k <= n -> read_bytes a k m = take (Z.to_nat k) (read_bytes a n m).
Proof.
  intros Hk. unfold read_bytes. rewrite <- fmap_take. f_equal. replace n with (k + (n - k)) by lia. rewrite seqZ_app by lia.
  by rewrite take_app_length' by (by rewrite length_seqZ).
Qed.

(** Only the bytes of the block change. *)
Lemma write_spec data : forall a b n B m, mem_ok ((b, n) :: B) m -> b <= a -> a + Z.of_nat (length data) <= b + n -> Forall is_u8 data ->
  let m' := write_bytes a data m in
  mem_ok ((b, n) :: B) m' ∧ read_bytes a (Z.of_nat (length data)) m' = data ∧
  forall x, ~ (a <= x < a + Z.of_nat (length data)) -> load_byte m' x = load_byte m x.
Proof.
  induction data as [|v data IH]; intros a b n B m Hok Hb Hn Hv; [done|]. apply list.Forall_cons in Hv as [Hv Hd]. simpl length in *. cbn [write_bytes].
  destruct (IH (a + 1) b n B (store_byte a v m)) as (H1 & H2 & H3); [|lia|lia|done|].
  { apply store_ok; [done|]. exists b, n. split; [by left|lia]. }
  cbn zeta. split; [done|]. split.
  - unfold read_bytes in *. rewrite Nat2Z.inj_succ, seqZ_cons by lia. rewrite fmap_cons, Z.pred_succ. f_equal; [|done].
    rewrite H3 by lia. by rewrite load_store, bool_decide_eq_true_2.
  - intros x Hx. rewrite H3 by lia. rewrite load_store, bool_decide_eq_false_2 by (done || lia). done.
Qed.
End bytes.

(** ** The invariant *)

(** The contents of the queues in use: messages with their bytes. *)
Abbreviation contents := (gmap Z (list (msg_t * list Z))).
(** The owner of a semaphore: a queue, and whether it is [q_full] of it. *)
Abbreviation owners := (gmap Z (Z * bool)).

Section inv.
Context {KC : KConfig} {KOK : KConfigOk KC} {MC : MsgConfig} {MCOK : MsgConfigOk MC} {MM : MsgMem} {MOK : MsgMemOk MM}.

Implicit Types (m : mst MM) (G : contents) (H : owners) (W : gmap Z Z) (Q : qmap) (X : list (Z * Z)) (P : option Z).

(** The number of suspended processes at a semaphore. *)
Definition waiting W (j : Z) : Z := Z.of_nat (size (filter (λ pj, pj.2 = j) W)).
(** The running process has been promised a message or a place. *)
Definition promised P (j : Z) : Z := if bool_decide (P = Some j) then 1 else 0.
Lemma promised_none j : promised None j = 0.
Proof. done. Qed.

(** The semaphore at which the frame waits. *)
Definition frame_end (f : mframe) : Z * bool := match f with MSend id _ _ => (id, true) | MRecv id _ _ => (id, false) end.

Definition message_blocks (l : list (msg_t * list Z)) : list (Z * Z) := (λ kd, (msg_buf kd.1, msg_len kd.1)) <$> l.
Definition frame_blocks (f : mframe) : list (Z * Z) := match f with MSend _ buf data => [(buf, Z.of_nat (length data))] | MRecv _ _ _ => [] end.
Definition blocks X G m : list (Z * Z) := X ++ gather message_blocks G ++ gather frame_blocks (mctx m).

Definition data_ok (d : list Z) : Prop := Forall is_u8 d ∧ Z.of_nat (length d) < 2^31.
Definition mframe_ok (f : mframe) : Prop := match f with MSend _ _ data => data_ok data | MRecv _ sz _ => 0 <= sz end.
(** The message [k] has the bytes [d]. *)
Definition holds m (k : msg_t) (d : list Z) : Prop :=
  msg_len k = Z.of_nat (length d) ∧ data_ok d ∧ read_bytes (msg_buf k) (msg_len k) (mmem m) = d.

Record queue_ok H W P (s : kst) (i : Z) (l : list (msg_t * list Z)) (x : msgid_ds) : Prop := {
  qo_id : msgid x = i;
  qo_len : msgq_len x = MSGQ_CAPACITY;
  qo_full : H !! q_full x = Some (i, true);
  qo_empty : H !! q_empty x = Some (i, false);
  qo_ring : ring l.*1 (msg_q x);
  qo_max : max_items (msg_q x) = MSGQ_CAPACITY;
  qo_messages : Z.of_nat (length l) = sval (q_empty x) s + waiting W (q_empty x) + promised P (q_empty x);
  qo_places : Z.of_nat (length l) + sval (q_full x) s + waiting W (q_full x) + promised P (q_full x) <= MSGQ_CAPACITY;
}.

(** A queue that is not in use. *)
Definition queue_free (x : msgid_ds) : Prop :=
  msgid x = -1 ∧ msgq_len x = MSGQ_CAPACITY ∧ max_items (msg_q x) = MSGQ_CAPACITY ∧ Z.of_nat (length (items (msg_q x))) = MSGQ_CAPACITY.

(** [X] are blocks and [P] is the promise that the running call holds. *)
Record minv X P G H W Q m : Prop := {
  m_client : cinv (dom H) W Q (mkern m);
  m_ctx (p : Z) : match mctx m !! p with Some f => exists j : Z, W !! p = Some j ∧ H !! j = Some (frame_end f) | None => W !! p = None end;
  m_own (j i : Z) (b : bool) : H !! j = Some (i, b) -> exists x, is_Some (G !! i) ∧ arr_get (msgq_heap m) i = Some x ∧ j = if b then q_full x else q_empty x;
  m_heap : length (msgq_heap m) = Z.to_nat NUM_MSGQS;
  m_free i x : arr_get (msgq_heap m) i = Some x -> G !! i = None -> queue_free x;
  m_queue (i : Z) l : G !! i = Some l -> exists x, arr_get (msgq_heap m) i = Some x ∧ queue_ok H W P (mkern m) i l x;
  m_mem : mem_ok (blocks X G m) (mmem m);
  m_data (i : Z) l k d : G !! i = Some l -> (k, d) ∈ l -> holds m k d;
  m_frame (p : Z) f : mctx m !! p = Some f -> mframe_ok f;
}.

(** ** Changes of the kernel *)

Lemma minv_kern X P G H W Q m Q' s' :
  minv X P G H W Q m -> cinv (dom H) W Q' s' -> (forall j, j ∈ dom H -> sval j s' = sval j (mkern m)) -> minv X P G H W Q' (set_mkern s' m).
Proof.
  intros [M1 M2 M3 M4 M5 M6 M7 M8 M9] Hc HV. constructor; try done. intros i l Hl. destruct (M6 i l Hl) as (x & E & [Q1 Q2 Q3 Q4 Q5 Q6 Q7 Q8]).
  exists x. split; [done|]. constructor; try done; simpl; rewrite HV by (by eapply elem_of_dom_2); done.
Qed.

(** A semaphore has a single owner. *)
Lemma own_eq X P G H W Q m j i b i' l x :
  minv X P G H W Q m -> H !! j = Some (i, b) -> G !! i' = Some l -> arr_get (msgq_heap m) i' = Some x ->
  (j = q_full x <-> i = i' ∧ b = true) ∧ (j = q_empty x <-> i = i' ∧ b = false).
Proof.
  intros Hm Hj Hl Ex. destruct (m_queue _ _ _ _ _ _ _ Hm _ _ Hl) as (x' & Ex' & Hq). assert (x' = x) as -> by congruence.
  destruct (m_own _ _ _ _ _ _ _ Hm _ _ _ Hj) as (y & _ & Ey & Hy). pose proof (qo_full _ _ _ _ _ _ _ Hq). pose proof (qo_empty _ _ _ _ _ _ _ Hq).
  split; (split; [intros ->; naive_solver|intros [-> ->]; by simplify_eq]).
Qed.

(** The ends of a queue are semaphores of the client. *)
Lemma ends_owned X P G H W Q m i l x : minv X P G H W Q m -> G !! i = Some l -> arr_get (msgq_heap m) i = Some x -> q_full x ∈ dom H ∧ q_empty x ∈ dom H.
Proof.
  intros Hm Hl Ex. destruct (m_queue _ _ _ _ _ _ _ Hm i l Hl) as (x' & Ex' & Hq). assert (x' = x) as -> by congruence.
  split; apply elem_of_dom; eexists; apply Hq.
Qed.

(** The value of one semaphore and the promises for it change together. *)
Lemma minv_sem X P G H W Q m j Q' s' P' W' :
  minv X P G H W Q m -> cinv (dom H) W' Q' s' -> keeps_others (dom H) j (mkern m) s' ->
  (forall p : Z, match mctx m !! p with Some f => exists j : Z, W' !! p = Some j ∧ H !! j = Some (frame_end f) | None => W' !! p = None end) ->
  (forall i, i ≠ j -> waiting W' i = waiting W i ∧ promised P' i = promised P i) ->
  sval j s' + waiting W' j + promised P' j = sval j (mkern m) + waiting W j + promised P j -> minv X P' G H W' Q' (set_mkern s' m).
Proof.
  intros [M1 M2 M3 M4 M5 M6 M7 M8 M9] Hc HV Hctx Hot Heq. constructor; try done. intros i l Hl. destruct (M6 i l Hl) as (x & E & [Q1 Q2 Q3 Q4 Q5 Q6 Q7 Q8]).
  exists x. split; [done|]. assert (forall k, H !! k ≠ None -> sval k s' + waiting W' k + promised P' k = sval k (mkern m) + waiting W k + promised P k) as Hsum.
  { intros k Hk. destruct (decide (k = j)) as [->|Hne]; [done|]. destruct (Hot k Hne) as [-> ->]. rewrite HV; [done| |done]. by apply elem_of_dom, not_eq_None_Some. }
  pose proof (Hsum (q_empty x) ltac:(congruence)). pose proof (Hsum (q_full x) ltac:(congruence)). constructor; try done; simpl; lia.
Qed.

Lemma waiting_insert W p j i : W !! p = None -> waiting (<[p := j]> W) i = waiting W i + if bool_decide (i = j) then 1 else 0.
Proof.
  intros Hp. unfold waiting. case_bool_decide as Hj.
  - subst i. rewrite map_filter_insert_True by done. rewrite map_size_insert_None; [lia|]. apply map_lookup_filter_None. by left.
  - rewrite map_filter_insert_False by (simpl; congruence). rewrite delete_id by done. lia.
Qed.
Lemma waiting_delete W p j i : W !! p = Some j -> waiting (delete p W) i = waiting W i - if bool_decide (i = j) then 1 else 0.
Proof. intros Hp. rewrite <- (insert_delete_id W p j Hp) at 2. rewrite waiting_insert by apply lookup_delete_eq. lia. Qed.
Lemma waiting_pos W p j : W !! p = Some j -> 1 <= waiting W j.
Proof. intros Hp. pose proof (waiting_delete W p j j Hp) as E. rewrite bool_decide_eq_true_2 in E by done. unfold waiting in *. lia. Qed.

(** ** Changes of the memory *)

Lemma minv_mem X X' P G H W Q m mem' :
  minv X P G H W Q m -> mem_ok (blocks X' G m) mem' -> (forall x, in_blocks (gather message_blocks G) x -> load_byte mem' x = load_byte (mmem m) x) ->
  minv X' P G H W Q (set_mmem mem' m).
Proof.
  intros [M1 M2 M3 M4 M5 M6 M7 M8 M9] Hok Hsame. constructor; try done. intros i l k d Hl Hk. destruct (M8 i l k d Hl Hk) as (E1 & E2 & E3).
  split; [done|]. split; [done|]. rewrite <- E3. apply read_ext. intros x Hx. apply Hsame. exists (msg_buf k), (msg_len k). split; [|done].
  apply (gather_elem _ _ _ _ _ Hl). apply list_elem_of_fmap. by exists (k, d).
Qed.

Lemma in_blocks_app B B' x : in_blocks B x -> in_blocks (B' ++ B) x.
Proof. intros (a & n & Hin & Hx). exists a, n. split; [|done]. apply elem_of_app. by right. Qed.
Lemma in_blocks_mono B B' x : in_blocks B x -> (forall b, b ∈ B -> b ∈ B') -> in_blocks B' x.
Proof. intros (a & n & Hin & Hx) HB. exists a, n. auto. Qed.

(** The allocator has a block of [n] bytes. *)
Definition has_block (n : Z) m : bool := match msgq_malloc n (mmem m) with Some (a, _) => negb (bool_decide (a = 0)) | None => false end.

Lemma malloc_inv X P G H W Q m n :
  minv X P G H W Q m -> 0 <= n ->
  wp (mm (msgq_malloc n)) m (λ a m', has_block n m = negb (bool_decide (a = 0)) ∧ exists mem', m' = set_mmem mem' m ∧ minv (if bool_decide (a = 0) then X else (a, n) :: X) P G H W Q m').
Proof.
  intros Hm Hn. apply wp_zoom. pose proof (malloc_ok (blocks X G m) (mmem m) n (m_mem _ _ _ _ _ _ _ Hm) Hn) as (a & mem' & E & Hs & Hok)%wp_run.
  apply wp_run. exists a, mem'. split; [done|]. split; [unfold has_block; by rewrite E|]. exists mem'. split; [done|].
  eapply minv_mem; [exact Hm|by destruct (bool_decide _)|]. intros x Hx. apply Hs. unfold blocks. apply in_blocks_app.
  eapply in_blocks_mono; [exact Hx|]. intros b Hb. apply elem_of_app. by left.
Qed.
Lemma free_inv a n X P G H W Q m :
  minv ((a, n) :: X) P G H W Q m -> wp (mm (msgq_free a)) m (λ _ m', exists mem', m' = set_mmem mem' m ∧ minv X P G H W Q m').
Proof.
  intros Hm. apply wp_zoom. eapply wp_mono; [apply (free_ok a n (blocks X G m)); apply Hm|]. intros _ mem' [Hs Hok]. exists mem'. split; [done|].
  eapply minv_mem; [exact Hm|done|]. intros x Hx. apply Hs. unfold blocks. apply in_blocks_app.
  eapply in_blocks_mono; [exact Hx|]. intros b Hb. apply elem_of_app. by left.
Qed.
(** The message is copied into its block. *)
Lemma write_inv a data X P G H W Q m :
  minv ((a, Z.of_nat (length data)) :: X) P G H W Q m -> data_ok data ->
  let m' := set_mmem (write_bytes a data (mmem m)) m in
  minv ((a, Z.of_nat (length data)) :: X) P G H W Q m' ∧ holds m' (MkMsg a (Z.of_nat (length data))) data.
Proof.
  intros Hm Hd m'. destruct (write_spec data a a (Z.of_nat (length data)) (blocks X G m) (mmem m)) as (H1 & H2 & H3); [apply Hm|lia|lia|apply Hd|].
  split; [|done]. eapply minv_mem; [exact Hm|done|]. intros x Hx. apply H3. intros Hax.
  eapply (mem_ok_apart a (Z.of_nat (length data)) (blocks X G m) (mmem m) x); [apply Hm|done|]. unfold blocks. apply in_blocks_app.
  eapply in_blocks_mono; [exact Hx|]. intros b Hb. apply elem_of_app. by left.
Qed.

(** ** Changes of a queue *)

Definition same_ends (x x' : msgid_ds) : Prop := msgid x' = msgid x ∧ msgq_len x' = msgq_len x ∧ q_full x' = q_full x ∧ q_empty x' = q_empty x.

Lemma minv_update X P G H W Q m X' P' i l l' x x' :
  minv X P G H W Q m -> G !! i = Some l -> arr_get (msgq_heap m) i = Some x -> same_ends x x' -> queue_ok H W P' (mkern m) i l' x' ->
  (forall j, j ≠ q_full x -> j ≠ q_empty x -> promised P' j = promised P j) ->
  X' ++ message_blocks l' ≡ₚ X ++ message_blocks l -> (forall k d, (k, d) ∈ l' -> holds m k d) ->
  minv X' P' (<[i := l']> G) H W Q (set_msgq_heap (<[Z.to_nat i := x']> (msgq_heap m)) m).
Proof.
  intros Hm Hl Ex (S1 & S2 & S3 & S4) Hq Hp HX Hd. pose proof (arr_get_range _ _ _ Ex) as Hr. destruct (Hm) as [M1 M2 M3 M4 M5 M6 M7 M8 M9].
  assert (forall k y, arr_get (<[Z.to_nat i := x']> (msgq_heap m)) k = Some y -> (k = i ∧ y = x') ∨ (k ≠ i ∧ arr_get (msgq_heap m) k = Some y)) as Hget
    by (intros k y; apply arr_get_insert; lia).
  assert (arr_get (<[Z.to_nat i := x']> (msgq_heap m)) i = Some x') as Ei by (eapply arr_get_set, arr_set_in; lia).
  assert (forall k, k ≠ i -> arr_get (<[Z.to_nat i := x']> (msgq_heap m)) k = arr_get (msgq_heap m) k) as Eo
    by (intros k Hk; eapply arr_get_set_ne; [apply arr_set_in; lia|auto]).
  constructor; try done; simpl.
  - intros j k b Hj. destruct (M3 j k b Hj) as (y & Hy & Ey & Hb). destruct (decide (k = i)) as [->|Hk].
    + exists x'. rewrite lookup_insert_eq, Ei, S3, S4. split_and!; [done|done|]. by simplify_eq.
    + exists y. rewrite lookup_insert_ne, Eo by done. done.
  - by rewrite length_insert.
  - intros k y Ey Hk. destruct (decide (k = i)) as [->|Hne]; [by rewrite lookup_insert_eq in Hk|]. rewrite lookup_insert_ne in Hk by done. rewrite Eo in Ey by done. by eapply M5.
  - intros k lk Hk. destruct (decide (k = i)) as [->|Hne]; [rewrite lookup_insert_eq in Hk; injection Hk as <-; by exists x'|].
    rewrite lookup_insert_ne in Hk by done. destruct (M6 k lk Hk) as (y & Ey & [Q1 Q2 Q3 Q4 Q5 Q6 Q7 Q8]). exists y. rewrite Eo by done. split; [done|].
    destruct (own_eq _ _ _ _ _ _ _ _ _ _ _ _ _ Hm Q3 Hl Ex) as [F1 F2]. destruct (own_eq _ _ _ _ _ _ _ _ _ _ _ _ _ Hm Q4 Hl Ex) as [F3 F4].
    constructor; try done; rewrite Hp by (rewrite ?F1, ?F2, ?F3, ?F4; by intros [? ?]); done.
  - eapply mem_ok_perm; [|exact M7]. unfold blocks. simpl. rewrite gather_update, (gather_lookup _ _ _ _ Hl). rewrite !(assoc_L (++)). by rewrite HX.
  - intros k lk kk d Hk. destruct (decide (k = i)) as [->|Hne]; [rewrite lookup_insert_eq in Hk; injection Hk as <-; by apply Hd|].
    rewrite lookup_insert_ne in Hk by done. by apply (M8 k lk).
Qed.
End inv.
