(* ===== verification/KmsgOps.v ===== *)
(** * The message calls and the abstract queues

    Abstract queues of messages, the steps that they allow, and the calls of msg.c, step by step,
    over the operations of the kernel that Kclient.v specifies: each keeps the invariant of KmsgInv.v and
    is a step of the abstract queues. *)

From stdpp Require Import gmap.
From S2P Require Import Prelude Kqueue Kheap Ktimer Ksched Ksem Kmutex Kinv Kops Kernel Ksafe Kinit Kreach Kframe Kcount Kwait Kclient Kmsg KmsgInv.
Open Scope Z_scope.

(** ** Abstract queues *)

(** A queue with its key and its messages. Some receivers are suspended, each of which will get a message; of the
    [MSGQ_CAPACITY] places some hold no message and are not free either: those of suspended senders, and those that
    were lost with a message too long for its receiver. *)
Record aqueue := MkAq { a_key : Z; a_msgs : list (list Z); a_readers : Z; a_taken : Z }.
Abbreviation aqueues := (gmap Z aqueue).

(** The places that a sender can use, and the messages that a receiver can get, without waiting. *)
Definition a_room {MC : MsgConfig} (q : aqueue) : Z := MSGQ_CAPACITY - Z.of_nat (length (a_msgs q)) - a_taken q.
Definition a_avail (q : aqueue) : Z := Z.of_nat (length (a_msgs q)) - a_readers q.

(** [OpSnd] and [OpRcv] are the calls, with whether there is memory for the message; [OpSndOn] and [OpRcvOn] are calls that were suspended and go on. *)
Inductive mop :=
  | OpSnd (id : Z) (data : list Z) (flg : Z) (memory : bool) | OpRcv (id sz flg : Z) | OpGet (key flg : Z)
  | OpSndOn (id : Z) (data : list Z) | OpRcvOn (id sz flg : Z) | OpOther.

(** What a receive of at most [sz] bytes returns for the message [d]: a message that
    is too long is cut or, without [MSG_NOERROR], lost. *)
Definition too_long (sz flg : Z) (d : list Z) : bool := bool_decide (sz < Z.of_nat (length d) ∧ Z.land flg MSG_NOERROR = 0).
Definition deliver (sz flg : Z) (d : list Z) : outcome * list Z :=
  if too_long sz flg d then (Done (-1), []) else (Done (Z.min sz (Z.of_nat (length d))), take (Z.to_nat sz) d).

Definition a_push (d : list Z) (q : aqueue) : aqueue := MkAq (a_key q) (a_msgs q ++ [d]) (a_readers q) (a_taken q).
Definition a_tail (q : aqueue) : aqueue := MkAq (a_key q) (tail (a_msgs q)) (a_readers q) (a_taken q).
Definition add_taken (n : Z) (q : aqueue) : aqueue := MkAq (a_key q) (a_msgs q) (a_readers q) (a_taken q + n).
Definition add_readers (n : Z) (q : aqueue) : aqueue := MkAq (a_key q) (a_msgs q) (a_readers q + n) (a_taken q).

(** The message [d] leaves the queue; its place is lost when it is too long. *)
Definition a_pop (sz flg : Z) (d : list Z) (q : aqueue) : aqueue := if too_long sz flg d then add_taken 1 (a_tail q) else a_tail q.

(** A step of the abstract queues, with the result that the caller sees. *)
Inductive aspec {MC : MsgConfig} : aqueues -> mop -> outcome * list Z -> aqueues -> Prop :=
  | a_sent A id data flg q : A !! id = Some q -> 0 < a_room q -> aspec A (OpSnd id data flg true) (Done 0, []) (<[id := a_push data q]> A)
  | a_not_sent A id data flg memory :
      A !! id = None ∨ memory = false ∨ (Z.land flg IPC_NOWAIT ≠ 0 ∧ exists q, A !! id = Some q ∧ a_room q <= 0) ->
      aspec A (OpSnd id data flg memory) (Done (-1), []) A
  | a_send_waits A id data flg q : A !! id = Some q -> a_room q <= 0 -> Z.land flg IPC_NOWAIT = 0 ->
      aspec A (OpSnd id data flg true) (Blocked, []) (<[id := add_taken 1 q]> A)
  | a_sent_on A id data q : A !! id = Some q -> 0 < a_taken q -> Z.of_nat (length (a_msgs q)) < MSGQ_CAPACITY ->
      aspec A (OpSndOn id data) (Done 0, []) (<[id := a_push data (add_taken (-1) q)]> A)
  | a_received A id sz flg q d l : A !! id = Some q -> 0 < a_avail q -> a_msgs q = d :: l ->
      aspec A (OpRcv id sz flg) (deliver sz flg d) (<[id := a_pop sz flg d q]> A)
  | a_not_received A id sz flg : A !! id = None ∨ (flg = IPC_NOWAIT ∧ exists q, A !! id = Some q ∧ a_avail q <= 0) ->
      aspec A (OpRcv id sz flg) (Done (-1), []) A
  | a_receive_waits A id sz flg q : A !! id = Some q -> a_avail q <= 0 -> flg ≠ IPC_NOWAIT ->
      aspec A (OpRcv id sz flg) (Blocked, []) (<[id := add_readers 1 q]> A)
  | a_received_on A id sz flg q d l : A !! id = Some q -> 0 < a_readers q -> a_msgs q = d :: l ->
      aspec A (OpRcvOn id sz flg) (deliver sz flg d) (<[id := a_pop sz flg d (add_readers (-1) q)]> A)
  | a_created A key flg id : (forall i q, A !! i = Some q -> a_key q ≠ key) -> key ≠ IPC_PRIVATE -> Z.land flg IPC_CREAT ≠ 0 ->
      0 <= id < NUM_MSGQS -> A !! id = None -> aspec A (OpGet key flg) (Done id, []) (<[id := MkAq key [] 0 0]> A)
  | a_got A key flg id q : A !! id = Some q -> a_key q = key -> Z.land flg IPC_CREAT ≠ 0 -> Z.land flg IPC_EXCL = 0 ->
      aspec A (OpGet key flg) (Done id, []) A
  | a_exists A key flg id q : A !! id = Some q -> a_key q = key -> Z.land flg IPC_CREAT = 0 ∨ Z.land flg IPC_EXCL ≠ 0 ->
      aspec A (OpGet key flg) (Done (-1), []) A
  | a_not_created A key flg : (forall i q, A !! i = Some q -> a_key q ≠ key) ->
      key = IPC_PRIVATE ∨ Z.land flg IPC_CREAT = 0 ∨ (forall i, 0 <= i < NUM_MSGQS -> is_Some (A !! i)) ->
      aspec A (OpGet key flg) (Done (-1), []) A
  | a_other A r : aspec A OpOther r A.

(** The abstract queues leave no choice for a send or a receive. *)
Lemma aspec_det {MC : MsgConfig} A o r1 A1 r2 A2 :
  match o with OpGet _ _ | OpOther => False | _ => True end -> aspec A o r1 A1 -> aspec A o r2 A2 -> r1 = r2 ∧ A1 = A2.
Proof.
  intros Ho H1 H2. destruct H1; try done; inversion H2; subst.
  all: repeat match goal with H : _ ∨ _ |- _ => destruct H | H : _ ∧ _ |- _ => destruct H | H : ∃ _, _ |- _ => destruct H end; simplify_eq; try (done || lia).
  all: by assert (d0 = d) as -> by congruence.
Qed.

Section ops.
Context {KC : KConfig} {KOK : KConfigOk KC} {MC : MsgConfig} {MCOK : MsgConfigOk MC} {MM : MsgMem} {MOK : MsgMemOk MM}.
Implicit Types (m : mst MM) (G : contents) (H : owners) (W : gmap Z Z) (Q : qmap) (T : list soft_tmr) (X : list (Z * Z)) (P : option Z) (A : aqueues).

(** ** The abstract queues of a state *)

Definition abs_queue P (s : kst) (l : list (msg_t * list Z)) (x : msgid_ds) : aqueue :=
  MkAq (msgq_key x) l.*2 (Z.of_nat (length l) - sval (q_empty x) s - promised P (q_empty x))
    (MSGQ_CAPACITY - Z.of_nat (length l) - sval (q_full x) s - promised P (q_full x)).
Definition absr P G m A : Prop := forall i, A !! i = l ← G !! i; x ← arr_get (msgq_heap m) i; Some (abs_queue P (mkern m) l x).

Lemma absr_at P G m A i l x : absr P G m A -> G !! i = Some l -> arr_get (msgq_heap m) i = Some x -> A !! i = Some (abs_queue P (mkern m) l x).
Proof. intros HA Hl Ex. by rewrite (HA i), Hl; simpl; rewrite Ex. Qed.
Lemma absr_none P G m A i : absr P G m A -> G !! i = None -> A !! i = None.
Proof. intros HA Hl. by rewrite (HA i), Hl. Qed.
Lemma absr_inv P G m A i q : absr P G m A -> A !! i = Some q -> exists l x, G !! i = Some l ∧ arr_get (msgq_heap m) i = Some x ∧ q = abs_queue P (mkern m) l x.
Proof.
  intros HA Hq. rewrite (HA i) in Hq. destruct (G !! i) as [l|]; [|done]. simpl in Hq. destruct (arr_get (msgq_heap m) i) as [x|] eqn:Ex; [|done]. simpl in Hq. injection Hq as <-. eauto.
Qed.

(** A change of the kernel, where a semaphore and the promise for it change together. *)
Lemma absr_kern X P P' G H W Q m s' A :
  minv X P G H W Q m -> absr P G m A -> (forall j, j ∈ dom H -> sval j s' + promised P' j = sval j (mkern m) + promised P j) -> absr P' G (set_mkern s' m) A.
Proof.
  intros Hm HA HV i. rewrite (HA i). simpl. destruct (G !! i) as [l|] eqn:Hl; [|done]. simpl. destruct (arr_get (msgq_heap m) i) as [x|] eqn:Ex; [|done]. simpl.
  destruct (ends_owned _ _ _ _ _ _ _ _ _ _ Hm Hl Ex) as [Hf%HV He%HV]. unfold abs_queue. do 2 f_equal; lia.
Qed.

(** A promise for an end of a queue does not concern the others. *)
Lemma abs_other X P0 G H W Q m P P' i l x k lk y :
  minv X P0 G H W Q m -> (forall j, j ≠ q_full x -> j ≠ q_empty x -> promised P' j = promised P j) -> G !! i = Some l -> arr_get (msgq_heap m) i = Some x ->
  k ≠ i -> G !! k = Some lk -> arr_get (msgq_heap m) k = Some y -> abs_queue P' (mkern m) lk y = abs_queue P (mkern m) lk y.
Proof.
  intros Hm Hp Hl Ex Hk Hlk Ey. destruct (m_queue _ _ _ _ _ _ _ Hm _ _ Hlk) as (y' & Ey' & Hq). assert (y' = y) as -> by congruence.
  destruct (own_eq _ _ _ _ _ _ _ _ _ _ _ _ _ Hm (qo_full _ _ _ _ _ _ _ Hq) Hl Ex) as [F1 F2]. destruct (own_eq _ _ _ _ _ _ _ _ _ _ _ _ _ Hm (qo_empty _ _ _ _ _ _ _ Hq) Hl Ex) as [F3 F4].
  unfold abs_queue. rewrite !Hp; [done|rewrite ?F1, ?F2, ?F3, ?F4; by intros [? ?]..].
Qed.

Lemma ends_differ X P G H W Q m i l x : minv X P G H W Q m -> G !! i = Some l -> arr_get (msgq_heap m) i = Some x -> q_full x ≠ q_empty x.
Proof.
  intros Hm Hl Ex E. destruct (m_queue _ _ _ _ _ _ _ Hm i l Hl) as (x' & Ex' & Hq). assert (x' = x) as -> by congruence.
  pose proof (qo_full _ _ _ _ _ _ _ Hq). pose proof (qo_empty _ _ _ _ _ _ _ Hq). congruence.
Qed.

(** One end of a queue gets [d] more, as value or as promise. *)
Lemma absr_shift X P P' G H W Q m s' A i l x q (b : bool) d :
  minv X P G H W Q m -> absr P G m A -> G !! i = Some l -> arr_get (msgq_heap m) i = Some x -> A !! i = Some q ->
  (forall j, j ∈ dom H -> sval j s' + promised P' j = sval j (mkern m) + promised P j + if bool_decide (j = if b then q_full x else q_empty x) then d else 0) ->
  absr P' G (set_mkern s' m) (<[i := (if b then add_taken else add_readers) (-d) q]> A).
Proof.
  intros Hm HA Hl Ex Hq HV k. simpl. destruct (decide (k = i)) as [->|Hk].
  - rewrite lookup_insert_eq, Hl. simpl. rewrite Ex. simpl. rewrite (absr_at _ _ _ _ _ _ _ HA Hl Ex) in Hq. injection Hq as <-.
    destruct (ends_owned _ _ _ _ _ _ _ _ _ _ Hm Hl Ex) as [Hf%HV He%HV]. pose proof (ends_differ _ _ _ _ _ _ _ _ _ _ Hm Hl Ex) as Hne.
    destruct b; [rewrite bool_decide_eq_true_2 in Hf by done; rewrite bool_decide_eq_false_2 in He by done|rewrite bool_decide_eq_false_2 in Hf by done; rewrite bool_decide_eq_true_2 in He by done];
      unfold add_taken, add_readers, abs_queue; cbn [a_key a_msgs a_readers a_taken]; do 2 f_equal; lia.
  - rewrite lookup_insert_ne, (HA k) by done. destruct (G !! k) as [lk|] eqn:Hlk; [|done]. simpl. destruct (arr_get (msgq_heap m) k) as [y|] eqn:Ey; [|done]. simpl.
    destruct (m_queue _ _ _ _ _ _ _ Hm _ _ Hlk) as (y' & Ey' & Hqk). assert (y' = y) as -> by congruence.
    destruct (own_eq _ _ _ _ _ _ _ _ _ _ _ _ _ Hm (qo_full _ _ _ _ _ _ _ Hqk) Hl Ex) as [F1 F2]. destruct (own_eq _ _ _ _ _ _ _ _ _ _ _ _ _ Hm (qo_empty _ _ _ _ _ _ _ Hqk) Hl Ex) as [F3 F4].
    destruct (ends_owned _ _ _ _ _ _ _ _ _ _ Hm Hlk Ey) as [Hf%HV He%HV].
    rewrite bool_decide_eq_false_2 in Hf by (destruct b; rewrite ?F1, ?F2; by intros [? ?]). rewrite bool_decide_eq_false_2 in He by (destruct b; rewrite ?F3, ?F4; by intros [? ?]).
    unfold abs_queue. do 2 f_equal; lia.
Qed.

(** One queue changes. *)
Lemma absr_put P P' G m A i l' x x' q' :
  absr P G m A -> arr_get (msgq_heap m) i = Some x -> q' = abs_queue P' (mkern m) l' x' ->
  (forall k l y, k ≠ i -> G !! k = Some l -> arr_get (msgq_heap m) k = Some y -> abs_queue P' (mkern m) l y = abs_queue P (mkern m) l y) ->
  absr P' (<[i := l']> G) (set_msgq_heap (<[Z.to_nat i := x']> (msgq_heap m)) m) (<[i := q']> A).
Proof.
  intros HA Ex -> Hot k. pose proof (arr_get_range _ _ _ Ex) as Hr. simpl. destruct (decide (k = i)) as [->|Hk].
  - rewrite !lookup_insert_eq. simpl. rewrite (arr_get_set (msgq_heap m) _ i x') by (apply arr_set_in; lia). done.
  - rewrite !lookup_insert_ne by done. rewrite (HA k). destruct (G !! k) as [l|] eqn:Hl; [|done]. simpl.
    assert (arr_get (<[Z.to_nat i := x']> (msgq_heap m)) k = arr_get (msgq_heap m) k) as -> by (eapply arr_get_set_ne; [apply arr_set_in; lia|auto]). destruct (arr_get (msgq_heap m) k) as [y|] eqn:Ey; [|done]. simpl. by rewrite (Hot k l y).
Qed.

(** Between the calls. *)
Definition mgood A m : Prop := exists G H W Q T, kgood Q T (mkern m) ∧ minv [] None G H W Q m ∧ absr None G m A.

(** ** Access to the queues *)

Lemma set_mkern_id m : set_mkern (mkern m) m = m.
Proof. by destruct m. Qed.
Lemma wp_get_msgq i x m (R : msgid_ds -> mst MM -> Prop) : arr_get (msgq_heap m) i = Some x -> R x m -> wp (get_msgq i) m R.
Proof. intros E HR. unfold get_msgq. wp_pure. by eapply wp_lift. Qed.
Definition put_msgq i (x : msgid_ds) m : mst MM := set_msgq_heap (<[Z.to_nat i := x]> (msgq_heap m)) m.
Lemma wp_upd_msgq i f x m (R : unit -> mst MM -> Prop) : arr_get (msgq_heap m) i = Some x -> R tt (put_msgq i (f x) m) -> wp (upd_msgq i f) m R.
Proof.
  intros E HR. unfold upd_msgq. apply wp_bind. eapply wp_get_msgq; [done|]. wp_pure. apply wp_bind. eapply wp_lift; [apply arr_set_in; by apply arr_get_range in E|]. by wp_pure.
Qed.
Lemma put_msgq_at i x y m : arr_get (msgq_heap m) i = Some y -> arr_get (msgq_heap (put_msgq i x m)) i = Some x.
Proof. intros E. eapply arr_get_set, arr_set_in. by apply arr_get_range in E. Qed.
Lemma put_msgq_put i x y m : put_msgq i x (put_msgq i y m) = put_msgq i x m.
Proof. unfold put_msgq, set_msgq_heap. simpl. by rewrite list_insert_insert_eq. Qed.
Lemma wp_on_msgq {B} i (op : ST (queue msg_t) B) x m (R : B -> queue msg_t -> Prop) (S : B -> mst MM -> Prop) :
  arr_get (msgq_heap m) i = Some x -> wp op (msg_q x) R -> (forall a y, R a y -> S a (put_msgq i (set_msg_q y x) m)) -> wp (on_msgq i op) m S.
Proof.
  intros E Hop HS. apply wp_run in Hop as (a & y & Eop & HR). unfold on_msgq. apply wp_bind. eapply wp_get_msgq; [done|]. apply wp_bind. eapply wp_lift; [exact Eop|].
  apply wp_bind. eapply wp_upd_msgq; [done|]. apply wp_ret. by apply HS.
Qed.
Lemma wp_get_pid m (R : Z -> mst MM -> Prop) : R (current_pid (mkern m)) m -> wp (kern sys_get_currentPID) m R.
Proof. intros HR. apply wp_zoom. unfold sys_get_currentPID. apply wp_gets. by rewrite set_mkern_id. Qed.

(** ** Free semaphores *)

Definition free_sems (s : kst) : nat := length (filter (λ x, sem_id x = -1) (sem_heap s)).
Lemma free_find s : (1 <= free_sems s)%nat -> exists k x, list_find (λ x, sem_id x = -1) (sem_heap s) = Some (k, x).
Proof.
  intros Hf. destruct (list_find (λ x, sem_id x = -1) (sem_heap s)) as [[k x]|] eqn:E; [by eauto|]. apply list_find_None in E. unfold free_sems in Hf.
  rewrite list.Forall_forall in E. destruct (filter _ (sem_heap s)) as [|x l] eqn:Ef; [simpl in Hf; lia|]. exfalso.
  assert (x ∈ filter (λ x, sem_id x = -1) (sem_heap s)) as Hx by (rewrite Ef; by left). apply list_elem_of_filter in Hx as [H1 H2]. by apply (E x).
Qed.
Lemma free_taken s s' k x y :
  list_find (λ x, sem_id x = -1) (sem_heap s) = Some (k, x) -> sem_heap s' = <[k := y]> (sem_heap s) -> sem_id y ≠ -1 -> S (free_sems s') = free_sems s.
Proof.
  intros (E & Hx & _)%list_find_Some Eh Hy. unfold free_sems. rewrite Eh. pose proof (lookup_lt_Some _ _ _ E). rewrite <- (take_drop_middle _ _ _ E) at 2.
  rewrite insert_take_drop by done. rewrite !list.filter_app, !list.filter_cons, !length_app. rewrite decide_False, decide_True by done. simpl. lia.
Qed.

(** ** During a call, which started in the state [k0] of the kernel *)

Section running.
Context (Q0 : qmap) (T0 : list soft_tmr) (k0 : kst).
Abbreviation self := (current_pid k0).
Context (Hgood : kgood Q0 T0 k0) (Hctx : cur_ctx k0 = None) (Hidle : self ≠ idle_task_pid).

Definition running A X P G H W m : Prop :=
  exists Q T, minv X P G H W Q m ∧ done_post Q0 T0 k0 Q T (mkern m) ∧ mctx m !! self = None ∧ absr P G m A.

Lemma running_self A X P G H W m : running A X P G H W m -> W !! self = None ∧ current_pid (mkern m) = self.
Proof.
  intros (Q & T & Hm & D & Hn & HA). split; [|apply (dn_cur _ _ _ _ _ _ D)]. pose proof (m_ctx _ _ _ _ _ _ _ Hm self) as Hc. by rewrite Hn in Hc.
Qed.

Lemma run_sem A X P G H W m j Q' T' s' P' :
  running A X P G H W m -> done_post Q0 T0 k0 Q' T' s' -> cinv (dom H) W Q' s' -> keeps_others (dom H) j (mkern m) s' ->
  (forall i, i ≠ j -> promised P' i = promised P i) -> sval j s' + promised P' j = sval j (mkern m) + promised P j ->
  running A X P' G H W (set_mkern s' m).
Proof.
  intros (Q & T & Hm & D & Hn & HA) D' C' V' Hot Heq. exists Q', T'. split_and!; [|done|done|].
  - apply (minv_sem X P G H W Q m j); try done; [apply Hm|auto|lia].
  - eapply absr_kern; [exact Hm|exact HA|]. intros i Hi. destruct (decide (i = j)) as [->|Hne]; [done|]. by rewrite V', Hot.
Qed.

Lemma run_kern A X P G H W m Q' T' s' :
  running A X P G H W m -> done_post Q0 T0 k0 Q' T' s' -> cinv (dom H) W Q' s' -> (forall j, j ∈ dom H -> sval j s' = sval j (mkern m)) ->
  running A X P G H W (set_mkern s' m).
Proof. intros (Q & T & Hm & D & Hn & HA) D' C' V'. exists Q', T'. split_and!; [by eapply minv_kern|done|done|]. eapply absr_kern; [exact Hm|exact HA|]. intros j Hj. by rewrite V'. Qed.

Lemma run_fail A X P G H W m e :
  running A X P G H W m -> wp (kern (fail e)) m (λ o m', o = Done (-1) ∧ running A X P G H W m').
Proof.
  intros Hr. destruct (Hr) as (Q & T & Hm & D & Hn & HA). apply wp_zoom. eapply wp_mono; [apply (client_fail (dom H) W Q T); [apply D|apply Hm]|].
  intros o s' (-> & D' & C' & V'). split; [done|]. eapply (run_kern A X P G H W m Q T); [done|by eapply done_trans|done|done].
Qed.
Lemma run_errno A X P G H W m e :
  running A X P G H W m -> wp (kern (kerrno e)) m (λ _ m', running A X P G H W m').
Proof.
  intros Hr. destruct (Hr) as (Q & T & Hm & D & Hn & HA). apply wp_zoom. eapply wp_mono; [apply (client_errno (dom H) W Q T); [apply D|apply Hm]|].
  intros o s' (D' & C' & V'). eapply (run_kern A X P G H W m Q T); [done|by eapply done_trans|done|done].
Qed.

Lemma run_trywait A X G H W m j :
  running A X None G H W m -> j ∈ dom H ->
  wp (kern (sys_sem_trywait (Some j))) m (λ o m', exists s', m' = set_mkern s' m ∧
    ((o = Done 0 ∧ 0 < sval j (mkern m) ∧ running A X (Some j) G H W m') ∨ (o = Done (-1) ∧ sval j (mkern m) <= 0 ∧ running A X None G H W m'))).
Proof.
  intros Hr Hj. destruct (running_self _ _ _ _ _ _ _ Hr) as [HW Hcur]. destruct (Hr) as (Q & T & Hm & D & Hn & HA). apply wp_zoom.
  eapply wp_mono; [apply (client_trywait (dom H) W Q T); [apply D|apply Hm|done|congruence|by rewrite Hcur]|].
  intros o s' (V & D' & C' & Hor). exists s'. split; [done|]. destruct Hor as [(-> & Hpos & Hv)|(-> & Hpos & Hv)]; [left|right]; (split; [done|]; split; [done|]).
  - eapply (run_sem A X None G H W m j Q T); [done|by eapply done_trans|done|done| |].
    + intros i Hi. unfold promised. by rewrite bool_decide_eq_false_2, bool_decide_eq_false_2 by congruence.
    + unfold promised. rewrite bool_decide_eq_true_2, bool_decide_eq_false_2 by done. lia.
  - eapply (run_sem A X None G H W m j Q T); [done|by eapply done_trans|done|done|done|]. lia.
Qed.

(** A suspended call leaves its frame and its block behind. *)
Lemma run_wait A X G H W m j f :
  running A (frame_blocks f ++ X) None G H W m -> H !! j = Some (frame_end f) -> mframe_ok f ->
  wp (kern (sys_sem_wait_x (Some j))) m (λ o m', exists s', m' = set_mkern s' m ∧
    match o with
    | Done r => r = 0 ∧ 0 < sval j (mkern m) ∧ running A (frame_blocks f ++ X) (Some j) G H W m'
    | Blocked => sval j (mkern m) <= 0 ∧ sval j s' = sval j (mkern m) - 1 ∧ keeps_others (dom H) j (mkern m) s' ∧
        exists Q' T', kgood Q' T' s' ∧ minv X None G H (<[self := j]> W) Q' (set_mctx (<[self := f]> (mctx m')) m')
    end).
Proof.
  intros Hr HH Hf. destruct (running_self _ _ _ _ _ _ _ Hr) as [HW Hcur]. destruct (Hr) as (Q & T & Hm & D & Hn & HA). apply wp_zoom.
  eapply wp_mono; [apply (client_wait (dom H) W Q T (mkern m) j); [apply D|apply Hm|by eapply elem_of_dom_2|congruence|by rewrite Hcur]|].
  intros o s' (Hv & V & Ho). exists s'. split; [done|]. destruct o as [r|].
  - destruct Ho as (-> & Hpos & D' & C'). split; [done|]. split; [done|]. eapply (run_sem A _ None G H W m j Q T); [done|by eapply done_trans|done|done| |].
    + intros i Hi. unfold promised. by rewrite bool_decide_eq_false_2, bool_decide_eq_false_2 by congruence.
    + unfold promised. rewrite bool_decide_eq_true_2, bool_decide_eq_false_2 by done. lia.
  - destruct Ho as (Hpos & Q' & T' & B & C'). rewrite Hcur in C'. split_and!; [done..|]. exists Q', T'. split; [by eapply block_good|].
    destruct (Hm) as [M1 M2 M3 M4 M5 M6 M7 M8 M9]. constructor; try done; simpl.
    + intros p. destruct (decide (p = self)) as [->|Hp]; [rewrite !lookup_insert_eq; by exists j|]. rewrite !lookup_insert_ne by done. apply M2.
    + intros i l Hl. destruct (M6 i l Hl) as (x & E & [U1 U2 U3 U4 U5 U6 U7 U8]). exists x. split; [done|].
      assert (forall k, k ∈ dom H -> sval k s' + waiting (<[self := j]> W) k = sval k (mkern m) + waiting W k) as Hsum.
      { intros k Hk. rewrite waiting_insert by done. case_bool_decide as Hkj; [subst k; lia|]. rewrite V; [lia|done|done]. }
      pose proof (Hsum (q_empty x) ltac:(by eapply elem_of_dom_2)). pose proof (Hsum (q_full x) ltac:(by eapply elem_of_dom_2)). constructor; try done; lia.
    + eapply mem_ok_perm; [|exact M7]. unfold blocks. simpl. rewrite gather_insert by done. rewrite <- !(assoc_L (++)). 
      rewrite (Permutation_app_swap_app (frame_blocks f)). f_equiv. apply Permutation_app_swap_app.
    + intros p g Hp. destruct (decide (p = self)) as [->|Hne]; [rewrite lookup_insert_eq in Hp; by injection Hp as <-|].
      rewrite lookup_insert_ne in Hp by done. by eapply M9.
Qed.

Lemma run_post A X G H W m j :
  running A X (Some j) G H W m -> j ∈ dom H ->
  wp (kern (sys_sem_post (Some j))) m (λ o m', running A X None G H W m').
Proof.
  intros Hr Hj. destruct (running_self _ _ _ _ _ _ _ Hr) as [HW Hcur]. destruct (Hr) as (Q & T & Hm & D & Hn & HA). apply wp_zoom.
  assert (sval j (mkern m) < 127) as Hmax.
  { apply elem_of_dom in Hj as [[i b] Hb]. destruct (m_own _ _ _ _ _ _ _ Hm _ _ _ Hb) as (x & [l Hl] & Ex & Ej).
    destruct (m_queue _ _ _ _ _ _ _ Hm i l Hl) as (x' & Ex' & [U1 U2 U3 U4 U5 U6 U7 U8]). assert (x' = x) as -> by congruence. pose proof (r_count _ _ U5) as [_ Hc].
    rewrite length_fmap, U6 in Hc. pose proof ok_capacity. unfold waiting, promised in U7, U8. destruct b; subst j; [rewrite bool_decide_eq_true_2 in U8 by done|rewrite bool_decide_eq_true_2 in U7 by done]; lia. }
  eapply wp_mono; [apply (client_post (dom H) W Q T (mkern m) j); [apply D|apply Hm|done|congruence|by rewrite Hcur|done]|].
  intros o s' (_ & V & Hv & Q' & T' & D' & C'). eapply (run_sem A X (Some j) G H W m j Q' T'); [done|by eapply done_trans|done|done| |].
  - intros i Hi. unfold promised. by rewrite bool_decide_eq_false_2, bool_decide_eq_false_2 by congruence.
  - unfold promised. rewrite bool_decide_eq_false_2, bool_decide_eq_true_2 by done. lia.
Qed.

(** A promise that is not used. *)
Lemma run_drop A X G H W m i l x q :
  running A X (Some (q_full x)) G H W m -> G !! i = Some l -> arr_get (msgq_heap m) i = Some x -> A !! i = Some q ->
  running (<[i := add_taken 1 q]> A) X None G H W m.
Proof.
  intros (Q & T & Hm & D & Hn & HA) Hl Ex Hq. exists Q, T. split_and!; [|done|done|].
  2: { rewrite <- (set_mkern_id m) at 1. apply (absr_shift X (Some (q_full x)) None G H W Q m (mkern m) A i l x q true (-1)); try done.
       intros j Hj. unfold promised. rewrite (bool_decide_eq_false_2 (None = Some j)) by done. case_bool_decide as H1; case_bool_decide as H2; try lia; simplify_eq; done. }
  destruct (Hm) as [M1 M2 M3 M4 M5 M6 M7 M8 M9]. constructor; try done.
  intros k lk Hk. destruct (M6 k lk Hk) as (y & Ey & [U1 U2 U3 U4 U5 U6 U7 U8]). exists y. split; [done|].
  destruct (own_eq _ _ _ _ _ _ _ _ _ _ _ _ _ Hm U4 Hl Ex) as [F1 _]. assert (q_empty y ≠ q_full x) as Hne by (rewrite F1; by intros [_ ?]).
  unfold promised in *. rewrite (bool_decide_eq_false_2 (Some (q_full x) = Some (q_empty y))) in U7 by congruence. constructor; try done.
  unfold promised. rewrite bool_decide_eq_false_2 by done. destruct (bool_decide (Some (q_full x) = Some (q_full y))); lia.
Qed.

(** The promise is a message or a place. *)
Lemma run_promise A X P G H W m i l x :
  running A X P G H W m -> G !! i = Some l -> arr_get (msgq_heap m) i = Some x ->
  (P = Some (q_empty x) -> 1 <= Z.of_nat (length l)) ∧ (P = Some (q_full x) -> Z.of_nat (length l) < MSGQ_CAPACITY).
Proof.
  intros (Q & T & Hm & D & Hn & HA) Hl Ex. destruct (m_queue _ _ _ _ _ _ _ Hm i l Hl) as (x' & Ex' & [U1 U2 U3 U4 U5 U6 U7 U8]). assert (x' = x) as -> by congruence.
  pose proof (dn_inv _ _ _ _ _ _ D) as K. pose proof (m_client _ _ _ _ _ _ _ Hm) as C. unfold promised in *.
  destruct (client_tokens _ _ _ _ _ _ K C (elem_of_dom_2 _ _ _ U3)) as [A1 A2]. destruct (client_tokens _ _ _ _ _ _ K C (elem_of_dom_2 _ _ _ U4)) as [A3 A4].
  fold (waiting W (q_full x)) in A2. fold (waiting W (q_empty x)) in A4.
  split; intros ->; [rewrite bool_decide_eq_true_2 in U7 by done|rewrite bool_decide_eq_true_2 in U8 by done]; lia.
Qed.

(** A message enters or leaves a queue; [x'] is the queue with its statistics. *)
Lemma promised_eq j : promised (Some j) j = 1.
Proof. unfold promised. by rewrite bool_decide_eq_true_2. Qed.
Lemma promised_ne j k : j ≠ k -> promised (Some j) k = 0.
Proof. intros Hjk. unfold promised. by rewrite bool_decide_eq_false_2 by congruence. Qed.

Lemma run_enq A buf n X G H W m i l x x' d q :
  running A ((buf, n) :: X) (Some (q_full x)) G H W m -> G !! i = Some l -> arr_get (msgq_heap m) i = Some x ->
  same_ends x x' -> ring (l.*1 ++ [MkMsg buf n]) (msg_q x') -> max_items (msg_q x') = MSGQ_CAPACITY -> holds m (MkMsg buf n) d ->
  msgq_key x' = msgq_key x -> A !! i = Some q ->
  running (<[i := a_push d q]> A) X (Some (q_empty x)) (<[i := l ++ [(MkMsg buf n, d)]]> G) H W (put_msgq i x' m).
Proof.
  intros (Q & T & Hm & D & Hn & HA) Hl Ex (S1 & S2 & S3 & S4) Hr Hx Hd Hkey Hq. destruct (m_queue _ _ _ _ _ _ _ Hm i l Hl) as (y & Ey & [U1 U2 U3 U4 U5 U6 U7 U8]).
  assert (y = x) as -> by congruence. assert (q_full x ≠ q_empty x) as Hne by congruence. exists Q, T. split_and!; [|done|done|].
  2: { rewrite (absr_at _ _ _ _ _ _ _ HA Hl Ex) in Hq. injection Hq as <-. eapply absr_put; [exact HA|exact Ex| |].
       - unfold a_push, abs_queue. cbn [a_key a_msgs a_readers a_taken]. rewrite Hkey, S3, S4, fmap_app, length_app.
         rewrite !promised_eq, (promised_ne (q_full x) (q_empty x)), (promised_ne (q_empty x) (q_full x)) by auto. simpl. f_equal; lia.
       - intros k lk y Hk Hlk Ek. eapply (abs_other _ _ G H W Q m); [exact Hm| |exact Hl|exact Ex|done|done|done].
         intros j H1 H2. unfold promised. by rewrite !bool_decide_eq_false_2 by congruence. }
  eapply (minv_update _ _ G H W Q m _ _ i l); try done; simpl.
  - unfold promised in *. rewrite (bool_decide_eq_false_2 (Some (q_full x) = Some (q_empty x))) in U7 by congruence. rewrite bool_decide_eq_true_2 in U8 by done.
    constructor; try congruence; try (by rewrite ?S3, ?S4); rewrite ?fmap_app, ?length_app; [done|..]; simpl; unfold promised; rewrite ?S3, ?S4;
      [rewrite bool_decide_eq_true_2 by done|rewrite bool_decide_eq_false_2 by congruence]; lia.
  - intros j H1 H2. unfold promised. by rewrite !bool_decide_eq_false_2 by congruence.
  - unfold message_blocks. rewrite fmap_app. simpl. rewrite (assoc_L (++)), (Permutation_app_comm _ [(buf, n)]). done.
  - intros k e [Hk|Hk%list_elem_of_singleton]%elem_of_app; [by eapply (m_data _ _ _ _ _ _ _ Hm)|]. by simplify_eq.
Qed.

Lemma run_deq A X G H W m i l x x' k d q :
  running A X (Some (q_empty x)) G H W m -> G !! i = Some ((k, d) :: l) -> arr_get (msgq_heap m) i = Some x ->
  same_ends x x' -> ring l.*1 (msg_q x') -> max_items (msg_q x') = MSGQ_CAPACITY -> msgq_key x' = msgq_key x -> A !! i = Some q ->
  running (<[i := a_tail q]> A) ((msg_buf k, msg_len k) :: X) (Some (q_full x)) (<[i := l]> G) H W (put_msgq i x' m).
Proof.
  intros (Q & T & Hm & D & Hn & HA) Hl Ex (S1 & S2 & S3 & S4) Hr Hx Hkey Hq. destruct (m_queue _ _ _ _ _ _ _ Hm _ _ Hl) as (y & Ey & [U1 U2 U3 U4 U5 U6 U7 U8]).
  assert (y = x) as -> by congruence. assert (q_full x ≠ q_empty x) as Hne by congruence. exists Q, T. split_and!; [|done|done|].
  2: { rewrite (absr_at _ _ _ _ _ _ _ HA Hl Ex) in Hq. injection Hq as <-. eapply absr_put; [exact HA|exact Ex| |].
       - unfold a_tail, abs_queue. cbn [a_key a_msgs a_readers a_taken]. rewrite Hkey, S3, S4.
         rewrite !promised_eq, (promised_ne (q_full x) (q_empty x)), (promised_ne (q_empty x) (q_full x)) by auto. simpl. f_equal; lia.
       - intros k' lk y Hk Hlk Ek. eapply (abs_other _ _ G H W Q m); [exact Hm| |exact Hl|exact Ex|done|done|done].
         intros j H1 H2. unfold promised. by rewrite !bool_decide_eq_false_2 by congruence. }
  eapply (minv_update _ _ G H W Q m _ _ i ((k, d) :: l)); try done; simpl in *.
  - unfold promised in *. rewrite (bool_decide_eq_false_2 (Some (q_empty x) = Some (q_full x))) in U8 by congruence. rewrite bool_decide_eq_true_2 in U7 by done.
    constructor; try congruence; try (by rewrite ?S3, ?S4); unfold promised; rewrite ?S3, ?S4;
      [rewrite bool_decide_eq_false_2 by congruence|rewrite bool_decide_eq_true_2 by done]; lia.
  - intros j H1 H2. unfold promised. by rewrite !bool_decide_eq_false_2 by congruence.
  - apply Permutation_middle.
  - intros k' e Hk. eapply (m_data _ _ _ _ _ _ _ Hm); [exact Hl|by right].
Qed.

(** ** The end of a send *)

Lemma snd_end_spec A X G H W m i l x buf data q :
  running A ((buf, Z.of_nat (length data)) :: X) (Some (q_full x)) G H W m -> G !! i = Some l -> arr_get (msgq_heap m) i = Some x -> data_ok data -> A !! i = Some q ->
  wp (msgsnd_end i buf data) m (λ o m', o = Done 0 ∧ exists G', running (<[i := a_push data q]> A) X None G' H W m').
Proof.
  intros Hr Hl Ex Hd Hqa. destruct (run_promise _ _ _ _ _ _ _ _ _ _ Hr Hl Ex) as [_ Hroom]. specialize (Hroom eq_refl). destruct (Hr) as (Q & T & Hm & D & Hn & HA).
  destruct (m_queue _ _ _ _ _ _ _ Hm i l Hl) as (y & Ey & Hq). assert (y = x) as -> by congruence. pose proof (qo_ring _ _ _ _ _ _ _ Hq) as Hring.
  pose proof (qo_max _ _ _ _ _ _ _ Hq) as Hmax. pose proof (qo_empty _ _ _ _ _ _ _ Hq) as He. destruct (write_inv _ _ _ _ _ _ _ _ _ Hm Hd) as [Hm1 Hh1]. unfold msgsnd_end. wp_pure.
  set (m1 := set_mmem _ m) in *. assert (running A ((buf, Z.of_nat (length data)) :: X) (Some (q_full x)) G H W m1) as Hr1 by (by exists Q, T).
  apply wp_bind. eapply (wp_on_msgq _ _ x); [exact Ex|by apply enq_spec|]. intros [] y [Hy Hry]. rewrite length_fmap, Hmax, bool_decide_eq_false_2 in Hry by lia.
  apply wp_bind, wp_get_pid, wp_bind. eapply wp_upd_msgq; [by eapply put_msgq_at|]. rewrite put_msgq_put. set (x' := set_msg_qnum _ _).
  apply wp_bind. eapply wp_get_msgq; [by eapply put_msgq_at|]. apply wp_bind.
  eapply wp_mono; [apply (run_post (<[i := a_push data q]> A) X (<[i := l ++ [(MkMsg buf (Z.of_nat (length data)), data)]]> G) H W)|].
  - simpl. apply (run_enq A buf (Z.of_nat (length data)) X G H W m1 i l x x'); try done. simpl. congruence.
  - by eapply elem_of_dom_2.
  - intros o m' Hr'. apply wp_ret. split; [done|]. eexists. exact Hr'.
Qed.

Lemma run_free A a n X P G H W m :
  running A ((a, n) :: X) P G H W m -> wp (mm (msgq_free a)) m (λ _ m', exists mem', m' = set_mmem mem' m ∧ running A X P G H W m').
Proof.
  intros (Q & T & Hm & D & Hn & HA). eapply wp_mono; [by apply (free_inv a n X)|]. intros [] m' (mem' & -> & Hm'). exists mem'. split; [done|]. by exists Q, T.
Qed.

(** ** The end of a receive *)

Lemma rcv_end_spec A X G H W m i l x sz flg q :
  running A X (Some (q_empty x)) G H W m -> G !! i = Some l -> arr_get (msgq_heap m) i = Some x -> 0 <= sz -> A !! i = Some q ->
  wp (msgrcv_end i sz flg) m (λ r m', exists d l', a_msgs q = d :: l' ∧ r = deliver sz flg d ∧ exists G', running (<[i := a_pop sz flg d q]> A) X None G' H W m').
Proof.
  intros Hr Hl Ex Hsz Hqa. destruct (run_promise _ _ _ _ _ _ _ _ _ _ Hr Hl Ex) as [Hroom _]. specialize (Hroom eq_refl). destruct l as [|[k d] l]; [simpl in Hroom; lia|].
  destruct (Hr) as (Q & T & Hm & D & Hn & HA). destruct (m_data _ _ _ _ _ _ _ Hm i _ k d Hl ltac:(by left)) as (Hlen & [_ Hd] & Hread).
  assert (a_msgs q = d :: l.*2) as Hmsgs by (rewrite (absr_at _ _ _ _ _ _ _ HA Hl Ex) in Hqa; by injection Hqa as <-).
  destruct (m_queue _ _ _ _ _ _ _ Hm _ _ Hl) as (y & Ey & Hq). assert (y = x) as -> by congruence. pose proof (qo_ring _ _ _ _ _ _ _ Hq) as Hring.
  pose proof (qo_max _ _ _ _ _ _ _ Hq) as Hmax. pose proof (qo_full _ _ _ _ _ _ _ Hq) as Hf. unfold msgrcv_end.
  apply wp_bind. eapply (wp_on_msgq _ _ x); [exact Ex|by apply deq_spec|]. intros r y (Hy & -> & Hry). simpl in Hry. simpl list.head. apply wp_bind. eapply wp_lift; [done|].
  assert (running (<[i := a_tail q]> A) ((msg_buf k, msg_len k) :: X) (Some (q_full x)) (<[i := l]> G) H W (put_msgq i (set_msg_q y x) m)) as Hr1.
  { eapply run_deq; try done. simpl. congruence. }
  set (m1 := put_msgq i (set_msg_q y x) m) in *. rewrite Hlen. case_bool_decide as Hbig.
  - apply wp_bind. eapply wp_mono; [by apply (run_free _ _ _ _ _ _ _ _ _ Hr1)|]. intros [] m2 (mem' & -> & Hr2). apply wp_bind.
    eapply wp_mono; [apply (run_fail _ _ _ _ _ _ _ E2BIG (run_drop _ _ _ _ _ _ i l (set_msg_q y x) _ Hr2 ltac:(by rewrite lookup_insert_eq) ltac:(by eapply (put_msgq_at i _ x)) ltac:(by rewrite lookup_insert_eq)))|].
    intros o m' [-> Hr']. apply wp_ret. exists d, l.*2. split; [done|]. rewrite insert_insert_eq in Hr'. unfold deliver, a_pop, too_long. rewrite bool_decide_eq_true_2 by done. split; [done|]. eexists. exact Hr'.
  - cbv zeta. wp_pure. set (nbytes := if bool_decide (sz < Z.of_nat (length d)) then sz else Z.of_nat (length d)).
    assert (nbytes = Z.min sz (Z.of_nat (length d))) as Enb by (unfold nbytes; case_bool_decide; lia). clearbody nbytes. subst nbytes.
    apply wp_bind, wp_get_pid, wp_bind. eapply wp_upd_msgq; [by eapply put_msgq_at|]. unfold m1. rewrite put_msgq_put. set (x' := set_msg_qnum _ _).
    assert (running (<[i := a_tail q]> A) ((msg_buf k, msg_len k) :: X) (Some (q_full x)) (<[i := l]> G) H W (put_msgq i x' m)) as Hr2.
    { eapply run_deq; try done. simpl. congruence. }
    apply wp_bind. eapply wp_mono; [apply (run_free _ _ _ _ _ _ _ _ _ Hr2)|]. intros [] m2 (mem' & -> & Hr3).
    apply wp_bind. eapply wp_get_msgq; [by eapply (put_msgq_at i _ x)|]. apply wp_bind. eapply wp_mono; [apply (run_post _ _ _ _ _ _ _ Hr3); by eapply elem_of_dom_2|].
    intros o m' Hr'. apply wp_ret. exists d, l.*2. split; [done|]. unfold deliver, a_pop, too_long. rewrite (bool_decide_eq_false_2 _ Hbig). split; [|eexists; exact Hr'].
    rewrite s32_small by lia. f_equal. simpl. rewrite (read_take _ (msg_len k)) by lia. rewrite Hread. rewrite Z2Nat.inj_min, Nat2Z.id.
    destruct (decide (Z.to_nat sz <= length d)%nat); [by rewrite Nat.min_l|]. by rewrite Nat.min_r, !take_ge by lia.
Qed.

(** ** Calls *)

(** A call has returned, or another process runs. *)
Definition ended A (o : outcome) m : Prop :=
  match o with Done _ => exists G H W, running A [] None G H W m | Blocked => mgood A m end.
Lemma ended_done A G H W m r : running A [] None G H W m -> ended A (Done r) m.
Proof. by exists G, H, W. Qed.

Lemma finish_spec A o m : ended A o m -> wp (kern (finish o)) m (λ _ m', mgood A m').
Proof.
  destruct o as [r|]; simpl; [|intros Hg; apply wp_zoom, wp_ret; by rewrite set_mkern_id].
  intros (G & H & W & Hr). destruct (running_self _ _ _ _ _ _ _ Hr) as [HW _]. destruct (Hr) as (Q & T & Hm & D & Hn & HA). apply wp_zoom.
  eapply wp_mono; [by apply (client_exit (dom H) W Q0 T0 k0 Q T); [..|apply Hm|]|]. intros [] s' (Q' & T' & Hg & C & V). exists G, H, W, Q', T'.
  split_and!; [done|by eapply minv_kern|]. eapply absr_kern; [exact Hm|exact HA|]. intros j Hj. by rewrite V.
Qed.

Lemma valid_spec A X P G H W m i :
  running A X P G H W m -> wp (msgq_valid i) m (λ b m', m' = m ∧
    if b : bool then exists l x, G !! i = Some l ∧ arr_get (msgq_heap m) i = Some x ∧ queue_ok H W P (mkern m) i l x else A !! i = None).
Proof.
  intros (Q & T & Hm & D & Hn & HA). pose proof (m_heap _ _ _ _ _ _ _ Hm) as Hlen. pose proof ok_msgqs. unfold msgq_valid. case_bool_decide as Hi.
  - apply wp_ret. split; [done|]. apply (absr_none _ _ _ _ _ HA). destruct (G !! i) as [l|] eqn:Hl; [|done]. destruct (m_queue _ _ _ _ _ _ _ Hm i l Hl) as (x & Ex & _). apply arr_get_range in Ex. lia.
  - destruct (arr_get_Some (msgq_heap m) i ltac:(lia)) as [x Ex]. apply wp_bind. eapply wp_get_msgq; [done|]. apply wp_ret. split; [done|].
    destruct (G !! i) as [l|] eqn:Hl.
    + destruct (m_queue _ _ _ _ _ _ _ Hm i l Hl) as (x' & Ex' & Hq). assert (x' = x) as -> by congruence. rewrite bool_decide_eq_true_2 by (rewrite (qo_id _ _ _ _ _ _ _ Hq); lia).
      by exists l, x.
    + destruct (m_free _ _ _ _ _ _ _ Hm i x Ex Hl) as [E _]. rewrite bool_decide_eq_false_2 by auto. by apply (absr_none _ _ _ _ _ HA).
Qed.

(** The semaphores show the places and the messages that can be used without waiting. *)
Lemma queue_at A X G H W m i l x :
  running A X None G H W m -> G !! i = Some l -> arr_get (msgq_heap m) i = Some x ->
  exists q, A !! i = Some q ∧ a_room q = sval (q_full x) (mkern m) ∧ a_avail q = sval (q_empty x) (mkern m).
Proof.
  intros (Q & T & Hm & D & Hn & HA) Hl Ex. eexists. split; [exact (absr_at _ _ _ _ _ _ _ HA Hl Ex)|].
  unfold a_room, a_avail, abs_queue. cbn [a_msgs a_readers a_taken]. rewrite length_fmap, !promised_none. lia.
Qed.

(** The running process is suspended at an end of a queue. *)
Lemma wait_shift A X G H W m i l x q (b : bool) s' f :
  running A X None G H W m -> G !! i = Some l -> arr_get (msgq_heap m) i = Some x -> A !! i = Some q ->
  sval (if b then q_full x else q_empty x) s' = sval (if b then q_full x else q_empty x) (mkern m) - 1 -> keeps_others (dom H) (if b then q_full x else q_empty x) (mkern m) s' ->
  absr None G (set_mctx f (set_mkern s' m)) (<[i := (if b then add_taken else add_readers) 1 q]> A).
Proof.
  intros (Q & T & Hm & D & Hn & HA) Hl Ex Hq Hv Hot. apply (absr_shift X None None G H W Q m s' A i l x q b (-1)); try done.
  intros j Hj. rewrite promised_none. case_bool_decide as E; [subst j; lia|]. rewrite Hot by done. lia.
Qed.

Lemma waited_snd_spec A G H W m i l x buf data q :
  running A [(buf, Z.of_nat (length data))] (Some (q_full x)) G H W m -> G !! i = Some l -> arr_get (msgq_heap m) i = Some x -> data_ok data -> A !! i = Some q ->
  wp (msgsnd_waited i buf data (Done 0)) m (λ o m', o = Done 0 ∧ ended (<[i := a_push data q]> A) o m').
Proof.
  intros Hr Hl Ex Hd Hqa. destruct (Hr) as (Q & T & Hm & D & Hn & HA). destruct (m_queue _ _ _ _ _ _ _ Hm i l Hl) as (x' & Ex' & Hq). assert (x' = x) as -> by congruence.
  pose proof (arr_get_range _ _ _ Ex). unfold msgsnd_waited. cbn [is_error]. rewrite bool_decide_eq_false_2 by lia. apply wp_bind. eapply wp_get_msgq; [done|].
  rewrite bool_decide_eq_false_2 by (rewrite (qo_id _ _ _ _ _ _ _ Hq); lia). eapply wp_mono; [by apply (snd_end_spec A [] G H W m i l x buf data q)|].
  intros o m' (-> & G' & Hr'). split; [done|]. by eapply ended_done.
Qed.

Lemma waited_rcv_spec A G H W m i l x sz flg q :
  running A [] (Some (q_empty x)) G H W m -> G !! i = Some l -> arr_get (msgq_heap m) i = Some x -> 0 <= sz -> A !! i = Some q ->
  wp (msgrcv_waited i sz flg (Done 0)) m (λ r m', exists d l', a_msgs q = d :: l' ∧ r = deliver sz flg d ∧ ended (<[i := a_pop sz flg d q]> A) r.1 m').
Proof.
  intros Hr Hl Ex Hsz Hqa. destruct (Hr) as (Q & T & Hm & D & Hn & HA). destruct (m_queue _ _ _ _ _ _ _ Hm i l Hl) as (x' & Ex' & Hq). assert (x' = x) as -> by congruence.
  pose proof (arr_get_range _ _ _ Ex). unfold msgrcv_waited. cbn [is_error]. rewrite bool_decide_eq_false_2 by lia. apply wp_bind. eapply wp_get_msgq; [done|].
  rewrite bool_decide_eq_false_2 by (rewrite (qo_id _ _ _ _ _ _ _ Hq); lia). eapply wp_mono; [by apply (rcv_end_spec A [] G H W m i l x sz flg q)|].
  intros r m' (d & l' & Hmsgs & -> & G' & Hr'). exists d, l'. split_and!; [done|done|]. unfold deliver. destruct (too_long sz flg d) eqn:El; by eapply ended_done.
Qed.

Lemma msgsnd_spec A G H W m i data flg :
  running A [] None G H W m -> data_ok data ->
  wp (sys_msgsnd i data flg) m (λ o m', exists A', aspec A (OpSnd i data flg (has_block (Z.of_nat (length data)) m)) (o, []) A' ∧ ended A' o m').
Proof.
  intros Hr Hd. set (has := has_block _ m). set (R := λ o m', exists A', aspec A (OpSnd i data flg has) (o, []) A' ∧ ended A' o m').
  assert (forall m e, running A [] None G H W m -> A !! i = None ∨ has = false ∨ (Z.land flg IPC_NOWAIT ≠ 0 ∧ exists q, A !! i = Some q ∧ a_room q <= 0) -> wp (kern (fail e)) m R) as Hfail.
  { intros m1 e Hr1 Hwhy. eapply wp_mono; [by apply (run_fail _ _ _ _ _ _ _ e Hr1)|]. intros o m' [-> Hr']. exists A. split; [by apply a_not_sent|by eapply ended_done]. }
  unfold sys_msgsnd. apply wp_bind. eapply wp_mono; [by apply (valid_spec _ _ _ _ _ _ _ i Hr)|]. intros b m' [-> Hb]. destruct b; simpl negb; cbv iota; [|by apply Hfail; auto].
  destruct Hb as (l & x & Hl & Ex & Hq). destruct (Hr) as (Q & T & Hm & D & Hn & HA). apply wp_bind.
  eapply wp_mono; [by apply (malloc_inv [] None G H W Q m (Z.of_nat (length data))); [done|lia]|]. intros buf m1 (Hhas & mem' & -> & Hm1). fold has in Hhas.
  assert (running A (if bool_decide (buf = 0) then [] else [(buf, Z.of_nat (length data))]) None G H W (set_mmem mem' m)) as Hr1 by (by exists Q, T).
  case_bool_decide as Hbuf; [by apply Hfail; auto|]. simpl in Hhas. clearbody has. subst has. set (m1 := set_mmem mem' m) in *. apply wp_bind. eapply (wp_get_msgq _ x); [done|].
  pose proof (qo_full _ _ _ _ _ _ _ Hq) as Hf. destruct (queue_at _ _ _ _ _ _ _ _ _ Hr1 Hl Ex) as (q & Hqa & Hroom & _). case_bool_decide as Hflg.
  - apply wp_bind. eapply wp_mono; [apply (run_trywait _ _ _ _ _ _ (q_full x) Hr1); by eapply elem_of_dom_2|]. intros o m2 (s' & -> & [(-> & Hpos & Hr2)|(-> & Hpos & Hr2)]); cbn [is_error].
    + rewrite bool_decide_eq_false_2 by lia. eapply wp_mono; [by apply (snd_end_spec A [] G H W _ i l x buf data q)|].
      intros o m' (-> & G' & Hr'). eexists. split; [apply a_sent; [done|lia]|by eapply ended_done].
    + rewrite bool_decide_eq_true_2 by lia. apply wp_bind. eapply wp_mono; [by apply (run_free _ _ _ _ _ _ _ _ _ Hr2)|]. intros [] m2 (mem2 & -> & Hr3).
      apply Hfail; [done|]. right. right. split; [done|]. exists q. split; [done|lia].
  - apply wp_bind, wp_get_pid, wp_bind. eapply wp_mono; [apply (run_wait A [] _ _ _ _ (q_full x) (MSend i buf data) Hr1); done|].
    intros o m2 (s' & -> & Ho). destruct (running_self _ _ _ _ _ _ _ Hr1) as [_ Hcur]. destruct o as [r|].
    + destruct Ho as (-> & Hpos & Hr2). eapply wp_mono; [by apply (waited_snd_spec A G H W _ i l x buf data q)|]. intros o m' [-> He]. eexists. split; [apply a_sent; [done|lia]|done].
    + destruct Ho as (Hpos & Hv & Hot & Q' & T' & Hg & Hm2). wp_pure. eexists. split; [apply (a_send_waits _ _ _ _ q); [done|lia|by destruct (decide (Z.land flg IPC_NOWAIT = 0))]|].
      rewrite Hcur. eexists _, _, _, _, _. split_and!; [exact Hg|exact Hm2|]. by apply (wait_shift A _ G H W m1 i l x q true s' _ Hr1).
Qed.

Lemma msgrcv_spec A G H W m i sz flg :
  running A [] None G H W m -> 0 <= sz ->
  wp (sys_msgrcv i sz flg) m (λ r m', exists A', aspec A (OpRcv i sz flg) r A' ∧ ended A' r.1 m').
Proof.
  intros Hr Hsz. unfold sys_msgrcv. apply wp_bind. eapply wp_mono; [by apply (valid_spec _ _ _ _ _ _ _ i Hr)|]. intros b m' [-> Hb]. destruct b; simpl negb; cbv iota.
  2: { apply wp_bind. eapply wp_mono; [by apply (run_fail _ _ _ _ _ _ _ EINVAL Hr)|]. intros o m' [-> Hr']. apply wp_ret. exists A. split; [|by eapply ended_done].
       apply a_not_received. by left. }
  destruct Hb as (l & x & Hl & Ex & Hq). pose proof (qo_empty _ _ _ _ _ _ _ Hq) as He. pose proof (arr_get_range _ _ _ Ex). apply wp_bind. eapply (wp_get_msgq _ x); [done|].
  destruct (queue_at _ _ _ _ _ _ _ _ _ Hr Hl Ex) as (q & Hqa & _ & Hav). case_bool_decide as Hflg.
  - apply wp_bind. eapply wp_mono; [apply (run_trywait _ _ _ _ _ _ (q_empty x) Hr); by eapply elem_of_dom_2|]. intros o m2 (s' & -> & [(-> & Hpos & Hr2)|(-> & Hpos & Hr2)]); cbn [is_error].
    + rewrite bool_decide_eq_false_2 by lia. eapply wp_mono; [by apply (rcv_end_spec A [] G H W _ i l x sz flg q)|].
      intros r m' (d & l' & Hmsgs & -> & G' & Hr'). eexists. split; [eapply a_received; [done|lia|done]|]. unfold deliver. destruct (too_long sz flg d) eqn:El; by eapply ended_done.
    + rewrite bool_decide_eq_true_2 by lia. apply wp_ret. exists A. split; [|by eapply ended_done]. apply a_not_received. right. split; [done|]. exists q. split; [done|lia].
  - apply wp_bind, wp_get_pid, wp_bind. eapply wp_mono; [apply (run_wait A [] _ _ _ _ (q_empty x) (MRecv i sz flg) Hr); done|].
    intros o m2 (s' & -> & Ho). destruct (running_self _ _ _ _ _ _ _ Hr) as [_ Hcur]. destruct o as [r|].
    + destruct Ho as (-> & Hpos & Hr2). eapply wp_mono; [by apply (waited_rcv_spec A G H W _ i l x sz flg q)|].
      intros r m' (d & l' & Hmsgs & -> & He'). eexists. split; [eapply a_received; [done|lia|done]|done].
    + destruct Ho as (Hpos & Hv & Hot & Q' & T' & Hg & Hm2). wp_pure. eexists. split; [apply (a_receive_waits _ _ _ _ q); [done|lia|done]|].
      rewrite Hcur. eexists _, _, _, _, _. split_and!; [exact Hg|exact Hm2|]. by apply (wait_shift A _ G H W m i l x q false s' _ Hr).
Qed.

(** Without [IPC_RMID], the control call changes nothing. *)
Lemma msgctl_spec A G H W m i cmd buf :
  running A [] None G H W m -> cmd ≠ IPC_RMID -> wp (sys_msgctl i cmd buf) m (λ r m', running A [] None G H W m').
Proof.
  intros Hr Hcmd. assert (forall m (r : Z * option (Z * Z * Z * Z)), running A [] None G H W m -> wp (kern (kerrno EINVAL);; mret r) m (λ r m', running A [] None G H W m')) as Hfail.
  { intros m1 r Hr1. apply wp_bind. eapply wp_mono; [by apply (run_errno _ _ _ _ _ _ _ EINVAL Hr1)|]. intros [] m' Hr'. by apply wp_ret. }
  unfold sys_msgctl. apply wp_bind. eapply wp_mono; [by apply (valid_spec _ _ _ _ _ _ _ i Hr)|]. intros b m' [-> Hb]. destruct b; simpl negb; cbv iota; [|by apply Hfail].
  destruct Hb as (l & x & Hl & Ex & Hq). apply wp_bind. eapply (wp_get_msgq _ x); [done|]. case_bool_decide; [destruct buf; [by apply wp_ret|by apply Hfail]|].
  rewrite bool_decide_eq_false_2 by done. case_bool_decide; [by apply wp_ret|by apply Hfail].
Qed.

(** ** A new queue *)

Lemma minv_new G H W Q m Q' s' i x x' jf je :
  minv [] None G H W Q m -> G !! i = None -> arr_get (msgq_heap m) i = Some x ->
  cinv ({[je]} ∪ ({[jf]} ∪ dom H)) W Q' s' -> (forall j, j ∈ dom H -> sval j s' = sval j (mkern m)) ->
  jf ∉ dom H -> je ∉ ({[jf]} ∪ dom H : gset Z) -> sval jf s' = MSGQ_CAPACITY -> sval je s' = 0 ->
  msgid x' = i -> msgq_len x' = MSGQ_CAPACITY -> q_full x' = jf -> q_empty x' = je -> ring [] (msg_q x') -> max_items (msg_q x') = MSGQ_CAPACITY ->
  minv [] None (<[i := []]> G) (<[je := (i, false)]> (<[jf := (i, true)]> H)) W Q' (set_mkern s' (put_msgq i x' m)).
Proof.
  intros Hm Hi Ex HC HV Hjf Hje Vf Ve X1 X2 X3 X4 X5 X6. pose proof (arr_get_range _ _ _ Ex) as Hrg. destruct (Hm) as [M1 M2 M3 M4 M5 M6 M7 M8 M9].
  assert (je ≠ jf) as Hne by set_solver. apply not_elem_of_dom in Hjf as Hjf'. assert (H !! je = None) as Hje' by (apply not_elem_of_dom; set_solver).
  assert (arr_get (msgq_heap (put_msgq i x' m)) i = Some x') as Ei by (by eapply put_msgq_at).
  assert (forall k, k ≠ i -> arr_get (msgq_heap (put_msgq i x' m)) k = arr_get (msgq_heap m) k) as Eo by (intros k Hk; eapply arr_get_set_ne; [apply arr_set_in; lia|auto]).
  assert (forall j e, H !! j = Some e -> (<[je := (i, false)]> (<[jf := (i, true)]> H)) !! j = Some e) as Hkeep.
  { intros j e Hj. rewrite !lookup_insert_ne; [done|congruence|congruence]. }
  assert (forall j, H !! j = None -> waiting W j = 0) as Hw0.
  { intros j Hj. unfold waiting. replace (filter _ W) with (∅ : gmap Z Z); [done|]. symmetry. apply map_empty. intros p. apply map_lookup_filter_None. right. intros k Hk Hkj. simpl in Hkj. subst k.
    pose proof (M2 p) as Hp. destruct (mctx m !! p) as [f|]; [|congruence]. destruct Hp as (j' & E1 & E2). simpl in *. congruence. }
  simpl in Ei, Eo. constructor; try done; simpl.
  - by rewrite !dom_insert_L.
  - intros p. specialize (M2 p). destruct (mctx m !! p) as [f|]; [|done]. destruct M2 as (j & Hj & HH). exists j. split; [done|]. by apply Hkeep.
  - intros j k b Hj. apply lookup_insert_Some in Hj as [[<- [= <- <-]]|[_ Hj]]; [exists x'; by rewrite lookup_insert_eq, Ei|].
    apply lookup_insert_Some in Hj as [[<- [= <- <-]]|[_ Hj]]; [exists x'; by rewrite lookup_insert_eq, Ei|].
    destruct (M3 j k b Hj) as (y & Hy & Ey & Hb). assert (k ≠ i) by (intros ->; rewrite Hi in Hy; by destruct Hy). exists y. by rewrite lookup_insert_ne, Eo by done.
  - by rewrite length_insert.
  - intros k y Ey Hk. apply lookup_insert_None in Hk as [Hk Hki]. apply (M5 k); [|done]. by rewrite <- Eo.
  - intros k l Hk. apply lookup_insert_Some in Hk as [[<- <-]|[Hki Hk]].
    + exists x'. split; [done|]. rewrite <- X3 in *. rewrite <- X4 in *. constructor; try done; unfold promised; rewrite ?bool_decide_eq_false_2 by done.
      * by rewrite lookup_insert_ne, lookup_insert_eq by done.
      * by rewrite lookup_insert_eq.
      * simpl. rewrite Ve, Hw0 by done. done.
      * simpl. rewrite Vf, Hw0 by done. lia.
    + destruct (M6 k l Hk) as (y & Ey & [U1 U2 U3 U4 U5 U6 U7 U8]). exists y. rewrite Eo by done. split; [done|].
      constructor; try done; [by apply Hkeep|by apply Hkeep|..]; rewrite HV by (by eapply elem_of_dom_2); done.
  - eapply mem_ok_perm; [|exact M7]. unfold blocks. simpl. by rewrite gather_insert.
  - intros k l kk d Hk. apply lookup_insert_Some in Hk as [[<- <-]|[_ Hk]]; [by intros ?%elem_of_nil|]. by apply (M8 k).
Qed.

Lemma new_msgq_spec A G H W m i x key :
  running A [] None G H W m -> G !! i = None -> arr_get (msgq_heap m) i = Some x -> (2 <= free_sems (mkern m))%nat ->
  wp (new_msgq i key) m (λ r m', r = i ∧ exists H', running (<[i := MkAq key [] 0 0]> A) [] None (<[i := []]> G) H' W m').
Proof.
  intros Hr Hi Ex Hfree. destruct (running_self _ _ _ _ _ _ _ Hr) as [HW Hcur]. destruct (Hr) as (Q & T & Hm & D & Hn & HA). pose proof ok_capacity.
  destruct (m_free _ _ _ _ _ _ _ Hm i x Ex Hi) as (F1 & F2 & F3 & F4).
  destruct (free_find (mkern m) ltac:(lia)) as (k & y & Ef). unfold new_msgq, msg_sem.
  apply wp_bind. eapply wp_upd_msgq; [exact Ex|]. set (x1 := set_msgq_key _ _). apply wp_bind. eapply wp_get_msgq; [by eapply put_msgq_at|].
  apply wp_bind, wp_bind, wp_zoom. change (msgq_len x1) with (msgq_len x). rewrite F2.
  eapply wp_mono; [apply (client_new (dom H) W Q T (mkern m) MSGQ_CAPACITY k y); [apply D|apply Hm|congruence|by rewrite Hcur|lia|done]|].
  intros r s1 (-> & Hk & Vk & V1 & Eh & Q1 & D1 & C1). cbn [fst snd]. set (jf := Z.of_nat k) in *. pose proof (free_taken _ _ _ _ _ Ef Eh ltac:(simpl; lia)) as Hfr.
  change (set_mkern s1 (put_msgq i x1 m)) with (put_msgq i x1 (set_mkern s1 m)).
  apply wp_bind. eapply wp_upd_msgq; [by apply (put_msgq_at i _ x)|]. rewrite put_msgq_put. set (x2 := set_q_full jf x1).
  apply wp_ret. change (bool_decide (0 <= 0)) with true. cbn [negb]. destruct (free_find s1 ltac:(lia)) as (k2 & y2 & Ef2). apply wp_bind, wp_bind, wp_zoom.
  change (mkern (put_msgq i x2 (set_mkern s1 m))) with s1.
  eapply wp_mono; [apply (client_new ({[jf]} ∪ dom H) W Q1 T s1 0 k2 y2); [apply D1|done|rewrite (dn_cur _ _ _ _ _ _ D1); congruence|by rewrite (dn_cur _ _ _ _ _ _ D1), Hcur|lia|done]|].
  intros r s2 (-> & Hk2 & Vk2 & V2 & Eh2 & Q2 & D2 & C2). cbn [fst snd]. set (je := Z.of_nat k2) in *.
  change (set_mkern s2 (put_msgq i x2 (set_mkern s1 m))) with (put_msgq i x2 (set_mkern s2 m)).
  apply wp_bind. eapply wp_upd_msgq; [by apply (put_msgq_at i _ x)|]. rewrite put_msgq_put. set (x3 := set_q_empty je x2).
  apply wp_ret. change (bool_decide (0 <= 0)) with true. cbn [negb].
  assert (wp qinit (msg_q x3) (λ _ y, ring [] y ∧ max_items y = MSGQ_CAPACITY)) as Hq.
  { unfold qinit. wp_pure. split; [|done]. constructor; simpl; rewrite ?F3; try done; try lia. }
  apply wp_bind. eapply wp_on_msgq; [by apply (put_msgq_at i _ x)|exact Hq|]. intros [] y' [Hring Hmax]. rewrite put_msgq_put.
  apply wp_bind. eapply wp_upd_msgq; [by apply (put_msgq_at i _ x)|]. rewrite put_msgq_put. set (x4 := set_msg_lrpid 0 _). apply wp_ret. split; [done|].
  assert (forall j, j ∈ dom H -> sval j s2 = sval j (mkern m)) as HV by (intros j Hj; rewrite V2 by (apply elem_of_union; by right); by apply V1).
  assert (sval jf s2 = MSGQ_CAPACITY) as Vf by (by rewrite V2 by (apply elem_of_union; left; by apply elem_of_singleton)).
  eexists. exists Q2, T. split_and!; [| |done|].
  - by apply (minv_new G H W Q m Q2 s2 i x x4 jf je).
  - eapply done_trans; [exact D|]. by eapply done_trans.
  - apply (absr_put None None G (set_mkern s2 m) A i [] x x4); [|done| |done].
    + eapply absr_kern; [exact Hm|exact HA|]. intros j Hj. by rewrite HV.
    + unfold abs_queue. simpl. rewrite !promised_none, Vf, Vk2. f_equal; lia.
Qed.

Lemma arr_get_elem {B} (l : list B) i x : arr_get l i = Some x -> x ∈ l.
Proof. intros E. pose proof (arr_get_range _ _ _ E). rewrite arr_get_lookup in E by lia. by eapply list_elem_of_lookup_2. Qed.

(** Which queues have which keys. *)
Lemma no_key A X P G H W Q m key :
  minv X P G H W Q m -> absr P G m A -> list_find (λ x, msgid x ≠ -1 ∧ msgq_key x = key) (msgq_heap m) = None -> forall i q, A !! i = Some q -> a_key q ≠ key.
Proof.
  intros Hm HA Hn i q Hq Hk. destruct (absr_inv _ _ _ _ _ _ HA Hq) as (l & x & Hl & Ex & ->). simpl in Hk.
  destruct (m_queue _ _ _ _ _ _ _ Hm _ _ Hl) as (x' & Ex' & Hq'). assert (x' = x) as -> by congruence. pose proof (qo_id _ _ _ _ _ _ _ Hq') as Hid. pose proof (arr_get_range _ _ _ Ex).
  apply list_find_None in Hn. rewrite list.Forall_forall in Hn. apply (Hn x); [by eapply arr_get_elem|]. split; [lia|done].
Qed.
Lemma no_free A X P G H W Q m :
  minv X P G H W Q m -> absr P G m A -> list_find (λ x, msgid x = -1) (msgq_heap m) = None -> forall i, 0 <= i < NUM_MSGQS -> is_Some (A !! i).
Proof.
  intros Hm HA Hn i Hi. pose proof (m_heap _ _ _ _ _ _ _ Hm) as Hlen. destruct (arr_get_Some (msgq_heap m) i ltac:(lia)) as [x Ex]. destruct (G !! i) as [l|] eqn:Hl; [by eexists; eapply absr_at|].
  destruct (m_free _ _ _ _ _ _ _ Hm i x Ex Hl) as [E _]. apply list_find_None in Hn. rewrite list.Forall_forall in Hn. by destruct (Hn x (arr_get_elem _ _ _ Ex)).
Qed.

Lemma msgget_spec A G H W m key flg :
  running A [] None G H W m -> (2 <= free_sems (mkern m))%nat ->
  wp (sys_msgget key flg) m (λ r m', exists A', aspec A (OpGet key flg) (Done r, []) A' ∧ ended A' (Done r) m').
Proof.
  intros Hr Hfree. destruct (Hr) as (Q & T & Hm & D & Hn & HA). pose proof (m_heap _ _ _ _ _ _ _ Hm) as Hlen. set (R := λ r m', exists A', aspec A (OpGet key flg) (Done r, []) A' ∧ ended A' (Done r) m').
  assert (aspec A (OpGet key flg) (Done (-1), []) A -> R (-1) m) as Hsame by (intros Ha; exists A; split; [done|by eapply ended_done]).
  assert (forall e, aspec A (OpGet key flg) (Done (-1), []) A -> wp (kern (kerrno e);; mret (-1)) m R) as Hfail.
  { intros e Ha. apply wp_bind. eapply wp_mono; [by apply (run_errno _ _ _ _ _ _ _ e Hr)|]. intros [] m' Hr'. apply wp_ret. exists A. split; [done|by eapply ended_done]. }
  unfold sys_msgget, get_msgid_by_key. wp_pure. destruct (list_find _ (msgq_heap m)) as [[k x]|] eqn:Ek.
  - apply list_find_Some in Ek as (Ex & [Hid Hkey] & _). rewrite <- arr_get_nat in Ex. destruct (G !! Z.of_nat k) as [l|] eqn:Hl; [|by destruct (m_free _ _ _ _ _ _ _ Hm _ x Ex Hl) as [E _]].
    pose proof (absr_at _ _ _ _ _ _ _ HA Hl Ex) as Hq. case_bool_decide as H1; [apply Hfail; eapply a_exists; [exact Hq|done|tauto]|].
    case_bool_decide as H2; [|apply wp_ret, Hsame; eapply a_exists; [exact Hq|done|lia]]. apply wp_bind. eapply wp_get_msgq; [exact Ex|]. apply wp_ret.
    destruct (m_queue _ _ _ _ _ _ _ Hm _ _ Hl) as (x' & Ex' & Hq'). assert (x' = x) as -> by congruence. rewrite (qo_id _ _ _ _ _ _ _ Hq').
    exists A. split; [|by eapply ended_done]. eapply a_got; [exact Hq|done|done|]. destruct (decide (Z.land flg IPC_EXCL = 0)); tauto.
  - pose proof (no_key _ _ _ _ _ _ _ _ _ Hm HA Ek) as Hno. case_bool_decide as Hp; [apply wp_ret, Hsame, a_not_created; auto|]. case_bool_decide as Hc; [apply Hfail, a_not_created; auto|]. wp_pure.
    destruct (list_find (λ x, msgid x = -1) (msgq_heap m)) as [[k' x]|] eqn:Ef; [|apply Hfail, a_not_created; [done|]; right; right; by eapply no_free].
    apply list_find_Some in Ef as (Ex & Hx & _). rewrite <- arr_get_nat in Ex. pose proof (arr_get_range _ _ _ Ex). assert (G !! Z.of_nat k' = None) as Hl.
    { destruct (G !! Z.of_nat k') as [l|] eqn:Hl; [|done]. destruct (m_queue _ _ _ _ _ _ _ Hm _ _ Hl) as (x' & Ex' & Hq). assert (x' = x) as -> by congruence.
      rewrite (qo_id _ _ _ _ _ _ _ Hq) in Hx. lia. }
    eapply wp_mono; [by apply (new_msgq_spec A G H W m (Z.of_nat k') x)|]. intros r m' (-> & H' & Hr'). eexists. split; [|by eapply ended_done].
    apply a_created; [done|done|done|lia|]. by apply (absr_none _ _ _ _ _ HA).
Qed.
End running.
End ops.
