(* ===== verification/KmsgFifo.v ===== *)
(** * The message queues refine abstract queues

    The kernel with message calls is a transition system over Kernel.v. Every run
    of it that does not remove queues is a run of abstract queues of messages, and
    none of its steps is undefined. *)

From stdpp Require Import gmap.
From S2P Require Import Prelude Kqueue Kheap Ktimer Ksched Ksem Kmutex Kinv Kops Kernel Ksafe Kinit Kreach Kframe Kcount Kwait Kclient Kmsg KmsgInv KmsgOps KmsgPool.
Open Scope Z_scope.

Section fifo.
Context {KC : KConfig} {KOK : KConfigOk KC} {MC : MsgConfig} {MCOK : MsgConfigOk MC} {MM : MsgMem} {MOK : MsgMemOk MM}.
Implicit Types (m : mst MM) (G : contents) (H : owners) (W : gmap Z Z) (Q : qmap) (T : list soft_tmr) (A : aqueues).

(** ** Runs *)

Definition menabled (e : mevent) m : Prop :=
  match e with
  | MCall c => cur_ctx (mkern m) = None ∧ current_pid (mkern m) ≠ idle_task_pid ∧ match c with MKern c => call_ok c | _ => True end
  | MResume => cur_ctx (mkern m) ≠ None
  | MTick => cur_ctx (mkern m) = None
  end.

(** What the programs keep to: they send bytes, receive with sizes of the type
    [size_t], make queues while there are two semaphores for them, do not remove
    them, do not wait with a time limit, and leave the semaphores of the queues
    alone. *)
Definition mfair (e : mevent) m : Prop :=
  match e with
  | MCall (MGet _ _) => (2 <= free_sems (mkern m))%nat
  | MCall (MCtl _ cmd _) => cmd ≠ IPC_RMID
  | MCall (MSnd _ data _) => data_ok data
  | MCall (MRcv _ sz _) => is_u32 sz
  | MCall (MKern c) => tame (ECall c) (mkern m) ∧
      Forall (λ x, msgid x ≠ -1 -> apart (q_full x) c (mkern m) ∧ apart (q_empty x) c (mkern m)) (msgq_heap m)
  | MResume | MTick => True
  end.

(** The operation that a step completes or suspends. *)
Definition op_of (e : mevent) m : mop :=
  match e with
  | MCall (MSnd id data flg) => OpSnd id data flg (has_block (Z.of_nat (length data)) m)
  | MCall (MRcv id sz flg) => OpRcv id sz flg
  | MCall (MGet key flg) => OpGet key flg
  | MResume =>
      match mctx m !! current_pid (mkern m) with
      | Some (MSend id _ data) => OpSndOn id data
      | Some (MRecv id sz flg) => OpRcvOn id sz flg
      | None => OpOther
      end
  | _ => OpOther
  end.

Inductive mruns : mst MM -> list (mop * (outcome * list Z)) -> mst MM -> Prop :=
  | mruns_nil m : mruns m [] m
  | mruns_cons m e r m1 tr m2 : menabled e m -> mfair e m -> mstep e m = Some (r, m1) -> mruns m1 tr m2 -> mruns m ((op_of e m, r) :: tr) m2.

(** Runs of the abstract queues. *)
Inductive aruns : aqueues -> list (mop * (outcome * list Z)) -> aqueues -> Prop :=
  | aruns_nil A : aruns A [] A
  | aruns_cons A o r A1 tr A2 : aspec A o r A1 -> aruns A1 tr A2 -> aruns A ((o, r) :: tr) A2.

(** Running a sequence of events. *)
#[export] Instance apart_dec j c s : Decision (apart j c s).
Proof.
  destruct c as [| | | | | |[]|[]| |[]|[]|[]|[]|[]|[]| |[]|[]|[]|[]]; simpl; try apply _.
  all: destruct (arr_get (sem_map s) j) as [e|]; [destruct (name_eq (sm_name e) name) eqn:En; [right; intros Hf; by rewrite (Hf e) in En|left; by intros ? [= <-]]|by left].
Defined.
#[export] Instance menabled_dec e m : Decision (menabled e m).
Proof. destruct e as [[]| |]; apply _. Defined.
#[export] Instance mfair_dec e m : Decision (mfair e m).
Proof. destruct e as [[]| |]; cbn [mfair]; unfold data_ok, is_u32; apply _. Defined.

Fixpoint mexec (es : list mevent) m : option (list (mop * (outcome * list Z)) * mst MM) :=
  match es with
  | [] => Some ([], m)
  | e :: es =>
      if decide (menabled e m ∧ mfair e m) then
        match mstep e m with
        | Some (r, m1) => match mexec es m1 with Some (tr, m2) => Some ((op_of e m, r) :: tr, m2) | None => None end
        | None => None
        end
      else None
  end.
Lemma mexec_runs es : forall m tr m', mexec es m = Some (tr, m') -> mruns m tr m'.
Proof.
  induction es as [|e es IH]; intros m tr m' E; simpl in E; [injection E as <- <-; constructor|]. destruct (decide (menabled e m ∧ mfair e m)) as [[He Hf]|]; [|done].
  destruct (mstep e m) as [[r m1]|] eqn:Es; [|done]. destruct (mexec es m1) as [[tr2 m2]|] eqn:Ex; [|done]. injection E as <- <-. econstructor; eauto.
Qed.

Definition mend (es : list mevent) m : mst MM := match mexec es m with Some (_, m') => m' | None => m end.
Lemma mexec_end es m tr : fst <$> mexec es m = Some tr -> mruns m tr (mend es m).
Proof. intros E. apply (mexec_runs es). unfold mend. destruct (mexec es m) as [[tr' m']|]; [|done]. by injection E as ->. Qed.

(** ** Steps *)

Lemma wp_kern {B} (f : ST kst B) m a s' (R : B -> mst MM -> Prop) : f (mkern m) = Some (a, s') -> R a (set_mkern s' m) -> wp (kern f) m R.
Proof. intros E HR. apply wp_zoom. apply wp_run. by exists a, s'. Qed.

Lemma get_proc_run s p x : arr_get (ptable s) p = Some x -> get_proc p s = Some (x, s).
Proof. intros E. unfold get_proc, mbind, st_bind, gets, lift. by rewrite E. Qed.

(** A process outside of a call has no frame. *)
Lemma no_frame H W Q T m G X P : minv X P G H W Q m -> kgood Q T (mkern m) -> cur_ctx (mkern m) = None -> mctx m !! current_pid (mkern m) = None.
Proof.
  intros Hm Hg Hc. pose proof (m_ctx _ _ _ _ _ _ _ Hm (current_pid (mkern m))) as Hx. destruct (mctx m !! current_pid (mkern m)) as [f|]; [|done].
  destruct Hx as (j & Hj & _). destruct (i_cur _ _ _ (g_inv _ _ _ Hg)) as (x & E & _). destruct (ci_procs _ _ _ _ (m_client _ _ _ _ _ _ _ Hm) _ x E j Hj) as [Hk _].
  unfold cur_ctx in Hc. rewrite E in Hc. simpl in Hc. congruence.
Qed.

Lemma mgood_kern A G m H W Q Q' T' s' :
  minv [] None G H W Q m -> absr None G m A -> kgood Q' T' s' -> cinv (dom H) W Q' s' -> (forall j, j ∈ dom H -> sval j s' = sval j (mkern m)) -> mgood A (set_mkern s' m).
Proof. intros Hm HA Hg C V. exists G, H, W, Q', T'. split_and!; [done|by eapply minv_kern|]. eapply absr_kern; [exact Hm|exact HA|]. intros j Hj. by rewrite V. Qed.

Lemma kernel_call_step A m c :
  mgood A m -> menabled (MCall (MKern c)) m -> mfair (MCall (MKern c)) m -> wp (mstep (MCall (MKern c))) m (λ _ m', mgood A m').
Proof.
  intros (G & H & W & Q & T & Hg & Hm & HA) (Hctx & Hid & Hok) [Ht Ha]. assert (W !! current_pid (mkern m) = None) as HW.
  { pose proof (m_ctx _ _ _ _ _ _ _ Hm (current_pid (mkern m))) as Hx. by rewrite (no_frame _ _ _ _ _ _ _ _ Hm Hg Hctx) in Hx. }
  assert (forall j, j ∈ dom H -> apart j c (mkern m)) as Hap.
  { intros j [[i b] Hj]%elem_of_dom. destruct (m_own _ _ _ _ _ _ _ Hm _ _ _ Hj) as (x & [l Hl] & Ex & ->). destruct (m_queue _ _ _ _ _ _ _ Hm _ _ Hl) as (x' & Ex' & Hq).
    assert (x' = x) as -> by congruence. pose proof (arr_get_range _ _ _ Ex). rewrite arr_get_lookup in Ex by lia. rewrite list.Forall_lookup in Ha.
    destruct (Ha _ _ Ex) as [H1 H2]; [rewrite (qo_id _ _ _ _ _ _ _ Hq); lia|]. by destruct b. }
  pose proof (kstep_spec Q T (mkern m) (ECall c) Hg (conj Hctx (conj Hid Hok))) as Hs. apply wp_run in Hs as (r & s' & E & _).
  destruct (call_cinv (dom H) W Q T (mkern m) c r s' Hg (m_client _ _ _ _ _ _ _ Hm) (conj Hctx (conj Hid Hok)) Ht HW Hap E) as (Q' & T' & Hg' & C' & V').
  cbn [kstep] in E. apply bind_inv in E as (o & s1 & E1 & E). apply bind_inv in E as ([] & s2 & E2 & [= _ ->]).
  cbn [mstep run_mcall]. wp_pure. eapply wp_kern; [exact E1|]. apply wp_ret, wp_bind. eapply wp_kern; [exact E2|]. apply wp_ret. exact (mgood_kern A G m H W Q Q' T' s' Hm HA Hg' C' V').
Qed.

Lemma tick_mstep A m : mgood A m -> wp (mstep MTick) m (λ _ m', mgood A m').
Proof.
  intros (G & H & W & Q & T & Hg & Hm & HA). pose proof (tick_step Q T (mkern m) Hg) as Hs. apply wp_run in Hs as (r & s' & E & _).
  destruct (tick_cinv (dom H) W Q T (mkern m) r s' Hg (m_client _ _ _ _ _ _ _ Hm) E) as (Q' & T' & Hg' & C' & V').
  cbn [kstep] in E. apply bind_inv in E as ([] & s1 & E1 & [= _ ->]). cbn [mstep]. apply wp_bind. eapply wp_kern; [exact E1|]. apply wp_ret. exact (mgood_kern A G m H W Q Q' T' s' Hm HA Hg' C' V').
Qed.

(** Another process of the kernel goes on. *)
Lemma other_resume_step A m :
  mgood A m -> menabled MResume m -> mctx m !! current_pid (mkern m) = None -> wp (mstep MResume) m (λ _ m', mgood A m').
Proof.
  intros (G & H & W & Q & T & Hg & Hm & HA) He Hn. assert (W !! current_pid (mkern m) = None) as HW.
  { pose proof (m_ctx _ _ _ _ _ _ _ Hm (current_pid (mkern m))) as Hx. by rewrite Hn in Hx. }
  pose proof (kstep_spec Q T (mkern m) EResume Hg He) as Hs. apply wp_run in Hs as (r & s' & E & _).
  destruct (resume_cinv (dom H) W Q T (mkern m) r s' Hg (m_client _ _ _ _ _ _ _ Hm) He HW E) as (Q' & T' & Hg' & C' & V').
  cbn [kstep] in E. apply bind_inv in E as (p & s0 & [= <- <-] & E). apply bind_inv in E as (x & s0 & Ex & E). apply bind_inv in E as (f & s1 & Ef & E).
  apply bind_inv in E as ([] & s2 & E2 & E). apply bind_inv in E as (o & s3 & E3 & E). apply bind_inv in E as ([] & s4 & E4 & [= _ ->]).
  assert (s1 = s0 ∧ kctx x = Some f) as [-> Ek] by (unfold lift in Ef; destruct (kctx x); by simplify_eq).
  cbn [mstep]. apply wp_bind. eapply wp_kern; [done|]. apply wp_bind. eapply wp_kern; [exact Ex|]. apply wp_bind. eapply wp_lift; [exact Ek|].
  apply wp_bind. eapply wp_kern; [exact E2|]. apply wp_bind. eapply wp_kern; [exact E3|]. wp_pure. simpl mctx. rewrite Hn. wp_pure. apply wp_bind. eapply wp_kern; [exact E4|].
  apply wp_ret. exact (mgood_kern A G m H W Q Q' T' s' Hm HA Hg' C' V').
Qed.

Lemma minv_resume G H W Q m p j f s0 :
  minv [] None G H W Q m -> W !! p = Some j -> mctx m !! p = Some f -> H !! j = Some (frame_end f) ->
  cinv (dom H) (delete p W) Q s0 -> (forall i, sval i s0 = sval i (mkern m)) ->
  minv (frame_blocks f) (Some j) G H (delete p W) Q (set_mctx (delete p (mctx m)) (set_mkern s0 m)).
Proof.
  intros [M1 M2 M3 M4 M5 M6 M7 M8 M9] HW Hf HH HC HV. constructor; try done; simpl.
  - intros r. destruct (decide (r = p)) as [->|Hr]; [by rewrite !lookup_delete_eq|]. rewrite !lookup_delete_ne by done. apply M2.
  - intros i l Hl. destruct (M6 i l Hl) as (x & E & [U1 U2 U3 U4 U5 U6 U7 U8]). exists x. split; [done|].
    assert (forall k, waiting (delete p W) k + promised (Some j) k = waiting W k) as Hsum.
    { intros k. rewrite (waiting_delete W p j) by done. unfold promised. case_bool_decide; case_bool_decide; try lia; congruence. }
    pose proof (Hsum (q_empty x)). pose proof (Hsum (q_full x)). rewrite promised_none in U7, U8.
    constructor; try done; rewrite HV; lia.
  - eapply mem_ok_perm; [|exact M7]. unfold blocks. simpl. rewrite (gather_lookup _ _ _ _ Hf). apply Permutation_app_swap_app.
  - intros r g Hr. apply lookup_delete_Some in Hr as [_ Hr]. by eapply M9.
Qed.

(** It takes what it was promised. *)
Lemma absr_resume A G H W Q m p f l x q s0 :
  minv [] None G H W Q m -> absr None G m A -> mctx m !! p = Some f -> G !! (frame_end f).1 = Some l -> arr_get (msgq_heap m) (frame_end f).1 = Some x -> A !! (frame_end f).1 = Some q ->
  W !! p = Some (if (frame_end f).2 then q_full x else q_empty x) -> (forall i, sval i s0 = sval i (mkern m)) ->
  absr (Some (if (frame_end f).2 then q_full x else q_empty x)) G (set_mctx (delete p (mctx m)) (set_mkern s0 m)) (<[(frame_end f).1 := (if (frame_end f).2 then add_taken else add_readers) (-1) q]> A) ∧
  0 < (if (frame_end f).2 then a_taken else a_readers) q.
Proof.
  intros Hm HA Hf Hl Ex Hq HW HV. split.
  - apply (absr_shift [] None (Some (if (frame_end f).2 then q_full x else q_empty x)) G H W Q m s0 A _ l x q (frame_end f).2 1); try done.
    intros j _. rewrite HV, promised_none. unfold promised. case_bool_decide as H1; case_bool_decide as H2; try lia; congruence.
  - destruct (m_queue _ _ _ _ _ _ _ Hm _ _ Hl) as (x' & Ex' & [U1 U2 U3 U4 U5 U6 U7 U8]). assert (x' = x) as -> by congruence. pose proof (waiting_pos _ _ _ HW).
    rewrite (absr_at _ _ _ _ _ _ _ HA Hl Ex) in Hq. injection Hq as <-. rewrite promised_none in U7, U8. unfold abs_queue. destruct (frame_end f).2; cbn [a_taken a_readers]; rewrite promised_none; lia.
Qed.

(** A process of the message calls goes on. *)
Lemma client_resume_step A m f :
  mgood A m -> mctx m !! current_pid (mkern m) = Some f ->
  wp (mstep MResume) m (λ r m', exists A', aspec A (op_of MResume m) r A' ∧ mgood A' m').
Proof.
  intros (G & H & W & Q & T & Hg & Hm & HA) Hf. pose proof (m_ctx _ _ _ _ _ _ _ Hm (current_pid (mkern m))) as Hx. rewrite Hf in Hx. destruct Hx as (j & Hj & HH).
  pose proof (m_frame _ _ _ _ _ _ _ Hm _ _ Hf) as Hfr. destruct (i_cur _ _ _ (g_inv _ _ _ Hg)) as (x & E & _).
  destruct (client_resume (dom H) W Q T (mkern m) x j Hg (m_client _ _ _ _ _ _ _ Hm) Hj E) as (Hk & Hid & Hg0 & Hc0 & C0 & Hcur & V0 & _).
  set (s0 := put_proc (current_pid (mkern m)) (set_kctx None x) (mkern m)) in *. set (p := current_pid (mkern m)) in *.
  pose proof (minv_resume G H W Q m p j f s0 Hm Hj Hf HH C0 V0) as Hm1. set (m1 := set_mctx (delete p (mctx m)) (set_mkern s0 m)) in *.
  destruct (m_own _ _ _ _ _ _ _ Hm j (frame_end f).1 (frame_end f).2 ltac:(by destruct f)) as (y & [l Hl] & Ey & Ej).
  pose proof (absr_at _ _ _ _ _ _ _ HA Hl Ey) as Hq. set (q := abs_queue None (mkern m) l y) in *. rewrite Ej in Hj.
  destruct (absr_resume A G H W Q m p f l y q s0 Hm HA Hf Hl Ey Hq Hj V0) as [HA1 Hpos]. rewrite <- Ej in HA1. fold m1 in HA1. set (A1 := <[_ := _]> A) in HA1.
  assert (running Q T s0 A1 (frame_blocks f) (Some j) G H (delete p W) m1) as Hr1.
  { exists Q, T. split_and!; [done|apply done_refl, Hg0| |done]. simpl. apply lookup_delete_eq. }
  destruct (ci_sems _ _ _ _ C0 j ltac:(by eapply elem_of_dom_2)) as (sx & Esx & Hsx & _).
  cbn [mstep]. apply wp_bind. eapply wp_kern; [done|]. apply wp_bind. eapply wp_kern; [by apply get_proc_run|]. apply wp_bind. eapply wp_lift; [exact Hk|].
  apply wp_bind, wp_zoom. eapply wp_upd_proc; [exact E|]. fold p. fold s0. apply wp_bind, wp_zoom. cbn [resume]. unfold sem_acquired. apply wp_bind.
  eapply wp_get_sem; [exact Esx|]. rewrite bool_decide_eq_false_2 by done. apply wp_ret. wp_pure. simpl mctx. rewrite Hf. wp_pure.
  change (set_mctx _ _) with m1. cbn [op_of]. fold p. rewrite Hf. destruct f as [id buf data|id sz flg]; cbn [mresume frame_end frame_blocks fst snd] in *; subst j.
  - destruct (run_promise _ _ _ _ _ _ _ _ _ _ _ _ _ Hr1 Hl Ey) as [_ Hroom]. specialize (Hroom eq_refl).
    apply wp_bind. eapply wp_mono; [by apply (waited_snd_spec Q T s0 Hid A1 G H (delete p W) m1 id l y buf data (add_taken (-1) q)); [..|apply lookup_insert_eq]|].
    intros o m2 (-> & He). unfold A1 in He. rewrite insert_insert_eq in He. apply wp_ret, wp_bind. eapply wp_mono; [by apply (finish_spec Q T s0 Hg0 Hc0 _ _ m2 He)|].
    intros [] m3 Hg3. apply wp_ret. eexists. split; [|exact Hg3]. apply a_sent_on; [done|done|]. simpl. by rewrite length_fmap.
  - eapply wp_mono; [by apply (waited_rcv_spec Q T s0 Hid A1 G H (delete p W) m1 id l y sz flg (add_readers (-1) q)); [..|apply lookup_insert_eq]|].
    intros r m2 (d & l' & Hmsgs & -> & He). unfold A1 in He. rewrite insert_insert_eq in He. apply wp_bind. eapply wp_mono; [by apply (finish_spec Q T s0 Hg0 Hc0 _ _ m2 He)|].
    intros [] m3 Hg3. apply wp_ret. eexists. split; [|exact Hg3]. by eapply a_received_on.
Qed.

(** A message call of the running process. *)
Lemma message_call_step A m c :
  mgood A m -> menabled (MCall c) m -> (forall Q0 T0 G H W, kgood Q0 T0 (mkern m) -> running Q0 T0 (mkern m) A [] None G H W m ->
    wp (run_mcall c) m (λ r m', exists A', aspec A (op_of (MCall c) m) r A' ∧ ended Q0 T0 (mkern m) A' r.1 m')) ->
  wp (mstep (MCall c)) m (λ r m', exists A', aspec A (op_of (MCall c) m) r A' ∧ mgood A' m').
Proof.
  intros (G & H & W & Q & T & Hg & Hm & HA) (Hctx & Hid & _) Hc. assert (running Q T (mkern m) A [] None G H W m) as Hr.
  { exists Q, T. split_and!; [done|apply done_refl, Hg| |done]. by eapply no_frame. }
  cbn [mstep]. apply wp_bind. eapply wp_mono; [by apply (Hc Q T G H W)|]. intros r m1 (A' & Ha & He).
  apply wp_bind. eapply wp_mono; [by apply (finish_spec Q T (mkern m) Hg Hctx A' r.1 m1)|]. intros [] m2 Hg2. apply wp_ret. by exists A'.
Qed.

Lemma mstep_spec A m e :
  mgood A m -> menabled e m -> mfair e m -> wp (mstep e) m (λ r m', exists A', aspec A (op_of e m) r A' ∧ mgood A' m').
Proof.
  intros Hg He Hf. destruct e as [[key flg|id cmd buf|id data flg|id sz flg|c]| |].
  - apply message_call_step; [done..|]. intros Q0 T0 G H W K0 Hr. cbn [run_mcall]. apply wp_bind.
    eapply wp_mono; [by apply (msgget_spec Q0 T0 (mkern m) K0 (proj1 He) (proj1 (proj2 He)) A G H W m key flg)|]. intros r m' (A' & Ha & Hend). apply wp_ret. by exists A'.
  - apply message_call_step; [done..|]. intros Q0 T0 G H W K0 Hr. cbn [run_mcall]. apply wp_bind.
    eapply wp_mono; [by apply (msgctl_spec Q0 T0 (mkern m) A G H W m id cmd buf)|]. intros r m' Hr'. apply wp_ret. exists A. split; [apply a_other|]. by exists G, H, W.
  - apply message_call_step; [done..|]. intros Q0 T0 G H W K0 Hr. cbn [run_mcall]. apply wp_bind.
    eapply wp_mono; [by apply (msgsnd_spec Q0 T0 (mkern m) (proj1 (proj2 He)) A G H W m id data flg)|]. intros r m' (A' & Ha & Hend). apply wp_ret. by exists A'.
  - apply message_call_step; [done..|]. intros Q0 T0 G H W K0 Hr. apply (msgrcv_spec Q0 T0 (mkern m) (proj1 (proj2 He)) A G H W m id sz flg Hr). by destruct Hf.
  - eapply wp_mono; [by apply (kernel_call_step A m c)|]. intros r m' Hg'. exists A. split; [apply a_other|done].
  - destruct (mctx m !! current_pid (mkern m)) as [f|] eqn:Ef; [by apply (client_resume_step A m f)|].
    eapply wp_mono; [by apply (other_resume_step A m)|]. intros r m' Hg'. exists A. split; [|done]. cbn [op_of]. rewrite Ef. apply a_other.
  - eapply wp_mono; [by apply (tick_mstep A m)|]. intros r m' Hg'. exists A. split; [apply a_other|done].
Qed.

(** ** Start *)

(** Memory before [msgq_init]; the memory of the rings is static. *)
Definition blank_msgq : msgid_ds := MkMsgq 0 0 0 0 0 (MkQueue 0 0 0 0 (replicate (Z.to_nat MSGQ_CAPACITY) (MkMsg 0 0))) 0 0 0 0.
Definition mboot (k : kst) (mem0 : mem) : mst MM := MkMst k mem0 (replicate (Z.to_nat NUM_MSGQS) blank_msgq) ∅.
Definition mstarts (ps : list Z) (mem0 : mem) m : Prop := exists k, starts ps k ∧ msgq_init (mboot k mem0) = Some (tt, m).

Lemma msgq_init_spec k mem0 :
  wp msgq_init (mboot k mem0) (λ _ m, mkern m = k ∧ mmem m = mem0 ∧ mctx m = ∅ ∧ length (msgq_heap m) = Z.to_nat NUM_MSGQS ∧
    forall i x, arr_get (msgq_heap m) i = Some x -> queue_free x).
Proof.
  unfold msgq_init. pose proof ok_msgqs. pose proof ok_capacity.
  apply (wp_for_up _ _ _ (λ i m, mkern m = k ∧ mmem m = mem0 ∧ mctx m = ∅ ∧ length (msgq_heap m) = Z.to_nat NUM_MSGQS ∧
    forall j x, arr_get (msgq_heap m) j = Some x -> Z.of_nat (length (items (msg_q x))) = MSGQ_CAPACITY ∧ (j < i -> queue_free x))); [lia| | |].
  - split_and!; try done; [simpl; by rewrite length_replicate|]. intros j x Ex. pose proof (arr_get_range _ _ _ Ex). rewrite arr_get_lookup in Ex by lia.
    simpl in Ex. apply lookup_replicate in Ex as [-> _]. split; [|lia]. simpl. rewrite length_replicate. lia.
  - intros i m Hi (E1 & E2 & E3 & Hlen & Hq). destruct (arr_get_Some (msgq_heap m) i ltac:(lia)) as [x Ex]. eapply wp_upd_msgq; [exact Ex|]. simpl. split_and!; try done.
    { by rewrite length_insert. }
    intros j y Ey. apply arr_get_insert in Ey as [[-> ->]|[Hne Ey]]; [| |lia].
    + destruct (Hq i x Ex) as [Hx _]. split; [done|]. intros _. by split_and!.
    + destruct (Hq j y Ey) as [Hy1 Hy2]. split; [done|]. intros Hj. apply Hy2. lia.
  - intros m (E1 & E2 & E3 & Hlen & Hq). split_and!; try done. intros i x Ex. apply (Hq i x Ex). apply arr_get_range in Ex. lia.
Qed.

Lemma mstarts_good ps mem0 :
  Forall (λ p, 0 <= p < N_PRIO) ps -> mem_ok [] mem0 -> exists m, mstarts ps mem0 m ∧ mgood ∅ m.
Proof.
  intros Hps Hmem. pose proof (xilkernel_init_spec ps Hps) as H. apply wp_run in H as ([] & k & E & Q0 & _ & _ & _ & _ & Hnew & Hfree).
  destruct (starts_good ps k Hps E) as (Q & T & Hg). pose proof (msgq_init_spec k mem0) as Hi. apply wp_run in Hi as ([] & m & Em & E1 & E2 & E3 & Hlen & Hq).
  exists m. split; [by exists k|]. exists ∅, ∅, ∅, Q, T. rewrite E1. split; [done|]. split; [|intros i; by rewrite !lookup_empty]. constructor; try done; rewrite ?E1, ?E2.
  - rewrite dom_empty_L. constructor.
    + intros p z Ez. destruct (Hnew p z Ez) as [Hs Hk]. split; [destruct Hs; congruence|]. intros j t. by rewrite Hk.
    + intros j z n Ev Hne. destruct Hne. apply (Hfree j z). unfold sem_view in Ev. congruence.
    + intros p z _ j Hj. by rewrite lookup_empty in Hj.
    + intros j Hj. by apply elem_of_empty in Hj.
    + intros j p Hj. by apply elem_of_empty in Hj.
  - intros p. by rewrite E3.
  - intros i x Ex _. by eapply Hq.
  - unfold blocks. by rewrite E3.
  - intros p f. by rewrite E3.
Qed.

Lemma mruns_spec m tr m' : mruns m tr m' -> forall A, mgood A m -> exists A', aruns A tr A' ∧ mgood A' m'.
Proof.
  induction 1 as [m|m e r m1 tr m2 He Hf E Hst IH]; intros A Hg; [exists A; split; [constructor|done]|].
  pose proof (mstep_spec A m e Hg He Hf) as Hs. apply wp_run in Hs as (r' & m1' & E' & A1 & Ha & Hg1). simplify_eq.
  destruct (IH A1 Hg1) as (A' & Hr & Hg'). exists A'. split; [|done]. by econstructor.
Qed.


(** ** Order *)

(** The messages that were sent to and received from a queue. *)
Definition sent (id : Z) (tr : list (mop * (outcome * list Z))) : list (list Z) :=
  omap (λ x, match x with
             | (OpSnd i d _ _, (Done r, _)) | (OpSndOn i d, (Done r, _)) => if bool_decide (i = id ∧ r = 0) then Some d else None
             | _ => None
             end) tr.
Definition received (id : Z) (tr : list (mop * (outcome * list Z))) : list (list Z) :=
  omap (λ x, match x with
             | (OpRcv i _ _, (Done r, d)) | (OpRcvOn i _ _, (Done r, d)) => if bool_decide (i = id ∧ 0 <= r) then Some d else None
             | _ => None
             end) tr.
(** No receive from the queue is for less than [n] bytes. *)
Definition asks_for (n id : Z) (x : mop * (outcome * list Z)) : Prop := match x.1 with OpRcv i sz _ | OpRcvOn i sz _ => i = id -> n <= sz | _ => True end.
Definition held (id : Z) A : list (list Z) := default [] (a_msgs <$> A !! id).

Lemma held_insert id i q A : held id (<[i := q]> A) = if bool_decide (i = id) then a_msgs q else held id A.
Proof. unfold held. case_bool_decide; [subst; by rewrite lookup_insert_eq|by rewrite lookup_insert_ne]. Qed.
Lemma held_at id q A : A !! id = Some q -> held id A = a_msgs q.
Proof. intros E. unfold held. by rewrite E. Qed.

Lemma deliver_whole sz flg d : Z.of_nat (length d) <= sz -> deliver sz flg d = (Done (Z.of_nat (length d)), d).
Proof. intros Hd. unfold deliver, too_long. rewrite bool_decide_eq_false_2 by lia. rewrite Z.min_r by lia. by rewrite take_ge by lia. Qed.
Lemma a_pop_msgs sz flg d q : a_msgs (a_pop sz flg d q) = tail (a_msgs q).
Proof. unfold a_pop. by destruct (too_long sz flg d). Qed.

(** A receive takes the first message. *)
Lemma receive_order n id A i sz flg d l q :
  held i A = d :: l -> a_msgs q = tail (held i A) -> (i = id -> n <= sz) -> Forall (λ d, Z.of_nat (length d) <= n) (held id A) ->
  held id A = match deliver sz flg d with (Done r, e) => if bool_decide (i = id ∧ 0 <= r) then [e] else [] | _ => [] end ++ held id (<[i := q]> A).
Proof.
  intros Hh Hq Hask Hn. rewrite held_insert. destruct (decide (i = id)) as [->|Hi].
  - rewrite (bool_decide_eq_true_2 (id = id)) by done. rewrite Hq. rewrite Hh in *. apply list.Forall_cons in Hn as [Hd _]. specialize (Hask eq_refl). rewrite deliver_whole by lia.
    by rewrite bool_decide_eq_true_2 by lia.
  - rewrite (bool_decide_eq_false_2 (i = id)) by done. destruct (deliver sz flg d) as [[r|] e]; [|done]. by rewrite bool_decide_eq_false_2 by (by intros []).
Qed.

(** One step of the abstract queues: what is held and sent is what is received and held. *)
Lemma aspec_order n id A o r A' :
  aspec A o r A' -> asks_for n id (o, r) -> Forall (λ d, Z.of_nat (length d) <= n) (held id A) -> held id A ++ sent id [(o, r)] = received id [(o, r)] ++ held id A'.
Proof.
  intros Ha Hask Hn.
  destruct Ha as [A i data flg q Hq Hroom|A i data flg mem Hwhy|A i data flg q Hq|A i data q Hq|A i sz flg q d l Hq Hav Hm|A i sz flg Hwhy|A i sz flg q Hq|A i sz flg q d l Hq Hrd Hm
    |A key flg i Hno Hp Hc Hi Hf|A key flg i q|A key flg i q|A key flg|A r];
    unfold sent, received; cbn [omap list_omap]; rewrite ?app_nil_r; try done; rewrite ?held_insert.
  - rewrite (bool_decide_ext (i = id ∧ 0 = 0) (i = id)) by tauto. case_bool_decide; [subst i; by rewrite (held_at _ _ _ Hq)|by rewrite app_nil_r].
  - rewrite bool_decide_eq_false_2 by lia. by rewrite app_nil_r.
  - case_bool_decide; [subst i; by rewrite (held_at _ _ _ Hq)|done].
  - rewrite (bool_decide_ext (i = id ∧ 0 = 0) (i = id)) by tauto. case_bool_decide; [subst i; by rewrite (held_at _ _ _ Hq)|by rewrite app_nil_r].
  - rewrite (receive_order n id A i sz flg d l (a_pop sz flg d q)) at 1; [|by rewrite (held_at _ _ _ Hq)|by rewrite a_pop_msgs, (held_at _ _ _ Hq)|done|done].
    destruct (deliver sz flg d) as [[r|] e]; [|by rewrite held_insert]. rewrite held_insert. by destruct (bool_decide (i = id ∧ 0 <= r)).
  - by rewrite bool_decide_eq_false_2 by lia.
  - case_bool_decide; [subst i; by rewrite (held_at _ _ _ Hq)|done].
  - rewrite (receive_order n id A i sz flg d l (a_pop sz flg d (add_readers (-1) q))) at 1; [|by rewrite (held_at _ _ _ Hq)|by rewrite a_pop_msgs, (held_at _ _ _ Hq)|done|done].
    destruct (deliver sz flg d) as [[r|] e]; [|by rewrite held_insert]. rewrite held_insert. by destruct (bool_decide (i = id ∧ 0 <= r)).
  - case_bool_decide; [|done]. subst. unfold held. by rewrite Hf.
Qed.

(** No more messages than places. *)
Definition fits A : Prop := map_Forall (λ _ q, 0 <= a_taken q ∧ Z.of_nat (length (a_msgs q)) <= MSGQ_CAPACITY) A.
Lemma aspec_fits A o r A' : aspec A o r A' -> fits A -> fits A'.
Proof.
  intros Ha Hf. pose proof ok_capacity as Hcap. assert (forall i q, A !! i = Some q -> 0 <= a_taken q ∧ Z.of_nat (length (a_msgs q)) <= MSGQ_CAPACITY) as Hq by apply Hf.
  assert (forall (l : list (list Z)), Z.of_nat (length (tail l)) <= Z.of_nat (length l)) as Ht by (intros []; simpl; lia).
  destruct Ha as [A i data flg q E|A i data flg mem|A i data flg q E|A i data q E|A i sz flg q d l E|A i sz flg|A i sz flg q E|A i sz flg q d l E|A key flg i|A key flg i q|A key flg i q|A key flg|A r];
    try done; (apply map_Forall_insert_2; [|done]); try (destruct (Hq _ _ E) as [F1 F2]; pose proof (Ht (a_msgs q))); unfold a_pop, a_room in *.
  all: repeat case_match; simpl in *; rewrite ?length_app; simpl; lia.
Qed.

Lemma aruns_order n id A tr A' :
  aruns A tr A' -> Forall (asks_for n id) tr -> Forall (λ d, Z.of_nat (length d) <= n) (held id A ++ sent id tr) -> fits A ->
  held id A ++ sent id tr = received id tr ++ held id A' ∧ fits A'.
Proof.
  induction 1 as [A|A o r A1 tr A2 Ha Hr IH]; intros Hask Hn Hc; [by rewrite app_nil_r|]. apply list.Forall_cons in Hask as [Hask Hask'].
  assert (sent id ((o, r) :: tr) = sent id [(o, r)] ++ sent id tr) as Es by (unfold sent; by rewrite <- omap_app).
  assert (received id ((o, r) :: tr) = received id [(o, r)] ++ received id tr) as Er by (unfold received; by rewrite <- omap_app).
  rewrite Es, Er in *. pose proof (aspec_order n id A o r A1 Ha Hask ltac:(by apply list.Forall_app in Hn as [? _])) as E1.
  rewrite (assoc_L (++)), E1 in Hn |- *. rewrite <- (assoc_L (++)) in Hn. apply list.Forall_app in Hn as [_ Hn]. destruct (IH Hask' Hn (aspec_fits _ _ _ _ Ha Hc)) as [E3 E4].
  split; [|done]. by rewrite <- !(assoc_L (++)), E3.
Qed.

(** C39: Messages are received in the order in which they were sent, unchanged and once: in
    every run (under the rules of [mfair], without [sys_kill]) in which the receivers of a queue ask for at least the length
    of the messages, the messages that they have got are the first of those
    sent, and at most [MSGQ_CAPACITY] are on their way. *)
Theorem messages_in_order (ps : list Z) (mem0 : mem) m0 tr m n id :
  Forall (λ p, 0 <= p < N_PRIO) ps -> mem_ok [] mem0 -> mstarts ps mem0 m0 -> mruns m0 tr m ->
  Forall (asks_for n id) tr -> Forall (λ d, Z.of_nat (length d) <= n) (sent id tr) ->
  exists rest, sent id tr = received id tr ++ rest ∧ Z.of_nat (length rest) <= MSGQ_CAPACITY.
Proof.
  intros Hps Hmem (k & Hk & Em) Hr Hask Hn. destruct (mstarts_good ps mem0 Hps Hmem) as (m1 & (k1 & Hk1 & Em1) & Hg). unfold starts in Hk, Hk1. simplify_eq.
  destruct (mruns_spec _ _ _ Hr ∅ Hg) as (A & Ha & _). assert (held id ∅ = []) as E0 by (unfold held; by rewrite lookup_empty).
  destruct (aruns_order n id _ tr _ Ha Hask) as [E Hc]; rewrite ?E0 in *; [done|apply map_Forall_empty|]. exists (held id A). split; [done|].
  unfold held. destruct (A !! id) as [q|] eqn:Eq; [by apply (Hc id q)|]. pose proof ok_capacity. simpl. lia.
Qed.
End fifo.

(** ** Examples *)

Definition demo_msg : MsgConfig := {| NUM_MSGQS := 1; MSGQ_CAPACITY := 2; MSGQ_MAX_BYTES := 16 |}.
Lemma demo_msg_ok : MsgConfigOk demo_msg.
Proof. constructor; simpl; lia. Qed.

(** The start with the block pools of KmsgPool.v, and the states of a run. *)
Definition demo_mstart (ps : list Z) : mst (pool_mem 2) :=
  let m := @mboot demo_msg (pool_mem 2) (demo_start false ps) sample_mem in
  match @msgq_init demo_msg (pool_mem 2) m with Some (_, m') => m' | None => m end.
Definition demo_mend (ps : list Z) (es : list mevent) : mst (pool_mem 2) := @mend (demo_conf false) demo_msg (pool_mem 2) es (demo_mstart ps).

Lemma demo_mstarts : @mstarts (demo_conf false) demo_msg (pool_mem 2) [0; 0] sample_mem (demo_mstart [0; 0]).
Proof.
  exists (demo_start false [0; 0]). split; [vm_compute; reflexivity|]. pose proof (@msgq_init_spec demo_msg demo_msg_ok (pool_mem 2) (demo_start false [0; 0]) sample_mem) as Hw.
  apply wp_run in Hw as ([] & m & E & _). unfold demo_mstart. by rewrite E.
Qed.

(** A receiver waits; the third message finds no memory. *)
Definition demo_messages : list mevent :=
  [MTick; MCall (MGet 7 IPC_CREAT); MCall (MRcv 0 8 0); MCall (MSnd 0 [1; 2; 3] 0); MCall (MSnd 0 [4] 0); MCall (MSnd 0 [5; 6] 0); MCall (MKern CYield); MResume;
   MCall (MRcv 0 8 IPC_NOWAIT)].
Definition demo_trace : list (mop * (outcome * list Z)) :=
  [(OpOther, (Done 0, [])); (OpGet 7 1, (Done 0, [])); (OpRcv 0 8 0, (Blocked, [])); (OpSnd 0 [1; 2; 3] 0 true, (Done 0, [])); (OpSnd 0 [4] 0 true, (Done 0, []));
   (OpSnd 0 [5; 6] 0 false, (Done (-1), [])); (OpOther, (Done 0, [])); (OpRcvOn 0 8 0, (Done 3, [1; 2; 3])); (OpRcv 0 8 3, (Done 1, [4]))].

Lemma demo_mruns : @mruns (demo_conf false) demo_msg (pool_mem 2) (demo_mstart [0; 0]) demo_trace (demo_mend [0; 0] demo_messages).
Proof. apply mexec_end. vm_compute. reflexivity. Qed.


Lemma messages_in_order_witness : sent 0 demo_trace = [[1; 2; 3]; [4]] ∧ received 0 demo_trace = [[1; 2; 3]; [4]] ∧
  exists rest, sent 0 demo_trace = received 0 demo_trace ++ rest.
Proof.
  split; [reflexivity|]. split; [reflexivity|].
  destruct (@messages_in_order (demo_conf false) (demo_ok false) demo_msg demo_msg_ok (pool_mem 2) (pool_mem_ok 2) [0; 0] sample_mem (demo_mstart [0; 0]) demo_trace
    (demo_mend [0; 0] demo_messages) 8 0) as (rest & E & _).
  - repeat constructor; simpl; lia.
  - apply sample_mem_ok.
  - apply demo_mstarts.
  - apply demo_mruns.
  - unfold demo_trace. repeat (apply list.Forall_cons_2; [unfold asks_for; simpl; (done || (intros; lia))|]). apply list.Forall_nil_2.
  - change (sent 0 demo_trace) with [[1; 2; 3]; [4]]. repeat (apply list.Forall_cons_2; [simpl; lia|]). apply list.Forall_nil_2.
  - exists rest. exact E.
Defined.

(** ** Removing a queue *)

(** The results of enabled events, without the rules of [mfair]. *)
Fixpoint mplay {KC : KConfig} {MC : MsgConfig} {MM : MsgMem} (es : list mevent) (m : mst MM) : option (list (outcome * list Z)) :=
  match es with
  | [] => Some []
  | e :: es =>
      if decide (menabled e m) then match mstep e m with Some (r, m1) => rs ← mplay es m1; Some (r :: rs) | None => None end else None
  end.

(** [IPC_RMID] corrupts the memory of later messages: its loop decrements
    [item_count] once more than [deq] does, so that with one message in the queue
    the count wraps around and the block of the message is freed over and over.
    Afterwards two messages get the same block, and the receivers get other
    bytes than the two messages that were sent. *)
Example rmid_corrupts_messages :
  @mplay (demo_conf false) demo_msg (pool_mem 2)
    [MTick; MCall (MGet 7 IPC_CREAT); MCall (MSnd 0 [9] 0); MCall (MCtl 0 IPC_RMID false);
     MCall (MGet 7 IPC_CREAT); MCall (MSnd 0 [1; 2; 3; 4; 5] 0); MCall (MSnd 0 [11; 12; 13; 14; 15] 0); MCall (MRcv 0 8 0); MCall (MRcv 0 8 0)] (demo_mstart [0; 0]) =
  Some [(Done 0, []); (Done 0, []); (Done 0, []); (Done 0, []); (Done 0, []); (Done 0, []); (Done 0, []);
        (Done 5, [11; 12; 13; 14; 15]); (Done 5, [1; 2; 3; 4; 15])].
Proof. vm_compute. reflexivity. Qed.
