(* ===== verification/Kshm.v ===== *)
(** * Shared memory of the kernel (shm.c, and [shm_init] of mem.c)

    The segments are slices of one array of bytes; the configuration fixes their
    sizes. Processes name a segment by a key, and reach its bytes by loads and
    stores of their own at the address that [sys_shmat] returns.

    The specification has no addresses in its segments: each is a list of bytes
    that has, when it is in use, a key and the numbers that [IPC_STAT] reports.
    [shm_refines]: the calls, in any order, by any processes and mixed with
    loads and stores at any address, give the results of the specification. *)

From stdpp Require Import gmap.
From S2P Require Import Prelude Kqueue Kheap Ktimer Ksched Ksem Kmutex Kernel Kreach Kmsg.
Open Scope Z_scope.

(** ** Model *)

(** [shm_config], whose length is [N_SHM], and the address of [shm_mem]. *)
Class ShmConfig := { shm_config : list Z; shm_mem : Z }.

Record shm_info := MkShm {
  shm_segsz : Z;
  shm_lpid : Z;
  shm_cpid : Z;
  shm_nattch : Z;
  shm_addr : Z;
  shm_id : Z;
  shm_key : Z;
}.

(** The kernel, the table of segments and the bytes of memory. *)
Record shst := MkShst { shkern : kst; shm_heap : list shm_info; shbytes : Z -> Z }.

Section shm.
Context {KC : KConfig} {SC : ShmConfig}.
Abbreviation M := (ST shst).

Definition N_SHM : Z := Z.of_nat (length shm_config).

Definition set_shkern (x : kst) (s : shst) : shst := MkShst x (shm_heap s) (shbytes s).
Definition set_shm_heap (x : list shm_info) (s : shst) : shst := MkShst (shkern s) x (shbytes s).
Definition set_shbytes (x : Z -> Z) (s : shst) : shst := MkShst (shkern s) (shm_heap s) x.

Definition shk {A} (m : ST kst A) : M A := zoom shkern set_shkern m.
Definition get_shm (i : Z) : M shm_info := h ← gets shm_heap; lift (arr_get h i).
Definition upd_shm (i : Z) (f : shm_info -> shm_info) : M unit :=
  x ← get_shm i; h ← gets shm_heap; h' ← lift (arr_set h i (f x)); modify (set_shm_heap h').

Definition set_nattch (n : Z) (x : shm_info) : shm_info :=
  MkShm (shm_segsz x) (shm_lpid x) (shm_cpid x) n (shm_addr x) (shm_id x) (shm_key x).
Definition set_shm_lpid (p : Z) (x : shm_info) : shm_info :=
  MkShm (shm_segsz x) p (shm_cpid x) (shm_nattch x) (shm_addr x) (shm_id x) (shm_key x).
Definition set_shm_id (i : Z) (x : shm_info) : shm_info :=
  MkShm (shm_segsz x) (shm_lpid x) (shm_cpid x) (shm_nattch x) (shm_addr x) i (shm_key x).

(** The loop of [shm_init]. *)
Fixpoint shm_init_loop (cfg : list Z) (i offset : Z) : M unit :=
  match cfg with
  | [] => skip
  | size :: cfg =>
      upd_shm i (λ x, MkShm size (shm_lpid x) (shm_cpid x) (shm_nattch x) (shm_mem + offset) (-1) (shm_key x));;
      shm_init_loop cfg (i + 1) (u32 (offset + size))
  end.
Definition shm_init : M unit := shm_init_loop shm_config 0 0.

(** The first segment in use with that key; a key is a 32-bit pattern. *)
Definition get_shm_by_key (key : Z) : M (option Z) :=
  h ← gets shm_heap;
  mret (match list_find (λ x, shm_id x ≠ -1 ∧ shm_key x = key) h with Some (i, _) => Some (Z.of_nat i) | None => None end).

Definition bzero (a n : Z) (m : Z -> Z) : Z -> Z := λ x, if bool_decide (a <= x < a + n) then 0 else m x.

(** The end of [sys_shmget], when the segment [i] is free. *)
Definition new_shm (i key : Z) : M Z :=
  c ← shk (gets current_pid);
  upd_shm i (λ x, MkShm (shm_segsz x) (-1) c 0 (shm_addr x) i key);;
  x ← get_shm i;
  modify (λ s, set_shbytes (bzero (shm_addr x) (shm_segsz x) (shbytes s)) s);;
  mret i.

Definition sys_shmget (key size shmflg : Z) : M Z :=
  q ← get_shm_by_key key;
  match q with
  | Some i =>
      if bool_decide (Z.land shmflg IPC_CREAT ≠ 0 ∧ Z.land shmflg IPC_EXCL ≠ 0) then shk (kerrno EEXIST);; mret (-1)
      else x ← get_shm i; mret (shm_id x)
  | None =>
      if bool_decide (key = IPC_PRIVATE) then shk (kerrno ENOTSUP);; mret (-1) else
      if bool_decide (Z.land shmflg IPC_CREAT = 0) then shk (kerrno ENOENT);; mret (-1) else
      h ← gets shm_heap;
      match list_find (λ x, shm_id x = -1 ∧ shm_segsz x = size) h with
      | None => shk (kerrno ENOSPC);; mret (-1)
      | Some (i, _) => new_shm (Z.of_nat i) key
      end
  end.

(** The test that [id] is a segment in use. *)
Definition shm_valid (id : Z) : M bool :=
  if bool_decide (id < 0 ∨ N_SHM <= id) then mret false else
  x ← get_shm id; mret (bool_decide (shm_id x ≠ -1)).

(** What [IPC_STAT] stores: size, last process, creator, number of attaches. *)
Definition stats : Type := Z * Z * Z * Z.

(** [buf] says whether the pointer is not null. *)
Definition sys_shmctl (id cmd : Z) (buf : bool) : M (Z * option stats) :=
  ok ← shm_valid id;
  if negb ok then shk (kerrno EINVAL);; mret (-1, None) else
  x ← get_shm id;
  if bool_decide (cmd = IPC_STAT) then
    if buf then mret (0, Some (shm_segsz x, shm_lpid x, shm_cpid x, shm_nattch x))
    else shk (kerrno EINVAL);; mret (-1, None)
  else if bool_decide (cmd = IPC_SET) then mret (0, None)
  else if bool_decide (cmd = IPC_RMID) then
    upd_shm id (λ x, set_nattch 0 (set_shm_id (-1) x));;
    mret (0, None)
  else shk (kerrno EINVAL);; mret (-1, None).

(** The address, or 0. *)
Definition sys_shmat (id : Z) : M Z :=
  ok ← shm_valid id;
  if negb ok then shk (kerrno EINVAL);; mret 0 else
  upd_shm id (λ x, set_nattch (u32 (shm_nattch x + 1)) x);;
  p ← shk sys_get_currentPID;
  upd_shm id (set_shm_lpid p);;
  x ← get_shm id;
  mret (shm_addr x).

Definition sys_shmdt (addr : Z) : M Z :=
  h ← gets shm_heap;
  match list_find (λ x, shm_addr x = addr) h with
  | None => shk (kerrno EINVAL);; mret (-1)
  | Some (i, _) => upd_shm (Z.of_nat i) (λ x, set_nattch (u32 (shm_nattch x - 1)) x);; mret 0
  end.

(** *** The calls of processes, with their loads and stores *)

Inductive shcall :=
  | ShGet (key size flg : Z) | ShCtl (id cmd : Z) (buf : bool) | ShAt (id : Z) | ShDt (addr : Z)
  | ShLoad (a : Z) | ShStore (a v : Z).

Definition store_at (a v : Z) (m : Z -> Z) : Z -> Z := λ x, if bool_decide (x = a) then v else m x.

Definition shm_call (c : shcall) : M (Z * option stats) :=
  match c with
  | ShGet key size flg => r ← sys_shmget key size flg; mret (r, None)
  | ShCtl id cmd buf => sys_shmctl id cmd buf
  | ShAt id => r ← sys_shmat id; mret (r, None)
  | ShDt addr => r ← sys_shmdt addr; mret (r, None)
  | ShLoad a => m ← gets shbytes; mret (m a, None)
  | ShStore a v => modify (λ s, set_shbytes (store_at a v (shbytes s)) s);; mret (0, None)
  end.

(** Each call comes with the state of the kernel in which it is made, which says
    which process makes it; a result comes with the state after it. *)
Fixpoint shm_run (l : list (kst * shcall)) : M (list (Z * option stats * kst)) :=
  match l with
  | [] => mret []
  | (k, c) :: l =>
      modify (set_shkern k);;
      r ← shm_call c;
      k' ← gets shkern;
      rs ← shm_run l;
      mret ((r, k') :: rs)
  end.
End shm.

(** ** Specification *)

Record use := MkUse { u_key : Z; u_lpid : Z; u_cpid : Z; u_nattch : Z }.
Record seg := MkSeg { seg_data : list Z; seg_use : option use }.
(** The segments that have names, all segments, and the memory that is not shared. *)
Record shspec := MkSpec { names : gmap Z nat; segs : list seg; rest : Z -> Z }.

(** The segment that an offset from the start of [shm_mem] is in, and the place in it. *)
Fixpoint locate (cfg : list Z) (x : Z) : option (nat * nat) :=
  match cfg with
  | [] => None
  | size :: cfg =>
      if bool_decide (x < 0) then None
      else if bool_decide (x < size) then Some (O, Z.to_nat x)
      else prod_map S id <$> locate cfg (x - size)
  end.

Definition offset_of (cfg : list Z) (i : nat) : Z := foldr Z.add 0 (take i cfg).

Section spec.
Context {SC : ShmConfig}.

Definition where_is (a : Z) : option (nat * nat) := locate shm_config (a - shm_mem).
Definition seg_start (i : nat) : Z := shm_mem + offset_of shm_config i.

Definition spec_load (a : Z) (s : shspec) : Z :=
  match where_is a with
  | Some (i, o) => match segs s !! i with Some g => default 0 (seg_data g !! o) | None => 0 end
  | None => rest s a
  end.
Definition spec_store (a v : Z) (s : shspec) : shspec :=
  match where_is a with
  | Some (i, o) => MkSpec (names s) (alter (λ g, MkSeg (<[o := v]> (seg_data g)) (seg_use g)) i (segs s)) (rest s)
  | None => MkSpec (names s) (segs s) (store_at a v (rest s))
  end.

Definition set_use (i : nat) (f : use -> use) (s : shspec) : shspec :=
  MkSpec (names s) (alter (λ g, MkSeg (seg_data g) (f <$> seg_use g)) i (segs s)) (rest s).
(** The segment with that identifier, when it is in use. *)
Definition in_use (id : Z) (s : shspec) : option (seg * use) :=
  g ← arr_get (segs s) id; u ← seg_use g; Some (g, u).

Definition outcome_of : Type := Z * option stats * option Z * shspec.
Definition refuse (r e : Z) (s : shspec) : outcome_of := (r, None, Some e, s).
Definition accept (r : Z) (s : shspec) : outcome_of := (r, None, None, s).

Definition spec_get (pid key size flg : Z) (s : shspec) : outcome_of :=
  match names s !! key with
  | Some i => if bool_decide (Z.land flg IPC_CREAT ≠ 0 ∧ Z.land flg IPC_EXCL ≠ 0) then refuse (-1) EEXIST s
              else accept (Z.of_nat i) s
  | None =>
      if bool_decide (key = IPC_PRIVATE) then refuse (-1) ENOTSUP s else
      if bool_decide (Z.land flg IPC_CREAT = 0) then refuse (-1) ENOENT s else
      match list_find (λ g, seg_use g = None ∧ Z.of_nat (length (seg_data g)) = size) (segs s) with
      | None => refuse (-1) ENOSPC s
      | Some (i, g) =>
          accept (Z.of_nat i) (MkSpec (<[key := i]> (names s))
            (<[i := MkSeg (replicate (length (seg_data g)) 0) (Some (MkUse key (-1) pid 0))]> (segs s)) (rest s))
      end
  end.

Definition spec_ctl (id cmd : Z) (buf : bool) (s : shspec) : outcome_of :=
  match in_use id s with
  | None => refuse (-1) EINVAL s
  | Some (g, u) =>
      if bool_decide (cmd = IPC_STAT) then
        if buf then (0, Some (Z.of_nat (length (seg_data g)), u_lpid u, u_cpid u, u_nattch u), None, s)
        else refuse (-1) EINVAL s
      else if bool_decide (cmd = IPC_RMID) then
        accept 0 (MkSpec (delete (u_key u) (names s)) (alter (λ g, MkSeg (seg_data g) None) (Z.to_nat id) (segs s)) (rest s))
      else refuse (-1) EINVAL s
  end.

Definition spec_at (pid id : Z) (s : shspec) : outcome_of :=
  match in_use id s with
  | None => refuse 0 EINVAL s
  | Some (g, u) => accept (seg_start (Z.to_nat id))
      (set_use (Z.to_nat id) (λ u, MkUse (u_key u) pid (u_cpid u) (u32 (u_nattch u + 1))) s)
  end.

(** A segment that is not in use has no attaches to count. *)
Definition spec_dt (addr : Z) (s : shspec) : outcome_of :=
  match where_is addr with
  | Some (i, O) => accept 0 (set_use i (λ u, MkUse (u_key u) (u_lpid u) (u_cpid u) (u32 (u_nattch u - 1))) s)
  | _ => refuse (-1) EINVAL s
  end.

(** The result, the new value of [errno] if the call sets it, and the state. *)
Definition spec_call (pid : Z) (c : shcall) (s : shspec) : outcome_of :=
  match c with
  | ShGet key size flg => spec_get pid key size flg s
  | ShCtl id cmd buf => spec_ctl id cmd buf s
  | ShAt id => spec_at pid id s
  | ShDt addr => spec_dt addr s
  | ShLoad a => accept (spec_load a s) s
  | ShStore a v => accept 0 (spec_store a v s)
  end.

(** The kernel after a call: only [errno] of the caller may have changed. *)
Definition with_errno (e : option Z) (k : kst) : kst :=
  match e with
  | Some e => set_ptable (alter (set_p_errno e) (Z.to_nat (current_pid k)) (ptable k)) k
  | None => k
  end.

Fixpoint spec_run (l : list (kst * shcall)) (s : shspec) : list (Z * option stats * kst) :=
  match l with
  | [] => []
  | (k, c) :: l => let '(r, e, s') := spec_call (current_pid k) c s in (r, with_errno e k) :: spec_run l s'
  end.

(** After [shm_init], with the memory [m]. *)
Definition spec_init (m : Z -> Z) : shspec :=
  MkSpec ∅ (imap (λ i size, MkSeg (m <$> seqZ (seg_start i) size) None) shm_config) m.
End spec.

(** Up to the next elementary statement. *)
Ltac wp_into := wp_pure; repeat lazymatch goal with |- wp (_ ≫= _) _ _ => apply wp_bind end.

(** ** Lists and addresses *)

Lemma list_find_unique {A} (P : A -> Prop) {DP : ∀ x, Decision (P x)} (l : list A) i x :
  l !! i = Some x -> P x -> (forall j y, l !! j = Some y -> P y -> j = i) -> list_find P l = Some (i, x).
Proof.
  intros Hi Hx Hu. apply list_find_Some. split_and!; [done..|]. intros j y Hj Hlt Hy. specialize (Hu j y Hj Hy). lia.
Qed.

Lemma list_find_none {A} (P : A -> Prop) {DP : ∀ x, Decision (P x)} (l : list A) :
  (forall j y, l !! j = Some y -> ~ P y) -> list_find P l = None.
Proof. intros H. apply list_find_None, Forall_lookup. eauto. Qed.

Lemma list_find_agree {A B} (P : A -> Prop) (Q : B -> Prop) {DP : ∀ x, Decision (P x)} {DQ : ∀ x, Decision (Q x)} l k :
  length l = length k -> (forall i x y, l !! i = Some x -> k !! i = Some y -> (P x <-> Q y)) ->
  match list_find P l with Some (i, _) => exists y, list_find Q k = Some (i, y) | None => list_find Q k = None end.
Proof.
  intros Hl H. destruct (list_find P l) as [[i x]|] eqn:E.
  - apply list_find_Some in E as (Hi & Hx & Hlt). destruct (lookup_lt_is_Some_2 k i) as [y Hy]; [rewrite <- Hl; by eapply lookup_lt_Some|].
    exists y. apply list_find_Some. split_and!; [done|by apply (H i x y)|]. intros j z Hj Hji Hz.
    destruct (lookup_lt_is_Some_2 l j) as [w Hw]; [rewrite Hl; by eapply lookup_lt_Some|]. apply (Hlt j w Hw Hji). by apply (H j w z).
  - apply list_find_none. intros j z Hj Hz. apply list_find_None in E.
    destruct (lookup_lt_is_Some_2 l j) as [w Hw]; [rewrite Hl; by eapply lookup_lt_Some|]. eapply Forall_lookup in E; [|done]. apply E. by apply (H j w z).
Qed.

Lemma alter_insert {A} (f : A -> A) (l : list A) (i : nat) x : l !! i = Some x -> alter f i l = <[i := f x]> l.
Proof. revert i. induction l as [|y l IH]; intros [|i] E; simplify_eq/=; [done|]. f_equal. by apply IH. Qed.

Lemma offset_cons size cfg i : offset_of (size :: cfg) (S i) = size + offset_of cfg i.
Proof. done. Qed.

Lemma offset_snoc cfg i size : cfg !! i = Some size -> offset_of cfg (S i) = offset_of cfg i + size.
Proof.
  revert i. induction cfg as [|y cfg IH]; intros [|i] H; simplify_eq/=; unfold offset_of in *; simpl; [lia|].
  specialize (IH i H). simpl in IH. lia.
Qed.

Lemma offset_nonneg cfg i : Forall (λ n, 0 < n) cfg -> 0 <= offset_of cfg i.
Proof. intros H. revert i. induction H as [|y cfg Hy _ IH]; intros [|i]; try done. rewrite offset_cons. specialize (IH i). lia. Qed.

(** Where an offset is. *)
Lemma locate_Some cfg x i o : Forall (λ n, 0 < n) cfg ->
  locate cfg x = Some (i, o) <-> exists size, cfg !! i = Some size ∧ Z.of_nat o < size ∧ x = offset_of cfg i + Z.of_nat o.
Proof.
  intros H. revert x i. induction H as [|y cfg Hy Hc IH]; intros x i; simpl; [naive_solver|].
  repeat case_bool_decide.
  - split; [done|]. intros (size & _ & _ & ->). pose proof (offset_nonneg (y :: cfg) i (Forall_cons_2 _ _ _ Hy Hc)). lia.
  - split.
    + intros [= <- <-]. exists y. split_and!; [done|lia|]. change (offset_of (y :: cfg) 0) with 0. lia.
    + intros (size & Hi & Ho & ->). destruct i as [|i]; simplify_eq/=.
      * change (offset_of (size :: cfg) 0) with 0. by rewrite Z.add_0_l, Nat2Z.id.
      * rewrite offset_cons in *. pose proof (offset_nonneg cfg i Hc). lia.
  - destruct i as [|i].
    + split; [destruct (locate _ _) as [[]|]; naive_solver|]. intros (size & ? & ? & ->); simplify_eq/=.
      change (offset_of (size :: cfg) 0) with 0 in *. lia.
    + rewrite offset_cons. simpl. transitivity (locate cfg (x - y) = Some (i, o)); [destruct (locate _ _) as [[]|]; naive_solver|].
      rewrite IH. split; intros (size & ? & ? & ?); exists size; split_and!; try done; lia.
Qed.

(** ** Correctness *)

Section correct.
Context {KC : KConfig} {SC : ShmConfig}.
(** The sizes of the configuration are positive. *)
Context (Hsizes : Forall (λ n, 0 < n) shm_config).

Lemma where_is_Some a i o :
  where_is a = Some (i, o) <-> exists size, shm_config !! i = Some size ∧ Z.of_nat o < size ∧ a = seg_start i + Z.of_nat o.
Proof.
  unfold where_is, seg_start. rewrite (locate_Some _ _ _ _ Hsizes).
  split; intros (size & ? & ? & ?); exists size; split_and!; try done; lia.
Qed.

Lemma where_is_start i size : shm_config !! i = Some size -> where_is (seg_start i) = Some (i, O).
Proof. intros E. apply where_is_Some. exists size. split_and!; [done| |lia]. eapply Forall_lookup in Hsizes; [|done]. simpl in *. lia. Qed.

(** How an entry of the table stands for a segment. *)
Record seg_rel (i : nat) (x : shm_info) (g : seg) : Prop := {
  sr_size : shm_segsz x = Z.of_nat (length (seg_data g));
  sr_config : shm_config !! i = Some (shm_segsz x);
  sr_addr : shm_addr x = seg_start i;
  sr_use : match seg_use g with
           | None => shm_id x = -1
           | Some u => shm_id x = Z.of_nat i ∧ u = MkUse (shm_key x) (shm_lpid x) (shm_cpid x) (shm_nattch x)
           end;
}.

Definition names_ok (nm : gmap Z nat) (l : list seg) : Prop :=
  forall key i, nm !! key = Some i <-> exists g u, l !! i = Some g ∧ seg_use g = Some u ∧ u_key u = key.

Record shrel (s : shst) (a : shspec) : Prop := {
  r_heap : length (shm_heap s) = length shm_config;
  r_segs : length (segs a) = length shm_config;
  r_seg : forall i x g, shm_heap s !! i = Some x -> segs a !! i = Some g -> seg_rel i x g;
  r_names : names_ok (names a) (segs a);
  r_bytes : forall y, shbytes s y = spec_load y a;
}.

(** The specification of a call, in the state of the specification [a]. *)
Definition meets {A} (s : shst) (o : A * option Z * shspec) (r : A) (s' : shst) : Prop :=
  let '(r', e, a') := o in r = r' ∧ shkern s' = with_errno e (shkern s) ∧ shrel s' a'.

Definition caller_ok (k : kst) : Prop := is_Some (arr_get (ptable k) (current_pid k)).

Lemma wp_kerrno_shm e s (Q : unit -> shst -> Prop) : caller_ok (shkern s) ->
  Q tt (set_shkern (with_errno (Some e) (shkern s)) s) -> wp (shk (kerrno e)) s Q.
Proof.
  intros [x Hx] HQ. apply wp_zoom. unfold kerrno, upd_proc, get_proc. wp_pure. apply (wp_lift _ x); [done|]. wp_pure.
  apply wp_bind. pose proof (arr_get_range _ _ _ Hx). apply (wp_lift _ (<[Z.to_nat (current_pid (shkern s)) := set_p_errno e x]> (ptable (shkern s)))).
  - by apply arr_set_in.
  - apply wp_modify. rewrite arr_get_lookup in Hx by lia. simpl in HQ. by rewrite (alter_insert _ _ _ x) in HQ.
Qed.

Lemma shrel_kern k s a : shrel s a -> shrel (set_shkern k s) a.
Proof. intros H. by destruct H; constructor. Qed.

Section access.
Context (s : shst) (a : shspec) (H : shrel s a).

(** An entry of the table and its segment. *)
Lemma entry_at i : (i < length shm_config)%nat -> exists x g, shm_heap s !! i = Some x ∧ segs a !! i = Some g ∧ seg_rel i x g.
Proof using H.
  intros Hi. destruct (lookup_lt_is_Some_2 (shm_heap s) i) as [x Hx]; [rewrite (r_heap _ _ H); lia|].
  destruct (lookup_lt_is_Some_2 (segs a) i) as [g Hg]; [rewrite (r_segs _ _ H); lia|]. exists x, g. split_and!; [done..|]. by apply (r_seg _ _ H).
Qed.

Lemma entry_of_seg i g : segs a !! i = Some g -> exists x, shm_heap s !! i = Some x ∧ seg_rel i x g.
Proof using H.
  intros Hg. destruct (entry_at i) as (x & g' & Hx & Hg' & Hr); [rewrite <- (r_segs _ _ H); by eapply lookup_lt_Some|].
  simplify_eq. by exists x.
Qed.

Lemma wp_get_shm i x (Q : shm_info -> shst -> Prop) : shm_heap s !! i = Some x -> Q x s -> wp (get_shm (Z.of_nat i)) s Q.
Proof using. intros Hx HQ. unfold get_shm. wp_pure. apply (wp_lift _ x); [by rewrite arr_get_nat|done]. Qed.

Lemma wp_upd_shm i f x (Q : unit -> shst -> Prop) : shm_heap s !! i = Some x ->
  Q tt (set_shm_heap (<[i := f x]> (shm_heap s)) s) -> wp (upd_shm (Z.of_nat i) f) s Q.
Proof using.
  intros Hx HQ. unfold upd_shm. apply wp_bind, (wp_get_shm _ x); [done|]. wp_pure. pose proof (lookup_lt_Some _ _ _ Hx).
  apply wp_bind, (wp_lift _ (<[i := f x]> (shm_heap s))); [|by apply wp_modify]. rewrite <- (Nat2Z.id i) at 2. apply arr_set_in. lia.
Qed.

(** Changing one entry and its segment. *)
Lemma shrel_insert k m nm i x' g' : (i < length shm_config)%nat -> seg_rel i x' g' -> names_ok nm (<[i := g']> (segs a)) ->
  (forall y, m y = spec_load y (MkSpec nm (<[i := g']> (segs a)) (rest a))) ->
  shrel (MkShst k (<[i := x']> (shm_heap s)) m) (MkSpec nm (<[i := g']> (segs a)) (rest a)).
Proof using H.
  intros Hi Hr Hn Hm. constructor; simpl; [rewrite length_insert; apply H..| |done|done].
  intros j x g Hx Hg. destruct (decide (i = j)) as [<-|Hij].
  - rewrite list_lookup_insert_eq in Hx by (rewrite (r_heap _ _ H); lia). rewrite list_lookup_insert_eq in Hg by (rewrite (r_segs _ _ H); lia). by simplify_eq.
  - rewrite list_lookup_insert_ne in Hx by done. rewrite list_lookup_insert_ne in Hg by done. by apply (r_seg _ _ H).
Qed.

(** When the bytes and the key stay. *)
Lemma names_same i g g' : segs a !! i = Some g -> u_key <$> seg_use g' = u_key <$> seg_use g -> names_ok (names a) (<[i := g']> (segs a)).
Proof using H.
  intros Hg Hk key j. pose proof (r_names _ _ H key j) as Hn. rewrite Hn. destruct (decide (i = j)) as [<-|Hij]; [|by rewrite list_lookup_insert_ne].
  rewrite list_lookup_insert_eq by (by eapply lookup_lt_Some). destruct g as [d [u|]], g' as [d' [u'|]]; naive_solver.
Qed.

Lemma load_same nm i g g' y : segs a !! i = Some g -> seg_data g' = seg_data g ->
  shbytes s y = spec_load y (MkSpec nm (<[i := g']> (segs a)) (rest a)).
Proof using H.
  intros Hg Hd. rewrite (r_bytes _ _ H). unfold spec_load. destruct (where_is y) as [[j o]|]; [|done]. simpl.
  destruct (decide (i = j)) as [<-|Hij]; [|by rewrite list_lookup_insert_ne].
  rewrite list_lookup_insert_eq by (by eapply lookup_lt_Some). by rewrite Hg, Hd.
Qed.

Lemma shrel_use i g x' u' : segs a !! i = Some g -> seg_rel i x' (MkSeg (seg_data g) u') -> u_key <$> u' = u_key <$> seg_use g ->
  shrel (set_shm_heap (<[i := x']> (shm_heap s)) s) (MkSpec (names a) (<[i := MkSeg (seg_data g) u']> (segs a)) (rest a)).
Proof using H.
  intros Hg Hr Hk. apply shrel_insert; [rewrite <- (r_segs _ _ H); by eapply lookup_lt_Some|done|by apply (names_same i g)|].
  intros y. by apply load_same with g.
Qed.
End access.

(** *** Each call *)

(** A refused call. *)
Ltac refused := wp_into; apply wp_kerrno_shm; [done|]; wp_pure; split_and!; [done|done|by apply shrel_kern].

Section calls.
Context (s : shst) (a : shspec) (H : shrel s a) (Hk : caller_ok (shkern s)).

(** The search for a key. *)
Lemma by_key key (Q : option Z -> shst -> Prop) : Q (Z.of_nat <$> names a !! key) s -> wp (get_shm_by_key key) s Q.
Proof using H.
  intros HQ. unfold get_shm_by_key. wp_pure. destruct (names a !! key) as [i|] eqn:En.
  - pose proof En as Ek. apply (r_names _ _ H) in Ek as (g & u & Hg & Hu & Hkey).
    destruct (entry_of_seg s a H i g Hg) as (x & Hx & [_ _ _ Huse]). rewrite Hu in Huse. destruct Huse as [Hid ->].
    rewrite (list_find_unique _ _ i x); [done|done|split; [lia|done]|].
    intros j y Hj [Hid' Hkey']. destruct (entry_at s a H j) as (y' & g' & Hy & Hg' & [_ _ _ Huse]).
    { rewrite <- (r_heap _ _ H). by eapply lookup_lt_Some. }
    simplify_eq. destruct (seg_use g') as [u'|] eqn:Eu; [|done]. destruct Huse as [_ ->].
    assert (names a !! shm_key x = Some j) by (apply (r_names _ _ H); eauto). naive_solver.
  - rewrite list_find_none; [done|]. intros j y Hj [Hid' Hkey']. destruct (entry_at s a H j) as (y' & g' & Hy & Hg' & [_ _ _ Huse]).
    { rewrite <- (r_heap _ _ H). by eapply lookup_lt_Some. }
    simplify_eq. destruct (seg_use g') as [u'|] eqn:Eu; [|done]. destruct Huse as [_ ->].
    assert (names a !! shm_key y = Some j) by (apply (r_names _ _ H); eauto). naive_solver.
Qed.

(** The test of an identifier. *)
Lemma shm_valid_spec id (Q : bool -> shst -> Prop) :
  (in_use id a = None -> Q false s) ->
  (forall i x g u, id = Z.of_nat i -> shm_heap s !! i = Some x -> segs a !! i = Some g -> seg_use g = Some u -> seg_rel i x g ->
    in_use id a = Some (g, u) -> Q true s) ->
  wp (shm_valid id) s Q.
Proof using H.
  intros Hno Hyes. unfold shm_valid, N_SHM. case_bool_decide as Hid.
  - apply wp_ret, Hno. unfold in_use. destruct (arr_get (segs a) id) eqn:E; [|done]. apply arr_get_range in E.
    rewrite (r_segs _ _ H) in E. lia.
  - destruct (entry_at s a H (Z.to_nat id)) as (x & g & Hx & Hg & Hr); [lia|].
    replace id with (Z.of_nat (Z.to_nat id)) at 1 by lia. wp_into. apply (wp_get_shm s _ x); [done|]. apply wp_ret.
    assert (Ha : arr_get (segs a) id = Some g) by (rewrite arr_get_lookup by lia; done).
    pose proof (sr_use _ _ _ Hr) as Huse. destruct (seg_use g) as [u|] eqn:Eu.
    + rewrite bool_decide_eq_true_2 by lia. apply (Hyes (Z.to_nat id) x g u); try done; [lia|]. unfold in_use. simpl. by rewrite Ha; simpl; rewrite Eu.
    + rewrite bool_decide_eq_false_2 by lia. apply Hno. unfold in_use. rewrite Ha. simpl. by rewrite Eu.
Qed.

Lemma shmat_spec id : wp (shm_call (ShAt id)) s (meets s (spec_at (current_pid (shkern s)) id a)).
Proof using H Hk.
  simpl. unfold sys_shmat. wp_pure. wp_into. apply shm_valid_spec.
  - intros E. unfold spec_at. rewrite E. simpl. refused.
  - intros i x g u -> Hx Hg Hu Hr E. unfold spec_at. rewrite E. simpl. wp_pure. wp_into. apply (wp_upd_shm s _ _ x); [done|].
    wp_pure. wp_into. apply wp_zoom, wp_gets. wp_into. pose proof (lookup_lt_Some _ _ _ Hx).
    eapply wp_upd_shm; [simpl; by apply list_lookup_insert_eq|]. simpl. rewrite list_insert_insert_eq. apply wp_bind.
    eapply wp_get_shm; [simpl; by apply list_lookup_insert_eq|]. apply wp_ret, wp_ret. simpl. unfold accept, meets. simpl.
    rewrite Nat2Z.id. destruct Hr as [Hsz Hc Ha Huse]. rewrite Hu in Huse. destruct Huse as [Hid ->].
    split_and!; [by rewrite Ha|done|]. unfold set_use. rewrite (alter_insert _ _ _ g Hg), Hu. simpl.
    apply (shrel_use s a H i g); [done|by constructor|by rewrite Hu].
Qed.

Lemma shmdt_spec addr : wp (shm_call (ShDt addr)) s (meets s (spec_dt addr a)).
Proof using H Hk Hsizes.
  simpl. unfold sys_shmdt. wp_pure. unfold spec_dt.
  destruct (list_find _ (shm_heap s)) as [[i x]|] eqn:E.
  - apply list_find_Some in E as (Hx & Ha & _). destruct (entry_at s a H i) as (x' & g & Hx' & Hg & Hr).
    { rewrite <- (r_heap _ _ H). by eapply lookup_lt_Some. }
    simplify_eq. pose proof Hr as [Hsz Hc Ha Huse]. rewrite Ha, (where_is_start i (shm_segsz x) Hc).
    wp_into. wp_pure. wp_into. apply (wp_upd_shm s _ _ x); [done|]. wp_pure. split_and!; [done..|].
    unfold set_use. rewrite (alter_insert _ _ _ g Hg). apply (shrel_use s a H i g); [done| |by destruct (seg_use g)].
    constructor; simpl; try done. destruct (seg_use g) as [u|]; simpl; [|done]. by destruct Huse as [? ->].
  - destruct (where_is addr) as [[i [|o]]|] eqn:Ew; [|refused|refused]. apply where_is_Some in Ew as (size & Hc & _ & ->).
    destruct (entry_at s a H i) as (x & g & Hx & Hg & Hr); [by eapply lookup_lt_Some|].
    apply list_find_None in E. eapply Forall_lookup in E; [|done]. destruct E. rewrite (sr_addr _ _ _ Hr). lia.
Qed.

(** Creating a segment, and removing one. *)
Lemma names_new i g u d : segs a !! i = Some g -> seg_use g = None -> names a !! u_key u = None ->
  names_ok (<[u_key u := i]> (names a)) (<[i := MkSeg d (Some u)]> (segs a)).
Proof using H.
  intros Hg Hu Hn key j. pose proof (r_names _ _ H key j) as Hold. destruct (decide (i = j)) as [<-|Hij].
  - rewrite list_lookup_insert_eq by (by eapply lookup_lt_Some). split.
    + intros E. exists (MkSeg d (Some u)), u. split_and!; [done..|]. apply lookup_insert_Some in E as [[? _]|[_ E]]; [done|]. apply Hold in E. naive_solver.
    + intros (g' & u' & ? & ? & <-). simplify_eq/=. apply lookup_insert_eq.
  - rewrite list_lookup_insert_ne by done. rewrite <- Hold. rewrite lookup_insert_Some. split; [by intros [[_ ?]|[_ ?]]|]. intros E. right. split; [congruence|done].
Qed.

Lemma names_remove i g u d : segs a !! i = Some g -> seg_use g = Some u ->
  names_ok (delete (u_key u) (names a)) (<[i := MkSeg d None]> (segs a)).
Proof using H.
  intros Hg Hu key j. pose proof (r_names _ _ H key j) as Hold. rewrite lookup_delete_Some.
  assert (names a !! u_key u = Some i) by (apply (r_names _ _ H); eauto). destruct (decide (i = j)) as [<-|Hij].
  - rewrite list_lookup_insert_eq by (by eapply lookup_lt_Some). split.
    + intros [Hk' E]. apply Hold in E as (? & ? & ? & ? & ?). simplify_eq.
    + intros (? & ? & ? & ? & ?). simplify_eq/=.
  - rewrite list_lookup_insert_ne by done. rewrite <- Hold. split; [by intros [_ ?]|]. intros E. split; [congruence|done].
Qed.

Lemma zeroed nm i g size u y : segs a !! i = Some g -> shm_config !! i = Some size -> size = Z.of_nat (length (seg_data g)) ->
  bzero (seg_start i) size (shbytes s) y = spec_load y (MkSpec nm (<[i := MkSeg (replicate (length (seg_data g)) 0) u]> (segs a)) (rest a)).
Proof using H Hsizes.
  intros Hg Hc Hsz. unfold bzero, spec_load. rewrite (r_bytes _ _ H). unfold spec_load. simpl.
  case_bool_decide as Hy.
  - rewrite (proj2 (where_is_Some y i (Z.to_nat (y - seg_start i)))) by (exists size; split_and!; [done|lia|lia]).
    rewrite list_lookup_insert_eq by (by eapply lookup_lt_Some). simpl. by rewrite lookup_replicate_2 by lia.
  - destruct (where_is y) as [[j o]|] eqn:Ew; [|done]. apply where_is_Some in Ew as (size' & Hc' & Ho & ->).
    rewrite list_lookup_insert_ne; [done|]. intros ->. simplify_eq. lia.
Qed.

(** The segments that [sys_shmget] may take. *)
Lemma free_iff i x g size : seg_rel i x g ->
  shm_id x = -1 ∧ shm_segsz x = size <-> seg_use g = None ∧ Z.of_nat (length (seg_data g)) = size.
Proof using. intros [-> _ _ Huse]. destruct (seg_use g) as [u|]; [|tauto]. destruct Huse as [Hid _]. split; intros [? ?]; [lia|done]. Qed.

Lemma shmget_spec key size flg : wp (shm_call (ShGet key size flg)) s (meets s (spec_get (current_pid (shkern s)) key size flg a)).
Proof using H Hk Hsizes.
  simpl. unfold sys_shmget. wp_into. apply by_key. unfold spec_get. destruct (names a !! key) as [i|] eqn:En; simpl.
  - case_bool_decide; [refused|]. pose proof En as Ek. apply (r_names _ _ H) in Ek as (g & u & Hg & Hu & _).
    destruct (entry_of_seg s a H i g Hg) as (x & Hx & [_ _ _ Huse]). rewrite Hu in Huse. destruct Huse as [Hid _].
    wp_into. apply (wp_get_shm s i x); [done|]. wp_pure. split_and!; [by rewrite Hid|done|done].
  - case_bool_decide; [refused|]. case_bool_decide; [refused|]. wp_pure.
    pose proof (list_find_agree (λ x, shm_id x = -1 ∧ shm_segsz x = size)
      (λ g, seg_use g = None ∧ Z.of_nat (length (seg_data g)) = size) (shm_heap s) (segs a)) as Hf.
    destruct (list_find _ (shm_heap s)) as [[i x0]|] eqn:Ef.
    + destruct Hf as [g Hf]; [by rewrite (r_heap _ _ H), (r_segs _ _ H)| |].
      { intros j x g Hx Hg. by apply (free_iff j), (r_seg _ _ H). }
      rewrite Hf. apply list_find_Some in Hf as (Hg & [Hu Hsz] & _). destruct (entry_of_seg s a H i g Hg) as (x & Hx & [Hl Hc Ha _]).
      unfold new_shm. wp_into. apply wp_zoom, wp_gets. wp_into. apply (wp_upd_shm _ i _ x); [done|]. wp_into. pose proof (lookup_lt_Some _ _ _ Hx).
      eapply wp_get_shm; [by apply list_lookup_insert_eq|]. wp_pure. split_and!; [done..|]. simpl.
      apply (shrel_insert s a H); [by eapply lookup_lt_Some|constructor; simpl; try done; by rewrite length_replicate|by apply (names_new i g (MkUse key (-1) (current_pid (shkern s)) 0))|].
      intros y. rewrite Ha. by apply zeroed.
    + rewrite Hf; [refused|by rewrite (r_heap _ _ H), (r_segs _ _ H)|].
      intros j x g Hx Hg. by apply (free_iff j), (r_seg _ _ H).
Qed.

Lemma shmctl_spec id cmd buf : wp (shm_call (ShCtl id cmd buf)) s (meets s (spec_ctl id cmd buf a)).
Proof using H Hk.
  simpl. unfold sys_shmctl. wp_into. apply shm_valid_spec.
  - intros E. unfold spec_ctl. rewrite E. simpl. refused.
  - intros i x g u -> Hx Hg Hu Hr E. unfold spec_ctl. rewrite E. simpl. wp_into. apply (wp_get_shm s i x); [done|].
    pose proof Hr as [Hsz Hc Ha Huse]. rewrite Hu in Huse. destruct Huse as [Hid ->].
    case_bool_decide; [destruct buf; [wp_pure; split_and!; [by rewrite Hsz|done|done]|refused]|].
    rewrite bool_decide_eq_false_2 by done. case_bool_decide; [|refused].
    wp_into. apply (wp_upd_shm s _ _ x); [done|]. wp_pure. split_and!; [done..|]. rewrite Nat2Z.id, (alter_insert _ _ _ g Hg).
    apply (shrel_insert s a H); [by eapply lookup_lt_Some|by constructor|by apply (names_remove i g)|].
    intros y. by apply (load_same s a H) with g.
Qed.

Lemma shm_store_spec ad v : wp (shm_call (ShStore ad v)) s (meets s (accept 0 (spec_store ad v a))).
Proof using H Hsizes.
  simpl. wp_pure. split_and!; [done..|]. unfold spec_store. destruct (where_is ad) as [[i o]|] eqn:Ew.
  - pose proof Ew as Ew'. apply where_is_Some in Ew' as (size & Hc & Ho & ->).
    destruct (entry_at s a H i) as (x & g & Hx & Hg & [Hsz Hc' Ha Huse]); [by eapply lookup_lt_Some|]. simplify_eq.
    rewrite (alter_insert _ _ _ g Hg). unfold set_shbytes. replace (shm_heap s) with (<[i := x]> (shm_heap s)) by (by rewrite list_insert_id).
    apply (shrel_insert s a H); [by eapply lookup_lt_Some|constructor; simpl; [by rewrite length_insert|done..]|by apply (names_same s a H i g)|].
    intros y. unfold store_at, spec_load. rewrite (r_bytes _ _ H). unfold spec_load. simpl. case_bool_decide as Hy.
    + subst y. rewrite Ew, list_lookup_insert_eq by (by eapply lookup_lt_Some). simpl. by rewrite list_lookup_insert_eq by lia.
    + destruct (where_is y) as [[j o']|] eqn:Ey; [|done]. destruct (decide (i = j)) as [<-|Hij]; [|by rewrite list_lookup_insert_ne].
      rewrite list_lookup_insert_eq, Hg by (by eapply lookup_lt_Some). simpl. rewrite list_lookup_insert_ne; [done|].
      intros <-. apply where_is_Some in Ey as (? & ? & ? & ->). lia.
  - destruct H as [H1 H2 H3 H4 H5]. constructor; simpl; try done. intros y. unfold store_at, spec_load. rewrite H5. unfold spec_load. simpl.
    case_bool_decide; [subst y; by rewrite Ew|]. by destruct (where_is y) as [[]|].
Qed.

Lemma shm_call_spec c : wp (shm_call c) s (meets s (spec_call (current_pid (shkern s)) c a)).
Proof using H Hk Hsizes.
  destruct c as [key size flg|id cmd buf|id|addr|ad|ad v]; simpl spec_call; [apply shmget_spec|apply shmctl_spec|apply shmat_spec|apply shmdt_spec| |apply shm_store_spec].
  simpl. wp_pure. split_and!; [|done..]. by rewrite (r_bytes _ _ H).
Qed.
End calls.

(** *** The initial table, and sequences of calls *)

(** An entry that [shm_init] has set. *)
Definition set_up (i : nat) (x : shm_info) : Prop :=
  shm_config !! i = Some (shm_segsz x) ∧ shm_addr x = seg_start i ∧ shm_id x = -1.

Lemma init_loop_spec (Hfit : offset_of shm_config (length shm_config) < 2^32) cfg : forall pre s,
  shm_config = pre ++ cfg -> length (shm_heap s) = length shm_config ->
  (forall i x, (i < length pre)%nat -> shm_heap s !! i = Some x -> set_up i x) ->
  wp (shm_init_loop cfg (Z.of_nat (length pre)) (offset_of shm_config (length pre))) s (λ _ s',
    length (shm_heap s') = length shm_config ∧ (forall i x, shm_heap s' !! i = Some x -> set_up i x) ∧ shbytes s' = shbytes s).
Proof using Hsizes.
  induction cfg as [|size cfg IH]; intros pre s Hc Hl Hset; simpl.
  - apply wp_ret. split_and!; [done| |done]. intros i x Hx. apply Hset; [|done]. rewrite app_nil_r in Hc. rewrite <- Hc, <- Hl. by eapply lookup_lt_Some.
  - assert (Hsz : shm_config !! length pre = Some size) by (rewrite Hc; by apply list_lookup_middle).
    pose proof (lookup_lt_Some _ _ _ Hsz) as Hlt. destruct (lookup_lt_is_Some_2 (shm_heap s) (length pre)) as [x Hx]; [lia|].
    apply wp_bind, (wp_upd_shm s _ _ x); [done|].
    replace (Z.of_nat (length pre) + 1) with (Z.of_nat (length (pre ++ [size]))) by (rewrite length_app; simpl; lia).
    assert (Hoff : u32 (offset_of shm_config (length pre) + size) = offset_of shm_config (length (pre ++ [size]))).
    { rewrite length_app, Nat.add_1_r, (offset_snoc _ _ _ Hsz). apply u32_small.
      assert (0 < size) by (eapply Forall_lookup in Hsizes; [|done]; done). pose proof (offset_nonneg shm_config (length pre) Hsizes).
      revert Hfit. unfold offset_of. rewrite Hc, take_app_length, !firstn_all, foldr_app. simpl.
      assert (0 <= foldr Z.add 0 cfg) as Hpos.
      { rewrite Hc in Hsizes. apply Forall_app in Hsizes as [_ Hs]. apply list.Forall_cons in Hs as [_ Hs]. pose proof (offset_nonneg cfg (length cfg) Hs) as Hp.
        unfold offset_of in Hp. by rewrite firstn_all in Hp. }
      assert (forall b, foldr Z.add b pre = foldr Z.add 0 pre + b) as Hadd by (intros b; clear; induction pre; simpl; lia).
      rewrite Hadd. unfold offset_of in *. rewrite Hc, take_app_length in *. unfold is_u32. lia. }
    rewrite Hoff. eapply wp_mono; [apply (IH (pre ++ [size]))|].
    + by rewrite <- app_assoc.
    + simpl. by rewrite length_insert.
    + simpl. intros i y Hi Hy. rewrite length_app in Hi. simpl in Hi. destruct (decide (length pre = i)) as [<-|Hne].
      * rewrite list_lookup_insert_eq in Hy by lia. simplify_eq. by split_and!.
      * rewrite list_lookup_insert_ne in Hy by done. apply Hset; [lia|done].
    + intros [] s' (? & ? & ?). by split_and!.
Qed.

Lemma init_rel s : length (shm_heap s) = length shm_config -> (forall i x, shm_heap s !! i = Some x -> set_up i x) ->
  shrel s (spec_init (shbytes s)).
Proof using Hsizes.
  intros Hl Hset. constructor; simpl; [done|by rewrite length_imap| | |].
  - intros i x g Hx Hg. destruct (Hset i x Hx) as (Hc & Ha & Hid). rewrite list_lookup_imap, Hc in Hg. simplify_eq/=.
    constructor; simpl; try done. rewrite length_fmap, length_seqZ. eapply Forall_lookup in Hsizes; [|done]. simpl in *. lia.
  - intros key i. rewrite lookup_empty. split; [done|]. intros (g & u & Hg & Hu & _). rewrite list_lookup_imap in Hg.
    destruct (shm_config !! i); by simplify_eq/=.
  - intros y. unfold spec_load. destruct (where_is y) as [[i o]|] eqn:Ew; [|done]. simpl. apply where_is_Some in Ew as (size & Hc & Ho & ->).
    rewrite list_lookup_imap, Hc. simpl. rewrite list_lookup_fmap, lookup_seqZ_lt by lia. done.
Qed.

Lemma shm_run_spec l : forall s a, shrel s a -> Forall (λ kc, caller_ok kc.1) l -> wp (shm_run l) s (λ out _, out = spec_run l a).
Proof using Hsizes.
  induction l as [|[k c] l IH]; intros s a H Hl; simpl; [by apply wp_ret|]. apply list.Forall_cons in Hl as [Hk Hl]. wp_pure. apply wp_bind.
  eapply wp_mono; [apply (shm_call_spec (set_shkern k s) a); [by apply shrel_kern|done]|]. intros r s' Hm. unfold meets in Hm. simpl in Hm.
  destruct (spec_call (current_pid k) c a) as [[r' e] a']. destruct Hm as (-> & Hk' & H'). wp_pure. apply wp_bind.
  eapply wp_mono; [by apply (IH s' a')|]. intros out s'' ->. apply wp_ret. by rewrite Hk'.
Qed.
End correct.

(** ** The theorem *)

(** C19: Shared memory behaves as named, separate arrays of bytes. From the initial table on, any
    sequence of calls and of loads and stores, each by any process, returns what the specification
    returns: a key names one segment, a new segment has the size asked for and only zeros in it, a
    byte changes only when something is stored at its place in its own segment (no segment and no
    other memory overlaps it), [IPC_STAT] reports the creator, the last process and the number of
    attaches, and each error sets [errno] of the caller and nothing else. *)
Theorem shm_refines {KC : KConfig} {SC : ShmConfig} (l : list (kst * shcall)) (s : shst) :
  Forall (λ n, 0 < n) shm_config -> offset_of shm_config (length shm_config) < 2^32 ->
  length (shm_heap s) = length shm_config -> Forall (λ kc, caller_ok kc.1) l ->
  wp (shm_init;; shm_run l) s (λ out _, out = spec_run l (spec_init (shbytes s))).
Proof.
  intros Hsizes Hfit Hl Hk. apply wp_bind. eapply wp_mono; [apply (init_loop_spec Hsizes Hfit shm_config []); [done|done|simpl; lia]|].
  intros [] s' (Hl' & Hset & <-). apply (shm_run_spec Hsizes); [by apply (init_rel Hsizes)|done].
Qed.

(** Two segments of 4 and 2 bytes; process 1 creates one and writes into it, process 2 reads it. *)
#[local] Instance demo_shm : ShmConfig := { shm_config := [4; 2]; shm_mem := 0x1000 }.
Definition demo_at (p : Z) : kst := set_current_pid p (demo_start false [0; 0]).
Definition demo_calls : list (kst * shcall) :=
  [(demo_at 1, ShGet 77 2 IPC_CREAT); (demo_at 1, ShAt 1); (demo_at 1, ShStore 0x1005 9);
   (demo_at 2, ShGet 77 2 0); (demo_at 2, ShAt 1); (demo_at 2, ShLoad 0x1004); (demo_at 2, ShLoad 0x1005);
   (demo_at 2, ShCtl 1 IPC_STAT true); (demo_at 2, ShGet 78 2 IPC_CREAT)].
Definition demo_shst : shst := MkShst (demo_at 1) (replicate 2 (MkShm 0 0 0 0 0 0 0)) (λ a, a mod 256).

Lemma shm_refines_witness :
  exists out s', (shm_init;; shm_run demo_calls) demo_shst = Some (out, s') ∧ out = spec_run demo_calls (spec_init (shbytes demo_shst)) ∧
    fst <$> out = [(1, None); (0x1004, None); (0, None); (1, None); (0x1004, None); (0, None); (9, None); (0, Some (2, 2, 1, 2)); (-1, None)].
Proof.
  destruct (proj1 (wp_run _ _ _) (@shm_refines (demo_conf false) demo_shm demo_calls demo_shst
    ltac:(by repeat constructor) ltac:(done) ltac:(done) ltac:(by repeat (constructor; [vm_compute; by eexists|]); constructor))) as (out & s' & E & ->).
  exists (spec_run demo_calls (spec_init (shbytes demo_shst))), s'. split; [exact E|]. split; [done|]. vm_compute. reflexivity.
Defined.
