(* ===== verification/Kthread.v ===== *)
(** * Threads of the kernel (pthread.c, and the stack memory of mem.c)

    A thread is a process with an entry of [thread_info_list]: its attributes, its
    stack, its state and return value, and the thread that waits to join it. The
    calls run on top of the kernel, whose state is a part of the state here;
    [thread_of] is the field [thread] of the process table, [init_sp] the stack
    pointer that the context of a new thread starts with, [jctx] whether a waiting
    [sys_pthread_join] has a pointer for the return value.

    A thread that waits in [sys_pthread_join] has the frame [FJoin] in the kernel,
    and its call goes on here ([join_end]). *)

From stdpp Require Import gmap.
From S2P Require Import Prelude Kqueue Kheap Ktimer Ksched Ksem Kmutex Kernel Kkill.
Open Scope Z_scope.

(** ** Constants (kpthread.h, errno.h) and configuration *)

Definition PTHREAD_STATE_ALIVE : Z := 1.
Definition PTHREAD_STATE_EXIT : Z := 2.
Definition PTHREAD_STATE_DETACHED : Z := 3.
Definition ESRCH : Z := 3.
Definition PRIO_HIGHEST : Z := 0.
Definition SCHED_PRIO : Z := 3.

(** The last three are constants of the C library's pthread.h. *)
Class ThreadConfig := {
  MAX_PTHREADS : Z;
  PTHREAD_STACK_SIZE : Z;
  SSTACK_PTR_ADJUST : Z;
  thread_stack_mem : Z;      (** the address of the array *)
  PTHREAD_CREATE_DETACHED : Z;
  PTHREAD_CREATE_JOINABLE : Z;
  PTHREAD_SCOPE_SYSTEM : Z;
}.

(** ** Data *)

Record pthread_attr_t := MkAttr {
  sched_priority : Z;
  contentionscope : Z;
  detachstate : Z;
  stackaddr : Z;
  stacksize : Z;
}.
Definition set_detachstate (x : Z) (a : pthread_attr_t) : pthread_attr_t :=
  MkAttr (sched_priority a) (contentionscope a) x (stackaddr a) (stacksize a).
Definition set_sched_priority (x : Z) (a : pthread_attr_t) : pthread_attr_t :=
  MkAttr x (contentionscope a) (detachstate a) (stackaddr a) (stacksize a).

(** Pointers to processes and threads are their indices; the queue [joinq] is
    [JoinQ] of the kernel. *)
Record pthread_info := MkThread {
  t_allocated : bool;
  parent : option Z;
  tid : Z;
  retval : Z;
  start_func : Z;
  t_param : Z;
  t_state : Z;
  join_thread : option Z;
  mem_id : Z;
  thread_attr : pthread_attr_t;
}.

Definition set_parent (x : option Z) (t : pthread_info) : pthread_info :=
  MkThread (t_allocated t) x (tid t) (retval t) (start_func t) (t_param t) (t_state t) (join_thread t) (mem_id t) (thread_attr t).
Definition set_retval (x : Z) (t : pthread_info) : pthread_info :=
  MkThread (t_allocated t) (parent t) (tid t) x (start_func t) (t_param t) (t_state t) (join_thread t) (mem_id t) (thread_attr t).
Definition set_t_state (x : Z) (t : pthread_info) : pthread_info :=
  MkThread (t_allocated t) (parent t) (tid t) (retval t) (start_func t) (t_param t) x (join_thread t) (mem_id t) (thread_attr t).
Definition set_join_thread (x : option Z) (t : pthread_info) : pthread_info :=
  MkThread (t_allocated t) (parent t) (tid t) (retval t) (start_func t) (t_param t) (t_state t) x (mem_id t) (thread_attr t).
Definition set_mem_id (x : Z) (t : pthread_info) : pthread_info :=
  MkThread (t_allocated t) (parent t) (tid t) (retval t) (start_func t) (t_param t) (t_state t) (join_thread t) x (thread_attr t).
Definition set_thread_attr (x : pthread_attr_t) (t : pthread_info) : pthread_info :=
  MkThread (t_allocated t) (parent t) (tid t) (retval t) (start_func t) (t_param t) (t_state t) (join_thread t) (mem_id t) x.

Record tst := MkTst {
  tkern : kst;
  thread_info_list : list pthread_info;
  thread_stack_memid : list Z;
  default_attr : pthread_attr_t;
  thread_of : gmap Z Z;
  init_sp : gmap Z Z;
  jctx : gmap Z bool;
}.

Section threads.
Context {KC : KConfig} {TC : ThreadConfig}.
Abbreviation M := (ST tst).

Definition set_tkern (x : kst) (s : tst) : tst := MkTst x (thread_info_list s) (thread_stack_memid s) (default_attr s) (thread_of s) (init_sp s) (jctx s).
Definition set_infos (x : list pthread_info) (s : tst) : tst := MkTst (tkern s) x (thread_stack_memid s) (default_attr s) (thread_of s) (init_sp s) (jctx s).
Definition set_memids (x : list Z) (s : tst) : tst := MkTst (tkern s) (thread_info_list s) x (default_attr s) (thread_of s) (init_sp s) (jctx s).
Definition set_default_attr (x : pthread_attr_t) (s : tst) : tst := MkTst (tkern s) (thread_info_list s) (thread_stack_memid s) x (thread_of s) (init_sp s) (jctx s).
Definition set_thread_of (x : gmap Z Z) (s : tst) : tst := MkTst (tkern s) (thread_info_list s) (thread_stack_memid s) (default_attr s) x (init_sp s) (jctx s).
Definition set_init_sp (x : gmap Z Z) (s : tst) : tst := MkTst (tkern s) (thread_info_list s) (thread_stack_memid s) (default_attr s) (thread_of s) x (jctx s).
Definition set_jctx (x : gmap Z bool) (s : tst) : tst := MkTst (tkern s) (thread_info_list s) (thread_stack_memid s) (default_attr s) (thread_of s) (init_sp s) x.

Definition tk {A} (m : ST kst A) : M A := zoom tkern set_tkern m.
Definition get_thread (i : Z) : M pthread_info := l ← gets thread_info_list; lift (arr_get l i).
Definition upd_thread (i : Z) (f : pthread_info -> pthread_info) : M unit :=
  t ← get_thread i; l ← gets thread_info_list; l' ← lift (arr_set l i (f t)); modify (set_infos l').

(** ** Stack memory (mem.c) *)

Definition set_memid (i x : Z) : M unit := l ← gets thread_stack_memid; l' ← lift (arr_set l i x); modify (set_memids l').
Definition bss_mem_init : M unit := for_up 0 MAX_PTHREADS (λ i, set_memid i 0).

(** The number of the stack, and the addresses where it starts and ends. *)
Definition alloc_bss_mem : M (option (Z * Z * Z)) :=
  l ← gets thread_stack_memid;
  match list_find (λ x, x = 0) l with
  | Some (i, _) =>
      let i := Z.of_nat i in
      let start := u32 (thread_stack_mem + PTHREAD_STACK_SIZE * i) in
      set_memid i 1;;
      mret (Some (i, start, u32 (start + PTHREAD_STACK_SIZE)))
  | None => mret None
  end.
Definition free_bss_mem (memid : Z) : M unit := set_memid memid 0.

(** ** Thread table *)

(** A fresh queue for one process; its memory is in the entry. *)
Definition joinq_alloc (i : Z) : ST kst unit :=
  m ← gets kqs;
  let mem := match m !! JoinQ i with Some x => items x | None => [0] end in
  modify (set_kqs (<[JoinQ i := alloc_q mem 1]> m)).

Definition pthread_init : M unit :=
  bss_mem_init;;
  modify (set_default_attr (MkAttr PRIO_LOWEST PTHREAD_SCOPE_SYSTEM PTHREAD_CREATE_DETACHED 0 0));;
  a ← gets default_attr;
  for_up 0 MAX_PTHREADS (λ i,
    upd_thread i (λ t, MkThread false None i (retval t) (start_func t) (t_param t) PTHREAD_STATE_DETACHED None (-1) a);;
    tk (joinq_alloc i));;
  tk pthread_mutex_heap_init.

Definition invalidate_thread_info (i : Z) : M unit :=
  upd_thread i (λ t, MkThread false None (tid t) 0 0 0 PTHREAD_STATE_DETACHED None (mem_id t) (thread_attr t));;
  tk (joinq_alloc i);;
  tk (on_q (JoinQ i) qinit);;
  t ← get_thread i;
  (if bool_decide (mem_id t ≠ -1) then
     free_bss_mem (mem_id t);;
     upd_thread i (set_mem_id (-1))
   else skip);;
  a ← gets default_attr;
  upd_thread i (set_thread_attr a).

Definition pthread_get_info (thr : Z) : option Z :=
  if bool_decide (0 <= s32 thr ∧ s32 thr < MAX_PTHREADS) then Some (s32 thr) else None.

(** A thread that does not exist makes the caller follow a null pointer. *)
Definition sys_pthread_self : M Z :=
  c ← tk (gets current_pid);
  if bool_decide (c = -1) then mret (u32 (-1)) else
  m ← gets thread_of;
  i ← lift (m !! c);
  t ← get_thread i;
  mret (tid t).

(** *** Creation *)

(** The checks of the attributes. *)
Definition attr_ok (a : pthread_attr_t) : bool :=
  bool_decide (¬ (PRIO_LOWEST < sched_priority a ∨ sched_priority a < PRIO_HIGHEST ∨ contentionscope a ≠ PTHREAD_SCOPE_SYSTEM ∨
    (detachstate a ≠ PTHREAD_CREATE_DETACHED ∧ detachstate a ≠ PTHREAD_CREATE_JOINABLE))).

(** [proc_create], which clears the field [thread]. *)
Definition t_proc_create (priority : Z) : M Z :=
  pid ← tk (proc_create priority);
  (if bool_decide (pid = -1) then skip else modify (λ s, set_thread_of (delete pid (thread_of s)) s));;
  mret pid.

(** The end of [sys_pthread_create], with the entry and the stack (its start and end). *)
Definition new_thread (i : Z) (a : pthread_attr_t) (bss_end_addr : Z) : M (Z * option Z) :=
  pid ← t_proc_create (sched_priority a);
  if bool_decide (pid = -1) then invalidate_thread_info i;; mret (EAGAIN, None) else
  let sp := if bool_decide (stackaddr a = 0) then u32 (bss_end_addr + SSTACK_PTR_ADJUST)
            else u32 (stackaddr a + stacksize a + SSTACK_PTR_ADJUST) in
  tk (upd_proc pid (set_isrflag 2));;
  modify (λ s, set_init_sp (<[pid := sp]> (init_sp s)) s);;
  modify (λ s, set_thread_of (<[pid := i]> (thread_of s)) s);;
  upd_thread i (set_parent (Some pid));;
  t ← get_thread i;
  mret (0, Some (tid t)).

(** [thread] says whether the pointer is not null; the result and the value that
    is stored there. A [mem_id] is a [signed char]. *)
Definition sys_pthread_create (thread : bool) (attr : option pthread_attr_t) (start param : Z) : M (Z * option Z) :=
  if negb thread then mret (-1, None) else
  d ← gets default_attr;
  let a := default d attr in
  if (match attr with Some a => negb (attr_ok a) | None => false end) then mret (EINVAL, None) else
  l ← gets thread_info_list;
  match list_find (λ t, t_allocated t = false) l with
  | None => mret (EAGAIN, None)
  | Some (i, _) =>
      let i := Z.of_nat i in
      upd_thread i (λ t, MkThread true (parent t) (tid t) (retval t) start param PTHREAD_STATE_ALIVE None (mem_id t) a);;
      tk (on_q (JoinQ i) qinit);;
      if bool_decide (stackaddr a = 0) then
        r ← alloc_bss_mem;
        match r with
        | None => upd_thread i (set_mem_id (-1));; invalidate_thread_info i;; mret (EAGAIN, None)
        | Some (m, _, bss_end_addr) => upd_thread i (set_mem_id (s8 m));; new_thread i a bss_end_addr
        end
      else new_thread i a 0
  end.

(** The threads of the configuration (kb_pthread_table): priority and start address. *)
Fixpoint kb_pthread_init (l : list (Z * Z)) (a : pthread_attr_t) : M Z :=
  match l with
  | [] => mret 0
  | (priority, start) :: l =>
      let a := if sched_is_prio then set_sched_priority priority a else a in
      r ← sys_pthread_create true (Some a) start 0;
      if bool_decide (r.1 ≠ 0) then mret (-1) else kb_pthread_init l a
  end.

(** *** Exit *)

(** What [sys_pthread_exit] and [pthread_terminate] have in common: [p] is the
    process that is dead afterwards when the thread is joinable. *)
Definition thread_end (i v p : Z) : M unit :=
  upd_thread i (λ t, set_t_state PTHREAD_STATE_EXIT (set_retval v t));;
  t ← get_thread i;
  (match join_thread t with Some _ => tk (process_unblock (JoinQ i)) | None => skip end);;
  t ← get_thread i;
  if bool_decide (detachstate (thread_attr t) = PTHREAD_CREATE_DETACHED) then
    pp ← lift (parent t);
    tk (process_invalidate pp);;
    invalidate_thread_info i
  else tk (upd_proc p (set_p_state PROC_DEAD)).

Definition sys_pthread_exit (v : Z) : M outcome :=
  c ← tk (gets current_pid);
  m ← gets thread_of;
  i ← lift (m !! c);
  thread_end i v c;;
  tk (suspend FExit);;
  mret Blocked.

Definition pthread_terminate (i : Z) : M unit :=
  t ← get_thread i;
  p ← lift (parent t);
  thread_end i 0 p.

(** *** Joining *)

(** After the wait; [ret] says whether [retval] is not null. The result and the value
    stored there. *)
Definition join_end (i : Z) (ret : option Z) : M (outcome * option Z) :=
  t ← get_thread i;
  if bool_decide (t_state t ≠ PTHREAD_STATE_DETACHED) then
    p ← lift (parent t);
    tk (process_invalidate p);;
    invalidate_thread_info i;;
    mret (Done 0, (λ _, retval t) <$> ret)
  else mret (Done 0, ret).

(** The wait is over: [retval] is read at once, and again by [join_end]. *)
Definition join_resume (i : Z) (want : bool) : M (outcome * option Z) :=
  t ← get_thread i;
  join_end i (if want then Some (retval t) else None).

Definition sys_pthread_join (target : Z) (want : bool) : M (outcome * option Z) :=
  cur ← sys_pthread_self;
  match pthread_get_info target with
  | None => mret (Done ESRCH, None)
  | Some i =>
      t ← get_thread i;
      if bool_decide (t_state t = PTHREAD_STATE_ALIVE) then
        if bool_decide (join_thread t ≠ None) then mret (Done EINVAL, None) else
        upd_thread i (set_join_thread (pthread_get_info cur));;
        c ← tk (gets current_pid);
        modify (λ s, set_jctx (<[c := want]> (jctx s)) s);;
        tk (process_block (JoinQ i) PROC_WAIT (FJoin i));;
        mret (Blocked, None)
      else if bool_decide (t_state t = PTHREAD_STATE_DETACHED) then mret (Done ESRCH, None)
      else join_end i (if want then Some 0 else None)
  end.

(** *** The other calls *)

Definition sys_pthread_detach (thread : Z) : M Z :=
  match pthread_get_info thread with
  | None => mret ESRCH
  | Some i =>
      t ← get_thread i;
      (if bool_decide (t_state t = PTHREAD_STATE_EXIT) then
         p ← lift (parent t);
         tk (process_invalidate p);;
         invalidate_thread_info i
       else upd_thread i (λ t, set_thread_attr (set_detachstate PTHREAD_STATE_DETACHED (thread_attr t)) t));;
      mret 0
  end.

Definition sys_pthread_equal (t1 t2 : Z) : Z := if bool_decide (pthread_get_info t1 = pthread_get_info t2) then 1 else 0.

(** [ok] says whether both pointers are not null; the priority and the policy. *)
Definition sys_pthread_getschedparam (thread : Z) (ok : bool) : M (Z * option (Z * Z)) :=
  match pthread_get_info thread with
  | None => mret (ESRCH, None)
  | Some i =>
      if negb ok then mret (EINVAL, None) else
      t ← get_thread i;
      p ← lift (parent t);
      x ← tk (get_proc p);
      mret (0, Some (p_priority x, SCHED_PRIO))
  end.

Definition set_priority (p prio : Z) : ST kst unit := upd_proc p (set_p_priority (s8 prio)).

(** Compiled for priority scheduling. *)
Definition sys_pthread_setschedparam (thread prio : Z) : M Z :=
  match pthread_get_info thread with
  | None => mret ESRCH
  | Some i =>
      if bool_decide (PRIO_LOWEST < prio ∨ prio < PRIO_HIGHEST) then mret EINVAL else
      t ← get_thread i;
      p ← lift (parent t);
      tk (x ← get_proc p;
          c ← gets current_pid;
          if bool_decide (p_pid x = c ∨ p_state x = PROC_DELAY) then
            set_priority p prio;; modify (set_resched true);; mret 0
          else if bool_decide (p_state x = PROC_READY) then
            r ← on_q (ReadyQ (p_priority x)) (pdelq (p_pid x));
            if bool_decide (r < 0) then mret (-1) else
            set_priority p prio;;
            x ← get_proc p;
            on_q (ReadyQ (p_priority x)) (penq (p_pid x));;
            modify (set_resched true);; mret 0
          else if bool_decide (p_state x = PROC_WAIT ∨ p_state x = PROC_TIMED_WAIT) then
            q ← lift (blockq x);
            r ← wait_delq q (p_pid x);
            if bool_decide (r < 0) then mret (-1) else
            set_priority p prio;;
            wait_enq q (p_pid x);;
            modify (set_resched true);; mret 0
          else modify (set_resched true);; mret 0)
  end.

(** [sys_kill] of process.c, with threads. *)
Definition kill_thread (pid : Z) : M outcome :=
  x ← tk (get_proc pid);
  if is_allocated x then
    c ← tk (gets current_pid);
    m ← gets thread_of;
    if bool_decide (pid = c) then
      match m !! pid with Some _ => sys_pthread_exit 0 | None => tk sys_elf_exit end
    else
      tk (kill_unlink pid x);;
      (match m !! pid with Some i => pthread_terminate i | None => tk (process_invalidate pid);; skip end);;
      tk (modify (set_resched true));;
      mret (Done 0)
  else mret (Done (-1)).

(** ** Transitions *)

Inductive tevent :=
  | TKern (e : event) | TCreate (thread : bool) (attr : option pthread_attr_t) (start param : Z) | TExit (v : Z)
  | TJoin (target : Z) (want : bool) | TResume | TDetach (thread : Z) | TGetsched (thread : Z) (ok : bool)
  | TSetsched (thread prio : Z) | TKill (pid : Z).

(** The end of a system call. *)
Definition tfinish {A} (m : M (outcome * A)) : M (outcome * A) := r ← m; tk (finish r.1);; mret r.

(** A new process has no thread. *)
Definition clear_thread (e : event) (o : outcome) : M unit :=
  match e, o with
  | ECall (CCreate _), Done pid => if bool_decide (pid = -1) then skip else modify (λ s, set_thread_of (delete pid (thread_of s)) s)
  | _, _ => skip
  end.

(** A suspended join goes on. *)
Definition tresume : M (outcome * option Z) :=
  c ← tk (gets current_pid);
  x ← tk (get_proc c);
  f ← lift (kctx x);
  match f with
  | FJoin i =>
      tk (upd_proc c (set_kctx None));;
      m ← gets jctx;
      want ← lift (m !! c);
      join_resume i want
  | _ => undef
  end.

Definition tstep (e : tevent) : M (outcome * option Z) :=
  match e with
  | TKern e => r ← tk (kstep e); clear_thread e r.1;; mret r
  | TCreate thread attr start param => tfinish (r ← sys_pthread_create thread attr start param; mret (Done r.1, r.2))
  | TExit v => tfinish (o ← sys_pthread_exit v; mret (o, None))
  | TJoin target want => tfinish (sys_pthread_join target want)
  | TResume => tfinish tresume
  | TDetach thread => tfinish (r ← sys_pthread_detach thread; mret (Done r, None))
  | TGetsched thread ok => tfinish (r ← sys_pthread_getschedparam thread ok; mret (Done r.1, fst <$> r.2))
  | TSetsched thread prio => tfinish (r ← sys_pthread_setschedparam thread prio; mret (Done r, None))
  | TKill pid => tfinish (o ← kill_thread pid; mret (o, None))
  end.

(** Only a waiting join is continued by the threads; [sys_kill] is [TKill] here. *)
Definition tenabled (e : tevent) (s : tst) : Prop :=
  match e with
  | TKern (EKill _) => False
  | TKern e => enabled e (tkern s)
  | TResume => match cur_ctx (tkern s) with Some (FJoin _) => True | _ => False end
  | TSetsched _ _ => sched_is_prio = true ∧ cur_ctx (tkern s) = None ∧ current_pid (tkern s) ≠ idle_task_pid
  | _ => cur_ctx (tkern s) = None ∧ current_pid (tkern s) ≠ idle_task_pid
  end.
#[export] Instance tenabled_dec e s : Decision (tenabled e s).
Proof. destruct e as [[]| | | | | | | |]; simpl; try apply _. destruct (cur_ctx (tkern s)) as [[]|]; apply _. Defined.

Inductive tsteps : tst -> list tevent -> tst -> Prop :=
  | tsteps_nil s : tsteps s [] s
  | tsteps_cons s e r s1 es s2 : tenabled e s -> tstep e s = Some (r, s1) -> tsteps s1 es s2 -> tsteps s (e :: es) s2.

Lemma tsteps_app s es s1 es' s2 : tsteps s es s1 -> tsteps s1 es' s2 -> tsteps s (es ++ es') s2.
Proof. induction 1; [done|]. intros. econstructor; eauto. Qed.

Fixpoint texec (es : list tevent) (s : tst) : option (list (outcome * option Z) * tst) :=
  match es with
  | [] => Some ([], s)
  | e :: es =>
      if decide (tenabled e s) then
        match tstep e s with
        | Some (r, s1) => match texec es s1 with Some (rs, s2) => Some (r :: rs, s2) | None => None end
        | None => None
        end
      else None
  end.

Lemma texec_steps es : forall s rs s', texec es s = Some (rs, s') -> tsteps s es s'.
Proof.
  induction es as [|e es IH]; intros s rs s' E; simpl in E; [injection E as _ <-; constructor|]. case_decide; [|done].
  destruct (tstep e s) as [[r s1]|] eqn:Es; [|done]. destruct (texec es s1) as [[rs1 s2]|] eqn:Ex; [|done]. injection E as _ <-. econstructor; eauto.
Qed.

(** The state before [pthread_init]: memory that is zero. *)
Definition blank_attr : pthread_attr_t := MkAttr 0 0 0 0 0.
Definition blank_thread : pthread_info := MkThread false None 0 0 0 0 0 None 0 blank_attr.
Definition blank_tst (k : kst) : tst :=
  MkTst k (replicate (Z.to_nat MAX_PTHREADS) blank_thread) (replicate (Z.to_nat MAX_PTHREADS) 0) blank_attr ∅ ∅ ∅.

(** The kernel has started, with the processes [ps] and the threads [ts]. The source calls [pthread_init]
    before it makes the processes; neither uses what the other sets. *)
Definition tstarts (ps : list Z) (ts : list (Z * Z)) (s : tst) : Prop :=
  exists k s0 r, xilkernel_init ps blank = Some (tt, k) ∧ pthread_init (blank_tst k) = Some (tt, s0) ∧
    kb_pthread_init ts (default_attr s0) s0 = Some (r, s).
End threads.
