(* ===== verification/KthreadStack.v ===== *)
(** * The stacks of threads

    In every state that threads and processes reach, the stacks in use are
    exactly those of the threads that exist, one each, and the stack pointers that
    the threads start with are in memory that they share with no other thread
    ([stacks_exclusive]). *)

From stdpp Require Import gmap.
From S2P Require Import Prelude Kqueue Kheap Ktimer Ksched Ksem Kmutex Kernel Kkill Kreach Kthread.
Open Scope Z_scope.

(** ** What a computation that returned has done *)

Lemma ret_inv {S A} (a : A) (s : S) b s' : (mret a : ST S A) s = Some (b, s') -> b = a ∧ s' = s.
Proof. by intros [= <- <-]. Qed.
Lemma gets_inv {S A} (f : S -> A) (s : S) b s' : gets f s = Some (b, s') -> b = f s ∧ s' = s.
Proof. by intros [= <- <-]. Qed.
Lemma modify_inv {S} (f : S -> S) (s : S) b s' : modify f s = Some (b, s') -> s' = f s.
Proof. by intros [= _ <-]. Qed.
Lemma lift_inv {S A} (o : option A) (s : S) b s' : lift o s = Some (b, s') -> o = Some b ∧ s' = s.
Proof. unfold lift. destruct o; [|done]. by intros [= <- <-]. Qed.

Lemma iter_inv {S} (J : Z -> S -> Prop) (body : Z -> ST S unit) n : forall i s a s',
  iter_up n i body s = Some (a, s') -> J i s -> (forall j s b s', i <= j < i + Z.of_nat n -> J j s -> body j s = Some (b, s') -> J (j + 1) s') -> J (i + Z.of_nat n) s'.
Proof.
  induction n as [|n IH]; intros i s a s' E HJ Hb; simpl in E.
  - apply ret_inv in E as [_ ->]. by replace (i + Z.of_nat 0) with i by lia.
  - apply bind_inv in E as (b & s1 & E1 & E). replace (i + Z.of_nat (Datatypes.S n)) with (i + 1 + Z.of_nat n) by lia. eapply IH; [exact E| |].
    + eapply Hb, E1; [lia|done].
    + intros j s2 b2 s3 Hj. apply Hb. lia.
Qed.

Section stacks.
Context {KC : KConfig} {TC : ThreadConfig}.
Implicit Types (s : tst) (t : pthread_info) (l : list pthread_info) (ids : list Z).

Lemma tk_inv {A} (m : ST kst A) s a s' : tk m s = Some (a, s') -> exists k, m (tkern s) = Some (a, k) ∧ s' = set_tkern k s.
Proof. unfold tk, zoom. destruct (m (tkern s)) as [[b k]|]; [|done]. intros [= <- <-]. eauto. Qed.
Lemma get_thread_inv i s t s' : get_thread i s = Some (t, s') -> arr_get (thread_info_list s) i = Some t ∧ s' = s.
Proof. intros (l & s1 & [-> ->]%gets_inv & [E ->]%lift_inv)%bind_inv. done. Qed.
Lemma upd_thread_inv i f s a s' : upd_thread i f s = Some (a, s') ->
  exists t, 0 <= i ∧ thread_info_list s !! Z.to_nat i = Some t ∧ s' = set_infos (<[Z.to_nat i := f t]> (thread_info_list s)) s.
Proof.
  intros (t & s1 & [E ->]%get_thread_inv & (l & s2 & [-> ->]%gets_inv & (l' & s3 & [El ->]%lift_inv & ->%modify_inv)%bind_inv)%bind_inv)%bind_inv.
  pose proof (arr_get_range _ _ _ E). rewrite arr_set_in in El by lia. injection El as <-. rewrite arr_get_lookup in E by lia. exists t. split_and!; [lia|done|done].
Qed.
Lemma set_memid_inv i x s a s' : set_memid i x s = Some (a, s') ->
  0 <= i < Z.of_nat (length (thread_stack_memid s)) ∧ s' = set_memids (<[Z.to_nat i := x]> (thread_stack_memid s)) s.
Proof.
  intros (l & s2 & [-> ->]%gets_inv & (l' & s3 & [El ->]%lift_inv & ->%modify_inv)%bind_inv)%bind_inv. pose proof (arr_set_Some _ _ _ _ El) as Hr.
  assert (0 <= i < Z.of_nat (length (thread_stack_memid s))) as Hi by tauto. rewrite arr_set_in in El by done. injection El as <-. done.
Qed.

(** ** The table and the stacks *)

Record stacks_ok l ids : Prop := {
  so_len : length l = Z.to_nat MAX_PTHREADS;
  so_ids : length ids = Z.to_nat MAX_PTHREADS;
  so_tid i t : l !! i = Some t -> tid t = Z.of_nat i;
  so_free i t : l !! i = Some t -> t_allocated t = false -> mem_id t = -1;
  so_own i t : l !! i = Some t -> mem_id t ≠ -1 -> 0 <= mem_id t ∧ ids !! Z.to_nat (mem_id t) = Some 1;
  so_used k x : ids !! k = Some x -> x = 0 ∨ (x = 1 ∧ exists i t, l !! i = Some t ∧ mem_id t = Z.of_nat k);
  so_one i j t u : l !! i = Some t -> l !! j = Some u -> mem_id t = mem_id u -> mem_id t ≠ -1 -> i = j;
}.

(** The stack pointer that the stack [m] gives. *)
Definition sp_of (m : Z) : Z := u32 (u32 (u32 (thread_stack_mem + PTHREAD_STACK_SIZE * m) + PTHREAD_STACK_SIZE) + SSTACK_PTR_ADJUST).

Record tinv s : Prop := {
  ti_stacks : stacks_ok (thread_info_list s) (thread_stack_memid s);
  ti_free i t : thread_info_list s !! i = Some t -> t_allocated t = false -> parent t = None;
  ti_sp p i t : thread_of s !! p = Some (Z.of_nat i) -> thread_info_list s !! i = Some t -> parent t = Some p -> mem_id t ≠ -1 ->
    init_sp s !! p = Some (sp_of (mem_id t));
}.

(** An update that leaves the stack alone. *)
Lemma stacks_keep l ids i t t' : stacks_ok l ids -> l !! i = Some t -> tid t' = tid t -> mem_id t' = mem_id t ->
  t_allocated t' = t_allocated t ∨ t_allocated t' = true -> stacks_ok (<[i := t']> l) ids.
Proof.
  intros [H1 H2 H3 H4 H5 H6 H7] Ei E1 E2 E3. pose proof (lookup_lt_Some _ _ _ Ei) as Hlt.
  assert (forall j u, <[i := t']> l !! j = Some u -> exists v, l !! j = Some v ∧ tid u = tid v ∧ mem_id u = mem_id v ∧ (t_allocated u = false -> t_allocated v = false)) as Hc.
  { intros j u [(-> & -> & _)|[_ E]]%list_lookup_insert_Some; [|by exists u]. exists t. split_and!; try done. destruct E3; congruence. }
  constructor; [by rewrite length_insert|done|..].
  - intros j u (v & Ev & -> & _)%Hc. by apply H3.
  - intros j u (v & Ev & _ & -> & Ha)%Hc Hu. apply (H4 j); auto.
  - intros j u (v & Ev & _ & -> & _)%Hc Hu. by apply (H5 j).
  - intros k x Ek. destruct (H6 k x Ek) as [?|(? & j & v & Ev & Em)]; [by left|]. right. split; [done|]. destruct (decide (i = j)) as [<-|Hne].
    + exists i, t'. rewrite list_lookup_insert_eq by done. split; [done|congruence].
    + exists j, v. by rewrite list_lookup_insert_ne.
  - intros j j' u u' (v & Ev & _ & Em & _)%Hc (v' & Ev' & _ & Em' & _)%Hc. rewrite Em, Em'. by apply H7.
Qed.

(** A thread gives up its stack, if it has one. *)
Lemma stacks_release l ids i t t' : stacks_ok l ids -> l !! i = Some t -> tid t' = tid t -> mem_id t' = -1 ->
  stacks_ok (<[i := t']> l) (if bool_decide (mem_id t ≠ -1) then <[Z.to_nat (mem_id t) := 0]> ids else ids).
Proof.
  intros [H1 H2 H3 H4 H5 H6 H7] Ei E1 E2. pose proof (lookup_lt_Some _ _ _ Ei) as Hlt.
  assert (forall j u, <[i := t']> l !! j = Some u -> (j = i ∧ u = t') ∨ (j ≠ i ∧ l !! j = Some u)) as Hc.
  { intros j u [(-> & -> & _)|[? E]]%list_lookup_insert_Some; [by left|by right]. }
  set (ids' := if bool_decide (mem_id t ≠ -1) then _ else _).
  assert (length ids' = length ids) as Hl by (unfold ids'; case_bool_decide; [apply length_insert|done]).
  assert (forall j u, l !! j = Some u -> j ≠ i -> mem_id u ≠ -1 -> ids' !! Z.to_nat (mem_id u) = Some 1) as Ho.
  { intros j u Eu Hne Hm. destruct (H5 j u Eu Hm) as [Hp Hi]. unfold ids'. case_bool_decide as Ht; [|done]. destruct (H5 i t Ei Ht) as [Hp' _].
    rewrite list_lookup_insert_ne; [done|]. intros E. apply Hne. apply (H7 j i u t Eu Ei); [lia|done]. }
  constructor; [by rewrite length_insert|congruence|..].
  - intros j u [[-> ->]|[_ E]]%Hc; [rewrite E1; by apply H3|by apply H3].
  - intros j u [[-> ->]|[_ E]]%Hc; [done|by apply (H4 j)].
  - intros j u [[-> ->]|[Hne E]]%Hc Hm; [done|]. split; [by apply (H5 j)|by apply (Ho j)].
  - intros k x Ek. assert (x = 0 ∨ ids !! k = Some x ∧ (Z.of_nat k ≠ mem_id t)) as [->|[Ek' Hne]]; [|by left|].
    { unfold ids' in Ek. case_bool_decide as Ht; [|right; split; [done|lia]]. apply list_lookup_insert_Some in Ek as [(? & -> & _)|[? Ek]]; [by left|].
      right. split; [done|]. destruct (H5 i t Ei Ht). lia. }
    destruct (H6 k x Ek') as [?|(? & j & v & Ev & Em)]; [by left|]. right. split; [done|]. exists j, v. split; [|done].
    rewrite list_lookup_insert_ne; [done|]. intros <-. simplify_eq.
  - intros j j' u u' [[-> ->]|[Hn E]]%Hc [[-> ->]|[Hn' E']]%Hc Hm Hm1; try done; [congruence|]. by apply (H7 j j' u u').
Qed.

(** A thread gets a stack that is free. *)
Lemma stacks_take l ids i t t' k : stacks_ok l ids -> l !! i = Some t -> mem_id t = -1 -> ids !! k = Some 0 -> tid t' = tid t -> mem_id t' = Z.of_nat k ->
  t_allocated t' = true -> stacks_ok (<[i := t']> l) (<[k := 1]> ids).
Proof.
  intros [H1 H2 H3 H4 H5 H6 H7] Ei Et Ek E1 E2 E3. pose proof (lookup_lt_Some _ _ _ Ei) as Hlt. pose proof (lookup_lt_Some _ _ _ Ek) as Hlk.
  assert (forall j u, <[i := t']> l !! j = Some u -> (j = i ∧ u = t') ∨ (j ≠ i ∧ l !! j = Some u)) as Hc.
  { intros j u [(-> & -> & _)|[? E]]%list_lookup_insert_Some; [by left|by right]. }
  assert (forall j u, l !! j = Some u -> mem_id u ≠ Z.of_nat k) as Hn.
  { intros j u Eu E. destruct (H5 j u Eu) as [_ Hi]; [lia|]. rewrite E, Nat2Z.id in Hi. congruence. }
  constructor; [by rewrite length_insert|by rewrite length_insert|..].
  - intros j u [[-> ->]|[_ E]]%Hc; [rewrite E1; by apply H3|by apply H3].
  - intros j u [[-> ->]|[_ E]]%Hc; [congruence|by apply (H4 j)].
  - intros j u [[-> ->]|[Hne E]]%Hc Hm.
    + rewrite E2, Nat2Z.id. split; [lia|]. by apply list_lookup_insert_eq.
    + destruct (H5 j u E Hm). split; [done|]. rewrite list_lookup_insert_ne; [done|]. intros ->. apply (Hn j u E). lia.
  - intros k' x [(-> & -> & _)|[Hne Ex]]%list_lookup_insert_Some.
    + right. split; [done|]. exists i, t'. by rewrite list_lookup_insert_eq.
    + destruct (H6 k' x Ex) as [?|(? & j & v & Ev & Em)]; [by left|]. right. split; [done|]. exists j, v. split; [|done].
      rewrite list_lookup_insert_ne; [done|]. intros <-. simplify_eq. lia.
  - intros j j' u u' [[-> ->]|[Hj E]]%Hc [[-> ->]|[Hj' E']]%Hc Hm Hm1; try done.
    + exfalso. apply (Hn j' u' E'). congruence.
    + exfalso. apply (Hn j u E). congruence.
    + by apply (H7 j j' u u').
Qed.

(** ** The operations keep it *)

Definition tkeeps {A} (m : ST tst A) : Prop := forall s a s', tinv s -> m s = Some (a, s') -> tinv s'.

Lemma tkeeps_bind {A B} (m : ST tst A) (k : A -> ST tst B) : tkeeps m -> (forall a, tkeeps (k a)) -> tkeeps (m ≫= k).
Proof. intros Hm Hk s b s' H (a & s1 & E1 & E2)%bind_inv. eapply Hk, E2. by eapply Hm, E1. Qed.
Lemma tkeeps_ret {A} (a : A) : tkeeps (mret a).
Proof. by intros s b s' H [_ ->]%ret_inv. Qed.
Lemma tkeeps_undef {A} : tkeeps (undef : ST tst A).
Proof. by intros s b s' H E. Qed.
Lemma tkeeps_gets {A} (f : tst -> A) : tkeeps (gets f).
Proof. by intros s b s' H [_ ->]%gets_inv. Qed.
Lemma tkeeps_lift {A} (o : option A) : tkeeps (lift o).
Proof. by intros s b s' H [_ ->]%lift_inv. Qed.
Lemma tinv_ext s s' : tinv s -> thread_info_list s' = thread_info_list s -> thread_stack_memid s' = thread_stack_memid s ->
  init_sp s' = init_sp s -> thread_of s' = thread_of s -> tinv s'.
Proof. intros [H1 H2 H3] El Em Ei Et. constructor; rewrite ?El, ?Em, ?Ei, ?Et; done. Qed.
Lemma tinv_kern k s : tinv s -> tinv (set_tkern k s).
Proof. by intros [H1 H2 H3]. Qed.
Lemma tkeeps_tk {A} (m : ST kst A) : tkeeps (tk m).
Proof. intros s b s' H (k & _ & ->)%tk_inv. by apply tinv_kern. Qed.
Lemma tkeeps_modify f : (forall s, thread_info_list (f s) = thread_info_list s ∧ thread_stack_memid (f s) = thread_stack_memid s ∧ init_sp (f s) = init_sp s ∧ thread_of (f s) ⊆ thread_of s) -> tkeeps (modify f).
Proof.
  intros Hf s b s' [H1 H2 H3] ->%modify_inv. destruct (Hf s) as (El & Em & Ei & Ht). constructor; rewrite ?El, ?Em, ?Ei; [done..|].
  intros p i t Hp. apply H3. by eapply lookup_weaken.
Qed.
Lemma tkeeps_get_thread i : tkeeps (get_thread i).
Proof. by intros s b s' H [_ ->]%get_thread_inv. Qed.

(** An entry changes and its stack does not: it has no process afterwards, or the one it had. *)
Lemma tinv_entry s i t t' ids : tinv s -> thread_info_list s !! i = Some t -> stacks_ok (<[i := t']> (thread_info_list s)) ids ->
  parent t' = None ∨ (parent t' = parent t ∧ mem_id t' = mem_id t ∧ (t_allocated t' = false -> t_allocated t = false)) ->
  tinv (set_memids ids (set_infos (<[i := t']> (thread_info_list s)) s)).
Proof.
  intros [H1 H2 H3] Et Hs Hp. constructor; [done|..]; simpl.
  - intros j u [(-> & <- & _)|[_ E]]%list_lookup_insert_Some Ha; [|by eapply H2]. destruct Hp as [?|(-> & _ & Ht)]; [done|]. eapply H2; eauto.
  - intros q j u Hq [(-> & <- & _)|[_ E]]%list_lookup_insert_Some Hu Hm; [|by eapply H3]. destruct Hp as [?|(Ep & Em & _)]; [congruence|].
    rewrite Em in *. eapply H3; eauto. congruence.
Qed.
Lemma set_memids_id s l : set_memids (thread_stack_memid s) (set_infos l s) = set_infos l s.
Proof. by destruct s. Qed.

Lemma tkeeps_upd_thread i f : (forall t, tid (f t) = tid t ∧ mem_id (f t) = mem_id t ∧ parent (f t) = parent t ∧ (t_allocated (f t) = t_allocated t ∨ t_allocated (f t) = true)) -> tkeeps (upd_thread i f).
Proof.
  intros Hf s b s' H (t & _ & E & ->)%upd_thread_inv. destruct (Hf t) as (? & ? & ? & Ha). rewrite <- set_memids_id.
  apply (tinv_entry _ _ t); [done|done|by apply (stacks_keep _ _ _ t); [apply H|..]|]. right. split_and!; [done..|]. destruct Ha; congruence.
Qed.

Lemma tkeeps_invalidate i : tkeeps (invalidate_thread_info i).
Proof.
  intros s b s' H E. unfold invalidate_thread_info in E.
  apply bind_inv in E as (? & s1 & (t & Hi & Et & ->)%upd_thread_inv & E). apply bind_inv in E as (? & s2 & (k & _ & ->)%tk_inv & E).
  apply bind_inv in E as (? & s3 & (k' & _ & ->)%tk_inv & E). apply bind_inv in E as (t1 & s4 & [Et1 ->]%get_thread_inv & E).
  pose proof (lookup_lt_Some _ _ _ Et) as Hlt. simpl in Et1. rewrite arr_get_lookup, list_lookup_insert_eq in Et1 by done. injection Et1 as <-. simpl in E.
  apply bind_inv in E as (? & s5 & E5 & E). apply bind_inv in E as (a & s6 & [-> ->]%gets_inv & E).
  assert (tinv s5) as H5; [|revert E; apply tkeeps_upd_thread; [|done]; intros ?; split_and!; [done..|by left]].
  pose proof (fun t' => stacks_release _ _ _ t t' (ti_stacks _ H) Et) as Hrel. case_bool_decide as Hm.
  - apply bind_inv in E5 as (? & s7 & [_ ->]%set_memid_inv & (t3 & _ & Et3 & ->)%upd_thread_inv). simpl in Et3.
    rewrite list_lookup_insert_eq in Et3 by done. injection Et3 as <-. simpl. rewrite list_insert_insert_eq.
    match goal with |- tinv (set_infos (<[_ := ?x]> _) _) => eapply tinv_ext; [eapply (tinv_entry _ _ t x _ H Et (Hrel x eq_refl eq_refl)); by left|done..] end.
  - apply ret_inv in E5 as [_ ->].
    match goal with |- tinv (set_tkern _ (set_tkern _ (set_infos (<[_ := ?x]> _) _))) => eapply tinv_ext; [eapply (tinv_entry _ _ t x _ H Et (Hrel x eq_refl Hm)); by left|done..] end.
Qed.

(** Walks through a statement. *)
Ltac keep_step :=
  match goal with
  | |- tkeeps (_ ≫= _) => apply tkeeps_bind; [|intros ?]
  | |- tkeeps (mret _) => apply tkeeps_ret
  | |- tkeeps skip => apply tkeeps_ret
  | |- tkeeps undef => apply tkeeps_undef
  | |- tkeeps (gets _) => apply tkeeps_gets
  | |- tkeeps (lift _) => apply tkeeps_lift
  | |- tkeeps (tk _) => apply tkeeps_tk
  | |- tkeeps (modify _) => apply tkeeps_modify; intros ?; split_and!; [done..|simpl; first [done|apply delete_subseteq]]
  | |- tkeeps (get_thread _) => apply tkeeps_get_thread
  | |- tkeeps (upd_thread _ _) => apply tkeeps_upd_thread; intros ?; split_and!; [done|done|done|by auto]
  | |- tkeeps (invalidate_thread_info _) => apply tkeeps_invalidate
  | |- tkeeps (if ?b then _ else _) => destruct b
  | |- tkeeps (match ?x with _ => _ end) => destruct x
  end.
Ltac keep_walk := repeat keep_step.

Lemma tkeeps_thread_end i v p : tkeeps (thread_end i v p).
Proof. unfold thread_end. keep_walk. Qed.
Lemma tkeeps_exit v : tkeeps (sys_pthread_exit v).
Proof. unfold sys_pthread_exit. keep_walk. apply tkeeps_thread_end. Qed.
Lemma tkeeps_join_end i r : tkeeps (join_end i r).
Proof. unfold join_end. keep_walk. Qed.
Lemma tkeeps_join target want : tkeeps (sys_pthread_join target want).
Proof. unfold sys_pthread_join, sys_pthread_self. keep_walk; apply tkeeps_join_end. Qed.
Lemma tkeeps_tresume : tkeeps tresume.
Proof. unfold tresume, join_resume. keep_walk; apply tkeeps_join_end. Qed.
Lemma tkeeps_detach thread : tkeeps (sys_pthread_detach thread).
Proof. unfold sys_pthread_detach. keep_walk. Qed.
Lemma tkeeps_kill pid : tkeeps (kill_thread pid).
Proof. unfold kill_thread, pthread_terminate. keep_walk; [apply tkeeps_exit|apply tkeeps_thread_end]. Qed.
Lemma tkeeps_sched thread prio ok : tkeeps (sys_pthread_getschedparam thread ok) ∧ tkeeps (sys_pthread_setschedparam thread prio).
Proof. unfold sys_pthread_getschedparam, sys_pthread_setschedparam. split; keep_walk. Qed.

(** The process gets the stack pointer of the stack that the entry has. *)
Lemma new_thread_keeps i t a e s b s' : tinv s -> thread_info_list s !! i = Some t -> parent t = None -> t_allocated t = true ->
  (if bool_decide (stackaddr a = 0) then u32 (e + SSTACK_PTR_ADJUST) = sp_of (mem_id t) else mem_id t = -1) ->
  new_thread (Z.of_nat i) a e s = Some (b, s') -> tinv s'.
Proof.
  intros H Et Hp Ha Hsp E. unfold new_thread, t_proc_create in E. apply bind_inv in E as (pid & s1 & E1 & E).
  apply bind_inv in E1 as (pid' & s2 & (k & _ & ->)%tk_inv & E1). apply bind_inv in E1 as (? & s3 & E1 & [-> ->]%ret_inv). case_bool_decide as Hpid.
  - apply ret_inv in E1 as [_ ->]. revert E. apply (tkeeps_bind _ _ (tkeeps_invalidate _) (λ _, tkeeps_ret _)). by apply tinv_kern.
  - apply modify_inv in E1 as ->. cbn zeta in E. apply bind_inv in E as (? & s4 & (k' & _ & ->)%tk_inv & E).
    apply bind_inv in E as (? & s5 & ->%modify_inv & E). apply bind_inv in E as (? & s6 & ->%modify_inv & E).
    apply bind_inv in E as (? & s7 & (t0 & _ & Et0 & ->)%upd_thread_inv & E). apply bind_inv in E as (t1 & s8 & [_ ->]%get_thread_inv & [_ ->]%ret_inv).
    rewrite Nat2Z.id in *. simpl in Et0. simplify_eq. pose proof (lookup_lt_Some _ _ _ Et) as Hlt. destruct H as [H1 H2 H3]. constructor; simpl.
    + apply (stacks_keep _ _ _ t); [done..|by right].
    + intros j u [(<- & <- & _)|[_ E]]%list_lookup_insert_Some Hu; [simpl in Hu; congruence|by eapply H2].
    + intros q j u Hq Eu Hu Hm. apply lookup_insert_Some in Hq as [[<- Eij]|[Hq [_ Hd]%lookup_delete_Some]].
      * assert (i = j) as <- by lia. rewrite list_lookup_insert_eq in Eu by done. injection Eu as <-. rewrite lookup_insert_eq. simpl in Hm |- *.
        case_bool_decide; [by rewrite Hsp|done].
      * rewrite lookup_insert_ne by done. apply list_lookup_insert_Some in Eu as [(<- & <- & _)|[_ Eu]]; [simpl in Hu; congruence|]. by apply (H3 q j u).
Qed.

Context (Hmax : 0 <= MAX_PTHREADS <= 127).

(** Creation: the entry that was free gets a stack that was free, or none. *)
Lemma tkeeps_create thread attr start param : tkeeps (sys_pthread_create thread attr start param).
Proof.
  unfold sys_pthread_create. destruct thread; simpl; [|apply tkeeps_ret]. apply tkeeps_bind; [apply tkeeps_gets|]. intros d. cbn zeta.
  destruct (match attr with Some a => negb (attr_ok a) | None => false end); [apply tkeeps_ret|]. intros s b s' H (l & s1 & [-> ->]%gets_inv & E)%bind_inv.
  destruct (list_find _ (thread_info_list s)) as [[i t0]|] eqn:Ef; [|by apply ret_inv in E as [_ ->]]. apply list_find_Some in Ef as (Ht & Hfree & _).
  apply bind_inv in E as (? & s1 & E1 & E). apply bind_inv in E as (? & s2 & (k & _ & ->)%tk_inv & E). pose proof (ti_free _ H _ _ Ht Hfree) as Hpar.
  pose proof (so_free _ _ (ti_stacks _ H) _ _ Ht Hfree) as Hm. assert (tinv s1) as H1 by (by revert E1; apply tkeeps_upd_thread; [intros ?; split_and!; [done..|by right]|]).
  apply upd_thread_inv in E1 as (t & _ & Et & ->). rewrite Nat2Z.id in *. simplify_eq. pose proof (lookup_lt_Some _ _ _ Ht) as Hlt.
  set (t1 := MkThread _ _ _ _ _ _ _ _ _ _) in *. apply (tinv_kern k) in H1. set (s1 := set_tkern k _) in *.
  assert (thread_info_list s1 !! i = Some t1) as Et1 by (by apply list_lookup_insert_eq).
  case_bool_decide as Hs; [|eapply (new_thread_keeps i t1), E; [done..|by rewrite bool_decide_eq_false_2]]. apply bind_inv in E as (r & s2 & Ea & E). unfold alloc_bss_mem in Ea.
  apply bind_inv in Ea as (ids & s3 & [-> ->]%gets_inv & Ea). destruct (list_find _ (thread_stack_memid s1)) as [[k' z0]|] eqn:Ek.
  - apply bind_inv in Ea as (? & s4 & [_ ->]%set_memid_inv & [-> ->]%ret_inv). apply list_find_Some in Ek as (Ek & -> & _). rewrite Nat2Z.id in E.
    apply bind_inv in E as (? & s5 & (t2 & _ & Et2 & ->)%upd_thread_inv & E). rewrite Nat2Z.id in *. assert (t2 = t1) as -> by (simpl in Et2, Et1; congruence). clear Et2.
    assert (Z.of_nat k' < MAX_PTHREADS) by (apply lookup_lt_Some in Ek; rewrite (so_ids _ _ (ti_stacks _ H1)) in Ek; lia).
    assert (mem_id (set_mem_id (s8 (Z.of_nat k')) t1) = Z.of_nat k') as Em by (apply s8_small; lia).
    eapply (new_thread_keeps i), E; [|by simpl; apply list_lookup_insert_eq; rewrite length_insert|done|done|by rewrite bool_decide_eq_true_2, Em].
    apply (tinv_entry s1 _ t1 (set_mem_id (s8 (Z.of_nat k')) t1)); [done|done| |by left]. by apply (stacks_take _ _ _ t1); [apply H1|..].
  - apply ret_inv in Ea as [-> ->]. apply bind_inv in E as (? & s5 & (t2 & _ & Et2 & ->)%upd_thread_inv & E). rewrite Nat2Z.id in *. assert (t2 = t1) as -> by congruence. clear Et2.
    revert E. apply (tkeeps_bind _ _ (tkeeps_invalidate _) (λ _, tkeeps_ret _)). rewrite <- set_memids_id.
    apply (tinv_entry _ _ t1); [done|done| |by left]. apply (stacks_keep _ _ _ t1); [apply H1|done..|by right].
Qed.

Lemma tkeeps_kb ts a : tkeeps (kb_pthread_init ts a).
Proof.
  revert a. induction ts as [|[pr st] ts IH]; intros a; cbn [kb_pthread_init]; [apply tkeeps_ret|]. cbn zeta. apply tkeeps_bind; [apply tkeeps_create|]. intros r.
  case_bool_decide; [apply tkeeps_ret|apply IH].
Qed.

Lemma tkeeps_finish {A} (m : ST tst (outcome * A)) : tkeeps m -> tkeeps (tfinish m).
Proof. intros Hm. unfold tfinish. apply tkeeps_bind; [done|]. intros r. keep_walk. Qed.

Lemma tkeeps_tstep e : tkeeps (tstep e).
Proof.
  destruct e; cbn [tstep]; [unfold clear_thread; keep_walk|apply tkeeps_finish..]; keep_walk;
    [apply tkeeps_create|apply tkeeps_exit|apply tkeeps_join|apply tkeeps_tresume|apply tkeeps_detach|apply (tkeeps_sched _ 0)|apply (tkeeps_sched _ _ true)|apply tkeeps_kill].
Qed.

Lemma tsteps_tinv s es s' : tsteps s es s' -> tinv s -> tinv s'.
Proof. induction 1 as [|s e r s1 es s2 _ E _ IH]; [done|]. intros H. apply IH. by eapply tkeeps_tstep, E. Qed.

(** *** The start *)

(** The entries below [j] are set up. *)
Definition set_up_to (j : Z) s : Prop :=
  length (thread_info_list s) = Z.to_nat MAX_PTHREADS ∧ thread_stack_memid s = replicate (Z.to_nat MAX_PTHREADS) 0 ∧
  forall i t, thread_info_list s !! i = Some t -> Z.of_nat i < j -> tid t = Z.of_nat i ∧ mem_id t = -1 ∧ parent t = None.

Lemma pthread_init_tinv k a s : pthread_init (blank_tst k) = Some (a, s) -> tinv s.
Proof using Hmax.
  intros E. unfold pthread_init in E. apply bind_inv in E as (? & s1 & E1 & E). apply bind_inv in E as (? & s2 & ->%modify_inv & E).
  apply bind_inv in E as (at0 & s3 & [-> ->]%gets_inv & E). apply bind_inv in E as (? & s4 & E2 & (k' & _ & ->)%tk_inv).
  assert (set_up_to 0 s1) as H1.
  { apply (iter_inv (λ _, set_up_to 0) _ _ _ _ _ _ E1).
    - split_and!; [apply length_replicate|done|]. intros; lia.
    - intros j s' b s'' _ (Hl & Hm & Hi) [_ ->]%set_memid_inv. split_and!; [done| |done]. simpl. rewrite Hm, insert_replicate. done. }
  pose proof (iter_inv set_up_to _ _ _ _ _ _ E2) as H2. replace (0 + Z.of_nat (Z.to_nat (MAX_PTHREADS - 0))) with MAX_PTHREADS in H2 by lia.
  destruct H2 as (Hl & Hm & Hi); [exact H1| |].
  - intros j s' b s'' Hj (Hl & Hm & Hi) (? & s5 & (t & _ & Et & ->)%upd_thread_inv & (k1 & _ & ->)%tk_inv)%bind_inv. split_and!; [by simpl; rewrite length_insert|done|].
    simpl. intros i u [(<- & <- & _)|[Hne Eu]]%list_lookup_insert_Some Hij; [simpl; split_and!; [lia|done|done]|]. apply Hi; [done|]. lia.
  - assert (forall i t, thread_info_list s4 !! i = Some t -> tid t = Z.of_nat i ∧ mem_id t = -1 ∧ parent t = None) as Hall.
    { intros i t Et. apply Hi; [done|]. apply lookup_lt_Some in Et. lia. }
    constructor; simpl; [constructor; simpl; [done|by rewrite Hm, length_replicate|..]|..].
    + intros i t Et. apply (Hall i t Et).
    + intros i t Et _. apply (Hall i t Et).
    + intros i t Et Hn. destruct Hn. apply (Hall i t Et).
    + intros k0 y. rewrite Hm. intros [-> _]%lookup_replicate. by left.
    + intros i j t u Et _ _ Hn. destruct Hn. apply (Hall i t Et).
    + intros i t Et _. apply (Hall i t Et).
    + intros p i t _ Et _ Hn. destruct Hn. apply (Hall i t Et).
Qed.

Lemma tstarts_tinv ps ts s : tstarts ps ts s -> tinv s.
Proof using Hmax. intros (k & s0 & r & _ & E0 & E). eapply tkeeps_kb, E. by eapply pthread_init_tinv, E0. Qed.

(** The process [p] runs the thread of the entry [i], on a stack that the kernel gave it. *)
Definition runs_on (p : Z) (i : nat) t s : Prop :=
  thread_of s !! p = Some (Z.of_nat i) ∧ thread_info_list s !! i = Some t ∧ parent t = Some p ∧ mem_id t ≠ -1.

(** The addresses from [a] on are the stack that the context of [p] starts with. *)
Definition stack_at (a p : Z) s : Prop := init_sp s !! p = Some (a + PTHREAD_STACK_SIZE + SSTACK_PTR_ADJUST).

Lemma mem_id_range s i t : tinv s -> thread_info_list s !! i = Some t -> mem_id t ≠ -1 -> t_allocated t = true ∧ 0 <= mem_id t < MAX_PTHREADS.
Proof.
  intros [H Hf _] Et Hm. destruct (so_own _ _ H i t Et Hm) as [Hp Hi]. split; [|split; [done|]].
  - destruct (t_allocated t) eqn:Ea; [done|]. by pose proof (so_free _ _ H i t Et Ea).
  - apply lookup_lt_Some in Hi. rewrite (so_ids _ _ H) in Hi. lia.
Qed.

(** The stacks are in the 32-bit address space, and the first stack pointer in its stack. *)
Definition stacks_fit : Prop := 0 <= thread_stack_mem ∧ 0 <= PTHREAD_STACK_SIZE ∧
  thread_stack_mem + PTHREAD_STACK_SIZE * MAX_PTHREADS < 2 ^ 32 ∧ - PTHREAD_STACK_SIZE <= SSTACK_PTR_ADJUST <= 0.

Lemma sp_of_fits m : stacks_fit -> 0 <= m < MAX_PTHREADS -> sp_of m = thread_stack_mem + PTHREAD_STACK_SIZE * m + PTHREAD_STACK_SIZE + SSTACK_PTR_ADJUST.
Proof. intros (H1 & H2 & H3 & H4) Hm. unfold sp_of. assert (0 <= PTHREAD_STACK_SIZE * m ∧ PTHREAD_STACK_SIZE * m + PTHREAD_STACK_SIZE <= PTHREAD_STACK_SIZE * MAX_PTHREADS) by nia.
  rewrite (u32_small (thread_stack_mem + _ * m)), (u32_small (thread_stack_mem + _ * m + _)), u32_small; unfold is_u32; lia.
Qed.
End stacks.

(** C20: In every state that the system reaches, whatever processes and threads do, the stack pointer that
    a thread's process starts with is that of a stack of its own: it points into (or to the end of) [PTHREAD_STACK_SIZE] bytes
    within the memory for stacks, and the bytes of two threads are disjoint. The stacks that are marked as
    used are exactly the stacks of threads that exist. This is about threads whose stack the kernel allocates (no address in their
    attributes); there are at most 127 threads, the memory for stacks is in the 32-bit address space, and the adjustment of the
    stack pointer is negative or zero and at most the size of a stack. *)
Theorem stacks_exclusive {KC : KConfig} {TC : ThreadConfig} ps ts s0 es (s : tst) :
  0 <= MAX_PTHREADS <= 127 -> stacks_fit -> tstarts ps ts s0 -> tsteps s0 es s ->
  (forall p i t, runs_on p i t s -> t_allocated t = true ∧
    exists a, stack_at a p s ∧ thread_stack_mem <= a ∧ a + PTHREAD_STACK_SIZE <= thread_stack_mem + PTHREAD_STACK_SIZE * MAX_PTHREADS) ∧
  (forall p q i j t u a b, runs_on p i t s -> runs_on q j u s -> p ≠ q -> stack_at a p s -> stack_at b q s ->
    a + PTHREAD_STACK_SIZE <= b ∨ b + PTHREAD_STACK_SIZE <= a) ∧
  (forall k, thread_stack_memid s !! k = Some 1 <-> exists i t, thread_info_list s !! i = Some t ∧ t_allocated t = true ∧ mem_id t = Z.of_nat k).
Proof.
  intros Hmax Hfit Hs He. pose proof (tsteps_tinv Hmax _ _ _ He (tstarts_tinv Hmax _ _ _ Hs)) as H.
  assert (forall p i t, runs_on p i t s -> 0 <= mem_id t < MAX_PTHREADS ∧ stack_at (thread_stack_mem + PTHREAD_STACK_SIZE * mem_id t) p s) as Hr.
  { intros p i t (Hp & Et & Hpar & Hm). destruct (mem_id_range s i t H Et Hm) as [_ Hr]. split; [done|]. unfold stack_at.
    rewrite <- sp_of_fits by done. by apply (ti_sp _ H p i t). }
  destruct (Hfit) as (_ & Hsz & _). split_and!.
  - intros p i t Hp. destruct (Hr p i t Hp) as [Hm Ha]. split; [by apply (mem_id_range s i t H); apply Hp|]. eexists. split; [exact Ha|nia].
  - intros p q i j t u a b Hp Hq Hne Ea Eb. destruct (Hr p i t Hp) as [Hm Ha], (Hr q j u Hq) as [Hm' Hb].
    assert (a = thread_stack_mem + PTHREAD_STACK_SIZE * mem_id t ∧ b = thread_stack_mem + PTHREAD_STACK_SIZE * mem_id u) as [-> ->].
    { unfold stack_at in *. rewrite Ea in Ha. rewrite Eb in Hb. simplify_eq. lia. }
    destruct Hp as (_ & Et & Hpp & Hmt), Hq as (_ & Eu & Hqq & _).
    assert (mem_id t ≠ mem_id u) as Hmu. { intros E. assert (i = j) as <- by (by apply (so_one _ _ (ti_stacks _ H) i j t u)). simplify_eq. }
    destruct (Z.lt_total (mem_id t) (mem_id u)) as [?|[?|?]]; [left; nia|done|right; nia].
  - intros k. split.
    + intros E. destruct (so_used _ _ (ti_stacks _ H) k 1 E) as [?|(_ & i & t & Et & Em)]; [done|]. exists i, t. split_and!; [done|apply (mem_id_range s i t H Et); lia|done].
    + intros (i & t & Et & _ & Em). destruct (so_own _ _ (ti_stacks _ H) i t Et) as [_ Hi]; [lia|]. by rewrite Em, Nat2Z.id in Hi.
Qed.

(** ** Configurations for examples *)

(** The constants of pthread.h are those of the C library. *)
Definition demo_threads : ThreadConfig := {|
  MAX_PTHREADS := 4; PTHREAD_STACK_SIZE := 1000; SSTACK_PTR_ADJUST := -8; thread_stack_mem := 0x10000;
  PTHREAD_CREATE_DETACHED := 0; PTHREAD_CREATE_JOINABLE := 1; PTHREAD_SCOPE_SYSTEM := 1 |}.

(** The system after [pthread_init], after its start with the threads [ts], and after a run. *)
Definition demo_tinit (prio : bool) : tst :=
  let s1 := @blank_tst demo_threads (demo_start prio []) in
  match @pthread_init (demo_conf prio) demo_threads s1 with Some (_, s2) => s2 | None => s1 end.
Definition demo_tstart (prio : bool) (ts : list (Z * Z)) : tst :=
  match @kb_pthread_init (demo_conf prio) demo_threads ts (default_attr (demo_tinit prio)) (demo_tinit prio) with Some (_, s) => s | None => demo_tinit prio end.
Definition demo_trun (prio : bool) (ts : list (Z * Z)) (es : list tevent) : list (outcome * option Z) * tst :=
  default ([], demo_tstart prio ts) (@texec (demo_conf prio) demo_threads es (demo_tstart prio ts)).
Definition joinable_attr : pthread_attr_t := MkAttr 0 1 1 0 0.

Lemma demo_tstarts : @tstarts (demo_conf false) demo_threads [] [(0, 100); (0, 200)] (demo_tstart false [(0, 100); (0, 200)]).
Proof. exists (demo_start false []), (demo_tinit false), 0. split_and!; vm_compute; reflexivity. Qed.

(** The first thread waits for the second, which ends; the first makes two more. *)
Definition stack_events : list tevent :=
  [TKern ETick; TJoin 1 true; TExit 42; TResume; TCreate true (Some joinable_attr) 300 0; TCreate true None 400 0].

Lemma stacks_exclusive_witness :
  exists s, @tsteps (demo_conf false) demo_threads (demo_tstart false [(0, 100); (0, 200)]) stack_events s ∧ mem_id <$> thread_info_list s = [0; 1; 2; -1] ∧
    init_sp s !! 1 = Some (0x10000 + 1000 - 8) ∧ init_sp s !! 2 = Some (0x10000 + 2000 - 8) ∧
    (exists a, @stack_at demo_threads a 2 s ∧ 0x10000 <= a ∧ a + 1000 <= 0x10000 + 4000) ∧
    forall a b, @stack_at demo_threads a 1 s -> @stack_at demo_threads b 2 s -> a + 1000 <= b ∨ b + 1000 <= a.
Proof.
  assert (@tsteps (demo_conf false) demo_threads (demo_tstart false [(0, 100); (0, 200)]) stack_events (demo_trun false [(0, 100); (0, 200)] stack_events).2) as Hs.
  { apply (texec_steps _ _ (demo_trun false [(0, 100); (0, 200)] stack_events).1). vm_compute. reflexivity. }
  destruct (@stacks_exclusive (demo_conf false) demo_threads [] [(0, 100); (0, 200)] (demo_tstart false [(0, 100); (0, 200)]) stack_events _ ltac:(simpl; lia) ltac:(unfold stacks_fit; simpl; lia) demo_tstarts Hs) as (H1 & H2 & _).
  assert (forall p, p = 1 ∨ p = 2 -> exists i t, runs_on p i t (demo_trun false [(0, 100); (0, 200)] stack_events).2) as Hr.
  { intros p [->| ->]; [exists 0%nat|exists 1%nat]; (eexists; split; [vm_compute; reflexivity|]; split; [vm_compute; reflexivity|by split]). }
  destruct (Hr 1) as (i & t & Hi); [by left|]. destruct (Hr 2) as (j & u & Hj); [by right|].
  exists (demo_trun false [(0, 100); (0, 200)] stack_events).2. split; [exact Hs|]. split_and!; [vm_compute; reflexivity..| |].
  - exact (proj2 (H1 2 j u Hj)).
  - intros a b. by apply (H2 1 2 i j t u a b).
Defined.
