(* ===== verification/KthreadJoin.v ===== *)
(** * Joining threads

    A joinable thread that has ended keeps its return value until a thread joins
    it, whatever others do meanwhile; its end wakes a thread that waits for it, and joining releases its entry, its stack and
    its process ([join_returns_value]). Joining a thread that is not joinable, which
    is what threads are by default, can destroy a thread that was created in
    between ([join_destroys_thread]), and a detached thread is not released
    when it ends ([detach_keeps_thread]). *)

From stdpp Require Import gmap.
From S2P Require Import Prelude Kqueue Kheap Ktimer Ksched Ksem Kmutex Kinv Kernel Kkill Kreach Kwait Kthread KthreadStack.
Open Scope Z_scope.

Section join.
Context {KC : KConfig} {TC : ThreadConfig}.
Implicit Types (s : tst) (t : pthread_info).

(** ** Entries that an operation leaves alone *)

Definition info (i : Z) s : option pthread_info := arr_get (thread_info_list s) i.
Definition frames (i : Z) {A} (m : ST tst A) : Prop := forall s a s', m s = Some (a, s') -> info i s' = info i s.

Lemma frames_bind i {A B} (m : ST tst A) (k : A -> ST tst B) : frames i m -> (forall a, frames i (k a)) -> frames i (m ≫= k).
Proof. intros Hm Hk s b s' (a & s1 & E1 & E2)%bind_inv. rewrite (Hk _ _ _ _ E2). by eapply Hm. Qed.
Lemma frames_ret i {A} (a : A) : frames i (mret a).
Proof. by intros s b s' [_ ->]%ret_inv. Qed.
Lemma frames_undef i {A} : frames i (undef : ST tst A).
Proof. by intros s b s'. Qed.
Lemma frames_gets i {A} (f : tst -> A) : frames i (gets f).
Proof. by intros s b s' [_ ->]%gets_inv. Qed.
Lemma frames_lift i {A} (o : option A) : frames i (lift o).
Proof. by intros s b s' [_ ->]%lift_inv. Qed.
Lemma frames_tk i {A} (m : ST kst A) : frames i (tk m).
Proof. by intros s b s' (k & _ & ->)%tk_inv. Qed.
Lemma frames_modify i f : (forall s, thread_info_list (f s) = thread_info_list s) -> frames i (modify f).
Proof. intros Hf s b s' ->%modify_inv. unfold info. by rewrite Hf. Qed.
Lemma frames_get_thread i j : frames i (get_thread j).
Proof. by intros s b s' [_ ->]%get_thread_inv. Qed.
Lemma frames_set_memid i j x : frames i (set_memid j x).
Proof. by intros s b s' [_ ->]%set_memid_inv. Qed.
Lemma frames_upd_thread i j f : j ≠ i -> frames i (upd_thread j f).
Proof.
  intros Hne s b s' (t & Hj & E & ->)%upd_thread_inv. unfold info. simpl. destruct (decide (0 <= i)) as [Hi|Hi].
  - rewrite !arr_get_lookup by done. apply list_lookup_insert_ne. lia.
  - unfold arr_get. by rewrite !decide_False by lia.
Qed.

(** Walks through a statement. *)
Ltac frames_step :=
  match goal with
  | |- frames _ (_ ≫= _) => apply frames_bind; [|intros ?]
  | |- frames _ (mret _) => apply frames_ret
  | |- frames _ skip => apply frames_ret
  | |- frames _ undef => apply frames_undef
  | |- frames _ (gets _) => apply frames_gets
  | |- frames _ (lift _) => apply frames_lift
  | |- frames _ (tk _) => apply frames_tk
  | |- frames _ (modify _) => apply frames_modify; done
  | |- frames _ (get_thread _) => apply frames_get_thread
  | |- frames _ (set_memid _ _) => apply frames_set_memid
  | |- frames _ (upd_thread _ _) => apply frames_upd_thread; done
  | |- frames _ (if ?b then _ else _) => destruct b
  | |- frames _ (match ?x with _ => _ end) => destruct x eqn:?
  end.
Ltac frames_walk := repeat frames_step.

Lemma frames_invalidate i j : j ≠ i -> frames i (invalidate_thread_info j).
Proof. intros Hne. unfold invalidate_thread_info, free_bss_mem. frames_walk. Qed.
Lemma frames_thread_end i j v p : j ≠ i -> frames i (thread_end j v p).
Proof. intros Hne. unfold thread_end. frames_walk. by apply frames_invalidate. Qed.
Lemma frames_join_end i j r : j ≠ i -> frames i (join_end j r).
Proof. intros Hne. unfold join_end. frames_walk. by apply frames_invalidate. Qed.
Lemma frames_new_thread i j a e : j ≠ i -> frames i (new_thread j a e).
Proof. intros Hne. unfold new_thread, t_proc_create. frames_walk. by apply frames_invalidate. Qed.

Lemma frames_join i target want : pthread_get_info target ≠ Some i -> frames i (sys_pthread_join target want).
Proof. intros Hne. unfold sys_pthread_join, sys_pthread_self. frames_walk; try (apply frames_upd_thread; congruence); apply frames_join_end; congruence. Qed.
Lemma frames_detach i thread : pthread_get_info thread ≠ Some i -> frames i (sys_pthread_detach thread).
Proof. intros Hne. unfold sys_pthread_detach. frames_walk; try (apply frames_upd_thread; congruence); apply frames_invalidate; congruence. Qed.

(** Operations on the thread of a process. *)
Lemma exit_frames i v s a s' : thread_of s !! current_pid (tkern s) ≠ Some i -> sys_pthread_exit v s = Some (a, s') -> info i s' = info i s.
Proof.
  intros Hne (c & s1 & (k & [-> ->]%gets_inv & ->)%tk_inv & (m & s2 & [-> ->]%gets_inv & (j & s3 & [Ej ->]%lift_inv & E)%bind_inv)%bind_inv)%bind_inv.
  assert (j ≠ i) as Hji by (intros ->; done). change (info i s) with (info i (set_tkern (tkern s) s)). revert E. apply (frames_bind i); [by apply frames_thread_end|]. intros ?. frames_walk.
Qed.

Lemma kill_frames i pid s a s' : thread_of s !! pid ≠ Some i -> kill_thread pid s = Some (a, s') -> info i s' = info i s.
Proof.
  intros Hne (x & s1 & (k & Ex & ->)%tk_inv & E)%bind_inv. destruct (is_allocated x); [|by apply ret_inv in E as [_ ->]].
  assert (k = tkern s) as ->. { unfold get_proc in Ex. apply bind_inv in Ex as (? & ? & [-> ->]%gets_inv & [_ ->]%lift_inv). done. }
  apply bind_inv in E as (c & s2 & (k & [-> ->]%gets_inv & ->)%tk_inv & E). apply bind_inv in E as (m & s3 & [-> ->]%gets_inv & E). simpl in E.
  case_bool_decide as Hc.
  - destruct (thread_of s !! pid) as [j|] eqn:Ej; [|by apply tk_inv in E as (? & _ & ->)]. apply exit_frames with (i := i) in E; [done|]. simpl. by rewrite <- Hc, Ej.
  - change (info i s) with (info i (set_tkern (tkern s) (set_tkern (tkern s) s))). destruct (thread_of s !! pid) as [j|] eqn:Ej; revert E.
    + apply (frames_bind i); [apply frames_tk|]. intros ?. apply frames_bind; [|intros ?; frames_walk]. unfold pthread_terminate. frames_walk. apply frames_thread_end. congruence.
    + apply (frames_bind i); [apply frames_tk|]. intros ?. frames_walk.
Qed.

Lemma create_frames i thread attr start param s a s' t : info i s = Some t -> t_allocated t = true ->
  sys_pthread_create thread attr start param s = Some (a, s') -> info i s' = info i s.
Proof.
  intros Ei Ha E. unfold sys_pthread_create in E. destruct thread; simpl in E; [|by apply ret_inv in E as [_ ->]].
  apply bind_inv in E as (d & s1 & [-> ->]%gets_inv & E). destruct (match attr with Some a => negb (attr_ok a) | None => false end); [by apply ret_inv in E as [_ ->]|].
  apply bind_inv in E as (l & s1 & [-> ->]%gets_inv & E). destruct (list_find _ (thread_info_list s)) as [[j t0]|] eqn:Ef; [|by apply ret_inv in E as [_ ->]].
  apply list_find_Some in Ef as (Ht & Hfree & _). assert (Z.of_nat j ≠ i) as Hne.
  { intros <-. unfold info in Ei. rewrite arr_get_nat in Ei. congruence. }
  revert E. apply (frames_bind i); [by apply frames_upd_thread|]. intros ?. apply frames_bind; [apply frames_tk|]. intros ?.
  case_bool_decide; [|by apply frames_new_thread]. apply frames_bind; [unfold alloc_bss_mem; frames_walk|]. intros [[[? ?] ?]|].
  - apply frames_bind; [by apply frames_upd_thread|]. intros ?. by apply frames_new_thread.
  - apply frames_bind; [by apply frames_upd_thread|]. intros ?. apply frames_bind; [by apply frames_invalidate|]. intros ?. apply frames_ret.
Qed.

Lemma resume_frames i s a s' : cur_ctx (tkern s) ≠ Some (FJoin i) -> tresume s = Some (a, s') -> info i s' = info i s.
Proof.
  intros Hne (c & s1 & (k0 & [-> ->]%gets_inv & ->)%tk_inv & (x & s2 & (k & Ex & ->)%tk_inv & (f & s3 & [Ef ->]%lift_inv & E)%bind_inv)%bind_inv)%bind_inv.
  assert (k = tkern s ∧ cur_ctx (tkern s) = Some f) as [-> Ec].
  { simpl in Ex. unfold get_proc in Ex. apply bind_inv in Ex as (? & ? & [-> ->]%gets_inv & [Eg ->]%lift_inv). unfold cur_ctx. rewrite Eg. done. }
  destruct f as [| | | |j|]; try done. revert E. change (info i s) with (info i (set_tkern (tkern s) (set_tkern (tkern s) s))).
  apply (frames_bind i); [apply frames_tk|]. intros ?. unfold join_resume. frames_walk; apply frames_join_end; congruence.
Qed.

(** ** A thread that has ended *)

(** The event is not about the thread [i] and not its own. *)
Definition spares (i : Z) (e : tevent) s : Prop :=
  match e with
  | TExit _ => thread_of s !! current_pid (tkern s) ≠ Some i
  | TJoin thread _ | TDetach thread => pthread_get_info thread ≠ Some i
  | TResume => cur_ctx (tkern s) ≠ Some (FJoin i)
  | TKill pid => thread_of s !! pid ≠ Some i
  | _ => True
  end.

(** Steps that spare it. *)
Inductive spared (i : Z) : tst -> list tevent -> tst -> Prop :=
  | spared_nil s : spared i s [] s
  | spared_cons s e r s1 es s2 : tenabled e s -> spares i e s -> tstep e s = Some (r, s1) -> spared i s1 es s2 -> spared i s (e :: es) s2.

Lemma spared_steps i s es s' : spared i s es s' -> tsteps s es s'.
Proof. induction 1; econstructor; eauto. Qed.

Lemma finish_inv {A} (m : ST tst (outcome * A)) s r s' : tfinish m s = Some (r, s') -> exists r1 s1, m s = Some (r1, s1) ∧ forall i, info i s' = info i s1.
Proof. intros (r1 & s1 & E1 & (? & s2 & (k & _ & ->)%tk_inv & [-> ->]%ret_inv)%bind_inv)%bind_inv. by exists r1, s1. Qed.

Lemma result_inv {A B} (m : ST tst A) (f : A -> B) s r s' : (a ← m; mret (f a)) s = Some (r, s') -> exists a, m s = Some (a, s').
Proof. intros (a & s1 & E & [_ ->]%ret_inv)%bind_inv. eauto. Qed.

Lemma step_frames i e s r s' t : info i s = Some t -> t_allocated t = true -> spares i e s -> tstep e s = Some (r, s') -> info i s' = info i s.
Proof.
  intros Ei Ha Hs E. destruct e as [e|thread attr start param|v|target want| |thread|thread ok|thread prio|pid]; cbn [tstep] in E; simpl in Hs.
  - revert E. apply (frames_bind i); [apply frames_tk|]. intros ?. unfold clear_thread. frames_walk.
  - apply finish_inv in E as (r1 & s1 & [a E]%(result_inv _ (λ r, (Done r.1, r.2))) & ->). by eapply create_frames, E.
  - apply finish_inv in E as (r1 & s1 & [a E]%(result_inv _ (λ o, (o, None))) & ->). by eapply exit_frames, E.
  - apply finish_inv in E as (r1 & s1 & E & ->). by eapply frames_join, E.
  - apply finish_inv in E as (r1 & s1 & E & ->). by eapply resume_frames, E.
  - apply finish_inv in E as (r1 & s1 & [a E]%(result_inv _ (λ r, (Done r, None))) & ->). by eapply frames_detach, E.
  - apply finish_inv in E as (r1 & s1 & [a E]%(result_inv _ (λ r, (Done r.1, fst <$> r.2))) & ->). eapply (_ : frames i (sys_pthread_getschedparam thread ok)), E. Unshelve.
    unfold sys_pthread_getschedparam. frames_walk.
  - apply finish_inv in E as (r1 & s1 & [a E]%(result_inv _ (λ r, (Done r, None))) & ->). eapply (_ : frames i (sys_pthread_setschedparam thread prio)), E. Unshelve.
    unfold sys_pthread_setschedparam. frames_walk.
  - apply finish_inv in E as (r1 & s1 & [a E]%(result_inv _ (λ o, (o, None))) & ->). by eapply kill_frames, E.
Qed.

(** The thread has ended with the value [v]; its process is [p]. *)
Definition ended (i v p : Z) s : Prop :=
  exists t, info i s = Some t ∧ t_allocated t = true ∧ t_state t = PTHREAD_STATE_EXIT ∧ retval t = v ∧ parent t = Some p.

Lemma spared_info i s es s' t : spared i s es s' -> info i s = Some t -> t_allocated t = true -> info i s' = Some t.
Proof. induction 1 as [|s e r s1 es s2 _ Hs E _ IH]; [done|]. intros Ei Ha. apply IH; [|done]. by rewrite (step_frames i e s r s1 t). Qed.
Lemma spared_ended i v p s es s' : spared i s es s' -> ended i v p s -> ended i v p s'.
Proof. intros H (t & Ei & Ha & Ht). exists t. split; [by eapply spared_info|done]. Qed.

(** The end of a thread that is joinable. *)
Lemma exit_run v s r s' i t : tstep (TExit v) s = Some (r, s') -> thread_of s !! current_pid (tkern s) = Some i -> info i s = Some t ->
  detachstate (thread_attr t) ≠ PTHREAD_CREATE_DETACHED -> exists k1 k2,
  (match join_thread t with Some _ => process_unblock (JoinQ i) | None => skip end) (tkern s) = Some (tt, k1) ∧
  upd_proc (current_pid (tkern s)) (set_p_state PROC_DEAD) k1 = Some (tt, k2) ∧ suspend FExit k2 = Some (tt, tkern s') ∧
  info i s' = Some (set_t_state PTHREAD_STATE_EXIT (set_retval v t)) ∧ jctx s' = jctx s.
Proof.
  intros E Hc Ei Hd. cbn [tstep] in E. unfold tfinish in E. apply bind_inv in E as (r1 & s1 & (o & s0 & E & [-> ->]%ret_inv)%bind_inv & Ef).
  unfold sys_pthread_exit in E. apply bind_inv in E as (c & s2 & (k & [-> ->]%gets_inv & ->)%tk_inv & E). apply bind_inv in E as (m & s3 & [-> ->]%gets_inv & E).
  apply bind_inv in E as (j & s4 & [Ej ->]%lift_inv & E). simpl in Ej. rewrite Hc in Ej. injection Ej as <-. apply bind_inv in E as ([] & s5 & E5 & E).
  apply bind_inv in E as ([] & s6 & (k3 & E3 & ->)%tk_inv & [-> ->]%ret_inv). cbn [finish fst] in Ef. apply bind_inv in Ef as (? & s6 & (k' & [_ ->]%ret_inv & ->)%tk_inv & [_ ->]%ret_inv).
  unfold thread_end in E5. apply bind_inv in E5 as (? & s6 & (t' & Hi & Et' & ->)%upd_thread_inv & E). unfold info in Ei. rewrite arr_get_lookup in Ei by done. simpl in Et', E. rewrite Ei in Et'. injection Et' as <-.
  pose proof (lookup_lt_Some _ _ _ Ei) as Hlt.
  assert (forall u, arr_get (<[Z.to_nat i := u]> (thread_info_list s)) i = Some u) as Hget by (intros u; rewrite arr_get_lookup by done; by apply list_lookup_insert_eq).
  apply bind_inv in E as (t1 & s7 & [Et1 ->]%get_thread_inv & E). simpl in Et1. rewrite Hget in Et1. injection Et1 as <-.
  apply bind_inv in E as ([] & s8 & E8 & E). apply bind_inv in E as (t2 & s9 & [Et2 ->]%get_thread_inv & E).
  set (s7 := set_infos _ _) in E8. change (join_thread (set_t_state _ _)) with (join_thread t) in E8.
  assert (exists k1, (match join_thread t with Some _ => process_unblock (JoinQ i) | None => skip end) (tkern s) = Some (tt, k1) ∧ s8 = set_tkern k1 s7) as (k1 & E1 & ->).
  { destruct (join_thread t); [apply tk_inv in E8 as (k1 & E8 & ->); by exists k1|apply ret_inv in E8 as [_ ->]; by exists (tkern s)]. }
  simpl in Et2. rewrite Hget in Et2. injection Et2 as <-. simpl in E. rewrite bool_decide_eq_false_2 in E by done. apply tk_inv in E as (k2 & E2 & ->).
  exists k1, k2. split_and!; [done|done|done|apply Hget|done].
Qed.

Lemma exit_ended v s r s' i t p : tstep (TExit v) s = Some (r, s') -> thread_of s !! current_pid (tkern s) = Some i -> info i s = Some t ->
  t_allocated t = true -> detachstate (thread_attr t) ≠ PTHREAD_CREATE_DETACHED -> parent t = Some p -> ended i v p s'.
Proof. intros E Hc Ei Ha Hd Hp. destruct (exit_run v s r s' i t E Hc Ei Hd) as (k1 & k2 & _ & _ & _ & H & _). by eexists. Qed.

(** ** The thread that waits for it *)

(** The process [w] waits in [sys_pthread_join] for the thread [i], alone in the queue, and its ready queue has a free place. *)
Definition waits_join (w i : Z) (k : kst) : Prop := 0 <= w < 127 ∧ w ≠ current_pid k ∧ exists x (q y : queue Z) l,
  arr_get (ptable k) w = Some x ∧ p_state x = PROC_WAIT ∧ kctx x = Some (FJoin i) ∧
  kqs k !! JoinQ i = Some q ∧ (if sched_is_prio then pheap (prios k) [w] q else ring [w] q) ∧
  kqs k !! ready_of x = Some y ∧ ring l y ∧ Z.of_nat (length l) ≠ max_items y.

(** It is ready, and in its ready queue. *)
Definition queued (w i : Z) (k : kst) : Prop := exists x (y : queue Z) l,
  arr_get (ptable k) w = Some x ∧ p_state x = PROC_READY ∧ kctx x = Some (FJoin i) ∧ kqs k !! ready_of x = Some y ∧ ring l y ∧ w ∈ l.

(** It runs, or will. *)
Definition awake (w i : Z) (k : kst) : Prop := (current_pid k = w ∧ cur_ctx k = Some (FJoin i)) ∨ queued w i k.

Lemma unblock_wakes w i k : waits_join w i k -> wp (process_unblock (JoinQ i)) k (λ _ k', queued w i k' ∧ current_pid k' = current_pid k).
Proof.
  intros (Hw & _ & x & q & y & l & Ex & Hst & Hc & Eq & Hq & Ey & Hl & Hfull). unfold process_unblock, wait_deq. apply wp_bind, wp_bind.
  eapply (wp_mono _ _ (λ r k', r = w ∧ exists q', k' = set_kqs (<[JoinQ i := q']> (kqs k)) k)).
  { destruct sched_is_prio.
    - wp_pure. eapply (wp_on_q _ _ _ _ _ _ Eq); [by apply (prio_pdeq_spec (prios k) [w])|]. intros r q' (_ & l' & [El _] & _). split; [|eauto].
      assert (r ∈ [w]) as Hr by (rewrite El; by left). set_solver.
    - eapply (wp_on_q _ _ _ _ _ _ Eq); [by apply (run_op_spec Pdeq [w])|]. intros r q' (_ & -> & _). split; [done|eauto]. }
  intros r k' (-> & q' & ->). apply wp_ret. rewrite s8_small by lia. rewrite bool_decide_eq_false_2 by lia.
  apply wp_bind. eapply wp_get_proc; [exact Ex|]. rewrite bool_decide_eq_false_2 by (by rewrite Hst). apply wp_bind, wp_ret.
  eapply wp_bind, wp_upd_proc; [exact Ex|]. set (k1 := put_proc w _ _). set (x1 := set_blockq None (set_p_state PROC_READY x)).
  assert (arr_get (ptable k1) w = Some x1) as Ex1 by (by eapply put_proc_eq).
  apply wp_bind. unfold ready_enq. apply wp_bind. eapply wp_get_proc; [exact Ex1|].
  eapply (wp_on_q _ _ _ y _ _); [simpl; by rewrite lookup_insert_ne|by apply enq_spec|]. intros [] y' [_ Hr]. rewrite bool_decide_eq_false_2 in Hr by done.
  assert (queued w i (set_kqs (<[ready_of x1 := y']> (kqs k1)) k1)) as H1.
  { exists x1, y', (l ++ [w]). split_and!; [done..|simpl; by apply lookup_insert_eq|done|set_solver]. }
  destruct sched_is_prio; by wp_pure.
Qed.

(** The scheduler takes it from the queue only to run it: [r] is what it takes. *)
Definition kept_by (w i : Z) (r : Z) (k k' : kst) : Prop := ptable k' = ptable k ∧ ctx_save_process k' = ctx_save_process k ∧ (r = w ∨ queued w i k').

Lemma deq_queued w i (k : kst) q r k' : queued w i k -> on_q q pdeq k = Some (r, k') -> kept_by w i r k k'.
Proof.
  intros (x & y & l & Ex & Hst & Hc & Ey & Hl & Hin) E. unfold on_q in E. apply bind_inv in E as (m & k1 & [-> ->]%gets_inv & E).
  apply bind_inv in E as (q0 & k1 & [Eq ->]%lift_inv & E). apply bind_inv in E as ([r' q'] & k1 & [Er ->]%lift_inv & E).
  apply bind_inv in E as (? & k1 & ->%modify_inv & [-> ->]%ret_inv). split_and!; [done..|].
  destruct (decide (q = ready_of x)) as [->|Hne]; [|right; exists x, y, l; split_and!; [done..|simpl; by rewrite lookup_insert_ne|done|done]]. rewrite Ey in Eq. injection Eq as <-.
  pose proof (run_op_spec Pdeq l y Hl) as (r2 & q2 & E2 & _ & -> & Hr)%wp_run. cbn [run_op] in E2. rewrite Er in E2. injection E2 as -> ->.
  destruct l as [|z l]; [by apply elem_of_nil in Hin|]. apply elem_of_cons in Hin as [<-|Hin]; [by left|]. right.
  exists x, q2, l. split_and!; [done..|simpl; by apply lookup_insert_eq|done|done].
Qed.

Lemma count_queued w i (k : kst) q r k' : queued w i k -> on_q q (gets item_count) k = Some (r, k') ->
  ptable k' = ptable k ∧ ctx_save_process k' = ctx_save_process k ∧ queued w i k'.
Proof.
  intros H E. unfold on_q in E. apply bind_inv in E as (m & k1 & [-> ->]%gets_inv & E). apply bind_inv in E as (q0 & k1 & [Eq ->]%lift_inv & E).
  apply bind_inv in E as ([r' q'] & k1 & [[-> ->]%gets_inv ->]%lift_inv & E). apply bind_inv in E as (? & k1 & ->%modify_inv & [-> ->]%ret_inv).
  rewrite insert_id by done. by destruct k.
Qed.

Lemma get_proc_inv p (k : kst) x k' : get_proc p k = Some (x, k') -> arr_get (ptable k) p = Some x ∧ k' = k.
Proof. intros (t & k1 & [-> ->]%gets_inv & [E ->]%lift_inv)%bind_inv. done. Qed.

Lemma flush_queued w i q : 0 <= w < 127 -> forall n ready k r k', queued w i k -> flush_loop n q ready k = Some (r, k') -> kept_by w i r k k'.
Proof.
  intros Hw n. induction n as [|n IH]; intros ready k r k' H E; cbn [flush_loop] in E; [done|].
  apply bind_inv in E as (c & k1 & (Hp & Hc & H1)%(count_queued w i) & E); [|done]. case_bool_decide; [apply ret_inv in E as [-> ->]; by split_and!; [..|right]|].
  apply bind_inv in E as (d & k2 & (Hp2 & Hc2 & H2)%(deq_queued w i) & E); [|done]. apply bind_inv in E as (x & k3 & [Ex ->]%get_proc_inv & E).
  case_bool_decide as Hd.
  - destruct H2 as [->|H2].
    + rewrite s8_small in Ex by lia. destruct H as (x' & _ & _ & Ex' & Hst & _). rewrite Hp2, Hp in Ex. simplify_eq. congruence.
    + destruct (IH _ _ _ _ H2 E) as (Hp3 & Hc3 & H3). split_and!; congruence.
  - apply ret_inv in E as [-> ->]. split_and!; [congruence..|]. destruct H2 as [->|H2]; [left; apply s8_small; lia|by right].
Qed.

Lemma prio_queued w i : 0 <= w < 127 -> forall n j k r k', queued w i k -> prio_loop n j k = Some (r, k') -> kept_by w i r k k'.
Proof.
  intros Hw n. induction n as [|n IH]; intros j k r k' H E; cbn [prio_loop] in E; [apply ret_inv in E as [-> ->]; by split_and!; [..|right]|].
  apply bind_inv in E as (d & k1 & (Hp & Hc & H1)%(flush_queued w i) & E); [|done|done]. case_bool_decide as Hd; [by apply ret_inv in E as [-> ->]|].
  destruct H1 as [->|H1]; [lia|]. destruct (IH _ _ _ _ H1 E) as (Hp2 & Hc2 & H2). split_and!; congruence.
Qed.

Lemma upd_queued w i p f (k : kst) : (forall x, p_state (f x) = p_state x ∧ kctx (f x) = kctx x ∧ p_priority (f x) = p_priority x) ∨ p ≠ w ->
  forall k', upd_proc p f k = Some (tt, k') -> queued w i k -> queued w i k'.
Proof.
  intros Hf k' (x0 & E0 & ->)%upd_proc_run (x & y & l & Ex & Hst & Hc & Ey & Hl & Hin).
  destruct (decide (p = w)) as [->|Hne].
  - destruct Hf as [Hf|?]; [|done]. simplify_eq. destruct (Hf x0) as (E1 & E2 & E3). exists (f x0), y, l.
    split_and!; [by eapply put_proc_eq|congruence|congruence|unfold ready_of; by rewrite E3|done|done].
  - exists x, y, l. split_and!; [by rewrite (put_proc_ne p w (f x0) x0 k E0)|done..].
Qed.

Lemma run_awake w i r (k k' : kst) : 0 <= w -> r = w ∨ queued w i k -> (exists x, arr_get (ptable k) w = Some x ∧ kctx x = Some (FJoin i)) ->
  run_process r k = Some (tt, k') -> awake w i k'.
Proof.
  intros Hw H (x & Ex & Hc) E. unfold run_process in E. apply bind_inv in E as ([] & k1 & E1 & ->%modify_inv). set (r' := if bool_decide (r = -1) then _ else _) in *.
  destruct (decide (r' = w)) as [->|Hne].
  - left. split; [done|]. apply upd_proc_run in E1 as (x0 & E0 & ->). unfold cur_ctx. simpl. rewrite E0 in Ex. injection Ex as ->.
    pose proof (put_proc_eq w (set_p_state PROC_RUN x) x k E0) as E1. simpl in E1. by rewrite E1.
  - right. destruct H as [->|H]; [unfold r' in Hne; rewrite bool_decide_eq_false_2 in Hne by lia; done|].
    assert (queued w i k1) as H1 by (by eapply (upd_queued w i r'); [right|..]). done.
Qed.

(** What the end of [suspend] does to it. *)
Lemma upd_awake w i p f (k k' : kst) : (forall x, p_state (f x) = p_state x ∧ kctx (f x) = kctx x ∧ p_priority (f x) = p_priority x) ->
  upd_proc p f k = Some (tt, k') -> awake w i k -> awake w i k'.
Proof.
  intros Hf E [[Hw Hc]|H]; [|right; by eapply upd_queued; [left|..]]. left. apply upd_proc_run in E as (x0 & E0 & ->). split; [done|]. unfold cur_ctx in *. simpl.
  destruct (decide (current_pid k = p)) as [Hp|Hne].
  - rewrite Hp in *. rewrite E0 in Hc. pose proof (put_proc_eq p (f x0) x0 k E0) as E1. simpl in E1. rewrite E1. simpl. simpl in Hc. by rewrite (proj1 (proj2 (Hf x0))).
  - pose proof (put_proc_ne p (current_pid k) (f x0) x0 k E0 Hne) as E1. simpl in E1. by rewrite E1.
Qed.

Lemma pit_awake w i u (k k' : kst) : pit_reset k = Some (u, k') -> awake w i k -> awake w i k'.
Proof.
  intros E H. unfold pit_reset in E. apply bind_inv in E as (b & k1 & [-> ->]%gets_inv & E). destruct (timer_need_refresh k).
  - apply bind_inv in E as (? & k1 & ->%modify_inv & E). apply bind_inv in E as (? & k1 & ->%modify_inv & ->%modify_inv). done.
  - apply bind_inv in E as (d & k1 & [-> ->]%gets_inv & E). destruct (did_resched k); [|by apply ret_inv in E as [_ ->]].
    apply bind_inv in E as (? & k1 & ->%modify_inv & ->%modify_inv). done.
Qed.

Lemma suspend_wakes w i f (k k' : kst) x : 0 <= w < 127 -> queued w i k -> arr_get (ptable k) (current_pid k) = Some x -> p_state x = PROC_DEAD ->
  suspend f k = Some (tt, k') -> awake w i k'.
Proof.
  intros Hw H Ex Hd E. unfold suspend in E. apply bind_inv in E as (r & k1 & Es & E). unfold scheduler in Es.
  apply bind_inv in Es as (c & k2 & [-> ->]%gets_inv & Es). apply bind_inv in Es as (x' & k2 & [Ex' ->]%get_proc_inv & Es). simplify_eq.
  rewrite bool_decide_eq_true_2 in Es by done. apply bind_inv in Es as (? & k2 & E2 & Es). apply bind_inv in E2 as (? & k3 & ->%modify_inv & ->%modify_inv).
  apply bind_inv in Es as ([] & k3 & E3 & Es). rewrite sched_search in E3. apply bind_inv in E3 as (? & k4 & E4 & E3).
  assert (k4 = set_prev_pid (-1) (set_ctx_save_process None k)) as ->.
  { unfold requeue_current in E4. apply bind_inv in E4 as (c & k5 & [-> ->]%gets_inv & E4). apply bind_inv in E4 as (x' & k5 & [Ex4 ->]%get_proc_inv & E4).
    simpl in Ex4. simplify_eq. rewrite bool_decide_eq_false_2 in E4 by (by rewrite Hd). by apply ret_inv in E4 as [_ ->]. }
  apply bind_inv in E3 as (? & k4 & ->%modify_inv & E3). apply bind_inv in E3 as (n & k5 & E5 & E3).
  set (k4 := set_current_pid _ _) in E5. assert (queued w i k4) as H4 by done.
  assert (kept_by w i n k4 k5) as (Hp & Hs & H5) by (unfold sched_loop in E5; destruct sched_is_prio; [by eapply prio_queued, E5|by eapply flush_queued, E5]).
  assert (awake w i k3) as H3.
  { eapply (run_awake w i n k5); [lia|done| |exact E3]. destruct H as (xw & _ & _ & Ew & _ & Hcw & _). exists xw. by rewrite Hp. }
  apply bind_inv in Es as (c & k6 & [-> ->]%gets_inv & Es). destruct (bool_decide (current_pid k3 = -1)); [done|]. apply bind_inv in Es as (? & k6 & ->%modify_inv & Es).
  apply bind_inv in Es as (? & k6 & ->%modify_inv & Es). apply bind_inv in Es as (p & k6 & [-> ->]%gets_inv & [-> ->]%ret_inv).
  set (k1 := set_resched _ _) in E. assert (awake w i k1) as H1 by done. case_bool_decide; [done|].
  apply bind_inv in E as (p & k2 & [-> ->]%gets_inv & E).
  assert (ctx_save_process k1 = None) as Hn by (apply bind_inv in E3 as ([] & k7 & (? & _ & ->)%upd_proc_run & ->%modify_inv); exact Hs). rewrite Hn in E.
  apply bind_inv in E as (? & k2 & [_ ->]%ret_inv & E). unfold restore_context in E. apply bind_inv in E as (? & k2 & E2 & E).
  apply bind_inv in E as (c & k6 & [-> ->]%gets_inv & E). eapply upd_awake; [|exact E|]; [done|].
  by eapply pit_awake.
Qed.

Lemma exit_wakes v s r s' i t w : tstep (TExit v) s = Some (r, s') -> thread_of s !! current_pid (tkern s) = Some i -> info i s = Some t ->
  detachstate (thread_attr t) ≠ PTHREAD_CREATE_DETACHED -> join_thread t ≠ None -> waits_join w i (tkern s) -> awake w i (tkern s') ∧ jctx s' = jctx s.
Proof.
  intros E Hc Ei Hd Hj Hw. destruct (exit_run v s r s' i t E Hc Ei Hd) as (k1 & k2 & E1 & E2 & E3 & _ & ->). split; [|done].
  destruct (join_thread t); [|done]. pose proof (unblock_wakes w i (tkern s) Hw) as (? & k1' & E1' & Hq & Hcur)%wp_run. rewrite E1 in E1'. injection E1' as _ <-.
  destruct Hw as (Hw & Hne & _). pose proof E2 as (xc & Exc & ->)%upd_proc_run. rewrite <- Hcur in *.
  eapply (suspend_wakes w i FExit _ _ (set_p_state PROC_DEAD xc)); [done| | |done|exact E3].
  - eapply (upd_queued w i); [right; by apply not_eq_sym|exact E2|done].
  - by eapply put_proc_eq.
Qed.

(** ** Joining it *)

Lemma set_tkern_id s : set_tkern (tkern s) s = s.
Proof. by destruct s. Qed.
Lemma wp_get_thread i s t (Q : pthread_info -> tst -> Prop) : info i s = Some t -> Q t s -> wp (get_thread i) s Q.
Proof. intros E HQ. unfold get_thread. wp_pure. by apply (wp_lift _ t). Qed.
Lemma wp_upd_thread i f s t (Q : unit -> tst -> Prop) : info i s = Some t -> Q tt (set_infos (<[Z.to_nat i := f t]> (thread_info_list s)) s) -> wp (upd_thread i f) s Q.
Proof.
  intros E HQ. unfold upd_thread. apply wp_bind, (wp_get_thread _ _ t); [done|]. wp_pure. apply wp_bind, (wp_lift _ (<[Z.to_nat i := f t]> (thread_info_list s))); [|by apply wp_modify].
  apply arr_set_in. by apply (arr_get_range _ _ _ E).
Qed.
Lemma info_insert i s t u : info i s = Some t -> info i (set_infos (<[Z.to_nat i := u]> (thread_info_list s)) s) = Some u.
Proof. unfold info. intros E. pose proof (arr_get_range _ _ _ E) as Hr. rewrite arr_get_lookup by lia. simpl. apply list_lookup_insert_eq. lia. Qed.

Definition freed t : Prop := t_allocated t = false ∧ t_state t = PTHREAD_STATE_DETACHED ∧ mem_id t = -1.

Lemma invalidate_spec i s t : tinv s -> info i s = Some t -> wp (invalidate_thread_info i) s (λ _ s',
  (exists t', info i s' = Some t' ∧ freed t') ∧ (mem_id t ≠ -1 -> thread_stack_memid s' !! Z.to_nat (mem_id t) = Some 0) ∧
  ptable (tkern s') = ptable (tkern s)).
Proof.
  intros H Et. unfold invalidate_thread_info. apply wp_bind, (wp_upd_thread _ _ _ t); [done|]. apply wp_bind, wp_zoom. unfold joinq_alloc. wp_pure. apply wp_bind, wp_zoom.
  eapply (wp_on_q _ _ _ _ (λ _ _, True)); [simpl; by apply lookup_insert_eq|unfold qinit; by wp_pure|]. intros [] q _. apply wp_bind.
  eapply wp_get_thread; [by apply (info_insert i s t)|]. simpl. set (t1 := MkThread _ _ _ _ _ _ _ _ _ _). set (s1 := set_tkern _ _).
  assert (info i s1 = Some t1) as E1 by (by apply (info_insert i s t)).
  apply wp_bind, (wp_mono _ _ (λ _ s2, (exists t2, info i s2 = Some t2 ∧ freed t2) ∧ (mem_id t ≠ -1 -> thread_stack_memid s2 !! Z.to_nat (mem_id t) = Some 0) ∧ tkern s2 = tkern s1)).
  - case_bool_decide as Hm; [|apply wp_ret; split_and!; [by exists t1|done|done]].
    pose proof (arr_get_range _ _ _ Et) as Hr. unfold info in Et. rewrite arr_get_lookup in Et by lia. destruct (so_own _ _ (ti_stacks _ H) _ _ Et Hm) as [Hp Hi]. pose proof (lookup_lt_Some _ _ _ Hi) as Hlt.
    apply wp_bind. unfold free_bss_mem, set_memid. wp_pure. apply wp_bind, (wp_lift _ (<[Z.to_nat (mem_id t) := 0]> (thread_stack_memid s))); [simpl; apply arr_set_in; lia|].
    apply wp_modify. eapply wp_upd_thread; [exact E1|]. split_and!; [|intros _; simpl; by apply list_lookup_insert_eq|done].
    eexists. split; [exact (info_insert i s1 t1 _ E1)|done].
  - intros [] s2 ((t2 & E2 & Hf) & Hm & Hk). apply wp_bind, wp_gets. eapply wp_upd_thread; [exact E2|]. split_and!; [|done|simpl; by rewrite Hk].
    eexists. split; [exact (info_insert i s2 t2 _ E2)|done].
Qed.

(** What a join of [i] gives: the value, and everything is free again. *)
Definition joined (t : pthread_info) (i : Z) (v : option Z) (p : Z) (r : outcome * option Z) s : Prop :=
  r = (Done 0, v) ∧ (exists t', info i s = Some t' ∧ freed t') ∧ (mem_id t ≠ -1 -> thread_stack_memid s !! Z.to_nat (mem_id t) = Some 0) ∧
  exists x, arr_get (ptable (tkern s)) p = Some x ∧ is_allocated x = false.

Lemma join_end_spec i ret s t p x : tinv s -> info i s = Some t -> t_state t ≠ PTHREAD_STATE_DETACHED -> parent t = Some p -> arr_get (ptable (tkern s)) p = Some x ->
  wp (join_end i ret) s (joined t i ((λ _, retval t) <$> ret) p).
Proof.
  intros H Et Hs Hp Hx. unfold join_end. apply wp_bind, (wp_get_thread _ _ t); [done|]. rewrite bool_decide_eq_true_2 by done.
  apply wp_bind, (wp_lift _ p); [done|]. apply wp_bind, wp_zoom. unfold process_invalidate. eapply wp_bind, wp_upd_proc; [exact Hx|]. wp_pure. apply wp_bind.
  eapply wp_mono; [apply (invalidate_spec i _ t); [by apply tinv_kern|done]|]. intros [] s' (Ht & Hm & Hk). apply wp_ret. split_and!; [done..|]. eexists. split; [rewrite Hk; simpl; by apply (put_proc_eq p _ x)|done].
Qed.

(** A waiting join that goes on takes the thread that the entry has then. *)
Lemma tresume_spec i (want : bool) s t p : tinv s -> cur_ctx (tkern s) = Some (FJoin i) -> jctx s !! current_pid (tkern s) = Some want ->
  info i s = Some t -> t_state t ≠ PTHREAD_STATE_DETACHED -> parent t = Some p -> is_Some (arr_get (ptable (tkern s)) p) ->
  wp tresume s (joined t i (if want then Some (retval t) else None) p).
Proof.
  intros H Hc Hj Et Hs Hp [x Hx]. unfold cur_ctx in Hc. destruct (arr_get (ptable (tkern s)) (current_pid (tkern s))) as [y|] eqn:Ey; [|done]. simpl in Hc.
  unfold tresume. apply wp_bind, wp_zoom, wp_gets. apply wp_bind, wp_zoom. eapply wp_get_proc; [exact Ey|]. apply wp_bind, (wp_lift _ (FJoin i)); [done|].
  apply wp_bind, wp_zoom. eapply wp_upd_proc; [exact Ey|]. set (s1 := set_tkern _ _). apply wp_bind, wp_gets. apply wp_bind, (wp_lift _ want); [done|].
  assert (tinv s1) as H1 by (by repeat apply tinv_kern). unfold join_resume. apply wp_bind, (wp_get_thread _ _ t); [done|].
  replace (if want then Some (retval t) else None) with ((λ _, retval t) <$> (if want then Some (retval t) else None)) at 2 by (by destruct want).
  assert (exists x', arr_get (ptable (tkern s1)) p = Some x') as [x' Hx'].
  { destruct (decide (p = current_pid (tkern s))) as [->|Hne]; [eexists; by eapply put_proc_eq|exists x; by rewrite <- Hx; eapply put_proc_ne]. }
  by eapply join_end_spec.
Qed.
End join.

(** C21: A joinable thread that ends with a value keeps it for the thread that joins it. Its end makes a thread
    that waits for it in [sys_pthread_join] run at once or ready in its ready queue; and after any
    steps of others that neither join nor detach nor kill it, both a join that is called then and the
    waiting one when it runs return the value, and the entry, the stack and the process of the thread are
    free afterwards. (The waiting thread is in the thread's queue and its ready queue has a free place.) *)
Theorem join_returns_value {KC : KConfig} {TC : ThreadConfig} ps ts s0 es0 (s : tst) v r s1 es s2 i t p :
  0 <= MAX_PTHREADS <= 127 -> tstarts ps ts s0 -> tsteps s0 es0 s ->
  thread_of s !! current_pid (tkern s) = Some i -> info i s = Some t -> t_allocated t = true ->
  detachstate (thread_attr t) ≠ PTHREAD_CREATE_DETACHED -> parent t = Some p ->
  tenabled (TExit v) s -> tstep (TExit v) s = Some (r, s1) -> spared i s1 es s2 ->
  is_Some (arr_get (ptable (tkern s2)) p) ->
  (forall w, join_thread t ≠ None -> waits_join w i (tkern s) -> awake w i (tkern s1) ∧ jctx s1 = jctx s) ∧
  exists t2, info i s2 = Some t2 ∧
    (forall want : bool, cur_ctx (tkern s2) = Some (FJoin i) -> jctx s2 !! current_pid (tkern s2) = Some want ->
      wp tresume s2 (joined t2 i (if want then Some v else None) p)) ∧
    (forall j, current_pid (tkern s2) ≠ -1 -> thread_of s2 !! current_pid (tkern s2) = Some j -> is_Some (info j s2) -> wp (sys_pthread_join i true) s2 (joined t2 i (Some v) p)).
Proof.
  intros Hmax H0 Hs0 Hc Ei Ha Hd Hp Hen E Hsp Hx. split; [intros w Hj Hw; by eapply (exit_wakes v s r s1 i t w)|].
  assert (tinv s2) as H2.
  { eapply (tsteps_tinv Hmax); [|by eapply (tstarts_tinv Hmax)]. eapply tsteps_app; [exact Hs0|]. econstructor; [exact Hen|exact E|by eapply spared_steps]. }
  pose proof (spared_ended i v p s1 es s2 Hsp (exit_ended v s r s1 i t p E Hc Ei Ha Hd Hp)) as (t2 & Et2 & _ & Hst & <- & Hp2).
  assert (t_state t2 ≠ PTHREAD_STATE_DETACHED) as Hnd by (by rewrite Hst).
  exists t2. split; [done|]. split.
  - intros want Hcc Hjj. by apply tresume_spec.
  - intros j Hcur Hj [tj Ej]. destruct Hx as [x Hx]. unfold sys_pthread_join, sys_pthread_self. apply wp_bind, wp_bind, wp_zoom, wp_gets. rewrite bool_decide_eq_false_2 by done. apply wp_bind, wp_gets.
    apply wp_bind, (wp_lift _ j); [done|]. apply wp_bind, (wp_get_thread _ _ tj); [done|]. apply wp_ret.
    pose proof (arr_get_range _ _ _ Et2) as Hr. rewrite (so_len _ _ (ti_stacks _ H2)) in Hr. unfold pthread_get_info. rewrite s32_small by lia. rewrite bool_decide_eq_true_2 by lia.
    apply wp_bind, (wp_get_thread _ _ t2); [done|]. rewrite Hst, bool_decide_eq_false_2, bool_decide_eq_false_2 by done. rewrite set_tkern_id. by eapply (join_end_spec i (Some 0) s2 t2 p x).
Qed.

(** The first thread makes the second and waits for it; the second runs and ends. *)
Definition join_events : list tevent := [TKern ETick; TCreate true (Some joinable_attr) 300 0; TJoin 1 true].
Definition join_demo (es : list tevent) : tst := (demo_trun false [(0, 100)] es).2.

Lemma demo_waits : @waits_join (demo_conf false) 1 1 (tkern (join_demo join_events)).
Proof.
  split; [lia|]. split; [vm_compute; congruence|]. eexists _, _, _, []. split; [vm_compute; reflexivity|]. split_and!; [done|done|vm_compute; reflexivity| |vm_compute; reflexivity| |vm_compute; congruence].
  - change (@sched_is_prio (demo_conf false)) with false. cbn iota. constructor; [done..|simpl; lia|reflexivity|]. intros [|[|i]] y [= <-]; reflexivity.
  - constructor; [vm_compute; split; congruence|reflexivity|split; [reflexivity|vm_compute; congruence]|vm_compute; split; congruence|reflexivity|]. by intros i y.
Qed.

Lemma join_returns_value_witness :
  @awake (demo_conf false) 1 1 (tkern (join_demo (join_events ++ [TExit 42]))) ∧
  exists t2, @info 1 (join_demo (join_events ++ [TExit 42])) = Some t2 ∧ mem_id t2 = 1 ∧
    wp tresume (join_demo (join_events ++ [TExit 42])) (joined t2 1 (Some 42) 2).
Proof.
  destruct (@join_returns_value (demo_conf false) demo_threads [] [(0, 100)] (demo_tstart false [(0, 100)]) join_events (join_demo join_events) 42
    (Blocked, None) (join_demo (join_events ++ [TExit 42])) [] (join_demo (join_events ++ [TExit 42])) 1
    (MkThread true (Some 2) 1 0 300 0 PTHREAD_STATE_ALIVE (Some 0) 1 joinable_attr) 2) as (Hw & t2 & Et & Hj & _).
  - simpl. lia.
  - exists (demo_start false []), (demo_tinit false), 0. split_and!; vm_compute; reflexivity.
  - apply (texec_steps _ _ (demo_trun false [(0, 100)] join_events).1). vm_compute. reflexivity.
  - vm_compute. reflexivity.
  - vm_compute. reflexivity.
  - reflexivity.
  - done.
  - reflexivity.
  - split; vm_compute; congruence.
  - vm_compute. reflexivity.
  - constructor.
  - eexists. vm_compute. reflexivity.
  - split; [exact (proj1 (Hw 1 ltac:(done) demo_waits))|]. exists t2. split; [exact Et|]. split; [by vm_compute in Et; injection Et as <-|].
    apply (Hj true); vm_compute; reflexivity.
Defined.

(** ** What joining and detaching do wrong *)

(** C37: A join that has waited takes the thread that is in the entry when it goes on, whatever that is: in every state that
    the system reaches, if the entry then belongs to a thread that is alive, which nobody joins, the join returns 0 with the
    value that the entry has, and frees the entry, the stack and the process of that thread. (The entry has
    another owner when the thread that ended was detached, as threads are by default, and a new one was made before the
    waiting process ran.) *)
Theorem join_destroys_thread {KC : KConfig} {TC : ThreadConfig} ps ts s0 es (s : tst) i (want : bool) t p :
  0 <= MAX_PTHREADS <= 127 -> tstarts ps ts s0 -> tsteps s0 es s ->
  cur_ctx (tkern s) = Some (FJoin i) -> jctx s !! current_pid (tkern s) = Some want ->
  info i s = Some t -> t_state t = PTHREAD_STATE_ALIVE -> parent t = Some p -> is_Some (arr_get (ptable (tkern s)) p) ->
  wp tresume s (λ r s', r = (Done 0, if want then Some (retval t) else None) ∧ (exists t', info i s' = Some t' ∧ freed t') ∧
    (mem_id t ≠ -1 -> thread_stack_memid s' !! Z.to_nat (mem_id t) = Some 0) ∧
    exists x, arr_get (ptable (tkern s')) p = Some x ∧ is_allocated x = false).
Proof.
  intros Hmax H0 Hs Hc Hj Et Hst Hp Hx. apply tresume_spec; [|done..|by rewrite Hst|done|done].
  eapply (tsteps_tinv Hmax); [exact Hs|by eapply (tstarts_tinv Hmax)].
Qed.

(** The first of three threads, which are detached, waits for the second; the second ends with 42 and its entry is free; the third makes a new thread,
    which gets the entry and the process of the second. When the first goes on, the new thread, which has not run yet, is gone. *)
Definition destroy_events : list tevent := [TKern ETick; TJoin 1 true; TExit 42; TCreate true None 400 0; TKern ETick; TKern ETick].
Lemma join_destroys_thread_witness :
  let s := (demo_trun false [(0, 100); (0, 200); (0, 300)] destroy_events).2 in
  info 1 s = Some (MkThread true (Some 2) 1 0 400 0 PTHREAD_STATE_ALIVE None 1 (MkAttr 0 1 0 0 0)) ∧
  is_allocated <$> arr_get (ptable (tkern s)) 2 = Some true ∧
  wp tresume s (λ r s', r = (Done 0, Some 0) ∧ (exists t', info 1 s' = Some t' ∧ freed t') ∧
    (1 ≠ -1 -> thread_stack_memid s' !! 1%nat = Some 0) ∧ exists x, arr_get (ptable (tkern s')) 2 = Some x ∧ is_allocated x = false).
Proof.
  intros s. split; [vm_compute; reflexivity|]. split; [vm_compute; reflexivity|].
  apply (@join_destroys_thread (demo_conf false) demo_threads [] [(0, 100); (0, 200); (0, 300)] (demo_tstart false [(0, 100); (0, 200); (0, 300)]) destroy_events s 1 true
    (MkThread true (Some 2) 1 0 400 0 PTHREAD_STATE_ALIVE None 1 (MkAttr 0 1 0 0 0)) 2); [simpl; lia| | |vm_compute; reflexivity|vm_compute; reflexivity|vm_compute; reflexivity|reflexivity|reflexivity|eexists; vm_compute; reflexivity].
  - exists (demo_start false []), (demo_tinit false), 0. split_and!; vm_compute; reflexivity.
  - apply (texec_steps _ _ (demo_trun false [(0, 100); (0, 200); (0, 300)] destroy_events).1). vm_compute. reflexivity.
Defined.

(** The detach of a thread that runs. *)
Lemma detach_alive {KC : KConfig} {TC : ThreadConfig} s r s' i t : tstep (TDetach i) s = Some (r, s') -> pthread_get_info i = Some i -> info i s = Some t -> t_state t ≠ PTHREAD_STATE_EXIT ->
  r = (Done 0, None) ∧ info i s' = Some (set_thread_attr (set_detachstate PTHREAD_STATE_DETACHED (thread_attr t)) t).
Proof.
  intros E Hi Ei Hs. cbn [tstep] in E. apply bind_inv in E as (r1 & s1 & E & (? & s2 & (k & _ & ->)%tk_inv & [-> ->]%ret_inv)%bind_inv).
  apply bind_inv in E as (a & s2 & E & [-> ->]%ret_inv). unfold sys_pthread_detach in E. rewrite Hi in E.
  apply bind_inv in E as (t1 & s1 & [Et ->]%get_thread_inv & E). unfold info in Ei. rewrite Et in Ei. injection Ei as ->. rewrite bool_decide_eq_false_2 in E by done.
  apply bind_inv in E as (? & s1 & (t' & _ & Et' & ->)%upd_thread_inv & [-> ->]%ret_inv). split; [done|]. rewrite <- (arr_get_nat (thread_info_list s)), Z2Nat.id in Et' by (by apply (arr_get_range _ _ _ Et)).
  rewrite Et in Et'. injection Et' as <-. by apply (info_insert i s t).
Qed.

(** C40: Detaching a joinable thread that runs does not make it a detached one: the constant it stores is that of
    a thread's state and not the one that [sys_pthread_exit] compares with, so that when the thread ends, whatever others do in
    between, its entry stays allocated in the state of a thread that waits to be joined. *)
Theorem detach_keeps_thread {KC : KConfig} {TC : ThreadConfig} s r s1 es s2 r2 s3 i t p v : PTHREAD_CREATE_DETACHED ≠ PTHREAD_STATE_DETACHED ->
  0 <= MAX_PTHREADS <= 127 -> pthread_get_info i = Some i -> info i s = Some t -> t_allocated t = true -> t_state t = PTHREAD_STATE_ALIVE -> parent t = Some p ->
  tstep (TDetach i) s = Some (r, s1) -> spared i s1 es s2 -> thread_of s2 !! current_pid (tkern s2) = Some i -> tstep (TExit v) s2 = Some (r2, s3) ->
  r = (Done 0, None) ∧ ended i v p s3.
Proof.
  intros Hc Hmax Hi Ei Ha Hst Hp E1 Hs Ht E2. destruct (detach_alive s r s1 i t E1 Hi Ei) as [-> E1']; [by rewrite Hst|]. split; [done|].
  pose proof (spared_info i s1 es s2 _ Hs E1' Ha) as E3. by eapply (exit_ended v s2 r2 s3 i).
Qed.

Lemma detach_keeps_thread_witness : ended 1 42 2 (join_demo [TKern ETick; TCreate true (Some joinable_attr) 300 0; TDetach 1; TKern ETick; TExit 42]).
Proof.
  apply (@detach_keeps_thread (demo_conf false) demo_threads (join_demo [TKern ETick; TCreate true (Some joinable_attr) 300 0]) (Done 0, None)
    (join_demo [TKern ETick; TCreate true (Some joinable_attr) 300 0; TDetach 1]) [TKern ETick] (join_demo [TKern ETick; TCreate true (Some joinable_attr) 300 0; TDetach 1; TKern ETick])
    (Blocked, None) _ 1 (MkThread true (Some 2) 1 0 300 0 PTHREAD_STATE_ALIVE None 1 joinable_attr) 2 42);
    [done|simpl; lia|vm_compute; reflexivity|vm_compute; reflexivity|reflexivity|reflexivity|reflexivity|vm_compute; reflexivity| |vm_compute; reflexivity|vm_compute; reflexivity].
  eapply (spared_cons _ _ _ (Done 0, None)); [by vm_compute|done|vm_compute; reflexivity|constructor].
Defined.
