(* ===== verification/Xspi.v ===== *)
(** * The SPI controller driver (drivers/spi_v2_00_a/src/xspi.c, xspi_options.c, xspi_sinit.c, xspi_stats.c)

    The driver that the card and display drivers call. It accesses the
    registers of the controller over the bus ([SpiBus]) and the caller's buffers
    in memory, so the send and receive buffers may be the same. A violated
    [XASSERT] has no result. The status values are the names of xstatus.h. *)

From S2P Require Import Prelude.
Open Scope Z_scope.

(** ** Registers (xspi_l.h) *)

Definition XSP_DGIER_OFFSET : Z := 0x1C.
Definition XSP_IISR_OFFSET : Z := 0x20.
Definition XSP_IIER_OFFSET : Z := 0x28.
Definition XSP_SRR_OFFSET : Z := 0x40.
Definition XSP_CR_OFFSET : Z := 0x60 + 0x2.
Definition XSP_SR_OFFSET : Z := 0x64 + 3.
Definition XSP_DTR_OFFSET : Z := 0x68 + 3.
Definition XSP_DRR_OFFSET : Z := 0x6C + 3.
Definition XSP_SSR_OFFSET : Z := 0x70.

Definition XSP_GINTR_ENABLE_MASK : Z := 0x80000000.
Definition XSP_INTR_MODE_FAULT_MASK : Z := 0x1.
Definition XSP_INTR_SLAVE_MODE_FAULT_MASK : Z := 0x2.
Definition XSP_INTR_TX_EMPTY_MASK : Z := 0x4.
Definition XSP_INTR_TX_UNDERRUN_MASK : Z := 0x8.
Definition XSP_INTR_RX_OVERRUN_MASK : Z := 0x20.
Definition XSP_INTR_ALL : Z := 0x7F.
Definition XSP_INTR_DFT_MASK : Z := 0x2B.
Definition XSP_SRR_RESET_MASK : Z := 0xA.

Definition XSP_CR_LOOPBACK_MASK : Z := 0x1.
Definition XSP_CR_ENABLE_MASK : Z := 0x2.
Definition XSP_CR_MASTER_MODE_MASK : Z := 0x4.
Definition XSP_CR_CLK_POLARITY_MASK : Z := 0x8.
Definition XSP_CR_CLK_PHASE_MASK : Z := 0x10.
Definition XSP_CR_TXFIFO_RESET_MASK : Z := 0x20.
Definition XSP_CR_RXFIFO_RESET_MASK : Z := 0x40.
Definition XSP_CR_MANUAL_SS_MASK : Z := 0x80.
Definition XSP_CR_TRANS_INHIBIT_MASK : Z := 0x100.

Definition XSP_SR_RX_EMPTY_MASK : Z := 0x1.
Definition XSP_SR_RX_FULL_MASK : Z := 0x2.
Definition XSP_SR_TX_EMPTY_MASK : Z := 0x4.
Definition XSP_SR_TX_FULL_MASK : Z := 0x8.

Definition XSP_DATAWIDTH_BYTE : Z := 8.
Definition XSP_DATAWIDTH_HALF_WORD : Z := 16.
Definition XSP_DATAWIDTH_WORD : Z := 32.

(** Options (xspi.h). *)
Definition XSP_MASTER_OPTION : Z := 0x1.
Definition XSP_CLK_ACTIVE_LOW_OPTION : Z := 0x2.
Definition XSP_CLK_PHASE_1_OPTION : Z := 0x4.
Definition XSP_LOOPBACK_OPTION : Z := 0x8.
Definition XSP_MANUAL_SSELECT_OPTION : Z := 0x10.

(** ** Data (xspi.h) *)

Inductive xstatus :=
  | XST_SUCCESS | XST_DEVICE_NOT_FOUND | XST_DEVICE_IS_STARTED | XST_DEVICE_IS_STOPPED | XST_DEVICE_BUSY
  | XST_SPI_NO_SLAVE | XST_SPI_TOO_MANY_SLAVES | XST_SPI_SLAVE_ONLY
  | XST_SPI_MODE_FAULT | XST_SPI_TRANSFER_DONE | XST_SPI_TRANSMIT_UNDERRUN | XST_SPI_RECEIVE_OVERRUN | XST_SPI_SLAVE_MODE_FAULT.

(** The status callback: the stub or a function of the user. *)
Inductive handler := StubStatusHandler | UserHandler (f : Z).

Record XSpi_Stats := MkStats {
  ModeFaults : Z;
  XmitUnderruns : Z;
  RecvOverruns : Z;
  SlaveModeFaults : Z;
  BytesTransferred : Z;
  NumInterrupts : Z;
}.

Definition set_ModeFaults (x : Z) (s : XSpi_Stats) : XSpi_Stats := MkStats x (XmitUnderruns s)
    (RecvOverruns s) (SlaveModeFaults s) (BytesTransferred s) (NumInterrupts s).
Definition set_XmitUnderruns (x : Z) (s : XSpi_Stats) : XSpi_Stats := MkStats (ModeFaults s) x
    (RecvOverruns s) (SlaveModeFaults s) (BytesTransferred s) (NumInterrupts s).
Definition set_RecvOverruns (x : Z) (s : XSpi_Stats) : XSpi_Stats := MkStats (ModeFaults s)
    (XmitUnderruns s) x (SlaveModeFaults s) (BytesTransferred s) (NumInterrupts s).
Definition set_SlaveModeFaults (x : Z) (s : XSpi_Stats) : XSpi_Stats := MkStats (ModeFaults s)
    (XmitUnderruns s) (RecvOverruns s) x (BytesTransferred s) (NumInterrupts s).
Definition set_BytesTransferred (x : Z) (s : XSpi_Stats) : XSpi_Stats := MkStats (ModeFaults s)
    (XmitUnderruns s) (RecvOverruns s) (SlaveModeFaults s) x (NumInterrupts s).
Definition set_NumInterrupts (x : Z) (s : XSpi_Stats) : XSpi_Stats := MkStats (ModeFaults s)
    (XmitUnderruns s) (RecvOverruns s) (SlaveModeFaults s) (BytesTransferred s) x.

Record XSpi_Config := MkConfig {
  DeviceId : Z;
  BaseAddress : Z;
  cfg_HasFifos : bool;
  cfg_SlaveOnly : bool;
  cfg_NumSlaveBits : Z;
  cfg_DataWidth : Z;
}.

Record XSpi := MkXSpi {
  Stats : XSpi_Stats;
  BaseAddr : Z;
  IsReady : bool;
  IsStarted : bool;
  HasFifos : bool;
  SlaveOnly : bool;
  NumSlaveBits : Z;
  DataWidth : Z;
  SlaveSelectMask : Z;
  SlaveSelectReg : Z;
  SendBufferPtr : Z;
  RecvBufferPtr : Z;
  RequestedBytes : Z;
  RemainingBytes : Z;
  IsBusy : bool;
  StatusHandler : handler;
  StatusRef : Z;
}.

Definition set_Stats (x : XSpi_Stats) (s : XSpi) : XSpi := MkXSpi x (BaseAddr s) (IsReady s)
    (IsStarted s) (HasFifos s) (SlaveOnly s) (NumSlaveBits s) (DataWidth s) (SlaveSelectMask s)
    (SlaveSelectReg s) (SendBufferPtr s) (RecvBufferPtr s) (RequestedBytes s) (RemainingBytes s)
    (IsBusy s) (StatusHandler s) (StatusRef s).
Definition set_BaseAddr (x : Z) (s : XSpi) : XSpi := MkXSpi (Stats s) x (IsReady s) (IsStarted s)
    (HasFifos s) (SlaveOnly s) (NumSlaveBits s) (DataWidth s) (SlaveSelectMask s) (SlaveSelectReg s)
    (SendBufferPtr s) (RecvBufferPtr s) (RequestedBytes s) (RemainingBytes s) (IsBusy s)
    (StatusHandler s) (StatusRef s).
Definition set_IsReady (x : bool) (s : XSpi) : XSpi := MkXSpi (Stats s) (BaseAddr s) x (IsStarted s)
    (HasFifos s) (SlaveOnly s) (NumSlaveBits s) (DataWidth s) (SlaveSelectMask s) (SlaveSelectReg s)
    (SendBufferPtr s) (RecvBufferPtr s) (RequestedBytes s) (RemainingBytes s) (IsBusy s)
    (StatusHandler s) (StatusRef s).
Definition set_IsStarted (x : bool) (s : XSpi) : XSpi := MkXSpi (Stats s) (BaseAddr s) (IsReady s) x
    (HasFifos s) (SlaveOnly s) (NumSlaveBits s) (DataWidth s) (SlaveSelectMask s) (SlaveSelectReg s)
    (SendBufferPtr s) (RecvBufferPtr s) (RequestedBytes s) (RemainingBytes s) (IsBusy s)
    (StatusHandler s) (StatusRef s).
Definition set_HasFifos (x : bool) (s : XSpi) : XSpi := MkXSpi (Stats s) (BaseAddr s) (IsReady s)
    (IsStarted s) x (SlaveOnly s) (NumSlaveBits s) (DataWidth s) (SlaveSelectMask s) (SlaveSelectReg
    s) (SendBufferPtr s) (RecvBufferPtr s) (RequestedBytes s) (RemainingBytes s) (IsBusy s)
    (StatusHandler s) (StatusRef s).
Definition set_SlaveOnly (x : bool) (s : XSpi) : XSpi := MkXSpi (Stats s) (BaseAddr s) (IsReady s)
    (IsStarted s) (HasFifos s) x (NumSlaveBits s) (DataWidth s) (SlaveSelectMask s) (SlaveSelectReg
    s) (SendBufferPtr s) (RecvBufferPtr s) (RequestedBytes s) (RemainingBytes s) (IsBusy s)
    (StatusHandler s) (StatusRef s).
Definition set_NumSlaveBits (x : Z) (s : XSpi) : XSpi := MkXSpi (Stats s) (BaseAddr s) (IsReady s)
    (IsStarted s) (HasFifos s) (SlaveOnly s) x (DataWidth s) (SlaveSelectMask s) (SlaveSelectReg s)
    (SendBufferPtr s) (RecvBufferPtr s) (RequestedBytes s) (RemainingBytes s) (IsBusy s)
    (StatusHandler s) (StatusRef s).
Definition set_DataWidth (x : Z) (s : XSpi) : XSpi := MkXSpi (Stats s) (BaseAddr s) (IsReady s)
    (IsStarted s) (HasFifos s) (SlaveOnly s) (NumSlaveBits s) x (SlaveSelectMask s) (SlaveSelectReg
    s) (SendBufferPtr s) (RecvBufferPtr s) (RequestedBytes s) (RemainingBytes s) (IsBusy s)
    (StatusHandler s) (StatusRef s).
Definition set_SlaveSelectMask (x : Z) (s : XSpi) : XSpi := MkXSpi (Stats s) (BaseAddr s) (IsReady
    s) (IsStarted s) (HasFifos s) (SlaveOnly s) (NumSlaveBits s) (DataWidth s) x (SlaveSelectReg s)
    (SendBufferPtr s) (RecvBufferPtr s) (RequestedBytes s) (RemainingBytes s) (IsBusy s)
    (StatusHandler s) (StatusRef s).
Definition set_SlaveSelectReg (x : Z) (s : XSpi) : XSpi := MkXSpi (Stats s) (BaseAddr s) (IsReady s)
    (IsStarted s) (HasFifos s) (SlaveOnly s) (NumSlaveBits s) (DataWidth s) (SlaveSelectMask s) x
    (SendBufferPtr s) (RecvBufferPtr s) (RequestedBytes s) (RemainingBytes s) (IsBusy s)
    (StatusHandler s) (StatusRef s).
Definition set_SendBufferPtr (x : Z) (s : XSpi) : XSpi := MkXSpi (Stats s) (BaseAddr s) (IsReady s)
    (IsStarted s) (HasFifos s) (SlaveOnly s) (NumSlaveBits s) (DataWidth s) (SlaveSelectMask s)
    (SlaveSelectReg s) x (RecvBufferPtr s) (RequestedBytes s) (RemainingBytes s) (IsBusy s)
    (StatusHandler s) (StatusRef s).
Definition set_RecvBufferPtr (x : Z) (s : XSpi) : XSpi := MkXSpi (Stats s) (BaseAddr s) (IsReady s)
    (IsStarted s) (HasFifos s) (SlaveOnly s) (NumSlaveBits s) (DataWidth s) (SlaveSelectMask s)
    (SlaveSelectReg s) (SendBufferPtr s) x (RequestedBytes s) (RemainingBytes s) (IsBusy s)
    (StatusHandler s) (StatusRef s).
Definition set_RequestedBytes (x : Z) (s : XSpi) : XSpi := MkXSpi (Stats s) (BaseAddr s) (IsReady s)
    (IsStarted s) (HasFifos s) (SlaveOnly s) (NumSlaveBits s) (DataWidth s) (SlaveSelectMask s)
    (SlaveSelectReg s) (SendBufferPtr s) (RecvBufferPtr s) x (RemainingBytes s) (IsBusy s)
    (StatusHandler s) (StatusRef s).
Definition set_RemainingBytes (x : Z) (s : XSpi) : XSpi := MkXSpi (Stats s) (BaseAddr s) (IsReady s)
    (IsStarted s) (HasFifos s) (SlaveOnly s) (NumSlaveBits s) (DataWidth s) (SlaveSelectMask s)
    (SlaveSelectReg s) (SendBufferPtr s) (RecvBufferPtr s) (RequestedBytes s) x (IsBusy s)
    (StatusHandler s) (StatusRef s).
Definition set_IsBusy (x : bool) (s : XSpi) : XSpi := MkXSpi (Stats s) (BaseAddr s) (IsReady s)
    (IsStarted s) (HasFifos s) (SlaveOnly s) (NumSlaveBits s) (DataWidth s) (SlaveSelectMask s)
    (SlaveSelectReg s) (SendBufferPtr s) (RecvBufferPtr s) (RequestedBytes s) (RemainingBytes s) x
    (StatusHandler s) (StatusRef s).
Definition set_StatusHandler (x : handler) (s : XSpi) : XSpi := MkXSpi (Stats s) (BaseAddr s)
    (IsReady s) (IsStarted s) (HasFifos s) (SlaveOnly s) (NumSlaveBits s) (DataWidth s)
    (SlaveSelectMask s) (SlaveSelectReg s) (SendBufferPtr s) (RecvBufferPtr s) (RequestedBytes s)
    (RemainingBytes s) (IsBusy s) x (StatusRef s).
Definition set_StatusRef (x : Z) (s : XSpi) : XSpi := MkXSpi (Stats s) (BaseAddr s) (IsReady s)
    (IsStarted s) (HasFifos s) (SlaveOnly s) (NumSlaveBits s) (DataWidth s) (SlaveSelectMask s)
    (SlaveSelectReg s) (SendBufferPtr s) (RecvBufferPtr s) (RequestedBytes s) (RemainingBytes s)
    (IsBusy s) (StatusHandler s) x.

(** The bus: what a load from or a store to a device register does. *)
Class SpiBus (D : Type) := {
  bus_in8 : Z -> D -> Z * D;
  bus_in16 : Z -> D -> Z * D;
  bus_in32 : Z -> D -> Z * D;
  bus_out8 : Z -> Z -> D -> D;
  bus_out16 : Z -> Z -> D -> D;
  bus_out32 : Z -> Z -> D -> D;
}.

(** A call of the status callback: the function, its reference, the event and
    the number of bytes. *)
Definition call : Type := handler * Z * xstatus * Z.

Section xspi.
Context {D : Type} `{SpiBus D}.

(** The instance, the devices, the memory and the callbacks so far. *)
Record xst := MkXst { inst : XSpi; dev : D; xmem : Z -> Z; calls : list call }.

Definition set_inst (x : XSpi) (s : xst) : xst := MkXst x (dev s) (xmem s) (calls s).
Definition set_dev (x : D) (s : xst) : xst := MkXst (inst s) x (xmem s) (calls s).
Definition set_xmem (x : Z -> Z) (s : xst) : xst := MkXst (inst s) (dev s) x (calls s).
Definition set_calls (x : list call) (s : xst) : xst := MkXst (inst s) (dev s) (xmem s) x.

Definition fld {A} (f : XSpi -> A) : ST xst A := gets (λ s, f (inst s)).
Definition upd (f : XSpi -> XSpi) : ST xst unit := modify (λ s, set_inst (f (inst s)) s).
Definition upd_stats (f : XSpi_Stats -> XSpi_Stats) : ST xst unit := upd (λ i, set_Stats (f (Stats i)) i).

(** [XASSERT_VOID] and [XASSERT_NONVOID]. *)
Definition xassert (b : bool) : ST xst unit := if b then skip else undef.

Definition XIo_In8 (a : Z) : ST xst Z := λ s, let '(x, d) := bus_in8 (u32 a) (dev s) in Some (x, set_dev d s).
Definition XIo_In16 (a : Z) : ST xst Z := λ s, let '(x, d) := bus_in16 (u32 a) (dev s) in Some (x, set_dev d s).
Definition XIo_In32 (a : Z) : ST xst Z := λ s, let '(x, d) := bus_in32 (u32 a) (dev s) in Some (x, set_dev d s).
Definition XIo_Out8 (a x : Z) : ST xst unit := modify (λ s, set_dev (bus_out8 (u32 a) x (dev s)) s).
Definition XIo_Out16 (a x : Z) : ST xst unit := modify (λ s, set_dev (bus_out16 (u32 a) x (dev s)) s).
Definition XIo_Out32 (a x : Z) : ST xst unit := modify (λ s, set_dev (bus_out32 (u32 a) x (dev s)) s).

(** Memory, with big-endian half words and words. *)
Definition load8 (p : Z) : ST xst Z := gets (λ s, xmem s p).
Definition load16 (p : Z) : ST xst Z := gets (λ s, xmem s p * 2^8 + xmem s (p + 1)).
Definition load32 (p : Z) : ST xst Z :=
  gets (λ s, xmem s p * 2^24 + xmem s (p + 1) * 2^16 + xmem s (p + 2) * 2^8 + xmem s (p + 3)).
Definition store8 (p x : Z) : ST xst unit :=
  modify (λ s, set_xmem (λ a, if bool_decide (a = p) then x else xmem s a) s).
Definition store16 (p x : Z) : ST xst unit := store8 p (u8 (Z.shiftr x 8));; store8 (p + 1) (u8 x).
Definition store32 (p x : Z) : ST xst unit := store16 p (u16 (Z.shiftr x 16));; store16 (p + 2) (u16 x).

(** ** Register access (xspi.h) *)

Definition reg_in32 (off : Z) : ST xst Z := b ← fld BaseAddr; XIo_In32 (b + off).
Definition reg_out32 (off x : Z) : ST xst unit := b ← fld BaseAddr; XIo_Out32 (b + off) x.

Definition XSpi_mReset : ST xst unit := reg_out32 XSP_SRR_OFFSET XSP_SRR_RESET_MASK.
Definition XSpi_mIntrGlobalEnable : ST xst unit := reg_out32 XSP_DGIER_OFFSET XSP_GINTR_ENABLE_MASK.
Definition XSpi_mIntrGlobalDisable : ST xst unit := reg_out32 XSP_DGIER_OFFSET 0.
Definition XSpi_mIsIntrGlobalEnabled : ST xst bool :=
  x ← reg_in32 XSP_DGIER_OFFSET; mret (bool_decide (x = XSP_GINTR_ENABLE_MASK)).
Definition XSpi_mIntrGetStatus : ST xst Z := reg_in32 XSP_IISR_OFFSET.
Definition XSpi_mIntrClear (mask : Z) : ST xst unit :=
  x ← XSpi_mIntrGetStatus; reg_out32 XSP_IISR_OFFSET (Z.lor x mask).
Definition XSpi_mIntrEnable (mask : Z) : ST xst unit :=
  x ← reg_in32 XSP_IIER_OFFSET; reg_out32 XSP_IIER_OFFSET (Z.lor x (Z.land mask XSP_INTR_ALL)).
Definition XSpi_mIntrDisable (mask : Z) : ST xst unit :=
  x ← reg_in32 XSP_IIER_OFFSET; reg_out32 XSP_IIER_OFFSET (Z.land x (u32 (Z.lnot (Z.land mask XSP_INTR_ALL)))).
Definition XSpi_mSetControlReg (mask : Z) : ST xst unit := b ← fld BaseAddr; XIo_Out16 (b + XSP_CR_OFFSET) mask.
Definition XSpi_mGetControlReg : ST xst Z := b ← fld BaseAddr; XIo_In16 (b + XSP_CR_OFFSET).
Definition XSpi_mGetStatusReg : ST xst Z := b ← fld BaseAddr; XIo_In8 (b + XSP_SR_OFFSET).
Definition XSpi_mSetSlaveSelectReg (mask : Z) : ST xst unit := reg_out32 XSP_SSR_OFFSET mask.
Definition XSpi_mGetSlaveSelectReg : ST xst Z := reg_in32 XSP_SSR_OFFSET.

(** ** Initialization and control (xspi.c) *)

Definition XSpi_Abort : ST xst unit :=
  mask ← fld SlaveSelectMask;
  XSpi_mSetSlaveSelectReg mask;;
  cr ← XSpi_mGetControlReg;
  let cr := Z.lor cr XSP_CR_TRANS_INHIBIT_MASK in
  fifos ← fld HasFifos;
  let cr := if (fifos : bool) then Z.lor cr (Z.lor XSP_CR_TXFIFO_RESET_MASK XSP_CR_RXFIFO_RESET_MASK) else cr in
  XSpi_mSetControlReg cr;;
  upd (set_RemainingBytes 0);;
  upd (set_RequestedBytes 0);;
  upd (set_IsBusy false).

Definition XSpi_Reset : ST xst unit :=
  ready ← fld IsReady;
  xassert ready;;
  XSpi_Abort;;
  upd (set_IsStarted false);;
  mask ← fld SlaveSelectMask;
  upd (set_SlaveSelectReg mask);;
  XSpi_mReset.

(** A shift of [1] beyond bit 30 has no result. *)
Definition XSpi_CfgInitialize (config : XSpi_Config) (EffectiveAddr : Z) : ST xst xstatus :=
  started ← fld IsStarted;
  if (started : bool) then mret XST_DEVICE_IS_STARTED else
  upd (set_IsStarted false);;
  upd (set_IsBusy false);;
  upd (set_StatusHandler StubStatusHandler);;
  upd (set_SendBufferPtr 0);;
  upd (set_RecvBufferPtr 0);;
  upd (set_RequestedBytes 0);;
  upd (set_RemainingBytes 0);;
  upd (set_BaseAddr EffectiveAddr);;
  upd (set_HasFifos (cfg_HasFifos config));;
  upd (set_SlaveOnly (cfg_SlaveOnly config));;
  upd (set_NumSlaveBits (cfg_NumSlaveBits config));;
  upd (set_DataWidth (if bool_decide (cfg_DataWidth config = 0) then XSP_DATAWIDTH_BYTE else cfg_DataWidth config));;
  upd (set_IsReady true);;
  n ← fld NumSlaveBits;
  xassert (bool_decide (0 <= n < 31));;
  upd (set_SlaveSelectMask (Z.shiftl 1 n - 1));;
  mask ← fld SlaveSelectMask;
  upd (set_SlaveSelectReg mask);;
  upd (set_Stats (MkStats 0 0 0 0 0 0));;
  XSpi_Reset;;
  mret XST_SUCCESS.

(** The first entry of the configuration table with the given id (xspi_sinit.c). *)
Fixpoint XSpi_LookupConfig (table : list XSpi_Config) (id : Z) : option XSpi_Config :=
  match table with
  | [] => None
  | c :: table => if bool_decide (DeviceId c = id) then Some c else XSpi_LookupConfig table id
  end.

Definition XSpi_Initialize (table : list XSpi_Config) (id : Z) : ST xst xstatus :=
  match XSpi_LookupConfig table id with
  | None => mret XST_DEVICE_NOT_FOUND
  | Some c => XSpi_CfgInitialize c (BaseAddress c)
  end.

Definition XSpi_Start : ST xst xstatus :=
  ready ← fld IsReady;
  xassert ready;;
  started ← fld IsStarted;
  if (started : bool) then mret XST_DEVICE_IS_STARTED else
  XSpi_mIntrEnable XSP_INTR_DFT_MASK;;
  upd (set_IsStarted true);;
  cr ← XSpi_mGetControlReg;
  XSpi_mSetControlReg (Z.lor cr (Z.lor (Z.lor XSP_CR_TXFIFO_RESET_MASK XSP_CR_RXFIFO_RESET_MASK) XSP_CR_ENABLE_MASK));;
  XSpi_mIntrGlobalEnable;;
  mret XST_SUCCESS.

Definition XSpi_Stop : ST xst xstatus :=
  ready ← fld IsReady;
  xassert ready;;
  busy ← fld IsBusy;
  if (busy : bool) then mret XST_DEVICE_BUSY else
  XSpi_mIntrGlobalDisable;;
  cr ← XSpi_mGetControlReg;
  XSpi_mSetControlReg (Z.land cr (u16 (Z.lnot XSP_CR_ENABLE_MASK)));;
  upd (set_IsStarted false);;
  mret XST_SUCCESS.

(** ** Slave select and options *)

(** The number of asserted bits below bit [n]. *)
Fixpoint asserted (n : nat) (mask : Z) : Z :=
  match n with
  | O => 0
  | S n => (if bool_decide (Z.land (Z.shiftr mask (Z.of_nat n)) 1 = 0) then 0 else 1) + asserted n mask
  end.

Definition XSpi_SetSlaveSelect (SlaveMask : Z) : ST xst xstatus :=
  ready ← fld IsReady;
  xassert ready;;
  busy ← fld IsBusy;
  if (busy : bool) then mret XST_DEVICE_BUSY else
  n ← fld NumSlaveBits;
  if bool_decide (1 < asserted (Z.to_nat n) SlaveMask) then mret XST_SPI_TOO_MANY_SLAVES else
  upd (set_SlaveSelectReg (u32 (Z.lnot SlaveMask)));;
  mret XST_SUCCESS.

Definition XSpi_GetSlaveSelect : ST xst Z :=
  ready ← fld IsReady;
  xassert ready;;
  XSpi_mGetSlaveSelectReg;;
  r ← fld SlaveSelectReg;
  mret (u32 (Z.lnot r)).

Definition XSpi_SetStatusHandler (ref : Z) (f : handler) : ST xst unit :=
  ready ← fld IsReady;
  xassert ready;;
  upd (set_StatusHandler f);;
  upd (set_StatusRef ref).

(** The table of options and masks (xspi_options.c). *)
Definition OptionsTable : list (Z * Z) :=
  [(XSP_LOOPBACK_OPTION, XSP_CR_LOOPBACK_MASK); (XSP_CLK_ACTIVE_LOW_OPTION, XSP_CR_CLK_POLARITY_MASK);
   (XSP_CLK_PHASE_1_OPTION, XSP_CR_CLK_PHASE_MASK); (XSP_MASTER_OPTION, XSP_CR_MASTER_MODE_MASK);
   (XSP_MANUAL_SSELECT_OPTION, XSP_CR_MANUAL_SS_MASK)].

Fixpoint set_bits (table : list (Z * Z)) (options cr : Z) : Z :=
  match table with
  | [] => cr
  | (o, m) :: table =>
      set_bits table options (if bool_decide (Z.land options o = 0) then Z.land cr (u16 (Z.lnot m)) else Z.lor cr m)
  end.

Fixpoint get_bits (table : list (Z * Z)) (cr flag : Z) : Z :=
  match table with
  | [] => flag
  | (o, m) :: table => get_bits table cr (if bool_decide (Z.land cr m = 0) then flag else Z.lor flag o)
  end.

Definition XSpi_SetOptions (options : Z) : ST xst xstatus :=
  ready ← fld IsReady;
  xassert ready;;
  busy ← fld IsBusy;
  if (busy : bool) then mret XST_DEVICE_BUSY else
  only ← fld SlaveOnly;
  if negb (bool_decide (Z.land options XSP_MASTER_OPTION = 0)) && only then mret XST_SPI_SLAVE_ONLY else
  cr ← XSpi_mGetControlReg;
  XSpi_mSetControlReg (set_bits OptionsTable options cr);;
  mret XST_SUCCESS.

Definition XSpi_GetOptions : ST xst Z :=
  ready ← fld IsReady;
  xassert ready;;
  cr ← XSpi_mGetControlReg;
  mret (get_bits OptionsTable cr 0).

(** ** Statistics (xspi_stats.c) *)

Definition XSpi_GetStats : ST xst XSpi_Stats :=
  ready ← fld IsReady; xassert ready;; fld Stats.
Definition XSpi_ClearStats : ST xst unit :=
  ready ← fld IsReady; xassert ready;; upd (set_Stats (MkStats 0 0 0 0 0 0)).

(** ** Transfers *)

(** One round of the loops that fill the transmitter, for each data width. *)
Definition send_data : ST xst unit :=
  w ← fld DataWidth;
  b ← fld BaseAddr;
  p ← fld SendBufferPtr;
  r ← fld RemainingBytes;
  if bool_decide (w = XSP_DATAWIDTH_BYTE) then
    x ← load8 p;
    XIo_Out8 (b + XSP_DTR_OFFSET) x;;
    upd (set_SendBufferPtr (p + 1));;
    upd (set_RemainingBytes (u32 (r - 1)))
  else if bool_decide (w = XSP_DATAWIDTH_HALF_WORD) then
    x ← load16 p;
    XIo_Out16 (b + XSP_DTR_OFFSET - 1) x;;
    upd (set_SendBufferPtr (p + 2));;
    upd (set_RemainingBytes (u32 (r - 2)))
  else if bool_decide (w = XSP_DATAWIDTH_WORD) then
    x ← load32 p;
    XIo_Out32 (b + XSP_DTR_OFFSET - 3) x;;
    upd (set_SendBufferPtr (p + 4));;
    upd (set_RemainingBytes (u32 (r - 4)))
  else skip.

Fixpoint fill_loop (fuel : nat) (StatusReg : Z) : ST xst unit :=
  match fuel with
  | O => undef
  | S fuel =>
      r ← fld RemainingBytes;
      if bool_decide (Z.land StatusReg XSP_SR_TX_FULL_MASK = 0) && bool_decide (0 < r) then
        send_data;;
        sr ← XSpi_mGetStatusReg;
        fill_loop fuel sr
      else skip
  end.

(** One round of the loops that empty the receiver: the number of bytes. *)
Definition recv_data : ST xst Z :=
  w ← fld DataWidth;
  b ← fld BaseAddr;
  p ← fld RecvBufferPtr;
  if bool_decide (w = XSP_DATAWIDTH_BYTE) then
    upd_stats (λ t, set_BytesTransferred (u32 (BytesTransferred t + 1)) t);;
    x ← XIo_In8 (b + XSP_DRR_OFFSET);
    (if bool_decide (p = 0) then skip else store8 p x;; upd (set_RecvBufferPtr (p + 1)));;
    mret 1
  else if bool_decide (w = XSP_DATAWIDTH_HALF_WORD) then
    upd_stats (λ t, set_BytesTransferred (u32 (BytesTransferred t + 2)) t);;
    x ← XIo_In16 (b + XSP_DRR_OFFSET - 1);
    (if bool_decide (p = 0) then skip else store16 p x;; upd (set_RecvBufferPtr (p + 2)));;
    mret 2
  else if bool_decide (w = XSP_DATAWIDTH_WORD) then
    upd_stats (λ t, set_BytesTransferred (u32 (BytesTransferred t + 4)) t);;
    x ← XIo_In32 (b + XSP_DRR_OFFSET - 3);
    (if bool_decide (p = 0) then skip else store32 p x;; upd (set_RecvBufferPtr (p + 4)));;
    mret 4
  else mret 0.

(** The result is what remains of the byte count [count]. *)
Fixpoint drain_loop (fuel : nat) (StatusReg count : Z) : ST xst Z :=
  match fuel with
  | O => undef
  | S fuel =>
      if bool_decide (Z.land StatusReg XSP_SR_RX_EMPTY_MASK = 0) then
        n ← recv_data;
        sr ← XSpi_mGetStatusReg;
        drain_loop fuel sr (u32 (count - n))
      else mret count
  end.

(** Waiting for the transmitter to be empty. *)
Fixpoint wait_loop (fuel : nat) : ST xst unit :=
  match fuel with
  | O => undef
  | S fuel =>
      sr ← XSpi_mGetStatusReg;
      if bool_decide (Z.land sr XSP_SR_TX_EMPTY_MASK = 0) then wait_loop fuel else skip
  end.

Definition inhibit : ST xst unit :=
  cr ← XSpi_mGetControlReg;
  XSpi_mSetControlReg (Z.lor cr XSP_CR_TRANS_INHIBIT_MASK).
Definition uninhibit : ST xst unit :=
  cr ← XSpi_mGetControlReg;
  XSpi_mSetControlReg (Z.land cr (u16 (Z.lnot XSP_CR_TRANS_INHIBIT_MASK))).

(** The polling loop; [F] bounds the inner loops. *)
Fixpoint poll_loop (F fuel : nat) (ByteCount : Z) : ST xst unit :=
  match fuel with
  | O => undef
  | S fuel =>
      if bool_decide (0 < ByteCount) then
        wait_loop F;;
        inhibit;;
        sr ← XSpi_mGetStatusReg;
        ByteCount ← drain_loop F sr ByteCount;
        r ← fld RemainingBytes;
        (if bool_decide (0 < r) then
           sr ← XSpi_mGetStatusReg;
           fill_loop F sr;;
           uninhibit
         else skip);;
        poll_loop F fuel ByteCount
      else skip
  end.

(** The polled mode of [XSpi_Transfer], after the first bytes are sent. *)
Definition transfer_polled (F : nat) (ByteCount : Z) : ST xst xstatus :=
  poll_loop F F ByteCount;;
  inhibit;;
  mask ← fld SlaveSelectMask;
  XSpi_mSetSlaveSelectReg mask;;
  upd (set_IsBusy false);;
  mret XST_SUCCESS.

(** A master that is not in loopback mode needs a selected slave. *)
Definition no_slave (cr : Z) (i : XSpi) : bool :=
  negb (bool_decide (Z.land cr XSP_CR_MASTER_MODE_MASK = 0)) &&
  bool_decide (Z.land cr XSP_CR_LOOPBACK_MASK = 0) &&
  bool_decide (SlaveSelectReg i = SlaveSelectMask i).

Definition XSpi_Transfer (F : nat) (SendBufPtr RecvBufPtr ByteCount : Z) : ST xst xstatus :=
  ready ← fld IsReady;
  xassert (negb (bool_decide (SendBufPtr = 0)) && bool_decide (0 < ByteCount) && ready);;
  started ← fld IsStarted;
  if negb started then mret XST_DEVICE_IS_STOPPED else
  busy ← fld IsBusy;
  if (busy : bool) then mret XST_DEVICE_BUSY else
  GlobalIntrReg ← XSpi_mIsIntrGlobalEnabled;
  XSpi_mIntrGlobalDisable;;
  cr ← XSpi_mGetControlReg;
  i ← fld id;
  if no_slave cr i then XSpi_mIntrGlobalEnable;; mret XST_SPI_NO_SLAVE else
  XSpi_mSetSlaveSelectReg (SlaveSelectReg i);;
  upd (set_IsBusy true);;
  upd (set_SendBufferPtr SendBufPtr);;
  upd (set_RecvBufferPtr RecvBufPtr);;
  upd (set_RequestedBytes ByteCount);;
  upd (set_RemainingBytes ByteCount);;
  sr ← XSpi_mGetStatusReg;
  fill_loop F sr;;
  uninhibit;;
  if (GlobalIntrReg : bool) then
    XSpi_mIntrEnable XSP_INTR_TX_EMPTY_MASK;;
    XSpi_mIntrGlobalEnable;;
    mret XST_SUCCESS
  else transfer_polled F ByteCount.

(** ** The interrupt handler *)

Definition call_handler (event : xstatus) (count : Z) : ST xst unit :=
  f ← fld StatusHandler;
  r ← fld StatusRef;
  modify (λ s, set_calls (calls s ++ [(f, r, event, count)]) s).

Definition bytes_done : ST xst Z :=
  a ← fld RequestedBytes; b ← fld RemainingBytes; mret (u32 (a - b)).

(** The transmitter is empty: collect what was received and continue. *)
Definition handle_tx_empty (F : nat) : ST xst unit :=
  cr ← XSpi_mGetControlReg;
  XSpi_mSetControlReg (Z.lor cr XSP_CR_TRANS_INHIBIT_MASK);;
  sr ← XSpi_mGetStatusReg;
  drain_loop F sr 0;;
  r ← fld RemainingBytes;
  if bool_decide (0 < r) then
    sr ← XSpi_mGetStatusReg;
    fill_loop F sr;;
    XSpi_mSetControlReg cr
  else
    mask ← fld SlaveSelectMask;
    XSpi_mSetSlaveSelectReg mask;;
    XSpi_mIntrDisable XSP_INTR_TX_EMPTY_MASK;;
    upd (set_IsBusy false);;
    n ← fld RequestedBytes;
    call_handler XST_SPI_TRANSFER_DONE n.

(** An error that is only counted and reported. *)
Definition report (IntrStatus mask : Z) (count : XSpi_Stats -> XSpi_Stats) (event : xstatus) : ST xst unit :=
  if bool_decide (Z.land IntrStatus mask = 0) then skip else
  n ← bytes_done;
  upd_stats count;;
  call_handler event n.

Definition XSpi_InterruptHandler (F : nat) : ST xst unit :=
  upd_stats (λ t, set_NumInterrupts (u32 (NumInterrupts t + 1)) t);;
  IntrStatus ← XSpi_mIntrGetStatus;
  XSpi_mIntrClear IntrStatus;;
  if negb (bool_decide (Z.land IntrStatus XSP_INTR_MODE_FAULT_MASK = 0)) then
    n ← bytes_done;
    upd_stats (λ t, set_ModeFaults (u32 (ModeFaults t + 1)) t);;
    XSpi_Abort;;
    XSpi_mGetStatusReg;;
    call_handler XST_SPI_MODE_FAULT n
  else
    (if bool_decide (Z.land IntrStatus XSP_INTR_TX_EMPTY_MASK = 0) then skip else handle_tx_empty F);;
    report IntrStatus XSP_INTR_SLAVE_MODE_FAULT_MASK (λ t, set_SlaveModeFaults (u32 (SlaveModeFaults t + 1)) t) XST_SPI_SLAVE_MODE_FAULT;;
    report IntrStatus XSP_INTR_RX_OVERRUN_MASK (λ t, set_RecvOverruns (u32 (RecvOverruns t + 1)) t) XST_SPI_RECEIVE_OVERRUN;;
    report IntrStatus XSP_INTR_TX_UNDERRUN_MASK (λ t, set_XmitUnderruns (u32 (XmitUnderruns t + 1)) t) XST_SPI_TRANSMIT_UNDERRUN.
End xspi.
Arguments xst D : clear implicits.
Arguments MkXst {D}.
