(* ===== verification/XspiCore.v ===== *)
(** * The SPI driver on a controller

    [SpiCore] states what the driver relies on about the controller: its registers
    and FIFOs as the driver's sources document them. While the transmitter is not
    inhibited, bytes may be exchanged with the slave before any access. The
    controller has FIFOs; it is the only master, so that there are no mode faults and
    no underruns (which only slaves have); bits that xspi_l.h does not define may read as
    anything, and so may the mode fault bit of the status. A byte that
    arrives when the receive FIFO is full is dropped, with the overrun interrupt.
    Over every such controller the driver's transfers exchange exactly the bytes of
    the buffers, in order and without loss, in polled and in interrupt mode. *)

From S2P Require Import Prelude Xspi.
Open Scope Z_scope.

(** ** The controller *)

(** The registers, the FIFOs and the slave on the other side. *)
Record spi_view (S : Type) := MkView {
  v_cr : Z;
  v_gie : Z;
  v_ier : Z;
  v_ssr : Z;
  v_tx : list Z;
  v_rx : list Z;
  v_slave : S;
}.
Arguments MkView {S}.
Arguments v_cr {S}.
Arguments v_gie {S}.
Arguments v_ier {S}.
Arguments v_ssr {S}.
Arguments v_tx {S}.
Arguments v_rx {S}.
Arguments v_slave {S}.

(** The errors among the interrupts. *)
Definition errors_of (isr : Z) : Z := Z.land isr XSP_INTR_DFT_MASK.

Section view.
Context {S : Type} (depth : nat) (xchg : Z -> Z -> S -> Z * S).
Implicit Types (v : spi_view S).

(** One byte leaves the transmit FIFO and the answer of the slave arrives; it
    is lost when the receive FIFO is full. *)
Definition exch1 v : spi_view S :=
  match v_tx v with
  | [] => v
  | x :: tx =>
      MkView (v_cr v) (v_gie v) (v_ier v) (v_ssr v) tx
        (if decide (length (v_rx v) < depth)%nat then v_rx v ++ [(xchg (v_ssr v) x (v_slave v)).1] else v_rx v)
        (xchg (v_ssr v) x (v_slave v)).2
  end.

Definition exch (k : nat) v : spi_view S := Nat.iter k exch1 v.

(** Nothing is transmitted. *)
Definition quiet v : Prop := v_tx v = [] ∨ Z.testbit (v_cr v) 8 = true.

(** Some bytes may have been exchanged. *)
Definition adv v v' : Prop := exists k, (k <= length (v_tx v))%nat ∧ (quiet v -> k = 0%nat) ∧ v' = exch k v.

(** The status register: its bits for the FIFOs. *)
Definition sr_ok v (x : Z) : Prop :=
  (Z.land x XSP_SR_RX_EMPTY_MASK = 0 <-> v_rx v ≠ []) ∧ (Z.land x XSP_SR_RX_FULL_MASK = 0 <-> (length (v_rx v) < depth)%nat) ∧
  (Z.land x XSP_SR_TX_EMPTY_MASK = 0 <-> v_tx v ≠ []) ∧ (Z.land x XSP_SR_TX_FULL_MASK = 0 <-> (length (v_tx v) < depth)%nat).

(** The control register has nine bits (there is no LSB-first option, which not all versions have and the
    driver does not use), of which the FIFO reset bits do not stay. *)
Definition cr_ok v (x : Z) : Prop := is_u16 x ∧ Z.land x 0x1FF = v_cr v.
Definition ier_ok v (x : Z) : Prop := Z.land x XSP_INTR_ALL = v_ier v.

(** A write of the control register; the FIFO reset bits do not stay. *)
Definition write_cr (x : Z) v : spi_view S :=
  MkView (Z.land x 0x19F) (v_gie v) (v_ier v) (v_ssr v)
    (if Z.testbit x 5 then [] else v_tx v) (if Z.testbit x 6 then [] else v_rx v) (v_slave v).
Definition write_gie (x : Z) v := MkView (v_cr v) (Z.land x XSP_GINTR_ENABLE_MASK) (v_ier v) (v_ssr v) (v_tx v) (v_rx v) (v_slave v).
Definition write_ier (x : Z) v := MkView (v_cr v) (v_gie v) (Z.land x XSP_INTR_ALL) (v_ssr v) (v_tx v) (v_rx v) (v_slave v).
Definition write_ssr (x : Z) v := MkView (v_cr v) (v_gie v) (v_ier v) x (v_tx v) (v_rx v) (v_slave v).
Definition write_dtr (x : Z) v := MkView (v_cr v) (v_gie v) (v_ier v) (v_ssr v) (v_tx v ++ [x]) (v_rx v) (v_slave v).
Definition read_drr v := MkView (v_cr v) (v_gie v) (v_ier v) (v_ssr v) (v_tx v) (tail (v_rx v)) (v_slave v).

(** Transmission inhibited, slave mode, disabled, FIFOs empty. *)
Definition reset_view (ssr : Z) v : spi_view S := MkView 0x180 0 0 ssr [] [] (v_slave v).

(** Of the bytes that were exchanged from [v] to [v'] one was dropped. *)
Definition lost v v' : Prop :=
  (length (v_tx v') < length (v_tx v))%nat ∧ (depth < length (v_rx v) + (length (v_tx v) - length (v_tx v')))%nat.

(** The interrupts before and after some exchanges: there is an overrun when a byte was
    dropped and no new error otherwise, and the transmitter has reported when it became empty. *)
Definition isr_step v v' (q q' : Z) : Prop :=
  (~ lost v v' -> errors_of q' = errors_of q) ∧ (lost v v' -> Z.testbit q' 5 = true) ∧
  (Z.testbit q 2 = true ∨ (v_tx v ≠ [] ∧ v_tx v' = []) -> Z.testbit q' 2 = true).

(** An access to a register, for the view and the interrupts of the devices; [R] says what may be read. *)
Context {D : Type} (view : D -> spi_view S) (isr : D -> Z).
Definition reads (d : D) (r : Z * D) (R : spi_view S -> Z -> Prop) (g : spi_view S -> spi_view S) : Prop :=
  exists v, adv (view d) v ∧ R v r.1 ∧ view r.2 = g v ∧ isr_step (view d) v (isr d) (isr r.2).
Definition writes (d d' : D) (g : spi_view S -> spi_view S) : Prop :=
  exists v, adv (view d) v ∧ view d' = g v ∧ isr_step (view d) v (isr d) (isr d').
End view.

(** What the driver relies on. The driver compares the whole global interrupt enable register, whose only bit is the
    highest; the slave select lines are those that were last written, and [xchg] is what the slaves do with them. [latency] bounds how often the status has to be
    read until the transmitter is empty; [core_run] is the controller after it
    was left alone until the transmitter is empty. *)
Class SpiCore {D S : Type} {bus : SpiBus D} (base : Z) (depth : nat) (xchg : Z -> Z -> S -> Z * S) := {
  view : D -> spi_view S;
  isr : D -> Z;
  latency : D -> nat;
  max_latency : nat;
  core_run : D -> D;
  core_depth : (0 < depth)%nat;
  core_base : 0 <= base <= 2^32 - 0x100;
  core_latency d : (length (v_tx (view d)) <= depth)%nat -> (latency d <= max_latency)%nat;
  core_in_sr d : let r := bus_in8 (base + XSP_SR_OFFSET) d in
    reads depth xchg view isr d r (sr_ok depth) id ∧
    ((length (v_tx (view d)) <= depth)%nat -> quiet (view d) ∨ v_tx (view r.2) = [] ∨ (latency r.2 < latency d)%nat);
  core_in_cr d : reads depth xchg view isr d (bus_in16 (base + XSP_CR_OFFSET) d) cr_ok id;
  core_in_gie d : reads depth xchg view isr d (bus_in32 (base + XSP_DGIER_OFFSET) d) (λ v x, x = v_gie v) id;
  core_in_ier d : reads depth xchg view isr d (bus_in32 (base + XSP_IIER_OFFSET) d) ier_ok id;
  core_in_ssr d : reads depth xchg view isr d (bus_in32 (base + XSP_SSR_OFFSET) d) (λ _ _, True) id;
  core_in_drr d : v_rx (view d) ≠ [] ->
    reads depth xchg view isr d (bus_in8 (base + XSP_DRR_OFFSET) d) (λ v x, x = default 0 (list.head (v_rx v))) read_drr;
  core_in_isr d : quiet (view d) -> let r := bus_in32 (base + XSP_IISR_OFFSET) d in
    r.1 = isr d ∧ isr r.2 = isr d ∧ view r.2 = view d;
  core_out_cr x d : is_u16 x -> writes depth xchg view isr d (bus_out16 (base + XSP_CR_OFFSET) x d) (write_cr x);
  core_out_gie x d : writes depth xchg view isr d (bus_out32 (base + XSP_DGIER_OFFSET) x d) (write_gie x);
  core_out_ier x d : writes depth xchg view isr d (bus_out32 (base + XSP_IIER_OFFSET) x d) (write_ier x);
  core_out_ssr x d : writes depth xchg view isr d (bus_out32 (base + XSP_SSR_OFFSET) x d) (write_ssr x);
  core_out_dtr x d : (length (v_tx (view d)) < depth)%nat ->
    writes depth xchg view isr d (bus_out8 (base + XSP_DTR_OFFSET) x d) (write_dtr x);
  core_out_isr x d : quiet (view d) -> let d' := bus_out32 (base + XSP_IISR_OFFSET) x d in
    isr d' = Z.lxor (isr d) x ∧ view d' = view d;
  core_out_srr d : let d' := bus_out32 (base + XSP_SRR_OFFSET) XSP_SRR_RESET_MASK d in
    isr d' = 0 ∧ exists ssr, view d' = reset_view ssr (view d);
  core_runs d : ~ quiet (view d) -> view (core_run d) = exch depth xchg (length (v_tx (view d))) (view d) ∧
    isr_step depth (view d) (view (core_run d)) (isr d) (isr (core_run d));
  core_waits d : quiet (view d) -> view (core_run d) = view d ∧ isr_step depth (view d) (view d) (isr d) (isr (core_run d));
}.

Lemma u16_land x m : is_u16 m -> is_u16 (Z.land x m).
Proof.
  intros Hm. rewrite <- (Z.mod_small m (2^16)) by done. rewrite <- Z.land_ones, Z.land_assoc, Z.land_ones by lia. apply Z.mod_pos_bound. lia.
Qed.

(** ** A controller

    An executable controller that exchanges one byte with every read of the
    status register, for FIFOs of [depth] bytes. *)
Section soft.
Context {S : Type} (base : Z) (depth : nat) (xchg : Z -> Z -> S -> Z * S).
Implicit Types (v : spi_view S).

Record soft := Soft { soft_regs : spi_view S; soft_isr : Z }.

(** The registers have only the bits that stay. *)
Definition clip v : spi_view S := MkView (Z.land (v_cr v) 0x19F) (v_gie v) (Z.land (v_ier v) XSP_INTR_ALL) (v_ssr v) (v_tx v) (v_rx v) (v_slave v).
Definition soft_view (d : soft) : spi_view S := clip (soft_regs d).

Definition soft_sr v : Z :=
  (if decide (v_rx v = []) then XSP_SR_RX_EMPTY_MASK else 0) + (if decide (length (v_rx v) < depth)%nat then 0 else XSP_SR_RX_FULL_MASK) +
  (if decide (v_tx v = []) then XSP_SR_TX_EMPTY_MASK else 0) + (if decide (length (v_tx v) < depth)%nat then 0 else XSP_SR_TX_FULL_MASK).

(** The interrupts after [k] bytes were exchanged. *)
Definition soft_intr v (k : nat) (q : Z) : Z :=
  Z.lor (Z.lor q (if decide (k = length (v_tx v)) then XSP_INTR_TX_EMPTY_MASK else 0))
    (if decide (depth < length (v_rx v) + k)%nat then XSP_INTR_RX_OVERRUN_MASK else 0).

(** Exchanges [k] bytes, when the transmitter is not inhibited and not empty. *)
Definition soft_go (k : nat) (d : soft) : soft :=
  let v := soft_view d in
  if Z.testbit (v_cr v) 8 || bool_decide (v_tx v = []) then d else Soft (exch depth xchg k v) (soft_intr v k (soft_isr d)).
Definition soft_step (d : soft) : soft := soft_go 1 d.

(** Left alone until the transmitter is empty. *)
Definition soft_run (d : soft) : soft := soft_go (length (v_tx (soft_view d))) d.

Definition soft_set (f : spi_view S -> spi_view S) (d : soft) : soft := Soft (f (soft_view d)) (soft_isr d).

#[export] Instance soft_bus : SpiBus soft := {|
  bus_in8 a d :=
    if bool_decide (a = base + XSP_SR_OFFSET) then let d := soft_step d in (soft_sr (soft_view d), d)
    else (default 0 (list.head (v_rx (soft_view d))), soft_set read_drr d);
  bus_in16 a d := (v_cr (soft_view d), d);
  bus_in32 a d :=
    (if bool_decide (a = base + XSP_DGIER_OFFSET) then v_gie (soft_view d)
     else if bool_decide (a = base + XSP_IIER_OFFSET) then v_ier (soft_view d)
     else if bool_decide (a = base + XSP_IISR_OFFSET) then soft_isr d else v_ssr (soft_view d), d);
  bus_out8 a x d := soft_set (write_dtr x) d;
  bus_out16 a x d := soft_set (write_cr x) d;
  bus_out32 a x d :=
    if bool_decide (a = base + XSP_DGIER_OFFSET) then soft_set (write_gie x) d
    else if bool_decide (a = base + XSP_IIER_OFFSET) then soft_set (write_ier x) d
    else if bool_decide (a = base + XSP_IISR_OFFSET) then Soft (soft_regs d) (Z.lxor (soft_isr d) x)
    else if bool_decide (a = base + XSP_SRR_OFFSET) then Soft (reset_view 0xFFFFFFFF (soft_view d)) 0
    else soft_set (write_ssr x) d;
|}.

Lemma land_twice x m : Z.land (Z.land x m) m = Z.land x m.
Proof. by rewrite <- Z.land_assoc, Z.land_diag. Qed.
Lemma clip_clip v : clip (clip v) = clip v.
Proof. unfold clip. cbn [v_cr v_gie v_ier v_ssr v_tx v_rx v_slave]. by rewrite !land_twice. Qed.
Lemma clip_exch k v : clip v = v -> clip (exch depth xchg k v) = exch depth xchg k v.
Proof.
  intros Hv. induction k as [|k IH]; [done|]. change (exch depth xchg (Datatypes.S k) v) with (exch1 depth xchg (exch depth xchg k v)).
  revert IH. generalize (exch depth xchg k v). intros u Hu. unfold exch1. destruct (v_tx u); [done|]. rewrite <- Hu. unfold clip. cbn [v_cr v_gie v_ier v_ssr v_tx v_rx v_slave].
  by rewrite !land_twice.
Qed.
Lemma exch_tx k v : length (v_tx (exch depth xchg k v)) = (length (v_tx v) - k)%nat.
Proof.
  induction k as [|k IH]; [by rewrite Nat.sub_0_r|]. change (exch depth xchg (Datatypes.S k) v) with (exch1 depth xchg (exch depth xchg k v)).
  revert IH. generalize (exch depth xchg k v). intros u Hu. unfold exch1. destruct (v_tx u) eqn:E; [rewrite E; simpl in *; lia|]. simpl in *. lia.
Qed.

Lemma soft_sr_ok v : sr_ok depth v (soft_sr v).
Proof.
  unfold sr_ok, soft_sr. destruct (decide (v_rx v = [])), (decide (length (v_rx v) < depth)%nat), (decide (v_tx v = [])), (decide (length (v_tx v) < depth)%nat);
    split_and!; (split; [intros Hbit|intros Hlen]); try done; try (vm_compute in Hbit; discriminate Hbit).
Qed.

Lemma soft_errors v k q : ~ (depth < length (v_rx v) + k)%nat -> errors_of (soft_intr v k q) = errors_of q.
Proof.
  intros H. unfold errors_of, soft_intr. rewrite (decide_False (P := (depth < _)%nat)) by done. rewrite Z.lor_0_r, Z.land_lor_distr_l.
  replace (Z.land (if decide (k = length (v_tx v)) then XSP_INTR_TX_EMPTY_MASK else 0) XSP_INTR_DFT_MASK) with 0 by (by case_decide). apply Z.lor_0_r.
Qed.

Lemma adv_refl v : adv depth xchg v v.
Proof. exists 0%nat. split_and!; [lia|done|done]. Qed.
Lemma isr_step_refl v q : isr_step depth v v q q.
Proof. split_and!; [done|intros [? ?]; lia|]. intros [|[]]; done. Qed.

Lemma soft_go_step k (d : soft) : (1 <= k <= length (v_tx (soft_view d)))%nat ∨ v_tx (soft_view d) = [] ->
  adv depth xchg (soft_view d) (soft_view (soft_go k d)) ∧ isr_step depth (soft_view d) (soft_view (soft_go k d)) (soft_isr d) (soft_isr (soft_go k d)) ∧
  (quiet (soft_view d) ∨ soft_view (soft_go k d) = exch depth xchg k (soft_view d)).
Proof.
  intros Hk. unfold soft_go. destruct (Z.testbit (v_cr (soft_view d)) 8) eqn:E8; cbn [orb]; [split_and!; [apply adv_refl|apply isr_step_refl|by left; right]|].
  case_bool_decide as Etx; [split_and!; [apply adv_refl|apply isr_step_refl|by left; left]|]. destruct Hk as [Hk|]; [|done].
  set (v := soft_view d) in *. assert (soft_view (Soft (exch depth xchg k v) (soft_intr v k (soft_isr d))) = exch depth xchg k v) as -> by apply clip_exch, clip_clip.
  cbn [soft_isr]. split_and!.
  - exists k. split_and!; [lia| |done]. intros [Hq|Hq]; congruence.
  - unfold isr_step, lost. rewrite exch_tx. replace (length (v_tx v) - (length (v_tx v) - k))%nat with k by lia. split_and!.
    + intros Hn. apply soft_errors. intros Hd. apply Hn. split; [lia|done].
    + intros [_ Hd]. unfold soft_intr. rewrite (decide_True (P := (depth < _)%nat)) by done. rewrite Z.lor_spec. apply orb_true_r.
    + intros H2. unfold soft_intr. rewrite !Z.lor_spec. destruct H2 as [-> |[_ Hz]]; [done|].
      rewrite decide_True by (apply (f_equal length) in Hz; rewrite exch_tx in Hz; change (length []) with 0%nat in Hz; lia). by rewrite orb_true_r.
  - by right.
Qed.

Lemma reads_now (d : soft) (R : spi_view S -> Z -> Prop) x : R (soft_view d) x -> reads depth xchg soft_view soft_isr d (x, d) R id.
Proof. intros H. exists (soft_view d). split_and!; [apply adv_refl|done..|apply isr_step_refl]. Qed.
Lemma writes_now (d : soft) g : clip (g (soft_view d)) = g (soft_view d) -> writes depth xchg soft_view soft_isr d (soft_set g d) g.
Proof. intros H. exists (soft_view d). split_and!; [apply adv_refl|exact H|apply isr_step_refl]. Qed.

(** Decides which register is accessed. *)
Ltac regs := repeat first [rewrite bool_decide_eq_true_2 by lia | rewrite bool_decide_eq_false_2 by lia].

(** The requirements on the size and the address of the controller. *)
Context (Hdepth : (0 < depth)%nat) (Hbase : 0 <= base <= 2^32 - 0x100).

#[local] Arguments Z.testbit : simpl never.
#[local] Arguments Z.land : simpl never.

Ltac clipped := unfold clip, soft_view, write_cr, write_gie, write_ier, write_ssr, write_dtr, read_drr, clip; cbn [v_cr v_gie v_ier v_ssr v_tx v_rx v_slave]; by rewrite !land_twice.

#[export] Instance soft_core : SpiCore (bus := soft_bus) base depth xchg.
Proof.
  refine {| view := soft_view; isr := soft_isr; latency d := length (v_tx (soft_view d)); max_latency := depth; core_run := soft_run |};
    try done; unfold bus_in8, bus_in16, bus_in32, bus_out8, bus_out16, bus_out32, soft_bus, XSP_SR_OFFSET, XSP_DRR_OFFSET, XSP_DGIER_OFFSET, XSP_IIER_OFFSET, XSP_SSR_OFFSET, XSP_IISR_OFFSET, XSP_SRR_OFFSET.
  - intros d. rewrite bool_decide_eq_true_2 by done. cbv zeta. destruct (soft_go_step 1 d) as (Ha & He & Hq).
    { destruct (v_tx (soft_view d)); [by right|left; simpl; lia]. }
    split; [exists (soft_view (soft_step d)); split_and!; [done|apply soft_sr_ok|done|done]|].
    intros _. destruct Hq as [Hq|Hq]; [by left|]. destruct (v_tx (soft_view d)) eqn:Etx; [by left; left|]. right. right. cbn [snd]. unfold soft_step. rewrite Hq, exch_tx, Etx. simpl. lia.
  - intros d. apply reads_now. split; [by apply u16_land|unfold soft_view, clip; cbn [v_cr]; rewrite <- Z.land_assoc; done].
  - intros d. regs. by apply reads_now.
  - intros d. regs. apply reads_now. unfold ier_ok, soft_view, clip. cbn [v_ier]. apply land_twice.
  - intros d. regs. by apply reads_now.
  - intros d Hrx. regs. exists (soft_view d). split_and!; [apply adv_refl|done|unfold soft_set, soft_view; cbn [snd soft_regs]; clipped|apply isr_step_refl].
  - intros d _. by regs.
  - intros x d _. apply writes_now. clipped.
  - intros x d. regs. apply writes_now. clipped.
  - intros x d. regs. apply writes_now. clipped.
  - intros x d. regs. apply writes_now. clipped.
  - intros x d _. apply writes_now. clipped.
  - intros x d _. by regs.
  - intros d. regs. split; [done|]. by exists 0xFFFFFFFF.
  - intros d Hq. destruct (soft_go_step (length (v_tx (soft_view d))) d) as (_ & He & [?|Hv]); [|done|by split].
    destruct (v_tx (soft_view d)); [by right|left; simpl; lia].
  - intros d Hq. unfold soft_run, soft_go. assert (Z.testbit (v_cr (soft_view d)) 8 || bool_decide (v_tx (soft_view d) = []) = true) as ->.
    { destruct Hq as [Hq|Hq]; [rewrite (bool_decide_eq_true_2 _ Hq); apply orb_true_r|by rewrite Hq]. }
    split; [done|apply isr_step_refl].
Defined.
End soft.
Arguments Soft {S}.
Arguments soft_regs {S}.
Arguments soft_isr {S}.

(** ** Parts of a buffer *)

Section seg.
Context {A : Type}.
Implicit Types (l : list A) (i j : nat).

(** The elements from [i] to [j]. *)
Definition seg i j l : list A := take (j - i) (drop i l).

Lemma seg_nil i l : seg i i l = [].
Proof. unfold seg. by rewrite Nat.sub_diag. Qed.
Lemma seg_length i j l : (i <= j <= length l)%nat -> length (seg i j l) = (j - i)%nat.
Proof. intros H. unfold seg. rewrite length_take, length_drop. lia. Qed.
Lemma seg_cons i j l x : (i < j)%nat -> l !! i = Some x -> seg i j l = x :: seg (S i) j l.
Proof. intros H Hx. unfold seg. rewrite (drop_S _ _ _ Hx). replace (j - i)%nat with (S (j - S i)) by lia. done. Qed.
Lemma seg_snoc i j l x : (i <= j)%nat -> l !! j = Some x -> seg i (S j) l = seg i j l ++ [x].
Proof.
  intros H Hx. unfold seg. replace (S j - i)%nat with (S (j - i)) by lia. apply take_S_r. rewrite lookup_drop. by replace (i + (j - i))%nat with j by lia.
Qed.
Lemma seg_empty i j l : (i <= j <= length l)%nat -> seg i j l = [] -> i = j.
Proof. intros H E. apply (f_equal length) in E. rewrite seg_length in E by lia. simpl in E. lia. Qed.
End seg.

(** ** The control register *)

Lemma u16_bits x y : is_u16 x -> is_u16 y -> (forall i, 0 <= i < 16 -> Z.testbit x i = Z.testbit y i) -> x = y.
Proof.
  intros Hx Hy H. apply Z.bits_inj'. intros i Hi. destruct (decide (i < 16)); [by apply H|].
  rewrite <- (Z.mod_small x (2^16)), <- (Z.mod_small y (2^16)), !Z.mod_pow2_bits_high by (done || lia). done.
Qed.

Lemma u16_lor x y : is_u16 x -> is_u16 y -> is_u16 (Z.lor x y).
Proof.
  intros Hx Hy. rewrite <- (Z.mod_small x (2^16)), <- (Z.mod_small y (2^16)) by done.
  rewrite <- !Z.land_ones, <- Z.land_lor_distr_l, Z.land_ones by lia. apply Z.mod_pos_bound. lia.
Qed.

(** Enumerates the bits of a 16-bit register. *)
Ltac each_bit i Hi :=
  let H := fresh in
  assert (i = 0 ∨ i = 1 ∨ i = 2 ∨ i = 3 ∨ i = 4 ∨ i = 5 ∨ i = 6 ∨ i = 7 ∨ i = 8 ∨ i = 9 ∨ i = 10 ∨ i = 11 ∨ i = 12 ∨ i = 13 ∨ i = 14 ∨ i = 15)
    as H by (clear -Hi; lia);
  repeat (destruct H as [-> | H]; [|]); [..|rewrite H].

(** Inhibited, with bits that stay. *)
Definition ctl_ok (c : Z) : Prop := Z.land c 0x19F = c ∧ Z.testbit c 8 = true.
Definition run_cr (c : Z) : Z := Z.land c 0xFEFF.

(** What a read gives for the register [c]. *)
Definition cr_read (x c : Z) : Prop := is_u16 x ∧ Z.land x 0x1FF = c.

Lemma run_cr_8 c : Z.testbit (run_cr c) 8 = false.
Proof. unfold run_cr. by rewrite Z.land_spec, andb_false_r. Qed.
Lemma cr_read_bit x c i : cr_read x c -> 0 <= i < 9 -> Z.testbit x i = Z.testbit c i.
Proof. intros [_ <-] Hi. rewrite Z.land_spec. change 0x1FF with (Z.ones 9). by rewrite Z.ones_spec_low, andb_true_r. Qed.
Lemma cr_read_stays x c : cr_read x c -> Z.land x 0x19F = Z.land c 0x19F.
Proof. intros [_ <-]. by rewrite <- Z.land_assoc. Qed.

Lemma no_slave_read x c i : cr_read x c -> no_slave x i = no_slave c i.
Proof. intros [_ <-]. unfold no_slave. by rewrite <- !Z.land_assoc. Qed.

(** The FIFOs are not reset. *)
Lemma ctl_no_reset c x : ctl_ok c -> cr_read x c ∨ cr_read x (run_cr c) -> Z.testbit x 5 = false ∧ Z.testbit x 6 = false.
Proof.
  intros [Hc _] Hx. assert (forall i, i = 5 ∨ i = 6 -> Z.testbit x i = false) as H; [|split; apply H; lia].
  intros i Hi. assert (Z.testbit c i = false) as Hci by (rewrite <- Hc, Z.land_spec; destruct Hi as [-> | ->]; apply andb_false_r).
  destruct Hx as [Hx|Hx]; rewrite (cr_read_bit _ _ _ Hx) by lia; [done|]. unfold run_cr. by rewrite Z.land_spec, Hci.
Qed.

Lemma write_cr_keep {V} x (v : spi_view V) : Z.testbit x 5 = false -> Z.testbit x 6 = false ->
  write_cr x v = MkView (Z.land x 0x19F) (v_gie v) (v_ier v) (v_ssr v) (v_tx v) (v_rx v) (v_slave v).
Proof. intros H5 H6. unfold write_cr. by rewrite H5, H6. Qed.

(** What the register is after the driver wrote back what it read with the inhibit bit set, cleared, or as it was. *)
Lemma ctl_set c x : ctl_ok c -> cr_read x c ∨ cr_read x (run_cr c) -> Z.land (Z.lor x XSP_CR_TRANS_INHIBIT_MASK) 0x19F = c.
Proof.
  intros [Hc H8] Hx. rewrite Z.land_lor_distr_l. change (Z.land XSP_CR_TRANS_INHIBIT_MASK 0x19F) with (2^8).
  assert (Z.land x 0x19F = c ∨ Z.land x 0x19F = run_cr c) as Hl.
  { destruct Hx as [Hx|Hx]; apply cr_read_stays in Hx; rewrite Hx; [by left|right]. unfold run_cr. by rewrite <- Hc at 2; rewrite <- !Z.land_assoc. }
  apply Z.bits_inj'. intros i Hi. rewrite Z.lor_spec, Z.pow2_bits_eqb by lia. destruct (Z.eqb_spec 8 i) as [<- |Hne]; [by rewrite H8, orb_true_r|]. rewrite orb_false_r.
  destruct Hl as [-> | ->]; [done|]. unfold run_cr. rewrite Z.land_spec. destruct (Z.testbit c i) eqn:Ei; [|done].
  assert (0 <= i < 16) as H16. { split; [done|]. apply Z.nle_gt. intros Hge. rewrite <- Hc, Z.land_spec, (Z.bits_above_log2 0x19F) in Ei by (simpl; lia). by rewrite andb_false_r in Ei. }
  by each_bit i H16.
Qed.
Lemma ctl_clear c x : ctl_ok c -> cr_read x c -> Z.land (Z.land x (u16 (Z.lnot XSP_CR_TRANS_INHIBIT_MASK))) 0x19F = run_cr c.
Proof.
  intros [Hc _] Hx. rewrite (Z.land_comm x), <- Z.land_assoc, (cr_read_stays _ _ Hx), Hc, Z.land_comm. done.
Qed.
Lemma ctl_back c x : ctl_ok c -> cr_read x (run_cr c) -> Z.land x 0x19F = run_cr c.
Proof. intros [Hc _] Hx. rewrite (cr_read_stays _ _ Hx). unfold run_cr. rewrite <- Hc at 2. by rewrite <- !Z.land_assoc. Qed.

(** ** Register accesses *)

Section driver.
Context {D S : Type} {bus : SpiBus D} {base : Z} {depth : nat} {xchg : Z -> Z -> S -> Z * S}
  {core : SpiCore (bus := bus) base depth xchg}.
Implicit Types (s : xst D) (v : spi_view S).

Definition vw s : spi_view S := view (dev s).
Definition err s : Z := errors_of (isr (dev s)).

Lemma adv_quiet v v' : adv depth xchg v v' -> quiet v -> v' = v.
Proof. intros (k & _ & Hq & ->) H. by rewrite (Hq H). Qed.

Lemma reg_addr off : 0 <= off < 0x100 -> u32 (base + off) = base + off.
Proof. intros H. pose proof (core_base (SpiCore := core)). apply u32_small. unfold is_u32. lia. Qed.

(** No byte is dropped when none is exchanged. *)
Lemma isr_same v v' q q' : v' = v -> isr_step depth v v' q q' -> errors_of q' = errors_of q.
Proof. intros -> [He _]. apply He. intros [? ?]. lia. Qed.

(** The state after an access that leaves the view [v], [v0] after the exchanges. *)
Definition after s v0 v (Q : xst D -> Prop) : Prop :=
  forall d, view d = v -> isr_step depth (vw s) v0 (isr (dev s)) (isr d) -> Q (set_dev d s).

Lemma after_reads s r R g (Q : Z -> xst D -> Prop) :
  reads depth xchg view isr (dev s) r R g ->
  (forall v x, adv depth xchg (vw s) v -> R v x -> after s v (g v) (Q x)) -> Q r.1 (set_dev r.2 s).
Proof. intros (v & Ha & Hf & Hg & He) HQ. by apply (HQ v _ Ha Hf). Qed.
Lemma after_writes s d g (Q : xst D -> Prop) :
  writes depth xchg view isr (dev s) d g ->
  (forall v, adv depth xchg (vw s) v -> after s v (g v) Q) -> Q (set_dev d s).
Proof. intros (v & Ha & Hg & He) HQ. by apply (HQ v Ha). Qed.

Lemma wp_in8 a s Q : (let r := bus_in8 (u32 a) (dev s) in Q r.1 (set_dev r.2 s)) -> wp (XIo_In8 a) s Q.
Proof. intros H. apply wp_run. unfold XIo_In8. destruct (bus_in8 (u32 a) (dev s)) as [x d]. by exists x, (set_dev d s). Qed.
Lemma wp_in16 a s Q : (let r := bus_in16 (u32 a) (dev s) in Q r.1 (set_dev r.2 s)) -> wp (XIo_In16 a) s Q.
Proof. intros H. apply wp_run. unfold XIo_In16. destruct (bus_in16 (u32 a) (dev s)) as [x d]. by exists x, (set_dev d s). Qed.
Lemma wp_in32 a s Q : (let r := bus_in32 (u32 a) (dev s) in Q r.1 (set_dev r.2 s)) -> wp (XIo_In32 a) s Q.
Proof. intros H. apply wp_run. unfold XIo_In32. destruct (bus_in32 (u32 a) (dev s)) as [x d]. by exists x, (set_dev d s). Qed.

(** The instance is the one of this controller. *)
Definition ours s : Prop := BaseAddr (inst s) = base.

Lemma wp_status_reg s (Q : Z -> xst D -> Prop) :
  ours s -> (forall v d x, adv depth xchg (vw s) v -> view d = v -> isr_step depth (vw s) v (isr (dev s)) (isr d) -> sr_ok depth v x ->
    ((length (v_tx (vw s)) <= depth)%nat -> quiet (vw s) ∨ v_tx v = [] ∨ (latency d < latency (dev s))%nat) ->
    Q x (set_dev d s)) ->
  wp XSpi_mGetStatusReg s Q.
Proof.
  intros Hb HQ. unfold XSpi_mGetStatusReg, fld. wp_pure. rewrite Hb. apply wp_in8. rewrite reg_addr by (unfold XSP_SR_OFFSET; lia).
  destruct (core_in_sr (dev s)) as [(v & Ha & Hf & Hg & He) Hl]. cbv zeta in *. unfold id in Hg. rewrite Hg in Hl. by apply (HQ v).
Qed.

Lemma wp_get_control s (Q : Z -> xst D -> Prop) :
  ours s -> (forall v x, adv depth xchg (vw s) v -> cr_read x (v_cr v) -> after s v v (Q x)) -> wp XSpi_mGetControlReg s Q.
Proof.
  intros Hb HQ. unfold XSpi_mGetControlReg, fld. wp_pure. rewrite Hb. apply wp_in16. rewrite reg_addr by (unfold XSP_CR_OFFSET; lia).
  by apply (after_reads s _ cr_ok id Q); [apply core_in_cr|].
Qed.
Lemma wp_set_control s x (Q : unit -> xst D -> Prop) :
  ours s -> is_u16 x -> (forall v, adv depth xchg (vw s) v -> after s v (write_cr x v) (Q tt)) -> wp (XSpi_mSetControlReg x) s Q.
Proof.
  intros Hb Hx HQ. unfold XSpi_mSetControlReg, fld, XIo_Out16. wp_pure. rewrite Hb, reg_addr by (unfold XSP_CR_OFFSET; lia).
  by apply (after_writes s _ (write_cr x) (Q tt)); [apply core_out_cr|].
Qed.

Lemma wp_reg_in s off R (Q : Z -> xst D -> Prop) :
  ours s -> 0 <= off < 0x100 -> reads depth xchg view isr (dev s) (bus_in32 (base + off) (dev s)) R id ->
  (forall v x, adv depth xchg (vw s) v -> R v x -> after s v v (Q x)) -> wp (reg_in32 off) s Q.
Proof.
  intros Hb Ho Hr HQ. unfold reg_in32, fld. wp_pure. rewrite Hb. apply wp_in32. rewrite reg_addr by done. by apply (after_reads s _ R id Q).
Qed.
Lemma wp_reg_out s off x g (Q : unit -> xst D -> Prop) :
  ours s -> 0 <= off < 0x100 -> writes depth xchg view isr (dev s) (bus_out32 (base + off) x (dev s)) g ->
  (forall v, adv depth xchg (vw s) v -> after s v (g v) (Q tt)) -> wp (reg_out32 off x) s Q.
Proof.
  intros Hb Ho Hr HQ. unfold reg_out32, fld, XIo_Out32. wp_pure. rewrite Hb, reg_addr by done. by apply (after_writes s _ g (Q tt)).
Qed.

Lemma wp_set_gie s x (Q : unit -> xst D -> Prop) :
  ours s -> (forall v, adv depth xchg (vw s) v -> after s v (write_gie x v) (Q tt)) -> wp (reg_out32 XSP_DGIER_OFFSET x) s Q.
Proof. intros Hb. apply wp_reg_out; [done|unfold XSP_DGIER_OFFSET; lia|apply core_out_gie]. Qed.
Lemma wp_set_ssr s x (Q : unit -> xst D -> Prop) :
  ours s -> (forall v, adv depth xchg (vw s) v -> after s v (write_ssr x v) (Q tt)) -> wp (XSpi_mSetSlaveSelectReg x) s Q.
Proof. intros Hb. apply wp_reg_out; [done|unfold XSP_SSR_OFFSET; lia|apply core_out_ssr]. Qed.
Lemma wp_set_ier s x (Q : unit -> xst D -> Prop) :
  ours s -> (forall v, adv depth xchg (vw s) v -> after s v (write_ier x v) (Q tt)) -> wp (reg_out32 XSP_IIER_OFFSET x) s Q.
Proof. intros Hb. apply wp_reg_out; [done|unfold XSP_IIER_OFFSET; lia|apply core_out_ier]. Qed.
Lemma wp_get_ier s (Q : Z -> xst D -> Prop) :
  ours s -> (forall v x, adv depth xchg (vw s) v -> ier_ok v x -> after s v v (Q x)) -> wp (reg_in32 XSP_IIER_OFFSET) s Q.
Proof. intros Hb. apply wp_reg_in; [done|unfold XSP_IIER_OFFSET; lia|apply core_in_ier]. Qed.
Lemma wp_get_gie s (Q : Z -> xst D -> Prop) :
  ours s -> (forall v, adv depth xchg (vw s) v -> after s v v (Q (v_gie v))) -> wp (reg_in32 XSP_DGIER_OFFSET) s Q.
Proof.
  intros Hb HQ. eapply wp_reg_in; [done|unfold XSP_DGIER_OFFSET; lia|apply core_in_gie|]. intros v x Ha ->. by apply HQ.
Qed.

(** Regrouping the first four statements of a round. *)
Lemma wp_round {B} (m1 m2 : ST (xst D) unit) (m3 : ST (xst D) Z) (f : Z -> ST (xst D) Z) (k : Z -> ST (xst D) B) s Q :
  wp (m1;; m2;; x ← m3; f x) s (λ r s', wp (k r) s' Q) -> wp (m1;; m2;; x ← m3; r ← f x; k r) s Q.
Proof.
  intros H. apply wp_run in H as (r & s' & E & HQ). apply wp_run in HQ as (b & s'' & E' & HQ). apply wp_run. exists b, s''. split; [|done].
  unfold mbind, st_bind in *. destruct (m1 s) as [[[] s1]|]; [|done]. destruct (m2 s1) as [[[] s2]|]; [|done].
  destruct (m3 s2) as [[x s3]|]; [|done]. by rewrite E.
Qed.

(** ** Transfers *)

(** The slave's answers to a sequence of bytes, and the slave afterwards. *)
Fixpoint xrun (ss : Z) (l : list Z) (w : S) : list Z * S :=
  match l with
  | [] => ([], w)
  | x :: l => let '(y, w) := xchg ss x w in let '(ys, w) := xrun ss l w in (y :: ys, w)
  end.

Lemma xrun_length ss l w : length (xrun ss l w).1 = length l.
Proof.
  revert w. induction l as [|x l IH]; intros w; [done|]. simpl. destruct (xchg ss x w) as [y w1]. specialize (IH w1).
  destruct (xrun ss l w1) as [ys w2]. simpl in *. lia.
Qed.
Lemma xrun_app ss l l' w :
  xrun ss (l ++ l') w = ((xrun ss l w).1 ++ (xrun ss l' (xrun ss l w).2).1, (xrun ss l' (xrun ss l w).2).2).
Proof.
  revert w. induction l as [|x l IH]; intros w; [simpl; by destruct (xrun ss l' w)|]. simpl. destruct (xchg ss x w) as [y w1]. rewrite IH.
  by destruct (xrun ss l w1).
Qed.
(** The answer to the byte at position [k]. *)
Lemma xrun_at ss l w k x :
  l !! k = Some x ->
  (xrun ss l w).1 !! k = Some (xchg ss x (xrun ss (take k l) w).2).1 ∧
  (xrun ss (take (Datatypes.S k) l) w).2 = (xchg ss x (xrun ss (take k l) w).2).2.
Proof.
  intros Hk. assert (forall l', (xrun ss (take (Datatypes.S k) l ++ l') w).1 !! k = Some (xchg ss x (xrun ss (take k l) w).2).1 ∧
    (xrun ss (take (Datatypes.S k) l) w).2 = (xchg ss x (xrun ss (take k l) w).2).2) as H.
  { intros l'. rewrite (take_S_r _ _ _ Hk), !xrun_app. simpl. destruct (xchg ss x (xrun ss (take k l) w).2) as [y w']. simpl. split; [|done].
    rewrite <- app_assoc, lookup_app_r, xrun_length, length_take_le by (rewrite ?xrun_length, ?length_take; apply lookup_lt_Some in Hk; lia).
    by rewrite Nat.sub_diag. }
  rewrite <- (take_drop (Datatypes.S k) l) at 1. apply H.
Qed.

Section transfer.
Context (I0 : XSpi) (send recv : Z) (A : list Z) (m0 : Z -> Z) (w0 : S) (ss e0 : Z) (c0 : list call).

(** The answers. *)
Definition ans : list Z := (xrun ss A w0).1.

(** [i] bytes were written to the controller, [k] exchanged, [j] stored. *)
Definition tinst (i j : nat) : XSpi :=
  set_SendBufferPtr (send + Z.of_nat i)
    (set_RecvBufferPtr (if bool_decide (recv = 0) then 0 else recv + Z.of_nat j)
      (set_RemainingBytes (Z.of_nat (length A) - Z.of_nat i)
        (set_Stats (set_BytesTransferred (u32 (BytesTransferred (Stats I0) + Z.of_nat j)) (Stats I0)) I0))).
Definition tview (c g e : Z) (i k j : nat) : spi_view S :=
  MkView c g e ss (seg k i A) (seg j k ans) (xrun ss (take k A) w0).2.
Definition tmem (j : nat) (a : Z) : Z :=
  if bool_decide (recv ≠ 0 ∧ recv <= a < recv + Z.of_nat j) then default 0 (ans !! Z.to_nat (a - recv)) else m0 a.

Record prog (c g e : Z) (i k j : nat) s : Prop := {
  g_inst : inst s = tinst i j;
  g_view : vw s = tview c g e i k j;
  g_err : err s = e0;
  g_mem a : xmem s a = tmem j a;
  g_calls : calls s = c0;
  g_order : (j <= k <= i)%nat ∧ (i <= length A)%nat ∧ (i - j <= depth)%nat;
}.

Hypothesis Hours : BaseAddr I0 = base.
Hypothesis Hwidth : DataWidth I0 = XSP_DATAWIDTH_BYTE.
Hypothesis Hlen : Z.of_nat (length A) < 2^32.
Hypothesis Hsend : forall i x, A !! i = Some x -> m0 (send + Z.of_nat i) = x.
Hypothesis Hrecv : 0 <= recv.
Hypothesis Hsep : recv = 0 ∨ forall i j, (j < i < length A)%nat -> recv + Z.of_nat j ≠ send + Z.of_nat i.

Lemma ans_length : length ans = length A.
Proof. apply xrun_length. Qed.

Lemma prog_ours c g e i k j s : prog c g e i k j s -> ours s.
Proof. intros Hp. unfold ours. by rewrite (g_inst _ _ _ _ _ _ _ Hp). Qed.

(** Exchanging the byte at position [k]. *)
Lemma tview_exch1 c g e i k j :
  (j <= k < i)%nat -> (i <= length A)%nat -> (i - j <= depth)%nat ->
  exch1 depth xchg (tview c g e i k j) = tview c g e i (Datatypes.S k) j.
Proof.
  intros Hk Hi Hd. destruct (lookup_lt_is_Some_2 A k) as [x Hx]; [lia|]. destruct (xrun_at ss A w0 k x Hx) as [Hy Hw].
  unfold exch1, tview. cbn [v_tx]. rewrite (seg_cons k i A x) by (done || lia). cbn [v_cr v_gie v_ier v_ssr v_rx v_slave].
  rewrite decide_True by (rewrite seg_length; rewrite ?ans_length; lia). rewrite Hw. f_equal.
  symmetry. apply seg_snoc; [lia|done].
Qed.

Lemma tview_exch c g e i j n : forall k,
  (j <= k)%nat -> (k + n <= i)%nat -> (i <= length A)%nat -> (i - j <= depth)%nat ->
  exch depth xchg n (tview c g e i k j) = tview c g e i (k + n) j.
Proof.
  induction n as [|n IH]; intros k Hk Hn Hi Hd; [by rewrite Nat.add_0_r|].
  change (exch depth xchg (Datatypes.S n) (tview c g e i k j)) with (exch1 depth xchg (exch depth xchg n (tview c g e i k j))).
  rewrite IH by lia. rewrite tview_exch1 by lia. by replace (k + Datatypes.S n)%nat with (Datatypes.S (k + n)) by lia.
Qed.

(** What time does to a transfer. *)
Lemma prog_adv c g e i k j s v :
  prog c g e i k j s -> adv depth xchg (vw s) v ->
  exists k', (k <= k' <= i)%nat ∧ v = tview c g e i k' j ∧ (quiet (vw s) -> k' = k).
Proof.
  intros Hp (n & Hn & Hq & ->). destruct (g_order _ _ _ _ _ _ _ Hp) as (Ho & Hi & Hd). rewrite (g_view _ _ _ _ _ _ _ Hp) in *.
  cbn [v_tx tview] in Hn. rewrite seg_length in Hn by lia. exists (k + n)%nat. split_and!; [lia|lia|by apply tview_exch; lia|].
  intros H. rewrite (Hq H). lia.
Qed.

(** The device changes, the rest of the state does not. *)
Lemma prog_dev c g e i k j s c' g' e' k' d :
  prog c g e i k j s -> view d = tview c' g' e' i k' j -> errors_of (isr d) = err s -> (j <= k' <= i)%nat ->
  prog c' g' e' i k' j (set_dev d s).
Proof.
  intros [Hi Hv He Hm Hc Ho] Hd Hed Hk. constructor; try done; [unfold err in *; simpl; congruence|lia].
Qed.

Lemma quiet_inhibited c g e i k j : Z.testbit c 8 = true -> quiet (tview c g e i k j).
Proof. by right. Qed.
Lemma quiet_empty c g e k j : quiet (tview c g e k k j).
Proof. left. apply seg_nil. Qed.

(** *** The loops *)

Lemma tmem_ahead i j : (j <= i < length A)%nat -> tmem j (send + Z.of_nat i) = m0 (send + Z.of_nat i).
Proof.
  intros Hi. unfold tmem. rewrite bool_decide_eq_false_2; [done|]. intros [Hr Ha]. destruct Hsep as [|Hs]; [done|].
  specialize (Hs i (Z.to_nat (send + Z.of_nat i - recv))). lia.
Qed.

Lemma wp_load8 p s (Q : Z -> xst D -> Prop) : Q (xmem s p) s -> wp (load8 p) s Q.
Proof. intros H. unfold load8. apply wp_gets. exact H. Qed.

Lemma send_data_spec c g e i j s :
  prog c g e i j j s -> Z.testbit c 8 = true -> (i < length A)%nat -> (i - j < depth)%nat ->
  wp send_data s (λ _ s', prog c g e (Datatypes.S i) j j s').
Proof.
  intros Hp Hc Hi Hd. destruct (Hp) as [Ei Ev Ee Em Ec Ho]. destruct (lookup_lt_is_Some_2 A i) as [x Hx]; [done|].
  unfold send_data, fld. wp_pure. rewrite Ei. cbn [DataWidth BaseAddr SendBufferPtr RemainingBytes tinst set_SendBufferPtr set_RecvBufferPtr set_RemainingBytes set_Stats].
  rewrite Hwidth, bool_decide_eq_true_2 by done. apply wp_bind, wp_load8.
  rewrite Em, tmem_ahead, (Hsend i x Hx) by (done || lia). unfold XIo_Out8, upd. wp_pure. rewrite Hours, reg_addr by (unfold XSP_DTR_OFFSET; lia).
  destruct (core_out_dtr x (dev s)) as (v & Ha & Hv & He).
  { change (view (dev s)) with (vw s). rewrite Ev. cbn [v_tx tview]. rewrite seg_length by lia. done. }
  apply adv_quiet in Ha; [|change (view (dev s)) with (vw s); rewrite Ev; by apply quiet_inhibited]. apply (isr_same _ _ _ _ Ha) in He. change (view (dev s)) with (vw s) in Ha.
  constructor; try done.
  - cbn [inst set_inst set_dev]. rewrite Ei, u32_small by (unfold is_u32; lia).
    replace (send + Z.of_nat i + 1) with (send + Z.of_nat (Datatypes.S i)) by lia.
    replace (Z.of_nat (length A) - Z.of_nat i - 1) with (Z.of_nat (length A) - Z.of_nat (Datatypes.S i)) by lia. reflexivity.
  - unfold vw. cbn [dev set_dev set_inst]. rewrite Hv, Ha, Ev. unfold write_dtr, tview. cbn. f_equal. symmetry. apply seg_snoc; [lia|done].
  - unfold err. cbn [dev set_dev set_inst]. by rewrite He.
  - lia.
Qed.

(** No byte of a transfer is dropped. *)
Lemma prog_errors c g e i k j s v q : prog c g e i k j s -> isr_step depth (vw s) v (isr (dev s)) q -> errors_of q = err s.
Proof.
  intros Hp [He _]. apply He. intros [_ Hl]. destruct (g_order _ _ _ _ _ _ _ Hp) as (Ho & Hi & Hd). rewrite (g_view _ _ _ _ _ _ _ Hp) in Hl.
  cbn [v_tx v_rx tview] in Hl. rewrite !seg_length in Hl by (rewrite ?ans_length; lia). lia.
Qed.

(** Reading the status of a controller that does not transmit. *)
Lemma wp_status_quiet c g e i k j s (Q : Z -> xst D -> Prop) :
  prog c g e i k j s -> quiet (tview c g e i k j) -> (forall s' x, prog c g e i k j s' -> sr_ok depth (tview c g e i k j) x -> Q x s') ->
  wp XSpi_mGetStatusReg s Q.
Proof.
  intros Hp Hq HQ. apply wp_status_reg; [by eapply prog_ours|]. intros v d x Ha Hd He Hx _. apply (prog_errors _ _ _ _ _ _ _ _ _ Hp) in He.
  destruct (prog_adv _ _ _ _ _ _ _ _ Hp Ha) as (k' & Hk & -> & Hkq). rewrite (g_view _ _ _ _ _ _ _ Hp) in Hkq. rewrite (Hkq Hq) in *.
  apply HQ; [|done]. eapply prog_dev; [exact Hp|done|done|]. destruct (g_order _ _ _ _ _ _ _ Hp). lia.
Qed.

Lemma fill_loop_spec c g e j fuel : forall i s x,
  prog c g e i j j s -> Z.testbit c 8 = true -> (length A - i < fuel)%nat -> sr_ok depth (tview c g e i j j) x ->
  wp (fill_loop fuel x) s
    (λ _ s', exists i', (i <= i')%nat ∧ (i' = length A ∨ (i' - j = depth)%nat) ∧ prog c g e i' j j s').
Proof.
  induction fuel as [|fuel IH]; intros i s x Hp Hc Hf (_ & _ & _ & Hx); [lia|]. cbn [fill_loop].
  destruct (g_order _ _ _ _ _ _ _ Hp) as (Ho & Hi & Hd). unfold fld. wp_pure. rewrite (g_inst _ _ _ _ _ _ _ Hp).
  cbn [RemainingBytes tinst set_SendBufferPtr set_RecvBufferPtr set_RemainingBytes].
  destruct (decide (i < length A)%nat) as [Hlt|]; [|rewrite andb_comm, bool_decide_eq_false_2 by lia; apply wp_ret; exists i; split_and!; [lia|left; lia|done]].
  rewrite (bool_decide_eq_true_2 (0 < _)), andb_true_r by lia.
  destruct (decide (i - j < depth)%nat) as [Hroom|Hroom].
  - rewrite bool_decide_eq_true_2 by (apply Hx; cbn [v_tx tview]; rewrite seg_length; lia).
    apply wp_bind. eapply wp_mono; [by apply send_data_spec|]. intros [] s1 Hp1. apply wp_bind.
    eapply wp_status_quiet; [exact Hp1|by apply quiet_inhibited|]. intros s2 x2 Hp2 Hx2.
    eapply wp_mono; [apply (IH (Datatypes.S i) s2 x2 Hp2 Hc); [lia|done]|]. intros [] s3 (i' & Hle & Hend & Hp3). exists i'. split_and!; [lia|done|done].
  - rewrite bool_decide_eq_false_2 by (rewrite Hx; cbn [v_tx tview]; rewrite seg_length; lia).
    apply wp_ret. exists i. split_and!; [lia|right; lia|done].
Qed.

(** Storing the answer at position [j]. *)
Lemma tmem_store j y a :
  ans !! j = Some y -> recv ≠ 0 ->
  (if bool_decide (a = recv + Z.of_nat j) then y else tmem j a) = tmem (Datatypes.S j) a.
Proof.
  intros Hy Hr. unfold tmem. case_bool_decide as E1.
  - subst a. rewrite bool_decide_eq_true_2 by (split; [done|lia]). by replace (Z.to_nat (recv + Z.of_nat j - recv)) with j by lia; rewrite Hy.
  - case_bool_decide as E2; case_bool_decide as E3; try done; lia.
Qed.

Lemma recv_data_spec c g e i j s :
  prog c g e i i j s -> (j < i)%nat -> wp recv_data s (λ r s', r = 1 ∧ prog c g e i i (Datatypes.S j) s').
Proof.
  intros Hp Hj. destruct (Hp) as [Ei Ev Ee Em Ec Ho]. destruct (lookup_lt_is_Some_2 ans j) as [y Hy]; [rewrite ans_length; lia|].
  unfold recv_data, fld. wp_pure. rewrite Ei.
  cbn [DataWidth BaseAddr RecvBufferPtr tinst set_SendBufferPtr set_RecvBufferPtr set_RemainingBytes set_Stats].
  rewrite Hwidth, Hours, bool_decide_eq_true_2 by done. unfold upd_stats, upd. wp_pure. apply wp_bind, wp_in8.
  rewrite reg_addr by (unfold XSP_DRR_OFFSET; lia). cbn [dev set_inst].
  destruct (core_in_drr (dev s)) as (v & Ha & Hx & Hv & He).
  { change (view (dev s)) with (vw s). rewrite Ev. cbn [v_rx tview]. by rewrite (seg_cons j i ans y). }
  apply adv_quiet in Ha; [|change (view (dev s)) with (vw s); rewrite Ev; apply quiet_empty]. apply (isr_same _ _ _ _ Ha) in He. change (view (dev s)) with (vw s) in Ha.
  subst v. rewrite Ev in Hx, Hv. unfold tview, read_drr in Hx, Hv. cbn in Hx, Hv. rewrite (seg_cons j i ans y) in Hx, Hv by done. cbn in Hx, Hv.
  rewrite Hx. set (d := (bus_in8 (base + XSP_DRR_OFFSET) (dev s)).2) in *.
  assert (u32 (u32 (BytesTransferred (Stats I0) + Z.of_nat j) + 1) = u32 (BytesTransferred (Stats I0) + Z.of_nat (Datatypes.S j))) as Eu.
  { unfold u32. rewrite Zplus_mod_idemp_l. f_equal. lia. }
  assert (forall s', inst s' = tinst i (Datatypes.S j) -> dev s' = d -> (forall a, xmem s' a = tmem (Datatypes.S j) a) -> calls s' = c0 ->
    prog c g e i i (Datatypes.S j) s') as Hdone.
  { intros s' Hi Hd Hm Hc. constructor; try done; [unfold vw; by rewrite Hd|unfold err in *; rewrite Hd, He; done|lia]. }
  destruct (decide (recv = 0)) as [Er|Er].
  - rewrite (bool_decide_eq_true_2 (recv = 0)), bool_decide_eq_true_2 by done. wp_pure. split; [done|]. apply Hdone; [|done| |done].
    + cbn [inst set_inst set_dev]. rewrite Ei. unfold tinst. rewrite bool_decide_eq_true_2 by done. rewrite <- Eu. reflexivity.
    + intros a. cbn [xmem set_inst set_dev]. rewrite Em. unfold tmem. rewrite Er. by rewrite !bool_decide_eq_false_2 by (intros []; done).
  - rewrite (bool_decide_eq_false_2 (recv = 0)), bool_decide_eq_false_2 by lia. unfold store8. wp_pure. split; [done|]. apply Hdone; [|done| |done].
    + cbn [inst set_inst set_dev set_xmem]. rewrite Ei. unfold tinst. rewrite bool_decide_eq_false_2 by done. rewrite <- Eu.
      replace (recv + Z.of_nat j + 1) with (recv + Z.of_nat (Datatypes.S j)) by lia. reflexivity.
    + intros a. cbn [xmem set_inst set_dev set_xmem]. rewrite Em. by apply tmem_store.
Qed.

Lemma drain_loop_spec c g e i fuel : forall j s x count,
  prog c g e i i j s -> (i - j < fuel)%nat -> is_u32 count -> sr_ok depth (tview c g e i i j) x ->
  wp (drain_loop fuel x count) s
    (λ r s', (Z.of_nat i - Z.of_nat j <= count -> r = count - (Z.of_nat i - Z.of_nat j)) ∧ prog c g e i i i s').
Proof.
  induction fuel as [|fuel IH]; intros j s x count Hp Hf Hcnt (Hx & _); [lia|]. cbn [drain_loop].
  destruct (g_order _ _ _ _ _ _ _ Hp) as (Ho & Hi & Hd). destruct (decide (j = i)) as [->|Hne].
  - rewrite bool_decide_eq_false_2; [apply wp_ret; split; [lia|done]|]. rewrite Hx. cbn [v_rx tview]. rewrite seg_nil. auto.
  - rewrite bool_decide_eq_true_2.
    2: { apply Hx. cbn [v_rx tview]. intros E. apply seg_empty in E; [lia|rewrite ans_length; lia]. }
    apply wp_bind. eapply wp_mono; [apply (recv_data_spec _ _ _ _ _ _ Hp); lia|]. intros n s1 [-> Hp1]. apply wp_bind.
    eapply wp_status_quiet; [exact Hp1|apply quiet_empty|]. intros s2 x2 Hp2 Hx2.
    eapply wp_mono; [apply (IH (Datatypes.S j) s2 x2 (u32 (count - 1)) Hp2); [lia|apply u32_range|done]|]. intros r s3 [Hr Hp3]. split; [|done].
    intros Hle. rewrite u32_small in Hr by (unfold is_u32 in *; lia). rewrite Hr by lia. lia.
Qed.

Lemma wait_loop_spec c g e i j fuel : forall k s,
  prog c g e i k j s -> Z.testbit c 8 = false -> (latency (dev s) < fuel)%nat -> wp (wait_loop fuel) s (λ _ s', prog c g e i i j s').
Proof.
  induction fuel as [|fuel IH]; intros k s Hp Hc Hf; [lia|]. cbn [wait_loop]. apply wp_bind.
  apply wp_status_reg; [by eapply prog_ours|]. intros v d x Ha Hd He (_ & _ & Hx & _) Hl. apply (prog_errors _ _ _ _ _ _ _ _ _ Hp) in He.
  destruct (prog_adv _ _ _ _ _ _ _ _ Hp Ha) as (k' & Hk & -> & Hkq). destruct (g_order _ _ _ _ _ _ _ Hp) as (Ho & Hi & Hdp).
  assert (prog c g e i k' j (set_dev d s)) as Hp' by (eapply prog_dev; [exact Hp|done|done|lia]).
  destruct (decide (k' = i)) as [->|Hne].
  { rewrite bool_decide_eq_false_2; [by apply wp_ret|]. rewrite Hx. cbn [v_tx tview]. rewrite seg_nil. auto. }
  assert (forall k, (k <= i)%nat -> k ≠ i -> seg k i A ≠ []) as Hseg by (intros k1 Hk1 Hki E; apply seg_empty in E; lia).
  rewrite bool_decide_eq_true_2 by (apply Hx; apply Hseg; [lia|done]).
  apply (IH k'); [done|done|]. cbn [dev set_dev]. rewrite (g_view _ _ _ _ _ _ _ Hp) in Hl. cbn [v_tx tview] in Hl. rewrite seg_length in Hl by lia.
  destruct (Hl ltac:(lia)) as [[Hq|Hq]|[Hq|Hq]]; [|cbn [v_cr tview] in Hq; congruence|by destruct (Hseg k' ltac:(lia) Hne Hq)|lia].
  destruct (Hseg k ltac:(lia)); [intros ->; lia|done].
Qed.

(** The control register of a controller that does not transmit. *)
Lemma wp_control_quiet c x g e i k j s (Q : unit -> xst D -> Prop) :
  prog c g e i k j s -> quiet (tview c g e i k j) -> is_u16 x -> Z.testbit x 5 = false ∧ Z.testbit x 6 = false ->
  (forall s', prog (Z.land x 0x19F) g e i k j s' -> Q tt s') -> wp (XSpi_mSetControlReg x) s Q.
Proof.
  intros Hp Hq Hu [H5 H6] HQ. apply wp_set_control; [by eapply prog_ours|done|]. intros v Ha d Hd He. apply (prog_errors _ _ _ _ _ _ _ _ _ Hp) in He.
  apply adv_quiet in Ha; [|by rewrite (g_view _ _ _ _ _ _ _ Hp)].
  apply HQ. eapply prog_dev; [exact Hp| |done|destruct (g_order _ _ _ _ _ _ _ Hp); lia].
  by rewrite Hd, Ha, (g_view _ _ _ _ _ _ _ Hp), write_cr_keep.
Qed.
Lemma wp_get_control_quiet c g e i k j s (Q : Z -> xst D -> Prop) :
  prog c g e i k j s -> quiet (tview c g e i k j) -> (forall s' x, prog c g e i k j s' -> cr_read x c -> Q x s') -> wp XSpi_mGetControlReg s Q.
Proof.
  intros Hp Hq HQ. apply wp_get_control; [by eapply prog_ours|]. intros v x Ha Hx d Hd He. apply (prog_errors _ _ _ _ _ _ _ _ _ Hp) in He.
  apply adv_quiet in Ha; [|by rewrite (g_view _ _ _ _ _ _ _ Hp)].
  rewrite Ha, (g_view _ _ _ _ _ _ _ Hp) in *. apply HQ; [|done]. eapply prog_dev; [exact Hp|done|done|destruct (g_order _ _ _ _ _ _ _ Hp); lia].
Qed.

(** Setting the inhibit bit in what was read. *)
Lemma lor_no_reset c x : ctl_ok c -> cr_read x c ∨ cr_read x (run_cr c) ->
  Z.testbit (Z.lor x XSP_CR_TRANS_INHIBIT_MASK) 5 = false ∧ Z.testbit (Z.lor x XSP_CR_TRANS_INHIBIT_MASK) 6 = false.
Proof. intros Hc Hx. rewrite !Z.lor_spec. by destruct (ctl_no_reset c x Hc Hx) as [-> ->]. Qed.

Lemma inhibit_spec c c' g e i j s :
  ctl_ok c -> c' = c ∨ c' = run_cr c -> prog c' g e i i j s -> wp inhibit s (λ _ s', prog c g e i i j s').
Proof.
  intros Hc Hx Hp. unfold inhibit. apply wp_bind. eapply wp_get_control_quiet; [exact Hp|apply quiet_empty|]. intros s1 x Hp1 Hr.
  assert (cr_read x c ∨ cr_read x (run_cr c)) as Hr' by (destruct Hx as [<- | <-]; auto).
  eapply wp_control_quiet; [exact Hp1|apply quiet_empty|apply u16_lor; [apply Hr|done]|by apply (lor_no_reset c)|]. intros s2. by rewrite (ctl_set c).
Qed.
Lemma uninhibit_spec c g e i k j s :
  ctl_ok c -> prog c g e i k j s -> wp uninhibit s (λ _ s', prog (run_cr c) g e i k j s').
Proof.
  intros Hc Hp. unfold uninhibit. apply wp_bind. eapply wp_get_control_quiet; [exact Hp|apply quiet_inhibited, Hc|]. intros s1 x Hp1 Hr.
  eapply wp_control_quiet; [exact Hp1|apply quiet_inhibited, Hc|by apply u16_land| |].
  - rewrite !Z.land_spec. by destruct (ctl_no_reset c x Hc) as [-> ->]; [left|].
  - intros s2. by rewrite (ctl_clear c).
Qed.

(** One round: what is under way arrives, is stored, and the FIFO is filled again. *)
Lemma drained_round c g e i k j F s count :
  ctl_ok c -> prog (run_cr c) g e i k j s -> (length A < F)%nat -> (max_latency < F)%nat -> is_u32 count ->
  wp (wait_loop F;; inhibit;; sr ← XSpi_mGetStatusReg; drain_loop F sr count) s
    (λ r s', (Z.of_nat i - Z.of_nat j <= count -> r = count - (Z.of_nat i - Z.of_nat j)) ∧ prog c g e i i i s').
Proof.
  intros Hc Hp HF HL Hcnt. destruct (g_order _ _ _ _ _ _ _ Hp) as (Ho & Hi & Hd).
  pose proof (core_latency (dev s)) as Hlat. change (view (dev s)) with (vw s) in Hlat. rewrite (g_view _ _ _ _ _ _ _ Hp) in Hlat.
  cbn [v_tx tview] in Hlat. rewrite seg_length in Hlat by lia.
  apply wp_bind. eapply wp_mono; [apply (wait_loop_spec (run_cr c) g e i j F k s Hp); [apply run_cr_8|lia]|]. intros [] s1 Hp1.
  apply wp_bind. eapply wp_mono; [eapply (inhibit_spec c (run_cr c)); [done|by right|exact Hp1]|]. intros [] s2 Hp2.
  apply wp_bind. eapply wp_status_quiet; [exact Hp2|apply quiet_empty|]. intros s3 x Hp3 Hx. by apply drain_loop_spec; [|lia|..].
Qed.

Lemma poll_loop_spec c g e F fuel : ctl_ok c -> (length A < F)%nat -> (max_latency < F)%nat -> forall i k j s,
  prog (run_cr c) g e i k j s -> (j < i ∨ j = length A)%nat -> (length A - j < fuel)%nat ->
  wp (poll_loop F fuel (Z.of_nat (length A) - Z.of_nat j)) s
    (λ _ s', exists x, (x = c ∨ x = run_cr c) ∧ prog x g e (length A) (length A) (length A) s').
Proof.
  intros Hc HF HL. induction fuel as [|fuel IH]; intros i k j s Hp Hij Hf; [lia|]. cbn [poll_loop].
  destruct (g_order _ _ _ _ _ _ _ Hp) as (Ho & Hi & Hd). case_bool_decide as Hpos.
  2: { apply wp_ret. exists (run_cr c). split; [by right|]. assert (j = length A) as -> by lia. assert (i = length A) as -> by lia.
       by assert (k = length A) as -> by lia. }
  pose proof (drained_round c g e i k j F s (Z.of_nat (length A) - Z.of_nat j) Hc Hp HF HL ltac:(unfold is_u32; lia)) as Hround.
  apply wp_round. eapply wp_mono; [exact Hround|]. intros r s1 [Hr Hp1]. rewrite Hr by lia. clear Hr Hround.
  replace (Z.of_nat (length A) - Z.of_nat j - (Z.of_nat i - Z.of_nat j)) with (Z.of_nat (length A) - Z.of_nat i) by lia.
  unfold fld. wp_pure. rewrite (g_inst _ _ _ _ _ _ _ Hp1).
  cbn [RemainingBytes tinst set_SendBufferPtr set_RecvBufferPtr set_RemainingBytes].
  apply wp_bind. case_bool_decide as Hrem.
  - apply wp_bind. eapply wp_status_quiet; [exact Hp1|apply quiet_empty|]. intros s2 x Hp2 Hx.
    apply wp_bind. eapply wp_mono; [apply (fill_loop_spec c g e i F i s2 x Hp2); [apply Hc|lia|done]|]. intros [] s3 (i' & Hle & Hend & Hp3).
    eapply wp_mono; [by apply (uninhibit_spec c)|]. intros [] s4 Hp4.
    apply (IH i' i i s4 Hp4); [pose proof (core_depth (SpiCore := core)); lia|lia].
  - apply wp_ret. assert (i = length A) as -> by lia. destruct fuel as [|fuel]; [lia|]. cbn [poll_loop].
    rewrite bool_decide_eq_false_2 by lia. apply wp_ret. exists c. split; [by left|done].
Qed.
End transfer.

(** ** A whole transfer *)

(** Ready for a transfer with the control register [c], global interrupt
    enable [g] and interrupt enable [e]. *)
Record spi_idle (c g e : Z) s : Prop := {
  id_ours : ours s;
  id_ready : IsReady (inst s) = true;
  id_started : IsStarted (inst s) = true;
  id_busy : IsBusy (inst s) = false;
  id_width : DataWidth (inst s) = XSP_DATAWIDTH_BYTE;
  id_count : is_u32 (BytesTransferred (Stats (inst s)));
  id_ctl : ctl_ok c;
  id_regs : v_cr (vw s) = c ∧ v_gie (vw s) = g ∧ v_ier (vw s) = e;
  id_fifos : v_tx (vw s) = [] ∧ v_rx (vw s) = [];
}.

(** The buffers of a transfer of the bytes [l]: an answer is not stored over
    a byte that is sent after it. *)
Record buffers (send recv : Z) (l : list Z) s : Prop := {
  bu_send : send ≠ 0 ∧ forall i x, l !! i = Some x -> xmem s (send + Z.of_nat i) = x;
  bu_recv : 0 <= recv;
  bu_len : 0 < Z.of_nat (length l) < 2^32;
  bu_sep : recv = 0 ∨ forall i j, (j < i < length l)%nat -> recv + Z.of_nat j ≠ send + Z.of_nat i;
}.

(** The instance of a transfer under way. *)
Definition busy_inst (n : Z) (i : XSpi) : XSpi := set_RequestedBytes n (set_IsBusy true i).

Section whole.
Context (c g e send recv : Z) (A : list Z) s.
Hypothesis Hidle : spi_idle c g e s.
Hypothesis Hbuf : buffers send recv A s.
Hypothesis Hslave : no_slave c (inst s) = false.

Definition under_way c g e i k j s' : Prop :=
  prog (busy_inst (Z.of_nat (length A)) (inst s)) send recv A (xmem s) (v_slave (vw s)) (SlaveSelectReg (inst s)) (err s) (calls s) c g e i k j s'.

Lemma busy_start :
  set_RemainingBytes (Z.of_nat (length A)) (set_RequestedBytes (Z.of_nat (length A)) (set_RecvBufferPtr recv (set_SendBufferPtr send (set_IsBusy true (inst s)))))
    = tinst (busy_inst (Z.of_nat (length A)) (inst s)) send recv A 0 0.
Proof.
  pose proof (id_count _ _ _ _ Hidle) as Hu. unfold tinst, busy_inst. rewrite !Z.add_0_r, Z.sub_0_r.
  assert ((if bool_decide (recv = 0) then 0 else recv) = recv) as -> by (by case_bool_decide).
  change (Stats (set_RequestedBytes (Z.of_nat (length A)) (set_IsBusy true (inst s)))) with (Stats (inst s)). rewrite u32_small by done.
  by destruct (inst s) as [[]].
Qed.

Lemma busy_ours : BaseAddr (busy_inst (Z.of_nat (length A)) (inst s)) = base.
Proof. apply (id_ours _ _ _ _ Hidle). Qed.
Lemma busy_width : DataWidth (busy_inst (Z.of_nat (length A)) (inst s)) = XSP_DATAWIDTH_BYTE.
Proof. apply (id_width _ _ _ _ Hidle). Qed.

(** Until the transmitter starts. *)
Lemma transfer_start F (Q : xstatus -> xst D -> Prop) :
  (length A < F)%nat ->
  (forall i s', (i = length A ∨ i = depth) -> under_way (run_cr c) 0 e i 0 0 s' ->
    wp (if bool_decide (g = XSP_GINTR_ENABLE_MASK) then
          XSpi_mIntrEnable XSP_INTR_TX_EMPTY_MASK;; XSpi_mIntrGlobalEnable;; mret XST_SUCCESS
        else transfer_polled F (Z.of_nat (length A))) s' Q) ->
  wp (XSpi_Transfer F send recv (Z.of_nat (length A))) s Q.
Proof.
  intros HF HQ. destruct (Hidle) as [Ho Hr Hst Hb Hw Hu Hc (Hcr & Hg & He) (Htx & Hrx)]. destruct (Hbuf) as [[Hs0 Hs] Hrv Hl Hsp].
  assert (quiet (vw s)) as Hq by by left.
  unfold XSpi_Transfer, fld. wp_pure. rewrite Hr. rewrite (bool_decide_eq_false_2 (send = 0)), bool_decide_eq_true_2 by (done || lia).
  cbn [negb andb xassert]. wp_pure. rewrite Hst. cbn [negb]. wp_pure. rewrite Hb. unfold XSpi_mIsIntrGlobalEnabled. wp_pure. apply wp_get_gie; [done|].
  intros v Ha d Hd Hed. apply adv_quiet in Ha; [|done]. apply (isr_same _ _ _ _ Ha) in Hed. rewrite Ha, Hg in *. wp_pure.
  set (s1 := set_dev d s). assert (vw s1 = vw s) as Ev1 by done.
  apply wp_bind, wp_set_gie; [done|]. intros v1 Ha1 d1 Hd1 Hed1. apply adv_quiet in Ha1; [|rewrite Ev1; exact Hq].
  apply (isr_same _ _ _ _ Ha1) in Hed1. rewrite Ha1, Ev1 in Hd1.
  set (s2 := set_dev d1 s1). apply wp_bind, wp_get_control; [done|]. intros v2 x2 Ha2 Hx2 d2 Hd2 Hed2.
  assert (vw s2 = write_gie 0 (vw s)) as Ev2 by done. apply adv_quiet in Ha2; [|rewrite Ev2; by left].
  apply (isr_same _ _ _ _ Ha2) in Hed2. rewrite Ha2, Ev2 in *. cbn [v_cr write_gie] in Hx2. rewrite Hcr in Hx2.
  wp_pure. change (inst (set_dev d2 s2)) with (inst s). unfold id. rewrite (no_slave_read _ _ _ Hx2), Hslave.
  set (s3 := set_dev d2 s2). assert (vw s3 = write_gie 0 (vw s)) as Ev3 by done.
  apply wp_bind, wp_set_ssr; [done|]. intros v3 Ha3 d3 Hd3 Hed3. apply adv_quiet in Ha3; [|rewrite Ev3; by left].
  apply (isr_same _ _ _ _ Ha3) in Hed3. rewrite Ha3, Ev3 in Hd3.
  unfold upd. wp_pure.
  set (s4 := set_inst _ _). assert (under_way c 0 e 0 0 0 s4) as Hp.
  { constructor; try done.
    - apply busy_start.
    - unfold vw, s4. cbn [dev set_inst set_dev]. rewrite Hd3. unfold write_ssr, write_gie, tview. cbn [v_cr v_gie v_ier v_ssr v_tx v_rx v_slave].
      by rewrite Hcr, He, Htx, Hrx, !seg_nil.
    - unfold err, s4. cbn [dev set_inst set_dev]. rewrite Hed3. unfold err, s3. cbn [dev set_dev]. rewrite Hed2. unfold err, s2. cbn [dev set_dev].
      rewrite Hed1. unfold err, s1. cbn [dev set_dev]. by rewrite Hed.
    - intros a. cbn [xmem set_inst set_dev s4]. unfold tmem. by rewrite bool_decide_eq_false_2 by lia.
    - lia. }
  apply wp_bind. eapply wp_status_quiet; [exact busy_ours|exact Hp|apply quiet_inhibited; apply Hc|]. intros s5 x5 Hp5 Hx5.
  apply wp_bind. eapply wp_mono; [eapply (fill_loop_spec _ send recv A (xmem s) _ _ _ _ busy_ours busy_width); [lia|exact Hs|exact Hrv|exact Hsp|exact Hp5|apply Hc|lia|exact Hx5]|].
  intros [] s6 (i' & Hle & Hend & Hp6). apply wp_bind. eapply wp_mono; [eapply uninhibit_spec; [exact busy_ours|done|exact Hp6]|].
  intros [] s7 Hp7. eapply HQ; [|exact Hp7]. lia.
Qed.
End whole.

(** ** Polled mode *)

(** The bytes [l] went to the selected slave, and its answers are in the
    receive buffer (unless that is NULL). *)
Record exchanged (recv : Z) (l : list Z) s s' : Prop := {
  ex_slave : v_slave (vw s') = (xrun (SlaveSelectReg (inst s)) l (v_slave (vw s))).2;
  ex_mem a : xmem s' a =
    if bool_decide (recv ≠ 0 ∧ recv <= a < recv + Z.of_nat (length l))
    then default 0 ((xrun (SlaveSelectReg (inst s)) l (v_slave (vw s))).1 !! Z.to_nat (a - recv)) else xmem s a;
  ex_count : BytesTransferred (Stats (inst s')) = u32 (BytesTransferred (Stats (inst s)) + Z.of_nat (length l));
  ex_select : SlaveSelectReg (inst s') = SlaveSelectReg (inst s) ∧ SlaveSelectMask (inst s') = SlaveSelectMask (inst s);
  ex_ssr : v_ssr (vw s') = SlaveSelectMask (inst s);
}.

(** The end of a transfer: deselect, not busy. *)
Lemma transfer_end c g e g' e' send recv l I s s' :
  spi_idle c g e s ->
  (I = busy_inst (Z.of_nat (length l)) (inst s) ∨
   exists m, I = set_Stats (set_NumInterrupts m (Stats (inst s))) (busy_inst (Z.of_nat (length l)) (inst s))) ->
  inst s' = set_IsBusy false (tinst I send recv l (length l) (length l)) ->
  vw s' = write_ssr (SlaveSelectMask I)
    (tview l (v_slave (vw s)) (SlaveSelectReg (inst s)) c g' e' (length l) (length l) (length l)) ->
  (forall a, xmem s' a = tmem recv l (xmem s) (v_slave (vw s)) (SlaveSelectReg (inst s)) (length l) a) ->
  spi_idle c g' e' s' ∧ exchanged recv l s s'.
Proof.
  intros [Ho Hr Hst Hb Hw Hu Hc Hregs Hfifo] HI Hi' Hv Hm.
  assert (BaseAddr I = base ∧ IsReady I = true ∧ IsStarted I = true ∧ DataWidth I = XSP_DATAWIDTH_BYTE ∧ SlaveSelectReg I = SlaveSelectReg (inst s) ∧
    SlaveSelectMask I = SlaveSelectMask (inst s) ∧ BytesTransferred (Stats I) = BytesTransferred (Stats (inst s))) as (IB & IR & IS & IW & IL & IM & IC)
    by (destruct HI as [->|[m ->]]; done). clear HI. split.
  - constructor; unfold ours; rewrite ?Hi', ?Hv; [exact IB|exact IR|exact IS|done|exact IW|apply u32_range|done|done|].
    split; apply seg_nil.
  - constructor; [|done|..]; rewrite ?Hi', ?Hv.
    + cbn [v_slave tview write_ssr]. by rewrite firstn_all.
    + change (u32 (BytesTransferred (Stats I) + Z.of_nat (length l)) = u32 (BytesTransferred (Stats (inst s)) + Z.of_nat (length l))). by rewrite IC.
    + exact (conj IL IM).
    + exact IM.
Qed.

Lemma polled_spec c e send recv l F s :
  spi_idle c 0 e s -> buffers send recv l s -> no_slave c (inst s) = false -> (length l < F)%nat -> (max_latency < F)%nat ->
  wp (XSpi_Transfer F send recv (Z.of_nat (length l))) s (λ r s',
    r = XST_SUCCESS ∧ spi_idle c 0 e s' ∧ exchanged recv l s s' ∧ calls s' = calls s ∧ err s' = err s).
Proof.
  intros Hidle Hbuf Hsl HF HL. eapply transfer_start; [exact Hidle|done|done|lia|]. intros i s1 Hi Hp.
  rewrite bool_decide_eq_false_2 by done. pose proof (id_ctl _ _ _ _ Hidle) as Hc'. destruct (Hbuf) as [[Hs0 Hs] Hrv Hl Hsp].
  unfold transfer_polled. apply wp_bind. pose proof (core_depth (SpiCore := core)) as Hd.
  replace (Z.of_nat (length l)) with (Z.of_nat (length l) - Z.of_nat 0) by lia.
  eapply wp_mono; [eapply poll_loop_spec; [apply (busy_ours c 0 e); exact Hidle|apply (busy_width c 0 e); exact Hidle|lia|exact Hs|done|done|done|done|done|exact Hp|lia|lia]|].
  intros [] s2 (x & Hx & Hp2). apply wp_bind. eapply wp_mono; [eapply inhibit_spec; [apply (busy_ours c 0 e); exact Hidle|done|exact Hx|exact Hp2]|].
  intros [] s3 Hp3. unfold fld. wp_pure. apply wp_bind, wp_set_ssr; [eapply prog_ours; [|exact Hp3]; apply (busy_ours c 0 e); exact Hidle|].
  intros v Ha d Hdv Hde. apply adv_quiet in Ha; [|rewrite (g_view _ _ _ _ _ _ _ _ _ _ _ _ _ _ _ _ Hp3); apply quiet_empty]. apply (isr_same _ _ _ _ Ha) in Hde.
  unfold upd. wp_pure. split; [done|]. destruct Hp3 as [Ei Ev Ee Em Ec Eo]. rewrite Ev in Ha. rewrite Ei in Hdv.
  destruct (transfer_end c 0 e 0 e send recv l (busy_inst (Z.of_nat (length l)) (inst s)) s
    (set_inst (set_IsBusy false (inst (set_dev d s3))) (set_dev d s3))) as [Hid Hex]; [done|by left| | |done|].
  - cbn [inst set_inst set_dev]. by rewrite Ei.
  - unfold vw. cbn [dev set_inst set_dev]. by rewrite Hdv, Ha.
  - split_and!; [done|done|done|]. unfold err in *. cbn [dev set_inst set_dev]. by rewrite Hde.
Qed.

(** ** Interrupt mode *)

(** An interrupt reaches the processor. *)
Definition pending s : bool :=
  bool_decide (v_gie (vw s) = XSP_GINTR_ENABLE_MASK) && negb (bool_decide (Z.land (isr (dev s)) (v_ier (vw s)) = 0)).

(** The processor waits for interrupts, at most [n] of them. *)
Fixpoint service (F n : nat) : ST (xst D) unit :=
  match n with
  | O => skip
  | Datatypes.S n =>
      modify (λ s, set_dev (core_run (dev s)) s);;
      p ← gets pending;
      if (p : bool) then XSpi_InterruptHandler F;; service F n else skip
  end.

(** The instance after one more interrupt. *)
Definition bump (I : XSpi) : XSpi := set_Stats (set_NumInterrupts (u32 (NumInterrupts (Stats I) + 1)) (Stats I)) I.

Lemma bump_tinst I send recv l i j : bump (tinst I send recv l i j) = tinst (bump I) send recv l i j.
Proof. done. Qed.

Lemma no_error q m : errors_of q = 0 -> Z.land XSP_INTR_DFT_MASK m = m -> Z.land q m = 0.
Proof. unfold errors_of. intros H <-. by rewrite Z.land_assoc, H. Qed.

Lemma wp_intr_status s (Q : Z -> xst D -> Prop) :
  ours s -> quiet (vw s) -> (forall d, view d = vw s -> isr d = isr (dev s) -> Q (isr (dev s)) (set_dev d s)) -> wp XSpi_mIntrGetStatus s Q.
Proof.
  intros Hb Hq HQ. unfold XSpi_mIntrGetStatus, reg_in32, fld. wp_pure. rewrite Hb. apply wp_in32. rewrite reg_addr by (unfold XSP_IISR_OFFSET; lia).
  destruct (core_in_isr (dev s) Hq) as (Hx & Hi & Hv). cbv zeta in *. rewrite Hx. by apply HQ.
Qed.

(** Reading and clearing the interrupts. *)
Lemma wp_take_interrupts s (Q : Z -> xst D -> Prop) :
  ours s -> quiet (vw s) -> (forall d, view d = vw s -> isr d = 0 -> Q (isr (dev s)) (set_dev d s)) ->
  wp (x ← XSpi_mIntrGetStatus; XSpi_mIntrClear x;; mret x) s Q.
Proof.
  intros Hb Hq HQ. apply wp_bind, wp_intr_status; [done|done|]. intros d Hv Hi. apply wp_bind. unfold XSpi_mIntrClear.
  apply wp_bind, wp_intr_status; [done|unfold vw; cbn [dev set_dev]; by rewrite Hv|]. intros d1 Hv1 Hi1.
  unfold reg_out32, fld, XIo_Out32. wp_pure. cbn [inst set_dev dev]. rewrite Hb, reg_addr by (unfold XSP_IISR_OFFSET; lia).
  unfold vw in Hv1. cbn [dev set_dev] in Hv1, Hi1.
  destruct (core_out_isr (Z.lor (isr d) (isr (dev s))) d1) as [Hi2 Hv2]; [rewrite Hv1, Hv; exact Hq|]. cbv zeta in *.
  apply HQ; [by rewrite Hv2, Hv1|]. rewrite Hi2, Hi1, Hi, Z.lor_diag. apply Z.lxor_nilpotent.
Qed.

Lemma wp_take {B} (m : ST (xst D) Z) (f : Z -> ST (xst D) unit) (k : Z -> ST (xst D) B) s Q :
  wp (x ← m; f x;; mret x) s (λ x s', wp (k x) s' Q) -> wp (x ← m; f x;; k x) s Q.
Proof.
  intros H. apply wp_run in H as (x & s' & E & HQ). apply wp_run in HQ as (b & s'' & E' & HQ). apply wp_run. exists b, s''. split; [|done].
  unfold mbind, st_bind in *. destruct (m s) as [[y s1]|]; [|done]. destruct (f y s1) as [[[] s2]|]; [|done]. injection E as -> ->. exact E'.
Qed.

Lemma report_none q m f event s (Q : unit -> xst D -> Prop) : Z.land q m = 0 -> Q tt s -> wp (report q m f event) s Q.
Proof. intros H HQ. unfold report. rewrite bool_decide_eq_true_2 by done. by apply wp_ret. Qed.

Section interrupt.
Context (c g e send recv : Z) (A : list Z) (m0 : Z -> Z) (w0 : S) (ss : Z) (c0 : list call).
Abbreviation run I := (prog I send recv A m0 w0 ss 0 c0).
Hypothesis Hc : ctl_ok c.
Hypothesis Hlen : Z.of_nat (length A) < 2^32.
Hypothesis Hsend : forall i x, A !! i = Some x -> m0 (send + Z.of_nat i) = x.
Hypothesis Hrecv : 0 <= recv.
Hypothesis Hsep : recv = 0 ∨ forall i j, (j < i < length A)%nat -> recv + Z.of_nat j ≠ send + Z.of_nat i.

(** The last interrupt of the transfer was handled. *)
Record finished (I : XSpi) s : Prop := {
  fi_inst : inst s = set_IsBusy false (tinst I send recv A (length A) (length A));
  fi_view : vw s = write_ssr (SlaveSelectMask I) (tview A w0 ss c g (Z.land e (u32 (Z.lnot XSP_INTR_TX_EMPTY_MASK))) (length A) (length A) (length A));
  fi_err : err s = 0;
  fi_mem a : xmem s a = tmem recv A m0 w0 ss (length A) a;
  fi_calls : calls s = c0 ++ [(StatusHandler I, StatusRef I, XST_SPI_TRANSFER_DONE, RequestedBytes I)];
}.

Lemma handle_tx_empty_spec I F i j s :
  BaseAddr I = base -> DataWidth I = XSP_DATAWIDTH_BYTE -> (length A < F)%nat -> run I (run_cr c) g e i i j s ->
  wp (handle_tx_empty F) s (λ _ s',
    (exists i', (i < i')%nat ∧ run I (run_cr c) g e i' i i s') ∨ (i = length A ∧ finished I s')).
Proof.
  intros Hb Hw HF Hp. destruct (g_order _ _ _ _ _ _ _ _ _ _ _ _ _ _ _ _ Hp) as (Ho & Hi & Hd). destruct (Hc) as [_ H8].
  unfold handle_tx_empty. apply wp_bind. eapply wp_get_control_quiet; [exact Hb|exact Hp|apply quiet_empty|]. intros s1 cr Hp1 Hcr.
  apply wp_bind. eapply wp_control_quiet; [exact Hb|exact Hp1|apply quiet_empty|apply u16_lor; [apply Hcr|done]|by apply (lor_no_reset c); [|right]|].
  rewrite (ctl_set c) by (done || by right). intros s2 Hp2.
  apply wp_bind. eapply wp_status_quiet; [exact Hb|exact Hp2|apply quiet_empty|]. intros s3 x3 Hp3 Hx3.
  apply wp_bind. eapply wp_mono; [eapply (drain_loop_spec I send recv A m0); [exact Hb|exact Hw|done|exact Hp3|lia|unfold is_u32; lia|exact Hx3]|]. intros r s4 [_ Hp4].
  unfold fld. wp_pure. rewrite (g_inst _ _ _ _ _ _ _ _ _ _ _ _ _ _ _ _ Hp4).
  cbn [RemainingBytes tinst set_SendBufferPtr set_RecvBufferPtr set_RemainingBytes]. case_bool_decide as Hrem.
  - apply wp_bind. eapply wp_status_quiet; [exact Hb|exact Hp4|apply quiet_empty|]. intros s5 x5 Hp5 Hx5.
    apply wp_bind. eapply wp_mono; [eapply (fill_loop_spec I send recv A m0); [exact Hb|exact Hw|done|exact Hsend|done|exact Hsep|exact Hp5|done|lia|exact Hx5]|]. intros [] s6 (i' & Hle & Hend & Hp6).
    eapply wp_control_quiet; [exact Hb|exact Hp6|by apply quiet_inhibited|apply Hcr|by apply (ctl_no_reset c); [|right]|].
    rewrite (ctl_back c) by done. intros s7 Hp7. left. exists i'. split; [pose proof (core_depth (SpiCore := core)); lia|done].
  - assert (i = length A) as -> by lia. wp_pure. apply wp_bind, wp_set_ssr; [eapply prog_ours; [exact Hb|exact Hp4]|].
    intros v Ha d Hdv Hde. apply adv_quiet in Ha; [|rewrite (g_view _ _ _ _ _ _ _ _ _ _ _ _ _ _ _ _ Hp4); apply quiet_empty]. apply (isr_same _ _ _ _ Ha) in Hde.
    destruct Hp4 as [Ei Ev Ee Em Ec Eo]. rewrite Ev in Ha. rewrite Ha in Hdv. rewrite Ei in *.
    set (s5 := set_dev d s4). assert (ours s5) as Ho5 by (unfold ours; cbn [inst set_dev s5]; by rewrite Ei).
    assert (quiet (vw s5)) as Hq5 by (left; unfold vw; cbn [dev set_dev s5]; rewrite Hdv; apply seg_nil).
    unfold XSpi_mIntrDisable. apply wp_bind, wp_bind, wp_get_ier; [done|]. intros v1 x1 Ha1 Hx1 d1 Hd1 He1. apply adv_quiet in Ha1; [|done]. apply (isr_same _ _ _ _ Ha1) in He1.
    apply wp_set_ier; [done|]. intros v2 Ha2 d2 Hd2 He2. apply adv_quiet in Ha2; [|unfold vw; cbn [dev set_dev]; rewrite Hd1, Ha1; exact Hq5]. apply (isr_same _ _ _ _ Ha2) in He2.
    unfold upd, call_handler, fld. wp_pure. right. split; [done|].
    assert (view d2 = MkView (v_cr (view d)) (v_gie (view d)) (Z.land e (u32 (Z.lnot XSP_INTR_TX_EMPTY_MASK))) (v_ssr (view d)) (v_tx (view d)) (v_rx (view d)) (v_slave (view d))) as Evd.
    { rewrite Hd2, Ha2. unfold vw. cbn [dev set_dev]. rewrite Hd1, Ha1. unfold vw. cbn [dev set_dev s5]. unfold ier_ok in Hx1. rewrite Ha1 in Hx1.
      change (vw s5) with (view d) in Hx1. rewrite Hdv in Hx1 |- *. cbn [v_ier tview write_ssr] in Hx1. unfold write_ier. f_equal. rewrite <- Hx1.
      rewrite (Z.land_comm x1), <- Z.land_assoc, (Z.land_comm (Z.land x1 _)). done. }
    constructor.
    + cbn [inst set_inst set_dev set_calls s5]. by rewrite Ei.
    + unfold vw. cbn [dev set_inst set_dev set_calls]. by rewrite Evd, Hdv.
    + unfold err in *. cbn [dev set_inst set_dev set_calls] in *. rewrite He2. cbn [dev set_dev]. rewrite He1. cbn [dev set_dev s5]. by rewrite Hde.
    + intros a. cbn [xmem set_inst set_dev set_calls s5]. apply Em.
    + cbn [calls inst set_inst set_dev set_calls s5]. by rewrite Ec, Ei.
Qed.

Lemma handler_spec I F i j s :
  BaseAddr I = base -> DataWidth I = XSP_DATAWIDTH_BYTE -> (length A < F)%nat -> run I (run_cr c) g e i i j s -> Z.testbit (isr (dev s)) 2 = true ->
  wp (XSpi_InterruptHandler F) s (λ _ s',
    (exists i', (i < i')%nat ∧ run (bump I) (run_cr c) g e i' i i s') ∨ (i = length A ∧ finished (bump I) s')).
Proof.
  intros Hb Hw HF Hp Hq. unfold XSpi_InterruptHandler, upd_stats, upd. wp_pure.
  set (s1 := set_inst _ s). assert (run (bump I) (run_cr c) g e i i j s1) as Hp1.
  { destruct Hp as [Ei Ev Ee Em Ec Eo]. constructor; try done. cbn [inst set_inst s1]. rewrite Ei. apply bump_tinst. }
  pose proof (g_err _ _ _ _ _ _ _ _ _ _ _ _ _ _ _ _ Hp) as Herr.
  apply wp_take, wp_take_interrupts; [eapply (prog_ours (bump I)); [exact Hb|exact Hp1]| |].
  { rewrite (g_view _ _ _ _ _ _ _ _ _ _ _ _ _ _ _ _ Hp1). apply quiet_empty. }
  intros d Hd Hi. change (isr (dev s1)) with (isr (dev s)).
  rewrite (no_error _ XSP_INTR_MODE_FAULT_MASK), (bool_decide_eq_true_2 (0 = 0)) by done. cbn [negb].
  rewrite bool_decide_eq_false_2.
  2: { intros H0. apply (f_equal (λ z, Z.testbit z 2)) in H0. rewrite Z.land_spec, Hq in H0. discriminate H0. }
  assert (run (bump I) (run_cr c) g e i i j (set_dev d s1)) as Hp2.
  { eapply prog_dev; [exact Hp1|by rewrite Hd, (g_view _ _ _ _ _ _ _ _ _ _ _ _ _ _ _ _ Hp1)| |destruct (g_order _ _ _ _ _ _ _ _ _ _ _ _ _ _ _ _ Hp1); lia].
    rewrite Hi. change (err s1) with (err s). by rewrite Herr. }
  apply wp_bind. eapply wp_mono; [apply (handle_tx_empty_spec (bump I) F i j _ Hb Hw HF Hp2)|]. intros [] s' Hres. cbn beta.
  apply wp_bind, report_none; [by apply no_error|]. apply wp_bind, report_none; [by apply no_error|]. apply report_none; [by apply no_error|]. exact Hres.
Qed.

(** After some interrupts. *)
Definition bumps (n : nat) (I : XSpi) : XSpi := Nat.iter n bump I.

Lemma bumps_stats n I : exists m, bumps n I = set_Stats (set_NumInterrupts m (Stats I)) I.
Proof.
  induction n as [|n [m IH]]; [exists (NumInterrupts (Stats I)); by destruct I as [[]]|].
  exists (u32 (m + 1)). change (bumps (Datatypes.S n) I) with (bump (bumps n I)). by rewrite IH.
Qed.

Lemma run_core I i k j s :
  run I (run_cr c) g e i k j s -> (k < i)%nat ∨ Z.testbit (isr (dev s)) 2 = true ->
  run I (run_cr c) g e i i j (set_dev (core_run (dev s)) s) ∧ Z.testbit (isr (core_run (dev s))) 2 = true.
Proof.
  intros Hp Hk. destruct (g_order _ _ _ _ _ _ _ _ _ _ _ _ _ _ _ _ Hp) as (Ho & Hi & Hd). pose proof (g_view _ _ _ _ _ _ _ _ _ _ _ _ _ _ _ _ Hp) as Hv.
  unfold vw in Hv. destruct (decide (k = i)) as [->|Hne].
  { destruct Hk as [|Hk]; [lia|]. destruct (core_waits (dev s)) as [Hv' He']; [rewrite Hv; apply quiet_empty|]. split; [|by apply He'; left].
    eapply prog_dev; [exact Hp|by rewrite Hv', Hv|by apply (isr_same _ _ _ _ eq_refl) in He'|lia]. }
  destruct (core_runs (dev s)) as (Hv' & He).
  { rewrite Hv. intros [Hq|Hq]; cbn [v_tx v_cr tview] in Hq; [apply seg_empty in Hq; lia|rewrite run_cr_8 in Hq; done]. }
  assert (view (core_run (dev s)) = tview A w0 ss (run_cr c) g e i i j) as Hvr.
  { rewrite Hv', Hv. cbn [v_tx tview]. rewrite seg_length by lia. rewrite tview_exch by lia. f_equal. lia. }
  split; [eapply prog_dev; [exact Hp|exact Hvr|by apply (prog_errors _ _ _ _ _ _ _ _ _ _ _ _ _ _ _ _ _ _ Hp) in He|lia]|].
  apply He. right. rewrite Hv, Hvr. cbn [v_tx tview]. split; [intros Hq; apply seg_empty in Hq; lia|apply seg_nil].
Qed.

Hypothesis Hg : g = XSP_GINTR_ENABLE_MASK.
Hypothesis He : e = Z.lor XSP_INTR_DFT_MASK XSP_INTR_TX_EMPTY_MASK.

Lemma service_done F n I s : finished I s -> wp (service F n) s (λ _ s', finished I s').
Proof.
  intros Hf. destruct n as [|n]; [by apply wp_ret|]. cbn [service]. wp_pure. destruct Hf as [Hi Hv Her Hm Hca].
  destruct (core_waits (dev s)) as [Hv' He'%(isr_same _ _ _ _ eq_refl)].
  { change (view (dev s)) with (vw s). rewrite Hv. left. apply seg_nil. }
  assert (finished I (set_dev (core_run (dev s)) s)) as Hf'.
  { constructor; try done; [unfold vw in *; cbn [dev set_dev]; congruence|unfold err in *; cbn [dev set_dev]; congruence]. }
  assert (pending (set_dev (core_run (dev s)) s) = false) as ->.
  { unfold pending. rewrite (fi_view _ _ Hf'), He. cbn [v_ier tview write_ssr].
    change (Z.land (Z.lor XSP_INTR_DFT_MASK XSP_INTR_TX_EMPTY_MASK) (u32 (Z.lnot XSP_INTR_TX_EMPTY_MASK))) with XSP_INTR_DFT_MASK.
    pose proof (fi_err _ _ Hf') as H0. unfold err, errors_of in H0. rewrite H0. apply andb_false_r. }
  by apply wp_ret.
Qed.

Lemma service_spec F n : (length A < F)%nat -> forall I i k j s,
  BaseAddr I = base -> DataWidth I = XSP_DATAWIDTH_BYTE -> run I (run_cr c) g e i k j s -> (k < i)%nat ∨ Z.testbit (isr (dev s)) 2 = true ->
  (j < i)%nat -> (length A - j < n)%nat ->
  wp (service F n) s (λ _ s', exists m, finished (bumps m I) s').
Proof.
  intros HF. induction n as [|n IH]; intros I i k j s Hb Hw Hp Hk Hj Hn; [lia|]. cbn [service]. wp_pure.
  destruct (run_core I i k j s Hp Hk) as [Hp1 Hbit]. set (s1 := set_dev _ s) in *.
  destruct (g_order _ _ _ _ _ _ _ _ _ _ _ _ _ _ _ _ Hp) as (Ho & Hi & Hd).
  assert (pending s1 = true) as ->.
  { unfold pending. rewrite (g_view _ _ _ _ _ _ _ _ _ _ _ _ _ _ _ _ Hp1), He, Hg. cbn [v_gie v_ier tview]. rewrite bool_decide_eq_true_2 by done.
    rewrite bool_decide_eq_false_2; [done|]. intros H0. apply (f_equal (λ z, Z.testbit z 2)) in H0. rewrite Z.land_spec in H0.
    change (isr (dev s1)) with (isr (core_run (dev s))) in H0. rewrite Hbit in H0. discriminate H0. }
  apply wp_bind. eapply wp_mono; [apply (handler_spec I F i j s1 Hb Hw HF Hp1 Hbit)|]. intros [] s2 [(i' & Hi' & Hp2)|[-> Hf]].
  - eapply wp_mono; [apply (IH (bump I) i' i i s2 Hb Hw Hp2); [by left|lia|lia]|]. intros [] s3 [m Hf]. exists (Datatypes.S m).
    unfold bumps in *. by rewrite Nat.iter_succ_r.
  - eapply wp_mono; [by apply service_done|]. intros [] s3 Hf3. by exists 1%nat.
Qed.
End interrupt.

(** *** The whole transfer *)

(** Time passes while a transfer is under way. *)
Lemma prog_step I send recv l m0 w0 ss e0 c0 c g e i k j s v d :
  prog I send recv l m0 w0 ss e0 c0 c g e i k j s -> adv depth xchg (vw s) v -> isr_step depth (vw s) v (isr (dev s)) (isr d) ->
  (k < i)%nat ∨ Z.testbit (isr (dev s)) 2 = true ->
  exists k', (j <= k' <= i)%nat ∧ v = tview l w0 ss c g e i k' j ∧ ((k' < i)%nat ∨ Z.testbit (isr d) 2 = true) ∧ errors_of (isr d) = err s.
Proof.
  intros Hp Ha He Hk. pose proof (prog_errors _ _ _ _ _ _ _ _ _ _ _ _ _ _ _ _ _ _ Hp He) as Her. destruct He as (_ & _ & Hb). destruct (prog_adv _ _ _ _ _ _ _ _ _ _ _ _ _ _ _ _ _ Hp Ha) as (k' & Hk' & -> & _).
  destruct (g_order _ _ _ _ _ _ _ _ _ _ _ _ _ _ _ _ Hp) as (Ho & Hi & Hd). exists k'. split_and!; [lia|lia|done| |done].
  destruct (decide (k' = i)) as [->|]; [|left; lia]. right. apply Hb. destruct Hk as [Hk|Hk]; [|by left]. right.
  rewrite (g_view _ _ _ _ _ _ _ _ _ _ _ _ _ _ _ _ Hp). cbn [v_tx tview]. rewrite seg_nil. split; [|done].
  intros E. apply seg_empty in E; lia.
Qed.

(** The interrupt of the transmitter is enabled. *)
Lemma enable_spec I send recv l m0 w0 ss e0 c0 c g e i k j s :
  BaseAddr I = base -> prog I send recv l m0 w0 ss e0 c0 c g e i k j s -> (k < i)%nat ->
  wp (XSpi_mIntrEnable XSP_INTR_TX_EMPTY_MASK;; XSpi_mIntrGlobalEnable;; mret XST_SUCCESS) s (λ r s', r = XST_SUCCESS ∧ exists k',
    prog I send recv l m0 w0 ss e0 c0 c XSP_GINTR_ENABLE_MASK (Z.lor e XSP_INTR_TX_EMPTY_MASK) i k' j s' ∧
    ((k' < i)%nat ∨ Z.testbit (isr (dev s')) 2 = true)).
Proof.
  intros Hb Hp Hk. unfold XSpi_mIntrEnable. apply wp_bind, wp_bind, wp_get_ier; [by eapply prog_ours|]. intros v x Ha Hx d Hd He.
  destruct (prog_step _ _ _ _ _ _ _ _ _ _ _ _ _ _ _ _ _ d Hp Ha He) as (k1 & Hk1 & -> & Hb1 & He1); [by left|]. unfold ier_ok in Hx. cbn [v_ier tview] in Hx.
  assert (prog I send recv l m0 w0 ss e0 c0 c g e i k1 j (set_dev d s)) as Hp1 by (eapply prog_dev; [exact Hp|done|done|lia]).
  change (Z.land XSP_INTR_TX_EMPTY_MASK XSP_INTR_ALL) with XSP_INTR_TX_EMPTY_MASK.
  apply wp_set_ier; [by eapply prog_ours|]. intros v2 Ha2 d2 Hd2 He2.
  destruct (prog_step _ _ _ _ _ _ _ _ _ _ _ _ _ _ _ _ _ d2 Hp1 Ha2 He2) as (k2 & Hk2 & -> & Hb2 & Hr2); [done|].
  assert (prog I send recv l m0 w0 ss e0 c0 c g (Z.lor e XSP_INTR_TX_EMPTY_MASK) i k2 j (set_dev d2 (set_dev d s))) as Hp2.
  { eapply prog_dev; [exact Hp1| |done|lia]. rewrite Hd2. unfold write_ier. by rewrite Z.land_lor_distr_l, Hx. }
  apply wp_bind, wp_set_gie; [by eapply prog_ours|]. intros v3 Ha3 d3 Hd3 He3.
  destruct (prog_step _ _ _ _ _ _ _ _ _ _ _ _ _ _ _ _ _ d3 Hp2 Ha3 He3) as (k3 & Hk3 & -> & Hb3 & Hr3); [done|].
  apply wp_ret. split; [done|]. exists k3. split; [|done]. eapply prog_dev; [exact Hp2|by rewrite Hd3|done|lia].
Qed.

Lemma interrupt_spec c send recv l F n s :
  spi_idle c XSP_GINTR_ENABLE_MASK XSP_INTR_DFT_MASK s -> buffers send recv l s -> no_slave c (inst s) = false -> err s = 0 ->
  (length l < F)%nat -> (length l < n)%nat ->
  wp (r ← XSpi_Transfer F send recv (Z.of_nat (length l)); service F n;; mret r) s (λ r s',
    r = XST_SUCCESS ∧ spi_idle c XSP_GINTR_ENABLE_MASK XSP_INTR_DFT_MASK s' ∧ exchanged recv l s s' ∧ err s' = 0 ∧
    calls s' = calls s ++ [(StatusHandler (inst s), StatusRef (inst s), XST_SPI_TRANSFER_DONE, Z.of_nat (length l))]).
Proof.
  intros Hidle Hbuf Hsl Herr HF Hn. apply wp_bind. eapply transfer_start; [exact Hidle|done|done|lia|]. intros i s1 Hi Hp.
  rewrite bool_decide_eq_true_2 by done. pose proof (id_ctl _ _ _ _ Hidle) as Hc'. destruct (Hbuf) as [[Hs0 Hs] Hrv Hl Hsp].
  pose proof (core_depth (SpiCore := core)) as Hd. unfold under_way in Hp. rewrite Herr in Hp.
  pose proof (busy_ours _ _ _ l _ Hidle) as Hb. pose proof (busy_width _ _ _ l _ Hidle) as Hw.
  eapply wp_mono; [eapply enable_spec; [exact Hb|exact Hp|lia]|]. intros r s2 [-> (k & Hp2 & Hk)].
  apply wp_bind. eapply wp_mono; [eapply (service_spec c _ _ send recv l (xmem s)); [done|lia|exact Hs|done|exact Hsp|reflexivity|reflexivity|done|exact Hb|exact Hw|exact Hp2|exact Hk|lia|lia]|].
  intros [] s3 [m Hf]. apply wp_ret. split; [done|].
  destruct (bumps_stats m (busy_inst (Z.of_nat (length l)) (inst s))) as [q Hq].
  destruct Hf as [Fi Fv Fe Fm Fc]. rewrite Hq in Fi, Fv, Fc.
  destruct (transfer_end c XSP_GINTR_ENABLE_MASK XSP_INTR_DFT_MASK XSP_GINTR_ENABLE_MASK XSP_INTR_DFT_MASK send recv l _ s s3 Hidle
    (or_intror (ex_intro _ q eq_refl)) Fi Fv Fm) as [Hid Hex]. done.
Qed.

(** ** Rejected transfers *)

Lemma rejects_spec F send recv n s :
  ours s -> IsReady (inst s) = true -> send ≠ 0 -> 0 < n -> quiet (vw s) ->
  wp (XSpi_Transfer F send recv n) s (λ r s',
    (IsStarted (inst s) = false -> r = XST_DEVICE_IS_STOPPED ∧ s' = s) ∧
    (IsStarted (inst s) = true -> IsBusy (inst s) = true -> r = XST_DEVICE_BUSY ∧ s' = s) ∧
    (IsStarted (inst s) = true -> IsBusy (inst s) = false -> no_slave (v_cr (vw s)) (inst s) = true ->
      r = XST_SPI_NO_SLAVE ∧ vw s' = write_gie XSP_GINTR_ENABLE_MASK (vw s) ∧ inst s' = inst s ∧ xmem s' = xmem s ∧ calls s' = calls s))
  ∨ (IsStarted (inst s) = true ∧ IsBusy (inst s) = false ∧ no_slave (v_cr (vw s)) (inst s) = false).
Proof.
  intros Ho Hr Hs Hn Hq. destruct (IsStarted (inst s)) eqn:Hst; [destruct (IsBusy (inst s)) eqn:Hb; [|destruct (no_slave (v_cr (vw s)) (inst s)) eqn:Hns; [|by right]]|];
    left; unfold XSpi_Transfer, fld; wp_pure; rewrite Hr, (bool_decide_eq_false_2 (send = 0)), bool_decide_eq_true_2 by done; cbn [negb andb xassert]; wp_pure; rewrite Hst; cbn [negb]; wp_pure; rewrite ?Hb; wp_pure; try naive_solver.
  unfold XSpi_mIsIntrGlobalEnabled. wp_pure. apply wp_get_gie; [done|]. intros v Ha d Hd _. apply adv_quiet in Ha; [|done]. subst v. wp_pure.
  apply wp_bind, wp_set_gie; [done|]. intros v Ha d1 Hd1 _. apply adv_quiet in Ha; [|unfold vw; cbn [dev set_dev]; by rewrite Hd]. subst v.
  apply wp_bind, wp_get_control; [done|]. intros v x Ha Hx d2 Hd2 _.
  assert (view d1 = write_gie 0 (vw s)) as Ev1 by (rewrite Hd1; unfold vw; cbn [dev set_dev]; by rewrite Hd).
  assert (v = write_gie 0 (vw s)) as -> by (apply adv_quiet in Ha; unfold vw in *; cbn [dev set_dev] in *; rewrite Ev1 in *; done).
  cbn [v_cr write_gie] in Hx. wp_pure. change (id (inst (set_dev d2 (set_dev d1 (set_dev d s))))) with (inst s). rewrite (no_slave_read _ _ _ Hx), Hns.
  clear Ha. apply wp_bind, wp_set_gie; [done|]. intros v Ha d3 Hd3 _. apply adv_quiet in Ha; [|unfold vw; cbn [dev set_dev]; by rewrite Hd2].
  apply wp_ret. split_and!; [done|done|]. intros _ _ _. split_and!; [done| |done|done|done]. unfold vw. cbn [dev set_dev].
  rewrite Hd3, Ha. unfold vw. cbn [dev set_dev]. by rewrite Hd2.
Qed.

(** ** Options *)

Lemma land_bit x k : 0 <= k -> Z.land x (2^k) = 0 <-> Z.testbit x k = false.
Proof.
  intros Hk. split; intros H.
  - apply (f_equal (λ z, Z.testbit z k)) in H. rewrite Z.land_spec, Z.pow2_bits_true, Z.bits_0 in H by lia. by rewrite andb_true_r in H.
  - apply Z.bits_inj'. intros i Hi. rewrite Z.land_spec, Z.bits_0. destruct (decide (i = k)) as [->|Hne]; [by rewrite H|].
    rewrite Z.pow2_bits_false by lia. apply andb_false_r.
Qed.

(** One round of the loops over the table, for the option bit [j] and the register bit [k]. *)
Lemma set_bit_step o j k cr i :
  0 <= j -> 0 <= k < 16 -> 0 <= i < 16 ->
  Z.testbit (if bool_decide (Z.land o (2^j) = 0) then Z.land cr (u16 (Z.lnot (2^k))) else Z.lor cr (2^k)) i =
    if bool_decide (i = k) then Z.testbit o j else Z.testbit cr i.
Proof.
  intros Hj Hk Hi. assert (Z.testbit (2^k) i = bool_decide (i = k)) as Hp.
  { case_bool_decide; [subst; apply Z.pow2_bits_true; lia|apply Z.pow2_bits_false; lia]. }
  assert (Z.testbit (u16 (Z.lnot (2^k))) i = negb (bool_decide (i = k))) as Hn.
  { unfold u16. rewrite Z.mod_pow2_bits_low, Z.lnot_spec, Hp by lia. done. }
  destruct (decide (Z.land o (2^j) = 0)) as [E|E].
  - rewrite bool_decide_eq_true_2, Z.land_spec, Hn by done. apply land_bit in E; [|lia]. rewrite E. case_bool_decide; [apply andb_false_r|apply andb_true_r].
  - rewrite bool_decide_eq_false_2, Z.lor_spec, Hp by done. rewrite land_bit in E by lia. apply not_false_is_true in E. rewrite E.
    case_bool_decide; [apply orb_true_r|apply orb_false_r].
Qed.

Lemma set_bits_u16 o cr : is_u16 cr -> is_u16 (set_bits OptionsTable o cr).
Proof.
  assert (forall t cr, Forall (λ p, is_u16 p.2) t -> is_u16 cr -> is_u16 (set_bits t o cr)) as H.
  { intros t. induction t as [|[w m] t IH]; intros x Ht Hx; [done|]. apply list.Forall_cons in Ht as [Hm Ht]. cbn [set_bits]. apply IH; [done|].
    case_bool_decide; [apply u16_land; apply u16_range|by apply u16_lor]. }
  apply H. unfold OptionsTable. repeat constructor; vm_compute; congruence.
Qed.

(** The control register after the options [o] are set. *)
Lemma set_bits_spec o cr i : 0 <= i < 16 ->
  Z.testbit (set_bits OptionsTable o cr) i =
    if bool_decide (i = 7) then Z.testbit o 4 else if bool_decide (i = 2) then Z.testbit o 0 else
    if bool_decide (i = 4) then Z.testbit o 2 else if bool_decide (i = 3) then Z.testbit o 1 else
    if bool_decide (i = 0) then Z.testbit o 3 else Z.testbit cr i.
Proof.
  intros Hi. unfold OptionsTable. cbn [set_bits].
  change XSP_LOOPBACK_OPTION with (2^3). change XSP_CLK_ACTIVE_LOW_OPTION with (2^1). change XSP_CLK_PHASE_1_OPTION with (2^2).
  change XSP_MASTER_OPTION with (2^0). change XSP_MANUAL_SSELECT_OPTION with (2^4).
  change XSP_CR_LOOPBACK_MASK with (2^0). change XSP_CR_CLK_POLARITY_MASK with (2^3). change XSP_CR_CLK_PHASE_MASK with (2^4).
  change XSP_CR_MASTER_MODE_MASK with (2^2). change XSP_CR_MANUAL_SS_MASK with (2^7).
  by rewrite !set_bit_step by lia.
Qed.

Lemma get_bits_spec cr i : 0 <= i ->
  Z.testbit (get_bits OptionsTable cr 0) i =
    (bool_decide (i = 3) && Z.testbit cr 0) || (bool_decide (i = 1) && Z.testbit cr 3) || (bool_decide (i = 2) && Z.testbit cr 4) ||
    (bool_decide (i = 0) && Z.testbit cr 2) || (bool_decide (i = 4) && Z.testbit cr 7).
Proof.
  intros Hi. assert (forall f k j, 0 <= j -> 0 <= k -> Z.testbit (if bool_decide (Z.land cr (2^k) = 0) then f else Z.lor f (2^j)) i =
    Z.testbit f i || (bool_decide (i = j) && Z.testbit cr k)) as Hstep.
  { intros f k j Hj Hk. destruct (decide (Z.land cr (2^k) = 0)) as [E|E].
    - rewrite bool_decide_eq_true_2 by done. apply land_bit in E; [|lia]. by rewrite E, andb_false_r, orb_false_r.
    - rewrite bool_decide_eq_false_2, Z.lor_spec by done. rewrite land_bit in E by lia. apply not_false_is_true in E. rewrite E, andb_true_r. f_equal.
      case_bool_decide; [subst; apply Z.pow2_bits_true; lia|apply Z.pow2_bits_false; lia]. }
  unfold OptionsTable. cbn [get_bits].
  change XSP_LOOPBACK_OPTION with (2^3). change XSP_CLK_ACTIVE_LOW_OPTION with (2^1). change XSP_CLK_PHASE_1_OPTION with (2^2).
  change XSP_MASTER_OPTION with (2^0). change XSP_MANUAL_SSELECT_OPTION with (2^4).
  change XSP_CR_LOOPBACK_MASK with (2^0). change XSP_CR_CLK_POLARITY_MASK with (2^3). change XSP_CR_CLK_PHASE_MASK with (2^4).
  change XSP_CR_MASTER_MODE_MASK with (2^2). change XSP_CR_MANUAL_SS_MASK with (2^7).
  by rewrite !Hstep, Z.bits_0 by lia.
Qed.

(** Bits 5 and 6 do not stay in the register, but are no options. *)
Lemma get_set_bits o cr : get_bits OptionsTable (Z.land (set_bits OptionsTable o cr) 0x19F) 0 = Z.land o 0x1F.
Proof.
  apply Z.bits_inj'. intros i Hi. rewrite get_bits_spec by done. rewrite !Z.land_spec, !set_bits_spec by lia.
  destruct (decide (i < 5)).
  - assert (i = 0 ∨ i = 1 ∨ i = 2 ∨ i = 3 ∨ i = 4) as [-> | [-> | [-> | [-> | ->]]]] by lia;
      repeat first [rewrite bool_decide_eq_true_2 by lia | rewrite bool_decide_eq_false_2 by lia];
      rewrite ?andb_false_l, ?andb_true_l, ?orb_false_l, ?orb_false_r; reflexivity.
  - rewrite (bool_decide_eq_false_2 (i = 0)), (bool_decide_eq_false_2 (i = 1)), (bool_decide_eq_false_2 (i = 2)), (bool_decide_eq_false_2 (i = 3)),
      (bool_decide_eq_false_2 (i = 4)) by lia. rewrite !andb_false_l. change 0x1F with (Z.ones 5). rewrite Z.ones_spec_high, andb_false_r by lia. done.
Qed.

(** Only the bits of the register matter of what was read. *)
Lemma get_bits_read x c : cr_read x c -> get_bits OptionsTable x 0 = get_bits OptionsTable c 0.
Proof. intros Hx. apply Z.bits_inj'. intros i Hi. by rewrite !get_bits_spec, !(cr_read_bit _ _ _ Hx) by lia. Qed.
Lemma set_bits_read o x c : cr_read x c -> Z.land (set_bits OptionsTable o x) 0x1FF = Z.land (set_bits OptionsTable o c) 0x1FF.
Proof.
  intros Hx. apply Z.bits_inj'. intros i Hi. rewrite !Z.land_spec. change 0x1FF with (Z.ones 9). destruct (decide (i < 9)).
  - by rewrite !set_bits_spec, (cr_read_bit _ _ _ Hx) by lia.
  - by rewrite Z.ones_spec_high, !andb_false_r by lia.
Qed.
Lemma write_cr_read o x v : cr_read x (v_cr v) -> write_cr (set_bits OptionsTable o x) v = write_cr (set_bits OptionsTable o (v_cr v)) v.
Proof.
  intros Hx%(set_bits_read o). unfold write_cr.
  assert (forall m, Z.land 0x1FF m = m -> Z.land (set_bits OptionsTable o x) m = Z.land (set_bits OptionsTable o (v_cr v)) m) as Hm.
  { intros m Hm. rewrite <- Hm, !Z.land_assoc. by rewrite Hx. }
  assert (forall i, i = 5 ∨ i = 6 -> Z.testbit (set_bits OptionsTable o x) i = Z.testbit (set_bits OptionsTable o (v_cr v)) i) as Hb.
  { intros i Hi. apply (f_equal (λ z, Z.testbit z i)) in Hx. rewrite !Z.land_spec in Hx. destruct Hi as [-> | ->]; by rewrite !andb_true_r in Hx. }
  by rewrite (Hm 0x19F), (Hb 5), (Hb 6) by auto.
Qed.

Lemma set_options_spec o s :
  ours s -> IsReady (inst s) = true -> IsBusy (inst s) = false -> Z.land o XSP_MASTER_OPTION = 0 ∨ SlaveOnly (inst s) = false ->
  quiet (vw s) -> is_u16 (v_cr (vw s)) ->
  wp (XSpi_SetOptions o) s (λ r s', r = XST_SUCCESS ∧ inst s' = inst s ∧ xmem s' = xmem s ∧ calls s' = calls s ∧
    vw s' = write_cr (set_bits OptionsTable o (v_cr (vw s))) (vw s) ∧ Z.land (v_cr (vw s)) 0x1FF = v_cr (vw s)).
Proof.
  intros Ho Hr Hb Hm Hq Hu. unfold XSpi_SetOptions, fld. wp_pure. rewrite Hr. cbn [xassert]. wp_pure. rewrite Hb. wp_pure.
  assert (negb (bool_decide (Z.land o XSP_MASTER_OPTION = 0)) && SlaveOnly (inst s) = false) as ->.
  { destruct Hm as [-> | ->]; [done|apply andb_false_r]. }
  apply wp_bind, wp_get_control; [done|]. intros v x Ha Hx d Hd _. apply adv_quiet in Ha; [|done]. subst v.
  apply wp_bind, wp_set_control; [done|by apply set_bits_u16, Hx|]. intros v Ha d1 Hd1 _.
  apply adv_quiet in Ha; [|unfold vw; cbn [dev set_dev]; by rewrite Hd]. apply wp_ret. split_and!; try done.
  - unfold vw in *. cbn [dev set_dev] in *. rewrite Hd1, Ha, Hd. by apply write_cr_read.
  - destruct Hx as [_ <-]. apply land_twice.
Qed.

Lemma options_spec o s :
  ours s -> IsReady (inst s) = true -> IsBusy (inst s) = false -> Z.land o XSP_MASTER_OPTION = 0 ∨ SlaveOnly (inst s) = false ->
  v_tx (vw s) = [] -> is_u16 (v_cr (vw s)) ->
  wp (r ← XSpi_SetOptions o; x ← XSpi_GetOptions; mret (r, x)) s (λ p s', p = (XST_SUCCESS, Z.land o 0x1F) ∧
    forall i, 0 <= i < 16 -> i ∉ [0; 2; 3; 4; 5; 6; 7] -> Z.testbit (v_cr (vw s')) i = Z.testbit (v_cr (vw s)) i).
Proof.
  intros Ho Hr Hb Hm Htx Hu. apply wp_bind. eapply wp_mono; [apply set_options_spec; try done; by left|].
  intros r s1 (-> & Hi & _ & _ & Hv & Hcr). unfold XSpi_GetOptions, fld. apply wp_bind. wp_pure. rewrite Hi, Hr. cbn [xassert]. wp_pure.
  apply wp_bind, wp_get_control; [unfold ours; by rewrite Hi|]. intros v x Ha Hx d Hd _.
  apply adv_quiet in Ha; [|rewrite Hv; left; cbn [v_tx write_cr]; rewrite Htx; by destruct (Z.testbit _ 5)]. subst v. wp_pure. rewrite Hv in Hx. cbn [v_cr write_cr] in Hx.
  rewrite (get_bits_read _ _ Hx), get_set_bits. split; [done|]. intros i Hi' Hn. unfold vw. cbn [dev set_dev]. rewrite Hd, Hv. cbn [v_cr write_cr].
  rewrite Z.land_spec, set_bits_spec by done. rewrite !bool_decide_eq_false_2 by set_solver.
  change (view (dev s)) with (vw s). rewrite <- Hcr, !Z.land_spec.
  assert (i = 1 ∨ 8 <= i) as [-> |H8] by (clear -Hi' Hn; set_unfold; lia); [by rewrite !andb_true_r|].
  assert (i = 8 ∨ 9 <= i) as [-> |H9] by lia; [by rewrite !andb_true_r|]. rewrite (Z.bits_above_log2 0x1FF), (Z.bits_above_log2 0x19F) by (simpl; lia).
  by rewrite !andb_false_r.
Qed.

(** ** The properties *)

(** C9: Over every controller with the documented registers and FIFOs, a transfer with the interrupts disabled returns success after it
    exchanged every byte of the send buffer with the selected slave, in order;
    the answers of the slave are in the receive buffer (also when it is the
    send buffer), the rest of memory and the registers are unchanged, and the
    driver is ready for the next transfer. The loops end: the fuel is more than the number of bytes and than
    the number of times that the status is read until the transmitter is empty. The controller is the only
    master (no mode fault), and transfers are byte wide. *)
Theorem transfer_polled_exchanges c e send recv l F s :
  spi_idle c 0 e s -> buffers send recv l s -> no_slave c (inst s) = false -> (length l < F)%nat -> (max_latency < F)%nat ->
  exists s', XSpi_Transfer F send recv (Z.of_nat (length l)) s = Some (XST_SUCCESS, s') ∧
    spi_idle c 0 e s' ∧ exchanged recv l s s' ∧ calls s' = calls s.
Proof.
  intros Hidle Hbuf Hsl HF HL. destruct (proj1 (wp_run _ _ _) (polled_spec c e send recv l F s Hidle Hbuf Hsl HF HL)) as (r & s' & E & -> & Hr). naive_solver.
Qed.


(** A transfer is refused without any effect when the device is stopped or
    a transfer is under way. Without a selected slave nothing is
    exchanged either, but the interrupts are enabled afterwards, also when
    they were disabled before. *)
Theorem transfer_rejects F send recv n s :
  ours s -> IsReady (inst s) = true -> send ≠ 0 -> 0 < n -> quiet (vw s) ->
  (IsStarted (inst s) = false -> XSpi_Transfer F send recv n s = Some (XST_DEVICE_IS_STOPPED, s)) ∧
  (IsStarted (inst s) = true -> IsBusy (inst s) = true -> XSpi_Transfer F send recv n s = Some (XST_DEVICE_BUSY, s)) ∧
  (IsStarted (inst s) = true -> IsBusy (inst s) = false -> no_slave (v_cr (vw s)) (inst s) = true ->
    exists s', XSpi_Transfer F send recv n s = Some (XST_SPI_NO_SLAVE, s') ∧
      vw s' = write_gie XSP_GINTR_ENABLE_MASK (vw s) ∧ inst s' = inst s ∧ xmem s' = xmem s ∧ calls s' = calls s).
Proof.
  intros Ho Hr Hs Hn Hq. destruct (rejects_spec F send recv n s Ho Hr Hs Hn Hq) as [Hw|(H1 & H2 & H3)].
  - apply wp_run in Hw as (r & s' & E & Ha & Hb & Hc). rewrite E. split_and!; naive_solver.
  - split_and!; congruence.
Qed.

(** C34: Setting options and reading them back gives the options that the
    controller has (the low five bits), and leaves the other bits of the
    control register as they were (but for the FIFO reset bits, which do
    not stay). *)
Theorem options_roundtrip o s :
  ours s -> IsReady (inst s) = true -> IsBusy (inst s) = false -> Z.land o XSP_MASTER_OPTION = 0 ∨ SlaveOnly (inst s) = false ->
  v_tx (vw s) = [] -> is_u16 (v_cr (vw s)) ->
  exists s', (r ← XSpi_SetOptions o; x ← XSpi_GetOptions; mret (r, x)) s = Some ((XST_SUCCESS, Z.land o 0x1F), s') ∧
    forall i, 0 <= i < 16 -> i ∉ [0; 2; 3; 4; 5; 6; 7] -> Z.testbit (v_cr (vw s')) i = Z.testbit (v_cr (vw s)) i.
Proof.
  intros Ho Hr Hb Hm Htx Hu. destruct (proj1 (wp_run _ _ _) (options_spec o s Ho Hr Hb Hm Htx Hu)) as (r & s' & E & -> & H). by exists s'.
Qed.
End driver.

(** ** Examples

    A slave that answers with the byte of the exchange before, on a controller
    with a FIFO of two bytes. *)
Section samples.
Definition echo (ss x w : Z) : Z * Z := (w, x).
#[local] Instance echo_bus : SpiBus soft := soft_bus 0x1000 2 echo.
#[local] Instance echo_core : SpiCore 0x1000 2 echo := soft_core 0x1000 2 echo ltac:(lia) ltac:(lia).

Definition sample_inst (started busy : bool) (ss : Z) : XSpi :=
  MkXSpi (MkStats 0 0 0 0 0 0) 0x1000 true started true false 1 XSP_DATAWIDTH_BYTE 1 ss 0 0 0 0 busy StubStatusHandler 0.
Definition sample_mem (a : Z) : Z := default 0 ([11; 12; 13; 14; 15] !! Z.to_nat (a - 100)).
Definition sample_xst (g : Z) : xst soft :=
  MkXst (sample_inst true false 0xFFFFFFFE) (Soft (MkView 0x19E g XSP_INTR_DFT_MASK 1 [] [] 7) 0) sample_mem [].

Lemma sample_idle g : spi_idle 0x19E g XSP_INTR_DFT_MASK (sample_xst g).
Proof. by constructor. Qed.

Lemma sample_buffers g : buffers 100 100 [11; 12; 13; 14; 15] (sample_xst g).
Proof.
  constructor; [|done|simpl; lia|right; lia]. split; [done|]. intros i x Hx.
  do 5 (destruct i as [|i]; [simpl in Hx; injection Hx as <-; reflexivity|]). done.
Qed.

Lemma transfer_polled_exchanges_witness : exists s',
  XSpi_Transfer 6 100 100 5 (sample_xst 0) = Some (XST_SUCCESS, s') ∧ exchanged 100 [11; 12; 13; 14; 15] (sample_xst 0) s'.
Proof.
  destruct (transfer_polled_exchanges 0x19E XSP_INTR_DFT_MASK 100 100 [11; 12; 13; 14; 15] 6 (sample_xst 0)
    (sample_idle 0) (sample_buffers 0)) as (s' & E & _ & Hx & _); [done|simpl; lia|simpl; lia|]. exists s'. exact (conj E Hx).
Defined.


Lemma transfer_rejects_witness :
  let s := MkXst (sample_inst true false 1) (Soft (MkView 0x19E 0 0 1 [] [] 7) 0) sample_mem [] in
  exists s', XSpi_Transfer 6 100 100 5 s = Some (XST_SPI_NO_SLAVE, s') ∧ v_gie (vw s') = XSP_GINTR_ENABLE_MASK.
Proof.
  intros s. destruct (transfer_rejects 6 100 100 5 s) as (_ & _ & H); [done|done|lia|lia|by left|].
  destruct H as (s' & E & Hv & _); [done..|]. exists s'. split; [exact E|]. by rewrite Hv.
Defined.

Lemma options_roundtrip_witness : exists s',
  (r ← XSpi_SetOptions 0x17; x ← XSpi_GetOptions; mret (r, x)) (sample_xst 0) = Some ((XST_SUCCESS, 0x17), s').
Proof.
  destruct (options_roundtrip 0x17 (sample_xst 0)) as (s' & E & _); [done..|by right|done|vm_compute; split; congruence|]. exists s'. exact E.
Defined.
End samples.
