(* ===== verification/MmcSpi.v ===== *)
(** * The card driver on the SPI driver

    The card driver of Mmc.v is written against the operations of the SPI
    driver, and its theorems are about the wire. Here the driver of Xspi.v, on any
    controller, implements these operations for a slave that sends a sequence
    of bytes, so that what was proved on the wire holds for the driver
    and the controller. *)

From S2P Require Import Prelude Mmc Xspi XspiCore.
Open Scope Z_scope.

Section setup.
Context {D S : Type} {bus : SpiBus D} {base : Z} {depth : nat} {xchg : Z -> Z -> S -> Z * S}
  {core : SpiCore (bus := bus) base depth xchg}.
Implicit Types (s : xst D) (v : spi_view S).

(** ** Accesses while nothing is transmitted *)

(** The state [s'] has the instance [i] and the view [v], and is otherwise [s]. *)
Record leads (i : XSpi) v s s' : Prop := {
  le_inst : inst s' = i;
  le_view : vw s' = v;
  le_err : err s' = err s;
  le_mem : xmem s' = xmem s;
  le_calls : calls s' = calls s;
}.

Lemma leads_trans i v i' v' s s1 s2 : leads i v s s1 -> leads i' v' s1 s2 -> leads i' v' s s2.
Proof. intros [] []. constructor; congruence. Qed.

Lemma leads_set_dev s v d : view d = v -> isr_step depth (vw s) (vw s) (isr (dev s)) (isr d) -> leads (inst s) v s (set_dev d s).
Proof. intros Hv He%(isr_same _ _ _ _ eq_refl). by constructor. Qed.

Lemma leads_upd f s : leads (f (inst s)) (vw s) s (set_inst (f (inst s)) s).
Proof. by constructor. Qed.

(** A read or a write that does not wait for the transmitter. *)
Ltac quiet_access lem :=
  let Hb := fresh in let Hq := fresh in let HQ := fresh in let Ha := fresh in
  intros Hb Hq HQ; apply lem; [done..|]; intros v Ha d Hd He; apply adv_quiet in Ha; [|exact Hq]; subst v; apply HQ;
  by eapply leads_set_dev.

Lemma quiet_set_ssr x s (Q : unit -> xst D -> Prop) :
  BaseAddr (inst s) = base -> quiet (vw s) -> (forall s', leads (inst s) (write_ssr x (vw s)) s s' -> Q tt s') ->
  wp (XSpi_mSetSlaveSelectReg x) s Q.
Proof. quiet_access (@wp_set_ssr D S bus base depth xchg core). Qed.
Lemma quiet_set_gie x s (Q : unit -> xst D -> Prop) :
  BaseAddr (inst s) = base -> quiet (vw s) -> (forall s', leads (inst s) (write_gie x (vw s)) s s' -> Q tt s') ->
  wp (reg_out32 XSP_DGIER_OFFSET x) s Q.
Proof. quiet_access (@wp_set_gie D S bus base depth xchg core). Qed.
Lemma quiet_set_ier x s (Q : unit -> xst D -> Prop) :
  BaseAddr (inst s) = base -> quiet (vw s) -> (forall s', leads (inst s) (write_ier x (vw s)) s s' -> Q tt s') ->
  wp (reg_out32 XSP_IIER_OFFSET x) s Q.
Proof. quiet_access (@wp_set_ier D S bus base depth xchg core). Qed.
Lemma quiet_set_control x s (Q : unit -> xst D -> Prop) :
  is_u16 x -> BaseAddr (inst s) = base -> quiet (vw s) -> (forall s', leads (inst s) (write_cr x (vw s)) s s' -> Q tt s') ->
  wp (XSpi_mSetControlReg x) s Q.
Proof. intros Hx. quiet_access (@wp_set_control D S bus base depth xchg core). Qed.
Lemma quiet_get_control s (Q : Z -> xst D -> Prop) :
  BaseAddr (inst s) = base -> quiet (vw s) -> (forall s' x, leads (inst s) (vw s) s s' -> cr_read x (v_cr (vw s)) -> Q x s') ->
  wp XSpi_mGetControlReg s Q.
Proof.
  intros Hb Hq HQ. apply wp_get_control; [done|]. intros v x Ha Hx d Hd He. apply adv_quiet in Ha; [|done]. subst v. apply HQ; [by apply leads_set_dev|done].
Qed.
Lemma quiet_get_ier s (Q : Z -> xst D -> Prop) :
  BaseAddr (inst s) = base -> quiet (vw s) -> (forall s' x, leads (inst s) (vw s) s s' -> ier_ok (vw s) x -> Q x s') ->
  wp (reg_in32 XSP_IIER_OFFSET) s Q.
Proof.
  intros Hb Hq HQ. apply wp_get_ier; [done|]. intros v x Ha Hx d Hd He. apply adv_quiet in Ha; [|done]. subst v. apply HQ; [by apply leads_set_dev|done].
Qed.

(** ** Setting the driver up *)

(** The instance that the driver makes of a configuration. *)
Definition init_inst (cfg : XSpi_Config) (ref : Z) : XSpi :=
  let mask := Z.shiftl 1 (cfg_NumSlaveBits cfg) - 1 in
  MkXSpi (MkStats 0 0 0 0 0 0) (BaseAddress cfg) true false (cfg_HasFifos cfg) (cfg_SlaveOnly cfg) (cfg_NumSlaveBits cfg)
    (if bool_decide (cfg_DataWidth cfg = 0) then XSP_DATAWIDTH_BYTE else cfg_DataWidth cfg) mask mask 0 0 0 0 false StubStatusHandler ref.

(** Runs updates of a known instance. *)
Ltac inst_pure :=
  repeat (lazymatch goal with
          | |- wp (gets _ ≫= _) _ _ => apply wp_bind, wp_gets
          | |- wp (modify _ ≫= _) _ _ => apply wp_bind, wp_modify
          | |- wp (skip ≫= _) _ _ => apply wp_bind, wp_ret
          end;
          cbn [inst set_inst Stats BaseAddr IsReady IsStarted HasFifos SlaveOnly NumSlaveBits DataWidth SlaveSelectMask SlaveSelectReg SendBufferPtr RecvBufferPtr RequestedBytes RemainingBytes IsBusy StatusHandler StatusRef
            set_Stats set_BaseAddr set_IsReady set_IsStarted set_HasFifos set_SlaveOnly set_NumSlaveBits set_DataWidth set_SlaveSelectMask
            set_SlaveSelectReg set_SendBufferPtr set_RecvBufferPtr set_RequestedBytes set_RemainingBytes set_IsBusy set_StatusHandler set_StatusRef]).

Lemma abort_spec s :
  BaseAddr (inst s) = base -> quiet (vw s) -> is_u16 (v_cr (vw s)) ->
  wp XSpi_Abort s (λ _ s', exists v, v_slave v = v_slave (vw s) ∧ quiet v ∧
    leads (set_IsBusy false (set_RequestedBytes 0 (set_RemainingBytes 0 (inst s)))) v s s').
Proof.
  intros Ho Hq Hu. unfold XSpi_Abort, fld, upd. wp_pure. apply wp_bind, quiet_set_ssr; [done|done|]. intros s1 L1. destruct (L1) as [E1 V1 _ _ _].
  apply wp_bind, quiet_get_control; [by rewrite E1|by rewrite V1|]. intros s2 cr L2 [Hcr _]. destruct (L2) as [E2 V2 _ _ _]. wp_pure.
  set (x := if HasFifos _ then _ else _).
  assert (is_u16 x) as Hx by (unfold x; destruct (HasFifos _); repeat apply u16_lor; done).
  assert (Z.testbit x 8 = true) as H8. { unfold x. destruct (HasFifos _); rewrite ?Z.lor_spec, ?orb_true_r; done. }
  apply wp_bind, quiet_set_control; [exact Hx|by rewrite E2, E1|by rewrite V2, V1|]. intros s3 L3. wp_pure.
  eexists (write_cr x (write_ssr _ (vw s))). split_and!; [done| |].
  - right. cbn [v_cr write_cr]. by rewrite Z.land_spec, H8.
  - rewrite V2, V1 in L3. pose proof (leads_trans _ _ _ _ _ _ _ (leads_trans _ _ _ _ _ _ _ L1 L2) L3) as [E3 V3 R3 M3 C3].
    constructor; [by cbn; rewrite E3, E2, E1|done..].
Qed.

Lemma reset_spec s :
  BaseAddr (inst s) = base -> IsReady (inst s) = true -> quiet (vw s) -> is_u16 (v_cr (vw s)) ->
  wp XSpi_Reset s (λ _ s', err s' = 0 ∧ (exists ssr, vw s' = reset_view ssr (vw s)) ∧ xmem s' = xmem s ∧ calls s' = calls s ∧
    inst s' = set_SlaveSelectReg (SlaveSelectMask (inst s)) (set_IsStarted false
      (set_IsBusy false (set_RequestedBytes 0 (set_RemainingBytes 0 (inst s)))))).
Proof.
  intros Ho Hr Hq Hu. unfold XSpi_Reset, fld, upd. wp_pure. rewrite Hr. cbn [xassert]. wp_pure.
  apply wp_bind. eapply wp_mono; [by apply abort_spec|]. intros [] s1 (v & Hv & Hqv & [E1 V1 R1 M1 C1]). wp_pure.
  unfold XSpi_mReset, reg_out32, fld, XIo_Out32. wp_pure. cbn [inst set_inst dev].
  assert (BaseAddr (inst s1) = base) as Ho1 by by rewrite E1.
  change (BaseAddr (set_SlaveSelectReg _ _)) with (BaseAddr (inst s1)). rewrite Ho1, reg_addr by (unfold XSP_SRR_OFFSET; lia).
  destruct (core_out_srr (dev s1)) as [Hi [ssr Hs]]. split_and!.
  - unfold err. cbn [dev set_dev set_inst]. by rewrite Hi.
  - exists ssr. unfold vw in *. cbn [dev set_dev set_inst]. rewrite Hs. unfold reset_view. by rewrite V1, Hv.
  - done.
  - done.
  - cbn [inst set_dev set_inst]. by rewrite E1.
Qed.

Lemma initialize_spec table id cfg s :
  XSpi_LookupConfig table id = Some cfg -> BaseAddress cfg = base -> 0 <= cfg_NumSlaveBits cfg < 31 ->
  IsStarted (inst s) = false -> quiet (vw s) -> is_u16 (v_cr (vw s)) ->
  wp (XSpi_Initialize table id) s (λ r s', r = XST_SUCCESS ∧ inst s' = init_inst cfg (StatusRef (inst s)) ∧ err s' = 0 ∧
    (exists ssr, vw s' = reset_view ssr (vw s)) ∧ xmem s' = xmem s ∧ calls s' = calls s).
Proof.
  intros Hl Hb Hn Hst Hq Hu. unfold XSpi_Initialize. rewrite Hl. unfold XSpi_CfgInitialize, fld, upd.
  destruct s as [[st ba rd sta fi so ns dw sm ss sp rp rq rm bu sh sr] d m cs].
  cbn [inst IsStarted] in Hst. subst sta. inst_pure. rewrite bool_decide_eq_true_2 by done. cbn [xassert]. inst_pure.
  apply wp_bind. eapply wp_mono; [by apply reset_spec|]. intros [] s1 (He & Hv & Hm & Hc & Hi). wp_pure. split_and!; try done.
Qed.

Lemma start_spec s :
  BaseAddr (inst s) = base -> IsReady (inst s) = true -> IsStarted (inst s) = false -> v_tx (vw s) = [] -> is_u16 (v_cr (vw s)) ->
  wp XSpi_Start s (λ r s', r = XST_SUCCESS ∧ leads (set_IsStarted true (inst s))
    (MkView (Z.land (Z.lor (v_cr (vw s)) 0x62) 0x19F) XSP_GINTR_ENABLE_MASK (Z.lor (v_ier (vw s)) XSP_INTR_DFT_MASK) (v_ssr (vw s)) [] [] (v_slave (vw s))) s s').
Proof.
  intros Ho Hr Hst Htx Hu. unfold XSpi_Start, fld, upd. wp_pure. rewrite Hr. cbn [xassert]. wp_pure. rewrite Hst. wp_pure.
  unfold XSpi_mIntrEnable. apply wp_bind, wp_bind, quiet_get_ier; [done|by left|]. intros s1 ie L1 Hie. destruct (L1) as [E1 V1 _ _ _].
  apply quiet_set_ier; [by rewrite E1|rewrite V1; by left|]. intros s2 L2. rewrite E1, V1 in L2.
  pose proof (leads_trans _ _ _ _ _ _ _ L1 L2) as L. clear L1 L2. wp_pure.
  pose proof (leads_trans _ _ _ _ _ _ _ L (leads_upd (set_IsStarted true) s2)) as L2. destruct L as [E2 V2 _ _ _]. set (s3 := set_inst _ s2) in *.
  assert (inst s3 = set_IsStarted true (inst s)) as E3 by (unfold s3; cbn [inst set_inst]; by rewrite E2).
  assert (write_ier (Z.lor ie (Z.land XSP_INTR_DFT_MASK XSP_INTR_ALL)) (vw s) =
    MkView (v_cr (vw s)) (v_gie (vw s)) (Z.lor (v_ier (vw s)) XSP_INTR_DFT_MASK) (v_ssr (vw s)) (v_tx (vw s)) (v_rx (vw s)) (v_slave (vw s))) as Ewr.
  { unfold write_ier. rewrite Z.land_lor_distr_l. unfold ier_ok in Hie. by rewrite Hie. }
  set (v1 := write_ier _ _) in *. assert (vw s3 = v1) as V3 by exact V2.
  apply wp_bind, quiet_get_control; [by rewrite E3|rewrite V3; by left|]. intros s4 cr L4 Hcr. rewrite E3, V3 in *. rewrite Ewr in Hcr. cbn [v_cr] in Hcr.
  destruct (L4) as [E4 V4 _ _ _].
  apply wp_bind, quiet_set_control; [apply u16_lor; [apply Hcr|done]|by rewrite E4|rewrite V4; by left|]. intros s5 L5. rewrite E4, V4 in L5. destruct (L5) as [E5 V5 _ _ _].
  assert (vw s5 = MkView (Z.land (Z.lor (v_cr (vw s)) 0x62) 0x19F) (v_gie (vw s)) (Z.lor (v_ier (vw s)) XSP_INTR_DFT_MASK) (v_ssr (vw s)) [] [] (v_slave (vw s))) as V5'.
  { rewrite V5, Ewr. unfold write_cr. cbn [v_cr v_gie v_ier v_ssr v_tx v_rx v_slave]. rewrite !Z.lor_spec, !orb_true_r, !Z.land_lor_distr_l. by rewrite (cr_read_stays _ _ Hcr). }
  apply wp_bind, quiet_set_gie; [by rewrite E5|rewrite V5'; by left|]. intros s6 L6. rewrite E5, V5' in L6. wp_pure. split; [done|].
  rewrite E2, V2 in L2. eapply leads_trans; [exact L2|]. eapply leads_trans; [exact L4|]. eapply leads_trans; [exact L5|exact L6].
Qed.
End setup.

(** ** Simulation of the card driver

    Two implementations of the SPI operations that give the same answers give
    the same results of the card driver. *)
Class SpiSim {D1 D2 : Type} {H1 : SpiMaster D1} {H2 : SpiMaster D2} (R : D1 -> D2 -> Prop) := {
  sim_transfer_ok l d1 d2 : R d1 d2 -> (0 < length l <= 512)%nat ->
    (Mmc.XSpi_Transfer l d1).1 = (Mmc.XSpi_Transfer l d2).1 ∧ R (Mmc.XSpi_Transfer l d1).2 (Mmc.XSpi_Transfer l d2).2;
  sim_select_ok m d1 d2 : R d1 d2 -> m = 0 ∨ m = 1 -> R (Mmc.XSpi_SetSlaveSelect m d1) (Mmc.XSpi_SetSlaveSelect m d2);
}.

Section sim.
Context {D1 D2 : Type} {H1 : SpiMaster D1} {H2 : SpiMaster D2} (R : D1 -> D2 -> Prop) {HR : SpiSim R}.

Record same (s1 : mmc D1) (s2 : mmc D2) : Prop := {
  sm_cmd : mmc_cmd s1 = mmc_cmd s2;
  sm_buf : sd_buf s1 = sd_buf s2;
  sm_spi : R (spi_sd s1) (spi_sd s2);
  sm_out : mmc_out s1 = mmc_out s2;
}.

(** Whatever the first program does, the second does as well. *)
Definition sim {A} (m1 : ST (mmc D1) A) (m2 : ST (mmc D2) A) : Prop := forall s1 s2 a s1',
  same s1 s2 -> m1 s1 = Some (a, s1') -> exists s2', m2 s2 = Some (a, s2') ∧ same s1' s2'.

Lemma sim_ret {A} (a : A) : sim (mret a) (mret a).
Proof. intros s1 s2 b s1' Hs [= <- <-]. by exists s2. Qed.
Lemma sim_skip : sim skip skip.
Proof. apply sim_ret. Qed.
Lemma sim_bind {A B} (m1 : ST (mmc D1) A) m2 (k1 : A -> ST (mmc D1) B) k2 :
  sim m1 m2 -> (forall a, sim (k1 a) (k2 a)) -> sim (m1 ≫= k1) (m2 ≫= k2).
Proof.
  intros Hm Hk s1 s2 b s1' Hs E. unfold mbind, st_bind in *. destruct (m1 s1) as [[a s]|] eqn:E1; [|done].
  destruct (Hm _ _ _ _ Hs E1) as (s' & -> & Hs'). by eapply Hk.
Qed.
Lemma sim_lift {A} (o : option A) : sim (lift o) (lift o).
Proof. intros s1 s2 a s1' Hs E. unfold lift in *. destruct o; [|done]. injection E as <- <-. by exists s2. Qed.
Lemma sim_gets {A} (f : mmc D1 -> A) (g : mmc D2 -> A) : (forall s1 s2, same s1 s2 -> f s1 = g s2) -> sim (gets f) (gets g).
Proof. intros Hf s1 s2 a s1' Hs [= <- <-]. exists s2. unfold gets. by rewrite (Hf s1 s2). Qed.
Lemma sim_modify (f : mmc D1 -> mmc D1) (g : mmc D2 -> mmc D2) : (forall s1 s2, same s1 s2 -> same (f s1) (g s2)) -> sim (modify f) (modify g).
Proof. intros Hf s1 s2 [] s1' Hs [= <-]. eexists. split; [reflexivity|]. by apply Hf. Qed.
Lemma sim_get_cmd : sim (gets mmc_cmd) (gets mmc_cmd).
Proof. apply sim_gets. by intros ?? []. Qed.
Lemma sim_get_buf : sim (gets sd_buf) (gets sd_buf).
Proof. apply sim_gets. by intros ?? []. Qed.
Lemma sim_set_cmd x : sim (modify (set_mmc_cmd x)) (modify (set_mmc_cmd x)).
Proof. apply sim_modify. intros ?? []. by constructor. Qed.
Lemma sim_set_buf x : sim (modify (set_sd_buf x)) (modify (set_sd_buf x)).
Proof. apply sim_modify. intros ?? []. by constructor. Qed.
Lemma sim_printf fmt args : sim (printf fmt args) (printf fmt args).
Proof. apply sim_modify. intros ?? [Hc Hb Hs Ho]. constructor; [done..|]. cbn [mmc_out set_mmc_out]. by rewrite Ho. Qed.
Lemma sim_if {A} (b : bool) (m1 m1' : ST (mmc D1) A) m2 m2' : sim m1 m2 -> sim m1' m2' -> sim (if b then m1 else m1') (if b then m2 else m2').
Proof. by destruct b. Qed.
Lemma sim_transfer l : (0 < length l <= 512)%nat -> sim (transfer l) (transfer l).
Proof.
  intros Hl s1 s2 a s1' [Hc Hb Hs Ho] E. unfold transfer in *. destruct (sim_transfer_ok l _ _ Hs Hl) as [Ha Hr].
  destruct (Mmc.XSpi_Transfer l (spi_sd s1)) as [r1 d1], (Mmc.XSpi_Transfer l (spi_sd s2)) as [r2 d2]. injection E as <- <-. cbn [fst snd] in *. subst r2.
  eexists. split; [reflexivity|]. by constructor.
Qed.
Lemma sim_select m : m = 0 ∨ m = 1 ->
  sim (modify (λ s, set_spi_sd (Mmc.XSpi_SetSlaveSelect m (spi_sd s)) s)) (modify (λ s, set_spi_sd (Mmc.XSpi_SetSlaveSelect m (spi_sd s)) s)).
Proof. intros Hm. apply sim_modify. intros ?? [Hc Hb Hs Ho]. constructor; [done|done|by apply sim_select_ok|done]. Qed.

(** A transfer of a part of an array. *)
Lemma sim_take_transfer {B} b n (k1 : list Z -> ST (mmc D1) B) k2 : 0 < n <= 512 -> (forall l, sim (k1 l) (k2 l)) ->
  sim (send ← lift (arr_take b n); r ← transfer send; k1 r) (send ← lift (arr_take b n); r ← transfer send; k2 r).
Proof.
  intros Hn Hk. unfold arr_take. case_decide as Hb.
  - change (sim (r ← transfer (take (Z.to_nat n) b); k1 r) (r ← transfer (take (Z.to_nat n) b); k2 r)).
    apply sim_bind; [|done]. apply sim_transfer. rewrite length_take. lia.
  - intros s1 s2 a s1' _ E. discriminate E.
Qed.

Lemma sim_take_transfer_last b n : 0 < n <= 512 ->
  sim (send ← lift (arr_take b n); transfer send) (send ← lift (arr_take b n); transfer send).
Proof.
  intros Hn. unfold arr_take. case_decide as Hb.
  - apply sim_transfer. rewrite length_take. lia.
  - intros s1 s2 a s1' _ E. discriminate E.
Qed.

Lemma sim_iter n i (f : Z -> ST (mmc D1) unit) g : (forall i, sim (f i) (g i)) -> sim (iter_up n i f) (iter_up n i g).
Proof. intros Hf. revert i. induction n as [|n IH]; intros i; simpl; [apply sim_ret|]. apply sim_bind; [apply Hf|intros _; apply IH]. Qed.
End sim.

Create HintDb sim.
#[export] Hint Resolve sim_ret sim_skip sim_lift sim_get_cmd sim_get_buf sim_set_cmd sim_set_buf sim_printf sim_if sim_select sim_iter : sim.

(** Decomposes a program into its statements. *)
Ltac sim_auto :=
  repeat (intros; first [apply sim_take_transfer; [done|done|] | by apply sim_take_transfer_last | progress auto with sim | apply sim_bind | case_bool_decide]).

Section programs.
Context {D1 D2 : Type} {H1 : SpiMaster D1} {H2 : SpiMaster D2} (R : D1 -> D2 -> Prop) {HR : SpiSim R}.
Abbreviation sm := (sim R).

Lemma sim_store_buf i x : sm (store_buf i x) (store_buf i x).
Proof. unfold store_buf. sim_auto. Qed.
Lemma sim_store_cmd i x : sm (store_cmd i x) (store_cmd i x).
Proof. unfold store_cmd. sim_auto. Qed.
#[local] Hint Resolve sim_store_buf sim_store_cmd : sim.

Lemma sim_receive_byte : sm spi_receive_byte spi_receive_byte.
Proof. unfold spi_receive_byte. sim_auto. Qed.
Lemma sim_receive n : 0 < n <= 512 -> sm (spi_receive n) (spi_receive n).
Proof. intros Hn. unfold spi_receive, for_up. sim_auto. Qed.
Lemma sim_SET_CS : sm SET_CS SET_CS.
Proof. apply sim_select; [done|by left]. Qed.
Lemma sim_CLEAR_CS : sm CLEAR_CS CLEAR_CS.
Proof. apply sim_select; [done|by right]. Qed.
Lemma sim_send_cmd c0 c1 c2 c3 c4 c5 : sm (send_cmd c0 c1 c2 c3 c4 c5) (send_cmd c0 c1 c2 c3 c4 c5).
Proof. unfold send_cmd, spi_send, MMC_CMD_SIZE. sim_auto. Qed.
#[local] Hint Resolve sim_receive_byte sim_receive sim_SET_CS sim_CLEAR_CS sim_send_cmd : sim.

Lemma sim_response_loop r n : sm (response_loop r n) (response_loop r n).
Proof. induction n as [|n IH]; cbn [response_loop]; sim_auto. Qed.
Lemma sim_response r : sm (mmc_response r) (mmc_response r).
Proof. unfold mmc_response. apply sim_bind; [apply sim_response_loop|sim_auto]. Qed.
#[local] Hint Resolve sim_response : sim.

Lemma sim_cmd1_loop n : sm (cmd1_loop n) (cmd1_loop n).
Proof. induction n as [|n IH]; cbn [cmd1_loop]; sim_auto. Qed.
Lemma sim_dummy_clocks : sm dummy_clocks dummy_clocks.
Proof. unfold dummy_clocks. sim_auto. Qed.
#[local] Hint Resolve sim_cmd1_loop sim_dummy_clocks : sim.

Lemma sim_init : sm mmc_init mmc_init.
Proof. unfold mmc_init, for_up. sim_auto. Qed.
Lemma sim_read_block b : sm (mmc_read_block b) (mmc_read_block b).
Proof. unfold mmc_read_block, MMC_BLOCK_SIZE. sim_auto. Qed.
Lemma sim_read_blocks n : forall i sector, sm (read_blocks n i sector) (read_blocks n i sector).
Proof.
  induction n as [|n IH]; intros i sector; cbn [read_blocks]; [apply sim_ret|]. apply sim_bind; [apply sim_read_block|]. intros [r d].
  apply sim_if; [apply sim_ret|]. apply sim_bind; [apply IH|]. intros [res rest]. apply sim_ret.
Qed.

(** The functions of the disk interface. *)
Lemma sim_disk_read drv sector n : sm (disk_read drv sector n) (disk_read drv sector n).
Proof. unfold disk_read. apply sim_if; [apply sim_read_blocks|apply sim_ret]. Qed.
Lemma sim_disk_initialize drv : sm (disk_initialize drv) (disk_initialize drv).
Proof. unfold disk_initialize. apply sim_if; [|apply sim_ret]. apply sim_bind; [apply sim_init|intros; apply sim_ret]. Qed.
End programs.

(** ** The driver on a slave that sends a sequence of bytes *)

(** What the slave will send, and the bytes that were exchanged, each with the
    slave select register. *)
Record line := Line { l_rx : list Z; l_log : list (Z * Z) }.

Definition line_xchg (ss x : Z) (w : line) : Z * line :=
  (default 0xff (list.head (l_rx w)), Line (tail (l_rx w)) (l_log w ++ [(ss, x)])).

(** The bytes that the events of a wire put on the line. *)
Fixpoint traffic (ss : Z) (log : list event) : list (Z * Z) :=
  match log with
  | [] => []
  | Select m :: log => traffic (u32 (Z.lnot m)) log
  | Sent l :: log => ((λ x, (ss, x)) <$> l) ++ traffic ss log
  | _ :: log => traffic ss log
  end.
Fixpoint selected (ss : Z) (log : list event) : Z :=
  match log with
  | [] => ss
  | Select m :: log => selected (u32 (Z.lnot m)) log
  | _ :: log => selected ss log
  end.

Lemma traffic_app ss l1 l2 : traffic ss (l1 ++ l2) = traffic ss l1 ++ traffic (selected ss l1) l2.
Proof. revert ss. induction l1 as [|[] l1 IH]; intros ss; simpl; rewrite ?IH, ?app_assoc; done. Qed.
Lemma selected_app ss l1 l2 : selected ss (l1 ++ l2) = selected (selected ss l1) l2.
Proof. revert ss. induction l1 as [|[] l1 IH]; intros ss; simpl; rewrite ?IH; done. Qed.

Lemma rx_take_S n rx : rx_take (S n) rx = default 0xff (list.head rx) :: rx_take n (tail rx).
Proof. unfold rx_take. destruct rx as [|x rx]; simpl; [done|]. f_equal. change (0xff :: replicate n 0xff) with (replicate (S n) 0xff). rewrite replicate_S_end, app_assoc, take_app_le; [done|]. rewrite length_app, length_replicate. lia. Qed.

Lemma line_run ss l rx log :
  xrun (xchg := line_xchg) ss l (Line rx log) = (rx_take (length l) rx, Line (drop (length l) rx) (log ++ ((λ x, (ss, x)) <$> l))).
Proof.
  revert rx log. induction l as [|x l IH]; intros rx log; cbn [xrun fmap list_fmap length].
  - by rewrite app_nil_r.
  - unfold line_xchg at 1. cbn [l_rx l_log]. rewrite IH, rx_take_S, <- app_assoc. destruct rx; cbn [list.tail]; by rewrite ?drop_nil.
Qed.

Section driver.
Context {D : Type} {bus : SpiBus D} {base : Z} {depth : nat} {core : SpiCore (bus := bus) base depth line_xchg}.
(** The status values of xstatus.h, the configuration table, the bound of the
    loops and the buffer of the transfers. *)
Context (code : xstatus -> Z) (table : list XSpi_Config) (F : nat) (buf : Z).

(** An operation of the driver; a violated assertion does not return. *)
Definition run {A} (m : ST (xst D) A) (r : A) (s : xst D) : A * xst D := default (r, s) (m s).

Definition poke (l : list Z) (s : xst D) : xst D :=
  set_xmem (λ a, if bool_decide (buf <= a < buf + Z.of_nat (length l)) then default 0 (l !! Z.to_nat (a - buf)) else xmem s a) s.
Definition peek (n : nat) (s : xst D) : list Z := (λ i, xmem s (buf + Z.of_nat i)) <$> seq 0 n.

#[export] Instance driver_spi : SpiMaster (xst D) := {|
  Mmc.XSpi_Initialize id s := let '(r, s) := run (Xspi.XSpi_Initialize table id) XST_DEVICE_NOT_FOUND s in (code r, s);
  Mmc.XSpi_SetOptions o s := (run (Xspi.XSpi_SetOptions o) XST_DEVICE_BUSY s).2;
  Mmc.XSpi_Start s := (run Xspi.XSpi_Start XST_DEVICE_IS_STARTED s).2;
  Mmc.XSpi_mIntrGlobalDisable s := (run Xspi.XSpi_mIntrGlobalDisable tt s).2;
  Mmc.XSpi_SetSlaveSelect m s := (run (Xspi.XSpi_SetSlaveSelect m) XST_DEVICE_BUSY s).2;
  Mmc.XSpi_Transfer l s :=
    let s := (run (Xspi.XSpi_Transfer F buf buf (Z.of_nat (length l))) XST_DEVICE_BUSY (poke l s)).2 in
    (peek (length l) s, s);
|}.

Lemma run_wp {A} (m : ST (xst D) A) r s (Q : A -> xst D -> Prop) : wp m s Q -> Q (run m r s).1 (run m r s).2.
Proof. intros H. apply wp_run in H as (a & s' & E & HQ). unfold run. by rewrite E. Qed.

(** The control register of the card's controller after [mmc_if_init]: master
    with manual slave select, clock polarity and phase, enabled and inhibited. *)
Definition card_cr : Z := 0x19E.

(** The driver after the events of the wire [w], where the slave was [ss0] and
    [log0] was exchanged before. *)
Record agrees (ss0 : Z) (log0 : list (Z * Z)) (w : wire) (s : xst D) : Prop := {
  ag_idle : spi_idle card_cr 0 XSP_INTR_DFT_MASK s;
  ag_slave : v_slave (vw s) = Line (w_rx w) (log0 ++ traffic ss0 (w_log w));
  ag_select : SlaveSelectReg (inst s) = selected ss0 (w_log w);
  ag_high : 2^31 <= SlaveSelectReg (inst s);
  ag_mask : 0 <= SlaveSelectMask (inst s) < 2^31;
}.

Lemma asserted_one n m : m = 0 ∨ m = 1 -> asserted n m <= 1.
Proof.
  intros Hm. assert (forall n, (0 < n)%nat -> bool_decide (Z.land (Z.shiftr m (Z.of_nat n)) 1 = 0) = true) as Hhigh.
  { intros k Hk. apply bool_decide_eq_true_2. assert (Z.shiftr m (Z.of_nat k) = 0) as -> by (destruct Hm as [-> | ->]; apply Z.shiftr_eq_0; (done || simpl; lia)). done. }
  destruct n as [|n]; [done|]. induction n as [|n IH]; [destruct Hm as [-> | ->]; done|].
  cbn [asserted] in *. rewrite (Hhigh (S n)) by lia. exact IH.
Qed.

Lemma wp_select_slave m s (Q : xstatus -> xst D -> Prop) :
  IsReady (inst s) = true -> IsBusy (inst s) = false -> m = 0 ∨ m = 1 ->
  Q XST_SUCCESS (set_inst (set_SlaveSelectReg (u32 (Z.lnot m)) (inst s)) s) -> wp (Xspi.XSpi_SetSlaveSelect m) s Q.
Proof.
  intros Hr Hb Hm HQ. unfold Xspi.XSpi_SetSlaveSelect, fld, upd. wp_pure. rewrite Hr. cbn [xassert]. wp_pure. rewrite Hb. wp_pure.
  rewrite bool_decide_eq_false_2 by (pose proof (asserted_one (Z.to_nat (NumSlaveBits (inst s))) m Hm); lia). wp_pure. exact HQ.
Qed.

Lemma select_agrees ss0 log0 m w s :
  agrees ss0 log0 w s -> m = 0 ∨ m = 1 ->
  agrees ss0 log0 (Mmc.XSpi_SetSlaveSelect m w) (Mmc.XSpi_SetSlaveSelect m s).
Proof.
  intros [Hi Hv Hs Hh Hm] H01. apply (run_wp _ _ _ (λ _ s', agrees ss0 log0 _ s')). destruct (Hi) as [Ho Hr Hst Hb Hw Hu Hc Hregs Hf].
  apply wp_select_slave; [done|done|done|]. constructor.
  - by constructor.
  - cbn [Mmc.XSpi_SetSlaveSelect wire_spi w_event w_rx w_log]. rewrite traffic_app, app_nil_r. exact Hv.
  - cbn [Mmc.XSpi_SetSlaveSelect wire_spi w_event w_rx w_log]. by rewrite selected_app.
  - destruct H01 as [-> | ->]; done.
  - done.
Qed.

(** The answers that a transfer leaves in the buffer. *)
Lemma peek_exchanged l w s s' :
  exchanged buf l (poke l s) s' -> buf ≠ 0 -> v_slave (vw s) = w ->
  peek (length l) s' = (xrun (xchg := line_xchg) (SlaveSelectReg (inst s)) l w).1.
Proof.
  intros [_ Hm _ _ _] Hb Hw. assert (length (xrun (xchg := line_xchg) (SlaveSelectReg (inst s)) l w).1 = length l) as Hl.
  { destruct w. rewrite line_run. cbn [fst]. unfold rx_take. rewrite length_take, length_app, length_replicate. lia. }
  apply list_eq. intros i. unfold peek. rewrite list_lookup_fmap. destruct (decide (i < length l)%nat).
  - rewrite lookup_seq_lt by done. cbn [fmap option_fmap option_map]. rewrite Hm, bool_decide_eq_true_2 by lia.
    change (vw (poke l s)) with (vw s). change (inst (poke l s)) with (inst s). rewrite Hw, Nat.add_0_l.
    replace (Z.to_nat (buf + Z.of_nat i - buf)) with i by lia.
    destruct (lookup_lt_is_Some_2 (xrun (xchg := line_xchg) (SlaveSelectReg (inst s)) l w).1 i) as [x ->]; [lia|done].
  - rewrite lookup_seq_ge, lookup_ge_None_2 by lia. done.
Qed.

Context (HF : (512 < F)%nat) (HL : (max_latency < F)%nat) (Hbuf : 0 < buf).

Lemma poke_buffers l s : (0 < length l <= 512)%nat -> buffers buf buf l (poke l s).
Proof.
  intros Hl. constructor; [|lia|lia|right; lia]. split; [lia|]. intros i x Hx. pose proof (lookup_lt_Some _ _ _ Hx).
  cbn [xmem poke set_xmem]. rewrite bool_decide_eq_true_2 by lia. by replace (Z.to_nat (buf + Z.of_nat i - buf)) with i by lia; rewrite Hx.
Qed.

Lemma poke_idle c g e l s : spi_idle c g e s -> spi_idle c g e (poke l s).
Proof. intros []. by constructor. Qed.

Lemma transfer_agrees ss0 log0 l w s :
  agrees ss0 log0 w s -> (0 < length l <= 512)%nat ->
  (Mmc.XSpi_Transfer l w).1 = (Mmc.XSpi_Transfer l s).1 ∧ agrees ss0 log0 (Mmc.XSpi_Transfer l w).2 (Mmc.XSpi_Transfer l s).2.
Proof.
  intros [Hi Hv Hs Hh Hm] Hl. cbn [Mmc.XSpi_Transfer driver_spi wire_spi fst snd].
  pose proof (run_wp _ XST_DEVICE_BUSY _ _ (polled_spec card_cr XSP_INTR_DFT_MASK buf buf l F (poke l s)
    (poke_idle _ _ _ l s Hi) (poke_buffers l s Hl) ltac:(unfold no_slave; rewrite !andb_false_iff; right; apply bool_decide_eq_false_2; cbn [inst poke set_xmem]; lia)
    ltac:(lia) HL)) as (_ & Hid & Hex & _ & _).
  set (s' := (run _ _ _).2) in *. pose proof (peek_exchanged l _ s s' Hex ltac:(lia) Hv) as Hp. rewrite line_run in Hp. destruct Hex as [Hsl _ _ [Hsr Hsm] _].
  split; [by rewrite Hp|]. constructor; [done| |cbn [w_log]; rewrite Hsr, selected_app; exact Hs|by rewrite Hsr|by rewrite Hsm].
  rewrite Hsl. change (vw (poke l s)) with (vw s). change (inst (poke l s)) with (inst s). rewrite Hv, line_run, Hs.
  cbn [snd w_rx w_log]. rewrite traffic_app, <- app_assoc. cbn [traffic]. by rewrite app_nil_r.
Qed.

#[export] Instance driver_sim ss0 log0 : SpiSim (agrees ss0 log0).
Proof. constructor; [intros; by apply transfer_agrees|intros; by apply select_agrees]. Qed.

(** A configuration of a controller of bytes that can be a master. *)
Record card_config (id : Z) (cfg : XSpi_Config) : Prop := {
  cc_lookup : XSpi_LookupConfig table id = Some cfg;
  cc_base : BaseAddress cfg = base;
  cc_slaves : 0 < cfg_NumSlaveBits cfg < 31;
  cc_master : cfg_SlaveOnly cfg = false;
  cc_width : cfg_DataWidth cfg = 0 ∨ cfg_DataWidth cfg = XSP_DATAWIDTH_BYTE;
}.

Lemma setup_agrees id cfg rx log0 s :
  card_config id cfg -> IsStarted (inst s) = false -> quiet (vw s) -> is_u16 (v_cr (vw s)) -> v_slave (vw s) = Line rx log0 ->
  (Mmc.XSpi_Initialize id s).1 = code XST_SUCCESS ∧
  agrees 0 log0 (Wire rx [Select 0]) (Mmc.XSpi_SetSlaveSelect 0 (Mmc.XSpi_mIntrGlobalDisable (Mmc.XSpi_Start
    (Mmc.XSpi_SetOptions 0x17 (Mmc.XSpi_Initialize id s).2)))).
Proof.
  intros [Hlk Hb Hn Hso Hw] Hst Hq Hu Hsl. cbn [Mmc.XSpi_Initialize driver_spi].
  pose proof (run_wp _ XST_DEVICE_NOT_FOUND _ _ (initialize_spec table id cfg s Hlk Hb ltac:(lia) Hst Hq Hu)) as (Hr & Ei & Ee & (ssr & Ev) & _).
  destruct (run _ _ s) as [r s1]. cbn [fst snd] in *. split; [by rewrite Hr|]. clear Hr Hst Hq Hu.
  pose proof (run_wp _ XST_DEVICE_BUSY _ _ (set_options_spec 0x17 s1 ltac:(unfold ours; by rewrite Ei) ltac:(by rewrite Ei) ltac:(by rewrite Ei)
    ltac:(right; by rewrite Ei) ltac:(rewrite Ev; by left) ltac:(rewrite Ev; vm_compute; split; congruence))) as (_ & Ei2 & _ & _ & Ev2 & _).
  cbn [Mmc.XSpi_SetOptions driver_spi]. set (s2 := (run _ _ s1).2) in *. rewrite Ei in Ei2. rewrite Ev in Ev2. change (vw s2 = MkView 0x19C 0 0 ssr [] [] (v_slave (vw s))) in Ev2.
  pose proof (run_wp _ XST_DEVICE_IS_STARTED _ _ (start_spec s2 ltac:(by rewrite Ei2) ltac:(by rewrite Ei2) ltac:(by rewrite Ei2)
    ltac:(by rewrite Ev2) ltac:(rewrite Ev2; vm_compute; split; congruence))) as (_ & [Ei3 Ev3 _ _ _]).
  cbn [Mmc.XSpi_Start driver_spi]. set (s3 := (run _ _ s2).2) in *. rewrite Ei2 in Ei3. rewrite Ev2 in Ev3.
  change (vw s3 = MkView card_cr XSP_GINTR_ENABLE_MASK XSP_INTR_DFT_MASK ssr [] [] (v_slave (vw s))) in Ev3.
  assert (wp Xspi.XSpi_mIntrGlobalDisable s3 (λ _ s', leads (inst s3) (write_gie 0 (vw s3)) s3 s')) as Hd.
  { apply quiet_set_gie; [by rewrite Ei3|rewrite Ev3; by left|done]. }
  apply (run_wp _ tt) in Hd as [Ei4 Ev4 _ _ _]. cbn [Mmc.XSpi_mIntrGlobalDisable driver_spi]. set (s4 := (run _ _ s3).2) in *.
  rewrite Ei3 in Ei4. rewrite Ev3 in Ev4. cbn [Mmc.XSpi_SetSlaveSelect driver_spi]. apply (run_wp _ _ _ (λ _ s', agrees _ _ _ s')).
  apply wp_select_slave; [by rewrite Ei4|by rewrite Ei4|by left|].
  assert (Z.shiftl 1 (cfg_NumSlaveBits cfg) = 2 ^ cfg_NumSlaveBits cfg) as Hsh by (rewrite Z.shiftl_mul_pow2; lia).
  assert (0 < 2 ^ cfg_NumSlaveBits cfg < 2^31) as Hpow by (split; [apply Z.pow_pos_nonneg; lia|apply Z.pow_lt_mono_r; lia]).
  constructor; [constructor|..]; unfold ours; cbn [inst set_inst]; change (vw (set_inst ?i ?s)) with (vw s); rewrite ?Ei4, ?Ev4; try done.
  - change ((if bool_decide (cfg_DataWidth cfg = 0) then XSP_DATAWIDTH_BYTE else cfg_DataWidth cfg) = XSP_DATAWIDTH_BYTE).
    destruct Hw as [-> | ->]; done.
  - cbn [v_slave write_gie]. by rewrite Hsl, app_nil_r.
  - change (0 <= Z.shiftl 1 (cfg_NumSlaveBits cfg) - 1 < 2^31). lia.
Qed.

(** [mmc_if_init] in front of a program that was verified on the wire. *)
Lemma if_init_sim {A} (m1 : ST (mmc wire) A) (m2 : ST (mmc (xst D)) A) id cfg rx log0 (s : mmc (xst D)) s1' a :
  (forall log0, sim (agrees 0 log0) m1 m2) -> code XST_SUCCESS = 0 -> card_config id cfg -> IsStarted (inst (spi_sd s)) = false ->
  quiet (vw (spi_sd s)) -> is_u16 (v_cr (vw (spi_sd s))) -> v_slave (vw (spi_sd s)) = Line rx log0 ->
  m1 (MkMmc (mmc_cmd s) (sd_buf s) (Wire rx [Select 0]) (mmc_out s)) = Some (a, s1') ->
  exists s', (r ← mmc_if_init id; x ← m2; mret (r, x)) s = Some ((0, a), s') ∧ same (agrees 0 log0) s1' s'.
Proof.
  intros Hsim Hcode Hcfg Hst Hq Hu Hsl E. destruct (setup_agrees id cfg rx log0 (spi_sd s) Hcfg Hst Hq Hu Hsl) as [Hr Ha].
  cut (wp (r ← mmc_if_init id; x ← m2; mret (r, x)) s (λ r s', r = (0, a) ∧ same (agrees 0 log0) s1' s')).
  { intros (r & s' & E' & -> & H)%wp_run. by exists s'. }
  apply wp_bind. unfold mmc_if_init. wp_pure. destruct (Mmc.XSpi_Initialize id (spi_sd s)) as [r d]. cbn [fst snd] in *.
  wp_pure. rewrite bool_decide_eq_false_2 by (rewrite Hr, Hcode; auto). wp_pure.
  destruct (Hsim log0 (MkMmc (mmc_cmd s) (sd_buf s) (Wire rx [Select 0]) (mmc_out s))
    (set_spi_sd (Mmc.XSpi_SetSlaveSelect 0 (Mmc.XSpi_mIntrGlobalDisable (Mmc.XSpi_Start (Mmc.XSpi_SetOptions 0x17 d)))) s) a s1')
    as (s2' & E2 & Hs2); [by constructor|exact E|].
  apply wp_bind, wp_run. exists a, s2'. split; [exact E2|]. wp_pure. done.
Qed.

(** A request of the file system to the disk layer. *)
Inductive request := Initialize (drv : Z) | Status (drv : Z) | Read (drv sector count : Z).
Inductive answer := Status_is (st : Z) | Read_is (res : DRESULT) (data : list Z).

Definition perform {D'} `{SpiMaster D'} (q : request) : ST (mmc D') answer :=
  match q with
  | Initialize drv => x ← disk_initialize drv; mret (Status_is x)
  | Status drv => x ← disk_status drv; mret (Status_is x)
  | Read drv sector count => x ← disk_read drv sector count; let '(res, data) := (x : DRESULT * list Z) in mret (Read_is res data)
  end.
Fixpoint perform_all {D'} `{SpiMaster D'} (qs : list request) : ST (mmc D') (list answer) :=
  match qs with
  | [] => mret []
  | q :: qs => x ← perform q; xs ← perform_all qs; mret (x :: xs)
  end.

Lemma sim_perform_all ss0 log0 qs : sim (agrees ss0 log0) (perform_all qs) (perform_all qs).
Proof.
  induction qs as [|q qs IH]; cbn [perform_all]; [apply sim_ret|]. apply sim_bind.
  - destruct q; cbn [perform]; (apply sim_bind; [apply sim_disk_initialize || apply sim_disk_read || apply sim_ret|]; try typeclasses eauto).
    all: first [intros [res data] | intros st]; apply sim_ret.
  - intros x. apply sim_bind; [done|]. intros xs. apply sim_ret.
Qed.

(** C10: The SPI driver, on any controller with the documented registers and FIFOs that is the only master (no mode
    faults), is configured as a master of bytes and does not transmit at first, implements the wire on which the card
    driver is verified. After [mmc_if_init], every sequence of requests to
    the disk layer gets the answers that it gets on a wire with the same bytes
    from the card, and the card sees exactly the bytes of the wire, each with the slave
    select of the wire. *)
Theorem driver_refines_wire id cfg qs rx log0 (s : mmc (xst D)) s1 xs :
  code XST_SUCCESS = 0 -> card_config id cfg -> IsStarted (inst (spi_sd s)) = false -> quiet (vw (spi_sd s)) ->
  is_u16 (v_cr (vw (spi_sd s))) -> v_slave (vw (spi_sd s)) = Line rx log0 ->
  perform_all qs (MkMmc (mmc_cmd s) (sd_buf s) (Wire rx [Select 0]) (mmc_out s)) = Some (xs, s1) ->
  exists s', (r ← mmc_if_init id; x ← perform_all qs; mret (r, x)) s = Some ((0, xs), s') ∧
    v_slave (vw (spi_sd s')) = Line (w_rx (spi_sd s1)) (log0 ++ traffic 0 (w_log (spi_sd s1))) ∧
    mmc_out s' = mmc_out s1.
Proof.
  intros Hcode Hcfg Hst Hq Hu Hsl E.
  destruct (if_init_sim (perform_all qs) (perform_all qs) id cfg rx log0 s s1 xs) as (s' & E' & [_ _ [] Ho]); try done.
  { intros log. apply sim_perform_all. } by exists s'.
Qed.

(** Reading sectors through the SPI driver. For every controller and every
    card that answers each read command, initialising the interface and reading
    [length rs] sectors gives exactly the blocks that the card sent, and
    the card received exactly the read commands, selected for each of them
    and deselected afterwards. *)
Theorem disk_read_over_spi id cfg rs sector rx log0 (s : mmc (xst D)) :
  code XST_SUCCESS = 0 -> card_config id cfg -> IsStarted (inst (spi_sd s)) = false -> quiet (vw (spi_sd s)) ->
  is_u16 (v_cr (vw (spi_sd s))) -> v_slave (vw (spi_sd s)) = Line (concat (reply_bytes <$> rs) ++ rx) log0 ->
  length (mmc_cmd s) = 6%nat -> length (sd_buf s) = 512%nat -> Forall reply_ok rs ->
  exists s', (r ← mmc_if_init id; x ← disk_read SD sector (Z.of_nat (length rs)); mret (r, x)) s =
      Some ((0, (RES_OK, concat (r_data <$> rs))), s') ∧
    v_slave (vw (spi_sd s')) = Line rx (log0 ++ traffic 0 (Select 0 :: replies_log 0 sector rs)).
Proof.
  intros Hcode Hcfg Hst Hq Hu Hsl Hc Hb Hok.
  set (s0 := MkMmc (mmc_cmd s) (sd_buf s) (Wire (concat (reply_bytes <$> rs) ++ rx) [Select 0]) (mmc_out s)).
  pose proof (read_blocks_spec rs 0 sector (mmc_cmd s) rx [Select 0] s0 ltac:(by constructor) Hc Hok) as (res & s1 & E & -> & cmd' & _ & [_ Hrx Hlog _])%wp_run.
  destruct (if_init_sim (disk_read SD sector (Z.of_nat (length rs))) (disk_read SD sector (Z.of_nat (length rs)))
    id cfg (concat (reply_bytes <$> rs) ++ rx) log0 s s1 (RES_OK, concat (r_data <$> rs))) as (s' & E' & [_ _ [_ Hv _ _ _] _]); try done.
  - intros log. apply sim_disk_read. typeclasses eauto.
  - unfold disk_read. by rewrite bool_decide_eq_true_2, Nat2Z.id.
  - exists s'. split; [exact E'|]. by rewrite Hv, Hrx, Hlog.
Qed.
End driver.

(** ** Examples *)
Section samples.
#[local] Instance card_bus : SpiBus soft := soft_bus 0x2000 16 line_xchg.
#[local] Instance card_core : SpiCore 0x2000 16 line_xchg := soft_core 0x2000 16 line_xchg ltac:(lia) ltac:(lia).
Definition sample_config : XSpi_Config := MkConfig 3 0x2000 true false 1 8.
Definition sample_code (x : xstatus) : Z := match x with XST_SUCCESS => 0 | _ => 1 end.
#[local] Instance card_spi : SpiMaster (xst soft) := driver_spi sample_code [sample_config] 600 0x100.

Definition sample_reply : reply := Reply (replicate 6 0xff) [0xff; 0xff] [0xff] (replicate 512 7) (1, 2) 0xff.

(** A driver that was not started, on a controller after power-up. *)
Definition sample_mmc : mmc (xst soft) :=
  MkMmc (replicate 6 0) (replicate 512 0)
    (MkXst (MkXSpi (MkStats 0 0 0 0 0 0) 0 false false false false 0 0 0 0 0 0 0 0 false StubStatusHandler 0)
      (Soft (MkView 0x180 0 0 0xFFFFFFFF [] [] (Line (concat (reply_bytes <$> [sample_reply])) [])) 0) (λ _, 0) []) [].

Lemma sample_reply_ok : Forall reply_ok [sample_reply].
Proof. constructor; [|done]. constructor; simpl; try done; try (split; [set_solver by lia|lia]). Qed.

Lemma sample_card_config : card_config (base := 0x2000) [sample_config] 3 sample_config.
Proof. constructor; [done|done|done|done|by right]. Qed.

Lemma disk_read_over_spi_witness : exists s',
  (r ← mmc_if_init 3; x ← disk_read SD 5 1; mret (r, x)) sample_mmc = Some ((0, (RES_OK, replicate 512 7)), s').
Proof.
  destruct (disk_read_over_spi sample_code [sample_config] 600 0x100 ltac:(lia) ltac:(simpl; lia) ltac:(lia) 3 sample_config [sample_reply] 5 [] [] sample_mmc)
    as (s' & E & _); [done|exact sample_card_config|done|by left|vm_compute; split; congruence|by rewrite app_nil_r|done|done|exact sample_reply_ok|].
  exists s'. exact E.
Defined.

Lemma driver_refines_wire_witness : exists s',
  (r ← mmc_if_init 3; x ← perform_all [Status 0; Read 1 5 1; Read 0 5 1]; mret (r, x)) sample_mmc =
    Some ((0, [Status_is 0; Read_is RES_PARERR []; Read_is RES_OK (replicate 512 7)]), s').
Proof.
  edestruct (driver_refines_wire sample_code [sample_config] 600 0x100 ltac:(lia) ltac:(simpl; lia) ltac:(lia) 3 sample_config
    [Status 0; Read 1 5 1; Read 0 5 1] (concat (reply_bytes <$> [sample_reply])) [] sample_mmc) as (s' & E & _);
    [done|exact sample_card_config|done|by left|vm_compute; split; congruence|done|vm_compute; reflexivity|].
  exists s'. exact E.
Defined.
End samples.
